(* ===== verification/_CoqProject ===== *)
-Q . S2P
Prelude.v
GoStd.v
Models.v
UnionFind.v
GoFloat.v
DiscPaths.v
Paths.v
Titles.v
Versions.v
Criteria.v
Ranking.v
Flags.v
CrossServer.v
Decide.v
DecideFacts.v
Explain.v
Evaluate.v
Fixtures.v
Validate.v
EvaluateFacts.v
Safety.v
Group.v
ExecGuards.v
GroupFacts.v
Spec.v
ResultFacts.v
EngineTheorems.v
GroupTheorems.v
RankTheorems.v
Commands.v
CommandsInv.v
CommandsFrame.v
CommandTheorems.v
Pathmap.v
PathmapTheorems.v
Store.v
StoreFacts.v
StoreTheorems.v
ExecModel.v
FileId.v
ExecWorld.v
ExecApprove.v
ExecVerify.v
ExecAssess.v
ExecRun.v
ExecFacts.v
ServerFacts.v
ExecInv.v
ExecVerifyFacts.v
ExecTheorems.v
ExecStore.v
ApproveFacts.v
ApproveTheorems.v
Bytes.v
Bdmv.v
BdmvEncode.v
BdmvFacts.v
ClipFacts.v
Dvd.v
ParserFacts.v
FileSys.v
Recycle.v
RecycleFacts.v
RecycleTheorems.v
ExecMethods.v
MainFeature.v
MainFacts.v
DiscTheorems.v
GoNet.v
Limiter.v
LimiterFacts.v
Network.v
Session.v
Middleware.v
Login.v
AuthFacts.v
SessionTheorems.v
AuthTheorems.v
LoginTheorems.v
MethodTheorems.v
