(* ===== verification/Prelude.v ===== *)
(** * Dupearr: deciding, approving and removing duplicates, verified

    Dupearr finds duplicate copies of movies and episodes on media servers
    (Plex, Jellyfin), decides which copies to keep, and removes the others
    through Radarr/Sonarr, Plex or the filesystem. A wrong decision deletes a
    person's only copy. This development models the part of the Go program that
    takes the decisions (src/internal/engine with src/internal/models, the path
    rules of src/internal/disc and the 3D rule of src/internal/mediainfo) as
    executable functions, and proves what makes the decisions safe. It models
    what happens to the decisions afterwards: the transactions that store groups
    and removals (src/internal/database), approval, and the run that carries the
    removals out (src/internal/executor) with the path mappings it relies on
    (src/internal/pathmap). It also models the queue that runs scans and removals
    in the background (src/internal/commands) as a transition system, and the parsers
    of Blu-ray and DVD metadata with the choice of the main title (src/internal/disc),
    and who may use the program at all (src/internal/auth).

    ** How the program works, and where it is modelled

    A scan produces [MediaItem]s. [BuildGroups] (engine/group.go) turns them into
    [DuplicateGroup]s; [Evaluate] (engine/evaluate.go) ranks the versions of one
    group with a [Profile], decides keep or remove for each, and sets flags,
    reasons, signature and status; [ValidateDecisions] re-checks the decisions
    before an approval and before the executor acts; execguards.go repeats the
    exclusions and protections on stored groups. A scan stores the evaluated
    groups ([Upsert]); an approval ([ApproveReviewed]) queues one removal per file
    to remove; a run ([ProcessQueue]) takes the queued removals group by group,
    checks everything again against the database, the servers, the *arrs and the
    disk, and only then removes; after a restart [recoverInterrupted] fails what
    was running.

    - [Prelude]: lists, booleans by index, stable sorting, folds over a range,
      64-bit wrap-around, and the tactics every file uses.
    - [GoStd], [GoFloat], [GoNet]: the parts of Go's standard library the source
      uses (strings, path, strconv, RE2 matching with leftmost-first semantics,
      SHA-1, SHA-256 and HMAC with test vectors; IEEE binary64 on the Standard
      Library's SpecFloat; net, net/netip and net/url).
    - [Models]: internal/models (media.go, entities.go, keys.go).
    - [UnionFind]: the union-find of helpers.go, proved to compute the
      equivalence generated by sharing a key.
    - [DiscPaths]: internal/disc/paths.go. [Paths],
      [Titles], [Versions]: helpers.go (paths and globs; titles, years,
      editions, languages and 3D; version predicates and same-file keys).
    - [Criteria]: criteria.go and watch.go, one metric per enabled criterion.
      [Ranking]: metric.survivors, rank and partition of evaluate.go. [Flags]:
      the flags, duration comparison and mismatched-merge guard of group.go.
      [CrossServer]: crossserver.go.
    - [Decide]: newEvaluation and decide of evaluate.go. The fields of the Go
      struct [evaluation] that are fixed before deciding are the record
      [evaluation], those that change are the record [dstate]; each pass of the
      source (keepPlayable, protectSameFile, protectOtherServers, overrides) is a
      function on [dstate]. [ev_decide] is the source's [decide] ([decide] is
      stdpp's). [DecideFacts] holds the invariants of these passes.
    - [Explain], [Evaluate]: annotate, versus, explain, finish, status and
      [Evaluate]; [EvaluateFacts], [ResultFacts] their lemmas.
    - [Validate]: [ValidateDecisions]. [Safety], [Spec]: the relational
      specification [safe_decisions] of what an evaluation promises, and the
      interface [SafeEngine] against which a client of the engine can be proved.
    - [Group], [GroupFacts]: [BuildGroups]. [ExecGuards]: execguards.go.
    - [Commands]: the Manager of internal/commands/commands.go: one function per
      critical section, the goroutine of a command as the phase of its entry, and
      [mstep], which interleaves all of them in any order over the commands table.
      At its end scheduler.go (next run, due check, recording a run).
      [CommandsInv] states the invariants and proves that every step keeps them, [CommandsFrame] says what a step may change.
    - [Pathmap]: pathmap.go, both translations and the fingerprint.
    - [Store]: the tables of duplicate groups, their files and the removals, one
      function per transaction of repo_groups.go and repo_activity.go that changes
      them (and of repo_connections.go, where deleting a server or an *arr cancels
      removals), and [sstep], any of these transactions. [StoreFacts]: its invariants.
    - [FileId]: internal/fileid/fileid.go, when two paths are proven different files,
      with the mount table it reads. Its system calls are the record [hooks].
    - [ExecModel], [ExecWorld]: what the executor reads (configuration, groups)
      and the monad it runs in: a state (the database, the state of the run, a
      trace of the removals started) passed through a [World], which answers every
      call that leaves the program (a server, an *arr, the filesystem, the clock)
      and may change the database by any transactions of other callers between two
      steps. Every call may fail.
    - [ExecApprove]: approving, cancelling and recovering (executor.go, recover.go).
      [ExecVerify]: verify.go, what a stored version must show before it is removed
      or relied on. [ExecAssess]: the guards of process.go, guards.go,
      readonly.go and the live checks of other servers (crossserver.go) up to the
      verdict on a group, with the listing fingerprint of mediaserver.go; how a removal is then carried out
      is the interface [Methods], which [ExecMethods] implements in part. [ExecRun]: the run itself, from the budget and
      the status of a removal to [ProcessQueue].
    - [ExecFacts] is a small program logic for that monad (what a program keeps,
      whatever the world answers); [ServerFacts] what the checks of other
      servers establish; [ExecInv] the invariants of a run;
      [ExecVerifyFacts], [ExecStore], [ApproveFacts] its results on the parts, with a
      concrete world, configuration and run.
    - [FileSys]: confined.go and rename_at.go on a model of the disk in which every
      call may fail. [Recycle]: performFS, performDisc, restoreMoves and
      restoreDiscMoves with their rollbacks. [RecycleFacts]: what a move leaves in
      place and what undoing a batch of moves restores.
    - [ExecMethods]: how a removal is carried out: the plans of the deletion methods
      with their checks and the order they are tried in (methods.go, disc.go,
      fsops.go, readonly.go), planning and recording a restore, emptying the recycle
      bin (restore.go). What planning reads of the disk and of other programs is the
      record [plan_env]; [selecting] plugs the choice into the run.
    - [Bytes]: the bounds-checked reader of disc/reader.go and the writer of
      testutil/fakemedia/bdmv.go. [Bdmv], [Dvd]: every parser of disc/bdmv.go and
      disc/dvd.go, where an index out of range is the outcome [Panic].
      [BdmvEncode] and the end of [Dvd]: the encoders the repository writes its disc
      fixtures with. [MainFeature]: mainfeature.go, lang.go and what inspect.go
      makes of a DVD title set. The lemmas of [Bytes], [BdmvFacts] and [ClipFacts]
      follow the encoders through the parsers; [ParserFacts] follows the parsers on any
      bytes; [MainFacts] is on the selection.
    - [Limiter]: auth/limiter.go. [Network]: auth/network.go, the proxies and hosts
      that are believed and the client's address. [Session]: auth/session.go, tokens
      with real HMAC-SHA256, base64 and hexadecimal, verification in its two halves
      around the look-up of the user, revocation. [Middleware]: middleware.go and
      webhook.go, with the state of the package as the record [service]. [Login]:
      auth.go, signing in, accounts and first-run setup. [LimiterFacts],
      [AuthFacts]: their lemmas, and a service with its requests.
    - [Fixtures]: concrete versions, profiles and groups for the witnesses, with
      concrete instances of the parameters below.

    ** What the theorems show

    - [EngineTheorems]: the decisions of an actionable group are safe and
      [ValidateDecisions] is exactly the relational specification; protected
      versions are kept whatever the overrides ask; an eligible keeper always
      remains; same-file chains stay together; no other server loses its last
      copy; the loops end; the ranking keeps the top of every partition; ages,
      flags, report-only groups, reclaimable bytes and signatures.
    - [GroupTheorems]: unique sorted keys, what a candidate is, variants that
      partition and are homogeneous, merges only within one scope, exclusions
      that cover stored groups.
    - [RankTheorems]: the one-pass criterion filter equals the brute-force one,
      criteria are lexicographic, same-file components are the chains of shared
      keys, durations are compared per episode count, files of a disc are kept.
    - [CommandTheorems]: for every interleaving, handler result and failed write:
      lanes are bounded, identical commands are joined, a waiting command's lane is
      full, a handler runs only with its start recorded, a recorded outcome stays,
      a goroutine that runs undisturbed frees its lane; a task's schedule is not postponed by checks.

    - [StoreTheorems]: for every sequence of transactions: a pending removal is of
      a file still to be removed, cancelled and succeeded removals are not queued or
      started again, cancelled groups are reopened, overrides survive, a stored group has a keeper or is for review.
    - [PathmapTheorems]: normal paths, the longest prefix of whole segments wins,
      and there and back again.
    - [ExecTheorems]: for every world: a run removes only what its group, read and
      checked in the run, still decides to remove, leaves a copy confirmed after the group was read and before the removal, starts
      only recorded removals, never in a dry run, within its limits, and stops
      after three failures; a resolved group had every removal succeed; with several
      servers, every other server that lists a removed file keeps another copy and its
      libraries are as the scan saw them. [FileId] ends with what a proof that two
      files differ rests on, and that a mount table is read back as it was written.
    - [ApproveTheorems]: what an approval queues, stores and needs, that it takes
      effect when undisturbed, what recovery leaves, and that the executor writes by transactions
      only, so that the theorems on the store hold of it.

    - [RecycleTheorems]: whatever calls fail, removing into the recycle bin, moving a
      disc and restoring lose nothing and change nothing else; what a permanent removal unlinks.
    - [MethodTheorems]: a removal a run carries out has a checked plan, confined to
      the mapped folders and its server's libraries; the recycle bin is apart from
      everything it could swallow; what is moved there is found again by a restore,
      which is as confined and is not undone by the next run; only what expired is emptied.
    - [DiscTheorems]: playlists, clips, indexes and DVD times as encoded are read
      back; no bytes make a parser panic and what it reads is bounded; what the kept
      playlists, the main title and the other cuts of a disc are.
    - [AuthTheorems]: which requests are served, what a rebinding page or an escaped
      path cannot reach, whose address a client has, how wide a trusted range is.
    - [SessionTheorems]: a cookie verifies as the session it was issued for; over every
      interleaving of requests with logouts, revocations and password changes, an
      accepted request's session is good when it is accepted, and a logout holds.
    - [LoginTheorems]: guesses per hour of one user name, and who gets the first account.

    ** Bounds and fuel

    The only loops that are not structural run on fuel: ranking removes one
    version per round (fuel = number of versions); the other-servers loop keeps
    one more version per pass (fuel = versions + 1, [other_servers_loop_ends]);
    union-find paths descend (fuel = index + 1); the "~n" key suffix tries at most
    one key more than are used; regular expressions get the length of the text.
    The 29 guesses of [hourly_guesses] are the least number of attempts whose delays
    add up to more than an hour under the policy for user names.
    Integers are Z with int64 wrap-around where the source adds sizes, scores or
    durations; floats are binary64.

    ** Parameters

    Code that is not in the repository is a type class: [Unicode] (the tables of
    Go's unicode package), [Doublestar] (the glob library), [RegexSyntax]
    (regexp.Compile of patterns a user typed), [Bcrypt] (password hashing). The wall clock is an argument. No
    theorem assumes anything of them; the witnesses use the instances of
    [Fixtures]. The [World] of the executor is an argument too; [env_ok] says that
    other callers change the database by transactions only, [calm_world] that
    nobody else writes and no call fails. [eval_resolves] says that resolving symbolic
    links gives a clean path, absolute for an absolute one (filepath.EvalSymlinks).
    [opener_ok] and [opener_frames] say of opening folders inside a root (os.Root) that
    folders moved from and folders moved into are different ones and that entries
    elsewhere are left alone.

    ** Not modelled

    The text shown for metric values and the Values table (ranking lines name the
    criterion and the versions instead); the list of queued downloads in the
    queue-busy reason ([SIQueueBusy]); thumbnails; a nil group; the order in which
    Go iterates the excluded group keys (it only chooses which covering key is
    named). Deep copies of the source are values. The command queue leaves out event
    publishing, the deletion of old rows by housekeeping, and the shortening of
    messages; the store leaves out history, statistics and the texts of messages. Of
    the executor: the opening of folders is an oracle; telling the servers and asking for a scan
    afterwards is left out; the path mappings an approval reads are read when it starts.
    Reasons of a comparison of files are left out.
    The scanner, the clients of media servers and *arrs, the API, backups and the other
    services (api, audit, backup, config, events, health, integrations,
    notifications, scanner, testutil) are I/O around these parts and not
    modelled. Of authentication: logs,
    the audit trail, cookie attributes, the persistence of keys and revocations (a
    restart) and hashing slots; the theorems on sessions take signatures as values and
    assume nothing of their strength. Of the disc package, walking directories and hashing files are
    left out; error texts are the three kinds of error. *)

From stdpp Require Export base gmap sets list strings sorting numbers option pretty relations.
From Stdlib Require Export ZArith Lia Ascii.

(** ** Notations

    [s +:+ t] is stdpp's string append; the scope below only adds the guarded
    boolean negation the translated conditions use. *)
Declare Scope dup_scope.
Delimit Scope dup_scope with dup.
Notation "! b" := (negb b) (at level 35, right associativity) : dup_scope.
Global Open Scope dup_scope.

(** ** Automation *)

(** Lemmas that close goals about the boolean slices and the list operations
    shared by the components. *)
Create HintDb dup discriminated.
#[export] Hint Constants Opaque : dup.
#[export] Hint Variables Opaque : dup.

(** Turns boolean tests of the translated code into propositions. *)
Ltac bsimp :=
  repeat match goal with
  | H : _ && _ = true |- _ => apply andb_true_iff in H; destruct H
  | H : _ || _ = false |- _ => apply orb_false_iff in H; destruct H
  | H : negb _ = true |- _ => apply negb_true_iff in H
  | H : negb _ = false |- _ => apply negb_false_iff in H
  | H : true = _ |- _ => symmetry in H
  | H : false = _ |- _ => symmetry in H
  | H : (_ =? _)%Z = true |- _ => apply Z.eqb_eq in H
  | H : (_ =? _)%Z = false |- _ => apply Z.eqb_neq in H
  | H : (_ <? _)%Z = true |- _ => apply Z.ltb_lt in H
  | H : (_ <? _)%Z = false |- _ => apply Z.ltb_ge in H
  | H : (_ <=? _)%Z = true |- _ => apply Z.leb_le in H
  | H : (_ <=? _)%Z = false |- _ => apply Z.leb_gt in H
  | H : (_ =? _)%nat = true |- _ => apply Nat.eqb_eq in H
  | H : (_ =? _)%nat = false |- _ => apply Nat.eqb_neq in H
  | H : (_ <? _)%nat = true |- _ => apply Nat.ltb_lt in H
  | H : (_ <? _)%nat = false |- _ => apply Nat.ltb_ge in H
  end.

(** Case analysis on the scrutinee of the first [match]/[if] of the goal. *)
Ltac case_goal :=
  match goal with
  | |- context [ if ?b then _ else _ ] => destruct b eqn:?
  | |- context [ match ?x with _ => _ end ] => destruct x eqn:?
  end.

(** ** Machine integers

    Go's [int64] (and [int] on the 64-bit targets) as a [Z] with the
    wrap-around written out. *)
Definition wrap64 (z : Z) : Z := (z + 2 ^ 63) mod 2 ^ 64 - 2 ^ 63.
Definition max_int64 : Z := 2 ^ 63 - 1.
Definition min_int64 : Z := - 2 ^ 63.

Lemma wrap64_range z : (min_int64 <= wrap64 z <= max_int64)%Z.
Proof.
  unfold wrap64, min_int64, max_int64.
  pose proof (Z.mod_pos_bound (z + 2 ^ 63) (2 ^ 64) ltac:(lia)). lia.
Qed.

Lemma wrap64_id z : (min_int64 <= z <= max_int64)%Z -> wrap64 z = z.
Proof.
  unfold wrap64, min_int64, max_int64. intros H.
  rewrite Z.mod_small; lia.
Qed.

(** ** Boolean slices

    A Go [[]bool] of fixed length, indexed in range by construction; reading
    out of range is [false] and writing out of range changes nothing (neither
    happens: every index is below the number of versions). *)
Definition bget (l : list bool) (i : nat) : bool := default false (l !! i).
Definition bset (l : list bool) (i : nat) (b : bool) : list bool := <[i:=b]> l.

Lemma bget_bset_eq l i b : i < length l -> bget (bset l i b) i = b.
Proof. intros H. unfold bget, bset. by rewrite list_lookup_insert_eq. Qed.

Lemma bget_bset_ne l i j b : i <> j -> bget (bset l i b) j = bget l j.
Proof. intros H. unfold bget, bset. by rewrite list_lookup_insert_ne. Qed.

Lemma length_bset l i b : length (bset l i b) = length l.
Proof. apply length_insert. Qed.

Lemma bget_ge l i : length l <= i -> bget l i = false.
Proof. intros H. unfold bget. by rewrite lookup_ge_None_2. Qed.

Lemma bget_lt l i : bget l i = true -> i < length l.
Proof.
  intros H. destruct (decide (i < length l)); [done |].
  rewrite bget_ge in H by lia. done.
Qed.

(** Setting a flag never clears another one. *)
Lemma bget_bset_true l i j : bget l j = true -> bget (bset l i true) j = true.
Proof.
  intros H. destruct (decide (i = j)) as [->|Hne].
  - apply bget_bset_eq. by apply bget_lt.
  - by rewrite bget_bset_ne.
Qed.

Lemma bget_replicate n i : bget (replicate n false) i = false.
Proof.
  unfold bget. destruct (replicate n false !! i) eqn:E; [| done].
  by apply lookup_replicate in E as [-> _].
Qed.

#[export] Hint Resolve bget_bset_true bget_lt : dup.
Create Rewrite HintDb dup_len.
#[export] Hint Rewrite length_bset : dup_len.

(** [l] holds [x] (Go's [slices.Contains] and the loops that spell it out). *)
Definition mem `{EqDecision A} (x : A) (l : list A) : bool := bool_decide (x ∈ l).

Lemma mem_true `{EqDecision A} (x : A) l : mem x l = true <-> x ∈ l.
Proof. unfold mem. apply bool_decide_eq_true. Qed.

Lemma mem_false `{EqDecision A} (x : A) l : mem x l = false <-> x ∉ l.
Proof. unfold mem. apply bool_decide_eq_false. Qed.

(** ** Stable sorting

    [sort.SliceStable] and [sort.Strings]: the stable insertion sort, which
    every stable sort agrees with when [less] is a strict weak order. *)
Section stable_sort.
Context {A : Type} (less : A -> A -> bool).

Fixpoint sort_insert (x : A) (l : list A) : list A :=
  match l with
  | [] => [x]
  | y :: l' => if less y x then y :: sort_insert x l' else x :: l
  end.

Definition stable_sort (l : list A) : list A := foldr sort_insert [] l.

Lemma sort_insert_Permutation x l : sort_insert x l ≡ₚ x :: l.
Proof.
  induction l as [|y l IH]; simpl; [done |].
  destruct (less y x); [| done]. rewrite IH. constructor.
Qed.

Lemma stable_sort_Permutation l : stable_sort l ≡ₚ l.
Proof.
  induction l as [|x l IH]; simpl; [done |].
  by rewrite sort_insert_Permutation, IH.
Qed.

Lemma elem_of_stable_sort x l : x ∈ stable_sort l <-> x ∈ l.
Proof. by rewrite stable_sort_Permutation. Qed.

Lemma length_stable_sort l : length (stable_sort l) = length l.
Proof. by rewrite stable_sort_Permutation. Qed.

Lemma NoDup_stable_sort l : NoDup (stable_sort l) <-> NoDup l.
Proof. by rewrite stable_sort_Permutation. Qed.

(** Sorted output, for a total and transitive [not (less y x)]. *)
Context (le_trans : forall x y z,
  less y x = false -> less z y = false -> less z x = false).
Context (less_asym : forall x y, less x y = true -> less y x = false).

Lemma sort_insert_sorted x l :
  StronglySorted (fun a b => less b a = false) l ->
  StronglySorted (fun a b => less b a = false) (sort_insert x l).
Proof.
  induction l as [|y l IH]; intros Hs; simpl; [by repeat constructor |].
  inversion Hs as [|? ? Hs' Hall]; subst. destruct (less y x) eqn:E.
  - constructor; [by apply IH |]. rewrite sort_insert_Permutation.
    constructor; [by apply less_asym | done].
  - constructor; [done |]. constructor; [done |].
    eapply Forall_impl; [exact Hall |]. eauto.
Qed.

Lemma stable_sort_sorted l :
  StronglySorted (fun a b => less b a = false) (stable_sort l).
Proof.
  induction l as [|x l IH]; simpl; [constructor |]. by apply sort_insert_sorted.
Qed.
End stable_sort.

#[export] Hint Resolve -> elem_of_stable_sort : dup.
#[export] Hint Resolve <- elem_of_stable_sort : dup.

Lemma StronglySorted_weaken {A} (R R' : relation A) l :
  (forall x y, R x y -> R' x y) -> StronglySorted R l -> StronglySorted R' l.
Proof.
  intros HR. induction 1 as [|x l _ IH Hall]; constructor; [done |].
  eapply Forall_impl; [exact Hall |]. auto.
Qed.

(** [for i := range n] as a fold over the indices. *)
Definition for_range {S : Type} (n : nat) (body : nat -> S -> S) (s : S) : S :=
  foldl (fun acc i => body i acc) s (seq 0 n).

(** The invariant rule of [foldl], which every translated loop uses. *)
Lemma foldl_inv {A B} (f : B -> A -> B) (P : B -> Prop) (l : list A) b :
  P b -> (forall b x, x ∈ l -> P b -> P (f b x)) -> P (foldl f b l).
Proof.
  revert b. induction l as [|x l IH]; intros b Hb Hstep; simpl; [done |].
  apply IH; [apply Hstep; [set_solver | done] |].
  intros b' y Hy. apply Hstep. set_solver.
Qed.

(** A loop body that establishes [Q x] for its element, and never falsifies
    it later, establishes it for every element. *)
Lemma foldl_establish {A B} (f : B -> A -> B) (Q : A -> B -> Prop) (l : list A) b :
  (forall b x, x ∈ l -> Q x (f b x)) ->
  (forall b x y, x ∈ l -> y ∈ l -> Q y b -> Q y (f b x)) ->
  forall y, y ∈ l -> Q y (foldl f b l).
Proof.
  intros Hest Hpres y Hy. revert b. apply list_elem_of_split in Hy as (l1 & l2 & ->).
  intros b. rewrite foldl_app. simpl.
  apply (foldl_inv f (Q y)); [apply Hest; set_solver |].
  intros b' x Hx. apply Hpres; set_solver.
Qed.

Lemma existsb_elem {A} (f : A -> bool) l : existsb f l = true <-> exists x, x ∈ l /\ f x = true.
Proof.
  rewrite existsb_exists. split; intros (x & Hx & Hf); exists x; split; try done;
    by apply list_elem_of_In.
Qed.

Lemma forallb_elem {A} (f : A -> bool) l : forallb f l = true <-> forall x, x ∈ l -> f x = true.
Proof.
  rewrite forallb_forall. split; intros H x Hx; apply H; by apply list_elem_of_In.
Qed.

Lemma elem_of_lfilter {A} (f : A -> bool) l x : x ∈ List.filter f l <-> x ∈ l /\ f x = true.
Proof. by rewrite list_elem_of_In, filter_In, <- list_elem_of_In. Qed.

(** Distinct values of a list, first occurrences kept, in order. *)
Fixpoint dedup_from `{EqDecision A} (seen : list A) (l : list A) : list A :=
  match l with
  | [] => []
  | x :: l' => if mem x seen then dedup_from seen l' else x :: dedup_from (x :: seen) l'
  end.
Definition dedup `{EqDecision A} (l : list A) : list A := dedup_from [] l.

Lemma elem_of_dedup_from `{EqDecision A} (l seen : list A) x :
  x ∈ dedup_from seen l <-> x ∈ l /\ x ∉ seen.
Proof.
  revert seen. induction l as [|y l IH]; intros seen; simpl; [set_solver |].
  destruct (mem y seen) eqn:E; [apply mem_true in E | apply mem_false in E].
  - rewrite IH. set_solver.
  - rewrite !elem_of_cons, IH. destruct (decide (x = y)); set_solver.
Qed.

Lemma elem_of_dedup `{EqDecision A} (l : list A) x : x ∈ dedup l <-> x ∈ l.
Proof. unfold dedup. rewrite elem_of_dedup_from. set_solver. Qed.

Lemma NoDup_dedup `{EqDecision A} (l : list A) : NoDup (dedup l).
Proof.
  unfold dedup. generalize (@nil A). induction l as [|y l IH]; intros seen; simpl.
  - constructor.
  - destruct (mem y seen) eqn:E; [done |]. constructor; [| done].
    rewrite elem_of_dedup_from. set_solver.
Qed.

(** The values of a list by key: keys in order of first appearance, members in
    list order (Go's map of slices with a key slice). *)
Definition group_by {A K} `{EqDecision K} (key : A -> K) (l : list A) : list (K * list A) :=
  map (fun k => (k, List.filter (fun x => bool_decide (key x = k)) l)) (dedup (map key l)).

Lemma elem_of_group_by {A K} `{EqDecision K} (key : A -> K) l k ms :
  (k, ms) ∈ group_by key l -> ms = List.filter (fun x => bool_decide (key x = k)) l /\ ms <> [].
Proof.
  unfold group_by. intros (k' & [= -> ->] & Hk)%list_elem_of_fmap. split; [done |].
  rewrite elem_of_dedup in Hk. apply list_elem_of_fmap in Hk as (x & -> & Hx). intros E.
  assert (Hin : x ∈ List.filter (fun y => bool_decide (key y = key x)) l).
  { apply elem_of_lfilter. by rewrite bool_decide_eq_true. }
  rewrite E in Hin. by apply elem_of_nil in Hin.
Qed.

Lemma group_by_member {A K} `{EqDecision K} (key : A -> K) l k ms x :
  (k, ms) ∈ group_by key l -> x ∈ ms -> key x = k /\ x ∈ l.
Proof.
  intros [-> _]%elem_of_group_by [Hx Hk]%elem_of_lfilter. by apply bool_decide_eq_true in Hk.
Qed.

(** Splitting by the keys of a duplicate-free list that covers [l] loses
    nothing. *)
Lemma concat_filters_Permutation {A K} `{EqDecision K} (key : A -> K) ks l :
  NoDup ks -> (forall x, x ∈ l -> key x ∈ ks) ->
  concat (map (fun k => List.filter (fun x => bool_decide (key x = k)) l) ks) ≡ₚ l.
Proof.
  revert l. induction ks as [|k ks IH]; intros l Hnd Hc; simpl.
  - destruct l as [|x l]; [done |]. exfalso. specialize (Hc x). set_solver.
  - apply NoDup_cons in Hnd as [Hk Hnd].
    set (rest := List.filter (fun x => negb (bool_decide (key x = k))) l).
    assert (Hr : forall k', k' ∈ ks -> List.filter (fun x => bool_decide (key x = k')) l =
      List.filter (fun x => bool_decide (key x = k')) rest).
    { intros k' Hk'. unfold rest. clear Hc IH. induction l as [|x l IHl]; simpl; [done |].
      destruct (decide (key x = k)) as [E|E]; [rewrite (bool_decide_true _ E) | rewrite (bool_decide_false _ E)]; simpl.
      - rewrite bool_decide_false; [done |]. congruence.
      - by rewrite IHl. }
    assert (Hm : map (fun k0 => List.filter (fun x => bool_decide (key x = k0)) l) ks =
                 map (fun k0 => List.filter (fun x => bool_decide (key x = k0)) rest) ks).
    { apply map_ext_in. intros k' Hk'. apply Hr. by apply list_elem_of_In. }
    rewrite Hm, IH; [| done |].
    + unfold rest. clear. induction l as [|x l IHl]; simpl; [done |].
      destruct (bool_decide (key x = k)); simpl; [by constructor |].
      rewrite <- Permutation_middle. by constructor.
    + intros x [Hx Hn]%elem_of_lfilter. apply negb_true_iff, bool_decide_eq_false in Hn.
      specialize (Hc x Hx). set_solver.
Qed.

Lemma group_by_Permutation {A K} `{EqDecision K} (key : A -> K) l :
  concat (map snd (group_by key l)) ≡ₚ l.
Proof.
  unfold group_by. rewrite map_map. simpl.
  apply concat_filters_Permutation; [apply NoDup_dedup |].
  intros x Hx. rewrite elem_of_dedup. by apply list_elem_of_fmap_2.
Qed.

(** The groups in the order of their string-like keys. *)
Definition sorted_groups {A K} `{EqDecision K} (less : K -> K -> bool) (key : A -> K) (l : list A) :
    list (K * list A) :=
  stable_sort (fun a b => less (fst a) (fst b)) (group_by key l).

(** ** Sublists *)

Lemma sublist_sorted {A} (R : A -> A -> Prop) l k : l `sublist_of` k -> StronglySorted R k -> StronglySorted R l.
Proof.
  induction 1 as [|x l k Hs IH|x l k Hs IH]; intros Hk; [done | |]; inversion Hk as [|? ? Hk' Hx]; subst; [| auto].
  constructor; [auto |]. eapply Forall_forall. intros y Hy. eapply Forall_forall in Hx; [done |]. by eapply elem_of_sublist.
Qed.
