(* ===== verification/GoStd.v ===== *)
(** * Go's standard library: strings, paths, regular expressions, digests *)

From S2P Require Import Prelude.
Local Open Scope string_scope.
Local Open Scope Z_scope.

(** * Go strings

    The parts of Go's [strings], [unicode/utf8], [path] and [strconv] packages
    the program uses, on byte strings. A Go string is a [string] of bytes; its
    runes are decoded as the language does (an invalid byte is U+FFFD of width
    1). Code points below 128 are handled here; the tables of package [unicode]
    above 127 are the fields of the class [Unicode]. *)

(** Package [unicode] above ASCII: [ToLower], [ToUpper], [IsLetter],
    [IsDigit], [IsPrint], and whether two runes are in one simple-folding orbit. *)
Class Unicode := {
  u_lower : Z -> Z;
  u_upper : Z -> Z;
  u_letter : Z -> bool;
  u_digit : Z -> bool;
  u_print : Z -> bool;
  u_fold : Z -> Z -> bool;
}.

(** An instance for closed examples: the folds of the Kelvin sign and of the
    long s, the letters of Latin-1 and nothing else above ASCII. *)
Definition latin1_unicode : Unicode := {|
  u_lower r := if r =? 0x212A then 0x6B else
    if (0xC0 <=? r) && (r <=? 0xDE) && negb (r =? 0xD7) then r + 32 else r;
  u_upper r := if r =? 0x17F then 0x53 else
    if (0xE0 <=? r) && (r <=? 0xFE) && negb (r =? 0xF7) then r - 32 else r;
  u_letter r := (0xC0 <=? r) && (r <=? 0xFF) && negb (r =? 0xD7) && negb (r =? 0xF7);
  u_digit r := false;
  u_print r := (0xA1 <=? r) && (r <=? 0xFF) && negb (r =? 0xAD);
  u_fold r t := (r =? t) ||
    ((r =? 0x212A) && ((t =? 0x6B) || (t =? 0x4B))) ||
    ((t =? 0x212A) && ((r =? 0x6B) || (r =? 0x4B))) ||
    ((r =? 0x17F) && ((t =? 0x73) || (t =? 0x53))) ||
    ((t =? 0x17F) && ((r =? 0x73) || (r =? 0x53)));
|}.

(** ** Bytes and runes *)

Definition byte_of (c : ascii) : Z := Z.of_N (N_of_ascii c).
Definition of_byte (b : Z) : ascii := ascii_of_N (Z.to_N b).
Definition rune_error : Z := 0xFFFD.

Definition in_range (lo hi b : Z) : bool := (lo <=? b) && (b <=? hi).

(** [utf8.DecodeRuneInString]: the first rune of a non-empty string and its
    width in bytes. *)
Definition decode_rune (s : string) : Z * nat :=
  match s with
  | "" => (rune_error, 0%nat)
  | String c0 s1 =>
    let b0 := byte_of c0 in
    if b0 <? 0x80 then (b0, 1%nat) else
    let two lo hi k :=
      match s1 with
      | String c1 s2 =>
        let b1 := byte_of c1 in
        if in_range lo hi b1 then k b1 s2 else (rune_error, 1%nat)
      | _ => (rune_error, 1%nat)
      end in
    let cont s k :=
      match s with
      | String c s' =>
        let b := byte_of c in
        if in_range 0x80 0xBF b then k b s' else (rune_error, 1%nat)
      | _ => (rune_error, 1%nat)
      end in
    let three lo hi :=
      two lo hi (fun b1 s2 => cont s2 (fun b2 _ =>
        ((b0 - 0xE0) * 4096 + (b1 - 0x80) * 64 + (b2 - 0x80), 3%nat))) in
    let four lo hi :=
      two lo hi (fun b1 s2 => cont s2 (fun b2 s3 => cont s3 (fun b3 _ =>
        ((b0 - 0xF0) * 262144 + (b1 - 0x80) * 4096 + (b2 - 0x80) * 64 + (b3 - 0x80), 4%nat)))) in
    if in_range 0xC2 0xDF b0 then
      two 0x80 0xBF (fun b1 _ => ((b0 - 0xC0) * 64 + (b1 - 0x80), 2%nat))
    else if b0 =? 0xE0 then three 0xA0 0xBF
    else if b0 =? 0xED then three 0x80 0x9F
    else if in_range 0xE1 0xEF b0 then three 0x80 0xBF
    else if b0 =? 0xF0 then four 0x90 0xBF
    else if b0 =? 0xF4 then four 0x80 0x8F
    else if in_range 0xF1 0xF3 b0 then four 0x80 0xBF
    else (rune_error, 1%nat)
  end.

Fixpoint sdrop (n : nat) (s : string) : string :=
  match n, s with
  | O, _ => s
  | S _, "" => ""
  | S n', String _ s' => sdrop n' s'
  end.

Fixpoint stake (n : nat) (s : string) : string :=
  match n, s with
  | O, _ => ""
  | S _, "" => ""
  | S n', String c s' => String c (stake n' s')
  end.

(** The runes of a string with the bytes each was decoded from. The fuel is
    the number of bytes, and every rune takes at least one. *)
Fixpoint runes_fuel (fuel : nat) (s : string) : list (Z * string) :=
  match fuel, s with
  | O, _ => []
  | _, "" => []
  | S fuel', _ =>
    let '(r, w) := decode_rune s in
    (r, stake w s) :: runes_fuel fuel' (sdrop w s)
  end.
Definition runes (s : string) : list (Z * string) := runes_fuel (String.length s) s.

(** [utf8.AppendRune]. *)
Definition encode_rune (r : Z) : string :=
  let b x := of_byte x in
  if in_range 0 0x7F r then String (b r) ""
  else if in_range 0x80 0x7FF r then
    String (b (0xC0 + r / 64)) (String (b (0x80 + r mod 64)) "")
  else if (r <? 0) || (0x10FFFF <? r) || in_range 0xD800 0xDFFF r then
    String (b 0xEF) (String (b 0xBF) (String (b 0xBD) ""))
  else if r <=? 0xFFFF then
    String (b (0xE0 + r / 4096)) (String (b (0x80 + r / 64 mod 64)) (String (b (0x80 + r mod 64)) ""))
  else
    String (b (0xF0 + r / 262144)) (String (b (0x80 + r / 4096 mod 64))
      (String (b (0x80 + r / 64 mod 64)) (String (b (0x80 + r mod 64)) ""))).

Definition sconcat (l : list string) : string := foldr String.append "" l.

(** [unicode.IsSpace]. *)
Definition is_space (r : Z) : bool :=
  in_range 9 13 r || (r =? 32) || (r =? 0x85) || (r =? 0xA0) || (r =? 0x1680) ||
  in_range 0x2000 0x200A r || (r =? 0x2028) || (r =? 0x2029) || (r =? 0x202F) ||
  (r =? 0x205F) || (r =? 0x3000).

Fixpoint drop_while {A} (f : A -> bool) (l : list A) : list A :=
  match l with
  | [] => []
  | x :: l' => if f x then drop_while f l' else l
  end.

(** [strings.TrimSpace]. *)
Definition trim_space (s : string) : string :=
  let space := fun rb : Z * string => is_space (fst rb) in
  sconcat (map snd (rev (drop_while space (rev (drop_while space (runes s)))))).

Section case_mapping.
Context `{Unicode}.

Definition rune_lower (r : Z) : Z :=
  if in_range 65 90 r then r + 32 else if r <? 128 then r else u_lower r.
Definition rune_upper (r : Z) : Z :=
  if in_range 97 122 r then r - 32 else if r <? 128 then r else u_upper r.
Definition is_letter (r : Z) : bool :=
  if r <? 128 then in_range 65 90 r || in_range 97 122 r else u_letter r.
Definition is_digit (r : Z) : bool :=
  if r <? 128 then in_range 48 57 r else u_digit r.

(** [strings.Map f] for mappings that drop nothing; [strings.ToLower] and
    [strings.ToUpper]. *)
Definition map_runes (f : Z -> Z) (s : string) : string :=
  sconcat (map (fun rb => encode_rune (f (fst rb))) (runes s)).
Definition to_lower : string -> string := map_runes rune_lower.
Definition to_upper : string -> string := map_runes rune_upper.

Definition rune_fold_eq (a b : Z) : bool :=
  (a =? b) ||
  (if (a <? 128) && (b <? 128) then rune_lower a =? rune_lower b else u_fold a b).

Fixpoint fold_eq_runes (a b : list (Z * string)) : bool :=
  match a, b with
  | [], [] => true
  | (x, _) :: a', (y, _) :: b' => rune_fold_eq x y && fold_eq_runes a' b'
  | _, _ => false
  end.

(** [strings.EqualFold]. *)
Definition equal_fold (s t : string) : bool := fold_eq_runes (runes s) (runes t).

(** [strings.FieldsFunc(s, f)]. *)
Fixpoint fields_runes (f : Z -> bool) (cur : string) (l : list (Z * string)) : list string :=
  match l with
  | [] => if String.eqb cur "" then [] else [cur]
  | (r, bs) :: l' =>
    if f r then
      (if String.eqb cur "" then fields_runes f "" l' else cur :: fields_runes f "" l')
    else fields_runes f (cur +:+ bs) l'
  end.
Definition fields_func (f : Z -> bool) (s : string) : list string := fields_runes f "" (runes s).
End case_mapping.

(** ** Substrings *)

Definition has_prefix (s p : string) : bool := String.prefix p s.
Definition has_suffix (s p : string) : bool :=
  (String.length p <=? String.length s)%nat &&
  String.eqb (sdrop (String.length s - String.length p) s) p.

(** [strings.Index]; [None] is -1. *)
Fixpoint index_of (s p : string) : option nat :=
  if String.prefix p s then Some 0%nat else
  match s with
  | "" => None
  | String _ s' => option_map S (index_of s' p)
  end.
Definition contains (s p : string) : bool := bool_decide (is_Some (index_of s p)).

(** [strings.IndexAny] for ASCII cut sets, as a test on bytes. *)
Fixpoint index_byte_where (f : ascii -> bool) (s : string) : option nat :=
  match s with
  | "" => None
  | String c s' => if f c then Some 0%nat else option_map S (index_byte_where f s')
  end.
Definition index_byte (s : string) (c : ascii) : option nat := index_byte_where (Ascii.eqb c) s.

Fixpoint last_index_byte_where (f : ascii -> bool) (s : string) : option nat :=
  match s with
  | "" => None
  | String c s' =>
    match last_index_byte_where f s' with
    | Some i => Some (S i)
    | None => if f c then Some 0%nat else None
    end
  end.
Definition last_index_byte (s : string) (c : ascii) : option nat :=
  last_index_byte_where (Ascii.eqb c) s.

Fixpoint smap (f : ascii -> ascii) (s : string) : string :=
  match s with
  | "" => ""
  | String c s' => String (f c) (smap f s')
  end.
(** [strings.ReplaceAll(s, `\`, "/")]. *)
Definition backslash : ascii := "092"%char.
Definition to_slash (s : string) : string :=
  smap (fun c => if Ascii.eqb c backslash then "/"%char else c) s.

Fixpoint trim_left_where (f : ascii -> bool) (s : string) : string :=
  match s with
  | "" => ""
  | String c s' => if f c then trim_left_where f s' else s
  end.
Fixpoint trim_right_where (f : ascii -> bool) (s : string) : string :=
  match s with
  | "" => ""
  | String c s' =>
    match trim_right_where f s' with
    | "" => if f c then "" else String c ""
    | t => String c t
    end
  end.
Definition is_slash (c : ascii) : bool := Ascii.eqb c "/"%char.
(** [strings.Trim(s, "/")] and [strings.TrimRight(s, "/")]. *)
Definition trim_right_slash : string -> string := trim_right_where is_slash.
Definition trim_slash (s : string) : string := trim_right_where is_slash (trim_left_where is_slash s).

Definition trim_suffix (s p : string) : string :=
  if has_suffix s p then stake (String.length s - String.length p) s else s.
Definition trim_prefix (s p : string) : string :=
  if has_prefix s p then sdrop (String.length p) s else s.

Fixpoint join (sep : string) (l : list string) : string :=
  match l with
  | [] => ""
  | [x] => x
  | x :: l' => x +:+ sep +:+ join sep l'
  end.

(** [strings.Split(s, string(c))]. *)
Fixpoint split_byte_from (c : ascii) (cur : string) (s : string) : list string :=
  match s with
  | "" => [cur]
  | String d s' =>
    if Ascii.eqb d c then cur :: split_byte_from c "" s'
    else split_byte_from c (cur +:+ String d "") s'
  end.
Definition split_byte (c : ascii) (s : string) : list string := split_byte_from c "" s.

Definition str_lt (a b : string) : bool := String.ltb a b.
Definition sort_strings (l : list string) : list string := stable_sort str_lt l.

(** ** Package [path] *)

(** One component of [path.Clean]; [out] is the reversed output. *)
Definition clean_step (rooted : bool) (out : list string) (comp : string) : list string :=
  if String.eqb comp "" || String.eqb comp "." then out
  else if String.eqb comp ".." then
    match out with
    | [] => if rooted then [] else [".."]
    | top :: rest => if String.eqb top ".." then ".." :: out else rest
    end
  else comp :: out.

Definition path_clean (p : string) : string :=
  if String.eqb p "" then "." else
  let rooted := has_prefix p "/" in
  let out := rev (foldl (clean_step rooted) [] (split_byte "/"%char p)) in
  let body := join "/" out in
  if rooted then "/" +:+ body
  else if String.eqb body "" then "." else body.

Definition path_base (p : string) : string :=
  if String.eqb p "" then "." else
  let p := trim_right_slash p in
  let p := match last_index_byte p "/"%char with Some i => sdrop (S i) p | None => p end in
  if String.eqb p "" then "/" else p.

Definition path_dir (p : string) : string :=
  path_clean (match last_index_byte p "/"%char with Some i => stake (S i) p | None => "" end).

(** [path.Ext]: from the last dot of the last element. *)
Definition path_ext (p : string) : string :=
  match last_index_byte_where (fun c => is_slash c || Ascii.eqb c "."%char) p with
  | Some i => let e := sdrop i p in if has_prefix e "." then e else ""
  | None => ""
  end.

(** ** Package [strconv] *)

Fixpoint parse_digits (acc : Z) (s : string) : option Z :=
  match s with
  | "" => Some acc
  | String c s' =>
    let b := byte_of c in
    if in_range 48 57 b then parse_digits (acc * 10 + (b - 48)) s' else None
  end.

(** [strconv.ParseInt(s, 10, 64)] and [strconv.Atoi]; [None] is an error. *)
Definition parse_int (s : string) : option Z :=
  let go neg ds :=
    if String.eqb ds "" then None else
    match parse_digits 0 ds with
    | Some n =>
      let z := if neg : bool then - n else n in
      if (min_int64 <=? z) && (z <=? max_int64) then Some z else None
    | None => None
    end in
  match s with
  | String "+" ds => go false ds
  | String "-" ds => go true ds
  | _ => go false s
  end.

(** [strconv.FormatInt(z, 10)]. *)
Definition format_int (z : Z) : string := pretty z.

Definition hex_digit (d : Z) : string :=
  stake 1 (sdrop (Z.to_nat d) "0123456789abcdef").
Fixpoint hex_digits (n : nat) (z : Z) : string :=
  match n with
  | O => ""
  | S n' => hex_digits n' (z / 16) +:+ hex_digit (z mod 16)
  end.

(** [strconv.Quote], the [%q] of messages. *)
Definition quote_rune `{Unicode} (rb : Z * string) : string :=
  let '(r, bs) := rb in
  if (r =? rune_error) && (String.length bs =? 1)%nat then
    match bs with String c _ => String backslash ("x" +:+ hex_digits 2 (byte_of c)) | "" => "" end
  else if (r =? 34) || (r =? 92) then String backslash bs
  else if (if r <? 128 then in_range 32 126 r else u_print r) then bs
  else if r =? 7 then String backslash "a" else if r =? 8 then String backslash "b"
  else if r =? 12 then String backslash "f" else if r =? 10 then String backslash "n"
  else if r =? 13 then String backslash "r" else if r =? 9 then String backslash "t"
  else if r =? 11 then String backslash "v"
  else if (r <? 32) || (r =? 127) then String backslash ("x" +:+ hex_digits 2 r)
  else if r <? 65536 then String backslash ("u" +:+ hex_digits 4 r)
  else String backslash ("U" +:+ hex_digits 8 r).
Definition dquote : string := String (of_byte 34) "".
Definition quote `{Unicode} (s : string) : string :=
  dquote +:+ sconcat (map quote_rune (runes s)) +:+ dquote.

(** [%02d] of a non-negative number. *)
Definition pad2 (z : Z) : string := if z <? 10 then "0" +:+ format_int z else format_int z.

(** ** Lemmas *)

Lemma str_lt_irrefl s : str_lt s s = false.
Proof.
  unfold str_lt, String.ltb. pose proof (String.compare_antisym s s) as H.
  destruct (String.compare s s); simpl in H; congruence.
Qed.

Lemma str_lt_antisym a b : str_lt a b = false -> str_lt b a = false -> a = b.
Proof.
  unfold str_lt, String.ltb. intros H1 H2.
  apply String.compare_eq_iff. rewrite (String.compare_antisym b a) in H2.
  destruct (String.compare a b); simpl in *; congruence.
Qed.

Lemma str_lt_asym a b : str_lt a b = true -> str_lt b a = false.
Proof.
  unfold str_lt, String.ltb. rewrite (String.compare_antisym b a).
  destruct (String.compare a b); simpl; congruence.
Qed.

Lemma str_le_leb a b : str_lt b a = false <-> String.le a b.
Proof.
  unfold str_lt, String.ltb, String.le, String.leb.
  rewrite (String.compare_antisym b a). unfold Is_true.
  destruct (String.compare a b); simpl; split; try done.
Qed.

Lemma str_le_trans x y z : str_lt y x = false -> str_lt z y = false -> str_lt z x = false.
Proof. rewrite !str_le_leb. intros. by transitivity y. Qed.

Lemma sort_strings_sorted l : StronglySorted String.le (sort_strings l).
Proof.
  eapply StronglySorted_weaken;
    [| apply stable_sort_sorted; [apply str_le_trans | apply str_lt_asym]].
  intros a b Hab. by apply str_le_leb.
Qed.

(** Sorting strings forgets the order of the input. *)
Lemma sort_strings_Permutation l l' : l ≡ₚ l' -> sort_strings l = sort_strings l'.
Proof.
  intros H. apply (StronglySorted_unique String.le); [apply sort_strings_sorted.. |].
  unfold sort_strings. by rewrite !stable_sort_Permutation.
Qed.

(** ** Concatenation, splitting and joining *)

Lemma str_app_cons x (a b : string) : String x a +:+ b = String x (a +:+ b).
Proof. done. Qed.

Lemma str_app_assoc (a b c : string) : (a +:+ b) +:+ c = a +:+ b +:+ c.
Proof. induction a as [|x a IH]; [done |]. by rewrite !str_app_cons, IH. Qed.

Lemma str_app_nil_r (a : string) : a +:+ "" = a.
Proof. induction a as [|x a IH]; [done |]. by rewrite str_app_cons, IH. Qed.

Lemma sdrop_app a b : sdrop (String.length a) (a +:+ b) = b.
Proof. by induction a as [|x a IH]. Qed.

Lemma str_app_inj_l a b c : (a +:+ b = a +:+ c)%string -> b = c.
Proof.
  induction a as [|x a IH]; [done |]. rewrite !str_app_cons. intros [= E]. by apply IH.
Qed.

Lemma str_length_app a b : String.length (a +:+ b) = (String.length a + String.length b)%nat.
Proof. induction a as [|x a IH]; [done |]. rewrite str_app_cons. simpl. by rewrite IH. Qed.

Lemma smap_app f a b : smap f (a +:+ b) = smap f a +:+ smap f b.
Proof. induction a as [|c a IH]; simpl; [done |]. by rewrite IH. Qed.

Lemma split_byte_from_app c cur a b :
  split_byte_from c cur (a +:+ String c b) = (split_byte_from c cur a ++ split_byte_from c "" b)%list.
Proof.
  revert cur. induction a as [|d a IH]; intros cur; simpl.
  - by rewrite Ascii.eqb_refl.
  - destruct (Ascii.eqb d c); simpl; by rewrite IH.
Qed.

Lemma split_byte_from_free c s cur : index_byte s c = None -> split_byte_from c cur s = [(cur +:+ s)%string].
Proof.
  revert cur. unfold index_byte. induction s as [|d s IH]; intros cur; simpl; [by rewrite str_app_nil_r |].
  destruct (Ascii.eqb_spec d c) as [->|Hne]; [by rewrite Ascii.eqb_refl |].
  rewrite (proj2 (Ascii.eqb_neq c d)) by congruence. intros Hs. rewrite IH.
  - by rewrite str_app_assoc.
  - by destruct (index_byte_where (Ascii.eqb c) s).
Qed.

Lemma split_join c l :
  l <> [] -> (forall x, x ∈ l -> index_byte x c = None) -> split_byte c (join (String c "") l) = l.
Proof.
  unfold split_byte. induction l as [|x l IH]; [done |]. intros _ Hf.
  destruct l as [|y l].
  - simpl. rewrite split_byte_from_free; [done | apply Hf; set_solver].
  - change (join (String c "") (x :: y :: l)) with (x +:+ String c "" +:+ join (String c "") (y :: l))%string.
    rewrite str_app_cons, split_byte_from_app, split_byte_from_free by (apply Hf; set_solver).
    change (x :: split_byte_from c "" (join (String c "") (y :: l)) = x :: y :: l).
    f_equal. apply IH; [done |]. intros z Hz. apply Hf. set_solver.
Qed.

Lemma split_not_nil c cur s : split_byte_from c cur s <> [].
Proof. revert cur. induction s as [|e s IH]; intros cur; simpl; [done |]. by destruct (Ascii.eqb e c). Qed.

Lemma join_cons c x l : l <> [] -> join (String c "") (x :: l) = x +:+ String c (join (String c "") l).
Proof. by destruct l. Qed.

Lemma join_split_from c cur s : join (String c "") (split_byte_from c cur s) = cur +:+ s.
Proof.
  revert cur. induction s as [|e s IH]; intros cur; simpl; [by rewrite str_app_nil_r |].
  destruct (Ascii.eqb_spec e c) as [->|Hne].
  - by rewrite join_cons, IH by apply split_not_nil.
  - by rewrite IH, str_app_assoc.
Qed.

Example path_clean_ex : path_clean "/a/./b//../c/" = "/a/c". Proof. reflexivity. Qed.
Example path_base_ex : path_base "/a/b.mkv" = "b.mkv". Proof. reflexivity. Qed.
Example path_ext_ex : path_ext "/a.b/c.tar.gz" = ".gz". Proof. reflexivity. Qed.
Example path_dir_ex : path_dir "/a/b/c" = "/a/b". Proof. reflexivity. Qed.
Example parse_int_ex : parse_int "-42" = Some (-42). Proof. reflexivity. Qed.
Example trim_ex : trim_space "  a b  " = "a b". Proof. reflexivity. Qed.

(** * Go regular expressions

    A syntax tree for the RE2 expressions the program compiles and Go's
    leftmost-first matching over runes, by backtracking with captures. The
    fixed expressions of the sources are written as trees next to the
    definitions that use them; the parser of user-written expressions
    ([regexp.Compile]) is the field of the class [RegexSyntax]. *)

Inductive re : Type :=
  | REps
  | RChr (f : Z -> bool)                 (* one rune of a class *)
  | RSeq (a b : re)
  | RAlt (a b : re)
  | RStar (greedy : bool) (a : re)
  | RGroup (n : nat) (a : re)            (* a numbered capture *)
  | RBegin | REnd                        (* ^ and $ without (?m) *)
  | RWordB.                              (* \b *)

(** [regexp.Compile]: [None] when the expression does not parse. *)
Class RegexSyntax := { regexp_compile : string -> option re }.

(** ** Matching *)

Record mstate := MState {
  m_prev : option Z;                     (* the rune before the position *)
  m_rest : list (Z * string);            (* the runes from the position on *)
  m_pos : nat;
  m_caps : list (nat * (nat * nat));     (* captures, latest first *)
}.

Definition is_word (r : Z) : bool :=
  in_range 48 57 r || in_range 65 90 r || in_range 97 122 r || (r =? 95).
Definition at_word_boundary (s : mstate) : bool :=
  let before := match m_prev s with Some r => is_word r | None => false end in
  let after := match m_rest s with (r, _) :: _ => is_word r | [] => false end in
  xorb before after.

Definition orelse {A} (a : option A) (b : unit -> option A) : option A :=
  match a with Some x => Some x | None => b tt end.

(** The first way, in priority order, to match [r] at [s] so that the
    continuation accepts what follows. A star iteration that consumes nothing
    is not repeated, and its fuel is the number of runes left. *)
Fixpoint rmatch (r : re) (s : mstate) (k : mstate -> option mstate) {struct r} : option mstate :=
  match r with
  | REps => k s
  | RChr f =>
    match m_rest s with
    | (c, _) :: rest =>
      if f c then k (MState (Some c) rest (S (m_pos s)) (m_caps s)) else None
    | [] => None
    end
  | RSeq a b => rmatch a s (fun s' => rmatch b s' k)
  | RAlt a b => orelse (rmatch a s k) (fun _ => rmatch b s k)
  | RStar greedy a =>
    (fix loop (n : nat) (s : mstate) : option mstate :=
       match n with
       | O => k s
       | S n' =>
         let more := fun _ : unit =>
           rmatch a s (fun s' => if (m_pos s' =? m_pos s)%nat then None else loop n' s') in
         if greedy then orelse (more tt) (fun _ => k s) else orelse (k s) more
       end) (length (m_rest s)) s
  | RGroup n a =>
    rmatch a s (fun s' =>
      k (MState (m_prev s') (m_rest s') (m_pos s') ((n, (m_pos s, m_pos s')) :: m_caps s')))
  | RBegin => match m_prev s with None => k s | Some _ => None end
  | REnd => match m_rest s with [] => k s | _ :: _ => None end
  | RWordB => if at_word_boundary s then k s else None
  end.

(** The leftmost match from a position on: where it starts and its end state. *)
Fixpoint find_from (r : re) (prev : option Z) (l : list (Z * string)) (pos : nat) : option (nat * mstate) :=
  match rmatch r (MState prev l pos []) Some with
  | Some e => Some (pos, e)
  | None =>
    match l with
    | [] => None
    | (c, _) :: l' => find_from r (Some c) l' (S pos)
    end
  end.

(** [re.MatchString(s)]. *)
Definition re_match (r : re) (s : string) : bool :=
  match find_from r None (runes s) 0 with Some _ => true | None => false end.

Definition slice_runes (l : list (Z * string)) (i j : nat) : string :=
  sconcat (map snd (take (j - i) (drop i l))).

(** Group [n] of a match ([""] when it did not take part, as in Go). *)
Definition capture (l : list (Z * string)) (e : mstate) (n : nat) : string :=
  match find (fun c => (fst c =? n)%nat) (m_caps e) with
  | Some (_, (i, j)) => slice_runes l i j
  | None => ""
  end.

(** [re.FindStringSubmatch(s)], as the function from group numbers. *)
Definition re_find (r : re) (s : string) : option (nat -> string) :=
  let l := runes s in
  match find_from r None l 0 with
  | Some (_, e) => Some (capture l e)
  | None => None
  end.

(** All successive non-overlapping matches, as (start, end state). The fuel is
    the number of runes plus one; the expressions used never match nothing. *)
Fixpoint find_all_from (fuel : nat) (r : re) (prev : option Z) (l : list (Z * string)) (pos : nat) : list (nat * mstate) :=
  match fuel with
  | O => []
  | S fuel' =>
    match find_from r prev l pos with
    | None => []
    | Some (i, e) => (i, e) :: find_all_from fuel' r (m_prev e) (m_rest e) (m_pos e)
    end
  end.

(** [re.FindAllStringSubmatch(s, -1)]. *)
Definition re_find_all (r : re) (s : string) : list (nat -> string) :=
  let l := runes s in
  map (fun ie => capture l (snd ie)) (find_all_from (S (length l)) r None l 0).

(** [re.ReplaceAllString(s, repl)] for a template without [$]. *)
Definition re_replace_all (r : re) (repl s : string) : string :=
  let l := runes s in
  let fix go (pos : nat) (ms : list (nat * mstate)) : string :=
    match ms with
    | [] => slice_runes l pos (length l)
    | (i, e) :: ms' => slice_runes l pos i +:+ repl +:+ go (m_pos e) ms'
    end in
  go 0%nat (find_all_from (S (length l)) r None l 0).

(** ** Building expressions *)

Definition one (c : ascii) : re := RChr (fun r => r =? byte_of c).
(** One letter under [(?i)]: both cases and the two non-ASCII runes that fold
    onto an ASCII letter (the long s and the Kelvin sign). *)
Definition ci_rune (c r : Z) : bool :=
  let low x := if in_range 65 90 x then x + 32 else x in
  (low c =? low r) || ((low c =? 0x73) && (r =? 0x17F)) || ((low c =? 0x6B) && (r =? 0x212A)).
Definition one_ci (c : ascii) : re := RChr (ci_rune (byte_of c)).
Fixpoint word (s : string) : re :=
  match s with "" => REps | String c s' => RSeq (one c) (word s') end.
Fixpoint word_ci (s : string) : re :=
  match s with "" => REps | String c s' => RSeq (one_ci c) (word_ci s') end.
Fixpoint any_of (l : list re) : re :=
  match l with [] => RChr (fun _ => false) | [a] => a | a :: l' => RAlt a (any_of l') end.
Fixpoint seq_of (l : list re) : re :=
  match l with [] => REps | a :: l' => RSeq a (seq_of l') end.
Definition opt (a : re) : re := RAlt a REps.
Definition star (a : re) : re := RStar true a.
Definition plus (a : re) : re := RSeq a (star a).
Fixpoint times (n : nat) (a : re) : re := match n with O => REps | S n' => RSeq a (times n' a) end.
Fixpoint upto (n : nat) (a : re) : re := match n with O => REps | S n' => opt (RSeq a (upto n' a)) end.
(** [a{lo,hi}] *)
Definition between (lo hi : nat) (a : re) : re := RSeq (times lo a) (upto (hi - lo) a).
Definition digit : re := RChr (in_range 48 57).
(** A class of single characters, and its complement. *)
Fixpoint in_chars (s : string) (r : Z) : bool :=
  match s with "" => false | String c s' => (r =? byte_of c) || in_chars s' r end.
Definition cls (s : string) : re := RChr (in_chars s).
Definition ncls (s : string) : re := RChr (fun r => negb (in_chars s r)).

Example re_match_ex :
  re_match (RSeq RBegin (RSeq (plus digit) REnd)) "123" = true /\
  re_match (RSeq RBegin (RSeq (plus digit) REnd)) "12a" = false.
Proof. by split; vm_compute. Qed.

Example re_replace_ex :
  re_replace_all (seq_of [one "{"; star (ncls "{}"); one "}"]) " " "a{x}b{y}" = "a b ".
Proof. by vm_compute. Qed.

(** * SHA-1 and SHA-256

    [crypto/sha1] and [crypto/sha256] of Go's standard library on byte strings,
    with [hex.EncodeToString]: 32-bit words as integers below 2^32, the message
    schedule as a sliding window of 16 words. The signatures of groups and disc
    contents are these digests. *)

Definition word32 (z : Z) : Z := Z.land z 0xFFFFFFFF.
Definition add32 (a b : Z) : Z := word32 (a + b).
Definition rotl32 (n x : Z) : Z := word32 (Z.lor (Z.shiftl x n) (Z.shiftr x (32 - n))).
Definition rotr32 (n x : Z) : Z := rotl32 (32 - n) x.
Definition not32 (x : Z) : Z := Z.lxor x 0xFFFFFFFF.
Definition xor3 (a b c : Z) : Z := Z.lxor a (Z.lxor b c).
Definition choose (x y z : Z) : Z := Z.lxor (Z.land x y) (Z.land (not32 x) z).
Definition majority (x y z : Z) : Z := xor3 (Z.land x y) (Z.land x z) (Z.land y z).

Definition bytes_of (s : string) : list Z := map byte_of (String.list_ascii_of_string s).
Definition be_bytes (n : nat) (z : Z) : list Z :=
  map (fun i => Z.land (Z.shiftr z (8 * Z.of_nat i)) 0xFF) (rev (seq 0 n)).
Definition be_word (l : list Z) : Z := foldl (fun acc b => acc * 256 + b) 0 l.

(** The message with its padding: a one bit, zeros, the bit length. *)
Definition sha_pad (l : list Z) : list Z :=
  let n := Z.of_nat (length l) in
  (l ++ 0x80 :: replicate (Z.to_nat ((55 - n) mod 64)) 0 ++ be_bytes 8 (8 * n))%list.

Fixpoint chunks {A} (k : nat) (fuel : nat) (l : list A) : list (list A) :=
  match fuel, l with
  | S fuel', _ :: _ => take k l :: chunks k fuel' (drop k l)
  | _, _ => []
  end.
Definition sha_blocks (l : list Z) : list (list Z) :=
  map (fun b => map be_word (chunks 4 16 b)) (chunks 64 (length l) l).

Definition at_word (w : list Z) (i : nat) : Z := nth i w 0.

(** One block: [step t word state] over the schedule extended by [next]. *)
Definition sha_block {S : Type} (rounds : nat) (next : list Z -> Z) (step : nat -> Z -> S -> S)
    (w : list Z) (s : S) : S :=
  fst (foldl (fun '(s, w) t => (step t (at_word w 0) s, (drop 1 w ++ [next w])%list)) (s, w) (seq 0 rounds)).

Definition hex_byte (b : Z) : string := (hex_digit (Z.shiftr b 4) +:+ hex_digit (Z.land b 0xF))%string.
Definition hex_words (l : list Z) : string :=
  sconcat (map (fun w => sconcat (map hex_byte (be_bytes 4 w))) l).

(** ** SHA-1 *)

Definition sha1_next (w : list Z) : Z :=
  rotl32 1 (Z.lxor (xor3 (at_word w 13) (at_word w 8) (at_word w 2)) (at_word w 0)).

Definition sha1_state : Type := Z * Z * Z * Z * Z.
Definition sha1_step (t : nat) (w : Z) (s : sha1_state) : sha1_state :=
  let '(a, b, c, d, e) := s in
  let '(f, k) :=
    if (t <? 20)%nat then (choose b c d, 0x5A827999)
    else if (t <? 40)%nat then (xor3 b c d, 0x6ED9EBA1)
    else if (t <? 60)%nat then (majority b c d, 0x8F1BBCDC)
    else (xor3 b c d, 0xCA62C1D6) in
  (word32 (rotl32 5 a + f + e + k + w), a, rotl32 30 b, c, d).

Definition sha1_compress (s : sha1_state) (w : list Z) : sha1_state :=
  let '(a, b, c, d, e) := s in
  let '(a', b', c', d', e') := sha_block 80 sha1_next sha1_step w s in
  (add32 a a', add32 b b', add32 c c', add32 d d', add32 e e').

Definition sha1_hex (msg : string) : string :=
  let '(a, b, c, d, e) := foldl sha1_compress
    (0x67452301, 0xEFCDAB89, 0x98BADCFE, 0x10325476, 0xC3D2E1F0) (sha_blocks (sha_pad (bytes_of msg))) in
  hex_words [a; b; c; d; e].

(** ** SHA-256 *)

(** The [k]-th root of [n], by the bits of [r + 2^i, ..., r + 1]. *)
Fixpoint root_bits (k n : Z) (i : nat) (r : Z) : Z :=
  match i with
  | O => r
  | S i' => let r' := r + 2 ^ Z.of_nat i' in
            root_bits k n i' (if r' ^ k <=? n then r' else r)
  end.
(** The first 32 fraction bits of the [k]-th root of [p]. *)
Definition root_fraction (k p : Z) : Z := word32 (root_bits k (p * 2 ^ (32 * k)) 40 0).
Definition is_prime (n : Z) : bool :=
  forallb (fun d => negb (n mod Z.of_nat d =? 0)) (seq 2 (Z.to_nat n - 2)).
Definition primes_upto (n : nat) : list Z := List.filter is_prime (map Z.of_nat (seq 2 (n - 1))).

(** FIPS 180-4: the cube roots of the first 64 primes, and the square roots of
    the first eight. *)
Definition sha256_k : list Z := Eval vm_compute in map (root_fraction 3) (primes_upto 311).
Definition sha256_init : list Z := Eval vm_compute in map (root_fraction 2) (primes_upto 19).

Definition sha256_next (w : list Z) : Z :=
  let s0 x := xor3 (rotr32 7 x) (rotr32 18 x) (Z.shiftr x 3) in
  let s1 x := xor3 (rotr32 17 x) (rotr32 19 x) (Z.shiftr x 10) in
  word32 (at_word w 0 + s0 (at_word w 1) + at_word w 9 + s1 (at_word w 14)).

Definition sha256_state : Type := Z * Z * Z * Z * (Z * Z * Z * Z).
Definition sha256_step (t : nat) (w : Z) (s : sha256_state) : sha256_state :=
  let '(a, b, c, d, (e, f, g, h)) := s in
  let t1 := h + xor3 (rotr32 6 e) (rotr32 11 e) (rotr32 25 e) + choose e f g + at_word sha256_k t + w in
  let t2 := xor3 (rotr32 2 a) (rotr32 13 a) (rotr32 22 a) + majority a b c in
  (word32 (t1 + t2), a, b, c, (word32 (d + t1), e, f, g)).

Definition sha256_compress (s : sha256_state) (w : list Z) : sha256_state :=
  let '(a, b, c, d, (e, f, g, h)) := s in
  let '(a', b', c', d', (e', f', g', h')) := sha_block 64 sha256_next sha256_step w s in
  (add32 a a', add32 b b', add32 c c', add32 d d', (add32 e e', add32 f f', add32 g g', add32 h h')).

(** The eight words of the digest of some bytes. *)
Definition sha256_words (l : list Z) : list Z :=
  let '(a, b, c, d, (e, f, g, h)) := foldl sha256_compress
    (at_word sha256_init 0, at_word sha256_init 1, at_word sha256_init 2, at_word sha256_init 3,
     (at_word sha256_init 4, at_word sha256_init 5, at_word sha256_init 6, at_word sha256_init 7))
    (sha_blocks (sha_pad l)) in
  [a; b; c; d; e; f; g; h].
Definition sha256_hex (msg : string) : string := hex_words (sha256_words (bytes_of msg)).

(** ** HMAC (crypto/hmac with SHA-256) *)

Definition sha256_sum (l : list Z) : list Z := flat_map (be_bytes 4) (sha256_words l).
Definition hmac_key (key : list Z) : list Z :=
  let k := if (64 <? length key)%nat then sha256_sum key else key in (k ++ replicate (64 - length k) 0)%list.
Definition hmac_sha256 (key msg : list Z) : list Z :=
  let k := hmac_key key in
  sha256_sum (map (Z.lxor 0x5c) k ++ sha256_sum (map (Z.lxor 0x36) k ++ msg)).
(** [hex.EncodeToString]. *)
Definition hex_bytes (l : list Z) : string := sconcat (map hex_byte l).

(** The published test vectors. *)
Example sha1_abc : sha1_hex "abc" = "a9993e364706816aba3e25717850c26c9cd0d89d"%string.
Proof. by vm_compute. Qed.
Example sha1_two_blocks :
  sha1_hex "abcdbcdecdefdefgefghfghighijhijkijkljklmklmnlmnomnopnopq" =
  "84983e441c3bd26ebaae4aa1f95129e5e54670f1"%string.
Proof. by vm_compute. Qed.
Example sha256_abc :
  sha256_hex "abc" = "ba7816bf8f01cfea414140de5dae2223b00361a396177a9cb410ff61f20015ad"%string.
Proof. by vm_compute. Qed.
(** RFC 4231, test case 2. *)
Example hmac_jefe : hex_bytes (hmac_sha256 (bytes_of "Jefe") (bytes_of "what do ya want for nothing?")) =
  "5bdcc146bf60754e6a042426089575c75a003f089d2739839dec58b964ec3843"%string.
Proof. by vm_compute. Qed.

(** ** Numbers as text *)

Fixpoint all_chars (f : ascii -> bool) (s : string) : bool :=
  match s with String c s => f c && all_chars f s | "" => true end.
Lemma all_chars_app f a b : all_chars f (a +:+ b) = all_chars f a && all_chars f b.
Proof. induction a as [|c a IH]; [done |]. rewrite str_app_cons. cbn. by rewrite IH, andb_assoc. Qed.
Lemma all_chars_free f s c : all_chars f s = true -> f c = false -> index_byte s c = None.
Proof.
  unfold index_byte. induction s as [|d s IH]; [done |]. cbn. intros [Hd Hs]%andb_true_iff Hc.
  destruct (Ascii.eqb_spec c d) as [->|]; [congruence |]. by rewrite IH.
Qed.

Definition digit_byte (c : ascii) : bool := in_range 48 57 (byte_of c).
Lemma digit_char m : (m < 10)%N -> byte_of (pretty_N_char m) = 48 + Z.of_N m.
Proof. intros Hm. destruct m as [|p]; [done |]. do 4 (destruct p as [p|p|]; try done); lia. Qed.

Lemma pretty_N_parses x s : exists k, String.length (pretty_N_go x s) = (k + String.length s)%nat /\
  (x < 10 ^ N.of_nat k)%N /\ ((0 < x)%N -> (10 ^ N.of_nat (k - 1) <= x)%N) /\
  (forall acc, parse_digits acc (pretty_N_go x s) = parse_digits (acc * 10 ^ Z.of_nat k + Z.of_N x) s) /\
  all_chars digit_byte (pretty_N_go x s) = all_chars digit_byte s.
Proof.
  revert s. induction (N.lt_wf_0 x) as [x _ IH]; intros s. destruct (decide (0 < x)%N) as [Hx|Hx].
  - rewrite pretty_N_go_step by done. destruct (IH (x `div` 10)%N ltac:(by apply N.div_lt) (String (pretty_N_char (x `mod` 10)) s))
      as (k & Hl & Hb & Hlo & Hp & Hd). exists (S k). pose proof (N.mod_lt x 10 ltac:(done)) as Hm. pose proof (N.div_mod x 10 ltac:(done)) as Hdm.
    set (q := (x `div` 10)%N) in *. set (r := (x `mod` 10)%N) in *. split_and!.
    + rewrite Hl. cbn. lia.
    + rewrite Nat2N.inj_succ, N.pow_succ_r'. lia.
    + intros _. replace (S k - 1)%nat with k by lia. destruct k as [|k]; [cbn; lia |].
      destruct (decide (0 < q)%N) as [Hq|Hq]; [| exfalso; assert (q = 0%N) as Hq0 by lia; rewrite Hq0, pretty_N_go_0 in Hl; cbn in Hl; lia].
      specialize (Hlo Hq). replace (S k - 1)%nat with k in Hlo by lia. rewrite Nat2N.inj_succ, N.pow_succ_r'. lia.
    + intros acc. rewrite Hp. cbn [parse_digits]. rewrite digit_char by done. unfold in_range.
      rewrite (proj2 (Z.leb_le 48 _)), (proj2 (Z.leb_le _ 57)) by lia. cbn [andb]. f_equal.
      rewrite Nat2Z.inj_succ, Z.pow_succ_r by lia. lia.
    + rewrite Hd. cbn [all_chars]. unfold digit_byte at 1. rewrite digit_char by done. unfold in_range.
      by rewrite (proj2 (Z.leb_le 48 _)), (proj2 (Z.leb_le _ 57)) by lia.
  - assert (x = 0%N) as -> by lia. rewrite pretty_N_go_0. exists 0%nat. split_and!; [done | done | done | | done].
    intros acc. f_equal. cbn. lia.
Qed.

Lemma format_nat_parses z : 0 < z -> z <= max_int64 ->
  parse_int (format_int z) = Some z /\ all_chars digit_byte (format_int z) = true /\ (String.length (format_int z) <= 19)%nat.
Proof.
  intros Hz Hm. unfold format_int, pretty. destruct z as [|p|p]; try lia. cbn [pretty_Z]. unfold pretty_positive, pretty, pretty_N.
  rewrite decide_False by lia. destruct (pretty_N_parses (Npos p) "") as (k & Hl & Hb & Hlo & Hp & Hd).
  remember (pretty_N_go (N.pos p) "") as s eqn:Es. clear Es. cbn [String.length all_chars] in Hl, Hd. rewrite Nat.add_0_r in Hl.
  assert (Hk : (0 < k <= 19)%nat).
  { split; [destruct k; [cbn in Hb; lia | lia] |]. destruct (decide (k <= 19)%nat); [done |]. specialize (Hlo ltac:(lia)).
    assert (10 ^ 19 <= 10 ^ N.of_nat (k - 1))%N by (apply N.pow_le_mono_r; lia). unfold max_int64 in Hm. lia. }
  split_and!; [| done | lia]. unfold parse_int. destruct s as [|c s']; [cbn in Hl; lia |].
  assert (Hc : digit_byte c = true) by (by apply andb_true_iff in Hd as [? _]).
  assert (Hgo : parse_digits 0 (String c s') = Some (Z.pos p)) by (rewrite Hp; f_equal).
  assert (Hr : (min_int64 <=? Z.pos p) && (Z.pos p <=? max_int64) = true).
  { apply andb_true_iff. rewrite !Z.leb_le. unfold min_int64, max_int64 in *. lia. }
  assert (Hsign : c <> "+"%char /\ c <> "-"%char) by (split; intros ->; discriminate Hc).
  destruct c as [[] [] [] [] [] [] [] []]; try discriminate Hc; cbn [String.eqb]; rewrite ?Hgo, ?Hr; try done;
    destruct Hsign; congruence.
Qed.

Lemma format_nat_digits z : 0 <= z <= max_int64 ->
  parse_digits 0 (format_int z) = Some z /\ all_chars digit_byte (format_int z) = true /\ format_int z <> "".
Proof.
  intros Hz. destruct (decide (z = 0)) as [->|Hne]; [by split_and!; vm_compute |].
  destruct (format_nat_parses z) as (Hp & Hd & _); [lia | lia |]. destruct (format_int z) as [|c s]; [done |]. split_and!; [| done | done].
  unfold parse_int in Hp. assert (Hc : digit_byte c = true) by (by apply andb_true_iff in Hd as [? _]).
  assert (Hsign : c <> "+"%char /\ c <> "-"%char) by (split; intros ->; discriminate Hc).
  assert (Hgo : (if String.eqb (String c s) "" then None else match parse_digits 0 (String c s) with
    | Some n => if (min_int64 <=? n) && (n <=? max_int64) then Some n else None | None => None end) = Some z).
  { destruct c as [[] [] [] [] [] [] [] []]; try exact Hp; by destruct Hsign. }
  cbn [String.eqb] in Hgo. destruct (parse_digits 0 (String c s)) as [n|]; [| done]. by destruct (_ && _).
Qed.

Lemma rune_ascii c s : (byte_of c <? 128) = true -> runes (String c s) = (byte_of c, String c "") :: runes s.
Proof. intros Hc. unfold runes. cbn [String.length runes_fuel]. unfold decode_rune. rewrite Hc. by destruct s. Qed.
