(* ===== verification/Models.v ===== *)
(** * Domain types

    Package [internal/models]: the versions, items, groups, profiles and
    exclusions the decision core works on, their constants and the media-server
    keys (keys.go). Field names follow the Go structs with a two-letter prefix. *)

From S2P Require Import Prelude GoStd.
From Stdlib Require Import SpecFloat.
Local Open Scope string_scope.
Local Open Scope Z_scope.

(** ** Time

    A [time.Time] is its number of nanoseconds since January 1 of year 1 (UTC);
    the zero time is 0. A [time.Duration] is an int64 of nanoseconds. *)
Definition time := Z.
Definition is_zero (t : time) : bool := t =? 0.
Definition unix (t : time) : Z := t / 10 ^ 9 - 62135596800.
(** [t.Sub(u)] saturates at the bounds of [Duration]. *)
Definition time_sub (t u : time) : Z := Z.max min_int64 (Z.min max_int64 (t - u)).
Definition time_after (t u : time) : bool := u <? t.

(** ** Media servers *)

Definition MediaServerPlex := "plex".
Definition MediaServerJellyfin := "jellyfin".
Definition kind_read_only (k : string) : bool := String.eqb k MediaServerJellyfin.
Definition key_prefix (k : string) : string := if String.eqb k "" then MediaServerPlex else k.
Definition SupportedMediaServerKinds : list string := [MediaServerPlex; ""; MediaServerJellyfin].

(** ** Parts, tracks and versions *)

Record AudioTrack := {
  at_format : string;
  at_codec : string;
  at_profile : string;
  at_channels : Z;
  at_language : string;
  at_language_code : string;
  at_title : string;
  at_default : bool;
  at_atmos : bool;
}.

Record SubtitleTrack := {
  sub_codec : string;
  sub_language : string;
  sub_language_code : string;
  sub_forced : bool;
  sub_external : bool;
}.

Record MediaPart := {
  mp_path : string;
  mp_local_path : string;
  mp_size : Z;                    (* bytes *)
  mp_duration : Z;                (* milliseconds *)
  mp_exists : option bool;        (* None: unknown *)
  mp_accessible : option bool;
  mp_shared_with : list string;
  mp_shortcut_of : list string;
  mp_link_count : Z;
  mp_inode : string;
  mp_item_id : string;            (* the part's own item (Jellyfin stacks) *)
}.

Record ArrFileInfo := {
  af_instance_id : Z;
  af_instance_name : string;
  af_kind : string;
  af_file_id : Z;
  af_item_id : Z;
  af_episode_ids : list Z;
  af_custom_format_score : option Z;
  af_edition : string;
  af_tags : list string;
  af_quality_cutoff_not_met : bool;
  af_date_added : time;
}.
Definition ArrRadarr := "radarr".
Definition ArrSonarr := "sonarr".

Definition WatchKnown := "known".
Definition WatchUnknown := "unknown".
Definition WatchFailed := "failed".
Definition WatchSourceTautulli := "tautulli".

Record WatchInfo := {
  wi_source : string;
  wi_status : string;
  wi_reason : string;
  wi_plays : Z;
  wi_last_played : time;
  wi_since : time;
}.

Definition DiscBluray := "bluray".
Definition DiscUHDBluray := "uhd_bluray".
Definition DiscDVD := "dvd".
Definition DiscHDDVD := "hddvd".
Definition DiscAVCHD := "avchd".
Definition DiscBDAV := "bdav".
Definition DiscISO := "iso".
Definition DiscBlurayClips := "bluray_clips".
Definition DiscDVDClips := "dvd_clips".

Record DiscInfo := {
  di_type : string;
  di_root : string;
  di_local_root : string;
  di_file_count : Z;
  di_main_feature : string;
  di_roots : list string;
  di_local_roots : list string;
  di_owned_entries : list string;
  di_total_bytes : Z;
  di_feature_bytes : Z;
  di_freed_bytes : Z;
  di_hardlinked_files : Z;
  di_fingerprint : string;
  di_is_3d : bool;
  di_removable : bool;
  di_problem : string;
  di_tracked_clip : string;
  di_plex_items : list string;
  di_plex_media_ids : list Z;     (* the clips of a loose set *)
}.

Definition IsLooseClipDisc (kind : string) : bool :=
  String.eqb kind DiscBlurayClips || String.eqb kind DiscDVDClips.
Definition IsImage (d : option DiscInfo) : bool :=
  match d with Some d => String.eqb (di_type d) DiscISO | None => false end.
Definition IsLooseClips (d : option DiscInfo) : bool :=
  match d with Some d => IsLooseClipDisc (di_type d) | None => false end.

Definition OtherSameFile := "same_file".
Definition OtherPossiblySame := "possibly_same".

Record OtherMedia := {
  om_version_key : string;
  om_same : list string;
  om_distinct : list string;
}.

Record OtherListing := {
  ol_server_id : Z;
  ol_server_name : string;
  ol_library_id : Z;
  ol_library_title : string;
  ol_rating_key : string;
  ol_media_id : Z;
  ol_item_title : string;
  ol_path : string;
  ol_match : string;
  ol_item_keeps_another : option bool;
  ol_kept_by_group : option bool;
  ol_others : list OtherMedia;
  ol_hint : string;
  ol_version_key : string;
  ol_part_item_ids : list string;
}.

Record MediaVersion := {
  mv_key : string;
  mv_server_id : Z;
  mv_library_id : Z;
  mv_library_title : string;
  mv_section_key : string;
  mv_rating_key : string;
  mv_media_id : Z;
  mv_item_title : string;
  mv_optimized : bool;
  mv_item_key_id : string;
  mv_source_id : string;
  mv_episode_end : Z;
  mv_report_only : list string;
  mv_parts : list MediaPart;
  mv_container : string;
  mv_duration_ms : Z;
  mv_bitrate_kbps : Z;
  mv_video_bitrate : Z;
  mv_width : Z;
  mv_height : Z;
  mv_resolution : string;
  mv_video_codec : string;
  mv_bit_depth : Z;
  mv_dynamic_range : string;
  mv_audio_tracks : list AudioTrack;
  mv_subtitle_count : Z;          (* len(SubtitleTracks) *)
  mv_source : string;
  mv_edition : string;
  mv_added_at : time;
  mv_arr : option ArrFileInfo;
  mv_disc : option DiscInfo;
  mv_watch : option WatchInfo;
  mv_other_servers : list OtherListing;
}.

Definition IsDisc (v : MediaVersion) : bool := match mv_disc v with Some _ => true | None => false end.

(** [MediaVersion.TotalSize]: int64 sums wrap around. *)
Definition TotalSize (v : MediaVersion) : Z :=
  let sum := foldl (fun n p => wrap64 (n + mp_size p)) 0 (mv_parts v) in
  match mv_disc v with
  | Some d => if 0 <? di_total_bytes d then di_total_bytes d else sum
  | None => sum
  end.

(** ** Items *)

Definition MediaTypeMovie := "movie".
Definition MediaTypeEpisode := "episode".

Record MediaItem := {
  it_server_id : Z;
  it_library_id : Z;
  it_library_title : string;
  it_section_key : string;
  it_rating_key : string;
  it_media_type : string;
  it_title : string;
  it_year : Z;
  it_show_title : string;
  it_season : Z;
  it_episode : Z;
  it_external_ids : gmap string string;
  it_show_ids : gmap string string;
  it_edition_title : string;
  it_versions : list MediaVersion;
  it_server_kind : string;
  it_key_id : string;
}.

(** The columns of a [models.Library] the core reads. *)
Record Library := { lib_title : string; lib_scope_group : string }.

(** ** Profiles *)

Definition CritHealth := "health".
Definition CritResolution := "resolution".
Definition CritDynamicRange := "dynamic_range".
Definition CritSource := "source".
Definition CritVideoCodec := "video_codec".
Definition CritAudioFormat := "audio_format".
Definition CritAudioChannels := "audio_channels".
Definition CritVideoBitrate := "video_bitrate".
Definition CritFileSize := "file_size".
Definition CritContainer := "container".
Definition CritBitDepth := "bit_depth".
Definition CritCustomFormatScore := "custom_format_score".
Definition CritArrManaged := "arr_managed".
Definition CritLibrary := "library".
Definition CritDateAdded := "date_added".
Definition CritAudioTrackCount := "audio_track_count".
Definition CritSubtitleTrackCount := "subtitle_track_count".
Definition CritAudioLanguage := "audio_language".
Definition CritFilenameScore := "filename_score".
Definition CritPlayed := "played".
Definition CritLastPlayed := "last_played".
Definition DirectionHigher := "higher".
Definition DirectionLower := "lower".

Record PatternScore := {
  ps_pattern : string;
  ps_regex : bool;
  ps_case_sensitive : bool;
  ps_score : Z;
}.

(** [float64] fields are IEEE binary64 values. *)
Record Criterion := {
  cr_type : string;
  cr_enabled : bool;
  cr_direction : string;
  cr_order : list string;
  cr_tolerance_percent : spec_float;
  cr_min_delta : spec_float;
  cr_patterns : list PatternScore;
  cr_value : string;
}.

Definition ProtectPathGlob := "path_glob".
Definition ProtectLibrary := "library".
Definition ProtectArrInstance := "arr_instance".
Definition ProtectArrTag := "arr_tag".
Record Protection := { pr_type : string; pr_value : string }.

Definition KeepPerNone := "".
Definition KeepPerResolution := "resolution".
Definition KeepPerDynamicRange := "dynamic_range".

Record Profile := {
  pf_id : Z;
  pf_criteria : list Criterion;
  pf_keep_count : Z;
  pf_keep_per : string;
  pf_protections : list Protection;
}.

(** ** Exclusions *)

Definition ExcludeGroupKey := "group_key".
Definition ExcludePathPrefix := "path_prefix".
Definition ExcludeLibrary := "library".
Definition ExcludeRegex := "title_regex".
Record Exclusion := { ex_kind : string; ex_value : string }.

(** ** Groups *)

Definition DecisionKeep := "keep".
Definition DecisionRemove := "remove".

Definition GroupPending := "pending".
Definition GroupReview := "review".
Definition GroupDeferred := "deferred".
Definition GroupProtected := "protected".
Definition GroupQueued := "queued".
Definition GroupResolved := "resolved".
Definition GroupIgnored := "ignored".
Definition GroupFailed := "failed".

Definition FlagCrossLibrary := "cross_library".
Definition FlagDurationMismatch := "duration_mismatch".
Definition FlagMultiEpisode := "multi_episode".
Definition FlagStacked := "stacked".
Definition FlagHardlinked := "hardlinked".
Definition FlagMinAge := "min_age".
Definition FlagMissingKeeperFile := "missing_keeper_file".
Definition FlagEditionSplit := "edition_split".
Definition FlagArrUntrackedKeeper := "arr_untracked_keeper".
Definition FlagUnanalyzed := "unanalyzed".
Definition FlagUnavailableVersion := "unavailable_version".
Definition FlagSuspectMerge := "suspect_merge".
Definition FlagVariant3D := "variant_3d".
Definition FlagLanguageVariant := "language_variant".
Definition FlagIntentionalArr := "intentional_arr_instances".
Definition FlagArrQueueBusy := "arr_queue_busy".
Definition FlagArrCutoffUnmet := "arr_cutoff_unmet".
Definition FlagPlaying := "playing".
Definition FlagSample := "sample".
Definition FlagSameFile := "same_file".
Definition FlagFullDisc := "full_disc".
Definition FlagDiscUnreadable := "disc_unreadable".
Definition FlagDiscTracked := "disc_tracked_clip".
Definition FlagWatchUnreadable := "watch_unreadable".
Definition FlagOtherServerListing := "other_server_listing".
Definition FlagOtherServerKeeps := "other_server_keeps".
Definition FlagOtherServerPossible := "other_server_possible".
Definition FlagOtherServerUnread := "other_server_unread".
Definition FlagManualOnly := "manual_only".
Definition FlagReportOnly := "report_only".

(** One explanation line of a file: the lines the engine builds from rendered
    metric values are kept as the metric, the loser and the winner they name. *)
Inductive rank_line :=
  | RLOnlyVersion
  | RLBest (decider : string) (runner_up winner : nat)
  | RLNotConsidered (rank : nat)
  | RLKeepRanked (place : nat)
  | RLRemove (decider : string) (winner : nat).
Inductive line :=
  | LRank (l : rank_line)
  | LProfileDecision (l : rank_line)
  | LManualOverride (decision : string)
  | LProtected (reason : string)
  | LWouldBeRemoved (decider : string) (winner : nat)
  | LHealth (problems : list string)
  | LNote (note : string).

Record GroupFile := {
  gf_version : MediaVersion;
  gf_decision : string;
  gf_engine_decision : string;
  gf_override : string;
  gf_rank : nat;
  gf_reasons : list line;
  gf_deciding_criterion : string;
  gf_protected : bool;
  gf_protected_reason : list string;   (* joined with "; " in Go *)
}.

Record CrossServerServer := {
  cs_server_id : Z;
  cs_machine_identifier : string;
  cs_separate : bool;
  cs_mapped : bool;
  cs_mappings : string;
  cs_unread : string;
}.
Record CrossServerLibrary := {
  cl_server_id : Z;
  cl_library_id : Z;
  cl_section_key : string;
  cl_type : string;
  cl_locations : list string;
  cl_scanned_at : Z;
  cl_content_changed_at : Z;
  cl_refreshing : bool;
  cl_fingerprint : string;
}.
Record CrossServerRecord := {
  cs_complete : bool;
  cs_servers : list CrossServerServer;
  cs_libraries : list CrossServerLibrary;
}.

(** [StatusReason] before its pieces are joined with "; " and capitalised. *)
Inductive status_item := SIText (s : string) | SIQueueBusy.

Record DuplicateGroup := {
  dg_key : string;
  dg_media_type : string;
  dg_title : string;
  dg_year : Z;
  dg_show_title : string;
  dg_season : Z;
  dg_episode : Z;
  dg_server_id : Z;
  dg_library_ids : option (list Z);     (* None: a nil slice *)
  dg_external_ids : gmap string string;
  dg_status : string;
  dg_status_reason : list status_item;
  dg_flags : list string;
  dg_profile_id : Z;
  dg_files : list GroupFile;
  dg_reclaimable_bytes : Z;
  dg_signature : string;
  dg_cross_server : option CrossServerRecord;
}.

(** [g.HasFlag]. *)
Definition has_flag (flags : list string) (f : string) : bool := mem f flags.

(** ** Media-server keys (keys.go) *)

Definition keyKinds : list string :=
  foldl (fun out s =>
    let k := if String.eqb s "" then MediaServerPlex else s in
    if mem k out then out else (out ++ [k])%list) [] SupportedMediaServerKinds.

Definition server_key (kind : string) (server_id : Z) (id : string) : string :=
  key_prefix kind +:+ ":" +:+ format_int server_id +:+ ":" +:+ id.
Definition VersionKey := server_key.
Definition ServerItemKey := server_key.

(** Where the first ["@<kind>:"] marker starts and its length. *)
Definition DisambiguationIndex (s : string) : option (nat * nat) :=
  foldl (fun acc k =>
    let m := "@" +:+ key_prefix k +:+ ":" in
    match index_of s m with
    | Some j =>
      match acc with
      | Some (i, _) => if (j <? i)%nat then Some (j, String.length m) else acc
      | None => Some (j, String.length m)
      end
    | None => acc
    end) None keyKinds.

Definition KindOfVersionKey (key : string) : option string :=
  find (fun k => has_prefix key (key_prefix k +:+ ":")) keyKinds.

Definition item_key_item_id (it : MediaItem) : string :=
  let id := trim_space (it_key_id it) in
  if String.eqb id "" then trim_space (it_rating_key it) else id.

Definition ServerVersionID (v : MediaVersion) : string :=
  if 0 <? mv_media_id v then format_int (mv_media_id v) else trim_space (mv_source_id v).

Lemma keyKinds_eq : keyKinds = [MediaServerPlex; MediaServerJellyfin].
Proof. reflexivity. Qed.
