(* ===== verification/UnionFind.v ===== *)
(** * Union-find

    [unionFind] of internal/engine/helpers.go: path halving on a parent slice,
    the smaller root winning, and the loop that unions the owners of a shared
    key (sameFileComponents, idComponents and languageParts all run it). The
    components it computes are exactly the classes of the equivalence generated
    by "share a key", and each is named by its smallest member. *)

From S2P Require Import Prelude.

Section union_find.
Implicit Types (p : list nat) (i j k : nat).

(** [u.parent[i]]; every index is in range in the program. *)
Definition parent p i : nat := default i (p !! i).

Definition newUnionFind (n : nat) : list nat := seq 0 n.

(** [u.find(i)] with its path halving. Parents never exceed their child
    ([uf_wf]), so [S i] steps are enough. *)
Fixpoint find_fuel (fuel : nat) p i : nat * list nat :=
  match fuel with
  | O => (i, p)
  | S fuel' =>
    if parent p i =? i then (i, p) else
    let p' := <[i:=parent p (parent p i)]> p in
    find_fuel fuel' p' (parent p' i)
  end.
Definition uf_find p i : nat * list nat := find_fuel (S i) p i.

Definition union p i j : list nat :=
  let '(ri, p1) := uf_find p i in
  let '(rj, p2) := uf_find p1 j in
  if ri <? rj then <[rj:=ri]> p2
  else if rj <? ri then <[ri:=rj]> p2
  else p2.

(** The root of [i], without halving: what [uf_find] returns. *)
Fixpoint root_fuel (fuel : nat) p i : nat :=
  match fuel with
  | O => i
  | S fuel' => if parent p i =? i then i else root_fuel fuel' p (parent p i)
  end.
Definition root p i : nat := root_fuel (S i) p i.

Definition uf_wf p : Prop := forall i, parent p i <= i.

Lemma root_fuel_irrel p i f g :
  uf_wf p -> i < f -> i < g -> root_fuel f p i = root_fuel g p i.
Proof.
  intros Hwf. revert f g. induction i as [i IH] using lt_wf_ind.
  intros [|f] [|g] Hf Hg; try lia. simpl.
  destruct (Nat.eqb_spec (parent p i) i); [done |].
  pose proof (Hwf i). apply IH; lia.
Qed.

Lemma root_unfold p i :
  uf_wf p -> root p i = if parent p i =? i then i else root p (parent p i).
Proof.
  intros Hwf. unfold root at 1. simpl.
  destruct (Nat.eqb_spec (parent p i) i); [done |].
  pose proof (Hwf i). apply root_fuel_irrel; [done | lia | lia].
Qed.

Lemma root_le p i : uf_wf p -> root p i <= i.
Proof.
  intros Hwf. induction i as [i IH] using lt_wf_ind. rewrite root_unfold by done.
  destruct (Nat.eqb_spec (parent p i) i); [done |].
  pose proof (Hwf i). pose proof (IH (parent p i)). lia.
Qed.

Lemma parent_root p i : uf_wf p -> parent p (root p i) = root p i.
Proof.
  intros Hwf. induction i as [i IH] using lt_wf_ind. rewrite root_unfold by done.
  destruct (Nat.eqb_spec (parent p i) i); [done |].
  pose proof (Hwf i). apply IH. lia.
Qed.

Lemma root_idem p i : uf_wf p -> root p (root p i) = root p i.
Proof.
  intros Hwf. rewrite (root_unfold p (root p i)) by done.
  by rewrite parent_root, Nat.eqb_refl.
Qed.

Lemma parent_insert_eq p i x : i < length p -> parent (<[i:=x]> p) i = x.
Proof. intros H. unfold parent. by rewrite list_lookup_insert_eq. Qed.
Lemma parent_insert_ne p i j x : i <> j -> parent (<[i:=x]> p) j = parent p j.
Proof. intros H. unfold parent. by rewrite list_lookup_insert_ne. Qed.
Lemma insert_ge p i x : length p <= i -> <[i:=x]> p = p.
Proof. apply list_insert_ge. Qed.

Lemma wf_insert p i x : uf_wf p -> x <= i -> uf_wf (<[i:=x]> p).
Proof.
  intros Hwf Hx j. destruct (decide (i = j)) as [->|Hne].
  - destruct (decide (j < length p)).
    + by rewrite parent_insert_eq.
    + rewrite insert_ge by lia. apply Hwf.
  - rewrite parent_insert_ne by done. apply Hwf.
Qed.

(** Path halving changes no root. *)
Lemma root_halve p i j :
  uf_wf p -> root (<[i:=parent p (parent p i)]> p) j = root p j.
Proof.
  intros Hwf. destruct (decide (i < length p)); [| by rewrite insert_ge by lia].
  assert (Hwf' : uf_wf (<[i:=parent p (parent p i)]> p)).
  { apply wf_insert; [done |]. pose proof (Hwf i). pose proof (Hwf (parent p i)). lia. }
  induction j as [j IH] using lt_wf_ind. rewrite root_unfold by done.
  pose proof (Hwf i) as H1. pose proof (Hwf (parent p i)) as H2.
  destruct (decide (i = j)) as [<-|Hne].
  - rewrite parent_insert_eq by done.
    destruct (Nat.eqb_spec (parent p (parent p i)) i) as [E|E].
    + rewrite root_unfold by done.
      destruct (Nat.eqb_spec (parent p i) i); [done | lia].
    + rewrite IH by lia. rewrite (root_unfold p i) by done.
      destruct (Nat.eqb_spec (parent p i) i) as [E'|E']; [congruence |].
      rewrite (root_unfold p (parent p i)) by done.
      destruct (Nat.eqb_spec (parent p (parent p i)) (parent p i)) as [E2|E2]; [| done].
      rewrite E2. rewrite root_unfold by done. by rewrite E2, Nat.eqb_refl.
  - rewrite parent_insert_ne by done. rewrite (root_unfold p j) by done.
    destruct (Nat.eqb_spec (parent p j) j); [done |].
    pose proof (Hwf j). apply IH. lia.
Qed.

(** [find] returns the root, keeps every root and the length. *)
Lemma find_fuel_spec fuel p i r p' :
  uf_wf p -> i < fuel -> find_fuel fuel p i = (r, p') ->
  r = root p i /\ uf_wf p' /\ length p' = length p /\ forall j, root p' j = root p j.
Proof.
  revert p i. induction fuel as [|fuel IH]; intros p i Hwf Hlt H; [lia |].
  simpl in H. rewrite root_unfold by done.
  destruct (Nat.eqb_spec (parent p i) i) as [E|E]; [by injection H as <- <- |].
  pose proof (Hwf i) as H1. pose proof (Hwf (parent p i)) as H2.
  assert (i < length p) as Hi.
  { destruct (decide (i < length p)); [done |]. unfold parent in E.
    by rewrite lookup_ge_None_2 in E by lia. }
  rewrite parent_insert_eq in H by done.
  apply IH in H as (-> & Hwf' & Hlen & Hroots); [| apply wf_insert; [done | lia] | lia].
  rewrite root_halve by done. repeat split; [| done | |].
  - rewrite (root_unfold p (parent p i)) by done.
    destruct (Nat.eqb_spec (parent p (parent p i)) (parent p i)) as [E2|]; [| done].
    by rewrite E2, root_unfold, E2, Nat.eqb_refl by done.
  - by rewrite Hlen, length_insert.
  - intros j. by rewrite Hroots, root_halve.
Qed.

Lemma find_spec p i r p' :
  uf_wf p -> uf_find p i = (r, p') ->
  r = root p i /\ uf_wf p' /\ length p' = length p /\ forall j, root p' j = root p j.
Proof. intros Hwf. apply find_fuel_spec; [done | lia]. Qed.

(** Hanging root [hi] under the smaller root [lo]. *)
Lemma root_link p lo hi k :
  uf_wf p -> lo < hi -> hi < length p ->
  parent p lo = lo -> parent p hi = hi ->
  root (<[hi:=lo]> p) k = if root p k =? hi then lo else root p k.
Proof.
  intros Hwf Hlt Hlen Hlo Hhi.
  assert (Hwf' : uf_wf (<[hi:=lo]> p)) by (apply wf_insert; [done | lia]).
  induction k as [k IH] using lt_wf_ind.
  rewrite (root_unfold (<[hi:=lo]> p)) by done.
  destruct (decide (hi = k)) as [<-|Hne].
  - rewrite parent_insert_eq by done.
    destruct (Nat.eqb_spec lo hi); [lia |]. rewrite IH by lia.
    rewrite (root_unfold p lo), (root_unfold p hi), Hlo, Hhi, !Nat.eqb_refl by done.
    destruct (Nat.eqb_spec lo hi); [lia | done].
  - rewrite parent_insert_ne by done. rewrite (root_unfold p k) by done.
    destruct (Nat.eqb_spec (parent p k) k) as [E|E].
    + destruct (Nat.eqb_spec k hi); [congruence | done].
    + pose proof (Hwf k). apply IH. lia.
Qed.

(** [union] merges the two classes under the smaller root and nothing else. *)
Lemma union_spec p i j :
  uf_wf p -> i < length p -> j < length p ->
  let p' := union p i j in
  uf_wf p' /\ length p' = length p /\
  forall k, root p' k =
    if (root p k =? root p i) || (root p k =? root p j)
    then Nat.min (root p i) (root p j) else root p k.
Proof.
  intros Hwf Hi Hj. unfold union.
  destruct (uf_find p i) as [ri p1] eqn:E1. destruct (uf_find p1 j) as [rj p2] eqn:E2.
  apply find_spec in E1 as (-> & Hwf1 & Hl1 & Hr1); [| done].
  apply find_spec in E2 as (-> & Hwf2 & Hl2 & Hr2); [| done].
  rewrite Hr1. set (a := root p i). set (b := root p j).
  assert (Hfix : forall k, root p2 k = root p k) by (intros; by rewrite Hr2).
  assert (Hpar : forall k, parent p2 (root p k) = root p k).
  { intros k. rewrite <- Hfix. by apply parent_root. }
  pose proof (root_le p i Hwf) as Hai. pose proof (root_le p j Hwf) as Hbj.
  fold a in Hai. fold b in Hbj.
  assert (Hcase : forall lo hi, lo < hi -> hi < length p ->
    parent p2 lo = lo -> parent p2 hi = hi ->
    uf_wf (<[hi:=lo]> p2) /\ length (<[hi:=lo]> p2) = length p /\
    forall k, root (<[hi:=lo]> p2) k = if root p k =? hi then lo else root p k).
  { intros lo hi ????. split; [apply wf_insert; [done | lia] |].
    split; [rewrite length_insert; congruence |].
    intros k. rewrite root_link by (try done; lia). by rewrite Hfix. }
  destruct (Nat.ltb_spec a b); [| destruct (Nat.ltb_spec b a)].
  - destruct (Hcase a b) as (?&?&Hk); [done | lia | apply Hpar | apply Hpar |].
    split_and!; [done | done |]. intros k. rewrite Hk, Nat.min_l by lia.
    destruct (Nat.eqb_spec (root p k) a), (Nat.eqb_spec (root p k) b); simpl; lia.
  - destruct (Hcase b a) as (?&?&Hk); [done | lia | apply Hpar | apply Hpar |].
    split_and!; [done | done |]. intros k. rewrite Hk, Nat.min_r by lia.
    destruct (Nat.eqb_spec (root p k) a), (Nat.eqb_spec (root p k) b); simpl; lia.
  - split_and!; [done | congruence |]. intros k. rewrite Hfix.
    destruct (Nat.eqb_spec (root p k) a), (Nat.eqb_spec (root p k) b); simpl; lia.
Qed.

Lemma wf_new n : uf_wf (newUnionFind n).
Proof.
  intros i. unfold parent, newUnionFind. destruct (seq 0 n !! i) eqn:E; [| done].
  apply lookup_seq in E. simpl. lia.
Qed.

Lemma root_new n i : root (newUnionFind n) i = i.
Proof.
  rewrite root_unfold by apply wf_new. unfold parent, newUnionFind.
  destruct (seq 0 n !! i) eqn:E; simpl; [| by rewrite Nat.eqb_refl].
  apply lookup_seq in E as [-> _]. by rewrite Nat.eqb_refl.
Qed.
End union_find.

(** ** Components of owners that share keys *)

Section key_components.
Context {K : Type} `{Countable K}.
Implicit Types (owners : list (list K)) (st : list nat * gmap K nat).

(** The body of the inner loop: [i] owns key [k]. *)
Definition add_key (i : nat) st (k : K) : list nat * gmap K nat :=
  let '(uf, first) := st in
  match first !! k with
  | Some j => (union uf i j, first)
  | None => (uf, <[k:=i]> first)
  end.

Definition add_owner st (iks : nat * list K) : list nat * gmap K nat :=
  foldl (add_key (fst iks)) st (snd iks).

Definition key_union_find owners : list nat :=
  fst (foldl add_owner (newUnionFind (length owners), ∅) (imap pair owners)).

(** [uf.find(i)] for every owner. *)
Definition key_components owners : list nat :=
  map (root (key_union_find owners)) (seq 0 (length owners)).

(** Owners [a] and [b] both list some key. *)
Definition share_key owners (a b : nat) : Prop :=
  exists ka kb k, owners !! a = Some ka /\ owners !! b = Some kb /\ k ∈ ka /\ k ∈ kb.

Record uf_inv owners (done : nat -> K -> Prop) st : Prop := {
  inv_wf : uf_wf (fst st);
  inv_len : length (fst st) = length owners;
  inv_sound : forall a b, a < length owners -> b < length owners ->
    root (fst st) a = root (fst st) b -> rtsc (share_key owners) a b;
  inv_first : forall k j, snd st !! k = Some j -> exists ks, owners !! j = Some ks /\ k ∈ ks;
  inv_done : forall a k, done a k -> exists j, snd st !! k = Some j /\ root (fst st) a = root (fst st) j;
}.

Lemma add_key_inv owners done st i ks k :
  owners !! i = Some ks -> k ∈ ks -> uf_inv owners done st ->
  uf_inv owners (fun a k' => done a k' \/ (a = i /\ k' = k)) (add_key i st k).
Proof.
  intros Hi Hk [Hwf Hlen Hsound Hfirst Hdone]. destruct st as [uf first]. simpl in *.
  pose proof (lookup_lt_Some _ _ _ Hi) as Hilt.
  destruct (first !! k) as [j|] eqn:Ej.
  - destruct (Hfirst _ _ Ej) as (kj & Hj & Hkj).
    pose proof (lookup_lt_Some _ _ _ Hj) as Hjlt.
    destruct (union_spec uf i j Hwf) as (Hwf' & Hlen' & Hroot); [lia | lia |].
    assert (Hij : rtsc (share_key owners) i j).
    { apply rtsc_lr. exists ks, kj, k. auto. }
    assert (Hsame : forall a b, root uf a = root uf b -> root (union uf i j) a = root (union uf i j) b).
    { intros a b E. by rewrite !Hroot, E. }
    assert (Hmerge : root (union uf i j) i = root (union uf i j) j).
    { rewrite !Hroot, !Nat.eqb_refl. by rewrite orb_true_r. }
    split; simpl; [done | congruence | | done |].
    + intros a b Ha Hb. rewrite !Hroot.
      assert (Hcls : forall c, c < length owners ->
        (root uf c =? root uf i) || (root uf c =? root uf j) = true -> rtsc (share_key owners) c i).
      { intros c Hc Ec. apply orb_true_iff in Ec as [Ec|Ec]; apply Nat.eqb_eq in Ec.
        - by apply Hsound.
        - transitivity j; [by apply Hsound | by apply (symmetry (R:=rtsc (share_key owners)))]. }
      destruct (_ || _) eqn:Ea; destruct ((root uf b =? root uf i) || _) eqn:Eb; intros E.
      * etrans; [by apply Hcls | symmetry; by apply Hcls].
      * exfalso. bsimp. destruct (Nat.min_spec (root uf i) (root uf j)) as [[_ Em]|[_ Em]]; congruence.
      * exfalso. bsimp. destruct (Nat.min_spec (root uf i) (root uf j)) as [[_ Em]|[_ Em]]; congruence.
      * by apply Hsound.
    + intros a k' [Hd|[-> ->]].
      * destruct (Hdone _ _ Hd) as (j' & Hj' & E). exists j'. auto.
      * exists j. auto.
  - split; simpl; [done | done | done | |].
    + intros k' j'. rewrite lookup_insert. case_decide; [| by apply Hfirst].
      intros [= <-]. subst. eauto.
    + intros a k' [Hd|[-> ->]].
      * destruct (Hdone _ _ Hd) as (j' & Hj' & E). exists j'.
        rewrite lookup_insert_ne; [done |]. intros ->. congruence.
      * exists i. by rewrite lookup_insert_eq.
Qed.

Lemma add_owner_inv owners done st i ks :
  owners !! i = Some ks -> uf_inv owners done st ->
  uf_inv owners (fun a k => done a k \/ (a = i /\ k ∈ ks)) (add_owner st (i, ks)).
Proof.
  intros Hi Hinv. unfold add_owner; simpl.
  assert (Hgen : forall l l', ks = (l' ++ l)%list ->
    uf_inv owners (fun a k => done a k \/ (a = i /\ k ∈ l')) st ->
    uf_inv owners (fun a k => done a k \/ (a = i /\ k ∈ ks)) (foldl (add_key i) st l)).
  { clear Hinv. intros l. revert st. induction l as [|k l IH]; intros st l' -> Hst; simpl.
    - by rewrite app_nil_r.
    - apply (IH _ (l' ++ [k])%list); [by rewrite <- app_assoc |].
      eapply (add_key_inv _ _ _ i _ k) in Hst; [| exact Hi | set_solver].
      destruct Hst as [? ? ? ? Hd]. split; try done.
      intros a k' Hak. apply Hd. set_solver. }
  apply (Hgen ks []); [done |]. destruct Hinv as [? ? ? ? Hd].
  split; try done. intros a k [|[_ Hin]]; [by apply Hd | set_solver].
Qed.

Lemma key_union_find_inv owners :
  exists first, uf_inv owners (fun a k => exists ks, owners !! a = Some ks /\ k ∈ ks)
    (key_union_find owners, first).
Proof.
  unfold key_union_find.
  set (st0 := (newUnionFind (length owners), ∅)).
  assert (Hgen : forall l l' st, owners = (l' ++ l)%list ->
    uf_inv owners (fun a k => exists ks, l' !! a = Some ks /\ k ∈ ks) st ->
    uf_inv owners (fun a k => exists ks, owners !! a = Some ks /\ k ∈ ks)
      (foldl add_owner st (imap (fun i => pair (length l' + i)) l))).
  { intros l. induction l as [|ks l IH]; intros l' st Heq Hst; simpl.
    - by rewrite Heq, app_nil_r in *.
    - specialize (IH (l' ++ [ks])%list (add_owner st (length l' + 0, ks))).
      rewrite length_app in IH; simpl in IH.
      erewrite imap_ext; [apply IH |].
      + by rewrite <- app_assoc.
      + rewrite Nat.add_0_r. eapply (add_owner_inv owners _ _ (length l') ks) in Hst.
        2: { rewrite Heq, lookup_app_r, Nat.sub_diag by lia. done. }
        destruct Hst as [? ? ? ? Hd]. split; try done.
        intros a k (ks' & Ha & Hk). apply Hd.
        apply lookup_app_Some in Ha as [Ha|[Hge Ha]]; [left; eauto |].
        right. destruct (a - length l') as [|n] eqn:E; simpl in Ha; [| by destruct n].
        injection Ha as <-. split; [lia | done].
      + intros x y _. simpl. f_equal. lia. }
  specialize (Hgen owners [] st0 eq_refl). simpl in Hgen.
  destruct (foldl add_owner st0 (imap pair owners)) as [uf first] eqn:E.
  exists first. simpl. apply Hgen. subst st0. split; simpl.
  - apply wf_new.
  - unfold newUnionFind. by rewrite length_seq.
  - intros a b _ _. rewrite !root_new. by intros ->.
  - intros k j. by rewrite lookup_empty.
  - intros a k (ks & Ha & _). done.
Qed.

Lemma key_components_lookup owners i :
  i < length owners -> key_components owners !! i = Some (root (key_union_find owners) i).
Proof.
  intros Hi. unfold key_components. rewrite list_lookup_fmap, lookup_seq_lt by done. done.
Qed.

Lemma length_key_components owners : length (key_components owners) = length owners.
Proof. unfold key_components. by rewrite length_map, length_seq. Qed.

(** Two owners are in one component exactly when a chain of shared keys links them. *)
Lemma key_components_iff owners a b :
  a < length owners -> b < length owners ->
  root (key_union_find owners) a = root (key_union_find owners) b <->
  rtsc (share_key owners) a b.
Proof.
  intros Ha Hb. destruct (key_union_find_inv owners) as (first & [Hwf Hlen Hsound _ Hd]).
  simpl in *. split; [by apply Hsound |].
  clear Ha Hb. induction 1 as [|x y z Hxy _ IH]; [done |]. rewrite <- IH.
  assert (Hshare : forall u v, share_key owners u v ->
    root (key_union_find owners) u = root (key_union_find owners) v).
  { intros u v (ku & kv & k & Hu & Hv & Hku & Hkv).
    destruct (Hd u k) as (j & Hj & ->); [eauto |].
    destruct (Hd v k) as (j' & Hj' & ->); [eauto |]. congruence. }
  destruct Hxy as [Hxy|Hxy]; [| symmetry]; by apply Hshare.
Qed.

(** A component is named by its smallest member. *)
Lemma key_components_least owners a :
  a < length owners ->
  let c := root (key_union_find owners) a in
  c <= a /\ rtsc (share_key owners) a c /\
  forall b, b < length owners -> rtsc (share_key owners) a b -> c <= b.
Proof.
  intros Ha c. destruct (key_union_find_inv owners) as (first & [Hwf _ _ _ _]). simpl in Hwf.
  assert (Hc : c <= a) by by apply root_le.
  split_and!; [done | |].
  - apply key_components_iff; [done | lia |]. symmetry. by apply root_idem.
  - intros b Hb Hab. apply key_components_iff in Hab; [| done | done].
    subst c. rewrite Hab. by apply root_le.
Qed.
End key_components.
