(* ===== verification/GoFloat.v ===== *)
(** * float64

    Go's [float64] as IEEE binary64 values of the Standard Library's executable
    specification ([SpecFloat], precision 53, maximal exponent 1024), and the
    parts of package [math] the ranking uses. *)

From S2P Require Import Prelude.
From Stdlib Require Export SpecFloat.
Local Open Scope Z_scope.

Definition float64 := spec_float.

(** [float64(z)] for an integer: rounded to nearest, ties to even. *)
Definition fint (z : Z) : float64 := binary_normalize 53 1024 z 0 false.
Definition f0 : float64 := S754_zero false.
Definition f1 : float64 := fint 1.
Definition f100 : float64 := fint 100.
(** The constant [0.9]. *)
Definition f0_9 : float64 := S754_finite false 8106479329266893 (-53).
Definition pos_inf : float64 := S754_infinity false.
Definition neg_inf : float64 := S754_infinity true.

Definition fneg (x : float64) : float64 := SFopp x.
Definition fabs (x : float64) : float64 := SFabs x.
Definition fsub (x y : float64) : float64 := SFsub 53 1024 x y.
Definition fmul (x y : float64) : float64 := SFmul 53 1024 x y.
Definition fdiv (x y : float64) : float64 := SFdiv 53 1024 x y.
Definition flt (x y : float64) : bool := SFltb x y.
Definition fle (x y : float64) : bool := SFleb x y.
Definition fgt (x y : float64) : bool := SFltb y x.

Definition f_is_nan (x : float64) : bool := match x with S754_nan => true | _ => false end.
(** [math.IsInf(x, 0)]. *)
Definition f_is_inf (x : float64) : bool := match x with S754_infinity _ => true | _ => false end.

(** [math.Max] and [math.Min]. *)
Definition fmax (x y : float64) : float64 :=
  match x, y with
  | S754_infinity false, _ | _, S754_infinity false => pos_inf
  | S754_nan, _ | _, S754_nan => S754_nan
  | S754_zero sx, S754_zero sy => if sx then y else x
  | _, _ => if fgt x y then x else y
  end.
Definition fmin (x y : float64) : float64 :=
  match x, y with
  | S754_infinity true, _ | _, S754_infinity true => neg_inf
  | S754_nan, _ | _, S754_nan => S754_nan
  | S754_zero sx, S754_zero sy => if sx then x else y
  | _, _ => if flt x y then x else y
  end.

Lemma SFcompare_antisym x y :
  SFcompare y x = option_map CompOpp (SFcompare x y).
Proof.
  destruct x as [sx|sx| |sx mx ex], y as [sy|sy| |sy my ey]; simpl; try done;
    try (destruct sx, sy; done); try (by destruct sx); try (by destruct sy).
  rewrite (Z.compare_antisym ex ey).
  pose proof (Pos.compare_cont_antisym my mx Eq) as Hm; simpl in Hm.
  destruct sx, sy; simpl; try done; destruct (ex ?= ey); simpl; try done;
    rewrite <- Hm, ?CompOpp_involutive; try done.
Qed.

Lemma flt_irrefl x : flt x x = false.
Proof.
  unfold flt, SFltb. pose proof (SFcompare_antisym x x) as H.
  destruct (SFcompare x x) as [[]|]; simpl in H; congruence.
Qed.

Lemma flt_asym x y : flt x y = true -> flt y x = false.
Proof.
  unfold flt, SFltb. rewrite (SFcompare_antisym x y).
  destruct (SFcompare x y) as [[]|]; simpl; congruence.
Qed.

Example fint_ex : fsub (fint 5) (fint 3) = fint 2 /\ flt (fint 3) (fint 5) = true.
Proof. by split; vm_compute. Qed.
Example fmul_ex : flt (fint 89) (fmul f0_9 (fint 100)) = true.
Proof. by vm_compute. Qed.
