(* ===== verification/DiscPaths.v ===== *)
(** * Disc path rules

    internal/disc/paths.go: pure string rules that say whether a path lies
    inside a full-disc structure (BDMV, VIDEO_TS ...) or is one of its loose
    files. Every removal method asks [IsDiscPath] first, so the theorems say it
    fails closed: whatever lies below a structure folder is a disc path. *)

From S2P Require Import Prelude GoStd.
Local Open Scope string_scope.
Local Open Scope Z_scope.

Definition Bluray := "bluray".
Definition DVD := "dvd".
Definition HDDVD := "hddvd".
Definition AVCHD := "avchd".
Definition BDAV := "bdav".
Definition BlurayClips := "bluray_clips".
Definition DVDClips := "dvd_clips".

Definition structureDirs : list (string * string) :=
  [("BDMV", Bluray); ("AACS", Bluray); ("CERTIFICATE", Bluray); ("MAKEMKV", Bluray);
   ("BDSVM", Bluray); ("SLYVM", Bluray); ("ANYVM", Bluray); ("BDAV", BDAV);
   ("VIDEO_TS", DVD); ("HVDVD_TS", HDDVD); ("ADV_OBJ", HDDVD); ("AVCHD", AVCHD)].

Definition discFileNames : list (string * string) :=
  [("INDEX.BDMV", Bluray); ("MOVIEOBJECT.BDMV", Bluray); ("DISCATT.DAT", Bluray);
   ("INDEX.BDM", AVCHD); ("MOVIEOBJ.BDM", AVCHD)].

Definition discExtensions : list (string * string) :=
  [(".MPLS", Bluray); (".CLPI", Bluray); (".BDMV", Bluray); (".SSIF", Bluray);
   (".BDM", AVCHD); (".MPL", AVCHD); (".CPI", AVCHD); (".IFO", DVD); (".BUP", DVD);
   (".EVO", HDDVD)].

Definition digit_class : re := RChr (in_range 48 57).
(** [(?:[ ._-]+(?:copy|\([0-9]{1,3}\)|[0-9]{1,3}))*] *)
Definition copyMarkers : re :=
  star (RSeq (plus (cls " ._-"))
    (any_of [word_ci "copy"; seq_of [one "("; between 1 3 digit_class; one ")"]; between 1 3 digit_class])).
(** [[0-9]{5}] and copy markers *)
Definition clipStem : re := RSeq (times 5 digit_class) copyMarkers.

Definition reFlatDVD : re :=
  seq_of [RBegin;
    RAlt (seq_of [word_ci "VIDEO_TS"; copyMarkers; one "."; any_of [word_ci "IFO"; word_ci "BUP"; word_ci "VOB"]])
         (seq_of [word_ci "VTS_"; times 2 digit_class; one "_"; digit_class; copyMarkers; one ".";
                  any_of [word_ci "IFO"; word_ci "BUP"; word_ci "VOB"]]);
    REnd].
Definition reClipName : re :=
  seq_of [RBegin; clipStem; one "."; any_of [word_ci "m2ts"; word_ci "mts"; word_ci "m2t"]; REnd].
Definition reDVDClipName : re :=
  seq_of [RBegin;
    RAlt (seq_of [word_ci "VTS_"; times 2 digit_class; one "_"; digit_class; copyMarkers; word_ci ".VOB"])
         (seq_of [word_ci "VIDEO_TS"; copyMarkers; one "."; any_of [word_ci "VOB"; word_ci "IFO"; word_ci "BUP"]]);
    REnd].
Definition reLooseBDMeta : re :=
  seq_of [RBegin;
    RAlt (seq_of [plus (RChr (fun r => negb (r =? 0x2F) && negb (r =? 0x5C))); one ".";
                  any_of [word_ci "mpls"; word_ci "clpi"; word_ci "bdmv"]])
         (seq_of [clipStem; word_ci ".ssif"]);
    REnd].

(** [.], which matches no line feed. *)
Definition any_char : re := RChr (fun r => negb (r =? 10)).
(** [(?:cd|dvd|dis[ck]|part|pt)[ ._-]*] *)
Definition disc_word : re :=
  RSeq (any_of [word_ci "cd"; word_ci "dvd"; RSeq (word_ci "dis") (RAlt (one_ci "c") (one_ci "k")); word_ci "part"; word_ci "pt"])
    (star (cls " ._-")).
Definition reSetFolder : re :=
  seq_of [RBegin; opt (RSeq (RStar false any_char) (cls " ._-")); disc_word; RGroup 1 (between 1 2 digit_class); REnd].
Definition reStackedImage : re :=
  seq_of [RBegin; RGroup 1 (RStar false any_char); star (cls " ._-"); disc_word; RGroup 2 (between 1 2 digit_class); REnd].
Definition reExtrasFolder : re :=
  seq_of [RBegin;
    any_of [RSeq (word_ci "extra") (opt (one_ci "s")); RSeq (word_ci "bonus") (star any_char);
            seq_of [star any_char; word_ci "bonus dis"; RAlt (one_ci "c") (one_ci "k"); star any_char];
            seq_of [word_ci "special"; opt (cls " ._-"); word_ci "features"];
            word_ci "featurettes"; word_ci "behind the scenes"; word_ci "deleted scenes"; word_ci "interviews";
            word_ci "scenes"; word_ci "shorts"; word_ci "trailers"; word_ci "other"; RSeq (word_ci "sample") (opt (one_ci "s"))];
    REnd].

(** What a disc owns at its root besides its structure folders. *)
Definition bdCompanions : list string :=
  ["CERTIFICATE"; "AACS"; "MAKEMKV"; "BDSVM"; "SLYVM"; "ANYVM"; "SNP"; "FILMINDEX.XML"; "DISCATT.DAT"].
Definition dvdCompanions : list string := ["AUDIO_TS"; "JACKET_P"].

Definition is_ascii_letter (c : ascii) : bool :=
  in_range 97 122 (byte_of c) || in_range 65 90 (byte_of c).
Definition is_any_slash (c : ascii) : bool := is_slash c || Ascii.eqb c backslash.

Definition assoc {A} (m : list (string * A)) (s : string) : option A :=
  match find (fun kv => String.eqb (fst kv) s) m with Some (_, t) => Some t | None => None end.

Fixpoint has_high_byte (s : string) : bool :=
  match s with "" => false | String c s' => (0x80 <=? byte_of c) || has_high_byte s' end.

Section disc_paths.
Context `{Unicode}.

Definition lookupFold (m : list (string * string)) (s : string) : option string :=
  match assoc m (to_upper s) with
  | Some t => Some t
  | None =>
    if has_high_byte s then
      match find (fun kv => equal_fold (fst kv) s) m with Some (_, t) => Some t | None => None end
    else None
  end.

Definition IsClipName (name : string) : bool := re_match reClipName name.
Definition IsDVDClipName (name : string) : bool := re_match reDVDClipName name.
Definition IsLooseSetFileName (name : string) : bool :=
  re_match reClipName name || re_match reLooseBDMeta name || re_match reFlatDVD name.

Definition disc_baseName (p : string) : string :=
  let p := trim_right_slash (to_slash p) in
  match last_index_byte p "/"%char with Some i => sdrop (S i) p | None => p end.

(** A folder of [p] (not its last element) is a disc structure folder. *)
Definition inStructure (p : string) : bool :=
  let n := trim_right_slash (to_slash p) in
  match last_index_byte n "/"%char with
  | None => false
  | Some i => existsb (fun comp => negb (String.eqb comp "") &&
      bool_decide (is_Some (lookupFold structureDirs comp))) (split_byte "/"%char (stake i n))
  end.

Definition LooseClipKind (p : string) : option string :=
  let name := disc_baseName p in
  if String.eqb name "" then None
  else
    let kind := if re_match reClipName name then Some BlurayClips
      else if re_match reDVDClipName name then Some DVDClips else None in
    match kind with
    | None => None
    | Some k => if inStructure p then None else Some k
    end.
Definition IsLooseClipPath (p : string) : bool := bool_decide (is_Some (LooseClipKind p)).

(** The components of a path with their byte offsets. *)
Fixpoint with_offsets (start : nat) (comps : list string) : list (nat * string) :=
  match comps with
  | [] => []
  | c :: cs => (start, c) :: with_offsets (S (start + String.length c)) cs
  end.

(** The loop of [locate]: the first structure folder decides, the last
    non-empty component is kept for the file rules. *)
Fixpoint locate_comps (prev : option (nat * string)) (l : list (nat * string)) :
    (string * nat) + option (nat * string) :=
  match l with
  | [] => inr prev
  | (start, comp) :: l' =>
    if String.eqb comp "" then locate_comps prev l'
    else match lookupFold structureDirs comp with
    | Some kind =>
      let rs := match prev with
        | Some (ps, pc) => if String.eqb kind AVCHD && equal_fold pc "PRIVATE" then ps else start
        | None => start
        end in
      inl (kind, rs)
    | None => locate_comps (Some (start, comp)) l'
    end
  end.

Definition locate (p : string) : option (string * nat) :=
  match locate_comps None (with_offsets 0 (split_byte "/"%char (to_slash p))) with
  | inl res => Some res
  | inr None => None
  | inr (Some (start, name)) =>
    match lookupFold discFileNames name with
    | Some kind => Some (kind, start)
    | None =>
      if re_match reFlatDVD name then Some (DVD, start)
      else match lookupFold discExtensions (path_ext name) with
      | Some kind => Some (kind, start)
      | None => if re_match reClipName name then Some (BlurayClips, start) else None
      end
    end
  end.

Definition IsDiscPath (p : string) : bool := bool_decide (is_Some (locate p)).

Definition rootBefore (p : string) (e : nat) : string :=
  if (e =? 0)%nat then "" else
  let r := stake e p in
  let t := trim_right_where is_any_slash r in
  match t with
  | "" => stake 1 r
  | String c0 (String ":" "") =>
    if is_ascii_letter c0 && (2 <? String.length r)%nat then stake 3 r else t
  | _ => t
  end.

Definition RootOf (p : string) : option (string * string) :=
  match locate p with
  | Some (t, e) => Some (rootBefore p e, t)
  | None => None
  end.

Definition IsImagePath (p : string) : bool :=
  let ext := to_upper (path_ext (disc_baseName p)) in
  String.eqb ext ".ISO" || String.eqb ext ".IMG".

(** ** Names of entries and folders *)

Definition containsFold (l : list string) (name : string) : bool := existsb (fun s => equal_fold s name) l.
Definition isDVDMedia (name : string) : bool :=
  (String.length ".dvdmedia" <? String.length name)%nat &&
  equal_fold (sdrop (String.length name - String.length ".dvdmedia") name) ".dvdmedia".
Definition IsDiscEntryName (name : string) : bool :=
  if String.eqb name "" then false
  else bool_decide (is_Some (lookupFold structureDirs name)) ||
    (containsFold bdCompanions name || containsFold dvdCompanions name) ||
    (re_match reFlatDVD name || IsLooseSetFileName name || isDVDMedia name).
Definition IsExtrasFolderName (name : string) : bool := re_match reExtrasFolder name.
(** The number of a multi-disc folder. *)
Definition IsSetFolderName (name : string) : option Z :=
  if IsExtrasFolderName name then None
  else match re_find reSetFolder name with
  | None => None
  | Some m => parse_int (m 1%nat)
  end.
Definition HintsDisc (name : string) : bool :=
  IsDiscEntryName name || IsImagePath name || bool_decide (is_Some (IsSetFolderName name)).
Definition SetFolderPrefix (name : string) : option string :=
  let name := if isDVDMedia name then stake (String.length name - String.length ".dvdmedia") name else name in
  match IsSetFolderName name with
  | None => None
  | Some _ =>
    match re_find reStackedImage name with
    | None => None
    | Some m => Some (join " " (fields_func (fun r => negb (u_letter r) && negb (u_digit r)) (to_lower (m 1%nat))))
    end
  end.
Definition stackedImage (name : string) : option (string * Z) :=
  match re_find reStackedImage (trim_suffix name (path_ext name)) with
  | None => None
  | Some m => match parse_int (m 2%nat) with Some n => Some (to_lower (trim_space (m 1%nat)), n) | None => None end
  end.
(** The folder to look for a disc in, given its root. *)
Definition DetectDir (root : string) : string :=
  if String.eqb root "" then "" else
  let c := path_clean root in
  let base := path_base c in
  if IsImagePath c || isDVDMedia base || IsExtrasFolderName base then path_dir c
  else match IsSetFolderName base with Some _ => path_dir c | None => c end.

(** ** Keys *)

Definition has_drive_letter (p : string) : bool :=
  match p with String c (String ":" _) => is_ascii_letter c | _ => false end.
Definition normalizeRoot (p : string) : string :=
  if String.eqb p "" then "" else
  let q := to_slash p in
  let c := path_clean q in
  let c := if has_prefix q "//" && negb (has_prefix c "//") then "/" +:+ c else c in
  if has_drive_letter c then to_lower (stake 1 c) +:+ sdrop 1 c else c.
Definition RootHash (root : string) : string := sha1_hex (normalizeRoot root).
Definition ClipSetHash (folder : string) : string :=
  let n := normalizeRoot folder in
  sha1_hex ((if has_prefix n "//" || has_drive_letter n then to_lower n else n) +:+ ":clips").
End disc_paths.

(** ** Lemmas *)

Lemma with_offsets_snd n l : map snd (with_offsets n l) = l.
Proof. revert n. induction l as [|x l IH]; intros n; simpl; [done |]. by rewrite IH. Qed.

Section disc_path_lemmas.
Context `{Unicode}.

(** A structure folder anywhere decides, whatever precedes or follows it. *)
Lemma locate_comps_structure prev l comp :
  comp ∈ map snd l -> comp <> "" -> is_Some (lookupFold structureDirs comp) ->
  exists res, locate_comps prev l = inl res.
Proof.
  revert prev. induction l as [|[start c] l IH]; intros prev Hin Hne Hs; simpl in *;
    [by apply elem_of_nil in Hin |].
  destruct (String.eqb_spec c "") as [->|Hc].
  - apply IH; try done. set_solver.
  - destruct (lookupFold structureDirs c) eqn:E; [eauto |].
    apply elem_of_cons in Hin as [->|Hin].
    + rewrite E in Hs. by destruct Hs.
    + by apply IH.
Qed.

Lemma locate_structure p comp :
  comp ∈ split_byte "/"%char (to_slash p) -> comp <> "" ->
  is_Some (lookupFold structureDirs comp) -> IsDiscPath p = true.
Proof.
  intros Hin Hne Hs. apply bool_decide_eq_true. unfold locate.
  destruct (locate_comps_structure None
    (with_offsets 0 (split_byte "/"%char (to_slash p))) comp) as [res ->]; try done.
  by rewrite with_offsets_snd.
Qed.
End disc_path_lemmas.
