(* ===== verification/Paths.v ===== *)
(** * Media paths

    The path helpers of internal/engine/helpers.go: normalisation, comparison
    keys, segment-aware prefixes and the two glob matchers. The doublestar
    package they call is the class [Doublestar]. *)

From S2P Require Import Prelude GoStd Models.
Local Open Scope string_scope.
Local Open Scope Z_scope.

(** github.com/bmatcuk/doublestar/v4: [ValidatePattern] and
    [MatchUnvalidated]. *)
Class Doublestar := {
  ds_valid : string -> bool;
  ds_match : string -> string -> bool;
}.

Definition isASCIILetter (c : ascii) : bool :=
  in_range 97 122 (byte_of c) || in_range 65 90 (byte_of c).

(** A Windows drive ("c:/..."). *)
Definition isDrivePath (p : string) : bool :=
  match p with
  | String c (String ":" _) => isASCIILetter c
  | _ => false
  end.

(** [strings.ToLower] of one ASCII letter. *)
Definition lower_ascii (c : ascii) : ascii :=
  if in_range 65 90 (byte_of c) then of_byte (byte_of c + 32) else c.

Definition normPath (p : string) : string :=
  let p := trim_space p in
  if String.eqb p "" then "" else
  let p := to_slash p in
  let unc := has_prefix p "//" in
  let p := path_clean p in
  let p := if unc && negb (has_prefix p "//") then "/" +:+ p else p in
  match p with
  | String c (String ":" rest) =>
    if isASCIILetter c then String (lower_ascii c) (String ":" rest) else p
  | _ => p
  end.

Section paths.
Context `{Unicode} `{Doublestar}.

Definition fileKey (p : string) : string := to_lower (normPath p).

(** [p] equals [prefix] or lies below it; both normalised. *)
Definition hasPathPrefix (p prefix : string) : bool :=
  if String.eqb p "" || String.eqb prefix "" then false
  else if String.eqb p prefix then true
  else if has_suffix prefix "/" || has_suffix prefix ":" then
    has_prefix p prefix &&
    (has_suffix prefix "/" || has_prefix (sdrop (String.length prefix) p) "/")
  else has_prefix p (prefix +:+ "/").

Definition pathUnder (p prefix : string) : bool :=
  hasPathPrefix (to_lower (normPath p)) (to_lower (normPath prefix)).

Definition blank (s : string) : bool := String.eqb (trim_space s) "".

Definition versionPaths (v : MediaVersion) : list string :=
  flat_map (fun p =>
    ((if blank (mp_path p) then [] else [mp_path p]) ++
     (if blank (mp_local_path p) then [] else [mp_local_path p]))%list) (mv_parts v).

Fixpoint primaryPath_parts (ps : list MediaPart) : string :=
  match ps with
  | [] => ""
  | p :: ps' =>
    if negb (blank (mp_path p)) then mp_path p
    else if negb (blank (mp_local_path p)) then mp_local_path p
    else primaryPath_parts ps'
  end.
Definition primaryPath (v : MediaVersion) : string := primaryPath_parts (mv_parts v).

Definition stripExt (name : string) : string :=
  let ext := path_ext name in
  if negb (String.eqb ext "") && (String.length ext <=? 6)%nat && negb (contains ext " ")
  then trim_suffix name ext else name.

Definition hasGlobMeta (p : string) : bool :=
  bool_decide (is_Some (index_byte_where
    (fun c => Ascii.eqb c "*" || Ascii.eqb c "?" || Ascii.eqb c "[" || Ascii.eqb c "{") p)).

Definition globMatch (pattern : string) (paths : list string) (caseSensitive : bool) : bool :=
  let fold s := if caseSensitive then s else to_lower s in
  let pat := to_slash (trim_space pattern) in
  if String.eqb pat "" then false else
  let pat := fold pat in
  if negb (ds_valid pat) then false else
  let literal := negb (hasGlobMeta pat) in
  let pat := if literal then fold (normPath pat) else pat in
  existsb (fun p =>
    let np := normPath p in
    if String.eqb np "" then false else
    let np := fold np in
    if negb (contains pat "/") then ds_match pat (path_base np)
    else if literal then hasPathPrefix np pat
    else ds_match pat np ||
      (negb (has_prefix pat "/") && negb (has_prefix pat "*") && negb (isDrivePath pat) &&
       ds_match ("**/" +:+ pat) np)) paths.

Definition protectionGlobMatch (pattern : string) (paths : list string) : bool :=
  if globMatch pattern paths false then true else
  let pat := trim_right_slash (to_lower (to_slash (trim_space pattern))) in
  if String.eqb pat "" || negb (ds_valid pat) then false else
  let pats := ([pat; pat +:+ "/**"] ++
    (if negb (has_prefix pat "/") && negb (isDrivePath pat) && negb (has_prefix pat "**")
     then ["**/" +:+ pat; "**/" +:+ pat +:+ "/**"] else []))%list in
  existsb (fun p =>
    let np := to_lower (normPath p) in
    if String.eqb np "" then false else existsb (fun pt => ds_match pt np) pats) paths.
End paths.

(** ** Segment-aware prefixes *)

Lemma prefix_spec p s : String.prefix p s = true <-> exists t, s = p +:+ t.
Proof.
  revert s. induction p as [|c p IH]; intros s; simpl.
  - split; [intros _; by exists s | by intros _; destruct s].
  - destruct s as [|d s]; simpl.
    + split; [done |]. by intros (t & ?).
    + destruct (ascii_dec c d) as [->|Hne].
      * rewrite IH. split; intros (t & Ht); exists t; [by rewrite Ht | by injection Ht].
      * split; [done |]. intros (t & Ht). by injection Ht.
Qed.

Example normPath_ex : normPath "C:\Movies\.\Dune (2021)\" = "c:/Movies/Dune (2021)".
Proof. by vm_compute. Qed.
Example hasPathPrefix_ex :
  hasPathPrefix "/data/movies2/a.mkv" "/data/movies" = false /\
  hasPathPrefix "/data/movies/a.mkv" "/data/movies" = true.
Proof. by split; vm_compute. Qed.
