(* ===== verification/Titles.v ===== *)
(** * Titles, years, editions and languages

    The text helpers of internal/engine/helpers.go that decide whether two
    versions may belong to different titles or variants, with mediainfo.Is3D
    (internal/mediainfo/edition.go) that the 3D split uses. *)

From S2P Require Import Prelude GoStd Models DiscPaths Paths.
Local Open Scope string_scope.
Local Open Scope Z_scope.

(** ** Regular expressions of the source *)

Definition seps : re := star (cls " ._-").
Definition reSeasonDir : re :=
  seq_of [RBegin;
    any_of [seq_of [any_of [word_ci "season"; word_ci "series"; word_ci "staffel"; word_ci "saison";
                            word_ci "temporada"; word_ci "stagione"]; seps; plus digit];
            RSeq (one_ci "s") (between 1 4 digit);
            RSeq (word_ci "special") (opt (one_ci "s"))];
    REnd].
Definition reDiscDir : re :=
  seq_of [RBegin;
    any_of [word_ci "cd"; RSeq (word_ci "dis") (any_of [one_ci "c"; one_ci "k"]); word_ci "dvd";
            word_ci "part"; word_ci "pt"];
    seps; plus digit; REnd].
Definition century : re := any_of [word "19"; word "20"].
Definition reParenYear : re :=
  seq_of [one "("; RGroup 1 (seq_of [century; digit; digit]); one ")"].
Definition reBracketTag : re :=
  any_of [seq_of [one "{"; star (ncls "{}"); one "}"]; seq_of [one "["; star (ncls "[]"); one "]"]].
Definition reIDTag : re :=
  seq_of [cls "{["; RGroup 1 (any_of [word_ci "tmdb"; word_ci "imdb"; word_ci "tvdb"]);
    opt (word_ci "id"); cls "-=";
    RGroup 2 (plus (RChr (fun r => negb (in_chars "}] " r) && negb (in_range 9 10 r) && negb (in_range 12 13 r))));
    cls "}]"].
Definition reEditionTag : re :=
  seq_of [word_ci "{edition-"; RGroup 1 (plus (ncls "{}")); one "}"].
Definition reOrdinal : re :=
  seq_of [RBegin; RGroup 1 (plus digit); any_of [word "st"; word "nd"; word "rd"; word "th"]; REnd].
(** [(?:[^0-9pi]|$)] *)
Definition not_resolution : re :=
  RAlt (RChr (fun r => negb (in_range 48 57 r) && negb (in_chars "pPiI" r))) REnd.
Definition reMultiEpisode : re :=
  RAlt
    (seq_of [RWordB; one_ci "s"; between 1 4 digit; opt (cls " ._-"); one_ci "e"; between 1 4 digit;
       RAlt (seq_of [seps; opt (seq_of [one_ci "s"; between 1 4 digit; opt (cls " ._-")]);
                     one_ci "e"; between 1 4 digit])
            (seq_of [one "-"; between 1 4 digit; not_resolution])])
    (seq_of [RWordB; between 1 2 digit; one_ci "x"; between 2 3 digit; one "-";
       opt (seq_of [between 1 2 digit; one_ci "x"]); between 2 3 digit; not_resolution]).
Definition dash : re := any_of [one "-"; word " - "].
Definition reJellyfinMultiEpisode : re :=
  seq_of [
    RAlt (seq_of [RWordB; one_ci "s"; between 1 4 digit; opt (any_of [one_ci "x"; one "."]); one_ci "e"; between 1 3 digit])
         (seq_of [RWordB; opt (one_ci "s"); between 1 4 digit; one_ci "x"; between 1 3 digit]);
    any_of [seq_of [opt dash; opt (one_ci "x"); one_ci "e"; between 1 3 digit];
            seq_of [opt dash; one_ci "x"; opt (one_ci "e"); between 1 3 digit];
            seq_of [dash; opt (one_ci "s"); between 1 4 digit;
                    any_of [one_ci "x"; one_ci "e"; word_ci "xe"]; between 1 3 digit];
            seq_of [one "-"; between 1 3 digit]];
    not_resolution].

(** ** Language tables *)

Definition iso6391_table : list (string * string) :=
  [("en", "eng"); ("de", "ger"); ("fr", "fre"); ("es", "spa"); ("it", "ita"); ("pt", "por");
   ("nl", "dut"); ("sv", "swe"); ("no", "nor"); ("nb", "nob"); ("nn", "nno"); ("da", "dan");
   ("fi", "fin"); ("is", "ice"); ("pl", "pol"); ("cs", "cze"); ("sk", "slo"); ("hu", "hun");
   ("ro", "rum"); ("bg", "bul"); ("hr", "hrv"); ("sr", "srp"); ("sl", "slv"); ("el", "gre");
   ("tr", "tur"); ("ru", "rus"); ("uk", "ukr"); ("he", "heb"); ("iw", "heb"); ("ar", "ara");
   ("fa", "per"); ("hi", "hin"); ("bn", "ben"); ("ta", "tam"); ("te", "tel"); ("ml", "mal");
   ("kn", "kan"); ("mr", "mar"); ("ur", "urd"); ("th", "tha"); ("vi", "vie"); ("id", "ind");
   ("ms", "may"); ("zh", "chi"); ("ja", "jpn"); ("ko", "kor"); ("et", "est"); ("lv", "lav");
   ("lt", "lit"); ("ca", "cat"); ("eu", "baq"); ("gl", "glg"); ("ga", "gle"); ("cy", "wel");
   ("sq", "alb"); ("mk", "mac"); ("hy", "arm"); ("ka", "geo"); ("af", "afr"); ("sw", "swa");
   ("tl", "tgl")].

Definition iso6392T_table : list (string * string) :=
  [("deu", "ger"); ("fra", "fre"); ("nld", "dut"); ("ces", "cze"); ("slk", "slo");
   ("ron", "rum"); ("ell", "gre"); ("fas", "per"); ("zho", "chi"); ("msa", "may");
   ("isl", "ice"); ("eus", "baq"); ("cym", "wel"); ("sqi", "alb"); ("mkd", "mac");
   ("hye", "arm"); ("kat", "geo"); ("bod", "tib"); ("mya", "bur"); ("mri", "mao")].

Definition lang_name_table : list (string * string) :=
  [("english", "eng"); ("german", "ger"); ("deutsch", "ger"); ("french", "fre");
   ("français", "fre"); ("francais", "fre"); ("spanish", "spa"); ("español", "spa");
   ("espanol", "spa"); ("castilian", "spa"); ("italian", "ita"); ("italiano", "ita");
   ("portuguese", "por"); ("português", "por"); ("portugues", "por"); ("brazilian", "por");
   ("dutch", "dut"); ("flemish", "dut"); ("swedish", "swe"); ("norwegian", "nor");
   ("danish", "dan"); ("finnish", "fin"); ("icelandic", "ice"); ("polish", "pol");
   ("czech", "cze"); ("slovak", "slo"); ("hungarian", "hun"); ("romanian", "rum");
   ("bulgarian", "bul"); ("croatian", "hrv"); ("serbian", "srp"); ("slovenian", "slv");
   ("greek", "gre"); ("turkish", "tur"); ("russian", "rus"); ("ukrainian", "ukr");
   ("hebrew", "heb"); ("arabic", "ara"); ("persian", "per"); ("farsi", "per");
   ("hindi", "hin"); ("tamil", "tam"); ("telugu", "tel"); ("thai", "tha");
   ("vietnamese", "vie"); ("indonesian", "ind"); ("malay", "may"); ("chinese", "chi");
   ("mandarin", "chi"); ("cantonese", "chi"); ("japanese", "jpn"); ("korean", "kor")].

Section titles.
Context `{Unicode}.

Definition tokenize (s : string) : list string :=
  fields_func (fun r => negb (is_letter r) && negb (is_digit r)) (to_lower s).

Definition isYearToken (t : string) : bool :=
  (String.length t =? 4)%nat && (has_prefix t "19" || has_prefix t "20") &&
  bool_decide (is_Some (parse_int t)).

Definition with_bdmv (root : string) : string := trim_right_slash (to_slash root) +:+ "/BDMV".

Definition titlePath (v : MediaVersion) : string :=
  let p := primaryPath v in
  let regular :=
    match RootOf p with
    | Some (r, _) => if negb (String.eqb r "") then with_bdmv r else p
    | None => p
    end in
  match mv_disc v with
  | Some d =>
    let root := trim_space (di_root d) in
    let root := if String.eqb root "" then trim_space (di_local_root d) else root in
    let root := if String.eqb root "" then
        match RootOf p with Some (r, _) => r | None => "" end else root in
    if String.eqb root "" then regular
    else if IsImage (Some d) then root
    else with_bdmv root
  | None => regular
  end.

(** The loop of [titleFolder]: at most four season or disc folders are skipped. *)
Fixpoint title_dir (fuel : nat) (dir : string) : string :=
  match fuel with
  | O => ""
  | S fuel' =>
    if mem dir ["/"; "."; ""; "//"] || ((String.length dir =? 2)%nat && isDrivePath dir) then ""
    else
      let b := path_base dir in
      if re_match reSeasonDir b || re_match reDiscDir b then title_dir fuel' (path_dir dir) else b
  end.
Definition titleFolder (v : MediaVersion) : string :=
  let np := normPath (titlePath v) in
  if String.eqb np "" then "" else title_dir 4 (path_dir np).

Definition isQualityToken (t : string) : bool :=
  mem t ["4k"; "uhd"; "hdr"; "hdr10"; "sdr"; "dv"; "remux"; "bluray"; "web"; "webdl"; "3d"; "imax"] ||
  ((4 <=? String.length t)%nat && has_suffix t "p" &&
   bool_decide (is_Some (parse_int (stake (String.length t - 1) t)))).

(** [strings.NewReplacer("'", "", "’", "", "`", "", "&", " and ")]; without
    the ampersand pair in [editionKey]. *)
Definition drop_quotes (amp : bool) (s : string) : string :=
  sconcat (map (fun rb : Z * string =>
    let '(r, bs) := rb in
    if (r =? 0x27) || (r =? 0x2019) || (r =? 0x60) then ""
    else if amp && (r =? 0x26) then " and " else bs) (runes s)).

Fixpoint cut_at_year (toks : list string) : list string :=
  match toks with
  | [] => []
  | t :: ts => if isYearToken t then [] else t :: cut_at_year ts
  end.

Definition normalizeTitle (folder : string) : string :=
  let s := re_replace_all reBracketTag " " folder in
  let s := re_replace_all reParenYear " " s in
  let toks := tokenize (drop_quotes true s) in
  let toks := match toks with [] => [] | t :: ts => t :: cut_at_year ts end in
  join " " (filter (fun t => ~ (t = "the" \/ t = "a" \/ t = "an" \/ isQualityToken t = true)) toks).

Definition folderYear (folder : string) : string :=
  match last (re_find_all reParenYear folder) with
  | Some m => m 1%nat
  | None =>
    default "" (find isYearToken (rev (tokenize (re_replace_all reBracketTag " " folder))))
  end.

Definition fileNameYear (v : MediaVersion) : string :=
  if IsDisc v && negb (IsImage (mv_disc v)) then "" else
  let base := path_base (normPath (titlePath v)) in
  if mem base ["."; "/"; ""] then "" else
  let name := trim_suffix base (path_ext base) in
  match re_find reParenYear name with
  | Some m => m 1%nat
  | None =>
    let toks := tokenize (re_replace_all reBracketTag " " name) in
    (* neither the first nor the last token, from the right *)
    default "" (find isYearToken (rev (take (length toks - 2) (drop 1 toks))))
  end.

(** The id tags of the title folder and file name: first value per space. *)
Definition idTags (v : MediaVersion) : gmap string string :=
  let np := normPath (titlePath v) in
  foldl (fun out m =>
    let space := to_lower (m 1%nat) in
    let val := to_lower (trim_space (m 2%nat)) in
    if String.eqb val "" then out
    else match out !! space with Some _ => out | None => <[space:=val]> out end)
    ∅ (flat_map (re_find_all reIDTag) [titleFolder v; path_base np]).

(** ** Editions *)

Definition editionFromPath (p : string) : string :=
  match last (re_find_all reEditionTag (normPath p)) with
  | Some m => trim_space (m 1%nat)
  | None => ""
  end.

Definition edition_token (t : string) : list string :=
  if mem t ["edition"; "cut"; "version"; "the"; "collection"] then [] else
  let t := if String.eqb t "director" then "directors"
           else if String.eqb t "collector" then "collectors" else t in
  [match re_find reOrdinal t with Some m => m 1%nat | None => t end].

Definition editionKey (e : string) : string :=
  let key := join "-" (flat_map edition_token (tokenize (drop_quotes false (trim_space e)))) in
  if mem key ["theatrical"; "original-theatrical"; "theatrical-release";
              "original-theatrical-release"; "standard"] then "" else key.

Definition versionEditionKey (v : MediaVersion) (itemEdition : string) : string :=
  let cands := ([mv_edition v] ++
    match mv_arr v with Some a => [af_edition a] | None => [] end ++
    [itemEdition] ++ map editionFromPath (versionPaths v))%list in
  match find (fun c => negb (blank c)) cands with
  | Some c => editionKey c
  | None => ""
  end.

(** ** Languages *)

Definition langFromName (n : string) : string :=
  let n := to_lower (trim_space n) in
  let n := match index_byte_where (fun c => Ascii.eqb c "(" || Ascii.eqb c "," ||
                                   Ascii.eqb c ";" || Ascii.eqb c "/") n with
           | Some (S i) => trim_space (stake (S i) n)
           | _ => n
           end in
  default "" (assoc lang_name_table n).

Definition langFromCode (c : string) : string :=
  let c := to_lower (trim_space c) in
  let c := match index_byte_where (fun b => Ascii.eqb b "-" || Ascii.eqb b "_") c with
           | Some (S i) => stake (S i) c
           | _ => c
           end in
  if mem c [""; "und"; "unk"; "mis"; "mul"; "zxx"; "xx"; "qaa"; "none"] then ""
  else match String.length c with
  | 2%nat => default c (assoc iso6391_table c)
  | 3%nat => default c (assoc iso6392T_table c)
  | _ => langFromName c
  end.

Definition normLang (code name : string) : string :=
  let l := langFromCode code in
  if negb (String.eqb l "") then l else langFromName name.

Definition nonempty (s : string) : bool := negb (String.eqb s "").

Definition audioLangs (v : MediaVersion) : list string :=
  sort_strings (dedup (List.filter nonempty
    (map (fun t => normLang (at_language_code t) (at_language t)) (mv_audio_tracks v)))).

(** ** 3D releases (internal/mediainfo) *)

Definition baseAndParent (p : string) : string * string :=
  let s := trim_right_slash (to_slash p) in
  if String.eqb s "" then ("", "") else
  match last_index_byte s "/"%char with
  | None => (s, "")
  | Some i =>
    let dir := stake i s in
    (sdrop (S i) s,
     match last_index_byte dir "/"%char with Some j => sdrop (S j) dir | None => dir end)
  end.

Definition not_alnum : re :=
  RChr (fun r => negb (in_range 48 57 r || in_range 97 122 r || in_range 65 90 r ||
                       (r =? 0x17F) || (r =? 0x212A))).
Definition bounded (a : re) : re := seq_of [RAlt RBegin not_alnum; a; RAlt REnd not_alnum].
Definition osep : re := opt (cls " ._-").
Definition re3DAnywhere : re :=
  bounded (any_of [
    seq_of [word_ci "blu"; osep; word_ci "ray"; osep; word_ci "3d"]; word_ci "bd3d"; word_ci "3dbd";
    word_ci "sbs"; seq_of [any_of [one_ci "h"; one_ci "f"]; osep; word_ci "sbs"];
    seq_of [one_ci "h"; osep; word_ci "tab"];
    seq_of [any_of [word_ci "half"; word_ci "full"]; osep; any_of [word_ci "sbs"; word_ci "ou"; word_ci "tab"]]]).
Definition re3DTitleSafe : re :=
  bounded (any_of [word_ci "3d"; seq_of [any_of [one_ci "h"; one_ci "f"]; osep; word_ci "ou"]]).
Definition reReleaseMarker : re :=
  RSeq (RAlt RBegin not_alnum)
    (RGroup 1 (any_of [seq_of [century; digit; digit];
                       seq_of [one_ci "s"; between 1 3 digit; one_ci "e"; between 1 4 digit]])).

(** The rune span of group 1 of every match, then the first usable one. *)
Definition splitAtReleaseMarker (name : string) : option (string * string) :=
  let l := runes name in
  let spans := omap (fun ie : nat * mstate =>
    match find (fun c => (fst c =? 1)%nat) (m_caps (snd ie)) with
    | Some (_, se) => Some se
    | None => None
    end) (find_all_from (S (length l)) reReleaseMarker None l 0) in
  match find (fun se : nat * nat =>
      negb (match drop (snd se) l with (r, _) :: _ => in_range 48 57 r | [] => false end) &&
      (0 <? fst se)%nat) spans with
  | Some (i, j) => Some (slice_runes l 0 i, slice_runes l j (length l))
  | None => None
  end.
Definition afterTitle (name : string) : string :=
  match splitAtReleaseMarker name with Some (_, rest) => rest | None => name end.

Definition Is3D (p : string) : bool :=
  let '(base, parent) := baseAndParent p in
  existsb (fun name => nonempty name &&
    (re_match re3DAnywhere name || re_match re3DTitleSafe (afterTitle name))) [base; parent] ||
  (nonempty parent &&
   ((match splitAtReleaseMarker base with
     | Some (bt, _) => re_match re3DTitleSafe bt && negb (re_match re3DTitleSafe parent)
     | None => false
     end) ||
    (match splitAtReleaseMarker parent with
     | Some (pt, _) => re_match re3DTitleSafe pt && negb (re_match re3DTitleSafe base)
     | None => false
     end))).

Definition isVersion3D (v : MediaVersion) (edition_key : string) : bool :=
  match mv_disc v with Some d => di_is_3d d | None => false end ||
  existsb (String.eqb "3d") (split_byte "-"%char edition_key) ||
  existsb Is3D (versionPaths v).
End titles.

(** ** Small utilities *)

(** Numeric strings numerically and before the others, the rest by bytes. *)
Definition naturalLess (a b : string) : bool :=
  match parse_int a, parse_int b with
  | Some x, Some y => if x =? y then str_lt a b else x <? y
  | Some _, None => true
  | None, Some _ => false
  | None, None => str_lt a b
  end.

Definition EpisodeLabel (season episode : Z) : string :=
  "S" +:+ (if 0 <=? season then pad2 season else "??") +:+
  "E" +:+ (if 0 <? episode then pad2 episode else "??").

Definition addFlag (flags : list string) (f : string) : list string :=
  if mem f flags then flags else (flags ++ [f])%list.

Definition sortedUnique (l : list string) : list string :=
  sort_strings (dedup (List.filter nonempty l)).

(** [humanDuration] of nanoseconds; [d = -d] wraps at the least duration. *)
Definition humanDuration (d : Z) : string :=
  let d := if d <? 0 then wrap64 (- d) else d in
  let second := 10 ^ 9 in
  let minute := 60 * second in
  let hour := 60 * minute in
  let day := 24 * hour in
  if d <? minute then format_int (Z.quot d second) +:+ "s"
  else if d <? hour then format_int (d / minute) +:+ "m"
  else if d <? day then
    let m := d mod hour / minute in
    format_int (d / hour) +:+ "h" +:+ (if m =? 0 then "" else " " +:+ format_int m +:+ "m")
  else
    let h := d mod day / hour in
    format_int (d / day) +:+ "d" +:+ (if h =? 0 then "" else " " +:+ format_int h +:+ "h").
(** [time.Duration(ms) * time.Millisecond]: the product wraps. *)
Definition msDuration (ms : Z) : Z := wrap64 (ms * 10 ^ 6).

Lemma elem_of_addFlag f g flags : f ∈ addFlag flags g <-> f ∈ flags \/ f = g.
Proof. unfold addFlag. destruct (mem g flags) eqn:E; [apply mem_true in E |]; set_solver. Qed.

Lemma elem_of_sortedUnique f l : f ∈ sortedUnique l <-> f ∈ l /\ f <> "".
Proof.
  unfold sortedUnique, sort_strings. rewrite elem_of_stable_sort, elem_of_dedup.
  rewrite list_elem_of_In, filter_In, <- list_elem_of_In. unfold nonempty.
  rewrite negb_true_iff, String.eqb_neq. done.
Qed.

#[local] Instance ex_unicode : Unicode := latin1_unicode.
Example normalizeTitle_ex : normalizeTitle "Dune.2021.2160p.UHD" = "dune". Proof. by vm_compute. Qed.
Example editionKey_ex : editionKey "25th Anniversary Edition" = "25-anniversary". Proof. by vm_compute. Qed.
Example multi_episode_ex :
  re_match reMultiEpisode "Show.S01E01-E02.mkv" = true /\ re_match reMultiEpisode "Show.S01E01-1080p" = false.
Proof. by split; vm_compute. Qed.
Example is3d_ex : Is3D "/m/Avatar (2009)/Avatar 3D (2009).mkv" = true /\ Is3D "/m/Step Up 3D (2010)/Step Up 3D (2010).mkv" = false.
Proof. by split; vm_compute. Qed.
Example lang_ex : normLang "pt-BR" "" = "por". Proof. by vm_compute. Qed.
