(* ===== verification/Versions.v ===== *)
(** * Properties of versions

    The version predicates of internal/engine/helpers.go and the disc rules of
    docs/DECISIONS.md D9: what makes a version optimized, unavailable, shared
    between episodes, report only, or the same file as another one. *)

From S2P Require Import Prelude GoStd Models UnionFind DiscPaths Paths Titles.
Local Open Scope string_scope.
Local Open Scope Z_scope.

(** The settings an evaluation runs under (engine.go). *)
Record EvalEnv := {
  env_now : time;
  env_min_age : Z;
  env_libraries : gmap Z Library;
  env_different_arr_intentional : bool;
  env_max_group_size : Z;
  env_allow_disc_removal : bool;
  env_keep_playable_copy : bool;
}.

Definition is_false (b : option bool) : bool := match b with Some false => true | _ => false end.

Definition arrName (a : ArrFileInfo) : string :=
  let n := trim_space (af_instance_name a) in
  if nonempty n then n else
  let kind := if String.eqb (af_kind a) ArrRadarr then "Radarr"
    else if String.eqb (af_kind a) ArrSonarr then "Sonarr" else "*arr" in
  if negb (af_instance_id a =? 0) then kind +:+ " #" +:+ format_int (af_instance_id a) else kind.

(** [isUnavailable]: a part is explicitly missing, or there are no parts. *)
Definition isUnavailable (v : MediaVersion) : bool :=
  match mv_parts v with
  | [] => true
  | ps => existsb (fun p => is_false (mp_exists p)) ps
  end.

Definition isInaccessible (v : MediaVersion) : bool :=
  existsb (fun p => is_false (mp_accessible p)) (mv_parts v).

Definition readOnlyVersion (v : MediaVersion) : bool :=
  match KindOfVersionKey (mv_key v) with Some k => kind_read_only k | None => false end.

Definition sharedWith (v : MediaVersion) : list string :=
  stable_sort naturalLess (dedup (List.filter nonempty
    (map trim_space (flat_map mp_shared_with (mv_parts v))))).

Definition distinct_count (l : list Z) : Z := Z.of_nat (length (dedup l)).

Definition isStacked (v : MediaVersion) : bool := (1 <? length (mv_parts v))%nat.

Definition isHardlinked (v : MediaVersion) : bool :=
  match mv_disc v with Some d => 0 <? di_hardlinked_files d | None => false end ||
  existsb (fun p => 1 <? mp_link_count p) (mv_parts v).

Definition unanalyzedProblems (v : MediaVersion) : list string :=
  let no_codec := blank (mv_video_codec v) in
  let no_width := mv_width v <=? 0 in
  let no_bitrate := (mv_bitrate_kbps v <=? 0) && (mv_video_bitrate v <=? 0) in
  let regular := ((if no_codec then ["no video codec"] else []) ++
    (if no_width then ["width unknown"] else []) ++
    (if no_bitrate then ["bitrate unknown"] else []))%list in
  match mv_disc v with
  | Some d =>
    if no_codec || no_width || no_bitrate then
      if negb (blank (di_problem d)) then ["disc metadata unreadable"]
      else if IsImage (Some d) then ["disc image: quality unknown"]
      else ["disc metadata incomplete"]
    else regular
  | None => regular
  end.

Definition versionDuration (v : MediaVersion) : Z :=
  if 0 <? mv_duration_ms v then mv_duration_ms v
  else foldl (fun n p => if 0 <? mp_duration p then wrap64 (n + mp_duration p) else n) 0 (mv_parts v).

Definition dateAdded (v : MediaVersion) : time :=
  match mv_arr v with
  | Some a => if negb (is_zero (af_date_added a)) then af_date_added a else mv_added_at v
  | None => mv_added_at v
  end.
Definition newestAdded (v : MediaVersion) : time :=
  match mv_arr v with
  | Some a => if time_after (af_date_added a) (mv_added_at v) then af_date_added a else mv_added_at v
  | None => mv_added_at v
  end.

Definition validInode (s : string) : bool :=
  let s := trim_space s in
  nonempty s && negb (String.eqb s "0") && negb (has_suffix s ":0") && negb (has_suffix s ":").

Definition reportOnlyReasons (vs : list MediaVersion) : list string :=
  dedup (List.filter nonempty (map trim_space (flat_map mv_report_only vs))).

Definition shortcutReasons (v : MediaVersion) : list string :=
  let names := dedup (List.filter nonempty (map trim_space (flat_map mp_shortcut_of (mv_parts v)))) in
  match names with
  | [] => []
  | _ => ["a .strm shortcut points to this file (" +:+ join ", " (sort_strings names) +:+ ")"]
  end.

Definition libraryIDsOf (vs : list MediaVersion) : list Z :=
  stable_sort Z.ltb (dedup (List.filter (fun x => negb (x =? 0)) (map mv_library_id vs))).

(** The distinct *arr instances (id and first name seen), ids ascending. *)
Definition tracked_instance (v : MediaVersion) : option (Z * string) :=
  match mv_arr v with
  | Some a => if af_instance_id a =? 0 then None else Some (af_instance_id a, arrName a)
  | None => None
  end.
Definition arrInstanceNames (vs : list MediaVersion) : list (Z * string) :=
  stable_sort (fun a b => fst a <? fst b)
    (foldl (fun acc v => match tracked_instance v with
      | Some (id, n) => if mem id (map fst acc) then acc else (acc ++ [(id, n)])%list
      | None => acc
      end) [] vs).

Definition libraryLabel (v : MediaVersion) (libs : gmap Z Library) : string :=
  let t := trim_space (mv_library_title v) in
  let fallback := if negb (mv_library_id v =? 0)
    then "Library " +:+ format_int (mv_library_id v) else "Unknown" in
  if nonempty t then t else
  match libs !! mv_library_id v with
  | Some l => if negb (blank (lib_title l)) then lib_title l else fallback
  | None => fallback
  end.

Definition discProtectOnly (kind : string) : bool :=
  negb (mem kind [DiscBluray; DiscUHDBluray; DiscDVD; DiscISO; DiscBlurayClips; DiscDVDClips]).

Definition discLabel (kind : string) : string :=
  default "disc" (assoc
    [(DiscBluray, "Blu-ray"); (DiscUHDBluray, "UHD Blu-ray"); (DiscDVD, "DVD"); (DiscHDDVD, "HD DVD");
     (DiscAVCHD, "AVCHD"); (DiscBDAV, "Blu-ray recording (BDAV)"); (DiscISO, "disc image");
     (DiscBlurayClips, "Blu-ray clip set (loose .m2ts)"); (DiscDVDClips, "DVD file set (loose VOB)")] kind).

Definition discProtectionReasons (mt : string) (v : MediaVersion) (env : EvalEnv) : list string :=
  match mv_disc v with
  | None => []
  | Some d =>
    let episode := String.eqb mt MediaTypeEpisode in
    ((if episode then ["full-disc backup in a TV library (always kept)"]
      else if negb (env_allow_disc_removal env) then
        ["full-disc backup (disc removal is off — Settings → Media Management → Allow Removing Full Discs)"]
      else []) ++
     (if discProtectOnly (di_type d) then [discLabel (di_type d) +:+ " backups are never removed"]
      else if env_allow_disc_removal env && negb episode then
        if negb (di_removable d) then
          let why := trim_space (di_problem d) in
          let why := if nonempty why then why else "it could not be verified completely" in
          ["full-disc backup that cannot be removed safely: " +:+ why]
        else if blank (di_local_root d) || (length (di_owned_entries d) =? 0)%nat then
          ["Dupearr cannot reach this disc (no path mapping covers it), so it cannot move it to the recycle bin"]
        else []
      else []) ++
     (match di_plex_items d with
      | [] => []
      | items => ["other Plex items (" +:+ join ", " items +:+ ") use files of this disc"]
      end))%list
  end.

(** A duration that only bounds the feature from below (loose clip sets). *)
Section versions.
Context `{Unicode}.

Definition isOptimized (v : MediaVersion) : bool :=
  mv_optimized v ||
  existsb (fun p => contains ("/" +:+ trim_slash (fileKey p) +:+ "/") "/plex versions/") (versionPaths v).

Definition multiEpisodeReasons (v : MediaVersion) : list string :=
  ((if 0 <? mv_episode_end v then
      ["the media server lists it as a multi-episode file (through episode " +:+
       format_int (mv_episode_end v) +:+ ")"] else []) ++
   (if existsb (fun p => (0 <? length (mp_shared_with p))%nat) (mv_parts v) then
      match sharedWith v with
      | [] => ["file is shared with other episodes"]
      | rks => ["file is shared with other episodes (" +:+ join ", " rks +:+ ")"]
      end else []) ++
   (match mv_arr v with
    | Some a => if 1 <? distinct_count (af_episode_ids a) then
        ["the " +:+ arrName a +:+ " file covers " +:+ format_int (distinct_count (af_episode_ids a)) +:+ " episodes"]
        else []
    | None => []
    end) ++
   (if existsb (fun p =>
        let np := normPath p in
        nonempty np &&
        (let name := stripExt (path_base np) in
         re_match reMultiEpisode name || (readOnlyVersion v && re_match reJellyfinMultiEpisode name)))
        (versionPaths v)
    then ["file name indicates a multi-episode file"] else []))%list.

Definition isShared (v : MediaVersion) : bool := (0 <? length (multiEpisodeReasons v))%nat.

Definition isSamplePath (p : string) : bool :=
  let np := normPath p in
  if String.eqb np "" then false
  else if existsb (String.eqb "sample") (tokenize (stripExt (path_base np))) then true
  else let dir := to_lower (path_base (path_dir np)) in
    String.eqb dir "sample" || String.eqb dir "samples".
Definition hasSampleName (v : MediaVersion) : bool := existsb isSamplePath (versionPaths v).

(** The first path of a regular version inside a disc structure. *)
Definition discMemberPath (v : MediaVersion) : option string :=
  match mv_disc v with
  | Some _ => None
  | None => find IsDiscPath (versionPaths v)
  end.
Definition in_disc (v : MediaVersion) : bool :=
  match discMemberPath v with Some _ => true | None => false end.

Definition durationLowerBound (v : MediaVersion) : bool :=
  match mv_disc v with
  | Some d =>
    IsLooseClips (Some d) &&
    negb (mem (to_lower (path_ext (trim_space (di_main_feature d)))) [".mpls"; ".ifo"])
  | None => false
  end.

(** ** Same-file keys *)

Definition key_with (prefix p : string) : list string :=
  let k := fileKey p in if nonempty k then [prefix +:+ k] else [].

Definition discRootKeys (v : MediaVersion) : list string :=
  match mv_disc v with
  | Some d =>
    (key_with "dr:" (di_root d) ++ flat_map (key_with "dr:") (di_roots d) ++
     key_with "dl:" (di_local_root d) ++ flat_map (key_with "dl:") (di_local_roots d))%list
  | None =>
    flat_map (fun p =>
      (match RootOf (mp_path p) with Some (r, _) => key_with "dr:" r | None => [] end ++
       match RootOf (mp_local_path p) with Some (r, _) => key_with "dl:" r | None => [] end)%list)
      (mv_parts v)
  end.

Definition sameFileKeys (v : MediaVersion) : list string :=
  (match mv_arr v with
   | Some a => if 0 <? af_file_id a then
       ["a:" +:+ format_int (af_instance_id a) +:+ ":" +:+ format_int (af_file_id a)] else []
   | None => []
   end ++
   flat_map (fun p =>
     (key_with "p:" (mp_path p) ++ key_with "l:" (mp_local_path p) ++
      (if validInode (mp_inode p) then ["i:" +:+ trim_space (mp_inode p)] else []))%list)
     (mv_parts v) ++
   discRootKeys v)%list.

(** [comp[i]], and the components with at least two members (ascending). *)
Definition sameFileComponents (vs : list MediaVersion) : list nat :=
  key_components (map sameFileKeys vs).
Definition members_of (comp : list nat) (c : nat) : list nat :=
  List.filter (fun i => bool_decide (comp !! i = Some c)) (seq 0 (length comp)).
Definition shared_components (comp : list nat) : list (nat * list nat) :=
  List.filter (fun cm => (1 <? length (snd cm))%nat)
    (map (fun c => (c, members_of comp c)) (stable_sort Nat.ltb (dedup comp))).

Definition partName (p : MediaPart) : string :=
  let np := fileKey (mp_path p) in
  let np := if String.eqb np "" then fileKey (mp_local_path p) else np in
  if String.eqb np "" then "" else path_base np.

Fixpoint same_parts (a b : list MediaPart) : bool :=
  match a, b with
  | pa :: a', pb :: b' =>
    (0 <? mp_size pa) && (mp_size pa =? mp_size pb) &&
    nonempty (partName pa) && String.eqb (partName pa) (partName pb) &&
    negb (validInode (mp_inode pa) && validInode (mp_inode pb) &&
          negb (String.eqb (trim_space (mp_inode pa)) (trim_space (mp_inode pb)))) &&
    same_parts a' b'
  | _, _ => true
  end.
Definition sameNamesAndSizes (a b : MediaVersion) : bool :=
  if (length (mv_parts a) =? 0)%nat || negb (length (mv_parts a) =? length (mv_parts b))%nat
  then false else same_parts (mv_parts a) (mv_parts b).

Definition key_of (vs : list MediaVersion) (i : nat) : string :=
  match vs !! i with Some v => mv_key v | None => "" end.
Definition by_key (vs : list MediaVersion) : list nat :=
  stable_sort (fun a b => str_lt (key_of vs a) (key_of vs b)) (seq 0 (length vs)).

(** Pairs of [idx] in list order. *)
Fixpoint pairs_of (idx : list nat) : list (nat * nat) :=
  match idx with
  | [] => []
  | i :: idx' => (map (pair i) idx' ++ pairs_of idx')%list
  end.
Definition likelySameFilePairs (vs : list MediaVersion) (comp : list nat) : list (nat * nat) :=
  List.filter (fun ij =>
    negb (bool_decide (comp !! fst ij = comp !! snd ij)) &&
    match vs !! fst ij, vs !! snd ij with
    | Some a, Some b => sameNamesAndSizes a b
    | _, _ => false
    end) (pairs_of (by_key vs)).

(** ** Lemmas *)

Lemma same_components_iff vs a b :
  (a < length vs)%nat -> (b < length vs)%nat ->
  sameFileComponents vs !! a = sameFileComponents vs !! b <->
  rtsc (share_key (map sameFileKeys vs)) a b.
Proof.
  intros Ha Hb. unfold sameFileComponents.
  rewrite !key_components_lookup by (rewrite length_map; lia).
  rewrite <- key_components_iff by (rewrite length_map; lia).
  split; [by intros [= ->] | by intros ->].
Qed.

Lemma length_sameFileComponents vs : length (sameFileComponents vs) = length vs.
Proof. unfold sameFileComponents. by rewrite length_key_components, length_map. Qed.

Lemma elem_of_members_of comp c i : i ∈ members_of comp c <-> comp !! i = Some c.
Proof.
  unfold members_of. rewrite list_elem_of_In, filter_In, <- list_elem_of_In, elem_of_seq.
  rewrite bool_decide_eq_true. split; [tauto |].
  intros E. split; [| done]. apply lookup_lt_Some in E. lia.
Qed.

Lemma NoDup_members_of comp c : NoDup (members_of comp c).
Proof.
  unfold members_of. apply NoDup_ListNoDup, List.NoDup_filter, NoDup_ListNoDup, NoDup_seq.
Qed.

(** Every member of a component with two members is listed once. *)
Lemma elem_of_shared_components comp c ms :
  (c, ms) ∈ shared_components comp <-> ms = members_of comp c /\ (1 < length ms)%nat.
Proof.
  unfold shared_components. rewrite list_elem_of_In, filter_In, <- list_elem_of_In, list_elem_of_fmap.
  simpl. rewrite Nat.ltb_lt. split.
  - intros ((c' & [= -> ->] & _) & Hlen). done.
  - intros (-> & Hlen). split; [| done]. exists c. split; [done |].
    rewrite elem_of_stable_sort, elem_of_dedup.
    destruct (members_of comp c) as [|i ms] eqn:E; [simpl in Hlen; lia |].
    assert (i ∈ members_of comp c) as Hi by (rewrite E; set_solver).
    apply elem_of_members_of in Hi. by eapply list_elem_of_lookup_2.
Qed.
End versions.
