(* ===== verification/Criteria.v ===== *)
(** * Criteria and metrics

    internal/engine/criteria.go and watch.go: every enabled profile criterion
    becomes a metric over the versions of one group (presence, float64 score,
    comparability class, floor, tolerance), and [survivors] keeps the versions
    no other version beats on it. Display strings of the comparison table are
    not modelled. *)

From S2P Require Import Prelude GoStd GoFloat Models UnionFind DiscPaths Paths Titles Versions.
Local Open Scope string_scope.
Local Open Scope Z_scope.

(** ** Play history (watch.go) *)

Definition watchClass := "watch".
Definition secondsPerDay : Z := 86400.
Definition maxLastPlayedMinDeltaDays : Z := 3650.

Definition isWatchCriterion (t : string) : bool := String.eqb t CritPlayed || String.eqb t CritLastPlayed.

Definition knownWatch (v : MediaVersion) : option WatchInfo :=
  match mv_watch v with
  | Some w => if negb (String.eqb (wi_status w) WatchKnown) || (wi_plays w <? 0) then None else Some w
  | None => None
  end.

Definition lastPlayedValue (v : MediaVersion) : option float64 :=
  match knownWatch v with
  | None => None
  | Some w =>
    if wi_plays w =? 0 then Some f0
    else if is_zero (wi_last_played w) || (unix (wi_last_played w) <=? 0) then None
    else Some (fint (unix (wi_last_played w)))
  end.

(** The least score that beats [v] on [played] / [last_played]. *)
Definition watchFloor (t : string) (v : MediaVersion) : float64 :=
  match knownWatch v with
  | None => pos_inf
  | Some w =>
    if (wi_plays w =? 0) && is_zero (wi_since w) then pos_inf
    else if wi_plays w =? 0 then fint (unix (wi_since w))
    else if String.eqb t CritPlayed then pos_inf
    else neg_inf
  end.

Fixpoint watch_can_decide_from (first : string) (vs : list MediaVersion) : bool :=
  match vs with
  | [] => false
  | v :: vs' =>
    if IsDisc v then watch_can_decide_from first vs' else
    let rk := trim_space (mv_rating_key v) in
    if String.eqb rk "" then true
    else if String.eqb first "" then watch_can_decide_from rk vs'
    else if negb (String.eqb rk first) then true
    else watch_can_decide_from first vs'
  end.
Definition watchCanDecide (vs : list MediaVersion) : bool := watch_can_decide_from "" vs.

Definition watchSourceLabel (w : WatchInfo) : string :=
  if String.eqb (wi_source w) WatchSourceTautulli then "Tautulli" else "the play-history source".

(** Whether a history could not be read, the first reason and its source. *)
Fixpoint watchFailure (vs : list MediaVersion) : bool * string * string :=
  match vs with
  | [] => (false, "", "")
  | v :: vs' =>
    match mv_watch v with
    | Some w =>
      if String.eqb (wi_status w) WatchFailed then
        let r := trim_space (wi_reason w) in
        if nonempty r then (true, r, watchSourceLabel w) else
        match watchFailure vs' with
        | (true, "", _) | (false, _, _) => (true, "", watchSourceLabel w)
        | found => found
        end
      else watchFailure vs'
    | None => watchFailure vs'
    end
  end.

(** ** Criterion facts *)

Inductive crit_kind := KOrdered | KNumeric | KBoolean | KPatterns.

(** Kind, label, default order and whether a tolerance applies. *)
Record criterionInfo := {
  ci_kind : crit_kind;
  ci_label : string;
  ci_default_order : list string;
  ci_supports_tolerance : bool;
}.
Definition info k l o t := Some {| ci_kind := k; ci_label := l; ci_default_order := o; ci_supports_tolerance := t |}.

Definition defaultResolutionOrder := ["2160"; "1440"; "1080"; "720"; "576"; "480"; "sd"].
Definition defaultDynamicRangeOrder := ["dv_hdr10"; "hdr10plus"; "hdr10"; "hlg"; "dv"; "sdr"].
Definition defaultSourceOrder :=
  ["remux"; "disc"; "bluray"; "webdl"; "webrip"; "hdtv"; "dvd"; "sdtv"; "unknown"].
Definition defaultVideoCodecOrder := ["hevc"; "av1"; "h264"; "vc1"; "mpeg2"; "mpeg4"; "vp9"; "other"].
Definition defaultAudioFormatOrder :=
  ["truehd_atmos"; "truehd"; "dtsx"; "dts_hd_ma"; "dts_hd_hra"; "eac3_atmos"; "flac"; "pcm"; "dts";
   "eac3"; "ac3"; "aac"; "opus"; "mp3"; "other"].
Definition defaultContainerOrder := ["mkv"; "mp4"; "m4v"; "m2ts"; "other"; "avi"; "ts"].

Definition criterionInfoFor (t : string) : option criterionInfo :=
  let is_t := String.eqb t in
  if is_t CritHealth then info KBoolean "Health" [] false
  else if is_t CritResolution then info KOrdered "Resolution" defaultResolutionOrder false
  else if is_t CritDynamicRange then info KOrdered "Dynamic range" defaultDynamicRangeOrder false
  else if is_t CritSource then info KOrdered "Source" defaultSourceOrder false
  else if is_t CritVideoCodec then info KOrdered "Video codec" defaultVideoCodecOrder false
  else if is_t CritAudioFormat then info KOrdered "Audio format" defaultAudioFormatOrder false
  else if is_t CritContainer then info KOrdered "Container" defaultContainerOrder false
  else if is_t CritLibrary then info KOrdered "Library" [] false
  else if is_t CritAudioChannels then info KNumeric "Audio channels" [] false
  else if is_t CritVideoBitrate then info KNumeric "Video bitrate" [] true
  else if is_t CritFileSize then info KNumeric "File size" [] true
  else if is_t CritBitDepth then info KNumeric "Bit depth" [] false
  else if is_t CritCustomFormatScore then info KNumeric "Custom format score" [] true
  else if is_t CritDateAdded then info KNumeric "Date added" [] false
  else if is_t CritAudioTrackCount then info KNumeric "Audio tracks" [] false
  else if is_t CritSubtitleTrackCount then info KNumeric "Subtitle tracks" [] false
  else if is_t CritArrManaged then info KBoolean "*arr managed" [] false
  else if is_t CritAudioLanguage then info KBoolean "Audio language" [] false
  else if is_t CritFilenameScore then info KPatterns "Filename score" [] false
  else if is_t CritPlayed then info KBoolean "Played" [] false
  else if is_t CritLastPlayed then info KNumeric "Last played" [] false
  else None.

(** ** Value normalisation *)

Definition tierFromDims (w h : Z) : string :=
  if 0 <? w then
    if 3200 <=? w then "2160" else if 2200 <=? w then "1440" else if 1700 <=? w then "1080"
    else if 1100 <=? w then "720" else if (1000 <=? w) && (480 <? h) then "576"
    else if 640 <=? w then "480" else "sd"
  else if h <=? 0 then ""
  else if 2000 <=? h then "2160" else if 1400 <=? h then "1440" else if 1000 <=? h then "1080"
  else if 700 <=? h then "720" else if 560 <=? h then "576" else if 470 <=? h then "480" else "sd".

Section normalise.
Context `{Unicode}.

Definition lower_trim (s : string) : string := to_lower (trim_space s).

Definition normResolution (v : MediaVersion) : string :=
  let r := trim_suffix (lower_trim (mv_resolution v)) "p" in
  if mem r ["4k"; "uhd"; "2160"] then "2160"
  else if String.eqb r "" then tierFromDims (mv_width v) (mv_height v)
  else r.

Definition normDynamicRange (s : string) : string :=
  let s := lower_trim s in
  if mem s ["hdr10+"; "hdr10 plus"; "hdr10_plus"] then "hdr10plus" else s.

Definition normSource (s : string) : string :=
  let s := lower_trim s in
  if mem s ["web-dl"; "web"] then "webdl" else if String.eqb s "blu-ray" then "bluray" else s.

Definition normVideoCodec (s : string) : string :=
  let s := lower_trim s in
  if String.eqb s "" then ""
  else if mem s ["hevc"; "h265"; "h.265"; "x265"] then "hevc"
  else if mem s ["h264"; "h.264"; "avc"; "avc1"; "x264"] then "h264"
  else if String.eqb s "av1" then "av1"
  else if mem s ["vc1"; "vc-1"; "wvc1"] then "vc1"
  else if mem s ["mpeg2"; "mpeg2video"; "mpeg-2"] then "mpeg2"
  else if mem s ["mpeg4"; "mpeg-4"; "xvid"; "divx"; "mp4v"; "msmpeg4"; "msmpeg4v2"; "msmpeg4v3"] then "mpeg4"
  else if String.eqb s "vp9" then "vp9" else "other".

Definition containerDisc := "disc".
Definition normContainer (v : MediaVersion) : string :=
  if IsDisc v then containerDisc else
  let c := lower_trim (mv_container v) in
  let c := if String.eqb c "" then
    trim_prefix (to_lower (path_ext (normPath (primaryPath v)))) "." else c in
  if String.eqb c "" then ""
  else if mem c ["mkv"; "matroska"] then "mkv"
  else if mem c ["mp4"; "m4v"; "avi"] then c
  else if mem c ["m2ts"; "mts"; "m2t"] then "m2ts"
  else if mem c ["ts"; "mpegts"] then "ts"
  else if String.eqb c containerDisc then containerDisc else "other".

Definition normAudioFormat (t : AudioTrack) : string :=
  let f := lower_trim (at_format t) in
  if at_atmos t && String.eqb f "truehd" then "truehd_atmos"
  else if at_atmos t && String.eqb f "eac3" then "eac3_atmos" else f.

Definition orderedValue (t : string) (v : MediaVersion) : string :=
  if String.eqb t CritResolution then normResolution v
  else if String.eqb t CritDynamicRange then normDynamicRange (mv_dynamic_range v)
  else if String.eqb t CritSource then normSource (mv_source v)
  else if String.eqb t CritVideoCodec then normVideoCodec (mv_video_codec v)
  else if String.eqb t CritContainer then normContainer v
  else if String.eqb t CritLibrary then
    if negb (mv_library_id v =? 0) then format_int (mv_library_id v) else ""
  else "".

Definition normalizeOrder (t : string) (order : list string) : list string :=
  let out := flat_map (fun o =>
    let o := lower_trim o in
    if String.eqb o "" then [] else
    [if String.eqb t CritDynamicRange then normDynamicRange o else o]) order in
  match out with
  | [] => match criterionInfoFor t with Some i => ci_default_order i | None => [] end
  | _ => out
  end.

(** Position of the first occurrence of each value. *)
Definition orderIndex (order : list string) : gmap string nat :=
  foldl (fun idx io => match idx !! snd io with
    | Some _ => idx
    | None => <[snd io:=fst io]> idx
    end) ∅ (imap pair order).

Definition discAudioVariants : list (string * string) :=
  [("truehd", "truehd_atmos"); ("dts_hd_ma", "dtsx"); ("eac3", "eac3_atmos")].

(** Format, rank and channels of the best audio track under [idx]. *)
Definition bestAudio (v : MediaVersion) (idx : gmap string nat) : option (string * nat * Z) :=
  foldl (fun acc t =>
    let f := normAudioFormat t in
    if String.eqb f "" then acc else
    let r := default (size idx) (idx !! f) in
    let r := match assoc discAudioVariants f with
      | Some variant => if IsDisc v then
          match idx !! variant with Some vr => if (vr <? r)%nat then vr else r | None => r end
          else r
      | None => r
      end in
    match acc with
    | None => Some (f, r, at_channels t)
    | Some (_, rank, ch) =>
      if (r <? rank)%nat || ((r =? rank)%nat && (ch <? at_channels t))
      then Some (f, r, at_channels t) else acc
    end) None (mv_audio_tracks v).

Definition maxChannels (v : MediaVersion) : Z :=
  foldl (fun n t => if n <? at_channels t then at_channels t else n) 0 (mv_audio_tracks v).

Definition rankingSize (v : MediaVersion) : Z :=
  match mv_disc v with
  | Some d => if 0 <? di_feature_bytes d then di_feature_bytes d else TotalSize v
  | None => TotalSize v
  end.

Definition positive_value (z : Z) : option float64 := if 0 <? z then Some (fint z) else None.

(** [numericValue]; [None] when the value is not known. *)
Definition numericValue (t : string) (v : MediaVersion) : option float64 :=
  if String.eqb t CritAudioChannels then positive_value (maxChannels v)
  else if String.eqb t CritVideoBitrate then
    positive_value (if mv_video_bitrate v <=? 0 then mv_bitrate_kbps v else mv_video_bitrate v)
  else if String.eqb t CritFileSize then positive_value (rankingSize v)
  else if String.eqb t CritBitDepth then positive_value (mv_bit_depth v)
  else if String.eqb t CritCustomFormatScore then
    match mv_arr v with
    | Some a => option_map fint (af_custom_format_score a)
    | None => None
    end
  else if String.eqb t CritDateAdded then
    if negb (is_zero (dateAdded v)) then Some (fint (unix (dateAdded v))) else None
  else if String.eqb t CritLastPlayed then lastPlayedValue v
  else if String.eqb t CritAudioTrackCount then positive_value (Z.of_nat (length (mv_audio_tracks v)))
  else if String.eqb t CritSubtitleTrackCount then Some (fint (mv_subtitle_count v))
  else None.

Definition discChannelsUnknown (v : MediaVersion) : bool :=
  IsDisc v && existsb (fun t => at_channels t <=? 0) (mv_audio_tracks v).

(** ** Health *)

Definition versionHealth (v : MediaVersion) (maxDurationMs : Z) : list string :=
  ((if isUnavailable v then ["file missing"] else []) ++
   (if isInaccessible v then ["file not accessible"] else []) ++
   unanalyzedProblems v ++
   (if hasSampleName v then ["sample file name"] else []) ++
   (let d := versionDuration v in
    if (0 <? maxDurationMs) && (0 <? d) && flt (fint d) (fmul f0_9 (fint maxDurationMs)) &&
       negb (durationLowerBound v)
    then ["possible sample (" +:+ humanDuration (msDuration d) +:+ " of " +:+
          humanDuration (msDuration maxDurationMs) +:+ ")"] else []))%list.
Definition healthy (problems : list string) : bool := (length problems =? 0)%nat.
End normalise.

(** ** Metrics *)

Record metric := {
  m_id : string;
  m_label : string;
  m_tiebreak : bool;
  m_present : list bool;
  m_score : list float64;
  m_class : option (list string);
  m_floor : option (list float64);
  m_tol_pct : float64;
  m_min_delta : float64;
}.

Definition score (m : metric) (i : nat) : float64 := default f0 (m_score m !! i).
Definition present (m : metric) (i : nat) : bool := bget (m_present m) i.
Definition class_at (l : list string) (i : nat) : string := default "" (l !! i).
Definition floor_at (l : list float64) (i : nat) : float64 := default f0 (l !! i).

Definition comparable (m : metric) (a b : nat) : bool :=
  match m_class m with
  | None => true
  | Some cl => nonempty (class_at cl a) && String.eqb (class_at cl a) (class_at cl b)
  end.

Definition beats (m : metric) (a b : nat) : bool :=
  if negb (comparable m a b) then false
  else if negb (present m a) then false
  else if negb (present m b) then true
  else if match m_floor m with Some fl => flt (score m a) (floor_at fl b) | None => false end then false
  else
    let diff := fsub (score m a) (score m b) in
    if negb (flt f0 diff) then false
    else if flt f0 (m_min_delta m) && flt diff (m_min_delta m) then false
    else if flt f0 (m_tol_pct m) &&
            (let base := fmax (fabs (score m a)) (fabs (score m b)) in
             fle diff (fdiv (fmul base (m_tol_pct m)) f100)) then false
    else true.

(** The class a version competes in: ["*"] without classes, none when its class
    is empty. *)
Definition bucket (m : metric) (i : nat) : option string :=
  match m_class m with
  | None => Some "*"
  | Some cl => if nonempty (class_at cl i) then Some (class_at cl i) else None
  end.

Definition best_step (m : metric) (best : gmap string nat) (i : nat) : gmap string nat :=
  match bucket m i with
  | None => best
  | Some c =>
    if negb (present m i) then best else
    match best !! c with
    | Some b => if fgt (score m i) (score m b) then <[c:=i]> best else best
    | None => <[c:=i]> best
    end
  end.
Definition best_of (m : metric) (s : list nat) : gmap string nat := foldl (best_step m) ∅ s.

(** Who eliminates [i]: the best of its class, when that beats it. A version
    without class looks up the empty class, which has no best. *)
Definition eliminator (m : metric) (best : gmap string nat) (i : nat) : option nat :=
  let c := match m_class m with None => "*" | Some cl => class_at cl i end in
  match best !! c with
  | Some b => if negb (b =? i)%nat && beats m b i then Some b else None
  | None => None
  end.

(** The survivors of [s] and the eliminated versions with who beat them. *)
Definition survivors (m : metric) (s : list nat) : list nat * list (nat * nat) :=
  let best := best_of m s in
  (List.filter (fun i => match eliminator m best i with Some _ => false | None => true end) s,
   omap (fun i => match eliminator m best i with Some b => Some (i, b) | None => None end) s).

(** ** Building metrics *)

Section build.
Context `{Unicode} `{Doublestar} `{RegexSyntax}.

Inductive compiledPattern :=
  | CPRegex (score : Z) (r : re)
  | CPGlob (score : Z) (glob : string) (caseSensitive : bool).

Definition compilePatterns (ps : list PatternScore) : list compiledPattern :=
  flat_map (fun p =>
    let pat := trim_space (ps_pattern p) in
    if String.eqb pat "" then [] else
    if ps_regex p then
      match regexp_compile (if ps_case_sensitive p then pat else "(?i)" +:+ pat) with
      | Some r => [CPRegex (ps_score p) r]
      | None => []
      end
    else
      let check := to_slash pat in
      let check := if ps_case_sensitive p then check else to_lower check in
      if ds_valid check then [CPGlob (ps_score p) pat (ps_case_sensitive p)] else []) ps.

Definition cp_matches (cp : compiledPattern) (v : MediaVersion) : bool :=
  match cp with
  | CPRegex _ r => existsb (fun p => re_match r (normPath p)) (versionPaths v)
  | CPGlob _ g cs => globMatch g (versionPaths v) cs
  end.
Definition cp_score (cp : compiledPattern) : Z :=
  match cp with CPRegex s _ => s | CPGlob s _ _ => s end.

Definition filenameScore (v : MediaVersion) (cps : list compiledPattern) : Z :=
  foldl (fun total cp => if cp_matches cp v then wrap64 (total + cp_score cp) else total) 0 cps.

Definition arrMatches (a : option ArrFileInfo) (target : string) : bool :=
  match a with
  | None => false
  | Some a =>
    let target := trim_space target in
    if String.eqb target "" then true
    else match parse_int target with
    | Some id => af_instance_id a =? id
    | None => equal_fold (trim_space (af_instance_name a)) target
    end
  end.

Definition hasLanguage (v : MediaVersion) (want : string) : bool := mem want (audioLangs v).

(** A metric from each version's optional score. *)
Definition metric_of (id label : string) (scores : list (option float64)) : metric := {|
  m_id := id; m_label := label; m_tiebreak := false;
  m_present := map (fun s => match s with Some _ => true | None => false end) scores;
  m_score := map (default f0) scores;
  m_class := None; m_floor := None; m_tol_pct := f0; m_min_delta := f0;
|}.
Definition with_class (cl : list string) (m : metric) : metric := {|
  m_id := m_id m; m_label := m_label m; m_tiebreak := m_tiebreak m;
  m_present := m_present m; m_score := m_score m; m_class := Some cl; m_floor := m_floor m;
  m_tol_pct := m_tol_pct m; m_min_delta := m_min_delta m |}.
Definition with_floor (fl : list float64) (m : metric) : metric := {|
  m_id := m_id m; m_label := m_label m; m_tiebreak := m_tiebreak m;
  m_present := m_present m; m_score := m_score m; m_class := m_class m; m_floor := Some fl;
  m_tol_pct := m_tol_pct m; m_min_delta := m_min_delta m |}.
Definition with_tolerance (tol delta : float64) (m : metric) : metric := {|
  m_id := m_id m; m_label := m_label m; m_tiebreak := m_tiebreak m;
  m_present := m_present m; m_score := m_score m; m_class := m_class m; m_floor := m_floor m;
  m_tol_pct := tol; m_min_delta := delta |}.

Definition slicesAny (vs : list MediaVersion) (pred : MediaVersion -> bool) : bool := existsb pred vs.

(** ordered criteria: the negated position in the order *)
Definition ordered_score (t : string) (order : list string) (v : MediaVersion) : option float64 :=
  let idx := orderIndex order in
  if String.eqb t CritAudioFormat then
    match bestAudio v idx with
    | Some (_, r, _) => Some (fneg (fint (Z.of_nat r)))
    | None => None
    end
  else
    let val := orderedValue t v in
    if String.eqb val "" then None
    else Some (fneg (fint (Z.of_nat (default (length order) (idx !! val))))).

Definition ordered_metric (c : Criterion) (i : criterionInfo) (vs : list MediaVersion) : metric :=
  let order := normalizeOrder (cr_type c) (cr_order c) in
  let m := metric_of (cr_type c) (ci_label i) (map (ordered_score (cr_type c) order) vs) in
  if String.eqb (cr_type c) CritContainer && slicesAny vs IsDisc then
    with_class (map (fun v => if IsDisc v then "" else "file") vs) m
  else m.

Definition is_higher (c : Criterion) : bool := negb (equal_fold (trim_space (cr_direction c)) DirectionLower).
Definition positive_finite (x : float64) : bool := flt f0 x && negb (f_is_inf x).

(** A known, finite value. *)
Definition known_value (t : string) (v : MediaVersion) : option float64 :=
  match numericValue t v with
  | Some x => if f_is_nan x || f_is_inf x then None else Some x
  | None => None
  end.

Definition numeric_class (t : string) (v : MediaVersion) : string :=
  if String.eqb t CritVideoBitrate then normVideoCodec (mv_video_codec v)
  else if String.eqb t CritCustomFormatScore then
    match known_value t v, mv_arr v with
    | Some _, Some a => format_int (af_instance_id a)
    | _, _ => ""
    end
  else if String.eqb t CritLastPlayed then
    match known_value t v with Some _ => watchClass | None => "" end
  else (* audio channels *) if discChannelsUnknown v then "" else "known".

Definition numeric_metric (c : Criterion) (i : criterionInfo) (vs : list MediaVersion) : metric :=
  let t := cr_type c in
  let last_played := String.eqb t CritLastPlayed in
  let higher := last_played || is_higher c in
  let tol := if ci_supports_tolerance i && positive_finite (cr_tolerance_percent c)
    then fmin (cr_tolerance_percent c) f100 else f0 in
  let delta :=
    if negb (positive_finite (cr_min_delta c)) then f0
    else if ci_supports_tolerance i then cr_min_delta c
    else if last_played then
      fmul (fmin (cr_min_delta c) (fint maxLastPlayedMinDeltaDays)) (fint secondsPerDay)
    else f0 in
  let m := metric_of t (ci_label i)
    (map (fun v => option_map (fun x => if higher : bool then x else fneg x) (known_value t v)) vs) in
  let m := with_tolerance tol delta m in
  let m := if last_played then with_floor (map (watchFloor t) vs) m else m in
  if mem t [CritVideoBitrate; CritCustomFormatScore; CritLastPlayed] ||
     (String.eqb t CritAudioChannels && slicesAny vs discChannelsUnknown)
  then with_class (map (numeric_class t) vs) m else m.

Definition flag_score (b : bool) : option float64 := Some (if b then f1 else f0).

Definition boolean_metric (c : Criterion) (i : criterionInfo) (vs : list MediaVersion)
    (health : list (list string)) : option metric :=
  let t := cr_type c in
  let mk := metric_of t (ci_label i) in
  if String.eqb t CritHealth then Some (mk (map (fun h => flag_score (healthy h)) health))
  else if String.eqb t CritArrManaged then
    Some (mk (map (fun v => flag_score (arrMatches (mv_arr v) (trim_space (cr_value c)))) vs))
  else if String.eqb t CritPlayed then
    Some (with_floor (map (watchFloor CritPlayed) vs)
      (with_class (map (fun v => match knownWatch v with Some _ => watchClass | None => "" end) vs)
        (mk (map (fun v => match knownWatch v with
          | None => None
          | Some _ => Some (default f0 (lastPlayedValue v))
          end) vs))))
  else if String.eqb t CritAudioLanguage then
    let want := normLang (cr_value c) (cr_value c) in
    if String.eqb want "" then None else
    Some (mk (map (fun v => match audioLangs v with
      | [] => None
      | _ => flag_score (hasLanguage v want)
      end) vs))
  else None.

Definition pattern_metric (c : Criterion) (i : criterionInfo) (vs : list MediaVersion) : option metric :=
  match compilePatterns (cr_patterns c) with
  | [] => None
  | cps => Some (metric_of (cr_type c) (ci_label i)
      (map (fun v => let s := fint (filenameScore v cps) in
                     Some (if is_higher c then s else fneg s)) vs))
  end.

Definition buildMetric (c : Criterion) (vs : list MediaVersion) (health : list (list string)) : option metric :=
  match criterionInfoFor (cr_type c) with
  | None => None
  | Some i =>
    if negb (cr_enabled c) then None else
    match ci_kind i with
    | KOrdered => Some (ordered_metric c i vs)
    | KNumeric => Some (numeric_metric c i vs)
    | KBoolean => boolean_metric c i vs health
    | KPatterns => pattern_metric c i vs
    end
  end.

Definition TiebreakMediaID := "media_id".
Definition TiebreakKey := "key".

Definition as_tiebreak (m : metric) : metric := {|
  m_id := m_id m; m_label := m_label m; m_tiebreak := true;
  m_present := m_present m; m_score := m_score m; m_class := m_class m; m_floor := m_floor m;
  m_tol_pct := m_tol_pct m; m_min_delta := m_min_delta m |}.

(** *arr-managed first, larger size, older added, lower media id. *)
Definition tiebreakMetrics (vs : list MediaVersion) : list metric :=
  map as_tiebreak [
    metric_of CritArrManaged "*arr managed"
      (map (fun v => flag_score match mv_arr v with Some _ => true | None => false end) vs);
    metric_of CritFileSize "File size" (map (fun v => positive_value (rankingSize v)) vs);
    metric_of CritDateAdded "Date added"
      (map (fun v => let t := if is_zero (mv_added_at v) then dateAdded v else mv_added_at v in
                     if is_zero t then None else Some (fneg (fint (unix t)))) vs);
    metric_of TiebreakMediaID "Plex media id"
      (map (fun v => if 0 <? mv_media_id v then Some (fneg (fint (mv_media_id v))) else None) vs)].
End build.
