(* ===== verification/Ranking.v ===== *)
(** * Ranking

    [metric.survivors], [evaluation.rank] and [evaluation.partition]: versions
    are ranked by repeated elimination. In each round the remaining versions
    are filtered metric by metric, the survivor with the smallest key wins, and
    the round records who eliminated whom. *)

From S2P Require Import Prelude GoStd GoFloat Models UnionFind DiscPaths Paths Titles Versions Criteria.

(** ** The float order of the scores *)

(** Where a non-NaN float lies: its class, exponent and mantissa, each with the
    sign applied; [SFcompare] compares these lexicographically. *)
Definition fkey (x : float64) : option (Z * Z * Z) :=
  match x with
  | S754_nan => None
  | S754_infinity true => Some (-2, 0, 0)%Z
  | S754_infinity false => Some (2, 0, 0)%Z
  | S754_zero _ => Some (0, 0, 0)%Z
  | S754_finite true m e => Some (-1, - e, - Z.pos m)%Z
  | S754_finite false m e => Some (1, e, Z.pos m)%Z
  end.
Definition key_lt (a b : Z * Z * Z) : Prop :=
  let '(a1, a2, a3) := a in let '(b1, b2, b3) := b in
  (a1 < b1 \/ (a1 = b1 /\ (a2 < b2 \/ (a2 = b2 /\ a3 < b3))))%Z.

Lemma flt_key x y :
  flt x y = true <-> exists a b, fkey x = Some a /\ fkey y = Some b /\ key_lt a b.
Proof.
  unfold flt, SFltb.
  assert (Hpos : forall mx my, Pos.compare_cont Eq mx my = (Z.pos mx ?= Z.pos my)%Z) by done.
  destruct x as [[]|[]| |[] mx ex], y as [[]|[]| |[] my ey]; simpl;
    rewrite ?Hpos;
    repeat match goal with |- context [ (?a ?= ?b)%Z ] => destruct (Z.compare_spec a b) end;
    simpl; (split; [intros Ht; try discriminate Ht; do 2 eexists; split_and!; try done; simpl; lia
                   | intros (a & b & Ha & Hb & Hk); try discriminate; simplify_eq; simpl in Hk; try done; lia]).
Qed.

Lemma flt_trans x y z : flt x y = true -> flt y z = true -> flt x z = true.
Proof.
  rewrite !flt_key. intros (a & b & Ha & Hb & Hab) (b' & c & Hb' & Hc & Hbc).
  rewrite Hb in Hb'. injection Hb' as <-. exists a, c. split_and!; try done.
  destruct a as [[]], b as [[]], c as [[]]. simpl in *. lia.
Qed.

(** [not (x < y)] composes with [<] on values that are not NaN. *)
Lemma flt_le_trans x y z :
  f_is_nan z = false -> flt x y = false -> flt y z = false -> f_is_nan y = false -> flt x z = false.
Proof.
  intros Hz Hxy Hyz Hy. apply not_true_iff_false. rewrite flt_key.
  intros (a & c & Ha & Hc & Hac).
  destruct (fkey y) as [b|] eqn:Hb; [| by destruct y as [[]|[]| |[] ? ?]].
  apply not_true_iff_false in Hxy. apply not_true_iff_false in Hyz.
  rewrite flt_key in Hxy, Hyz.
  assert (~ key_lt a b) as H1 by (intros ?; apply Hxy; eauto).
  assert (~ key_lt b c) as H2 by (intros ?; apply Hyz; eauto).
  destruct a as [[]], b as [[]], c as [[]]. simpl in *. lia.
Qed.

Lemma flt_fsub_diag x : flt f0 (fsub x x) = false.
Proof. unfold fsub. destruct x as [[]|[]| |[] m e]; simpl; rewrite ?Z.sub_diag; done. Qed.

(** ** Survivors *)

Section survivors_lemmas.
Context (m : metric).

Lemma beats_irrefl a : beats m a a = false.
Proof.
  unfold beats. rewrite flt_fsub_diag. simpl.
  destruct (comparable m a a), (present m a); simpl; try done. by case_goal.
Qed.

Lemma elem_of_survivors i s :
  i ∈ fst (survivors m s) <-> i ∈ s /\ eliminator m (best_of m s) i = None.
Proof.
  unfold survivors; simpl. rewrite list_elem_of_In, filter_In, <- list_elem_of_In.
  destruct (eliminator m (best_of m s) i); split; intros [? ?]; done.
Qed.

Lemma survivors_sublist s : fst (survivors m s) `sublist_of` s.
Proof.
  unfold survivors; simpl. induction s as [|x s IH]; simpl; [constructor |].
  generalize (best_of m (x :: s)) as best. intros best.
  assert (Hf : forall l, List.filter (fun i => match eliminator m best i with Some _ => false | None => true end) l
    `sublist_of` l).
  { induction l as [|y l IHl]; simpl; [constructor |]. case_goal; by constructor. }
  destruct (eliminator m best x); by constructor.
Qed.

Lemma best_of_spec s c b :
  best_of m s !! c = Some b -> b ∈ s /\ bucket m b = Some c /\ present m b = true.
Proof.
  unfold best_of. revert c b.
  apply (foldl_inv (best_step m) (fun best => forall c b, best !! c = Some b ->
    b ∈ s /\ bucket m b = Some c /\ present m b = true)); [by intros c b; rewrite lookup_empty |].
  intros best x Hx IH c b. unfold best_step.
  destruct (bucket m x) as [cx|] eqn:Ec; [| by apply IH].
  destruct (present m x) eqn:Ep; simpl; [| by apply IH].
  destruct (best !! cx) as [b0|] eqn:Eb; [destruct (fgt _ _); [| by apply IH] |];
    rewrite lookup_insert; case_decide; subst; try (by apply IH); intros [= <-]; done.
Qed.

Lemma bucket_class_key i c : bucket m i = Some c ->
  match m_class m with None => "*"%string | Some cl => class_at cl i end = c.
Proof. unfold bucket. destruct (m_class m); [case_goal |]; congruence. Qed.

(** The best of a class is never eliminated, so somebody survives. *)
Lemma survivors_nonempty s : s <> [] -> fst (survivors m s) <> [].
Proof.
  intros Hne Hnil.
  assert (Hall : forall i, i ∈ s -> exists b, eliminator m (best_of m s) i = Some b).
  { intros i Hi. destruct (eliminator m (best_of m s) i) as [b|] eqn:E; [eauto |].
    assert (i ∈ fst (survivors m s)) as Hin by by apply elem_of_survivors.
    rewrite Hnil in Hin. by apply elem_of_nil in Hin. }
  destruct s as [|x s]; [done |]. destruct (Hall x) as [b Hb]; [set_solver |].
  unfold eliminator in Hb.
  destruct (best_of m (x :: s) !! _) as [b'|] eqn:Eb; [| done].
  apply best_of_spec in Eb as Hspec. destruct Hspec as (Hin & Hbk & _).
  destruct (Hall b' Hin) as [b2 Hb2]. unfold eliminator in Hb2.
  rewrite (bucket_class_key _ _ Hbk), Eb, Nat.eqb_refl in Hb2. done.
Qed.

(** Whoever is eliminated was beaten by the recorded member. *)
Lemma eliminator_sound s i b :
  eliminator m (best_of m s) i = Some b -> b ∈ s /\ b <> i /\ beats m b i = true.
Proof.
  unfold eliminator. destruct (best_of m s !! _) as [b'|] eqn:E; [| done].
  destruct (b' =? i)%nat eqn:Eq; simpl; [done |].
  destruct (beats m b' i) eqn:Eb; [| done]. intros [= <-].
  apply best_of_spec in E as (Hin & _). bsimp. done.
Qed.

(** Scores are numbers. *)
Definition scores_ok (s : list nat) : Prop := forall i, i ∈ s -> f_is_nan (score m i) = false.

(** Beating is monotone in the score of the better version. *)
Definition beats_monotone (s : list nat) : Prop := forall a a' i,
  a ∈ s -> a' ∈ s -> i ∈ s -> bucket m a = bucket m a' -> present m a' = true ->
  flt (score m a') (score m a) = false -> beats m a i = true -> beats m a' i = true.

Definition members_in (s : list nat) (best : gmap string nat) : Prop :=
  forall c b, best !! c = Some b -> b ∈ s.

Lemma best_step_members s best x : x ∈ s -> members_in s best -> members_in s (best_step m best x).
Proof.
  intros Hx Hb c b. unfold best_step.
  destruct (bucket m x) as [cx|]; [| by apply Hb]. destruct (present m x); simpl; [| by apply Hb].
  destruct (best !! cx); [destruct (fgt _ _); [| by apply Hb] |];
    rewrite lookup_insert; case_decide; try (by apply Hb); by intros [= <-].
Qed.

(** A recorded best only improves. *)
Lemma best_step_improves s best x j c b :
  scores_ok s -> x ∈ s -> j ∈ s -> members_in s best ->
  best !! c = Some b -> flt (score m b) (score m j) = false ->
  exists b', best_step m best x !! c = Some b' /\ flt (score m b') (score m j) = false.
Proof.
  intros Hok Hx Hj Hmem Hb Hlt. unfold best_step.
  destruct (bucket m x) as [cx|]; [| by eauto]. destruct (present m x); simpl; [| by eauto].
  destruct (decide (cx = c)) as [->|Hne].
  - rewrite Hb. destruct (fgt (score m x) (score m b)) eqn:Eg; [| by eauto].
    exists x. rewrite lookup_insert_eq. split; [done |].
    apply (flt_le_trans _ (score m b)); [by apply Hok | by apply flt_asym | done |].
    apply Hok. by eapply Hmem.
  - exists b. destruct (best !! cx); [destruct (fgt _ _); [| done] |];
      by rewrite lookup_insert_ne.
Qed.

Lemma best_step_self best j c :
  bucket m j = Some c -> present m j = true ->
  exists b, best_step m best j !! c = Some b /\ flt (score m b) (score m j) = false.
Proof.
  intros Hc Hp. unfold best_step. rewrite Hc, Hp. simpl.
  destruct (best !! c) as [b|] eqn:Eb; [destruct (fgt (score m j) (score m b)) eqn:Eg |].
  - exists j. rewrite lookup_insert_eq. split; [done | apply flt_irrefl].
  - exists b. done.
  - exists j. rewrite lookup_insert_eq. split; [done | apply flt_irrefl].
Qed.

Lemma best_of_max s j c :
  scores_ok s -> j ∈ s -> bucket m j = Some c -> present m j = true ->
  exists b, best_of m s !! c = Some b /\ flt (score m b) (score m j) = false.
Proof.
  intros Hok Hj Hc Hp. unfold best_of.
  apply list_elem_of_split in Hj as Hsplit. destruct Hsplit as (s1 & s2 & Heq).
  rewrite Heq, foldl_app. simpl.
  assert (Hin : forall x, x ∈ s1 \/ x = j \/ x ∈ s2 -> x ∈ s) by (rewrite Heq; set_solver).
  assert (Hm1 : members_in s (foldl (best_step m) ∅ s1)).
  { apply (foldl_inv (best_step m) (members_in s)); [by intros ? ?; rewrite lookup_empty |].
    intros best x Hx. apply best_step_members. auto. }
  apply (best_step_members s _ j Hj) in Hm1.
  pose proof (best_step_self (foldl (best_step m) ∅ s1) j c Hc Hp) as H0.
  apply (foldl_inv (best_step m) (fun best => members_in s best /\
    exists b, best !! c = Some b /\ flt (score m b) (score m j) = false)); [done |].
  intros best x Hx (Hm & b & Hb & Hlt). split; [apply best_step_members; auto |].
  apply (best_step_improves s best x j c b); auto.
Qed.

Lemma beats_bucket a i : beats m a i = true ->
  exists c, bucket m a = Some c /\ bucket m i = Some c /\ present m a = true.
Proof.
  unfold beats, comparable, bucket. intros H. destruct (m_class m) as [cl|].
  - destruct (nonempty (class_at cl a)) eqn:E1; simpl in H; [| done].
    destruct (String.eqb_spec (class_at cl a) (class_at cl i)) as [E2|]; simpl in H; [| done].
    rewrite <- E2, E1. destruct (present m a); [eauto | done].
  - destruct (present m a); [eauto | done].
Qed.

(** The one-pass filter keeps exactly the unbeaten members. *)
Lemma survivors_unbeaten s i :
  scores_ok s -> beats_monotone s ->
  i ∈ fst (survivors m s) <-> i ∈ s /\ forall j, j ∈ s -> beats m j i = false.
Proof.
  intros Hok Hmono. rewrite elem_of_survivors. split; intros [Hi H]; split; try done.
  - intros j Hj. apply not_true_iff_false. intros Hb.
    destruct (beats_bucket _ _ Hb) as (c & Hcj & Hci & Hpj).
    destruct (best_of_max s j c Hok Hj Hcj Hpj) as (b & Hbest & Hlt).
    apply best_of_spec in Hbest as Hspec. destruct Hspec as (Hbin & Hbc & Hbp).
    assert (Hbi : beats m b i = true).
    { apply (Hmono j b i); try done. congruence. }
    unfold eliminator in H. rewrite (bucket_class_key _ _ Hci), Hbest, Hbi in H.
    destruct (b =? i)%nat eqn:E; [| done]. bsimp. subst. by rewrite beats_irrefl in Hbi.
  - destruct (eliminator m (best_of m s) i) as [b|] eqn:E; [| done].
    apply eliminator_sound in E as (Hbin & _ & Hb). by rewrite H in Hb.
Qed.
End survivors_lemmas.

(** ** [evaluation.rank] *)

(** Why a version did not win a round: the metric index (the number of metrics
    for the key tiebreak) and the version that beat it. *)
Definition elimination : Type := nat * nat.

(** One round over the metrics: a single member stops the loop, a metric that
    would eliminate everyone is skipped. *)
Fixpoint round_metrics (mi : nat) (ms : list metric) (s : list nat)
    (elim : list (nat * elimination)) : list nat * list (nat * elimination) :=
  match ms with
  | [] => (s, elim)
  | m :: ms' =>
    if length s =? 1 then (s, elim) else
    let '(next, by_) := survivors m s in
    match next with
    | [] => round_metrics (S mi) ms' s elim
    | _ => round_metrics (S mi) ms' next
             (elim ++ map (fun ib => (fst ib, (mi, snd ib))) by_)%list
    end
  end.

(** The winner of a round and its eliminations. *)
Definition rank_round (ms : list metric) (remaining : list nat) : option (nat * list (nat * elimination)) :=
  match round_metrics 0 ms remaining [] with
  | ([], _) => None
  | (winner :: rest, elim) =>
    Some (winner, (elim ++ map (fun i => (i, (length ms, winner))) rest)%list)
  end.

(** The outer loop; each round removes its winner, so the number of versions is
    enough fuel. *)
Fixpoint rank_loop (fuel : nat) (ms : list metric) (remaining : list nat) :
    list nat * list (list (nat * elimination)) :=
  match fuel with
  | O => ([], [])
  | S fuel' =>
    match rank_round ms remaining with
    | None => ([], [])
    | Some (winner, elim) =>
      let '(order, rounds) := rank_loop fuel' ms (List.filter (fun i => negb (i =? winner)) remaining) in
      (winner :: order, elim :: rounds)
    end
  end.

Definition rank `{Unicode} (vs : list MediaVersion) (ms : list metric) :
    list nat * list (list (nat * elimination)) :=
  rank_loop (length vs) ms (by_key vs).

(** [pos[i]]: the index of version [i] in the order. *)
Definition pos_in (order : list nat) (i : nat) : nat :=
  default 0 (fst <$> list_find (fun j => j = i) order).

Lemma round_metrics_cons mi m ms s elim :
  round_metrics mi (m :: ms) s elim =
    if length s =? 1 then (s, elim) else
    match fst (survivors m s) with
    | [] => round_metrics (S mi) ms s elim
    | next => round_metrics (S mi) ms next
        (elim ++ map (fun ib => (fst ib, (mi, snd ib))) (snd (survivors m s)))%list
    end.
Proof. cbn -[survivors]. by destruct (survivors m s) as [[|? ?] ?]. Qed.

Lemma round_metrics_spec mi ms s elim :
  s <> [] -> let s' := fst (round_metrics mi ms s elim) in s' <> [] /\ s' `sublist_of` s.
Proof.
  revert mi s elim. induction ms as [|m ms IH]; intros mi s elim Hne; cbn zeta; [done |].
  rewrite round_metrics_cons. destruct (length s =? 1); [done |].
  pose proof (survivors_nonempty m s Hne) as Hsn. pose proof (survivors_sublist m s) as Hss.
  destruct (fst (survivors m s)) as [|x next]; [done |].
  destruct (IH (S mi) (x :: next) (elim ++ map (fun ib => (fst ib, (mi, snd ib))) (snd (survivors m s)))%list)
    as [H1 H2]; [done |].
  split; [exact H1 |]. by transitivity (x :: next).
Qed.

Lemma rank_round_winner ms remaining :
  remaining <> [] -> exists w elim, rank_round ms remaining = Some (w, elim) /\ w ∈ remaining.
Proof.
  intros Hne. unfold rank_round.
  destruct (round_metrics 0 ms remaining []) as [s elim] eqn:E.
  pose proof (round_metrics_spec 0 ms remaining [] Hne) as [Hs Hsub]. rewrite E in Hs, Hsub. simpl in *.
  destruct s as [|w rest]; [done |]. do 2 eexists. split; [done |].
  eapply elem_of_sublist; [| exact Hsub]. set_solver.
Qed.

Lemma rank_round_nil ms : rank_round ms [] = None.
Proof.
  unfold rank_round. assert (H : forall k, fst (round_metrics k ms [] []) = []).
  { induction ms as [|m ms IH]; intros k; [done |]. rewrite round_metrics_cons. simpl. apply IH. }
  specialize (H 0). by destruct (round_metrics 0 ms [] []) as [s elim]; simpl in H; subst.
Qed.

Lemma filter_neq_Permutation (l : list nat) w :
  NoDup l -> w ∈ l -> l ≡ₚ w :: List.filter (fun i => negb (i =? w)) l.
Proof.
  induction l as [|x l IH]; intros Hnd Hw; [by apply elem_of_nil in Hw |].
  apply NoDup_cons in Hnd as [Hx Hnd]. simpl.
  destruct (Nat.eqb_spec x w) as [->|Hne]; simpl.
  - constructor. clear IH Hw Hnd. induction l as [|y l IH]; simpl; [done |].
    destruct (Nat.eqb_spec y w); simpl; [set_solver |]. constructor. apply IH. set_solver.
  - rewrite IH at 1; [apply Permutation_swap | done | set_solver].
Qed.

(** Ranking loses nobody and ranks nobody twice. *)
Lemma rank_loop_Permutation fuel ms remaining :
  NoDup remaining -> length remaining <= fuel ->
  fst (rank_loop fuel ms remaining) ≡ₚ remaining.
Proof.
  revert remaining. induction fuel as [|fuel IH]; intros remaining Hnd Hlen; simpl.
  - destruct remaining; [done | simpl in Hlen; lia].
  - destruct (decide (remaining = [])) as [->|Hne]; [by rewrite rank_round_nil |].
    destruct (rank_round_winner ms remaining Hne) as (w & elim & -> & Hw).
    pose proof (filter_neq_Permutation remaining w Hnd Hw) as Hp.
    destruct (rank_loop fuel ms _) as [order rounds] eqn:E. simpl.
    specialize (IH (List.filter (fun i => negb (i =? w)) remaining)). rewrite E in IH. simpl in IH.
    rewrite IH; [by symmetry | |].
    + rewrite Hp in Hnd. by apply NoDup_cons in Hnd as [_ ?].
    + apply Permutation_length in Hp. simpl in Hp. lia.
Qed.

Lemma by_key_Permutation `{Unicode} vs : by_key vs ≡ₚ seq 0 (length vs).
Proof. apply stable_sort_Permutation. Qed.

Lemma rank_order_Permutation `{Unicode} vs ms : fst (rank vs ms) ≡ₚ seq 0 (length vs).
Proof.
  unfold rank. rewrite rank_loop_Permutation; [apply by_key_Permutation | |].
  - rewrite by_key_Permutation. apply NoDup_seq.
  - rewrite by_key_Permutation. by rewrite length_seq.
Qed.

(** The winner of a round is unbeaten on the first metric that separates the
    remaining versions. *)
Lemma round_first_metric mi m ms s elim w :
  1 < length s -> w ∈ fst (round_metrics mi (m :: ms) s elim) -> w ∈ fst (survivors m s).
Proof.
  intros Hlen. rewrite round_metrics_cons. destruct (Nat.eqb_spec (length s) 1); [lia |].
  assert (Hne : s <> []) by (intros ->; simpl in Hlen; lia).
  pose proof (survivors_nonempty m s Hne) as Hsn.
  destruct (fst (survivors m s)) as [|x next]; [done |]. intros Hw.
  eapply elem_of_sublist; [exact Hw |]. by apply round_metrics_spec.
Qed.

(** ** [evaluation.partition] *)

Section partition.
Context `{Unicode}.

Definition normKeepPer (keepPer : string) : string :=
  let k := lower_trim keepPer in
  if negb (String.eqb k KeepPerResolution) && negb (String.eqb k KeepPerDynamicRange)
  then KeepPerNone else k.

(** The partition key; its label is only used in messages. *)
Definition partitionOf (keepPer : string) (v : MediaVersion) : string :=
  let known r := if String.eqb r "" then "?"%string else r in
  if String.eqb keepPer KeepPerResolution then known (normResolution v)
  else if String.eqb keepPer KeepPerDynamicRange then known (normDynamicRange (mv_dynamic_range v))
  else ""%string.

Definition KeepPartition (keepPer : string) (v : MediaVersion) : string :=
  partitionOf (normKeepPer keepPer) v.

Definition part_of (keepPer : string) (vs : list MediaVersion) (i : nat) : string :=
  match vs !! i with Some v => partitionOf keepPer v | None => ""%string end.

(** The partitions in ranking order with their members, best first. *)
Definition partMembers (part : nat -> string) (order : list nat) : list (string * list nat) :=
  map (fun k => (k, List.filter (fun i => String.eqb (part i) k) order)) (dedup (map part order)).

(** The first eligible member, else the first. *)
Definition partBest (eligible : list bool) (members : list nat) : nat :=
  default (default 0 (head members)) (find (bget eligible) members).

Lemma elem_of_partMembers part order k ms :
  (k, ms) ∈ partMembers part order ->
  ms = List.filter (fun i => String.eqb (part i) k) order /\ k ∈ map part order.
Proof.
  unfold partMembers. intros (k' & [= -> ->] & Hk)%list_elem_of_fmap.
  rewrite elem_of_dedup in Hk. done.
Qed.

Lemma partMembers_part part order i :
  i ∈ order -> exists ms, (part i, ms) ∈ partMembers part order /\ i ∈ ms.
Proof.
  intros Hi. eexists. split.
  - unfold partMembers. apply list_elem_of_fmap. eexists. split; [done |].
    rewrite elem_of_dedup. by apply list_elem_of_fmap_2.
  - rewrite list_elem_of_In, filter_In, <- list_elem_of_In. by rewrite String.eqb_refl.
Qed.
End partition.
