(* ===== verification/Flags.v ===== *)
(** * Group flags and the mismatched-merge guard

    The flags and guards of internal/engine/group.go: which durations may be
    compared, the flags that follow from the versions alone, the spread of the
    durations, and the reasons to suspect that different titles were merged. *)

From S2P Require Import Prelude GoStd GoFloat Models UnionFind DiscPaths Paths Titles Versions.
Local Open Scope string_scope.
Local Open Scope Z_scope.

Definition DefaultMaxGroupSize : Z := 4.

(** [flags = addFlag(flags, f)] under a condition. *)
Definition flag_if (b : bool) (f : string) (flags : list string) : list string :=
  if b then addFlag flags f else flags.

(** [setKeys] of the set of the elements of [l]. *)
Definition setKeys (l : list string) : list string := stable_sort naturalLess (dedup l).

Definition intersects (a b : list Z) : bool := existsb (fun y => mem y a) b.

Section flags.
Context `{Unicode}.

(** How many episodes a file covers; 0 when unknown. *)
Definition episodeCount (mt : string) (v : MediaVersion) : Z :=
  if negb (String.eqb mt MediaTypeEpisode) || negb (isShared v) then 1 else
  let n := match mv_arr v with Some a => distinct_count (af_episode_ids a) | None => 0 end in
  let shared := Z.of_nat (length (sharedWith v)) + 1 in
  let n := if n <? shared then shared else n in
  if n <? 2 then 0 else n.

Definition longest_step (mt : string) (longest : gmap Z Z) (v : MediaVersion) : gmap Z Z :=
  let c := episodeCount mt v in
  let d := versionDuration v in
  if (0 <? c) && (default 0 (longest !! c) <? d) then <[c:=d]> longest else longest.
Definition longest_durations (mt : string) (vs : list MediaVersion) : gmap Z Z :=
  foldl (longest_step mt) ∅ vs.

(** The longest duration among the versions covering as many episodes. *)
Definition durationPeers (mt : string) (vs : list MediaVersion) : list Z :=
  let longest := longest_durations mt vs in
  map (fun v => let c := episodeCount mt v in
                if 0 <? c then default 0 (longest !! c) else 0) vs.

Definition possible_sample (v : MediaVersion) (peer : Z) : bool :=
  let d := versionDuration v in
  hasSampleName v ||
  ((0 <? d) && flt (fint d) (fmul f0_9 (fint peer)) && negb (durationLowerBound v)).

Definition one_version_flags (flags : list string) (vp : MediaVersion * Z) : list string :=
  let '(v, peer) := vp in
  let flags := flag_if (0 <? length (unanalyzedProblems v))%nat FlagUnanalyzed flags in
  let flags := flag_if (possible_sample v peer) FlagSample flags in
  let flags := flag_if (isShared v) FlagMultiEpisode flags in
  let flags := flag_if (isHardlinked v) FlagHardlinked flags in
  let flags := flag_if (isStacked v) FlagStacked flags in
  let flags := flag_if (isUnavailable v) FlagUnavailableVersion flags in
  let flags := flag_if (IsDisc v || in_disc v) FlagFullDisc flags in
  let flags := flag_if match mv_disc v with Some d => negb (blank (di_problem d)) | None => false end
    FlagDiscUnreadable flags in
  let flags := flag_if match mv_disc v with Some d => negb (blank (di_tracked_clip d)) | None => false end
    FlagDiscTracked flags in
  let flags := flag_if (readOnlyVersion v) FlagManualOnly flags in
  flag_if (0 <? length (mv_report_only v))%nat FlagReportOnly flags.

Definition versionFlags (mt : string) (vs : list MediaVersion) : list string :=
  let flags := foldl one_version_flags [] (zip vs (durationPeers mt vs)) in
  let comp := sameFileComponents vs in
  flag_if ((0 <? length (shared_components comp))%nat || (0 <? length (likelySameFilePairs vs comp))%nat)
    FlagSameFile flags.

(** ** Durations *)

Record durations := { du_lo : Z; du_hi : Z; du_n : nat }.

Definition spread_step (mt : string) (acc : gmap Z durations * list Z) (v : MediaVersion) :
    gmap Z durations * list Z :=
  let '(sets, counts) := acc in
  if isStacked v then acc else
  let d := versionDuration v in
  let c := episodeCount mt v in
  if (d <=? 0) || (c =? 0) then acc else
  match sets !! c with
  | None => (<[c := {| du_lo := d; du_hi := d; du_n := 1 |}]> sets, (counts ++ [c])%list)
  | Some s => (<[c := {| du_lo := Z.min (du_lo s) d; du_hi := Z.max (du_hi s) d; du_n := S (du_n s) |}]> sets, counts)
  end.

Definition spread_tolerance (hi : Z) (pct : float64) (minutes : Z) : float64 :=
  fmax (fdiv (fmul (fint hi) pct) f100) (fmul (fint minutes) (fint 60000)).

(** The state of the selection loop: found, lo, hi, mismatch. *)
Definition spread_select (sets : gmap Z durations) (pct : float64) (minutes : Z)
    (acc : bool * Z * Z * bool) (c : Z) : bool * Z * Z * bool :=
  let '(found, lo, hi, mismatch) := acc in
  match sets !! c with
  | None => acc
  | Some s =>
    if (du_n s <? 2)%nat then acc else
    let mm := fgt (fint (du_hi s - du_lo s)) (spread_tolerance (du_hi s) pct minutes) in
    if negb found || (mm && negb mismatch) ||
       (Bool.eqb mm mismatch && (hi - lo <? du_hi s - du_lo s))
    then (true, du_lo s, du_hi s, mm) else acc
  end.

(** [widest] of the source is [hi - lo] throughout. *)
Definition durationSpread (mt : string) (vs : list MediaVersion) (pct : float64) (minutes : Z) :
    Z * Z * bool :=
  let '(sets, counts) := foldl (spread_step mt) (∅, []) vs in
  let '(_, lo, hi, mismatch) :=
    foldl (spread_select sets pct minutes) (false, 0, 0, false) (stable_sort Z.ltb counts) in
  (lo, hi, mismatch).

(** ** Suspected merges *)

Definition disjoint_with (inst : Z) (a : ArrFileInfo) (v : MediaVersion) : bool :=
  match mv_arr v with
  | Some b =>
    (af_instance_id b =? inst) && (af_item_id b =? af_item_id a) &&
    negb (length (af_episode_ids b) =? 0)%nat &&
    negb (intersects (af_episode_ids a) (af_episode_ids b))
  | None => false
  end.
Fixpoint disjointEpisodes (vs : list MediaVersion) (inst : Z) : bool :=
  match vs with
  | [] => false
  | v :: vs' =>
    match mv_arr v with
    | Some a =>
      (af_instance_id a =? inst) && negb (length (af_episode_ids a) =? 0)%nat &&
      existsb (disjoint_with inst a) vs'
    | None => false
    end || disjointEpisodes vs' inst
  end.

Definition year_of (v : MediaVersion) : string :=
  let f := titleFolder v in
  let y := if nonempty f then folderYear f else "" in
  if nonempty y then y else fileNameYear v.

(** Normalised titles, each with the first folder that has it. *)
Definition title_folders (vs : list MediaVersion) : list (string * string) :=
  foldl (fun titles v =>
    let f := titleFolder v in
    if negb (nonempty f) then titles else
    let t := normalizeTitle f in
    if nonempty t && negb (mem t (map fst titles)) then (titles ++ [(t, f)])%list else titles) [] vs.

Definition tag_values (sp : string) (vs : list MediaVersion) : list string :=
  omap (fun v => if nonempty (titleFolder v) then idTags v !! sp else None) vs.

Definition arr_of_instance (inst : Z) (v : MediaVersion) : option ArrFileInfo :=
  match mv_arr v with
  | Some a => if af_instance_id a =? inst then Some a else None
  | None => None
  end.

Definition instance_reasons (vs : list MediaVersion) (inst_name : Z * string) : list string :=
  let '(inst, name) := inst_name in
  let tracked := omap (arr_of_instance inst) vs in
  let items := setKeys (map format_int (List.filter (Z.ltb 0) (map af_item_id tracked))) in
  let files := List.filter (Z.ltb 0) (map af_file_id tracked) in
  ((if (1 <? length items)%nat then
      ["tracked as different items by " +:+ name +:+ " (ids " +:+ join ", " items +:+ ")"] else []) ++
   flat_map (fun id =>
     let n := length (List.filter (Z.eqb id) files) in
     if (1 <? n)%nat then
       ["the same " +:+ name +:+ " file (id " +:+ format_int id +:+ ") is matched to " +:+
        format_int (Z.of_nat n) +:+ " versions"] else [])
     (stable_sort Z.ltb (dedup files)) ++
   (if disjointEpisodes vs inst then ["tracked as different episodes by " +:+ name] else []))%list.

Definition suspectReasons (vs : list MediaVersion) (maxGroupSize : Z) : list string :=
  let maxGroupSize := if maxGroupSize <=? 0 then DefaultMaxGroupSize else maxGroupSize in
  let n := Z.of_nat (length vs) in
  let titles := title_folders vs in
  let years := setKeys (List.filter nonempty (map year_of vs)) in
  ((if maxGroupSize <? n then
      [format_int n +:+ " versions in one group (more than " +:+ format_int maxGroupSize +:+ ")"] else []) ++
   (if (1 <? length titles)%nat then
      ["folder titles differ (" +:+
       join " vs " (sort_strings (map (fun tf => dquote +:+ snd tf +:+ dquote) titles)) +:+ ")"] else []) ++
   (if (1 <? length years)%nat then ["years differ (" +:+ join " vs " years +:+ ")"] else []) ++
   flat_map (fun sp =>
     let vals := setKeys (tag_values sp vs) in
     if (1 <? length vals)%nat then
       [sp +:+ " ids in folder names differ (" +:+ join " vs " vals +:+ ")"] else [])
     ["tmdb"; "imdb"; "tvdb"] ++
   flat_map (instance_reasons vs) (arrInstanceNames vs))%list.
End flags.

(** ** Lemmas *)

Section flags_lemmas.
Context `{Unicode}.

Lemma elem_of_flag_if b f g flags : f ∈ flag_if b g flags <-> f ∈ flags \/ (b = true /\ f = g).
Proof. unfold flag_if. destruct b; [rewrite elem_of_addFlag |]; naive_solver. Qed.

(** A recorded longest duration is that of some version of its set and is
    exceeded by none. *)
Lemma longest_durations_spec mt vs v :
  v ∈ vs -> 0 < episodeCount mt v -> 
  versionDuration v <= default 0 (longest_durations mt vs !! episodeCount mt v).
Proof.
  intros Hv Hc. unfold longest_durations.
  apply (foldl_establish (longest_step mt)
    (fun v l => 0 < episodeCount mt v -> versionDuration v <= default 0 (l !! episodeCount mt v))); try done.
  - intros l x _ Hx. unfold longest_step.
    destruct (0 <? episodeCount mt x) eqn:E1; bsimp; [| lia].
    destruct (default 0 (l !! episodeCount mt x) <? versionDuration x) eqn:E2; simpl; bsimp;
      [rewrite lookup_insert_eq; simpl |]; lia.
  - intros l x y _ _ IH Hy. specialize (IH Hy). unfold longest_step.
    destruct (0 <? episodeCount mt x); simpl; [| done].
    destruct (default 0 (l !! episodeCount mt x) <? versionDuration x) eqn:E2; simpl; bsimp; [| done].
    rewrite lookup_insert. case_decide as E; [| done]. rewrite E in E2. simpl. lia.
Qed.

Lemma length_durationPeers mt vs : length (durationPeers mt vs) = length vs.
Proof. unfold durationPeers. by rewrite length_map. Qed.
End flags_lemmas.
