(* ===== verification/CrossServer.v ===== *)
(** * Copies other media servers need

    internal/engine/crossserver.go (docs/DECISIONS.md D11): when another
    server's item would lose its last copy, and the texts that name it. *)

From S2P Require Import Prelude GoStd Models Versions.
Local Open Scope string_scope.
Local Open Scope Z_scope.

(** [survivor]: the other item keeps a version proven different from every
    removed one. [removed] lists the keys of the source's set. *)
Definition survivor (e : OtherListing) (removed : list string) : bool :=
  existsb (fun o => forallb (fun r => negb (mem r (om_same o) || negb (mem r (om_distinct o)))) removed)
    (ol_others e).

(** A same-file listing whose item would lose its last copy. *)
Definition needs_copy (removed : list string) (e : OtherListing) : bool :=
  String.eqb (ol_match e) OtherSameFile && negb (survivor e removed).

Definition serverLabel (e : OtherListing) : string :=
  let s := trim_space (ol_server_name e) in
  if negb (String.eqb s "") then s else "media server #" +:+ format_int (ol_server_id e).

Definition onlyCopyReason `{Unicode} (e : OtherListing) : string :=
  let title := trim_space (ol_item_title e) in
  let title := if String.eqb title "" then "item " +:+ ol_rating_key e else title in
  let lib := trim_space (ol_library_title e) in
  let lib := if String.eqb lib "" then "library #" +:+ format_int (ol_library_id e) else lib in
  let h := trim_space (ol_hint e) in
  "the only copy of " +:+ quote title +:+ " on " +:+ serverLabel e +:+ " (" +:+ lib +:+ ")" +:+
  (match ol_others e with [] => "" | _ => ": its other versions cannot be proven a different file" end) +:+
  (if String.eqb h "" then "" else " — " +:+ h).

(** The keys of the versions [keep] does not keep. *)
Definition removedKeys (vs : list MediaVersion) (keep : list bool) : list string :=
  omap (fun iv : nat * MediaVersion => if bget keep (fst iv) then None else Some (mv_key (snd iv)))
    (zip (seq 0 (length vs)) vs).

(** The first listing of a removed version that [P] accepts. *)
Definition first_removed (vs : list MediaVersion) (keep : list bool) (P : OtherListing -> bool) :
    option OtherListing :=
  find P (flat_map (fun iv : nat * MediaVersion => if bget keep (fst iv) then [] else mv_other_servers (snd iv))
    (zip (seq 0 (length vs)) vs)).

Definition kept_by_group (e : OtherListing) : bool :=
  match ol_kept_by_group e with Some b => b | None => false end.

Definition firstRemovedListing (vs : list MediaVersion) (keep : list bool) (m : string) (keptByGroup : bool) :
    option OtherListing :=
  first_removed vs keep (fun e =>
    (String.eqb m "" || String.eqb (ol_match e) m) && (negb keptByGroup || kept_by_group e)).

(** ** Lemmas *)

Lemma elem_of_zip_seq {A} (l : list A) i x : (i, x) ∈ zip (seq 0 (length l)) l <-> l !! i = Some x.
Proof.
  rewrite list_elem_of_lookup. split.
  - intros (k & Hk). apply lookup_zip_with_Some in Hk as (a & b & [= -> ->] & Ha & Hb).
    apply lookup_seq in Ha as [-> _]. done.
  - intros Hi. exists i. apply lookup_zip_with_Some. exists i, x. split_and!; try done.
    apply lookup_seq. split; [done |]. by apply lookup_lt_Some in Hi.
Qed.

Lemma elem_of_removedKeys vs keep k :
  k ∈ removedKeys vs keep <-> exists i v, vs !! i = Some v /\ bget keep i = false /\ mv_key v = k.
Proof.
  unfold removedKeys. rewrite list_elem_of_omap. split.
  - intros ([i v] & Hiv & Hk). apply elem_of_zip_seq in Hiv. simpl in Hk.
    destruct (bget keep i) eqn:E; [done |]. injection Hk as <-. eauto.
  - intros (i & v & Hi & Hk & <-). exists (i, v). rewrite elem_of_zip_seq. simpl. by rewrite Hk.
Qed.

(** Fewer removals only help the other item. *)
Lemma survivor_mono e r r' : r' ⊆ r -> survivor e r = true -> survivor e r' = true.
Proof.
  unfold survivor. rewrite !existsb_elem. intros Hsub (o & Ho & Hall). exists o. split; [done |].
  rewrite forallb_elem in *. auto.
Qed.

Lemma needs_copy_mono e r r' : r' ⊆ r -> needs_copy r' e = true -> needs_copy r e = true.
Proof.
  unfold needs_copy. intros Hsub. rewrite !andb_true_iff, !negb_true_iff. intros [? H']. split; [done |].
  destruct (survivor e r) eqn:E; [| done]. apply (survivor_mono e r r' Hsub) in E. congruence.
Qed.
