(* ===== verification/Decide.v ===== *)
(** * Deciding what is kept

    [newEvaluation] and [evaluation.decide] of internal/engine/evaluate.go with
    [protectOtherServers] of crossserver.go: the ranked keepers, the
    protections, the playable copy, the same-file and other-server invariants,
    and the user's overrides. The working state of the Go struct that changes
    while deciding is the record [dstate]; every step is a function on it. *)

From S2P Require Import Prelude GoStd GoFloat Models UnionFind DiscPaths Paths Titles Versions Criteria Ranking Flags CrossServer.
Local Open Scope string_scope.
Local Open Scope Z_scope.

(** ** The evaluation *)

(** The fields of [evaluation] fixed before [decide]: ranking included. *)
Record evaluation := {
  ev_env : EvalEnv;
  ev_profile : Profile;
  ev_media_type : string;
  ev_overrides : list string;
  ev_vs : list MediaVersion;
  ev_health : list (list string);
  ev_eligible : list bool;
  ev_metrics : list metric;
  ev_watch_labels : list string;
  ev_order : list nat;
  ev_rounds : list (list (nat * elimination));
  ev_part : list string;
  ev_part_members : list (string * list nat);
  ev_keep_count : Z;
  ev_arr_names : list string;
  ev_intentional : bool;
  ev_same_comp : list nat;
  ev_same_members : list (nat * list nat);
}.

Definition ev_n (ev : evaluation) : nat := length (ev_vs ev).
Definition ev_pos (ev : evaluation) (i : nat) : nat := pos_in (ev_order ev) i.
Definition override_of (ev : evaluation) (i : nat) : string := default "" (ev_overrides ev !! i).

(** [watchLabels]: the labels of the enabled play-history criteria. *)
Definition watch_labels (ms : list metric) : list string :=
  omap (fun m => if isWatchCriterion (m_id m) then Some (m_label m) else None) ms.

Section new_evaluation.
Context `{Unicode} `{Doublestar} `{RegexSyntax}.

Definition eligible_version (v : MediaVersion) : bool := negb (isOptimized v) && negb (isUnavailable v).

Definition version_healths (mt : string) (vs : list MediaVersion) : list (list string) :=
  zip_with versionHealth vs (durationPeers mt vs).

Definition profile_metrics (p : Profile) (vs : list MediaVersion) (health : list (list string)) : list metric :=
  omap (fun c => buildMetric c vs health) (pf_criteria p).

(** [newEvaluation], [rank] and [partition], and the parts of [decide] that
    do not change afterwards. *)
Definition newEvaluation (g : DuplicateGroup) (p : Profile) (env : EvalEnv) : evaluation :=
  let vs := map gf_version (dg_files g) in
  let health := version_healths (dg_media_type g) vs in
  let pm := profile_metrics p vs health in
  let metrics := (pm ++ tiebreakMetrics vs)%list in
  let '(order, rounds) := rank vs metrics in
  let part := map (partitionOf (normKeepPer (pf_keep_per p))) vs in
  let instances := arrInstanceNames vs in
  let comp := sameFileComponents vs in
  {| ev_env := env; ev_profile := p; ev_media_type := dg_media_type g;
     ev_overrides := map gf_override (dg_files g); ev_vs := vs; ev_health := health;
     ev_eligible := map eligible_version vs; ev_metrics := metrics;
     ev_watch_labels := watch_labels pm; ev_order := order; ev_rounds := rounds;
     ev_part := part;
     ev_part_members := partMembers (fun i => default "" (part !! i)) order;
     ev_keep_count := Z.max (pf_keep_count p) 1;
     ev_arr_names := map snd instances;
     ev_intentional := env_different_arr_intentional env && (2 <=? length instances)%nat;
     ev_same_comp := comp; ev_same_members := shared_components comp |}.
End new_evaluation.

(** ** The state of [decide] *)

Record dstate := {
  st_keep : list bool;
  st_protected : list bool;
  st_reasons : list (list string);
  st_override : list bool;
  st_notes : list (list string);
}.

Definition init_state (n : nat) : dstate := {|
  st_keep := replicate n false; st_protected := replicate n false; st_reasons := replicate n [];
  st_override := replicate n false; st_notes := replicate n [];
|}.

Definition kept (st : dstate) (i : nat) : bool := bget (st_keep st) i.
Definition protected (st : dstate) (i : nat) : bool := bget (st_protected st) i.
Definition overridden (st : dstate) (i : nat) : bool := bget (st_override st) i.
Definition reasons_at (st : dstate) (i : nat) : list string := default [] (st_reasons st !! i).

Definition set_keep (i : nat) (b : bool) (st : dstate) : dstate := {|
  st_keep := bset (st_keep st) i b; st_protected := st_protected st; st_reasons := st_reasons st;
  st_override := st_override st; st_notes := st_notes st |}.
Definition set_override (i : nat) (b : bool) (st : dstate) : dstate := {|
  st_keep := st_keep st; st_protected := st_protected st; st_reasons := st_reasons st;
  st_override := bset (st_override st) i b; st_notes := st_notes st |}.

Definition addProtection (i : nat) (reason : string) (st : dstate) : dstate := {|
  st_keep := st_keep st; st_protected := bset (st_protected st) i true;
  st_reasons := alter (fun rs => if mem reason rs then rs else (rs ++ [reason])%list) i (st_reasons st);
  st_override := st_override st; st_notes := st_notes st |}.

Definition note (i : nat) (s : string) (st : dstate) : dstate := {|
  st_keep := st_keep st; st_protected := st_protected st; st_reasons := st_reasons st;
  st_override := st_override st; st_notes := alter (fun ns => (ns ++ [s])%list) i (st_notes st) |}.

(** An override the invariants undo. *)
Definition ignore_override (i : nat) (why : string) (st : dstate) : dstate :=
  note i ("Override ignored — " +:+ why) (set_override i false st).

(** [keep[i] = true] followed by [addProtection]. *)
Definition keep_protected (i : nat) (reason : string) (st : dstate) : dstate :=
  addProtection i reason (set_keep i true st).

(** ** Protections *)

Section protections.
Context `{Unicode} `{Doublestar}.

Definition matchProtection (pr : Protection) (v : MediaVersion) (libs : gmap Z Library) : option string :=
  let val := trim_space (pr_value pr) in
  if String.eqb val "" then None else
  let t := to_lower (trim_space (pr_type pr)) in
  if String.eqb t ProtectPathGlob then
    if protectionGlobMatch val (versionPaths v) then Some ("path matches " +:+ val) else None
  else if String.eqb t ProtectLibrary then
    let label := libraryLabel v libs in
    match parse_int val with
    | Some id => if id =? mv_library_id v then Some ("in library " +:+ label) else None
    | None => if equal_fold val label then Some ("in library " +:+ label) else None
    end
  else if String.eqb t ProtectArrInstance then
    match mv_arr v with
    | Some a => if arrMatches (mv_arr v) val then Some ("tracked by " +:+ arrName a) else None
    | None => None
    end
  else if String.eqb t ProtectArrTag then
    match mv_arr v with
    | Some a => if existsb (fun tag => equal_fold (trim_space tag) val) (af_tags a)
                then Some ("*arr tag " +:+ val) else None
    | None => None
    end
  else None.

Definition protectionReasons (ev : evaluation) (v : MediaVersion) : list string :=
  ((if isOptimized v then ["Plex optimized version (never touched)"] else []) ++
   (if isUnavailable v then
      if readOnlyVersion v then ["the file is missing on disk (not acted on)"]
      else ["the media server reports the file as missing (not acted on)"] else []) ++
   multiEpisodeReasons v ++
   shortcutReasons v ++
   discProtectionReasons (ev_media_type ev) v (ev_env ev) ++
   (match discMemberPath v with
    | Some p => ["its file " +:+ p +:+ " lies inside a full-disc backup (a disc is only ever removed as a whole)"]
    | None => []
    end) ++
   (match mv_arr v with
    | Some a => if ev_intentional ev && negb (af_instance_id a =? 0) then
        ["tracked by " +:+ arrName a +:+
         " — versions tracked by different *arr instances are treated as intentional"] else []
    | None => []
    end) ++
   omap (fun pr => matchProtection pr v (env_libraries (ev_env ev))) (pf_protections (ev_profile ev)))%list.

(** A report-only reason of any version protects every version. *)
Definition reportOnlyProtection (vs : list MediaVersion) : list string :=
  match reportOnlyReasons vs with
  | [] => []
  | ro => ["report only: " +:+ join "; " ro]
  end.

Definition initial_reasons (ev : evaluation) (v : MediaVersion) : list string :=
  (protectionReasons ev v ++ reportOnlyProtection (ev_vs ev))%list.
End protections.

(** ** The steps of [decide] *)

(** [plexPlayable]. *)
Definition plexPlayable `{Unicode} (v : MediaVersion) : bool := negb (IsDisc v) && negb (in_disc v).

Definition playableReason : string :=
  "kept so Plex has a playable copy (the best version is a full disc, which Plex cannot play; Settings → Media Management → Always Keep a Plex-Playable Copy)".

Section steps.
Context `{Unicode} `{Doublestar} (ev : evaluation).

Definition eligible (i : nat) : bool := bget (ev_eligible ev) i.

(** The top [keepCount] eligible members of one partition. *)
Definition rank_keep_members (rk : list bool) (members : list nat) : list bool :=
  fst (foldl (fun '(rk, k) i =>
    if eligible i && (k <? ev_keep_count ev) then (bset rk i true, k + 1) else (rk, k))
    (rk, 0) members).
Definition rankKeep : list bool :=
  foldl rank_keep_members (replicate (ev_n ev) false) (map snd (ev_part_members ev)).

(** The first loop of [decide]. *)
Definition protect_initial (i : nat) (st : dstate) : dstate :=
  match ev_vs ev !! i with
  | Some v =>
    let st := foldl (fun st r => addProtection i r st) st (initial_reasons ev v) in
    set_keep i (bget rankKeep i || protected st i) st
  | None => st
  end.
Definition initial_decisions : dstate :=
  for_range (ev_n ev) protect_initial (init_state (ev_n ev)).

(** *** [keepPlayable] *)

Definition playable_at (i : nat) : bool :=
  match ev_vs ev !! i with Some v => plexPlayable v | None => false end.

Definition keep_playable_part (afterOverrides : bool) (st : dstate) (part : string * list nat) : dstate :=
  let members := snd part in
  let kept_members := List.filter (fun i => kept st i && eligible i) members in
  if (length kept_members =? 0)%nat || existsb playable_at kept_members then st else
  match find (fun i => eligible i && playable_at i && negb (kept st i)) members with
  | None => st
  | Some i =>
    let st := if afterOverrides && overridden st i
      then ignore_override i "it would leave only a full disc, which Plex cannot play" st else st in
    keep_protected i playableReason st
  end.
Definition keepPlayable (afterOverrides : bool) (st : dstate) : dstate :=
  if negb (env_keep_playable_copy (ev_env ev)) then st else
  foldl (keep_playable_part afterOverrides) st
    (stable_sort (fun a b => str_lt (fst a) (fst b)) (ev_part_members ev)).

(** *** [protectSameFile] *)

Definition asks_remove (i : nat) : bool := equal_fold (trim_space (override_of ev i)) DecisionRemove.

(** The best-ranked kept member. *)
Definition same_file_keeper (st : dstate) (members : list nat) : option nat :=
  foldl (fun keeper i =>
    if kept st i && match keeper with None => true | Some k => (ev_pos ev i <? ev_pos ev k)%nat end
    then Some i else keeper) None members.

Definition protect_same_member (afterOverrides : bool) (keeper : nat) (st : dstate) (i : nat) : dstate :=
  if (i =? keeper)%nat then st else
  let st := if afterOverrides && negb (kept st i) && asks_remove i
    then ignore_override i "same file as a kept version" st else st in
  keep_protected i ("same file as " +:+ key_of (ev_vs ev) keeper +:+ " (kept)") st.

Definition protect_same_component (afterOverrides : bool) (st : dstate) (comp : nat * list nat) : dstate :=
  match same_file_keeper st (snd comp) with
  | None => st
  | Some keeper => foldl (protect_same_member afterOverrides keeper) st (snd comp)
  end.
Definition protectSameFile (afterOverrides : bool) (st : dstate) : dstate :=
  foldl (protect_same_component afterOverrides) st (ev_same_members ev).

(** *** [protectOtherServers] *)

(** The first listing that needs version [i]. *)
Definition needing_listing (removed : list string) (st : dstate) (i : nat) : option OtherListing :=
  if kept st i then None else
  match ev_vs ev !! i with
  | Some v => find (needs_copy removed) (mv_other_servers v)
  | None => None
  end.

Definition protect_other_version (afterOverrides : bool) (removed : list string) (i : nat)
    (acc : dstate * bool) : dstate * bool :=
  let '(st, changed) := acc in
  match needing_listing removed st i with
  | None => (st, changed)
  | Some e =>
    let st := if afterOverrides && asks_remove i
      then ignore_override i ("removing it would leave " +:+ serverLabel e +:+ " without a copy") st else st in
    (keep_protected i (onlyCopyReason e) st, true)
  end.
Definition protectOtherServers (afterOverrides : bool) (st : dstate) : dstate * bool :=
  for_range (ev_n ev) (protect_other_version afterOverrides (removedKeys (ev_vs ev) (st_keep st))) (st, false).

(** [for ev.protectOtherServers(..) { ev.protectSameFile(..) }] *)
Fixpoint other_servers_loop (fuel : nat) (afterOverrides : bool) (st : dstate) : dstate :=
  match fuel with
  | O => st
  | S fuel' =>
    let '(st', changed) := protectOtherServers afterOverrides st in
    if changed then other_servers_loop fuel' afterOverrides (protectSameFile afterOverrides st') else st'
  end.

(** Every pass that changes something keeps one more version. *)
Definition loop_fuel : nat := S (ev_n ev).

Definition enforce (afterOverrides : bool) (st : dstate) : dstate :=
  other_servers_loop loop_fuel afterOverrides
    (protectSameFile afterOverrides (keepPlayable afterOverrides st)).

(** *** The user's overrides *)

Definition apply_override (i : nat) (acc : dstate * list nat) : dstate * list nat :=
  let '(st, keepers) := acc in
  let raw := trim_space (override_of ev i) in
  let d := to_lower raw in
  if String.eqb d "" then acc
  else if String.eqb d DecisionKeep then
    if negb (kept st i) then (set_override i true (set_keep i true st), keepers)
    else (note i "Manual override: keep (same as the profile)" st, keepers)
  else if String.eqb d DecisionRemove then
    if protected st i then
      (note i ("Override ignored — the version is protected (" +:+ join "; " (reasons_at st i) +:+ ")") st, keepers)
    else if kept st i then (set_override i true (set_keep i false st), (keepers ++ [i])%list)
    else (note i "Manual override: remove (same as the profile)" st, keepers)
  else (note i ("Override ignored — invalid value " +:+ quote raw) st, keepers).

Definition countEligibleKept (st : dstate) : nat :=
  length (List.filter (fun i => kept st i && eligible i) (seq 0 (ev_n ev))).

Definition restore_keepers (keepers : list nat) (st : dstate) : dstate :=
  foldl (fun st i =>
    if eligible i then note i "Override ignored — it would leave no version to keep"
      (set_override i false (set_keep i true st))
    else st) st keepers.

Definition apply_overrides (st : dstate) : dstate :=
  let '(st, keepers) := for_range (ev_n ev) apply_override (st, []) in
  if (countEligibleKept st =? 0)%nat then restore_keepers keepers st else st.

(** [decide]: the engine's own decisions and the effective state. *)
Definition engine_state : dstate := enforce false initial_decisions.
Definition ev_decide : dstate := enforce true (apply_overrides engine_state).
Definition engineKeep : list bool := st_keep engine_state.
End steps.
