(* ===== verification/DecideFacts.v ===== *)
(** * Facts about deciding

    The library behind the safety theorems: every step after the first loop
    only adds keepers (overrides aside), protected versions stay kept, the
    same-file and other-server passes establish their invariants, and the
    other-server loop ends within its fuel. *)

From S2P Require Import Prelude GoStd GoFloat Models UnionFind DiscPaths Paths Titles Versions Criteria Ranking Flags CrossServer Decide.

(** ** Growing states *)

(** Lengths match and a protected version is kept. *)
Record st_wf (n : nat) (st : dstate) : Prop := {
  wf_keep : length (st_keep st) = n;
  wf_protected : length (st_protected st) = n;
  wf_kept : forall i, protected st i = true -> kept st i = true;
}.

(** Nothing kept or protected is given up. *)
Record grows (n : nat) (st st' : dstate) : Prop := {
  gr_len : length (st_keep st') = length (st_keep st);
  gr_wf : st_wf n st -> st_wf n st';
  gr_keep : forall i, kept st i = true -> kept st' i = true;
  gr_prot : forall i, protected st i = true -> protected st' i = true;
}.

#[export] Instance grows_preorder n : PreOrder (grows n).
Proof.
  split.
  - intros st. by split.
  - intros a b c [] []. split; auto. congruence.
Qed.

Lemma foldl_grows {A} n (f : dstate -> A -> dstate) l st :
  (forall st x, x ∈ l -> grows n st (f st x)) -> grows n st (foldl f st l).
Proof.
  intros Hf. apply (foldl_inv f (grows n st)); [reflexivity |].
  intros b x Hx Hb. etransitivity; [exact Hb | by apply Hf].
Qed.

Lemma grows_same n st st' :
  st_keep st' = st_keep st -> st_protected st' = st_protected st -> grows n st st'.
Proof.
  intros Hk Hp. unfold kept, protected. split; unfold kept, protected; rewrite ?Hk, ?Hp; try done.
  intros []. split; unfold kept, protected; rewrite ?Hk, ?Hp; done.
Qed.

Lemma grows_note n i s st : grows n st (note i s st).
Proof. by apply grows_same. Qed.
Lemma grows_ignore n i s st : grows n st (ignore_override i s st).
Proof. by apply grows_same. Qed.

Lemma kept_keep_protected_eq i r st :
  i < length (st_keep st) -> kept (keep_protected i r st) i = true.
Proof. intros Hi. unfold kept. simpl. by apply bget_bset_eq. Qed.

Lemma kept_keep_protected_ne i r st j :
  i <> j -> kept (keep_protected i r st) j = kept st j.
Proof. intros Hi. unfold kept. simpl. by apply bget_bset_ne. Qed.

Lemma grows_keep_protected n i r st : grows n st (keep_protected i r st).
Proof.
  split.
  - simpl. by autorewrite with dup_len.
  - intros [Hk Hp Hw]. split; simpl; autorewrite with dup_len; try done.
    intros j. unfold protected, kept. simpl. intros Hj.
    destruct (decide (i = j)) as [->|Hne].
    + apply bget_lt in Hj. autorewrite with dup_len in Hj. apply bget_bset_eq. lia.
    + rewrite bget_bset_ne in Hj |- * by done. by apply Hw.
  - intros j. unfold kept. simpl. apply bget_bset_true.
  - intros j. unfold protected. simpl. apply bget_bset_true.
Qed.

Create HintDb grow discriminated.
#[export] Hint Resolve grows_note grows_ignore grows_keep_protected grows_same : grow.
#[export] Hint Extern 1 (grows _ ?s ?s) => reflexivity : grow.

(** [if b then ignore_override .. else st], then [keep_protected]. *)
Lemma grows_forced n (b : bool) i why r st :
  grows n st (keep_protected i r (if b then ignore_override i why st else st)).
Proof.
  etransitivity; [| apply grows_keep_protected]. destruct b; auto with grow.
Qed.
#[export] Hint Resolve grows_forced : grow.

Section facts.
Context `{Unicode} `{Doublestar} (ev : evaluation).
Notation n := (ev_n ev).

(** ** Growth of the steps *)

Lemma grows_keepPlayable after st : grows n st (keepPlayable ev after st).
Proof.
  unfold keepPlayable. case_goal; [reflexivity |]. apply foldl_grows. intros st' part _.
  unfold keep_playable_part. case_goal; [reflexivity |].
  destruct (find _ _); [apply grows_forced | reflexivity].
Qed.

Lemma grows_same_member after k st i : grows n st (protect_same_member ev after k st i).
Proof. unfold protect_same_member. case_goal; auto with grow. Qed.

Lemma grows_same_component after st cm : grows n st (protect_same_component ev after st cm).
Proof.
  unfold protect_same_component. case_goal; [| reflexivity].
  apply foldl_grows. intros. apply grows_same_member.
Qed.

Lemma grows_protectSameFile after st : grows n st (protectSameFile ev after st).
Proof. apply foldl_grows. intros. apply grows_same_component. Qed.

Lemma grows_other_version after removed i acc :
  grows n (fst acc) (fst (protect_other_version ev after removed i acc)).
Proof.
  destruct acc as [st c]. unfold protect_other_version.
  destruct (needing_listing _ _ _ _); simpl; [apply grows_forced | reflexivity].
Qed.

Lemma grows_protectOtherServers after st : grows n st (fst (protectOtherServers ev after st)).
Proof.
  unfold protectOtherServers, for_range.
  apply (foldl_inv _ (fun acc => grows n st (fst acc))); [reflexivity |].
  intros acc i _ Hacc. etransitivity; [exact Hacc | apply grows_other_version].
Qed.

Lemma grows_other_servers_loop fuel after st : grows n st (other_servers_loop ev fuel after st).
Proof.
  revert st. induction fuel as [|fuel IH]; intros st; simpl; [reflexivity |].
  pose proof (grows_protectOtherServers after st) as Hg.
  destruct (protectOtherServers ev after st) as [st' []]; simpl in Hg; [| done].
  etransitivity; [exact Hg |]. etransitivity; [apply grows_protectSameFile | apply IH].
Qed.

Lemma grows_enforce after st : grows n st (enforce ev after st).
Proof.
  unfold enforce. etransitivity; [apply grows_keepPlayable |].
  etransitivity; [apply grows_protectSameFile | apply grows_other_servers_loop].
Qed.
End facts.

#[export] Hint Resolve grows_keepPlayable grows_protectSameFile grows_protectOtherServers
  grows_other_servers_loop grows_enforce grows_same_component grows_same_member : grow.

(** ** The same-file invariant *)

Section same_file.
Context `{Unicode} (ev : evaluation).
Notation n := (ev_n ev).

(** One member kept means all kept. *)
Definition closed_in (ms : list nat) (st : dstate) : Prop :=
  forall i j, i ∈ ms -> j ∈ ms -> kept st i = true -> kept st j = true.

Lemma same_file_keeper_spec st ms :
  match same_file_keeper ev st ms with
  | Some k => k ∈ ms /\ kept st k = true
  | None => forall i, i ∈ ms -> kept st i = false
  end.
Proof.
  unfold same_file_keeper. induction ms as [|x ms IH] using rev_ind; [set_solver |].
  rewrite foldl_app. simpl. destruct (foldl _ None ms) as [k|].
  - destruct IH as [Hk Hkept]. destruct (kept st x) eqn:Ex; simpl; [case_goal |]; set_solver.
  - destruct (kept st x) eqn:Ex; simpl; [set_solver |].
    intros i Hi. apply elem_of_app in Hi as [Hi| ->%list_elem_of_singleton]; [by apply IH | done].
Qed.

Lemma same_component_outside after st c ms i :
  i ∉ ms -> kept (protect_same_component ev after st (c, ms)) i = kept st i.
Proof.
  intros Hi. unfold protect_same_component. simpl. destruct (same_file_keeper ev st ms); [| done].
  apply (foldl_inv _ (fun st' => kept st' i = kept st i)); [done |].
  intros st' x Hx IH. unfold protect_same_member. case_goal; [done |].
  rewrite kept_keep_protected_ne by (intros ->; done). by case_goal.
Qed.

Lemma same_component_closed after st c ms :
  (forall i, i ∈ ms -> i < length (st_keep st)) ->
  closed_in ms (protect_same_component ev after st (c, ms)).
Proof.
  intros Hlt i j Hi Hj Hkept. unfold protect_same_component in *. simpl in *.
  pose proof (same_file_keeper_spec st ms) as Hk.
  destruct (same_file_keeper ev st ms) as [k|]; [| by rewrite Hk in Hkept].
  destruct Hk as [Hkin Hkk].
  set (st' := foldl _ st ms).
  assert (Hg : grows n st st') by (apply foldl_grows; auto with grow).
  destruct (decide (j = k)) as [->|Hne]; [by apply (gr_keep _ _ _ Hg) |].
  assert (HQ : j < length (st_keep st') -> kept st' j = true).
  { unfold st'. apply (foldl_establish (protect_same_member ev after k)
      (fun j st => j <> k -> j < length (st_keep st) -> kept st j = true)); try done.
    - intros b x _ Hx. unfold protect_same_member. destruct (Nat.eqb_spec x k); [done |].
      intros Hlen. apply kept_keep_protected_eq. simpl in Hlen.
      autorewrite with dup_len in Hlen. done.
    - intros b x y _ _ HIH Hy Hlen.
      pose proof (grows_same_member ev after k b x) as Hgm.
      apply (gr_keep _ _ _ Hgm). apply HIH; [done |]. by rewrite (gr_len _ _ _ Hgm) in Hlen. }
  apply HQ. rewrite (gr_len _ _ _ Hg). by apply Hlt.
Qed.

(** [protectSameFile] leaves no component half kept. *)
Lemma protectSameFile_closed after st c ms :
  length (st_keep st) = length (ev_same_comp ev) ->
  ev_same_members ev = shared_components (ev_same_comp ev) ->
  (c, ms) ∈ ev_same_members ev -> closed_in ms (protectSameFile ev after st).
Proof.
  intros Hlen Hmem Hin. unfold protectSameFile.
  assert (Hlt : forall c ms i, (c, ms) ∈ ev_same_members ev -> i ∈ ms -> i < length (ev_same_comp ev)).
  { rewrite Hmem. intros c' ms' i [-> _]%elem_of_shared_components Hi.
    apply elem_of_members_of, lookup_lt_Some in Hi. done. }
  pose proof (foldl_establish (protect_same_component ev after)
    (fun cm st => length (st_keep st) = length (ev_same_comp ev) -> closed_in (snd cm) st)
    (ev_same_members ev) st) as He. apply (fun H1 H2 => He H1 H2 (c, ms) Hin).
  - intros b [c' ms'] Hx Hb. apply same_component_closed.
    intros i Hi. rewrite (gr_len _ _ _ (grows_same_component ev after b (c', ms'))) in Hb. rewrite Hb.
    by eapply Hlt.
  - intros b [c1 ms1] [c2 ms2] Hx Hy IH Hb. simpl in *.
    rewrite (gr_len _ _ _ (grows_same_component ev after b (c1, ms1))) in Hb.
    destruct (decide (c1 = c2)) as [->|Hne].
    + rewrite Hmem in Hx, Hy. apply elem_of_shared_components in Hx as [-> _].
      apply elem_of_shared_components in Hy as [-> Hl].
      apply same_component_closed. intros i Hi. rewrite Hb.
      apply elem_of_members_of, lookup_lt_Some in Hi. done.
    + rewrite Hmem in Hx, Hy. apply elem_of_shared_components in Hx as [-> _].
      apply elem_of_shared_components in Hy as [-> Hl].
      intros i j Hi Hj. rewrite !same_component_outside; [by apply IH | |];
        rewrite elem_of_members_of in *; congruence.
  - rewrite (gr_len _ _ _ (foldl_grows n _ _ _ (fun st x _ => grows_same_component ev after st x))).
    done.
Qed.
End same_file.

(** ** The other-server invariant and the end of its loop *)

Section other_servers.
Context `{Unicode} `{Doublestar} (ev : evaluation).
Notation n := (ev_n ev).
Notation vs := (ev_vs ev).

(** No removed version has a listing that needs it. *)
Definition closed_other (st : dstate) : Prop := forall i v e,
  vs !! i = Some v -> kept st i = false -> e ∈ mv_other_servers v ->
  needs_copy (removedKeys vs (st_keep st)) e = false.

(** Every same-file component is all kept or all removed. *)
Definition closed_same (st : dstate) : Prop := forall c ms,
  (c, ms) ∈ ev_same_members ev -> closed_in ms st.

Lemma protect_other_version_eq after removed i st c :
  protect_other_version ev after removed i (st, c) =
  match needing_listing ev removed st i with
  | None => (st, c)
  | Some e => (keep_protected i (onlyCopyReason e)
      (if after && asks_remove ev i
       then ignore_override i ("removing it would leave " +:+ serverLabel e +:+ " without a copy")%string st
       else st), true)
  end.
Proof. done. Qed.

Lemma other_fold_unchanged after removed l st c :
  let r := foldl (fun acc i => protect_other_version ev after removed i acc) (st, c) l in
  snd r = false -> c = false /\ fst r = st /\ forall i, i ∈ l -> needing_listing ev removed st i = None.
Proof.
  revert st c. induction l as [|i l IH]; intros st c; cbn zeta.
  - simpl. intros ->. split_and!; [done | done | set_solver].
  - cbn [foldl]. rewrite protect_other_version_eq.
    destruct (needing_listing ev removed st i) as [e|] eqn:E; intros Hr.
    + apply IH in Hr as [? _]. done.
    + apply IH in Hr as (-> & Hst & Hall). split_and!; [done | done |].
      intros j [Hj|Hj]%elem_of_cons; [by rewrite Hj | by apply Hall].
Qed.

Lemma other_fold_changed after removed l st c :
  let r := foldl (fun acc i => protect_other_version ev after removed i acc) (st, c) l in
  length (st_keep st) = n -> snd r = true ->
  c = true \/ exists i, i < n /\ kept st i = false /\ kept (fst r) i = true.
Proof.
  revert st c. induction l as [|i l IH]; intros st c; cbn zeta; [by left |].
  cbn [foldl]. rewrite protect_other_version_eq.
  destruct (needing_listing ev removed st i) as [e|] eqn:E; intros Hlen Hr; [| by eapply IH].
  right. unfold needing_listing in E. destruct (kept st i) eqn:Ek; [done |].
  destruct (vs !! i) as [v|] eqn:Ev; [| done]. apply lookup_lt_Some in Ev.
  exists i. split_and!; [done | done |].
  set (s1 := keep_protected i _ _). set (c1 := foldl _ _ l).
  assert (Hg : grows n s1 (fst c1)).
  { apply (foldl_inv _ (fun acc => grows n s1 (fst acc))); [reflexivity |].
    intros acc j _ Hacc. etransitivity; [exact Hacc | apply grows_other_version]. }
  apply (gr_keep _ _ _ Hg). apply kept_keep_protected_eq.
  case_goal; simpl; unfold ev_n in *; lia.
Qed.

Lemma protectOtherServers_unchanged after st :
  snd (protectOtherServers ev after st) = false ->
  fst (protectOtherServers ev after st) = st /\ closed_other st.
Proof.
  unfold protectOtherServers, for_range. intros Hr.
  apply other_fold_unchanged in Hr as (_ & Hst & Hall). split; [done |].
  intros i v e Hi Hk He. specialize (Hall i). unfold needing_listing in Hall.
  rewrite Hk, Hi in Hall. apply not_true_iff_false. intros Hn.
  assert (i ∈ seq 0 n) as Hin by (apply elem_of_seq; apply lookup_lt_Some in Hi; unfold ev_n; lia).
  specialize (Hall Hin). eapply find_none in Hall; [| by apply list_elem_of_In]. congruence.
Qed.

Definition unkept (st : dstate) : nat := length (List.filter (fun i => negb (kept st i)) (seq 0 n)).

Lemma filter_le {A} (f g : A -> bool) l :
  (forall x, f x = true -> g x = true) -> length (List.filter f l) <= length (List.filter g l).
Proof.
  intros Hfg. induction l as [|x l IH]; simpl; [done |].
  destruct (f x) eqn:E; [rewrite (Hfg _ E); simpl; lia |]. destruct (g x); simpl; lia.
Qed.

Lemma filter_lt {A} (f g : A -> bool) l x :
  (forall x, f x = true -> g x = true) -> x ∈ l -> f x = false -> g x = true ->
  length (List.filter f l) < length (List.filter g l).
Proof.
  intros Hfg Hx Hf Hg. apply list_elem_of_split in Hx as (l1 & l2 & ->).
  rewrite !List.filter_app. simpl. rewrite Hf, Hg, !length_app. simpl.
  pose proof (filter_le f g l1 Hfg). pose proof (filter_le f g l2 Hfg). lia.
Qed.

Lemma unkept_le st : unkept st <= n.
Proof. unfold unkept. rewrite List.filter_length_le, length_seq. done. Qed.

Lemma unkept_grows st st' : grows n st st' -> unkept st' <= unkept st.
Proof.
  intros Hg. apply filter_le. intros i Hi. destruct (kept st i) eqn:E; [| done].
  by rewrite (gr_keep _ _ _ Hg _ E) in Hi.
Qed.

Lemma unkept_changed after st :
  length (st_keep st) = n -> snd (protectOtherServers ev after st) = true ->
  unkept (fst (protectOtherServers ev after st)) < unkept st.
Proof.
  intros Hlen Hr. pose proof (grows_protectOtherServers ev after st) as Hg.
  apply other_fold_changed in Hr as [?|(i & Hi & Hk & Hk')]; [done | | done].
  apply (filter_lt _ _ _ i); [| apply elem_of_seq; lia | by apply negb_false_iff | by rewrite Hk].
  intros j Hj. destruct (kept st j) eqn:E; [| done].
  by rewrite (gr_keep _ _ _ Hg _ E) in Hj.
Qed.

(** The loop stops by itself: another pass would change nothing, and both
    invariants hold. *)
Lemma other_servers_loop_spec fuel after st :
  length (st_keep st) = n -> length (ev_same_comp ev) = n ->
  ev_same_members ev = shared_components (ev_same_comp ev) ->
  closed_same st -> unkept st < fuel ->
  let st' := other_servers_loop ev fuel after st in
  snd (protectOtherServers ev after st') = false /\ closed_other st' /\ closed_same st'.
Proof.
  revert st. induction fuel as [|fuel IH]; intros st Hlen Hc Hm Hs Hf; [lia |]. cbn zeta. simpl.
  pose proof (grows_protectOtherServers ev after st) as Hg.
  pose proof (unkept_changed after st Hlen) as Hu.
  pose proof (protectOtherServers_unchanged after st) as Hn.
  destruct (protectOtherServers ev after st) as [st1 b] eqn:E. simpl in *. destruct b.
  - pose proof (grows_protectSameFile ev after st1) as Hg2. apply IH; try done.
    + by rewrite (gr_len _ _ _ Hg2), (gr_len _ _ _ Hg).
    + intros c ms Hin. apply (protectSameFile_closed ev after st1 c ms); try done.
      by rewrite (gr_len _ _ _ Hg), Hlen.
    + apply unkept_grows in Hg2. specialize (Hu eq_refl). lia.
  - destruct Hn as [-> Ho]; [done |]. rewrite E. done.
Qed.

(** Both invariants hold after the enforcement passes. *)
Lemma enforce_spec after st :
  length (st_keep st) = n -> length (ev_same_comp ev) = n ->
  ev_same_members ev = shared_components (ev_same_comp ev) ->
  let st' := enforce ev after st in
  snd (protectOtherServers ev after st') = false /\ closed_other st' /\ closed_same st'.
Proof.
  intros Hlen Hc Hm. unfold enforce.
  pose proof (grows_keepPlayable ev after st) as Hg1. set (s1 := keepPlayable ev after st) in *.
  pose proof (grows_protectSameFile ev after s1) as Hg2.
  apply other_servers_loop_spec; try done.
  - by rewrite (gr_len _ _ _ Hg2), (gr_len _ _ _ Hg1).
  - intros c ms Hin. apply (protectSameFile_closed ev after s1 c ms); try done.
    by rewrite (gr_len _ _ _ Hg1), Hlen.
  - unfold loop_fuel. pose proof (unkept_le (protectSameFile ev after s1)). lia.
Qed.
End other_servers.

(** ** Well-formed evaluations *)

Record ev_ok `{Unicode} (ev : evaluation) : Prop := {
  eo_comp : ev_same_comp ev = sameFileComponents (ev_vs ev);
  eo_members : ev_same_members ev = shared_components (ev_same_comp ev);
  eo_eligible : ev_eligible ev = map eligible_version (ev_vs ev);
  eo_parts : ev_part_members ev = partMembers (fun i => default ""%string (ev_part ev !! i)) (ev_order ev);
  eo_order : ev_order ev ≡ₚ seq 0 (ev_n ev);
  eo_count : (1 <= ev_keep_count ev)%Z;
}.

Lemma newEvaluation_ok `{Unicode} `{Doublestar} `{RegexSyntax} g p env : ev_ok (newEvaluation g p env).
Proof.
  unfold newEvaluation. set (vs := map gf_version _). set (ms := (_ ++ tiebreakMetrics vs)%list).
  pose proof (rank_order_Permutation vs ms) as Hr.
  destruct (rank vs ms) as [order rounds]. simpl in Hr.
  split; simpl; try done. lia.
Qed.

Lemma newEvaluation_vs `{Unicode} `{Doublestar} `{RegexSyntax} g p env :
  ev_vs (newEvaluation g p env) = map gf_version (dg_files g).
Proof. unfold newEvaluation. by destruct (rank _ _). Qed.

Lemma newEvaluation_fields `{Unicode} `{Doublestar} `{RegexSyntax} g p env :
  ev_keep_count (newEvaluation g p env) = Z.max (pf_keep_count p) 1 /\
  ev_env (newEvaluation g p env) = env /\ ev_profile (newEvaluation g p env) = p /\
  ev_media_type (newEvaluation g p env) = dg_media_type g.
Proof. unfold newEvaluation. by destruct (rank _ _). Qed.

(** ** The ranked keepers *)

Section rank_keep.
Context `{Unicode} (ev : evaluation).
Notation n := (ev_n ev).

(** The first [keepCount] eligible versions of a partition. *)
Definition top_eligible (ms : list nat) : list nat :=
  take (Z.to_nat (ev_keep_count ev)) (List.filter (eligible ev) ms).

Lemma rank_keep_members_from (ms : list nat) rk (k : Z) i :
  (0 <= k)%Z -> (forall j, j ∈ ms -> j < length rk) ->
  let rk' := fst (foldl (fun '(rk, k) i =>
    if eligible ev i && (k <? ev_keep_count ev)%Z then (bset rk i true, (k + 1)%Z) else (rk, k)) (rk, k) ms) in
  length rk' = length rk /\
  (bget rk' i = true <->
   bget rk i = true \/ i ∈ take (Z.to_nat (ev_keep_count ev - k)) (List.filter (eligible ev) ms)).
Proof.
  revert rk k. induction ms as [|j ms IH]; intros rk k Hk Hlt; cbn zeta.
  { simpl. rewrite take_nil. set_solver. }
  cbn [foldl]. simpl List.filter. destruct (eligible ev j) eqn:Ej; simpl; [| apply IH; set_solver].
  destruct (Z.ltb_spec k (ev_keep_count ev)).
  - destruct (IH (bset rk j true) (k + 1)%Z) as [H1 H2]; [lia | autorewrite with dup_len; set_solver |].
    autorewrite with dup_len in H1. split; [done |]. rewrite H2.
    replace (Z.to_nat (ev_keep_count ev - k)) with (S (Z.to_nat (ev_keep_count ev - (k + 1)))) by lia.
    simpl. rewrite elem_of_cons.
    destruct (decide (i = j)) as [->|Hne].
    + rewrite bget_bset_eq by set_solver. tauto.
    + rewrite bget_bset_ne by done. tauto.
  - destruct (IH rk k) as [H1 H2]; [lia | set_solver |]. split; [done |]. rewrite H2.
    replace (Z.to_nat (ev_keep_count ev - k)) with 0%nat by lia. done.
Qed.

Lemma rankKeep_parts parts rk i :
  (forall ms j, ms ∈ parts -> j ∈ ms -> j < length rk) ->
  length (foldl (rank_keep_members ev) rk parts) = length rk /\
  (bget (foldl (rank_keep_members ev) rk parts) i = true <->
   bget rk i = true \/ exists ms, ms ∈ parts /\ i ∈ top_eligible ms).
Proof.
  revert rk. induction parts as [|ms parts IH]; intros rk Hlt; simpl; [set_solver |].
  destruct (rank_keep_members_from ms rk 0 i) as [H1 H2]; [lia | set_solver |].
  fold (rank_keep_members ev rk ms) in H1, H2. rewrite Z.sub_0_r in H2.
  fold (top_eligible ms) in H2.
  destruct (IH (rank_keep_members ev rk ms)) as [H3 H4]; [rewrite H1; set_solver |].
  split; [congruence |]. rewrite H4, H2. setoid_rewrite elem_of_cons. naive_solver.
Qed.

Context (Hok : ev_ok ev).

Lemma part_members_lt k ms i : (k, ms) ∈ ev_part_members ev -> i ∈ ms -> i < n.
Proof.
  rewrite (eo_parts _ Hok). intros [-> _]%elem_of_partMembers Hi.
  apply list_elem_of_In, filter_In in Hi as [Hi _]. apply list_elem_of_In in Hi.
  rewrite (eo_order _ Hok), elem_of_seq in Hi. lia.
Qed.

(** [rankKeep]: the top eligible versions of every partition. *)
Lemma rankKeep_spec i :
  length (rankKeep ev) = n /\
  (bget (rankKeep ev) i = true <-> exists k ms, (k, ms) ∈ ev_part_members ev /\ i ∈ top_eligible ms).
Proof.
  destruct (rankKeep_parts (map snd (ev_part_members ev)) (replicate n false) i) as [H1 H2].
  { intros ms j ([k ms'] & -> & Hin)%list_elem_of_fmap Hj. rewrite length_replicate.
    by eapply part_members_lt. }
  rewrite length_replicate in H1. split; [exact H1 |]. unfold rankKeep. rewrite H2, bget_replicate.
  split.
  - intros [?|(ms & ([k ms'] & -> & Hin)%list_elem_of_fmap & Hi)]; [done | eauto].
  - intros (k & ms & Hin & Hi). right. exists ms. split; [| done].
    apply list_elem_of_fmap. by exists (k, ms).
Qed.

Lemma eligible_spec i v : ev_vs ev !! i = Some v -> eligible ev i = eligible_version v.
Proof.
  intros Hi. unfold eligible, bget. rewrite (eo_eligible _ Hok), list_lookup_fmap, Hi. done.
Qed.

(** An eligible version's partition has a ranked keeper. *)
Lemma rankKeep_exists i : i < n -> eligible ev i = true ->
  exists j, eligible ev j = true /\ bget (rankKeep ev) j = true.
Proof.
  intros Hi He.
  destruct (partMembers_part (fun i => default ""%string (ev_part ev !! i)) (ev_order ev) i) as (ms & Hin & Hm).
  { rewrite (eo_order _ Hok), elem_of_seq. lia. }
  rewrite <- (eo_parts _ Hok) in Hin.
  assert (Hf : i ∈ List.filter (eligible ev) ms).
  { apply list_elem_of_In, filter_In. split; [by apply list_elem_of_In | done]. }
  destruct (List.filter (eligible ev) ms) as [|j l] eqn:E; [by apply elem_of_nil in Hf |].
  exists j. split.
  - assert (j ∈ List.filter (eligible ev) ms) as Hj by (rewrite E; set_solver).
    apply list_elem_of_In, filter_In in Hj as [_ ?]. done.
  - apply rankKeep_spec. do 2 eexists. split; [exact Hin |]. unfold top_eligible. rewrite E.
    pose proof (eo_count _ Hok). destruct (Z.to_nat (ev_keep_count ev)) eqn:Ek; [lia |]. set_solver.
Qed.
End rank_keep.

(** ** The first loop, the overrides and the whole of [decide] *)

Section decide_facts.
Context `{Unicode} `{Doublestar} (ev : evaluation).
Notation n := (ev_n ev).
Notation vs := (ev_vs ev).

Lemma add_all_protected i rs st :
  let st' := foldl (fun st r => addProtection i r st) st rs in
  st_keep st' = st_keep st /\ length (st_protected st') = length (st_protected st) /\
  (forall j, j <> i -> protected st' j = protected st j) /\
  (rs <> [] -> i < length (st_protected st) -> protected st' i = true).
Proof.
  induction rs as [|r rs IH] using rev_ind; cbn zeta; [done |].
  rewrite foldl_app. simpl. set (st' := foldl _ st rs) in *.
  destruct IH as (H1 & H2 & H3 & H4). split_and!; try done.
  - by autorewrite with dup_len.
  - intros j Hj. rewrite <- H3 by done. unfold protected. simpl. by apply bget_bset_ne.
  - intros _ Hlt. unfold protected. simpl. apply bget_bset_eq. lia.
Qed.

(** What the first loop leaves for each version. *)
Definition initial_at (i : nat) (st : dstate) : Prop :=
  length (st_keep st) = n -> length (st_protected st) = n ->
  kept st i = bget (rankKeep ev) i || protected st i /\
  (forall v, vs !! i = Some v -> initial_reasons ev v <> [] -> protected st i = true).

Lemma protect_initial_lengths i st :
  length (st_keep (protect_initial ev i st)) = length (st_keep st) /\
  length (st_protected (protect_initial ev i st)) = length (st_protected st).
Proof.
  unfold protect_initial. destruct (vs !! i) as [v|]; [| done].
  destruct (add_all_protected i (initial_reasons ev v) st) as (H1 & H2 & _).
  simpl. autorewrite with dup_len. rewrite H1, H2. done.
Qed.

Lemma protect_initial_at i st : i < n -> initial_at i (protect_initial ev i st).
Proof.
  intros Hi Hk Hp. destruct (protect_initial_lengths i st) as [Lk Lp]. rewrite Lk in Hk. rewrite Lp in Hp.
  unfold protect_initial. destruct (vs !! i) as [v|] eqn:Ev; [| apply lookup_ge_None in Ev; unfold ev_n in Hi; lia].
  destruct (add_all_protected i (initial_reasons ev v) st) as (H1 & H2 & _ & H4).
  set (st' := foldl _ st _) in *. split.
  - unfold kept at 1. simpl. rewrite bget_bset_eq by (rewrite H1; lia). done.
  - intros v' [= <-] Hne. unfold protected. simpl. apply H4; [done | lia].
Qed.

Lemma protect_initial_other i j st : i <> j -> initial_at j st -> initial_at j (protect_initial ev i st).
Proof.
  intros Hne IH Hk Hp. destruct (protect_initial_lengths i st) as [Lk Lp].
  rewrite Lk in Hk. rewrite Lp in Hp. specialize (IH Hk Hp).
  unfold protect_initial. destruct (vs !! i) as [v|]; [| done].
  destruct (add_all_protected i (initial_reasons ev v) st) as (H1 & _ & H3 & _).
  set (st' := foldl _ st _) in *.
  assert (Ep : forall b, protected (set_keep i b st') j = protected st j) by (intros; rewrite <- H3 by done; done).
  rewrite Ep. split; [| apply IH]. rewrite <- (proj1 IH).
  unfold kept. simpl. rewrite bget_bset_ne by done. by rewrite H1.
Qed.

Lemma initial_decisions_spec :
  st_wf n (initial_decisions ev) /\ forall i, i < n -> initial_at i (initial_decisions ev).
Proof.
  assert (Hat : forall i, i < n -> initial_at i (initial_decisions ev)).
  { intros i Hi. unfold initial_decisions, for_range.
    apply (foldl_establish (fun acc i => protect_initial ev i acc) initial_at).
    - intros b x Hx%elem_of_seq. apply protect_initial_at. lia.
    - intros b x y Hx%elem_of_seq Hy IH. destruct (decide (x = y)) as [->|Hne].
      + apply protect_initial_at. lia.
      + by apply protect_initial_other.
    - apply elem_of_seq. lia. }
  split; [| exact Hat].
  assert (Hlen : length (st_keep (initial_decisions ev)) = n /\ length (st_protected (initial_decisions ev)) = n).
  { unfold initial_decisions, for_range.
    apply (foldl_inv _ (fun st => length (st_keep st) = n /\ length (st_protected st) = n)).
    - simpl. by rewrite !length_replicate.
    - intros st i _ [? ?]. destruct (protect_initial_lengths i st). by split; congruence. }
  destruct Hlen as [Hk Hp]. split; [done | done |].
  intros i Hi. assert (Hlt : i < n) by (apply bget_lt in Hi; lia).
  destruct (Hat i Hlt) as [-> _]; try done. rewrite Hi. apply orb_true_r.
Qed.

(** *** Overrides *)

(** The user may only give up unprotected keepers, and every one given up is
    remembered. *)
Record override_inv (st0 : dstate) (acc : dstate * list nat) : Prop := {
  oi_wf : st_wf n (fst acc);
  oi_protected : st_protected (fst acc) = st_protected st0;
  oi_given_up : forall i, kept st0 i = true -> kept (fst acc) i = true \/ i ∈ snd acc;
  oi_range : forall i, i ∈ snd acc -> i < n;
}.

Lemma apply_override_inv st0 i acc :
  i < n -> override_inv st0 acc -> override_inv st0 (apply_override ev i acc).
Proof.
  intros Hi [[Hk Hp Hw] Hpr Hg Hr]. destruct acc as [st ks]. simpl in *. unfold apply_override.
  assert (Hnote : forall s, override_inv st0 (note i s st, ks)) by (intros; split; done).
  case_goal; [by split |]. case_goal.
  { destruct (kept st i) eqn:Ek; simpl; [apply Hnote |]. split; simpl; try done.
    - split; simpl; autorewrite with dup_len; try done.
      intros j Hj. unfold kept. simpl. apply bget_bset_true. by apply Hw.
    - intros j Hj. destruct (Hg j Hj) as [?|?]; [left | by right].
      unfold kept. simpl. by apply bget_bset_true. }
  case_goal; [| apply Hnote]. destruct (protected st i) eqn:Ep; [apply Hnote |].
  destruct (kept st i) eqn:Ek; [| apply Hnote]. split; simpl; try done.
  - split; simpl; autorewrite with dup_len; try done.
    intros j Hj. unfold kept. simpl. destruct (decide (i = j)) as [->|Hne].
    + unfold protected in *. simpl in Hj. congruence.
    + rewrite bget_bset_ne by done. by apply Hw.
  - intros j Hj. destruct (decide (i = j)) as [->|Hne]; [right; set_solver |].
    destruct (Hg j Hj) as [?|?]; [left | right; set_solver].
    unfold kept. simpl. by rewrite bget_bset_ne.
  - intros j [Hj| ->%list_elem_of_singleton]%elem_of_app; [by apply Hr | done].
Qed.

Lemma grows_restore_one i s st :
  grows n st (note i s (set_override i false (set_keep i true st))).
Proof.
  split; simpl; autorewrite with dup_len; try done.
  - intros [Hk Hp Hw]. split; simpl; autorewrite with dup_len; try done.
    intros j Hj. unfold kept. simpl. apply bget_bset_true. by apply Hw.
  - intros j. unfold kept. simpl. apply bget_bset_true.
Qed.

Lemma restore_keepers_spec ks st :
  (forall i, i ∈ ks -> i < length (st_keep st)) ->
  grows n st (restore_keepers ev ks st) /\
  forall i, i ∈ ks -> eligible ev i = true -> kept (restore_keepers ev ks st) i = true.
Proof.
  intros Hlt. unfold restore_keepers.
  assert (Hone : forall st x, grows n st
    (if eligible ev x then note x "Override ignored — it would leave no version to keep"
      (set_override x false (set_keep x true st)) else st)).
  { intros. case_goal; [apply grows_restore_one | reflexivity]. }
  assert (Hg := foldl_grows n _ ks st (fun st x _ => Hone st x)).
  split; [exact Hg |]. intros i Hi He.
  apply (foldl_establish (fun st x => if eligible ev x then
      note x "Override ignored — it would leave no version to keep"
        (set_override x false (set_keep x true st)) else st)
    (fun i st => i < length (st_keep st) -> eligible ev i = true -> kept st i = true)); try done.
  - intros b x _ Hx He'. rewrite He' in *. unfold kept. simpl in *.
    autorewrite with dup_len in Hx. by apply bget_bset_eq.
  - intros b x y _ _ IH Hy He'. apply (gr_keep _ _ _ (Hone b x)). apply IH; [| done].
    by rewrite (gr_len _ _ _ (Hone b x)) in Hy.
  - rewrite (gr_len _ _ _ Hg). by apply Hlt.
Qed.

Lemma apply_overrides_spec st0 :
  st_wf n st0 ->
  let st := apply_overrides ev st0 in
  st_wf n st /\ (forall i, protected st0 i = true -> protected st i = true) /\
  ((exists i, eligible ev i = true /\ kept st0 i = true) -> exists i, eligible ev i = true /\ kept st i = true).
Proof.
  intros Hwf. unfold apply_overrides, for_range.
  assert (Hinv : override_inv st0 (foldl (fun acc i => apply_override ev i acc) (st0, []) (seq 0 n))).
  { apply (foldl_inv _ (override_inv st0)).
    - split; simpl; try done; [by intros; left | set_solver].
    - intros acc i Hi%elem_of_seq. apply apply_override_inv. lia. }
  destruct (foldl _ (st0, []) (seq 0 n)) as [st ks]. destruct Hinv as [Hw Hp Hg Hr]. simpl in *.
  assert (Hp0 : forall i, protected st0 i = true -> protected st i = true) by (unfold protected; by rewrite Hp).
  destruct (restore_keepers_spec ks st) as [Hgr Hre]; [intros i Hi; rewrite (wf_keep _ _ Hw); by apply Hr |].
  destruct (Nat.eqb_spec (countEligibleKept ev st) 0) as [Hc|Hc].
  - split_and!; [by apply (gr_wf _ _ _ Hgr) | intros; by apply (gr_prot _ _ _ Hgr), Hp0 |].
    intros (i & He & Hk). exists i. split; [done |].
    destruct (Hg i Hk) as [Hk'|Hin]; [by apply (gr_keep _ _ _ Hgr) | by apply Hre].
  - split_and!; [done | done |]. intros _. unfold countEligibleKept in Hc.
    destruct (List.filter _ _) as [|i l] eqn:E; [done |]. exists i.
    assert (Hin : In i (List.filter (fun i => kept st i && eligible ev i) (seq 0 n))) by (rewrite E; by left).
    apply filter_In in Hin as [_ Hb]. by bsimp.
Qed.

(** *** [decide] *)

Context (Hok : ev_ok ev).

Lemma comp_length : length (ev_same_comp ev) = n.
Proof. by rewrite (eo_comp _ Hok), length_sameFileComponents. Qed.

Lemma engine_state_grows : grows n (initial_decisions ev) (engine_state ev).
Proof. apply grows_enforce. Qed.

Lemma engine_state_wf : st_wf n (engine_state ev).
Proof. apply (gr_wf _ _ _ engine_state_grows), initial_decisions_spec. Qed.

Lemma decide_wf : st_wf n (ev_decide ev).
Proof.
  unfold ev_decide. apply (gr_wf _ _ _ (grows_enforce ev true _)).
  apply apply_overrides_spec, engine_state_wf.
Qed.

(** A version with a reason to be protected ends protected, so kept. *)
Lemma decide_protects i v :
  vs !! i = Some v -> initial_reasons ev v <> [] -> protected (ev_decide ev) i = true.
Proof.
  intros Hi Hr. unfold ev_decide. apply (gr_prot _ _ _ (grows_enforce ev true _)).
  apply apply_overrides_spec; [apply engine_state_wf |]. apply (gr_prot _ _ _ engine_state_grows).
  destruct initial_decisions_spec as [[Hk Hp _] Hat].
  apply (Hat i) with (v := v); try done. by apply lookup_lt_Some in Hi.
Qed.

(** Whenever some version may be kept, one is. *)
Lemma decide_keeps_eligible i : i < n -> eligible ev i = true ->
  exists j, eligible ev j = true /\ kept (ev_decide ev) j = true.
Proof.
  intros Hi He. destruct (rankKeep_exists ev Hok i Hi He) as (j & Hej & Hj).
  destruct (apply_overrides_spec (engine_state ev) engine_state_wf) as (_ & _ & Hex).
  destruct Hex as (k & Hek & Hk).
  - exists j. split; [done |]. apply (gr_keep _ _ _ engine_state_grows).
    destruct initial_decisions_spec as [[Hlk Hlp _] Hat].
    assert (Hlt : j < n) by (apply bget_lt in Hj; by rewrite (proj1 (rankKeep_spec ev Hok j)) in Hj).
    destruct (Hat j Hlt Hlk Hlp) as [-> _]. by rewrite Hj.
  - exists k. split; [done |]. unfold ev_decide. by apply (gr_keep _ _ _ (grows_enforce ev true _)).
Qed.

Lemma decide_closed : closed_other ev (ev_decide ev) /\ closed_same ev (ev_decide ev).
Proof.
  apply enforce_spec; [| apply comp_length | apply Hok].
  apply apply_overrides_spec, engine_state_wf.
Qed.

Lemma closed_same_spec st a b :
  closed_same ev st -> a < n -> b < n ->
  ev_same_comp ev !! a = ev_same_comp ev !! b -> kept st a = kept st b.
Proof.
  intros Hc Ha Hb He.
  destruct (decide (a = b)) as [->|Hne]; [done |].
  destruct (ev_same_comp ev !! a) as [c|] eqn:Ea; [| apply lookup_ge_None in Ea; rewrite comp_length in Ea; lia].
  symmetry in He.
  assert (Hin : (c, members_of (ev_same_comp ev) c) ∈ ev_same_members ev).
  { rewrite (eo_members _ Hok). apply elem_of_shared_components. split; [done |].
    apply elem_of_members_of in Ea, He.
    destruct (members_of (ev_same_comp ev) c) as [|x [|y l]]; simpl; try lia; set_solver. }
  pose proof (Hc _ _ Hin) as Hcl. apply elem_of_members_of in Ea, He.
  pose proof (Hcl a b Ea He). pose proof (Hcl b a He Ea).
  destruct (kept st a), (kept st b); naive_solver.
Qed.
End decide_facts.

(** ** Fuel, playable copies and explanations of the loops *)

Section more_facts.
Context `{Unicode} `{Doublestar} (ev : evaluation) (Hok : ev_ok ev).
Notation n := (ev_n ev).

(** More fuel than needed changes nothing. *)
Lemma other_servers_loop_fuel after st f f' :
  length (st_keep st) = n -> unkept ev st < f -> f <= f' ->
  other_servers_loop ev f' after st = other_servers_loop ev f after st.
Proof.
  revert st f'. induction f as [|f IH]; intros st f' Hlen Hu Hle; [lia |].
  destruct f' as [|f']; [lia |]. simpl.
  pose proof (grows_protectOtherServers ev after st) as Hg.
  pose proof (unkept_changed ev after st Hlen) as Hc.
  destruct (protectOtherServers ev after st) as [st1 []]; [| done]. simpl in *.
  pose proof (grows_protectSameFile ev after st1) as Hg2.
  apply IH; [| | lia].
  - by rewrite (gr_len _ _ _ Hg2), (gr_len _ _ _ Hg).
  - apply unkept_grows in Hg2. specialize (Hc eq_refl). lia.
Qed.

(** Some kept, eligible member of a partition Plex can play. *)
Definition playable_kept (st : dstate) (ms : list nat) : Prop :=
  exists i, i ∈ ms /\ kept st i = true /\ eligible ev i = true /\ playable_at ev i = true.
Definition eligible_kept (st : dstate) (ms : list nat) : Prop :=
  exists i, i ∈ ms /\ kept st i = true /\ eligible ev i = true.
Definition eligible_playable (ms : list nat) : Prop :=
  exists i, i ∈ ms /\ eligible ev i = true /\ playable_at ev i = true.

Lemma playable_kept_grows st st' ms : grows n st st' -> playable_kept st ms -> playable_kept st' ms.
Proof. intros Hg (i & ? & ? & ? & ?). exists i. split_and!; try done. by apply (gr_keep _ _ _ Hg). Qed.

Lemma eligible_kept_grows st st' ms : grows n st st' -> eligible_kept st ms -> eligible_kept st' ms.
Proof. intros Hg (i & ? & ? & ?). exists i. split_and!; try done. by apply (gr_keep _ _ _ Hg). Qed.

Lemma grows_playable_part after st part : grows n st (keep_playable_part ev after st part).
Proof.
  unfold keep_playable_part. case_goal; [reflexivity |].
  destruct (find _ _); [apply grows_forced | reflexivity].
Qed.

Lemma keep_playable_part_spec after st k ms :
  (forall i, i ∈ ms -> i < length (st_keep st)) ->
  eligible_kept st ms -> eligible_playable ms -> playable_kept (keep_playable_part ev after st (k, ms)) ms.
Proof.
  intros Hlt (i & Hi & Hk & He) (j & Hj & Hej & Hpj). unfold keep_playable_part. cbn [snd].
  set (km := List.filter _ ms).
  assert (Hin : i ∈ km) by (apply elem_of_lfilter; by rewrite Hk, He).
  destruct (Nat.eqb_spec (length km) 0) as [E|_]; [destruct km; [by apply elem_of_nil in Hin | done] |].
  simpl. destruct (existsb (playable_at ev) km) eqn:Ex.
  - apply existsb_elem in Ex as (x & [Hx Hb]%elem_of_lfilter & Hp). apply andb_true_iff in Hb as [? ?].
    by exists x.
  - assert (Hjk : kept st j = false).
    { destruct (kept st j) eqn:E; [| done]. apply not_true_iff_false in Ex. exfalso. apply Ex.
      apply existsb_elem. exists j. split; [apply elem_of_lfilter; by rewrite E, Hej | done]. }
    destruct (find _ ms) as [x|] eqn:Ef.
    + apply List.find_some in Ef as [Hx Hb]. apply list_elem_of_In in Hx. bsimp.
      exists x. split_and!; try done. apply kept_keep_protected_eq. case_goal; simpl; by apply Hlt.
    + exfalso. apply (find_none _ _) with (x := j) in Ef; [| by apply list_elem_of_In].
      by rewrite Hej, Hpj, Hjk in Ef.
Qed.

Lemma keepPlayable_spec after st :
  env_keep_playable_copy (ev_env ev) = true -> length (st_keep st) = n ->
  forall k ms, (k, ms) ∈ ev_part_members ev -> eligible_kept st ms -> eligible_playable ms ->
    playable_kept (keepPlayable ev after st) ms.
Proof.
  intros Henv Hlen k ms Hin Hk Hp. unfold keepPlayable. rewrite Henv. simpl.
  set (parts := stable_sort _ _). assert (Hps : (k, ms) ∈ parts) by (by apply elem_of_stable_sort).
  assert (Hall : forall k' ms', (k', ms') ∈ parts -> forall i, i ∈ ms' -> i < n).
  { intros k' ms' Hx%elem_of_stable_sort i. by apply (part_members_lt ev Hok k'). }
  clearbody parts. revert st Hlen Hk. induction parts as [|[k0 ms0] parts IH]; intros st Hlen Hk.
  { by apply elem_of_nil in Hps. }
  simpl. pose proof (grows_playable_part after st (k0, ms0)) as Hg.
  apply elem_of_cons in Hps as [[= <- <-]|Hps].
  - apply (playable_kept_grows (keep_playable_part ev after st (k, ms))).
    + apply foldl_grows. intros. apply grows_playable_part.
    + apply keep_playable_part_spec; try done. rewrite Hlen. apply (Hall k). set_solver.
  - apply IH; [done | | by rewrite (gr_len _ _ _ Hg) | by apply (eligible_kept_grows st)].
    intros k' ms' Hx. apply (Hall k'). set_solver.
Qed.

(** The engine keeps a playable copy in every partition that has one. *)
Lemma engine_playable :
  env_keep_playable_copy (ev_env ev) = true ->
  forall k ms, (k, ms) ∈ ev_part_members ev -> eligible_playable ms -> playable_kept (engine_state ev) ms.
Proof.
  intros Henv k ms Hin Hp. unfold engine_state, enforce.
  destruct (initial_decisions_spec ev) as [[Hlk Hlp _] Hat].
  apply (playable_kept_grows (keepPlayable ev false (initial_decisions ev))).
  { etransitivity; [apply grows_protectSameFile | apply grows_other_servers_loop]. }
  apply (keepPlayable_spec false (initial_decisions ev) Henv Hlk k ms Hin); [| done].
  destruct Hp as (i & Hi & He & _).
  assert (Hf : i ∈ List.filter (eligible ev) ms) by (apply elem_of_lfilter; done).
  destruct (List.filter (eligible ev) ms) as [|j l] eqn:E; [by apply elem_of_nil in Hf |].
  assert (Hj : j ∈ List.filter (eligible ev) ms) by (rewrite E; set_solver).
  apply elem_of_lfilter in Hj as [Hj Hej].
  assert (Hrk : bget (rankKeep ev) j = true).
  { apply (rankKeep_spec ev Hok). exists k, ms. split; [done |]. unfold top_eligible. rewrite E.
    pose proof (eo_count _ Hok). destruct (Z.to_nat (ev_keep_count ev)) eqn:Ek; [lia |]. set_solver. }
  exists j. split_and!; try done.
  assert (Hlt : j < n) by (by apply (part_members_lt ev Hok k ms)).
  destruct (Hat j Hlt Hlk Hlp) as [-> _]. by rewrite Hrk.
Qed.
End more_facts.

(** ** The recorded eliminations *)

Lemma survivors_eliminated m s i b : (i, b) ∈ snd (survivors m s) -> beats m b i = true.
Proof.
  unfold survivors. cbn [snd]. intros (x & Hx & Hb)%list_elem_of_omap.
  destruct (eliminator m (best_of m s) x) as [y|] eqn:E; [| done]. injection Hb as <- <-.
  by apply eliminator_sound in E as (_ & _ & ?).
Qed.

Lemma round_metrics_elim k ms s elim i mi b :
  (i, (mi, b)) ∈ snd (round_metrics k ms s elim) ->
  (i, (mi, b)) ∈ elim \/ exists m, ms !! (mi - k) = Some m /\ k <= mi /\ beats m b i = true.
Proof.
  revert k s elim. induction ms as [|m ms IH]; intros k s elim; [by left |].
  rewrite round_metrics_cons. destruct (length s =? 1); [by left |].
  assert (Hshift : forall m', ms !! (mi - S k) = Some m' -> S k <= mi -> (m :: ms) !! (mi - k) = Some m').
  { intros m' Hm Hle. replace (mi - k) with (S (mi - S k)) by lia. done. }
  destruct (fst (survivors m s)) as [|x next] eqn:Es.
  - intros [?|(m' & Hm & Hle & Hb)]%IH; [by left | right]. exists m'. split_and!; [auto | lia | done].
  - intros [Hin|(m' & Hm & Hle & Hb)]%IH; [| right; exists m'; split_and!; [auto | lia | done]].
    apply elem_of_app in Hin as [?|Hin]; [by left | right].
    apply list_elem_of_fmap in Hin as ([i' b'] & [= -> -> ->] & Hin).
    exists m. rewrite Nat.sub_diag. split_and!; [done | lia |]. by apply survivors_eliminated in Hin.
Qed.

Lemma rank_round_elim ms remaining w elim i mi b :
  rank_round ms remaining = Some (w, elim) -> (i, (mi, b)) ∈ elim ->
  mi = length ms \/ exists m, ms !! mi = Some m /\ beats m b i = true.
Proof.
  unfold rank_round. pose proof (round_metrics_elim 0 ms remaining [] i mi b) as Hr.
  destruct (round_metrics 0 ms remaining []) as [[|x rest] e]; [done |]. cbn [snd] in Hr. intros [= <- <-].
  intros [Hin|Hin]%elem_of_app.
  - apply Hr in Hin as [Hin|(m & Hm & _ & Hb)]; [by apply elem_of_nil in Hin |].
    right. exists m. by rewrite Nat.sub_0_r in Hm.
  - apply list_elem_of_fmap in Hin as (y & [= -> -> ->] & _). by left.
Qed.

Lemma rank_loop_elim fuel ms remaining round i mi b :
  round ∈ snd (rank_loop fuel ms remaining) -> (i, (mi, b)) ∈ round ->
  mi = length ms \/ exists m, ms !! mi = Some m /\ beats m b i = true.
Proof.
  revert remaining. induction fuel as [|fuel IH]; intros remaining; simpl; [by intros ?%elem_of_nil |].
  destruct (rank_round ms remaining) as [[w elim]|] eqn:Er; [| by intros ?%elem_of_nil].
  specialize (IH (List.filter (fun i => negb (i =? w)) remaining)).
  destruct (rank_loop fuel ms _) as [order rounds]. cbn [snd] in *.
  intros [->|Hin]%elem_of_cons Hel; [by eapply rank_round_elim | by apply IH].
Qed.
