(* ===== verification/Explain.v ===== *)
(** * Explaining the decisions

    [annotate], [versus] and [explain] of internal/engine/evaluate.go: the
    warnings that depend on the final decisions, the criterion that decided
    between two versions, and the per-file results. A sentence built from
    rendered metric values is kept as a [rank_line] naming the criterion and
    the versions; protection reasons and notes are the source's strings. *)

From S2P Require Import Prelude GoStd GoFloat Models UnionFind DiscPaths Paths Titles Versions Criteria Ranking Flags CrossServer Decide.
Local Open Scope string_scope.
Local Open Scope Z_scope.

(** What the minimum-age check found about the versions to remove. *)
Record young := { yg_age : Z; yg_unknown : bool; yg_future : bool }.
Definition no_young : young := {| yg_age := 0; yg_unknown := false; yg_future := false |}.

Section explain.
Context `{Unicode} `{Doublestar} (ev : evaluation).

Definition at_version {A} (d : A) (f : MediaVersion -> A) (i : nat) : A :=
  match ev_vs ev !! i with Some v => f v | None => d end.

(** ** [annotate] *)

Definition samePairs : list (nat * nat) := likelySameFilePairs (ev_vs ev) (ev_same_comp ev).

Definition pair_warning (other : string) : string :=
  "Warning — same file name and size as " +:+ other +:+ " in another folder: make sure they are " +:+
  "separate copies before approving (removing one path of a single file deletes both)".

Definition annotate_pair (st : dstate) (pr : nat * nat) : dstate :=
  let '(a, b) := pr in
  if Bool.eqb (kept st a) (kept st b) then st else
  note b (pair_warning (key_of (ev_vs ev) a)) (note a (pair_warning (key_of (ev_vs ev) b)) st).

(** [keptTrackedBy]. *)
Definition keptTrackedBy (st : dstate) (instanceID : Z) : bool :=
  existsb (fun j => kept st j && eligible ev j &&
    at_version false (fun w => match mv_arr w with
      | Some a => af_instance_id a =? instanceID
      | None => false
      end) j) (seq 0 (ev_n ev)).

Definition annotate_untracked (i : nat) (st : dstate) : dstate :=
  match ev_vs ev !! i with
  | Some v =>
    match mv_arr v with
    | Some a =>
      if kept st i || keptTrackedBy st (af_instance_id a) then st else
      note i ("Warning — tracked by " +:+ arrName a +:+
              " but no kept version is: the *arr may re-download it") st
    | None => st
    end
  | None => st
  end.

Definition annotate_kept (i : nat) (st : dstate) : dstate :=
  match ev_vs ev !! i with
  | Some v =>
    if negb (kept st i && eligible ev i) then st else
    let st := match mv_arr v with
      | Some a => if af_quality_cutoff_not_met a then
          note i ("Warning — quality cutoff not met in " +:+ arrName a +:+
                  ": it may upgrade and recreate the duplicate") st else st
      | None => st
      end in
    if isInaccessible v then note i "Warning — kept version is not accessible to the media server" st else st
  | None => st
  end.

Definition annotate_age (now : time) (i : nat) (acc : dstate * young) : dstate * young :=
  let '(st, y) := acc in
  let min_age := env_min_age (ev_env ev) in
  match ev_vs ev !! i with
  | Some v =>
    if kept st i then acc else
    let t := newestAdded v in
    if is_zero t then
      (note i ("Waiting — date added unknown (minimum age " +:+ humanDuration min_age +:+ ")") st,
       {| yg_age := yg_age y; yg_unknown := true; yg_future := yg_future y |})
    else
      let age := time_sub now t in
      if age <? 0 then
        (note i ("Waiting — date added is in the future (minimum age " +:+ humanDuration min_age +:+ ")") st,
         {| yg_age := yg_age y; yg_unknown := yg_unknown y; yg_future := true |})
      else if age <? min_age then
        (note i ("Waiting — added " +:+ humanDuration age +:+ " ago (minimum age " +:+
                 humanDuration min_age +:+ ")") st,
         {| yg_age := if (yg_age y =? 0) || (age <? yg_age y) then Z.max age 1 else yg_age y;
            yg_unknown := yg_unknown y; yg_future := yg_future y |})
      else acc
  | None => acc
  end.

Definition annotate (now : time) (st : dstate) : dstate * young :=
  let st := foldl annotate_pair st samePairs in
  let st := for_range (ev_n ev) annotate_untracked st in
  let st := for_range (ev_n ev) annotate_kept st in
  if 0 <? env_min_age (ev_env ev) then for_range (ev_n ev) (annotate_age now) (st, no_young)
  else (st, no_young).

(** ** [versus] *)

Definition metricID (mi : nat) : string :=
  match ev_metrics ev !! mi with Some m => m_id m | None => TiebreakKey end.

(** The first metric on which one of the two beats the other. *)
Fixpoint first_pairwise (k : nat) (ms : list metric) (b x : nat) : option (nat * bool) :=
  match ms with
  | [] => None
  | m :: ms' =>
    if beats m b x then Some (k, true)
    else if beats m x b then Some (k, false)
    else first_pairwise (S k) ms' b x
  end.

Definition elimination_in (rounds : list (list (nat * elimination))) (r x : nat) : option elimination :=
  snd <$> find (fun e => (fst e =? x)%nat) (default [] (rounds !! r)).

Definition versus (b x : nat) : elimination :=
  let last := (length (ev_metrics ev), b) in
  let in_round := default last (elimination_in (ev_rounds ev) (ev_pos ev b) x) in
  match first_pairwise 0 (ev_metrics ev) b x with
  | Some (k, true) => (k, b)
  | Some (_, false) => in_round
  | None => if str_lt (key_of (ev_vs ev) b) (key_of (ev_vs ev) x) then last else in_round
  end.

(** ** [explain] *)

Definition part_key (i : nat) : string := default "" (ev_part ev !! i).
Definition members_at (i : nat) : list nat :=
  default [] (assoc (ev_part_members ev) (part_key i)).
Definition best_at (i : nat) : nat := partBest (ev_eligible ev) (members_at i).

(** The runner-up of a partition: the first other member, an eligible one
    before an ineligible one. *)
Definition runner_up (best : nat) (members : list nat) : option nat :=
  foldl (fun r j =>
    if negb (j =? best)%nat &&
       match r with None => true | Some r => eligible ev j && negb (eligible ev r) end
    then Some j else r) None members.

(** The place among the eligible members ranked before [i]. *)
Fixpoint place_of (i : nat) (members : list nat) : nat :=
  match members with
  | [] => 1%nat
  | j :: ms => if (j =? i)%nat then 1%nat
               else if eligible ev j then S (place_of i ms) else place_of i ms
  end.

(** The deciding criterion, the ranking line and the loss of version [i]. *)
Definition rank_text (i : nat) : string * rank_line * option elimination :=
  let best := best_at i in
  let considered l := if eligible ev i then l else RLNotConsidered (S (ev_pos ev i)) in
  if (i =? best)%nat then
    match runner_up best (members_at i) with
    | None => ("", considered RLOnlyVersion, None)
    | Some r =>
      let '(mi, w) := versus best r in
      (metricID mi, considered (RLBest (metricID mi) r w), None)
    end
  else
    let '(mi, w) := versus best i in
    let decider := metricID mi in
    if negb (eligible ev i) then
      if (ev_pos ev i <? ev_pos ev best)%nat then ("", RLNotConsidered (S (ev_pos ev i)), None)
      else (decider, RLNotConsidered (S (ev_pos ev i)), Some (mi, w))
    else if bget (rankKeep ev) i then (decider, RLKeepRanked (place_of i (members_at i)), Some (mi, w))
    else (decider, RLRemove decider w, Some (mi, w)).

Definition decision_of (b : bool) : string := if b then DecisionKeep else DecisionRemove.

Definition reason_lines (st : dstate) (i : nat) : list line :=
  let '(_, rl, loss) := rank_text i in
  ((if overridden st i then
      [LManualOverride (decision_of (kept st i)); LProfileDecision rl]
    else if protected st i && negb (bget (rankKeep ev) i) then
      (map LProtected (reasons_at st i) ++
       [match loss with
        | Some (mi, w) => if eligible ev i then LWouldBeRemoved (metricID mi) w else LRank rl
        | None => LRank rl
        end])%list
    else (LRank rl :: map LProtected (reasons_at st i))%list) ++
   (match default [] (ev_health ev !! i) with
    | [] => []
    | ps => [LHealth ps]
    end) ++
   map LNote (default [] (st_notes st !! i)))%list.

(** The results written to one file. *)
Definition explain_file (st : dstate) (i : nat) (f : GroupFile) : GroupFile := {|
  gf_version := gf_version f;
  gf_decision := decision_of (kept st i);
  gf_engine_decision := decision_of (bget (engineKeep ev) i);
  gf_override := gf_override f;
  gf_rank := S (ev_pos ev i);
  gf_reasons := reason_lines st i;
  gf_deciding_criterion := fst (fst (rank_text i));
  gf_protected := protected st i;
  gf_protected_reason := reasons_at st i;
|}.
Definition explain (st : dstate) (files : list GroupFile) : list GroupFile :=
  imap (explain_file st) files.
End explain.

(** ** Facts *)

Section explain_facts.
Context `{Unicode} `{Doublestar} (ev : evaluation).

(** Annotating changes notes only. *)
Definition same_decisions (a b : dstate) : Prop :=
  st_keep a = st_keep b /\ st_protected a = st_protected b /\ st_reasons a = st_reasons b /\
  st_override a = st_override b.

Lemma same_decisions_note i s a b : same_decisions a b -> same_decisions (note i s a) b.
Proof. done. Qed.

Lemma annotate_decisions now st : same_decisions (fst (annotate ev now st)) st.
Proof.
  unfold annotate. set (s1 := foldl _ st _).
  assert (H1 : same_decisions s1 st).
  { apply (foldl_inv _ (fun s => same_decisions s st)); [done |]. intros s [a b] _ Hs.
    unfold annotate_pair. case_goal; done. }
  set (s2 := for_range _ (annotate_untracked ev) s1).
  assert (H2 : same_decisions s2 st).
  { apply (foldl_inv _ (fun s => same_decisions s st)); [done |]. intros s i _ Hs.
    unfold annotate_untracked. repeat case_goal; done. }
  set (s3 := for_range _ (annotate_kept ev) s2).
  assert (H3 : same_decisions s3 st).
  { apply (foldl_inv _ (fun s => same_decisions s st)); [done |]. intros s i _ Hs.
    unfold annotate_kept. repeat case_goal; done. }
  case_goal; [| done].
  apply (foldl_inv _ (fun acc => same_decisions (fst acc) st)); [done |].
  intros [s y] i _ Hs. unfold annotate_age. repeat case_goal; done.
Qed.
End explain_facts.
