(* ===== verification/Evaluate.v ===== *)
(** * Evaluating a group

    [finish], [reclaimable], [status], [signature] and [Evaluate] of
    internal/engine/evaluate.go, with the cross-server flags and review reasons
    of crossserver.go. *)

From S2P Require Import Prelude GoStd GoFloat Models UnionFind DiscPaths Paths Titles Versions Criteria Ranking Flags CrossServer Decide Explain.
Local Open Scope string_scope.
Local Open Scope Z_scope.

(** ** Errors *)

Inductive eval_error :=
  | ENoFiles
  | ENoKey (file : nat)
  | EDuplicateKey (key : string).

Fixpoint check_files (i : nat) (seen : list string) (files : list GroupFile) : option eval_error :=
  match files with
  | [] => None
  | f :: fs =>
    let k := trim_space (mv_key (gf_version f)) in
    if String.eqb k "" then Some (ENoKey i)
    else if mem k seen then Some (EDuplicateKey k)
    else check_files (S i) (k :: seen) fs
  end.
(** [checkEvaluable] (a group is never nil here). *)
Definition checkEvaluable (g : DuplicateGroup) : option eval_error :=
  match dg_files g with
  | [] => Some ENoFiles
  | fs => check_files 0 [] fs
  end.

(** ** Flags *)

Definition engineOwnedFlag (f : string) : bool :=
  mem f [FlagMinAge; FlagArrUntrackedKeeper; FlagArrCutoffUnmet; FlagMissingKeeperFile; FlagIntentionalArr;
         FlagWatchUnreadable; FlagOtherServerListing; FlagOtherServerKeeps; FlagOtherServerPossible;
         FlagOtherServerUnread].

Definition set_item_keeps (k : option bool) (e : OtherListing) : OtherListing := {|
  ol_server_id := ol_server_id e; ol_server_name := ol_server_name e;
  ol_library_id := ol_library_id e; ol_library_title := ol_library_title e;
  ol_rating_key := ol_rating_key e; ol_item_title := ol_item_title e; ol_path := ol_path e;
  ol_match := ol_match e; ol_item_keeps_another := k; ol_kept_by_group := ol_kept_by_group e;
  ol_others := ol_others e; ol_hint := ol_hint e;
  ol_version_key := ol_version_key e; ol_media_id := ol_media_id e; ol_part_item_ids := ol_part_item_ids e |}.

Definition set_other_servers (es : list OtherListing) (v : MediaVersion) : MediaVersion := {|
  mv_key := mv_key v; mv_server_id := mv_server_id v; mv_library_id := mv_library_id v;
  mv_library_title := mv_library_title v; mv_section_key := mv_section_key v;
  mv_rating_key := mv_rating_key v; mv_media_id := mv_media_id v; mv_item_title := mv_item_title v;
  mv_optimized := mv_optimized v; mv_item_key_id := mv_item_key_id v; mv_source_id := mv_source_id v;
  mv_episode_end := mv_episode_end v; mv_report_only := mv_report_only v; mv_parts := mv_parts v;
  mv_container := mv_container v; mv_duration_ms := mv_duration_ms v;
  mv_bitrate_kbps := mv_bitrate_kbps v; mv_video_bitrate := mv_video_bitrate v; mv_width := mv_width v;
  mv_height := mv_height v; mv_resolution := mv_resolution v; mv_video_codec := mv_video_codec v;
  mv_bit_depth := mv_bit_depth v; mv_dynamic_range := mv_dynamic_range v;
  mv_audio_tracks := mv_audio_tracks v; mv_subtitle_count := mv_subtitle_count v;
  mv_source := mv_source v; mv_edition := mv_edition v; mv_added_at := mv_added_at v;
  mv_arr := mv_arr v; mv_disc := mv_disc v; mv_watch := mv_watch v; mv_other_servers := es |}.

(** [crossServerFlags] on the listings: [ItemKeepsAnother] is set on removed
    versions and cleared on kept ones. *)
Definition mark_listings (removed : list string) (is_kept : bool) (v : MediaVersion) : MediaVersion :=
  set_other_servers
    (map (fun e => set_item_keeps (if is_kept then None else Some (survivor e removed)) e) (mv_other_servers v)) v.

Definition listing_flags (flags : list string) (e : OtherListing) : list string :=
  let flags :=
    if String.eqb (ol_match e) OtherSameFile then addFlag flags FlagOtherServerListing
    else if String.eqb (ol_match e) OtherPossiblySame then addFlag flags FlagOtherServerPossible
    else flags in
  flag_if (kept_by_group e) FlagOtherServerKeeps flags.

Definition indexed_versions (vs : list MediaVersion) : list (nat * MediaVersion) := zip (seq 0 (length vs)) vs.

Definition crossServerFlags (g : DuplicateGroup) (vs : list MediaVersion) (keep : list bool)
    (removals : nat) (flags : list string) : list string :=
  let flags := foldl (fun flags (iv : nat * MediaVersion) =>
    if bget keep (fst iv) then flags else foldl listing_flags flags (mv_other_servers (snd iv)))
    flags (indexed_versions vs) in
  flag_if match dg_cross_server g with
          | Some cs => negb (cs_complete cs) && (0 <? removals)%nat
          | None => false
          end FlagOtherServerUnread flags.

(** ** Reclaimable bytes *)

Definition max0 (z : Z) : Z := Z.max z 0.

(** Counting a part once per path, local path and inode. *)
Definition reclaim_part `{Unicode} (acc : gset string * Z) (p : MediaPart) : gset string * Z :=
  let '(seen, total) := acc in
  if (1 <? mp_link_count p) || (mp_size p <=? 0) then acc else
  let keys := (key_with "p:" (mp_path p) ++ key_with "l:" (mp_local_path p) ++
    (if validInode (mp_inode p) then ["i:" +:+ trim_space (mp_inode p)] else []))%list in
  let '(seen, dup) := foldl (fun '(seen, dup) (k : string) =>
    ({[k]} ∪ seen, dup || bool_decide (k ∈ seen))) (seen, false) keys in
  (seen, if dup then total else wrap64 (total + mp_size p)).

Definition reclaim_version `{Unicode} (acc : gset string * Z) (v : MediaVersion) : gset string * Z :=
  let '(seen, total) := acc in
  match mv_disc v with
  | Some d =>
    if 0 <? di_total_bytes d then
      let k := "d:" +:+ mv_key v in
      if bool_decide (k ∈ seen) then acc
      else ({[k]} ∪ seen, wrap64 (total + max0 (di_freed_bytes d)))
    else foldl reclaim_part acc (mv_parts v)
  | None => foldl reclaim_part acc (mv_parts v)
  end.

Definition removed_versions (vs : list MediaVersion) (keep : list bool) : list MediaVersion :=
  omap (fun iv : nat * MediaVersion => if bget keep (fst iv) then None else Some (snd iv)) (indexed_versions vs).

Definition reclaimable `{Unicode} (vs : list MediaVersion) (keep : list bool) : Z :=
  snd (foldl reclaim_version (∅, 0) (removed_versions vs keep)).

(** ** Signature *)

Definition nul : string := String zero "".
Definition field (name : string) (vals : list string) : string :=
  name +:+ ":" +:+ format_int (Z.of_nat (length vals)) +:+ nul +:+
  sconcat (map (fun v => format_int (Z.of_nat (String.length v)) +:+ ":" +:+ v +:+ nul) vals).
Definition sortedClean (paths : list string) : list string := sort_strings (map path_clean paths).

(** What is hashed of a disc, and its digest. *)
Definition disc_fields (d : DiscInfo) : string :=
  field "root" [di_root d] +:+
  field "localRoot" [path_clean (di_local_root d)] +:+
  field "roots" (sortedClean (di_roots d)) +:+
  field "localRoots" (sortedClean (di_local_roots d)) +:+
  field "owned" (sortedClean (di_owned_entries d)) +:+
  field "size" [format_int (di_file_count d); format_int (di_total_bytes d)] +:+
  field "fingerprint" [di_fingerprint d].
Definition discContent (d : DiscInfo) : string := sha256_hex (disc_fields d).

Definition signature_line (f : GroupFile) : string :=
  let v := gf_version f in
  mv_key v +:+ "=" +:+ gf_decision f +:+
  match mv_disc v with Some d => "|" +:+ discContent d | None => "" end.
Definition newline : string := String "010"%char "".
Definition signature (files : list GroupFile) : string :=
  sha1_hex (join newline (sort_strings (map signature_line files))).

(** ** Status *)

Section status.
Context `{Unicode} `{Doublestar} (ev : evaluation) (g : DuplicateGroup) (flags : list string).
Notation vs := (ev_vs ev).
Definition flagged (f : string) : bool := has_flag flags f.

(** [crossServerReview]. *)
Definition crossServerReview (keep : list bool) : list string :=
  ((if flagged FlagOtherServerPossible then
      [match firstRemovedListing vs keep OtherPossiblySame false with
       | Some e => serverLabel e +:+ " lists a file with the same name and size (" +:+ ol_path e +:+ " in " +:+
           ol_library_title e +:+ "); if it is the same file, removing it takes " +:+ serverLabel e +:+ "'s copy"
       | None => "another media server lists a file with the same name and size; if it is the same file, removing it takes that server's copy"
       end] else []) ++
   (if flagged FlagOtherServerKeeps then
      [match firstRemovedListing vs keep "" true with
       | Some e => "a duplicate group of " +:+ serverLabel e +:+ " keeps this file (" +:+ ol_path e +:+ " in " +:+
           ol_library_title e +:+ "); change one of the two decisions"
       | None => "a duplicate group of another media server keeps this file; change one of the two decisions"
       end] else []) ++
   (if flagged FlagOtherServerUnread then
      let names := sort_strings (match dg_cross_server g with
        | Some cs => List.filter nonempty (map cs_unread (cs_servers cs))
        | None => []
        end) in
      ["a media server that may list these files could not be read" +:+
       (match names with [] => "" | _ => " (" +:+ join "; " names +:+ ")" end) +:+
       "; make it reachable, disable it or declare it separate storage, then re-scan"] else []))%list.

Definition unanalyzed (v : MediaVersion) : bool := (0 <? length (unanalyzedProblems v))%nat.

(** The reasons a person must look first. *)
Definition review_reasons (keep : list bool) : list string :=
  let disc_problem d := negb (blank (di_problem d)) in
  ((if flagged FlagSuspectMerge then
      let details := suspectReasons vs (env_max_group_size (ev_env ev)) in
      let details := match details with [] => ["versions may belong to different titles"] | ds => ds end in
      ["possible mismatched merge: " +:+ join "; " details] else []) ++
   (if flagged FlagSameFile then
      [match ev_same_members ev, samePairs ev with
       | [], (a, b) :: _ => "versions " +:+ key_of vs a +:+ " and " +:+ key_of vs b +:+
           " have the same file name and size in different folders (possibly one file reached through two paths)"
       | _, _ => "two or more versions point to the same file"
       end] else []) ++
   (if flagged FlagUnanalyzed then
      let plexUnanalyzed := existsb (fun v => unanalyzed v && negb (IsDisc v)) vs in
      let discUnknown := existsb (fun v => unanalyzed v && IsDisc v) vs in
      ((if plexUnanalyzed || negb discUnknown then
          [if existsb (fun v => negb (IsDisc v) && readOnlyVersion v && unanalyzed v) vs
           then "some versions are not analyzed by the media server (refresh their metadata in Jellyfin)"
           else "some versions are not analyzed by the media server (analyze them in Plex)"] else []) ++
       (if discUnknown then
          ["the quality of a full-disc backup is unknown (a disc image, or disc metadata that could not be read)"]
        else []))%list else []) ++
   (if flagged FlagDiscUnreadable then
      [match find disc_problem (omap mv_disc vs) with
       | Some d => "a full-disc backup could not be read or verified (" +:+ di_problem d +:+ "); it is kept"
       | None => "a full-disc backup could not be read or verified; it is kept"
       end] else []) ++
   (if flagged FlagDurationMismatch then
      let '(lo, hi, _) := durationSpread (ev_media_type ev) vs f0 0 in
      [if 0 <? hi then "durations differ (" +:+ humanDuration (msDuration lo) +:+ " vs " +:+
         humanDuration (msDuration hi) +:+ ")" else "durations differ"] else []) ++
   (if flagged FlagMissingKeeperFile then ["a kept version is not accessible to the media server"] else []) ++
   (if flagged FlagWatchUnreadable then
      let '(_, why, source) := watchFailure vs in
      let source := if String.eqb source "" then "the play-history source" else source in
      ["the play history could not be read" +:+ (if String.eqb why "" then "" else " (" +:+ why +:+ ")") +:+
       "; " +:+ join " / " (ev_watch_labels ev) +:+ " cannot decide: re-scan once " +:+ source +:+ " is reachable"]
    else []) ++
   crossServerReview keep)%list.

Definition deferred_reasons (y : young) : list status_item :=
  ((if flagged FlagMinAge then
      [SIText (if 0 <? yg_age y then
           "minimum age not reached (a version to remove was added " +:+ humanDuration (yg_age y) +:+
           " ago; minimum " +:+ humanDuration (env_min_age (ev_env ev)) +:+ ")"
         else if yg_future y then "minimum age not reached (date added is in the future)"
         else "minimum age not reached (date added unknown)")] else []) ++
   (if flagged FlagArrQueueBusy then [SIQueueBusy] else []) ++
   (if flagged FlagPlaying then [SIText "a version is currently playing"] else []))%list.

(** [status]: the status, its reasons and whether only playback defers. *)
Definition status (keep : list bool) (y : young) (removals : nat) : string * list status_item * bool :=
  let review := review_reasons keep in
  match reportOnlyReasons vs with
  | (_ :: _) as ro => (GroupProtected, SIText ("Report only: " +:+ join "; " ro) :: map SIText review, false)
  | [] =>
    match review with
    | _ :: _ => (GroupReview, map SIText review, false)
    | [] =>
      if (removals =? 0)%nat then
        (GroupProtected,
         [SIText (if ev_intentional ev then
            "Versions are tracked by different *arr instances (" +:+ join ", " (ev_arr_names ev) +:+
            ") — treated as intentional"
          else "Nothing to remove — every version is kept or protected")], false)
      else
        match deferred_reasons y with
        | [] => (GroupPending, [], false)
        | deferred => (GroupDeferred, deferred, flagged FlagPlaying && (length deferred =? 1)%nat)
        end
    end
  end.
End status.

(** ** [finish] and [Evaluate] *)

Section evaluate.
Context `{Unicode} `{Doublestar} `{RegexSyntax}.

Definition removal_count (ev : evaluation) (st : dstate) : nat :=
  length (List.filter (fun i => negb (kept st i)) (seq 0 (ev_n ev))).

(** The flags of one version that depend on the decisions. *)
Definition decision_flags (ev : evaluation) (st : dstate) (i : nat) (flags : list string) : list string :=
  match ev_vs ev !! i with
  | None => flags
  | Some v =>
    if negb (kept st i) then
      flag_if match mv_arr v with
              | Some a => negb (keptTrackedBy ev st (af_instance_id a))
              | None => false
              end FlagArrUntrackedKeeper flags
    else if negb (eligible ev i) then flags
    else
      let flags := flag_if match mv_arr v with Some a => af_quality_cutoff_not_met a | None => false end
        FlagArrCutoffUnmet flags in
      flag_if (isInaccessible v) FlagMissingKeeperFile flags
  end.

Definition has_young (y : young) : bool := (0 <? yg_age y) || yg_unknown y || yg_future y.

Definition watch_unreadable (ev : evaluation) (removals : nat) : bool :=
  let '(failed, _, _) := watchFailure (ev_vs ev) in
  failed && negb (length (ev_watch_labels ev) =? 0)%nat && (0 <? removals)%nat && watchCanDecide (ev_vs ev).

Definition finish_flags (ev : evaluation) (g : DuplicateGroup) (st : dstate) (y : young) : list string :=
  let removals := removal_count ev st in
  let flags := foldl addFlag [] (List.filter (fun f => negb (engineOwnedFlag f)) (dg_flags g)) in
  let flags := foldl addFlag flags (versionFlags (dg_media_type g) (ev_vs ev)) in
  let flags := flag_if (ev_intentional ev) FlagIntentionalArr flags in
  let flags := for_range (ev_n ev) (decision_flags ev st) flags in
  let flags := flag_if (has_young y) FlagMinAge flags in
  let flags := flag_if (watch_unreadable ev removals) FlagWatchUnreadable flags in
  let flags := crossServerFlags g (ev_vs ev) (st_keep st) removals flags in
  sortedUnique flags.

Definition mark_file (removed : list string) (keep : list bool) (i : nat) (f : GroupFile) : GroupFile := {|
  gf_version := mark_listings removed (bget keep i) (gf_version f);
  gf_decision := gf_decision f; gf_engine_decision := gf_engine_decision f;
  gf_override := gf_override f; gf_rank := gf_rank f; gf_reasons := gf_reasons f;
  gf_deciding_criterion := gf_deciding_criterion f; gf_protected := gf_protected f;
  gf_protected_reason := gf_protected_reason f |}.

(** A queued group stays queued while its removals are still allowed, an
    ignored one stays ignored. *)
Definition next_status (old : string) (old_reason : list status_item)
    (fresh : string * list status_item * bool) : string * list status_item :=
  let '(status, reason, liveChecked) := fresh in
  if String.eqb old GroupIgnored then (old, old_reason)
  else if String.eqb old GroupQueued && (String.eqb status GroupPending || liveChecked) then (old, old_reason)
  else (status, reason).

Definition finish (ev : evaluation) (p : Profile) (g : DuplicateGroup) (st : dstate) (y : young)
    (files : list GroupFile) : DuplicateGroup :=
  let flags := finish_flags ev g st y in
  let removed := removedKeys (ev_vs ev) (st_keep st) in
  let files := imap (mark_file removed (st_keep st)) files in
  let '(status', reason) := next_status (dg_status g) (dg_status_reason g)
    (status ev g flags (st_keep st) y (removal_count ev st)) in
  {| dg_key := dg_key g; dg_media_type := dg_media_type g; dg_title := dg_title g; dg_year := dg_year g;
     dg_show_title := dg_show_title g; dg_season := dg_season g; dg_episode := dg_episode g;
     dg_server_id := dg_server_id g;
     dg_library_ids := match dg_library_ids g with Some l => Some l | None => Some (libraryIDsOf (ev_vs ev)) end;
     dg_external_ids := dg_external_ids g;
     dg_status := status'; dg_status_reason := reason; dg_flags := flags; dg_profile_id := pf_id p;
     dg_files := files; dg_reclaimable_bytes := reclaimable (ev_vs ev) (st_keep st);
     dg_signature := signature files; dg_cross_server := dg_cross_server g |}.

Definition run_evaluation (clock : time) (g : DuplicateGroup) (p : Profile) (env : EvalEnv) : DuplicateGroup :=
  let ev := newEvaluation g p env in
  let now := if is_zero (env_now env) then clock else env_now env in
  let '(st, y) := annotate ev now (ev_decide ev) in
  finish ev p g st y (explain ev st (dg_files g)).

(** [Evaluate]; [clock] is [time.Now()], used when the environment has no time. *)
Definition Evaluate (clock : time) (g : DuplicateGroup) (p : Profile) (env : EvalEnv) :
    eval_error + DuplicateGroup :=
  match checkEvaluable g with
  | Some err => inl err
  | None => inr (run_evaluation clock g p env)
  end.
End evaluate.
