(* ===== verification/Fixtures.v ===== *)
(** * Concrete inputs

    Two movie versions, a profile and an environment on which the theorems'
    hypotheses are shown to hold, with concrete instances of the parameters:
    doublestar restricted to literal patterns, and a regexp syntax that accepts
    nothing. *)

From S2P Require Import Prelude GoStd GoFloat Models DiscPaths Paths Titles Versions Criteria Ranking Flags CrossServer Decide Explain Evaluate.
Local Open Scope string_scope.
Local Open Scope Z_scope.

#[export] Instance fx_unicode : Unicode := latin1_unicode.
#[export] Instance fx_doublestar : Doublestar := {|
  ds_valid := fun p => negb (hasGlobMeta p);
  ds_match := String.eqb;
|}.
#[export] Instance fx_regex : RegexSyntax := {| regexp_compile := fun _ => None |}.

Definition fx_part (path : string) (size : Z) : MediaPart := {|
  mp_path := path; mp_local_path := ""; mp_size := size; mp_duration := 0; mp_exists := Some true;
  mp_accessible := Some true; mp_shared_with := []; mp_shortcut_of := []; mp_link_count := 1; mp_inode := "";
  mp_item_id := "" |}.

Definition fx_full (key : string) (id : Z) (res : string) (parts : list MediaPart) (arr : option ArrFileInfo)
    (disc : option DiscInfo) (others : list OtherListing) (report_only : list string) : MediaVersion := {|
  mv_key := key; mv_server_id := 1; mv_library_id := 1; mv_library_title := "Movies";
  mv_section_key := "1"; mv_rating_key := "100"; mv_media_id := id; mv_item_title := "Dune";
  mv_optimized := false; mv_item_key_id := ""; mv_source_id := ""; mv_episode_end := 0;
  mv_report_only := report_only; mv_parts := parts; mv_container := "mkv";
  mv_duration_ms := 9300000; mv_bitrate_kbps := 9000; mv_video_bitrate := 8000; mv_width := 1920;
  mv_height := 1080; mv_resolution := res; mv_video_codec := "hevc"; mv_bit_depth := 10;
  mv_dynamic_range := "sdr"; mv_audio_tracks := []; mv_subtitle_count := 0; mv_source := "bluray";
  mv_edition := ""; mv_added_at := 63808000000000000000; mv_arr := arr; mv_disc := disc;
  mv_watch := None; mv_other_servers := others |}.

Definition fx_version (key : string) (id : Z) (res path : string) (size : Z) : MediaVersion :=
  fx_full key id res [fx_part path size] None None [] [].

Definition fx_disc_at (roots : list string) : DiscInfo := {|
  di_type := DiscBluray; di_root := "/m/Dune (2021)/disc"; di_local_root := "/data/m/Dune (2021)/disc";
  di_file_count := 12; di_main_feature := "00001.mpls"; di_roots := roots; di_local_roots := [];
  di_owned_entries := ["/data/m/Dune (2021)/disc/BDMV"]; di_total_bytes := 40000000000;
  di_feature_bytes := 38000000000; di_freed_bytes := 40000000000; di_hardlinked_files := 0;
  di_fingerprint := "f1"; di_is_3d := false; di_removable := true; di_problem := ""; di_tracked_clip := "";
  di_plex_items := []; di_plex_media_ids := [] |}.
Definition fx_disc_info : DiscInfo := fx_disc_at [].

Definition fx_a : MediaVersion :=
  fx_version "plex:1:11" 11 "2160p" "/m/Dune (2021)/Dune (2021) 2160p.mkv" 50000000000.
Definition fx_b : MediaVersion :=
  fx_version "plex:1:12" 12 "1080p" "/m/Dune (2021)/Dune (2021) 1080p.mkv" 9000000000.

Definition fx_file (v : MediaVersion) : GroupFile := {|
  gf_version := v; gf_decision := ""; gf_engine_decision := ""; gf_override := ""; gf_rank := 0;
  gf_reasons := []; gf_deciding_criterion := ""; gf_protected := false; gf_protected_reason := [] |}.

Definition fx_group_of (files : list GroupFile) : DuplicateGroup := {|
  dg_key := "plex:1:100"; dg_media_type := MediaTypeMovie; dg_title := "Dune"; dg_year := 2021;
  dg_show_title := ""; dg_season := 0; dg_episode := 0; dg_server_id := 1; dg_library_ids := None;
  dg_external_ids := ∅; dg_status := ""; dg_status_reason := []; dg_flags := []; dg_profile_id := 0;
  dg_files := files; dg_reclaimable_bytes := 0; dg_signature := ""; dg_cross_server := None |}.
Definition fx_group : DuplicateGroup := fx_group_of [fx_file fx_b; fx_file fx_a].

Definition fx_criterion (t : string) : Criterion := {|
  cr_type := t; cr_enabled := true; cr_direction := DirectionHigher; cr_order := [];
  cr_tolerance_percent := f0; cr_min_delta := f0; cr_patterns := []; cr_value := "" |}.
Definition fx_profile : Profile := {|
  pf_id := 7; pf_criteria := [fx_criterion CritHealth; fx_criterion CritResolution; fx_criterion CritFileSize];
  pf_keep_count := 1; pf_keep_per := KeepPerNone; pf_protections := [] |}.

Definition fx_env : EvalEnv := {|
  env_now := 63900000000000000000; env_min_age := 0; env_libraries := ∅;
  env_different_arr_intentional := false; env_max_group_size := 4; env_allow_disc_removal := false;
  env_keep_playable_copy := true |}.

Definition fx_result : DuplicateGroup := run_evaluation 0 fx_group fx_profile fx_env.

Example fx_decisions :
  map gf_decision (dg_files fx_result) = [DecisionRemove; DecisionKeep] /\
  map gf_deciding_criterion (dg_files fx_result) = [CritResolution; CritResolution] /\
  dg_status fx_result = GroupPending /\ dg_reclaimable_bytes fx_result = 9000000000 /\ dg_flags fx_result = [].
Proof. split_and!; by vm_compute. Qed.
