(* ===== verification/Validate.v ===== *)
(** * Re-checking the decisions

    [ValidateDecisions] (internal/engine/evaluate.go) and [otherServerProblems]
    (crossserver.go): the invariants the API checks before an approval and the
    executor before acting. *)

From S2P Require Import Prelude GoStd GoFloat Models UnionFind DiscPaths Paths Titles Versions CrossServer.
Local Open Scope string_scope.
Local Open Scope Z_scope.

Inductive problem :=
  | PNoFiles (group : string)
  | PNoDecision (key decision : string)
  | PNothingKept
  | PNothingAvailable
  | PProtected (key : string)
  | PShared (key : string)
  | POptimized (key : string)
  | PDiscMember (key path : string)
  | PDiscTV (key : string)
  | PDiscType (key kind : string)
  | PDiscUnsafe (key : string)
  | PIntentional (key arr : string)
  | PSameFile (key kept : string)
  | PMinAge
  | PQueueBusy
  | POtherServer (key reason : string).

Section validate.
Context `{Unicode}.

Definition problem_text (p : problem) : string :=
  match p with
  | PNoFiles g => "group " +:+ quote g +:+ " has no files"
  | PNoDecision k d => "version " +:+ k +:+ " has no valid decision (" +:+ quote d +:+ ")"
  | PNothingKept => "no version would be kept"
  | PNothingAvailable => "no available, accessible, non-optimized version would be kept"
  | PProtected k => "protected version " +:+ k +:+ " would be removed"
  | PShared k => "version " +:+ k +:+ " shares its file with other episodes"
  | POptimized k => "optimized version " +:+ k +:+ " would be removed"
  | PDiscMember k p => "version " +:+ k +:+ ": its file " +:+ p +:+
      " lies inside a full-disc backup (a disc is only removed as a whole)"
  | PDiscTV k => "version " +:+ k +:+ " is a full-disc backup in a TV library (always kept)"
  | PDiscType k t => "version " +:+ k +:+ " is a " +:+ t +:+ " backup, which is never removed"
  | PDiscUnsafe k => "version " +:+ k +:+ " is a full-disc backup that cannot be removed safely"
  | PIntentional k a => "version " +:+ k +:+ " is tracked by " +:+ a +:+
      " and versions tracked by different *arr instances are treated as intentional"
  | PSameFile k j => "version " +:+ k +:+ " is the same file as kept version " +:+ j
  | PMinAge => "versions to remove are younger than the minimum age"
  | PQueueBusy => "the *arr has an active download or import for this title"
  | POtherServer k r => "version " +:+ k +:+ " is " +:+ r
  end.

(** A kept version that would still be there: available and reachable. *)
Definition available_version (v : MediaVersion) : bool :=
  negb (isOptimized v) && negb (isUnavailable v) && negb (isInaccessible v).

Definition decides (d : string) (f : GroupFile) : bool := String.eqb (gf_decision f) d.
Definition decided (d : string) (fs : list GroupFile) : list nat :=
  List.filter (fun i => match fs !! i with Some f => decides d f | None => false end) (seq 0 (length fs)).

Definition disc_problems (mt : string) (v : MediaVersion) : list problem :=
  match mv_disc v with
  | None => []
  | Some d =>
    if String.eqb mt MediaTypeEpisode then [PDiscTV (mv_key v)]
    else if discProtectOnly (di_type d) then [PDiscType (mv_key v) (discLabel (di_type d))]
    else if negb (di_removable d) || (length (di_owned_entries d) =? 0)%nat || blank (di_local_root d)
    then [PDiscUnsafe (mv_key v)] else []
  end.

(** The problems of one removed file. *)
Definition removed_problems (g : DuplicateGroup) (comp : list nat) (kept : list nat) (r : nat) (f : GroupFile) :
    list problem :=
  let v := gf_version f in
  let key := mv_key v in
  ((if gf_protected f then [PProtected key] else []) ++
   (if isShared v then [PShared key] else []) ++
   (if isOptimized v then [POptimized key] else []) ++
   (match discMemberPath v with Some p => [PDiscMember key p] | None => [] end) ++
   disc_problems (dg_media_type g) v ++
   (match mv_arr v with
    | Some a => if has_flag (dg_flags g) FlagIntentionalArr && negb (af_instance_id a =? 0)
                then [PIntentional key (arrName a)] else []
    | None => []
    end) ++
   (match find (fun k => bool_decide (comp !! k = comp !! r)) kept with
    | Some k => [PSameFile key (key_of (map gf_version (dg_files g)) k)]
    | None => []
    end))%list.

(** [otherServerProblems]: the removed versions another server's item needs. *)
Definition otherServerProblems (fs : list GroupFile) (removed : list nat) : list problem :=
  let versions := omap (fun r => gf_version <$> fs !! r) removed in
  let keys := map mv_key versions in
  omap (fun v => (fun e => POtherServer (mv_key v) (onlyCopyReason e)) <$>
                 find (needs_copy keys) (mv_other_servers v)) versions.

(** The problems in the order of the source; none means the decisions pass. *)
Definition decision_problems (g : DuplicateGroup) : list problem :=
  let fs := dg_files g in
  match fs with
  | [] => [PNoFiles (dg_key g)]
  | _ =>
    let kept := decided DecisionKeep fs in
    let removed := decided DecisionRemove fs in
    let some_removed := (0 <? length removed)%nat in
    let available := existsb (fun f => decides DecisionKeep f && available_version (gf_version f)) fs in
    let comp := sameFileComponents (map gf_version fs) in
    (flat_map (fun f => if decides DecisionKeep f || decides DecisionRemove f then []
                        else [PNoDecision (mv_key (gf_version f)) (gf_decision f)]) fs ++
     (if (length kept =? 0)%nat then [PNothingKept]
      else if some_removed && negb available then [PNothingAvailable] else []) ++
     flat_map (fun r => match fs !! r with
                        | Some f => removed_problems g comp kept r f
                        | None => []
                        end) removed ++
     (if some_removed && has_flag (dg_flags g) FlagMinAge then [PMinAge] else []) ++
     (if some_removed && has_flag (dg_flags g) FlagArrQueueBusy then [PQueueBusy] else []) ++
     otherServerProblems fs removed)%list
  end.

(** [ValidateDecisions]: the error text, none when every invariant holds. *)
Definition ValidateDecisions (g : DuplicateGroup) : option string :=
  match decision_problems g with
  | [] => None
  | ps => Some ("safety invariant violated: " +:+ join "; " (map problem_text ps))
  end.
End validate.
