(* ===== verification/EvaluateFacts.v ===== *)
(** * Facts about evaluation

    What [Evaluate] writes: the files' decisions, the flags it owns, and the
    facts a removed version satisfies. *)

From S2P Require Import Prelude GoStd GoFloat Models UnionFind DiscPaths Paths Titles Versions Criteria Ranking Flags CrossServer Decide DecideFacts Explain Evaluate Validate.

(** ** Flag lists *)

Lemma foldl_flags {A} (step : list string -> A -> list string) (P : A -> string -> Prop) l flags f :
  (forall flags x, f ∈ step flags x <-> f ∈ flags \/ P x f) ->
  f ∈ foldl step flags l <-> f ∈ flags \/ exists x, x ∈ l /\ P x f.
Proof.
  intros Hs. revert flags. induction l as [|x l IH]; intros flags; simpl.
  - split; [by left |]. intros [?|(x & Hx & _)]; [done | by apply elem_of_nil in Hx].
  - rewrite IH, Hs. setoid_rewrite elem_of_cons. naive_solver.
Qed.

Lemma elem_of_add_all f flags l : f ∈ foldl addFlag flags l <-> f ∈ flags \/ f ∈ l.
Proof.
  rewrite (foldl_flags _ (fun x f => f = x)); [| intros; apply elem_of_addFlag]. set_solver.
Qed.

(** The flags of the versions alone. *)
Definition version_flag_names : list string :=
  [FlagUnanalyzed; FlagSample; FlagMultiEpisode; FlagHardlinked; FlagStacked; FlagUnavailableVersion;
   FlagFullDisc; FlagDiscUnreadable; FlagDiscTracked; FlagManualOnly; FlagReportOnly; FlagSameFile].

Section facts.
Context `{Unicode} `{Doublestar} `{RegexSyntax}.

Lemma versionFlags_names mt vs f : f ∈ versionFlags mt vs -> f ∈ version_flag_names.
Proof.
  unfold versionFlags. rewrite elem_of_flag_if. intros [Hf|[_ ->]]; [| set_solver].
  revert Hf. apply (foldl_inv _ (fun fl => f ∈ fl -> f ∈ version_flag_names)); [set_solver |].
  intros fl [v p] _ IH. unfold one_version_flags. rewrite !elem_of_flag_if.
  intros Hf. repeat (destruct Hf as [Hf|[_ ->]]; [| set_solver]). by apply IH.
Qed.

(** The decision-dependent flags of version [i]. *)
Definition has_decision_flag (ev : evaluation) (st : dstate) (i : nat) (f : string) : Prop :=
  exists v, ev_vs ev !! i = Some v /\
    ((kept st i = false /\ f = FlagArrUntrackedKeeper /\
      exists a, mv_arr v = Some a /\ keptTrackedBy ev st (af_instance_id a) = false) \/
     (kept st i = true /\ eligible ev i = true /\
      ((f = FlagArrCutoffUnmet /\ exists a, mv_arr v = Some a /\ af_quality_cutoff_not_met a = true) \/
       (f = FlagMissingKeeperFile /\ isInaccessible v = true)))).

Lemma elem_of_decision_flags ev st i flags f :
  f ∈ decision_flags ev st i flags <-> f ∈ flags \/ has_decision_flag ev st i f.
Proof.
  unfold decision_flags, has_decision_flag.
  destruct (ev_vs ev !! i) as [v|]; [| split; [by left |]; by intros [?|(v & ? & _)]].
  destruct (kept st i); simpl; [destruct (eligible ev i); simpl |]; rewrite ?elem_of_flag_if;
    [| split; [by left |]; intros [?|(v' & [= <-] & [(? & _)|(_ & ? & _)])]; done |].
  - split.
    + intros [[?|[Hq ->]]|[Ha ->]]; [by left | |]; right; exists v; split; try done; right; split_and!; try done.
      * left. split; [done |]. destruct (mv_arr v) as [a|]; [by exists a | done].
      * by right.
    + intros [?|(v' & [= <-] & [(? & _)|(_ & _ & [(-> & a & -> & ->)|[-> ->]])])]; try done; tauto.
  - split.
    + intros [?|[Ha ->]]; [by left |]. right. exists v. split; [done |]. left. split_and!; try done.
      destruct (mv_arr v) as [a|]; [| done]. exists a. split; [done |]. by apply negb_true_iff.
    + intros [?|(v' & [= <-] & [(_ & -> & a & -> & ->)|(? & _)])]; try done; tauto.
Qed.

Definition listing_flag_names : list string :=
  [FlagOtherServerListing; FlagOtherServerPossible; FlagOtherServerKeeps].

Lemma crossServerFlags_names g vs keep r flags f :
  f ∈ crossServerFlags g vs keep r flags -> f ∈ flags \/ f ∈ FlagOtherServerUnread :: listing_flag_names.
Proof.
  unfold crossServerFlags. rewrite elem_of_flag_if. intros [Hf|[_ ->]]; [| set_solver].
  revert Hf. apply (foldl_inv _ (fun fl => f ∈ fl -> f ∈ flags \/ f ∈ FlagOtherServerUnread :: listing_flag_names));
    [by left |].
  intros fl [i v] _ IH. case_goal; [done |].
  apply (foldl_inv _ (fun fl => f ∈ fl -> f ∈ flags \/ f ∈ FlagOtherServerUnread :: listing_flag_names)); [done |].
  intros fl' e _ IH'. unfold listing_flags. rewrite elem_of_flag_if.
  intros [Hf|[_ ->]]; [| set_solver]. revert Hf. repeat case_goal; rewrite ?elem_of_addFlag;
    set_solver.
Qed.

Lemma crossServerFlags_incl g vs keep r flags f :
  f ∈ flags -> f ∈ crossServerFlags g vs keep r flags.
Proof.
  intros Hf. unfold crossServerFlags. rewrite elem_of_flag_if. left.
  apply (foldl_inv _ (fun fl => f ∈ fl)); [done |]. intros fl [i v] _ IH. case_goal; [done |].
  apply (foldl_inv _ (fun fl => f ∈ fl)); [done |]. intros fl' e _ IH'.
  unfold listing_flags. rewrite elem_of_flag_if. left. repeat case_goal; rewrite ?elem_of_addFlag; auto.
Qed.

(** The flags before the cross-server ones. *)
Definition local_flag (ev : evaluation) (g : DuplicateGroup) (st : dstate) (y : young) (f : string) : Prop :=
  (f ∈ dg_flags g /\ engineOwnedFlag f = false) \/
  f ∈ versionFlags (dg_media_type g) (ev_vs ev) \/
  (ev_intentional ev = true /\ f = FlagIntentionalArr) \/
  (exists i, i < ev_n ev /\ has_decision_flag ev st i f) \/
  (has_young y = true /\ f = FlagMinAge) \/
  (watch_unreadable ev (removal_count ev st) = true /\ f = FlagWatchUnreadable).

Lemma finish_flags_local ev g st y f :
  f <> ""%string -> local_flag ev g st y f -> f ∈ finish_flags ev g st y.
Proof.
  intros Hne Hl. unfold finish_flags. rewrite elem_of_sortedUnique. split; [| done].
  apply crossServerFlags_incl. rewrite !elem_of_flag_if. unfold for_range.
  rewrite (foldl_flags _ (has_decision_flag ev st)) by (intros; apply elem_of_decision_flags).
  rewrite elem_of_flag_if, !elem_of_add_all, elem_of_lfilter.
  setoid_rewrite elem_of_seq. rewrite negb_true_iff.
  destruct Hl as [[? ?]|[?|[?|[(i & ? & ?)|[?|?]]]]]; try tauto.
  left. left. right. exists i. split; [lia | done].
Qed.

Lemma finish_flags_inv ev g st y f :
  f ∈ finish_flags ev g st y ->
  f <> ""%string /\ (local_flag ev g st y f \/ f ∈ FlagOtherServerUnread :: listing_flag_names).
Proof.
  unfold finish_flags. rewrite elem_of_sortedUnique. intros [Hf Hne]. split; [done |].
  apply crossServerFlags_names in Hf as [Hf|?]; [left | by right]. revert Hf.
  rewrite !elem_of_flag_if. unfold for_range.
  rewrite (foldl_flags _ (has_decision_flag ev st)) by (intros; apply elem_of_decision_flags).
  rewrite elem_of_flag_if, !elem_of_add_all, elem_of_lfilter.
  setoid_rewrite elem_of_seq. rewrite negb_true_iff, elem_of_nil. unfold local_flag.
  intros [[[[[[?|[? ?]]|?]|?]|(i & ? & ?)]|?]|?]; try tauto.
  do 3 right. left. exists i. split; [lia | done].
Qed.

(** The flags Evaluate recomputes follow from this evaluation alone. *)
Lemma intentional_flag ev g st y :
  FlagIntentionalArr ∈ finish_flags ev g st y <-> ev_intentional ev = true.
Proof.
  split.
  - intros [_ [Hl|Hl]]%finish_flags_inv; [| by vm_compute in Hl; set_solver].
    destruct Hl as [[_ Ho]|[Hv|[[? _]|[(i & _ & v & _ & Hd)|[[_ Hm]|[_ Hm]]]]]]; try done.
    + by apply versionFlags_names in Hv; vm_compute in Hv; set_solver.
    + naive_solver.
  - intros Hi. apply finish_flags_local; [done |]. unfold local_flag. tauto.
Qed.
End facts.

(** ** What an evaluation writes *)

Section results.
Context `{Unicode} `{Doublestar} `{RegexSyntax}.
Context (clock : time) (g : DuplicateGroup) (p : Profile) (env : EvalEnv).

Definition the_ev : evaluation := newEvaluation g p env.
Definition the_now : time := if is_zero (env_now env) then clock else env_now env.
Definition the_state : dstate := fst (annotate the_ev the_now (ev_decide the_ev)).
Definition the_young : young := snd (annotate the_ev the_now (ev_decide the_ev)).
Definition the_group : DuplicateGroup := run_evaluation clock g p env.

Lemma the_state_same : same_decisions the_state (ev_decide the_ev).
Proof. apply annotate_decisions. Qed.

Lemma the_kept i : kept the_state i = kept (ev_decide the_ev) i.
Proof. unfold kept. by destruct the_state_same as [-> _]. Qed.

Lemma the_protected i : protected the_state i = protected (ev_decide the_ev) i.
Proof. unfold protected. by destruct the_state_same as (_ & -> & _). Qed.

Lemma the_keep : st_keep the_state = st_keep (ev_decide the_ev).
Proof. apply the_state_same. Qed.

Lemma the_group_eq :
  the_group = finish the_ev p g the_state the_young (explain the_ev the_state (dg_files g)).
Proof.
  unfold the_group, run_evaluation, the_state, the_young, the_now.
  fold the_ev. by destruct (annotate _ _ _).
Qed.

Definition the_removed : list string := removedKeys (ev_vs the_ev) (st_keep the_state).

Lemma the_files :
  dg_files the_group =
    imap (fun i f => mark_file the_removed (st_keep the_state) i (explain_file the_ev the_state i f)) (dg_files g).
Proof.
  rewrite the_group_eq. unfold finish.
  destruct (next_status _ _ _) as [s r]. simpl. unfold explain.
  apply list_eq. intros i. rewrite !list_lookup_imap. by destruct (dg_files g !! i).
Qed.

Lemma the_vs : ev_vs the_ev = map gf_version (dg_files g).
Proof. apply newEvaluation_vs. Qed.

Lemma the_n : ev_n the_ev = length (dg_files g).
Proof. unfold ev_n. by rewrite the_vs, length_map. Qed.

Lemma the_ok : ev_ok the_ev.
Proof. apply newEvaluation_ok. Qed.

(** Every file of the result comes from the file at its place. *)
Lemma the_file i f' :
  dg_files the_group !! i = Some f' ->
  exists f, dg_files g !! i = Some f /\
    gf_version f' = mark_listings the_removed (kept the_state i) (gf_version f) /\
    gf_decision f' = decision_of (kept the_state i) /\
    gf_engine_decision f' = decision_of (bget (engineKeep the_ev) i) /\
    gf_protected f' = protected the_state i /\
    gf_protected_reason f' = reasons_at the_state i /\
    gf_rank f' = S (ev_pos the_ev i) /\ gf_override f' = gf_override f /\
    ev_vs the_ev !! i = Some (gf_version f).
Proof.
  rewrite the_files, list_lookup_imap. intros (f & Hf & ->)%fmap_Some. exists f.
  rewrite the_vs, list_lookup_fmap, Hf. done.
Qed.

Lemma the_flags : dg_flags the_group = finish_flags the_ev g the_state the_young.
Proof. rewrite the_group_eq. unfold finish. by destruct (next_status _ _ _). Qed.

Definition the_fresh : string * list status_item * bool :=
  status the_ev g (dg_flags the_group) (st_keep the_state) the_young (removal_count the_ev the_state).

Lemma the_status :
  (dg_status the_group, dg_status_reason the_group) = next_status (dg_status g) (dg_status_reason g) the_fresh.
Proof.
  unfold the_fresh. rewrite the_flags, the_group_eq. unfold finish.
  by destruct (next_status _ _ _).
Qed.

Lemma the_fields :
  dg_media_type the_group = dg_media_type g /\ dg_key the_group = dg_key g /\
  length (dg_files the_group) = length (dg_files g).
Proof.
  rewrite the_files, length_imap, the_group_eq. unfold finish. by destruct (next_status _ _ _).
Qed.

(** ** Marking listings changes no other property of a version *)

Lemma marked_same_file_keys r k v : sameFileKeys (mark_listings r k v) = sameFileKeys v.
Proof. done. Qed.

Lemma the_same_components :
  sameFileComponents (map gf_version (dg_files the_group)) = ev_same_comp the_ev.
Proof.
  rewrite (eo_comp _ the_ok). unfold sameFileComponents. f_equal.
  rewrite the_vs, !map_map, the_files. apply list_eq. intros i.
  rewrite !list_lookup_fmap, list_lookup_imap. by destruct (dg_files g !! i).
Qed.

Lemma decision_of_keep b : String.eqb (decision_of b) DecisionKeep = b.
Proof. by destruct b. Qed.
Lemma decision_of_remove b : String.eqb (decision_of b) DecisionRemove = negb b.
Proof. by destruct b. Qed.

Lemma elem_of_decided d i :
  i ∈ decided d (dg_files the_group) <->
  i < ev_n the_ev /\ d = decision_of (kept the_state i).
Proof.
  unfold decided. rewrite elem_of_lfilter, elem_of_seq, the_n.
  destruct the_fields as (_ & _ & Hlen). rewrite Hlen. split.
  - intros [Hi Hd]. split; [lia |]. destruct (dg_files the_group !! i) as [f|] eqn:Ef; [| done].
    apply the_file in Ef as (f0 & _ & _ & Hdec & _). unfold decides in Hd. rewrite Hdec in Hd.
    symmetry. by apply String.eqb_eq.
  - intros [Hi ->]. split; [lia |].
    destruct (dg_files the_group !! i) as [f|] eqn:Ef; [| apply lookup_ge_None in Ef; lia].
    apply the_file in Ef as (f0 & _ & _ & Hdec & _). unfold decides. rewrite Hdec. apply String.eqb_refl.
Qed.

Lemma elem_of_removed i :
  i ∈ decided DecisionRemove (dg_files the_group) <-> i < ev_n the_ev /\ kept the_state i = false.
Proof.
  rewrite elem_of_decided. destruct (kept the_state i); simpl; split; intros [? Hd]; split; try done;
    by vm_compute in Hd.
Qed.

Lemma elem_of_kept i :
  i ∈ decided DecisionKeep (dg_files the_group) <-> i < ev_n the_ev /\ kept the_state i = true.
Proof.
  rewrite elem_of_decided. destruct (kept the_state i); simpl; split; intros [? Hd]; split; try done;
    by vm_compute in Hd.
Qed.

(** A removed version has no reason to be protected. *)
Lemma removed_unprotected i v :
  ev_vs the_ev !! i = Some v -> kept the_state i = false ->
  protected the_state i = false /\ initial_reasons the_ev v = [].
Proof.
  rewrite the_kept, the_protected. intros Hv Hk.
  assert (Hp : protected (ev_decide the_ev) i = false).
  { destruct (protected (ev_decide the_ev) i) eqn:E; [| done].
    by rewrite (wf_kept _ _ (decide_wf the_ev) i E) in Hk. }
  split; [done |]. destruct (initial_reasons the_ev v) as [|r rs] eqn:E; [done |].
  assert (Hr : initial_reasons the_ev v <> []) by (rewrite E; done).
  apply (decide_protects the_ev i v Hv) in Hr. congruence.
Qed.
End results.
