(* ===== verification/Safety.v ===== *)
(** * The safety of evaluated decisions

    The lemmas that relate [Evaluate] to the invariants [ValidateDecisions]
    re-checks, and the status a group gets. *)

From S2P Require Import Prelude GoStd GoFloat Models UnionFind DiscPaths Paths Titles Versions Criteria Ranking Flags CrossServer Decide DecideFacts Explain Evaluate Validate EvaluateFacts.

(** ** Versions without a reason to be protected *)

Section unprotected.
Context `{Unicode} `{Doublestar} (ev : evaluation) (v : MediaVersion).

(** What the absence of protections says of a version. *)
Record removable : Prop := {
  rm_optimized : isOptimized v = false;
  rm_available : isUnavailable v = false;
  rm_shared : isShared v = false;
  rm_member : discMemberPath v = None;
  rm_intentional : forall a, mv_arr v = Some a -> ev_intentional ev && negb (af_instance_id a =? 0)%Z = false;
  rm_disc : forall d, mv_disc v = Some d ->
    String.eqb (ev_media_type ev) MediaTypeEpisode = false /\ discProtectOnly (di_type d) = false /\
    env_allow_disc_removal (ev_env ev) = true /\ di_removable d = true /\
    blank (di_local_root d) = false /\ di_owned_entries d <> [] /\ di_plex_items d = [];
  rm_shortcut : shortcutReasons v = [];
  rm_profile : forall pr, pr ∈ pf_protections (ev_profile ev) ->
    matchProtection pr v (env_libraries (ev_env ev)) = None;
  rm_report_only : reportOnlyReasons (ev_vs ev) = [];
}.

Lemma disc_reasons_nil mt env d :
  mv_disc v = Some d -> discProtectionReasons mt v env = [] ->
  String.eqb mt MediaTypeEpisode = false /\ discProtectOnly (di_type d) = false /\
  env_allow_disc_removal env = true /\ di_removable d = true /\
  blank (di_local_root d) = false /\ di_owned_entries d <> [] /\ di_plex_items d = [].
Proof.
  intros Hd. unfold discProtectionReasons. rewrite Hd.
  intros [H1 [H2 H3]%app_nil]%app_nil.
  destruct (String.eqb mt MediaTypeEpisode); [done |].
  destruct (env_allow_disc_removal env); simpl in *; [| done].
  destruct (discProtectOnly (di_type d)); [done |].
  destruct (di_removable d); simpl in H2; [| done].
  destruct (blank (di_local_root d)); simpl in H2; [done |].
  destruct (Nat.eqb_spec (length (di_owned_entries d)) 0); [done |].
  split_and!; try done; [| by destruct (di_plex_items d)]. by destruct (di_owned_entries d).
Qed.

Lemma initial_reasons_nil : initial_reasons ev v = [] -> removable.
Proof.
  unfold initial_reasons, protectionReasons, isShared, reportOnlyProtection.
  rewrite !app_nil. intros [(H1 & H2 & H3 & H4 & H5 & H6 & H7 & H8) H9]. split.
  - by destruct (isOptimized v).
  - destruct (isUnavailable v); [by destruct (readOnlyVersion v) | done].
  - unfold isShared. by rewrite H3.
  - by destruct (discMemberPath v).
  - intros a Ha. rewrite Ha in H7. by destruct (ev_intentional ev && negb (af_instance_id a =? 0)%Z).
  - intros d Hd. by apply (disc_reasons_nil (ev_media_type ev) (ev_env ev)).
  - done.
  - intros pr Hpr. destruct (matchProtection _ _ _) as [r|] eqn:E; [| done].
    assert (r ∈ omap (fun pr => matchProtection pr v (env_libraries (ev_env ev))) (pf_protections (ev_profile ev)))
      as Hr by (apply list_elem_of_omap; eauto).
    rewrite H8 in Hr. by apply elem_of_nil in Hr.
  - by destruct (reportOnlyReasons (ev_vs ev)).
Qed.
End unprotected.

(** ** Validation of the result *)

Section validation.
Context `{Unicode} `{Doublestar} `{RegexSyntax}.
Context (clock : time) (g : DuplicateGroup) (p : Profile) (env : EvalEnv).
Notation ev := (the_ev g p env).
Notation st := (the_state clock g p env).
Notation g' := (the_group clock g p env).
Notation removed := (decided DecisionRemove (dg_files g')).
Notation kept_files := (decided DecisionKeep (dg_files g')).

Lemma ev_env_eq : ev_env ev = env /\ ev_media_type ev = dg_media_type g /\ ev_profile ev = p.
Proof. unfold the_ev, newEvaluation. by destruct (rank _ _). Qed.

Lemma removed_removable i v :
  ev_vs ev !! i = Some v -> kept st i = false -> removable ev v.
Proof. intros Hv Hk. apply initial_reasons_nil. by apply (removed_unprotected clock g p env i). Qed.

Lemma removed_no_problems i f' :
  dg_files g' !! i = Some f' -> kept st i = false ->
  removed_problems g' (sameFileComponents (map gf_version (dg_files g'))) kept_files i f' = [].
Proof.
  intros Hf Hk. pose proof (the_file _ _ _ _ _ _ Hf) as (f & Hfi & Hv & _ & _ & Hp & _ & _ & _ & Hvs).
  pose proof (removed_removable i _ Hvs Hk) as [R1 R2 R3 R4 R5 R6 _ _ _].
  destruct (removed_unprotected _ _ _ _ _ _ Hvs Hk) as [Hpr _].
  unfold removed_problems. rewrite Hv, Hp, Hpr.
  change (isShared (mark_listings _ _ ?v)) with (isShared v).
  change (isOptimized (mark_listings _ _ ?v)) with (isOptimized v).
  change (discMemberPath (mark_listings _ _ ?v)) with (discMemberPath v).
  change (mv_arr (mark_listings _ _ ?v)) with (mv_arr v).
  rewrite R1, R3, R4. cbn [app].
  assert (Hd : forall r k, disc_problems (dg_media_type g') (mark_listings r k (gf_version f)) = []).
  { intros r k. unfold disc_problems. change (mv_disc (mark_listings r k (gf_version f))) with (mv_disc (gf_version f)).
    destruct (the_fields clock g p env) as (-> & _ & _). destruct ev_env_eq as (_ & <- & _).
    destruct (mv_disc (gf_version f)) as [d|] eqn:Ed; [| done].
    destruct (R6 d eq_refl) as (-> & -> & _ & -> & -> & Ho & _). by destruct (di_owned_entries d). }
  rewrite Hd. cbn [app].
  assert (Hi : has_flag (dg_flags g') FlagIntentionalArr = ev_intentional ev).
  { apply eq_true_iff_eq. unfold has_flag. rewrite mem_true, the_flags. apply intentional_flag. }
  assert (Ha : match mv_arr (gf_version f) with
    | Some a => if has_flag (dg_flags g') FlagIntentionalArr && negb (af_instance_id a =? 0)%Z
                then [PIntentional (mv_key (mark_listings (the_removed clock g p env) (kept st i) (gf_version f))) (arrName a)]
                else []
    | None => [] end = []).
  { destruct (mv_arr (gf_version f)) as [a|] eqn:Ea; [| done]. by rewrite Hi, (R5 a eq_refl). }
  rewrite Ha. cbn [app].
  destruct (find _ kept_files) as [k|] eqn:Ek; [| done]. exfalso.
  apply List.find_some in Ek as [Hin Hc]. apply list_elem_of_In, elem_of_kept in Hin as [Hlt Hkk].
  apply bool_decide_eq_true in Hc. rewrite the_same_components in Hc.
  rewrite !the_kept in *.
  rewrite (closed_same_spec ev (the_ok g p env) _ k i (proj2 (decide_closed ev (the_ok g p env)))) in Hkk;
    [congruence | done | | done].
  by apply lookup_lt_Some in Hvs.
Qed.

(** The removed keys as [ValidateDecisions] collects them. *)
Lemma validated_removed_keys k :
  k ∈ map mv_key (omap (fun r => gf_version <$> dg_files g' !! r) removed) ->
  k ∈ removedKeys (ev_vs ev) (st_keep st).
Proof.
  intros (v' & -> & (r & Hr & Hv)%list_elem_of_omap)%list_elem_of_fmap.
  apply fmap_Some in Hv as (f' & Hf & ->). apply elem_of_removed in Hr as [_ Hk].
  apply the_file in Hf as (f & _ & -> & _ & _ & _ & _ & _ & _ & Hvs).
  apply elem_of_removedKeys. exists r, (gf_version f). done.
Qed.

Lemma no_other_server_problems : otherServerProblems (dg_files g') removed = [].
Proof.
  unfold otherServerProblems. set (keys := map mv_key _).
  destruct (omap _ (omap _ removed)) as [|q l] eqn:E; [done |]. exfalso.
  assert (Hq : q ∈ q :: l) by set_solver. rewrite <- E in Hq.
  apply list_elem_of_omap in Hq as (v' & Hv' & Hfind).
  apply list_elem_of_omap in Hv' as (r & Hr & Hv). apply fmap_Some in Hv as (f' & Hf & ->).
  apply elem_of_removed in Hr as [_ Hk].
  apply the_file in Hf as (f & _ & Hver & _ & _ & _ & _ & _ & _ & Hvs). rewrite Hver in Hfind.
  apply fmap_Some in Hfind as (e' & He' & _). apply List.find_some in He' as [Hin Hn].
  apply list_elem_of_In in Hin. simpl in Hin. apply list_elem_of_fmap in Hin as (e & -> & He).
  change (needs_copy keys (set_item_keeps _ e)) with (needs_copy keys e) in Hn.
  pose proof (proj1 (decide_closed ev (the_ok g p env)) r _ e Hvs) as Hc.
  rewrite the_kept in Hk. rewrite <- (the_keep clock) in Hc.
  rewrite (needs_copy_mono e (removedKeys (ev_vs ev) (st_keep st)) keys) in Hc; [| | done].
  - specialize (Hc Hk He). done.
  - intros k. apply validated_removed_keys.
Qed.

Lemma decided_all f' : f' ∈ dg_files g' -> decides DecisionKeep f' || decides DecisionRemove f' = true.
Proof.
  intros (i & Hi)%list_elem_of_lookup. apply the_file in Hi as (f & _ & _ & Hd & _).
  unfold decides. rewrite Hd, decision_of_keep, decision_of_remove. by destruct (kept st i).
Qed.

(** Something is always kept. *)
Lemma some_kept : dg_files g <> [] -> exists i, i < ev_n ev /\ kept st i = true.
Proof.
  intros Hne. assert (Hn : 0 < ev_n ev) by (rewrite the_n; destruct (dg_files g); simpl; [done | lia]).
  destruct (kept st 0) eqn:E; [eauto |].
  destruct (ev_vs ev !! 0) as [v|] eqn:Ev; [| apply lookup_ge_None in Ev; unfold ev_n in Hn; lia].
  pose proof (removed_removable 0 v Ev E) as [R1 R2 _ _ _ _ _ _ _].
  destruct (decide_keeps_eligible ev (the_ok g p env) 0 Hn) as (j & _ & Hj).
  { rewrite (eligible_spec ev (the_ok g p env) 0 v Ev). unfold eligible_version. by rewrite R1, R2. }
  exists j. rewrite the_kept. split; [| done].
  apply bget_lt in Hj. by rewrite (wf_keep _ _ (decide_wf ev)) in Hj.
Qed.

(** When something is removed, an eligible version is kept. *)
Lemma removal_keeps_eligible i :
  i < ev_n ev -> kept st i = false -> exists j v, ev_vs ev !! j = Some v /\
    eligible_version v = true /\ eligible ev j = true /\ kept st j = true.
Proof.
  intros Hi Hk.
  destruct (ev_vs ev !! i) as [v|] eqn:Ev; [| apply lookup_ge_None in Ev; unfold ev_n in Hi; lia].
  pose proof (removed_removable i v Ev Hk) as [R1 R2 _ _ _ _ _ _ _].
  destruct (decide_keeps_eligible ev (the_ok g p env) i Hi) as (j & He & Hj).
  { rewrite (eligible_spec ev (the_ok g p env) i v Ev). unfold eligible_version. by rewrite R1, R2. }
  assert (Hlt : j < ev_n ev) by (apply bget_lt in Hj; by rewrite (wf_keep _ _ (decide_wf ev)) in Hj).
  destruct (ev_vs ev !! j) as [w|] eqn:Ew; [| apply lookup_ge_None in Ew; unfold ev_n in Hlt; lia].
  exists j, w. rewrite the_kept. split_and!; try done.
  by rewrite <- (eligible_spec ev (the_ok g p env) j w Ew).
Qed.
End validation.

Section verdict.
Context `{Unicode} `{Doublestar} `{RegexSyntax}.
Context (clock : time) (g : DuplicateGroup) (p : Profile) (env : EvalEnv).
Notation ev := (the_ev g p env).
Notation st := (the_state clock g p env).
Notation g' := (the_group clock g p env).
Notation removed := (decided DecisionRemove (dg_files g')).

(** The three problems [Evaluate] leaves to the group's status. *)
Definition left_problems : list problem :=
  let some_removed := (0 <? length removed)%nat in
  let available := existsb (fun f => decides DecisionKeep f && available_version (gf_version f)) (dg_files g') in
  ((if some_removed && negb available then [PNothingAvailable] else []) ++
   (if some_removed && has_flag (dg_flags g') FlagMinAge then [PMinAge] else []) ++
   (if some_removed && has_flag (dg_flags g') FlagArrQueueBusy then [PQueueBusy] else []))%list.

Lemma evaluate_problems : dg_files g <> [] -> decision_problems g' = left_problems.
Proof.
  intros Hne. unfold decision_problems, left_problems.
  assert (Hne' : dg_files g' <> []).
  { intros E. pose proof (the_fields clock g p env) as (_ & _ & Hl). rewrite E in Hl. by destruct (dg_files g). }
  destruct (dg_files g') as [|f0 fs] eqn:Efs; [done |]. rewrite <- Efs in *. clear Efs f0 fs Hne'.
  assert (Hp1 : flat_map (fun f => if decides DecisionKeep f || decides DecisionRemove f then []
    else [PNoDecision (mv_key (gf_version f)) (gf_decision f)]) (dg_files g') = []).
  { assert (Hall : forall f, f ∈ dg_files g' -> decides DecisionKeep f || decides DecisionRemove f = true)
      by (intros f; apply decided_all).
    induction (dg_files g') as [|f l IH]; simpl; [done |]. rewrite Hall by set_solver. apply IH. set_solver. }
  assert (Hp2 : length (decided DecisionKeep (dg_files g')) =? 0 = false).
  { destruct (some_kept clock g p env Hne) as (i & Hi & Hk). apply Nat.eqb_neq. intros Hl.
    assert (Hin : i ∈ decided DecisionKeep (dg_files g')) by (by apply elem_of_kept).
    destruct (decided DecisionKeep _); [by apply elem_of_nil in Hin | done]. }
  assert (Hp3 : flat_map (fun r => match dg_files g' !! r with
      | Some f => removed_problems g' (sameFileComponents (map gf_version (dg_files g')))
                    (decided DecisionKeep (dg_files g')) r f
      | None => [] end) removed = []).
  { assert (Hall : forall r, r ∈ removed -> kept st r = false) by (intros r Hr; by apply elem_of_removed in Hr as [_ ?]).
    induction removed as [|r l IH]; [done |]. cbn [flat_map]. rewrite IH by set_solver.
    destruct (dg_files g' !! r) as [f|] eqn:Ef; [| done].
    rewrite (removed_no_problems clock g p env r f Ef); [done | apply Hall; set_solver]. }
  rewrite Hp1, Hp2, Hp3, (no_other_server_problems clock g p env), app_nil_r. cbn [app]. done.
Qed.

(** Without the flag for an unreachable keeper, the keeper is available. *)
Lemma accessible_keeper :
  FlagMissingKeeperFile ∉ dg_flags g' -> (0 <? length removed)%nat = true ->
  existsb (fun f => decides DecisionKeep f && available_version (gf_version f)) (dg_files g') = true.
Proof.
  intros Hf Hr. apply Nat.ltb_lt in Hr.
  destruct removed as [|r l] eqn:E; [simpl in Hr; lia |].
  assert (Hin : r ∈ removed) by (rewrite E; set_solver).
  apply elem_of_removed in Hin as [Hlt Hk].
  destruct (removal_keeps_eligible clock g p env r Hlt Hk) as (j & v & Hv & Hel & He & Hkj).
  assert (Hacc : isInaccessible v = false).
  { apply not_true_iff_false. intros Hi. apply Hf. rewrite the_flags.
    apply finish_flags_local; [done |]. unfold local_flag. do 3 right. left. exists j.
    split; [by apply lookup_lt_Some in Hv |]. exists v. split; [done |]. right. split_and!; try done. by right. }
  assert (Hj : j < length (dg_files g)).
  { apply lookup_lt_Some in Hv. by rewrite <- (the_n g p env). }
  pose proof (the_fields clock g p env) as (_ & _ & Hl).
  destruct (dg_files g' !! j) as [f|] eqn:Ef; [| apply lookup_ge_None in Ef; lia].
  apply existsb_elem. exists f. split; [by eapply list_elem_of_lookup_2 |].
  apply the_file in Ef as (f0 & _ & Hver & Hd & _ & _ & _ & _ & _ & Hvs).
  rewrite Hv in Hvs. injection Hvs as ->.
  unfold decides. rewrite Hd, Hkj. simpl. rewrite Hver. unfold available_version.
  change (isOptimized (mark_listings _ _ ?v)) with (isOptimized v).
  change (isUnavailable (mark_listings _ _ ?v)) with (isUnavailable v).
  change (isInaccessible (mark_listings _ _ ?v)) with (isInaccessible v).
  rewrite Hacc. unfold eligible_version in Hel. by rewrite Hel.
Qed.

(** ** The fresh status *)

Notation fresh := (the_fresh clock g p env).

Lemma fresh_allows :
  fst (fst fresh) = GroupPending \/ snd fresh = true ->
  FlagMissingKeeperFile ∉ dg_flags g' /\ FlagMinAge ∉ dg_flags g' /\ FlagArrQueueBusy ∉ dg_flags g'.
Proof.
  unfold the_fresh, status.
  destruct (reportOnlyReasons (ev_vs ev)); [| by (let E := fresh in intros [E|E]; cbn [fst snd] in E; [vm_compute in E |]; discriminate E)].
  destruct (review_reasons ev g (dg_flags g') (st_keep st)) eqn:Er; [| by (let E := fresh in intros [E|E]; cbn [fst snd] in E; [vm_compute in E |]; discriminate E)].
  assert (Hm : FlagMissingKeeperFile ∉ dg_flags g').
  { intros Hin. unfold review_reasons, flagged, has_flag in Er.
    assert (Hb : mem FlagMissingKeeperFile (dg_flags g') = true) by (by apply mem_true).
    rewrite Hb in Er. rewrite !app_nil in Er. naive_solver. }
  case_goal; [by (let E := fresh in intros [E|E]; cbn [fst snd] in E; [vm_compute in E |]; discriminate E) |].
  unfold deferred_reasons, flagged, has_flag.
  destruct (mem FlagMinAge (dg_flags g')) eqn:E1, (mem FlagArrQueueBusy (dg_flags g')) eqn:E2,
    (mem FlagPlaying (dg_flags g')) eqn:E3; simpl;
    try (by (let E := fresh in intros [E|E]; cbn [fst snd] in E; [vm_compute in E |]; discriminate E));
    apply mem_false in E1, E2; done.
Qed.

Lemma status_cases :
  dg_status g' = GroupPending \/ dg_status g' = GroupQueued ->
  dg_status g <> GroupIgnored /\ (fst (fst fresh) = GroupPending \/ snd fresh = true).
Proof.
  pose proof (the_status clock g p env) as Hs.
  assert (Hfr : fst (fst fresh) ∈ [GroupPending; GroupReview; GroupDeferred; GroupProtected]).
  { unfold the_fresh, status.
    destruct (reportOnlyReasons (ev_vs ev)), (review_reasons ev g (dg_flags g') (st_keep st)),
      (removal_count ev st =? 0)%nat, (deferred_reasons ev (dg_flags g') (the_young clock g p env));
      cbn [fst]; set_solver. }
  unfold next_status in Hs. destruct fresh as [[s r] live]. cbn [fst snd] in *.
  destruct (String.eqb_spec (dg_status g) GroupIgnored) as [Ei|Ei].
  - injection Hs as -> _. rewrite Ei. intros [Hd|Hd]; discriminate Hd.
  - intros Hd. split; [done |].
    destruct (String.eqb (dg_status g) GroupQueued && (String.eqb s GroupPending || live)) eqn:Eq;
      injection Hs as Hs _; rewrite Hs in Hd.
    + apply andb_true_iff in Eq as [_ [?%String.eqb_eq|?]%orb_true_iff]; auto.
    + destruct Hd as [Hd|Hd]; [by left |]. exfalso. rewrite Hd in Hfr. clear -Hfr.
      rewrite !elem_of_cons, elem_of_nil in Hfr. destruct Hfr as [E|[E|[E|[E|E]]]]; try done; discriminate E.
Qed.

Lemma pending_no_problems :
  dg_files g <> [] -> dg_status g' = GroupPending \/ dg_status g' = GroupQueued ->
  decision_problems g' = [].
Proof.
  intros Hne Hs. apply status_cases in Hs as [_ Hf]. apply fresh_allows in Hf as (Hm & Ha & Hq).
  rewrite evaluate_problems by done. unfold left_problems.
  destruct (0 <? length removed)%nat eqn:Er; [| done].
  rewrite accessible_keeper by done. simpl. unfold has_flag.
  apply mem_false in Ha, Hq. by rewrite Ha, Hq.
Qed.
End verdict.

Lemma checkEvaluable_files g : checkEvaluable g = None -> dg_files g <> [].
Proof. unfold checkEvaluable. by destruct (dg_files g). Qed.

(** Every evaluated group came from its run. *)
Lemma Evaluate_inr `{Unicode} `{Doublestar} `{RegexSyntax} clock g p env g' :
  Evaluate clock g p env = inr g' -> checkEvaluable g = None /\ g' = the_group clock g p env.
Proof. unfold Evaluate. destruct (checkEvaluable g); [done |]. by intros [= <-]. Qed.
