(* ===== verification/Group.v ===== *)
(** * Building duplicate groups

    internal/engine/group.go up to [languageParts], [BuildGroups] and
    [newGroup], with [GroupOptions] of engine.go: identity keys, exclusions,
    candidate collection, cross-library units and variant splitting. The deep
    copies of the source are values here, and the thumbnail URL is left out. *)

From S2P Require Import Prelude GoStd GoFloat Models UnionFind DiscPaths Paths Titles Versions Criteria Ranking Flags CrossServer Decide.
Local Open Scope string_scope.
Local Open Scope Z_scope.

(** ** Options *)

Record GroupOptions := {
  op_editions : bool;
  op_3d : bool;
  op_languages : bool;
  op_different_arr_intentional : bool;
  op_duration_percent : float64;
  op_duration_minutes : Z;
  op_max_group_size : Z;
  op_exclusions : list Exclusion;
  op_libraries : gmap Z Library;
}.

Definition DefaultDurationTolerancePercent : float64 := fint 10.
Definition DefaultDurationToleranceMinutes : Z := 5.

(** [GroupOptions.normalized]. *)
Definition normalized (o : GroupOptions) : GroupOptions :=
  let unset := fle (op_duration_percent o) f0 && (op_duration_minutes o <=? 0) in
  let pct := if unset then DefaultDurationTolerancePercent else op_duration_percent o in
  let mins := if unset then DefaultDurationToleranceMinutes else op_duration_minutes o in
  {| op_editions := op_editions o; op_3d := op_3d o; op_languages := op_languages o;
     op_different_arr_intentional := op_different_arr_intentional o;
     op_duration_percent := if flt pct f0 then f0 else pct;
     op_duration_minutes := Z.max mins 0;
     op_max_group_size := if op_max_group_size o <=? 0 then DefaultMaxGroupSize else op_max_group_size o;
     op_exclusions := op_exclusions o; op_libraries := op_libraries o |}.

(** ** Identity keys *)

Definition movieIDSpaces : list string := ["tmdb"; "imdb"; "tvdb"; "plex"].
Definition episodeIDSpaces : list string := ["tvdb"; "tmdb"; "imdb"; "plex"].

Section identity.
Context `{Unicode}.

Definition normID (space raw : string) : string :=
  let s := trim_space raw in
  let s := match index_of s "://" with Some i => sdrop (i + 3) s | None => s end in
  let s := match index_byte s "?"%char with Some i => stake i s | None => s end in
  let s := if String.eqb space "plex" then
    match last_index_byte s "/"%char with Some i => sdrop (S i) s | None => s end else s in
  let s := to_lower (trim_space s) in
  if String.eqb s "" || String.eqb s "0" then "" else s.

Definition id_in (ids : gmap string string) (sp : string) : string := normID sp (default "" (ids !! sp)).

Fixpoint firstID (ids : gmap string string) (spaces : list string) : option (string * string) :=
  match spaces with
  | [] => None
  | sp :: rest => let v := id_in ids sp in
                  if nonempty v then Some (sp, v) else firstID ids rest
  end.

Definition GroupKey (item : MediaItem) (serverID : Z) : string :=
  let fallback := ServerItemKey (it_server_kind item) serverID (item_key_item_id item) in
  if String.eqb (it_media_type item) MediaTypeEpisode then
    match firstID (it_external_ids item) episodeIDSpaces with
    | Some (sp, id) => "episode:" +:+ sp +:+ ":" +:+ id
    | None =>
      if (0 <? it_episode item) && (0 <=? it_season item) then
        match firstID (it_show_ids item) episodeIDSpaces with
        | Some (sp, id) => "episode:" +:+ sp +:+ ":" +:+ id +:+ ":s" +:+ format_int (it_season item) +:+
            "e" +:+ format_int (it_episode item)
        | None => fallback
        end
      else fallback
    end
  else
    match firstID (it_external_ids item) movieIDSpaces with
    | Some (sp, id) => "movie:" +:+ sp +:+ ":" +:+ id
    | None => fallback
    end.
End identity.

(** ** Exclusions *)

Record exclusionSet := {
  xs_group_keys : list string;
  xs_path_prefixes : list string;
  xs_libraries : list Z;
  xs_titles : list (string * re);     (* the pattern after "(?i)", compiled *)
}.

Section exclusions.
Context `{Unicode} `{RegexSyntax}.

Definition compile_exclusion (s : exclusionSet) (e : Exclusion) : exclusionSet :=
  let val := trim_space (ex_value e) in
  if String.eqb val "" then s
  else if String.eqb (ex_kind e) ExcludeGroupKey then
    {| xs_group_keys := (xs_group_keys s ++ [val])%list; xs_path_prefixes := xs_path_prefixes s;
       xs_libraries := xs_libraries s; xs_titles := xs_titles s |}
  else if String.eqb (ex_kind e) ExcludePathPrefix then
    let p := to_lower (normPath val) in
    if String.eqb p "" then s else
    {| xs_group_keys := xs_group_keys s; xs_path_prefixes := (xs_path_prefixes s ++ [p])%list;
       xs_libraries := xs_libraries s; xs_titles := xs_titles s |}
  else if String.eqb (ex_kind e) ExcludeLibrary then
    match parse_int val with
    | Some id => {| xs_group_keys := xs_group_keys s; xs_path_prefixes := xs_path_prefixes s;
                    xs_libraries := (xs_libraries s ++ [id])%list; xs_titles := xs_titles s |}
    | None => s
    end
  else if String.eqb (ex_kind e) ExcludeRegex then
    match regexp_compile ("(?i)" +:+ val) with
    | Some r => {| xs_group_keys := xs_group_keys s; xs_path_prefixes := xs_path_prefixes s;
                   xs_libraries := xs_libraries s; xs_titles := (xs_titles s ++ [(val, r)])%list |}
    | None => s
    end
  else s.
Definition compileExclusions (ex : list Exclusion) : exclusionSet :=
  foldl compile_exclusion {| xs_group_keys := []; xs_path_prefixes := []; xs_libraries := []; xs_titles := [] |} ex.

Definition title_matches (r : re) (t : string) : bool := nonempty t && re_match r t.

Definition itemExcluded (s : exclusionSet) (it : MediaItem) : bool :=
  mem (it_library_id it) (xs_libraries s) ||
  existsb (fun t => title_matches (snd t) (it_title it) || title_matches (snd t) (it_show_title it)) (xs_titles s).

Definition prefix_excludes (np pre : string) : bool :=
  hasPathPrefix np pre ||
  (negb (has_prefix pre "/") && negb (isDrivePath pre) &&
   contains ("/" +:+ np +:+ "/") ("/" +:+ pre +:+ "/")).

Definition versionExcluded (s : exclusionSet) (v : MediaVersion) : bool :=
  mem (mv_library_id v) (xs_libraries s) ||
  existsb (fun p => existsb (prefix_excludes (to_lower (normPath p))) (xs_path_prefixes s)) (versionPaths v).
End exclusions.

(** ** Candidates *)

Record candidate := {
  cd_v : MediaVersion;
  cd_edition : string;
  cd_3d : bool;
  cd_langs : list string;
}.

Record itemEntry := {
  en_item : MediaItem;               (* Versions empty *)
  en_ids : gmap string string;
  en_cands : list candidate;
  en_seen : list string;
  en_unavailable : bool;
  en_scope : string;
}.

Definition or_string (a b : string) : string := if String.eqb a "" then b else a.

(** [fillVersionIdentity]. *)
Definition fillVersionIdentity (v : MediaVersion) (it : MediaItem) : MediaVersion :=
  let server := if mv_server_id v =? 0 then it_server_id it else mv_server_id v in
  let key := trim_space (mv_key v) in
  let id := ServerVersionID v in
  {| mv_key := if String.eqb key "" && nonempty id then VersionKey (it_server_kind it) server id else key;
     mv_server_id := server;
     mv_library_id := if mv_library_id v =? 0 then it_library_id it else mv_library_id v;
     mv_library_title := or_string (mv_library_title v) (it_library_title it);
     mv_section_key := or_string (mv_section_key v) (it_section_key it);
     mv_rating_key := or_string (mv_rating_key v) (it_rating_key it);
     mv_media_id := mv_media_id v;
     mv_item_title := or_string (mv_item_title v) (it_title it);
     mv_optimized := mv_optimized v;
     mv_item_key_id := or_string (mv_item_key_id v) (it_key_id it);
     mv_source_id := mv_source_id v; mv_episode_end := mv_episode_end v; mv_report_only := mv_report_only v;
     mv_parts := mv_parts v; mv_container := mv_container v; mv_duration_ms := mv_duration_ms v;
     mv_bitrate_kbps := mv_bitrate_kbps v; mv_video_bitrate := mv_video_bitrate v; mv_width := mv_width v;
     mv_height := mv_height v; mv_resolution := mv_resolution v; mv_video_codec := mv_video_codec v;
     mv_bit_depth := mv_bit_depth v; mv_dynamic_range := mv_dynamic_range v;
     mv_audio_tracks := mv_audio_tracks v; mv_subtitle_count := mv_subtitle_count v;
     mv_source := mv_source v; mv_edition := mv_edition v; mv_added_at := mv_added_at v;
     mv_arr := mv_arr v; mv_disc := mv_disc v; mv_watch := mv_watch v;
     mv_other_servers := mv_other_servers v |}.

(** An item without its versions and with other ids. *)
Definition set_item (ext show : gmap string string) (versions : list MediaVersion) (it : MediaItem) : MediaItem := {|
  it_server_id := it_server_id it; it_library_id := it_library_id it; it_library_title := it_library_title it;
  it_section_key := it_section_key it; it_rating_key := it_rating_key it; it_media_type := it_media_type it;
  it_title := it_title it; it_year := it_year it; it_show_title := it_show_title it; it_season := it_season it;
  it_episode := it_episode it; it_external_ids := ext; it_show_ids := show;
  it_edition_title := it_edition_title it; it_versions := versions; it_server_kind := it_server_kind it;
  it_key_id := it_key_id it |}.

Definition blank_value (m : option string) : bool := String.eqb (trim_space (default "" m)) "".

(** Fill the ids [dst] does not know from [src]; [mergeIDs] also skips blank
    values. *)
Definition fill_id (d s : option string) : option string :=
  match s with Some v => if blank_value d then Some v else d | None => d end.
Definition merge_id (d s : option string) : option string :=
  match s with Some v => if blank_value d && negb (blank_value s) then Some v else d | None => d end.
Definition fillIDs (dst src : gmap string string) : gmap string string := merge fill_id dst src.
Definition mergeIDs (dst src : gmap string string) : gmap string string := merge merge_id dst src.

Section collect.
Context `{Unicode} `{RegexSyntax}.

Definition candidate_of (it : MediaItem) (v : MediaVersion) : candidate :=
  let edition := versionEditionKey v (it_edition_title it) in
  {| cd_v := v; cd_edition := edition; cd_3d := isVersion3D v edition; cd_langs := audioLangs v |}.

Definition collect_version (ex : exclusionSet) (it : MediaItem) (e : itemEntry) (src : MediaVersion) : itemEntry :=
  let v := fillVersionIdentity src it in
  if String.eqb (mv_key v) "" || mem (mv_key v) (en_seen e) || isOptimized v then e
  else if isUnavailable v then
    {| en_item := en_item e; en_ids := en_ids e; en_cands := en_cands e; en_seen := en_seen e;
       en_unavailable := true; en_scope := en_scope e |}
  else if versionExcluded ex v then e
  else
    {| en_item := en_item e; en_ids := en_ids e; en_cands := (en_cands e ++ [candidate_of it v])%list;
       en_seen := mv_key v :: en_seen e; en_unavailable := en_unavailable e; en_scope := en_scope e |}.

Definition collect_ids (ext ids : gmap string string) : gmap string string :=
  foldl (fun ids sp => let v := id_in ext sp in if nonempty v then <[sp:=v]> ids else ids) ids movieIDSpaces.

Definition item_identity (it : MediaItem) : string :=
  let rk := trim_space (it_rating_key it) in
  if nonempty rk then format_int (it_server_id it) +:+ "|" +:+ rk else "".

Definition new_entry (opts : GroupOptions) (it : MediaItem) : itemEntry := {|
  en_item := set_item (it_external_ids it) (it_show_ids it) [] it; en_ids := ∅; en_cands := []; en_seen := [];
  en_unavailable := false;
  en_scope := match op_libraries opts !! it_library_id it with
              | Some lib => to_lower (trim_space (lib_scope_group lib))
              | None => ""
              end |}.

(** The ids and the versions of one item, added to its entry. *)
Definition add_item (ex : exclusionSet) (it : MediaItem) (e : itemEntry) : itemEntry :=
  let e := {| en_item := en_item e; en_ids := collect_ids (it_external_ids (en_item e)) (en_ids e);
              en_cands := en_cands e; en_seen := en_seen e; en_unavailable := en_unavailable e;
              en_scope := en_scope e |} in
  foldl (collect_version ex it) e (it_versions it).

Definition refill_entry (it : MediaItem) (e : itemEntry) : itemEntry := {|
  en_item := set_item (fillIDs (it_external_ids (en_item e)) (it_external_ids it)) (it_show_ids (en_item e)) [] (en_item e);
  en_ids := en_ids e; en_cands := en_cands e; en_seen := en_seen e; en_unavailable := en_unavailable e;
  en_scope := en_scope e |}.

(** The entries so far, each with its identity. *)
Definition collect_item (opts : GroupOptions) (ex : exclusionSet) (entries : list (string * itemEntry))
    (it : MediaItem) : list (string * itemEntry) :=
  if itemExcluded ex it then entries else
  let identity := item_identity it in
  match list_find (fun ie => nonempty identity = true /\ fst ie = identity) entries with
  | Some (idx, (_, e)) => <[idx := (identity, add_item ex it (refill_entry it e))]> entries
  | None => (entries ++ [(identity, add_item ex it (new_entry opts it))])%list
  end.
Definition collectItems (items : list MediaItem) (opts : GroupOptions) (ex : exclusionSet) : list itemEntry :=
  map snd (foldl (collect_item opts ex) [] items).
End collect.

(** ** Units *)

Record unit_ := {
  un_entries : list itemEntry;
  un_cands : list candidate;
  un_meta : MediaItem;
  un_unavailable : bool;
  un_key : string;
  un_id_conflicts : list string;
}.

Definition entryLess (a b : itemEntry) : bool :=
  let x := en_item a in let y := en_item b in
  if negb (it_library_id x =? it_library_id y) then it_library_id x <? it_library_id y
  else if negb (it_server_id x =? it_server_id y) then it_server_id x <? it_server_id y
  else naturalLess (it_rating_key x) (it_rating_key y).

Definition candLess (a b : candidate) : bool :=
  let x := cd_v a in let y := cd_v b in
  if negb (mv_server_id x =? mv_server_id y) then mv_server_id x <? mv_server_id y
  else if negb (mv_media_id x =? mv_media_id y) then mv_media_id x <? mv_media_id y
  else str_lt (mv_key x) (mv_key y).

(** Candidates once per version key, first ones kept. *)
Fixpoint dedup_cands (seen : list string) (cs : list candidate) : list candidate :=
  match cs with
  | [] => []
  | c :: cs' => if mem (mv_key (cd_v c)) seen then dedup_cands seen cs'
                else c :: dedup_cands (mv_key (cd_v c) :: seen) cs'
  end.

(** The metadata of a unit, completed by one more entry. *)
Definition merge_meta (m : MediaItem) (e : itemEntry) : MediaItem :=
  let it := en_item e in {|
  it_server_id := it_server_id m; it_library_id := it_library_id m; it_library_title := it_library_title m;
  it_section_key := it_section_key m; it_rating_key := it_rating_key m;
  it_media_type := or_string (it_media_type m) (it_media_type it);
  it_title := or_string (it_title m) (it_title it);
  it_year := if it_year m =? 0 then it_year it else it_year m;
  it_show_title := or_string (it_show_title m) (it_show_title it);
  it_season := if (it_season m <? 0) && (0 <=? it_season it) then it_season it else it_season m;
  it_episode := if (it_episode m <=? 0) && (0 <? it_episode it) then it_episode it else it_episode m;
  it_external_ids := mergeIDs (it_external_ids m) (it_external_ids it);
  it_show_ids := mergeIDs (it_show_ids m) (it_show_ids it);
  it_edition_title := it_edition_title m; it_versions := it_versions m;
  it_server_kind := it_server_kind m; it_key_id := it_key_id m |}.

Definition multi_valued (vals : list string) : bool := (1 <? length (dedup vals))%nat.

Definition idConflicts (es : list itemEntry) : list string :=
  if (length es <? 2)%nat then [] else
  let items := map en_item es in
  let values sp := omap (fun e => en_ids e !! sp) es in
  let years := map (fun it => format_int (it_year it)) (List.filter (fun it => 0 <? it_year it) items) in
  let eps := List.filter (fun it => String.eqb (it_media_type it) MediaTypeEpisode && (0 <? it_episode it)) items in
  let seasons := dedup (List.filter (Z.leb 0) (map it_season eps)) in
  let numbers := dedup (map it_episode eps) in
  let labels := if (length seasons <=? 1)%nat && (length numbers <=? 1)%nat then []
                else map (fun it => EpisodeLabel (it_season it) (it_episode it)) eps in
  (flat_map (fun sp => if multi_valued (values sp) then
     [sp +:+ " ids of the matched items differ (" +:+ join " vs " (setKeys (values sp)) +:+ ")"] else []) movieIDSpaces ++
   (if multi_valued years then
      ["years of the matched items differ (" +:+ join " vs " (setKeys years) +:+ ")"] else []) ++
   (if multi_valued labels then
      ["the matched items are different episodes (" +:+ join " vs " (setKeys labels) +:+ ")"] else []))%list.

Section units.
Context `{Unicode}.

(** [newUnit]; the source never calls it without entries. *)
Definition newUnit (entries : list itemEntry) : option unit_ :=
  let sorted := stable_sort entryLess entries in
  match sorted with
  | [] => None
  | e0 :: _ =>
    let meta := foldl merge_meta (set_item ∅ ∅ (it_versions (en_item e0)) (en_item e0)) sorted in
    Some {| un_entries := sorted;
            un_cands := stable_sort candLess (dedup_cands [] (flat_map en_cands sorted));
            un_meta := meta; un_unavailable := existsb en_unavailable sorted;
            un_key := GroupKey meta (it_server_id meta); un_id_conflicts := idConflicts sorted |}
  end.

(** The id tokens of an entry. *)
Definition id_tokens (e : itemEntry) : list string :=
  flat_map (fun sp => let v := default "" (en_ids e !! sp) in
                      if nonempty v then [sp +:+ ":" +:+ v] else []) movieIDSpaces.

(** Components of [es] under shared keys, least index first ([componentsOf]). *)
Definition componentsOf {A} (es : list A) (comp : list nat) : list (list A) :=
  map (fun cm => map snd (snd cm)) (sorted_groups Nat.ltb (fun ce => fst ce) (zip comp es)).

Definition idComponents (es : list itemEntry) : list (list itemEntry) :=
  let es := stable_sort entryLess es in
  componentsOf es (key_components (map id_tokens es)).

Definition splitConflicting (comp : list itemEntry) : list (list itemEntry) :=
  if existsb (fun sp => multi_valued (omap (fun e => en_ids e !! sp) comp)) movieIDSpaces then
    map snd (sorted_groups str_lt (fun e => GroupKey (en_item e) (it_server_id (en_item e))) comp)
  else [comp].

Definition readOnlyCluster (es : list itemEntry) : bool :=
  existsb (fun e => kind_read_only (it_server_kind (en_item e))) es.
Definition distinctLibraries (es : list itemEntry) : nat :=
  length (dedup (map (fun e => it_library_id (en_item e)) es)).

Definition merged_cluster (cluster : list itemEntry) : bool :=
  (2 <=? distinctLibraries cluster)%nat &&
  (negb (readOnlyCluster cluster) || (distinctLibraries cluster =? length cluster)%nat).

Definition cluster_units (cluster : list itemEntry) : list unit_ :=
  if merged_cluster cluster then option_list (newUnit cluster)
  else omap (fun e => newUnit [e]) cluster.

Definition scoped (e : itemEntry) : bool := nonempty (en_scope e) && bool_decide (en_ids e <> ∅).
Definition bucket_key (e : itemEntry) : string :=
  format_int (it_server_id (en_item e)) +:+ "|" +:+ en_scope e +:+ "|" +:+ it_media_type (en_item e).

Definition buildUnits (entries : list itemEntry) : list unit_ :=
  let entries := List.filter (fun e => negb (length (en_cands e) =? 0)%nat) entries in
  (omap (fun e => newUnit [e]) (List.filter (fun e => negb (scoped e)) entries) ++
   flat_map (fun b => flat_map (fun comp => flat_map cluster_units (splitConflicting comp)) (idComponents (snd b)))
     (sorted_groups str_lt bucket_key (List.filter scoped entries)))%list.

Definition forms_group (u : unit_) : bool := (2 <=? length (un_cands u))%nat.

Definition set_unit_key (k : string) (u : unit_) : unit_ := {|
  un_entries := un_entries u; un_cands := un_cands u; un_meta := un_meta u;
  un_unavailable := un_unavailable u; un_key := k; un_id_conflicts := un_id_conflicts u |}.

(** [disambiguateKeys]. *)
Definition disambiguated (units : list unit_) (u : unit_) : unit_ :=
  let count := length (List.filter (fun w => forms_group w && String.eqb (un_key w) (un_key u)) units) in
  match un_entries u with
  | e :: _ =>
    if forms_group u && (1 <? count)%nat then
      let it := en_item e in
      set_unit_key (un_key u +:+ "@" +:+
        ServerItemKey (it_server_kind it) (it_server_id it) (item_key_item_id it)) u
    else u
  | [] => u
  end.
Definition unitLess (a b : unit_) : bool :=
  if negb (String.eqb (un_key a) (un_key b)) then str_lt (un_key a) (un_key b)
  else match un_entries a, un_entries b with
       | x :: _, y :: _ => entryLess x y
       | _, _ => false
       end.
Definition disambiguateKeys (units : list unit_) : list unit_ :=
  stable_sort unitLess (map (disambiguated units) units).
End units.

(** ** Variants *)

Record variantGroup := {
  vg_suffix : string;
  vg_cands : list candidate;
  vg_flags : list string;
}.

Definition splitBy (keyOf : candidate -> string) (suffixOf : string -> string) (flag : string)
    (groups : list variantGroup) : list variantGroup :=
  flat_map (fun g =>
    let parts := sorted_groups str_lt keyOf (vg_cands g) in
    map (fun part : string * list candidate =>
      let '(k, cs) := part in
      {| vg_suffix := vg_suffix g +:+ (if nonempty k then suffixOf k else "");
         vg_cands := cs;
         vg_flags := flag_if (1 <? length parts)%nat flag (vg_flags g) |}) parts) groups.

Definition stringsIntersect (a b : list string) : bool := existsb (fun x => mem x b) a.

(** Two members whose language sets are disjoint. *)
Fixpoint bridged (langs : list (list string)) : bool :=
  match langs with
  | [] => false
  | l :: ls => existsb (fun l' => negb (stringsIntersect l l')) ls || bridged ls
  end.

Definition lang_code (langs : list string) : string := join "+" (sortedUnique langs).

(** The language part of every candidate ("" when its languages are unknown). *)
Definition languageParts (cands : list (list string)) : list string :=
  let comp := key_components cands in
  map (fun cl : nat * list string =>
    let '(c, langs) := cl in
    match langs with
    | [] => ""
    | _ =>
      let ms := map snd (List.filter (fun d : nat * list string =>
        (fst d =? c)%nat && negb (length (snd d) =? 0)%nat) (zip comp cands)) in
      if bridged ms then lang_code langs else lang_code (concat ms)
    end) (zip comp cands).

Definition lang_suffix (part : string) : string := "#lang-" +:+ (if nonempty part then part else "und").

Definition splitLanguages (groups : list variantGroup) : list variantGroup :=
  flat_map (fun g =>
    let partOf := languageParts (map cd_langs (vg_cands g)) in
    if (length (dedup (List.filter nonempty partOf)) <? 2)%nat then [g] else
    map (fun part : string * list (string * candidate) =>
      {| vg_suffix := vg_suffix g +:+ fst part; vg_cands := map snd (snd part);
         vg_flags := addFlag (vg_flags g) FlagLanguageVariant |})
      (sorted_groups str_lt (fun pc => lang_suffix (fst pc)) (zip partOf (vg_cands g)))) groups.

Definition splitVariants (cands : list candidate) (opts : GroupOptions) : list variantGroup :=
  let groups := [{| vg_suffix := ""; vg_cands := cands; vg_flags := [] |}] in
  let groups := if op_editions opts
    then splitBy cd_edition (fun k => "#ed-" +:+ k) FlagEditionSplit groups else groups in
  let groups := if op_3d opts
    then splitBy (fun c => if cd_3d c then "3d" else "") (fun _ => "#3d") FlagVariant3D groups else groups in
  if op_languages opts then splitLanguages groups else groups.

(** ** [BuildGroups] *)

Section build.
Context `{Unicode} `{RegexSyntax}.

Definition new_file (c : candidate) : GroupFile := {|
  gf_version := cd_v c; gf_decision := ""; gf_engine_decision := ""; gf_override := ""; gf_rank := 0;
  gf_reasons := []; gf_deciding_criterion := ""; gf_protected := false; gf_protected_reason := [] |}.

Definition group_flags (u : unit_) (vg : variantGroup) (mt : string) (vs : list MediaVersion)
    (opts : GroupOptions) : list string :=
  let flags := foldl addFlag (vg_flags vg) (versionFlags mt vs) in
  let flags := flag_if (un_unavailable u) FlagUnavailableVersion flags in
  let flags := flag_if (2 <=? length (libraryIDsOf vs))%nat FlagCrossLibrary flags in
  let '(_, _, mismatch) := durationSpread mt vs (op_duration_percent opts) (op_duration_minutes opts) in
  let flags := flag_if mismatch FlagDurationMismatch flags in
  let flags := flag_if ((0 <? length (un_id_conflicts u))%nat ||
                        (0 <? length (suspectReasons vs (op_max_group_size opts)))%nat) FlagSuspectMerge flags in
  flag_if (op_different_arr_intentional opts && (2 <=? length (arrInstanceNames vs))%nat) FlagIntentionalArr flags.

Definition newGroup (u : unit_) (vg : variantGroup) (key : string) (opts : GroupOptions) : DuplicateGroup :=
  let meta := un_meta u in
  let vs := map cd_v (vg_cands vg) in
  let mt := or_string (it_media_type meta) MediaTypeMovie in
  let episode := String.eqb mt MediaTypeEpisode in
  {| dg_key := key; dg_media_type := mt; dg_title := it_title meta; dg_year := it_year meta;
     dg_show_title := if episode then it_show_title meta else "";
     dg_season := if episode then it_season meta else 0;
     dg_episode := if episode then it_episode meta else 0;
     dg_server_id := if it_server_id meta =? 0 then
         match vs with v :: _ => mv_server_id v | [] => 0 end else it_server_id meta;
     dg_library_ids := Some (libraryIDsOf vs); dg_external_ids := it_external_ids meta;
     dg_status := ""; dg_status_reason := [];
     dg_flags := sortedUnique (group_flags u vg mt vs opts); dg_profile_id := 0;
     dg_files := map new_file (vg_cands vg); dg_reclaimable_bytes := 0; dg_signature := "";
     dg_cross_server := None |}.

(** [for n := 2; used[key]; n++ { key = base~n }]. *)
Definition numbered (base : string) (n : nat) : string := base +:+ "~" +:+ format_int (Z.of_nat n).
Fixpoint unused_key (fuel : nat) (used : list string) (base key : string) (n : nat) : string :=
  match fuel with
  | O => key
  | S fuel' => if mem key used then unused_key fuel' used base (numbered base n) (S n) else key
  end.

(** The groups so far and the keys they use; among [length used + 1] keys one
    is free. *)
Definition add_variant (ex : exclusionSet) (opts : GroupOptions) (u : unit_)
    (acc : list DuplicateGroup * list string) (vg : variantGroup) : list DuplicateGroup * list string :=
  let '(groups, used) := acc in
  let key := un_key u +:+ vg_suffix vg in
  if (length (vg_cands vg) <? 2)%nat then acc
  else if mem key (xs_group_keys ex) then acc
  else
    let key := unused_key (S (length used)) used key key 2 in
    ((groups ++ [newGroup u vg key opts])%list, key :: used).
Definition add_unit (ex : exclusionSet) (opts : GroupOptions) (acc : list DuplicateGroup * list string)
    (u : unit_) : list DuplicateGroup * list string :=
  foldl (add_variant ex opts u) acc (splitVariants (un_cands u) opts).

Definition BuildGroups (items : list MediaItem) (opts : GroupOptions) : list DuplicateGroup :=
  let opts := normalized opts in
  let ex := compileExclusions (op_exclusions opts) in
  let units := disambiguateKeys (buildUnits (collectItems items opts ex)) in
  stable_sort (fun a b => str_lt (dg_key a) (dg_key b)) (fst (foldl (add_unit ex opts) ([], []) units)).
End build.
