(* ===== verification/ExecGuards.v ===== *)
(** * Guards repeated before acting

    internal/engine/execguards.go: which flags keep a group out of automatic
    approval, and the exclusions and protections the executor checks again on a
    stored group. Go iterates the excluded group keys in no fixed order; the
    model uses the order of the rules, so which of several covering keys is
    named may differ, never whether one is. *)

From S2P Require Import Prelude GoStd Models DiscPaths Paths Titles Versions Decide Group.
Local Open Scope string_scope.

Definition autoBlockingFlags : list string :=
  [FlagSuspectMerge; FlagSameFile; FlagUnanalyzed; FlagDurationMismatch; FlagMissingKeeperFile;
   FlagUnavailableVersion; FlagSample; FlagArrUntrackedKeeper; FlagMultiEpisode; FlagStacked; FlagMinAge;
   FlagArrQueueBusy; FlagPlaying; FlagFullDisc; FlagDiscUnreadable; FlagDiscTracked; FlagWatchUnreadable;
   FlagOtherServerPossible; FlagOtherServerKeeps; FlagOtherServerUnread; FlagManualOnly; FlagReportOnly].
Definition BlocksAutoApproval (flag : string) : bool := mem flag autoBlockingFlags.

(** The key and, when it is disambiguated, the key without the marker. *)
Definition keyForms (key : string) : list string :=
  let key := trim_space key in
  match DisambiguationIndex key with
  | None => [key]
  | Some (i, n) =>
    let rest := sdrop (i + n) key in
    match index_byte_where (fun c => Ascii.eqb c "#" || Ascii.eqb c "~") rest with
    | None => [key; stake i key]
    | Some j => [key; stake i key +:+ sdrop j rest]
    end
  end.

Inductive exclusion_reason :=
  | ERGroup (key : string)
  | ERLibrary (id : Z)
  | ERTitle (pattern title : string)
  | ERVersionLibrary (id : Z) (path : string)
  | ERPath (path : string).

Section guards.
Context `{Unicode} `{Doublestar} `{RegexSyntax}.

Definition key_covers (key : string) (k : string) : bool :=
  existsb (fun a => existsb (String.eqb a) (keyForms key)) (keyForms k).

(** The first title exclusion that covers one of [titles]. *)
Definition title_exclusion (s : exclusionSet) (titles : list string) : option exclusion_reason :=
  head (flat_map (fun pr : string * re =>
    omap (fun t => if title_matches (snd pr) t then Some (ERTitle (fst pr) t) else None) titles) (xs_titles s)).

Definition version_exclusion (s : exclusionSet) (v : MediaVersion) : option exclusion_reason :=
  if versionExcluded s v then
    Some (if mem (mv_library_id v) (xs_libraries s) then ERVersionLibrary (mv_library_id v) (primaryPath v)
          else ERPath (primaryPath v))
  else title_exclusion s [mv_item_title v].

Definition ExclusionReason (ex : list Exclusion) (g : DuplicateGroup) : option exclusion_reason :=
  let s := compileExclusions ex in
  match find (key_covers (dg_key g)) (xs_group_keys s) with
  | Some k => Some (ERGroup k)
  | None =>
    match find (fun id => mem id (xs_libraries s)) (default [] (dg_library_ids g)) with
    | Some id => Some (ERLibrary id)
    | None =>
      match title_exclusion s [dg_title g; dg_show_title g] with
      | Some r => Some r
      | None => head (omap (fun f => version_exclusion s (gf_version f)) (dg_files g))
      end
    end
  end.

Definition ProtectionReason (p : Profile) (v : MediaVersion) (libs : gmap Z Library) : option string :=
  head (omap (fun pr => matchProtection pr v libs) (pf_protections p)).
End guards.
