(* ===== verification/GroupFacts.v ===== *)
(** * Facts about building groups

    Keys stay unique, candidates keep what collection checked, and splitting
    into variants neither loses nor repeats a version. *)

From S2P Require Import Prelude GoStd GoFloat Models UnionFind DiscPaths Paths Titles Versions Criteria Ranking Flags CrossServer Decide Group.

(** ** Unused keys *)

Lemma numbered_inj base n m : numbered base n = numbered base m -> n = m.
Proof.
  unfold numbered, format_int. intros E%str_app_inj_l%str_app_inj_l.
  apply (inj pretty) in E. lia.
Qed.

Lemma numbered_ne base n : numbered base n <> base.
Proof.
  intros E. apply (f_equal String.length) in E. unfold numbered in E. rewrite !str_length_app in E. simpl in E. lia.
Qed.

(** The keys the loop tries. *)
Definition tried (base : string) (fuel : nat) (key : string) (n : nat) : list string :=
  take fuel (key :: map (numbered base) (seq n fuel)).

Lemma unused_key_tried fuel used base key n :
  unused_key fuel used base key n ∉ used \/ tried base fuel key n ⊆ used.
Proof.
  revert key n. induction fuel as [|fuel IH]; intros key n; [right; unfold tried; set_solver |].
  simpl. destruct (mem key used) eqn:E; [apply mem_true in E | left; by apply mem_false in E].
  destruct (IH (numbered base n) (S n)) as [Hn|Hs]; [by left |]. right.
  intros k [->|Hk]%elem_of_cons; [done |]. apply Hs. revert Hk. unfold tried.
  destruct fuel as [|fuel]; [done |]. cbn [seq map firstn].
  rewrite !elem_of_cons. intros [->|Hk]; [by left | right; exact Hk].
Qed.

Lemma tried_NoDup base fuel n : NoDup (tried base fuel base n).
Proof.
  unfold tried. apply (sublist_NoDup _ (base :: map (numbered base) (seq n fuel))); [| apply sublist_take].
  constructor.
  - intros (j & E & _)%list_elem_of_fmap. by apply (numbered_ne base j).
  - apply NoDup_fmap_2; [| apply NoDup_seq]. intros x y. apply numbered_inj.
Qed.

Lemma length_tried base fuel key n : length (tried base fuel key n) = fuel.
Proof. unfold tried. rewrite length_take. simpl. rewrite length_map, length_seq. lia. Qed.

(** The loop of the source ends with a free key. *)
Lemma unused_key_fresh used base n : unused_key (S (length used)) used base base n ∉ used.
Proof.
  destruct (unused_key_tried (S (length used)) used base base n) as [?|Hs]; [done |]. exfalso.
  assert (Hle : tried base (S (length used)) base n ⊆+ used).
  { apply NoDup_submseteq; [apply tried_NoDup | set_solver]. }
  apply submseteq_length in Hle. rewrite length_tried in Hle. lia.
Qed.

(** ** Collected candidates *)

Section candidates.
Context `{Unicode} `{RegexSyntax} (ex : exclusionSet) (opts : GroupOptions).

(** What collection checks of a candidate. *)
Record candidate_ok (c : candidate) : Prop := {
  co_key : mv_key (cd_v c) <> ""%string;
  co_optimized : isOptimized (cd_v c) = false;
  co_available : isUnavailable (cd_v c) = false;
  co_excluded : versionExcluded ex (cd_v c) = false;
  co_langs : cd_langs c = audioLangs (cd_v c);
  co_3d : cd_3d c = isVersion3D (cd_v c) (cd_edition c);
}.
Definition entry_ok (e : itemEntry) : Prop := forall c, c ∈ en_cands e -> candidate_ok c.

Lemma collect_version_ok it e src : entry_ok e -> entry_ok (collect_version ex it e src).
Proof.
  intros He. unfold collect_version. cbn zeta. generalize (fillVersionIdentity src it) as v. intros v.
  destruct (String.eqb_spec (mv_key v) ""); simpl; [done |].
  destruct (mem (mv_key v) (en_seen e)); simpl; [done |].
  destruct (isOptimized v) eqn:Eo; [done |]. destruct (isUnavailable v) eqn:Eu; [done |].
  destruct (versionExcluded ex v) eqn:Ex; [done |].
  intros c. simpl. intros [?| ->%list_elem_of_singleton]%elem_of_app; [by apply He |]. by split.
Qed.

Lemma add_item_ok it e : entry_ok e -> entry_ok (add_item ex it e).
Proof.
  intros He. unfold add_item. apply (foldl_inv _ entry_ok); [done |].
  intros e' src _. apply collect_version_ok.
Qed.

Lemma collectItems_ok items e : e ∈ collectItems items opts ex -> entry_ok e.
Proof.
  unfold collectItems. intros ([id e'] & -> & Hin)%list_elem_of_fmap. simpl.
  assert (Hall : Forall (fun ie => entry_ok (snd ie)) (foldl (collect_item opts ex) [] items)).
  { apply (foldl_inv _ (fun es => Forall (fun ie => entry_ok (snd ie)) es)); [done |].
    intros es it _ Hes. unfold collect_item. destruct (itemExcluded ex it); [done |].
    destruct (list_find _ es) as [[idx [k e]]|] eqn:E.
    - apply list_find_Some in E as (Hlk & _ & _). apply Forall_insert; [done |]. simpl.
      apply add_item_ok. rewrite Forall_lookup in Hes. apply (Hes _ _ Hlk).
    - apply Forall_app. split; [done |]. constructor; [| done]. simpl. apply add_item_ok.
      intros c Hc. by apply elem_of_nil in Hc. }
  rewrite Forall_forall in Hall. by apply (Hall (id, e')).
Qed.

(** ** Units *)

Lemma dedup_cands_elem seen cs c : c ∈ dedup_cands seen cs -> c ∈ cs.
Proof.
  revert seen. induction cs as [|d cs IH]; intros seen; simpl; [done |].
  destruct (mem _ seen); [intros Hc%IH; set_solver |].
  intros [->|Hc%IH]%elem_of_cons; set_solver.
Qed.

Definition cand_key (c : candidate) : string := mv_key (cd_v c).

Lemma dedup_cands_NoDup seen cs :
  NoDup (map cand_key (dedup_cands seen cs)) /\
  (forall k, k ∈ map cand_key (dedup_cands seen cs) -> k ∉ seen).
Proof.
  revert seen. induction cs as [|d cs IH]; intros seen; simpl; [split; [constructor | set_solver] |].
  destruct (mem (mv_key (cd_v d)) seen) eqn:E; [apply IH |]. apply mem_false in E.
  destruct (IH (mv_key (cd_v d) :: seen)) as [Hn Hs]. simpl. split.
  - constructor; [| done]. intros Hin. apply (Hs _ Hin). unfold cand_key. set_solver.
  - intros k [->|Hk]%elem_of_cons; [done |]. intros Hin. apply (Hs k Hk). set_solver.
Qed.

(** What every unit of [es] satisfies. *)
Record unit_ok (es : list itemEntry) (u : unit_) : Prop := {
  uo_entries : forall e, e ∈ un_entries u -> e ∈ es;
  uo_cands : forall c, c ∈ un_cands u -> exists e, e ∈ un_entries u /\ c ∈ en_cands e;
  uo_keys : NoDup (map cand_key (un_cands u));
  uo_nonempty : un_entries u <> [];
}.

Lemma newUnit_ok es u : newUnit es = Some u -> unit_ok es u /\ un_entries u ≡ₚ es.
Proof.
  unfold newUnit. pose proof (stable_sort_Permutation entryLess es) as Hp.
  destruct (stable_sort entryLess es) as [|e0 l] eqn:E; [done |]. rewrite <- E in *.
  intros [= <-]. split; [split |]; simpl.
  - intros e He. by rewrite Hp in He.
  - intros c Hc. apply elem_of_stable_sort, dedup_cands_elem in Hc.
    apply list_elem_of_In, in_flat_map in Hc as (e & He & Hc). exists e. by rewrite !list_elem_of_In.
  - rewrite stable_sort_Permutation. apply dedup_cands_NoDup.
  - by rewrite E.
  - done.
Qed.

Lemma unit_ok_incl es es' u : (forall e, e ∈ es -> e ∈ es') -> unit_ok es u -> unit_ok es' u.
Proof. intros Hi []. split; auto. Qed.

Lemma singleton_units es u :
  u ∈ omap (fun e => newUnit [e]) es -> unit_ok es u /\ length (un_entries u) = 1.
Proof.
  intros (e & He & Hu)%list_elem_of_omap. apply newUnit_ok in Hu as [Hok Hp].
  split; [| by rewrite Hp]. apply (unit_ok_incl [e]); [| done].
  intros x ->%list_elem_of_singleton. done.
Qed.

Lemma elem_of_flat_map {A B} (f : A -> list B) l y : y ∈ flat_map f l <-> exists x, x ∈ l /\ y ∈ f x.
Proof. rewrite list_elem_of_In, in_flat_map. setoid_rewrite list_elem_of_In. done. Qed.

Lemma splitConflicting_incl comp cl e : cl ∈ splitConflicting comp -> e ∈ cl -> e ∈ comp.
Proof.
  unfold splitConflicting. destruct (existsb _ _); [| by intros ->%list_elem_of_singleton].
  intros ([k ms] & -> & Hin%elem_of_stable_sort)%list_elem_of_fmap He.
  by apply (group_by_member _ _ _ _ _ Hin) in He as [_ ?].
Qed.

Lemma idComponents_incl es comp e : comp ∈ idComponents es -> e ∈ comp -> e ∈ es.
Proof.
  unfold idComponents, componentsOf.
  intros ([k ms] & -> & Hin%elem_of_stable_sort)%list_elem_of_fmap He.
  simpl in He. apply list_elem_of_fmap in He as ([c e'] & -> & He).
  apply (group_by_member _ _ _ _ _ Hin) in He as [_ He].
  apply elem_of_zip_r in He. by apply elem_of_stable_sort in He.
Qed.

(** Only entries of one bucket, that agree on every id unless their keys
    agree, from at least two libraries, are merged. *)
Lemma buildUnits_spec es u :
  u ∈ buildUnits es ->
  unit_ok es u /\
  (length (un_entries u) = 1 \/
   (forall a b, a ∈ un_entries u -> b ∈ un_entries u ->
      scoped a = true /\ bucket_key a = bucket_key b) /\ merged_cluster (un_entries u) = true).
Proof.
  unfold buildUnits. set (es' := List.filter _ es).
  assert (Hes' : forall e, e ∈ es' -> e ∈ es) by (intros e [? _]%elem_of_lfilter; done).
  rewrite elem_of_app. intros [Hu|Hu].
  - apply singleton_units in Hu as [Hok Hl]. split; [| by left].
    apply (unit_ok_incl (List.filter (fun e => negb (scoped e)) es')); [| done].
    intros e [? _]%elem_of_lfilter. auto.
  - apply elem_of_flat_map in Hu as ([bk b] & Hb%elem_of_stable_sort & Hu).
    apply elem_of_flat_map in Hu as (comp & Hcomp & Hu). apply elem_of_flat_map in Hu as (cl & Hcl & Hu).
    assert (Hin : forall e, e ∈ cl -> e ∈ es /\ scoped e = true /\ bucket_key e = bk).
    { intros e He. apply (splitConflicting_incl _ _ _ Hcl) in He. apply (idComponents_incl _ _ _ Hcomp) in He.
      simpl in He. apply (group_by_member _ _ _ _ _ Hb) in He as [Hk He].
      apply elem_of_lfilter in He as [He Hs]. auto. }
    unfold cluster_units in Hu. destruct (merged_cluster cl) eqn:Em.
    + destruct (newUnit cl) as [u'|] eqn:En; [| by apply elem_of_nil in Hu].
      apply list_elem_of_singleton in Hu as ->. apply newUnit_ok in En as [Hok Hp].
      split; [apply (unit_ok_incl cl); [intros e He; by apply Hin | done] |]. right. split.
      * intros a c Ha Hc. rewrite Hp in Ha, Hc. apply Hin in Ha as (_ & ? & ->), Hc as (_ & _ & ->). done.
      * unfold merged_cluster, distinctLibraries, readOnlyCluster in *.
        rewrite (Permutation_length Hp).
        assert (Hd : length (dedup (map (fun e => it_library_id (en_item e)) (un_entries u'))) =
                     length (dedup (map (fun e => it_library_id (en_item e)) cl))).
        { apply Permutation_length, NoDup_Permutation; [apply NoDup_dedup.. |].
          intros x. rewrite !elem_of_dedup, !list_elem_of_fmap. setoid_rewrite Hp. done. }
        rewrite Hd.
        replace (existsb (fun e => kind_read_only (it_server_kind (en_item e))) (un_entries u'))
          with (existsb (fun e => kind_read_only (it_server_kind (en_item e))) cl); [done |].
        apply eq_true_iff_eq. rewrite !existsb_elem. setoid_rewrite Hp. done.
    + apply singleton_units in Hu as [Hok Hl]. split; [| by left].
      apply (unit_ok_incl cl); [intros e He; by apply Hin | done].
Qed.

Lemma disambiguate_spec units u :
  u ∈ disambiguateKeys units -> exists w, w ∈ units /\ un_cands u = un_cands w /\ un_entries u = un_entries w.
Proof.
  unfold disambiguateKeys. intros (w & -> & Hw)%elem_of_stable_sort%list_elem_of_fmap. exists w. split; [done |].
  unfold disambiguated. destruct (un_entries w) eqn:E; [by rewrite E |]. case_goal; simpl; by rewrite ?E.
Qed.
End candidates.

(** ** Joined codes *)

(** Language codes: not empty and without the separator. *)
Definition code_ok (l : string) : Prop := l <> ""%string /\ index_byte l "+"%char = None.

Lemma lang_code_inj a b :
  a <> [] -> b <> [] -> (forall l, l ∈ a -> code_ok l) -> (forall l, l ∈ b -> code_ok l) ->
  lang_code a = lang_code b -> forall l, l ∈ a <-> l ∈ b.
Proof.
  intros Ha Hb Hca Hcb E.
  assert (Hne : forall x, x <> [] -> (forall l, l ∈ x -> code_ok l) -> sortedUnique x <> []).
  { intros x Hx Hc Hnil. destruct x as [|y x]; [done |].
    assert (Hy : y ∈ sortedUnique (y :: x)) by (apply elem_of_sortedUnique; split; [set_solver | apply Hc; set_solver]).
    rewrite Hnil in Hy. by apply elem_of_nil in Hy. }
  assert (Hs : sortedUnique a = sortedUnique b).
  { unfold lang_code in E. apply (f_equal (split_byte "+"%char)) in E.
    assert (Hfree : forall x, (forall l, l ∈ x -> code_ok l) -> forall l, l ∈ sortedUnique x -> index_byte l "+"%char = None).
    { intros x Hc l [Hl _]%elem_of_sortedUnique. by apply Hc. }
    rewrite !split_join in E; eauto. }
  intros l. assert (Hiff : l ∈ sortedUnique a <-> l ∈ sortedUnique b) by by rewrite Hs.
  rewrite !elem_of_sortedUnique in Hiff. split; intros Hl.
  - apply Hiff. split; [done | by apply Hca].
  - apply Hiff. split; [done | by apply Hcb].
Qed.

Lemma stringsIntersect_spec a b : stringsIntersect a b = true <-> exists l, l ∈ a /\ l ∈ b.
Proof. unfold stringsIntersect. rewrite existsb_elem. setoid_rewrite mem_true. done. Qed.

Lemma bridged_false ms a b :
  bridged ms = false -> a ∈ ms -> b ∈ ms -> a = b \/ stringsIntersect a b = true \/ stringsIntersect b a = true.
Proof.
  induction ms as [|x ms IH]; intros Hb Ha Hc; [by apply elem_of_nil in Ha |].
  simpl in Hb. apply orb_false_iff in Hb as [Hx Hb].
  assert (Hall : forall y, y ∈ ms -> stringsIntersect x y = true).
  { intros y Hy. destruct (stringsIntersect x y) eqn:E; [done |].
    apply not_true_iff_false in Hx. exfalso. apply Hx. apply existsb_elem. exists y. by rewrite E. }
  apply elem_of_cons in Ha as [->|Ha], Hc as [->|Hc]; auto.
Qed.

(** The code of a part is that of a list of its component's languages. *)
Lemma languageParts_lookup cands i langs :
  cands !! i = Some langs -> langs <> [] ->
  exists ls, languageParts cands !! i = Some (lang_code ls) /\ ls <> [] /\
    (forall l, l ∈ langs -> l ∈ concat cands) /\
    (forall l, l ∈ ls -> exists j langs', cands !! j = Some langs' /\ l ∈ langs' /\
       key_components cands !! j = key_components cands !! i) /\
    (ls = langs \/ forall j langs', cands !! j = Some langs' -> langs' <> [] ->
       key_components cands !! j = key_components cands !! i ->
       langs' = langs \/ stringsIntersect langs langs' = true \/ stringsIntersect langs' langs = true).
Proof.
  intros Hi Hne.
  assert (Hlt : i < length cands) by (by apply lookup_lt_Some in Hi).
  destruct (key_components cands !! i) as [c|] eqn:Ec;
    [| apply lookup_ge_None in Ec; rewrite length_key_components in Ec; lia].
  set (ms := map snd (List.filter (fun d : nat * list string =>
    (fst d =? c) && negb (length (snd d) =? 0)) (zip (key_components cands) cands))).
  assert (Hms : forall x, x ∈ ms <-> exists j, cands !! j = Some x /\ x <> [] /\ key_components cands !! j = Some c).
  { intros x. unfold ms. rewrite list_elem_of_fmap. split.
    - intros ([c' x'] & -> & [Hz Hb]%elem_of_lfilter). simpl in *. bsimp. subst c'.
      apply list_elem_of_lookup in Hz as (j & Hj). apply lookup_zip_with_Some in Hj as (? & ? & [= <- <-] & Hc & Hx).
      exists j. split_and!; try done. by intros ->.
    - intros (j & Hx & Hn & Hc). exists (c, x). split; [done |]. apply elem_of_lfilter. split.
      + apply list_elem_of_lookup. exists j. apply lookup_zip_with_Some. eauto.
      + simpl. rewrite Nat.eqb_refl. by destruct x. }
  assert (Hin : langs ∈ ms) by (apply Hms; eauto).
  assert (Hcode : languageParts cands !! i = Some (if bridged ms then lang_code langs else lang_code (concat ms))).
  { unfold languageParts. rewrite list_lookup_fmap.
    assert (Hz : zip (key_components cands) cands !! i = Some (c, langs)) by (apply lookup_zip_with_Some; eauto).
    rewrite Hz. simpl. destruct langs; [done |]. reflexivity. }
  assert (Hcc : forall l, l ∈ concat ms -> exists x, x ∈ ms /\ l ∈ x).
  { intros l Hl. apply list_elem_of_In, in_concat in Hl as (x & Hx & Hl). exists x. by rewrite !list_elem_of_In. }
  exists (if bridged ms then langs else concat ms). split_and!.
  - rewrite Hcode. by destruct (bridged ms).
  - destruct (bridged ms); [done |]. destruct langs as [|l langs]; [done |].
    intros E. assert (Hl : l ∈ concat ms) by (apply list_elem_of_In, in_concat; exists (l :: langs);
      rewrite <- !list_elem_of_In; set_solver). rewrite E in Hl. by apply elem_of_nil in Hl.
  - intros l Hl. apply list_elem_of_In, in_concat. exists langs. rewrite <- !list_elem_of_In.
    split; [by eapply list_elem_of_lookup_2 | done].
  - intros l Hl. destruct (bridged ms); [exists i, langs; by split_and! |].
    apply Hcc in Hl as (x & (j & Hj & _ & Hc)%Hms & Hl). exists j, x. by split_and!.
  - destruct (bridged ms) eqn:Eb; [by left | right]. intros j langs' Hj Hn Hc.
    destruct (bridged_false ms langs langs' Eb) as [?|[?|?]]; auto. apply Hms. eauto.
Qed.

(** Two candidates of one part with known languages share one. *)
Lemma languageParts_share cands i j a b :
  (forall ls l, ls ∈ cands -> l ∈ ls -> code_ok l) ->
  cands !! i = Some a -> cands !! j = Some b -> a <> [] -> b <> [] ->
  languageParts cands !! i = languageParts cands !! j -> stringsIntersect a b = true.
Proof.
  intros Hok Hi Hj Ha Hb E.
  destruct (languageParts_lookup cands i a Hi Ha) as (la & Hla & Hlan & _ & Hlas & Hlai).
  destruct (languageParts_lookup cands j b Hj Hb) as (lb & Hlb & Hlbn & _ & Hlbs & Hlbi).
  rewrite Hla, Hlb in E. injection E as E.
  assert (Hca : forall l, l ∈ la -> code_ok l).
  { intros l Hl. apply Hlas in Hl as (k & ls' & Hk & Hl & _). eapply Hok; [| exact Hl].
    by eapply list_elem_of_lookup_2. }
  assert (Hcb : forall l, l ∈ lb -> code_ok l).
  { intros l Hl. apply Hlbs in Hl as (k & ls' & Hk & Hl & _). eapply Hok; [| exact Hl].
    by eapply list_elem_of_lookup_2. }
  pose proof (lang_code_inj la lb Hlan Hlbn Hca Hcb E) as Hsame.
  assert (Hcomp : key_components cands !! i = key_components cands !! j).
  { destruct la as [|l la]; [done |].
    destruct (Hlas l) as (k & ls & Hk & Hlk & <-); [set_solver |].
    destruct (Hlbs l) as (k' & ls' & Hk' & Hlk' & <-); [apply Hsame; set_solver |].
    rewrite !key_components_lookup by (eapply lookup_lt_Some; eassumption). f_equal.
    apply key_components_iff; [by eapply lookup_lt_Some.. |]. apply rtc_once. left.
    exists ls, ls', l. done. }
  assert (Hself : stringsIntersect a a = true).
  { destruct a as [|l a]; [done |]. apply stringsIntersect_spec. exists l. set_solver. }
  assert (Hsym : stringsIntersect b a = true -> stringsIntersect a b = true).
  { rewrite !stringsIntersect_spec. intros (l & ? & ?). eauto. }
  destruct Hlai as [->|Hlai].
  - destruct Hlbi as [->|Hlbi].
    + apply stringsIntersect_spec. destruct a as [|l a]; [done |]. exists l. split; [set_solver |]. apply Hsame. set_solver.
    + destruct (Hlbi i a Hi Ha) as [->|[?|?]]; auto.
  - destruct (Hlai j b Hj Hb) as [->|[?|?]]; auto.
Qed.

(** ** Variant splitting *)

Definition all_cands (gs : list variantGroup) : list candidate := flat_map vg_cands gs.

Lemma sorted_groups_concat {A K} `{EqDecision K} (less : K -> K -> bool) (key : A -> K) l :
  concat (map snd (sorted_groups less key l)) ≡ₚ l.
Proof.
  unfold sorted_groups. rewrite <- flat_map_concat_map, stable_sort_Permutation, flat_map_concat_map.
  apply group_by_Permutation.
Qed.

Lemma sorted_groups_member {A K} `{EqDecision K} (less : K -> K -> bool) (key : A -> K) l k ms x :
  (k, ms) ∈ sorted_groups less key l -> x ∈ ms -> key x = k /\ x ∈ l.
Proof. unfold sorted_groups. rewrite elem_of_stable_sort. apply group_by_member. Qed.

Lemma flat_map_flat_map {A B C} (f : A -> list B) (h : B -> list C) l :
  flat_map h (flat_map f l) = flat_map (fun x => flat_map h (f x)) l.
Proof. induction l as [|x l IH]; simpl; [done |]. by rewrite flat_map_app, IH. Qed.

Lemma flat_map_Permutation_ext {A B} (f h : A -> list B) l :
  (forall x, x ∈ l -> f x ≡ₚ h x) -> flat_map f l ≡ₚ flat_map h l.
Proof.
  intros Hf. induction l as [|x l IH]; simpl; [done |].
  rewrite (Hf x) by set_solver. f_equiv. apply IH. set_solver.
Qed.

Lemma splitBy_Permutation keyOf suffixOf flag gs : all_cands (splitBy keyOf suffixOf flag gs) ≡ₚ all_cands gs.
Proof.
  unfold all_cands, splitBy. rewrite flat_map_flat_map. apply flat_map_Permutation_ext. intros g _.
  rewrite flat_map_concat_map, map_map. etransitivity; [| apply (sorted_groups_concat str_lt keyOf (vg_cands g))].
  rewrite (map_ext _ snd); [done |]. by intros [].
Qed.

Lemma length_languageParts l : length (languageParts l) = length l.
Proof. unfold languageParts. rewrite length_map, length_zip_with, length_key_components. lia. Qed.

Lemma splitLanguages_Permutation gs : all_cands (splitLanguages gs) ≡ₚ all_cands gs.
Proof.
  unfold all_cands, splitLanguages. rewrite flat_map_flat_map. apply flat_map_Permutation_ext. intros g _.
  case_goal; simpl; [by rewrite app_nil_r |].
  set (parts := sorted_groups _ _ _). rewrite flat_map_concat_map, map_map. simpl.
  rewrite <- (map_map snd (map snd)), <- concat_map.
  unfold parts. rewrite sorted_groups_concat. change (@map (string * candidate) candidate snd) with (@fmap list _ (string * candidate) candidate snd).
  rewrite snd_zip; [done |]. rewrite length_languageParts, length_map. lia.
Qed.

(** Splitting neither loses nor repeats a version. *)
Lemma splitVariants_cands cands opts : all_cands (splitVariants cands opts) ≡ₚ cands.
Proof.
  unfold splitVariants.
  destruct (op_languages opts), (op_3d opts), (op_editions opts);
    rewrite ?splitLanguages_Permutation, ?splitBy_Permutation; simpl; by rewrite app_nil_r.
Qed.

(** What the members of every group share. *)
Definition share_all (R : candidate -> candidate -> Prop) (g : variantGroup) : Prop :=
  forall a b, a ∈ vg_cands g -> b ∈ vg_cands g -> R a b.

Lemma splitBy_members keyOf suffixOf flag gs g :
  g ∈ splitBy keyOf suffixOf flag gs ->
  share_all (fun a b => keyOf a = keyOf b) g /\ exists g0, g0 ∈ gs /\ forall c, c ∈ vg_cands g -> c ∈ vg_cands g0.
Proof.
  unfold splitBy. intros (g0 & Hg0 & Hg)%elem_of_flat_map. apply list_elem_of_fmap in Hg as ([k cs] & -> & Hp).
  split.
  - intros a b Ha Hb. simpl in *.
    apply (sorted_groups_member _ _ _ _ _ _ Hp) in Ha as [-> _], Hb as [-> _]. done.
  - exists g0. split; [done |]. intros c Hc. by apply (sorted_groups_member _ _ _ _ _ _ Hp) in Hc as [_ ?].
Qed.

Definition langs_ok (cs : list candidate) : Prop := forall c l, c ∈ cs -> l ∈ cd_langs c -> code_ok l.
Definition share_language (a b : candidate) : Prop :=
  cd_langs a <> [] -> cd_langs b <> [] -> stringsIntersect (cd_langs a) (cd_langs b) = true.

Lemma lang_part_nonempty cands i langs p :
  (forall ls l, ls ∈ cands -> l ∈ ls -> code_ok l) ->
  cands !! i = Some langs -> langs <> [] -> languageParts cands !! i = Some p -> p <> ""%string.
Proof.
  intros Hok Hi Hne Hp. destruct (languageParts_lookup cands i langs Hi Hne) as (ls & Hl & Hn & _ & Hs & _).
  rewrite Hl in Hp. injection Hp as <-. intros E.
  destruct ls as [|l ls]; [done |].
  destruct (Hs l) as (j & ls' & Hj & Hll & _); [set_solver |].
  assert (Hc : code_ok l) by (eapply Hok; [by eapply list_elem_of_lookup_2 | done]).
  assert (Hin : l ∈ sortedUnique (l :: ls)) by (apply elem_of_sortedUnique; split; [set_solver | apply Hc]).
  unfold lang_code in E. destruct (sortedUnique (l :: ls)) as [|x [|y r]] eqn:Es.
  - by apply elem_of_nil in Hin.
  - apply list_elem_of_singleton in Hin as <-. simpl in E. subst. by destruct Hc.
  - apply (f_equal String.length) in E.
    change (join "+" (x :: y :: r)) with (x +:+ "+" +:+ join "+" (y :: r))%string in E.
    rewrite !str_length_app in E. simpl in E. lia.
Qed.

Lemma lang_suffix_inj p q : p <> ""%string -> q <> ""%string -> lang_suffix p = lang_suffix q -> p = q.
Proof.
  unfold lang_suffix, nonempty. intros Hp%String.eqb_neq Hq%String.eqb_neq. rewrite Hp, Hq.
  apply str_app_inj_l.
Qed.

Lemma splitLanguages_members gs g :
  g ∈ splitLanguages gs ->
  exists g0, g0 ∈ gs /\ (forall c, c ∈ vg_cands g -> c ∈ vg_cands g0) /\
    (langs_ok (vg_cands g0) -> share_all share_language g).
Proof.
  unfold splitLanguages. intros (g0 & Hg0 & Hg)%elem_of_flat_map. exists g0. split; [done |].
  set (partOf := languageParts (map cd_langs (vg_cands g0))) in *.
  assert (Hsame : forall i j a b, vg_cands g0 !! i = Some a -> vg_cands g0 !! j = Some b ->
    langs_ok (vg_cands g0) -> partOf !! i = partOf !! j -> share_language a b).
  { intros i j a b Hi Hj Hok E Ha Hb.
    apply (languageParts_share (map cd_langs (vg_cands g0)) i j); try done.
    - intros ls l (c & -> & Hc)%list_elem_of_fmap Hl. by apply (Hok c).
    - by rewrite list_lookup_fmap, Hi.
    - by rewrite list_lookup_fmap, Hj. }
  assert (Hpart : forall i a p, vg_cands g0 !! i = Some a -> cd_langs a <> [] -> langs_ok (vg_cands g0) ->
    partOf !! i = Some p -> p <> ""%string).
  { intros i a p Hi Ha Hok Hp. apply (lang_part_nonempty (map cd_langs (vg_cands g0)) i (cd_langs a)); try done.
    - intros ls l (c & -> & Hc)%list_elem_of_fmap Hl. by apply (Hok c).
    - by rewrite list_lookup_fmap, Hi. }
  assert (Hdef : forall i a, vg_cands g0 !! i = Some a -> exists p, partOf !! i = Some p).
  { intros i a Hi. apply lookup_lt_Some in Hi. apply lookup_lt_is_Some_2. unfold partOf.
    by rewrite length_languageParts, length_map. }
  destruct (length (dedup (List.filter nonempty partOf)) <? 2) eqn:Hlt.
  - apply list_elem_of_singleton in Hg as ->. split; [done |]. intros Hok a b Ha Hb Hna Hnb.
    apply list_elem_of_lookup in Ha as (i & Hi), Hb as (j & Hj).
    destruct (Hdef i a Hi) as (p & Hp), (Hdef j b Hj) as (q & Hq).
    apply (Hsame i j); try done. rewrite Hp, Hq. f_equal.
    pose proof (Hpart i a p Hi Hna Hok Hp) as Hpn. pose proof (Hpart j b q Hj Hnb Hok Hq) as Hqn.
    assert (Hin : forall x k, partOf !! k = Some x -> x <> ""%string -> x ∈ dedup (List.filter nonempty partOf)).
    { intros x k Hk Hx. rewrite elem_of_dedup. apply elem_of_lfilter. split; [by eapply list_elem_of_lookup_2 |].
      unfold nonempty. by apply negb_true_iff, String.eqb_neq. }
    apply Hin in Hp, Hq; try done. bsimp.
    destruct (dedup _) as [|x [|y l]]; simpl in *; try lia; set_solver.
  - apply list_elem_of_fmap in Hg as ([s cs] & -> & Hp). simpl. split.
    + intros c (pc & -> & Hc)%list_elem_of_fmap. apply (sorted_groups_member _ _ _ _ _ _ Hp) in Hc as [_ Hc].
      destruct pc as [p c]. by apply elem_of_zip_r in Hc.
    + intros Hok a b Ha Hb Hna Hnb. simpl in *.
      apply list_elem_of_fmap in Ha as ([p a'] & -> & Ha), Hb as ([q b'] & -> & Hb). simpl in *.
      apply (sorted_groups_member _ _ _ _ _ _ Hp) in Ha as [Hsp Ha], Hb as [Hsq Hb]. simpl in *.
      apply list_elem_of_lookup in Ha as (i & Hi), Hb as (j & Hj).
      apply lookup_zip_with_Some in Hi as (? & ? & [= <- <-] & Hpi & Hai), Hj as (? & ? & [= <- <-] & Hqj & Hbj).
      apply (Hsame i j); try done. rewrite Hpi, Hqj. f_equal.
      apply lang_suffix_inj; [exact (Hpart i _ p Hai Hna Hok Hpi) | exact (Hpart j _ q Hbj Hnb Hok Hqj) | congruence].
Qed.

(** What the options ask two versions of one group to share. *)
Definition same_variant (opts : GroupOptions) (a b : candidate) : Prop :=
  (op_editions opts = true -> cd_edition a = cd_edition b) /\
  (op_3d opts = true -> cd_3d a = cd_3d b) /\
  (op_languages opts = true -> share_language a b).

Lemma splitVariants_members cands opts g :
  langs_ok cands -> g ∈ splitVariants cands opts -> share_all (same_variant opts) g.
Proof.
  intros Hok. unfold splitVariants, same_variant, share_all.
  set (g0 := [_]). set (g1 := if op_editions opts then _ else g0). set (g2 := if op_3d opts then _ else g1).
  assert (H0 : forall g, g ∈ g0 -> forall c, c ∈ vg_cands g -> c ∈ cands)
    by (intros x ->%list_elem_of_singleton; done).
  assert (H1 : forall g, g ∈ g1 -> (forall c, c ∈ vg_cands g -> c ∈ cands) /\
    (op_editions opts = true -> share_all (fun a b => cd_edition a = cd_edition b) g)).
  { unfold g1. intros x Hx. destruct (op_editions opts); [| split; [by apply H0 | done]].
    apply splitBy_members in Hx as (Hs & y & Hy & Hin). split; [intros c Hc; by apply (H0 y Hy), Hin | done]. }
  assert (H2 : forall g, g ∈ g2 -> (forall c, c ∈ vg_cands g -> c ∈ cands) /\
    (op_editions opts = true -> share_all (fun a b => cd_edition a = cd_edition b) g) /\
    (op_3d opts = true -> share_all (fun a b => cd_3d a = cd_3d b) g)).
  { unfold g2. intros x Hx. destruct (op_3d opts); [| destruct (H1 x Hx); done].
    apply splitBy_members in Hx as (Hs & y & Hy & Hin). destruct (H1 y Hy) as [Hc He].
    split_and!; [intros c Hx; by apply Hc, Hin | intros E a b Ha Hb; apply (He E); auto |].
    intros _ a b Ha Hb. specialize (Hs a b Ha Hb). cbn beta in Hs. by destruct (cd_3d a), (cd_3d b). }
  intros Hg a b Ha Hb. destruct (op_languages opts).
  - apply splitLanguages_members in Hg as (y & Hy & Hin & Hl). destruct (H2 y Hy) as (Hc & He & H3).
    split_and!; [intros E; apply (He E); auto | intros E; apply (H3 E); auto | intros _].
    apply Hl; try done. intros c l Hc' Hcl. apply (Hok c l); [by apply Hc | done].
  - destruct (H2 g Hg) as (_ & He & H3).
    split_and!; [intros E; by apply He | intros E; by apply H3 | done].
Qed.

(** ** Built groups *)

Section built.
Context `{Unicode} `{RegexSyntax}.

(** The groups added so far. *)
Record build_inv (ex : exclusionSet) (opts : GroupOptions) (units : list unit_)
    (acc : list DuplicateGroup * list string) : Prop := {
  bi_used : forall k, k ∈ map dg_key (fst acc) -> k ∈ snd acc;
  bi_keys : NoDup (map dg_key (fst acc));
  bi_groups : forall g, g ∈ fst acc -> exists u vg, u ∈ units /\ vg ∈ splitVariants (un_cands u) opts /\
    2 <= length (vg_cands vg) /\ (un_key u +:+ vg_suffix vg)%string ∉ xs_group_keys ex /\
    g = newGroup u vg (dg_key g) opts;
}.

Lemma dg_key_newGroup u vg k opts : dg_key (newGroup u vg k opts) = k.
Proof. done. Qed.

Lemma add_variant_inv ex opts units u vg acc :
  u ∈ units -> vg ∈ splitVariants (un_cands u) opts ->
  build_inv ex opts units acc -> build_inv ex opts units (add_variant ex opts u acc vg).
Proof.
  intros Hu Hvg [Hus Hk Hg]. destruct acc as [groups used]. unfold add_variant. cbn [fst snd] in *.
  destruct (Nat.ltb_spec (length (vg_cands vg)) 2); [by split |].
  destruct (mem (un_key u +:+ vg_suffix vg)%string (xs_group_keys ex)) eqn:Em; [by split |].
  apply mem_false in Em. set (base := (un_key u +:+ vg_suffix vg)%string) in *.
  pose proof (unused_key_fresh used base 2) as Hf. set (k := unused_key _ _ _ _ _) in *.
  split; cbn [fst snd].
  - rewrite map_app. cbn [map]. rewrite dg_key_newGroup. intros x [Hx| ->%list_elem_of_singleton]%elem_of_app; set_solver.
  - rewrite map_app. cbn [map]. rewrite dg_key_newGroup. apply NoDup_app. split_and!; [done | | apply NoDup_singleton].
    intros x Hx ->%list_elem_of_singleton. by apply Hf, Hus.
  - intros g [Hx| ->%list_elem_of_singleton]%elem_of_app; [by apply Hg |].
    exists u, vg. rewrite dg_key_newGroup. split_and!; try done; lia.
Qed.

Lemma built_inv ex opts units : build_inv ex opts units (foldl (add_unit ex opts) ([], []) units).
Proof.
  apply (foldl_inv _ (build_inv ex opts units)).
  - split; simpl; [done | constructor | intros g Hg; by apply elem_of_nil in Hg].
  - intros acc u Hu Hacc. unfold add_unit. apply (foldl_inv _ (build_inv ex opts units)); [done |].
    intros acc' vg Hvg Hacc'. by apply add_variant_inv.
Qed.

(** Where a built group comes from. *)
Lemma BuildGroups_group items opts g :
  let o := normalized opts in
  let ex := compileExclusions (op_exclusions o) in
  g ∈ BuildGroups items opts ->
  exists u vg, u ∈ buildUnits (collectItems items o ex) /\
    vg ∈ splitVariants (un_cands u) o /\ 2 <= length (vg_cands vg) /\
    map gf_version (dg_files g) = map cd_v (vg_cands vg) /\
    dg_media_type g = or_string (it_media_type (un_meta u)) MediaTypeMovie.
Proof.
  cbn zeta. unfold BuildGroups. intros Hg%elem_of_stable_sort.
  apply (bi_groups _ _ _ _ (built_inv _ _ _)) in Hg as (u & vg & Hu & Hvg & Hl & _ & ->).
  pose proof Hu as Hu'. unfold disambiguateKeys in Hu'. apply elem_of_stable_sort, list_elem_of_fmap in Hu' as (w & -> & Hw).
  assert (Hd : forall us, un_cands (disambiguated us w) = un_cands w /\ un_meta (disambiguated us w) = un_meta w).
  { intros us. unfold disambiguated. destruct (un_entries w); [done |]. case_goal; done. }
  destruct (Hd (buildUnits (collectItems items (normalized opts) (compileExclusions (op_exclusions (normalized opts)))))) as [Hc Hm].
  exists w, vg. rewrite <- Hc. split_and!; try done.
  - simpl. by rewrite map_map.
  - unfold newGroup. cbn [dg_media_type]. by rewrite Hm.
Qed.

Lemma BuildGroups_keys items opts :
  NoDup (map dg_key (BuildGroups items opts)) /\
  StronglySorted (fun a b => str_lt (dg_key b) (dg_key a) = false) (BuildGroups items opts).
Proof.
  unfold BuildGroups. split.
  - rewrite stable_sort_Permutation. apply (bi_keys _ _ _ _ (built_inv _ _ _)).
  - apply stable_sort_sorted.
    + intros x y z. apply str_le_trans.
    + intros x y. apply str_lt_asym.
Qed.

(** The versions of one variant group of a unit. *)
Lemma variant_versions items o ex u vg :
  u ∈ buildUnits (collectItems items o ex) -> vg ∈ splitVariants (un_cands u) o ->
  (forall c, c ∈ vg_cands vg -> candidate_ok ex c /\ c ∈ un_cands u) /\ NoDup (map cand_key (vg_cands vg)).
Proof.
  intros Hu Hvg. apply buildUnits_spec in Hu as [Hok _].
  assert (Hin : forall c, c ∈ vg_cands vg -> c ∈ un_cands u).
  { intros c Hc. rewrite <- (splitVariants_cands (un_cands u) o). apply elem_of_flat_map. eauto. }
  split.
  - intros c Hc. split; [| by apply Hin]. destruct (uo_cands _ _ Hok c (Hin c Hc)) as (e & He & Hce).
    apply (uo_entries _ _ Hok) in He. by apply (collectItems_ok ex o items e He).
  - pose proof (uo_keys _ _ Hok) as Hk. rewrite <- (splitVariants_cands (un_cands u) o) in Hk.
    apply list_elem_of_split in Hvg as (l1 & l2 & E). rewrite E in Hk.
    unfold all_cands in Hk. rewrite flat_map_app in Hk. simpl in Hk.
    rewrite map_app in Hk. apply NoDup_app in Hk as (_ & _ & Hk). rewrite map_app in Hk.
    by apply NoDup_app in Hk as (Hk & _).
Qed.
End built.
