(* ===== verification/Spec.v ===== *)
(** * What safe decisions are

    The abstract specification of decisions that may be acted on, stated on
    versions, decisions and chains of shared file keys rather than on the
    checks of the source; [decision_problems] decides it, and an engine that
    promises it is an instance of [SafeEngine]. *)

From S2P Require Import Prelude GoStd GoFloat Models UnionFind DiscPaths Paths Titles Versions Criteria Ranking Flags CrossServer Decide Validate.

Section spec.
Context `{Unicode}.

Definition kept_file (f : GroupFile) : Prop := gf_decision f = DecisionKeep.
Definition removed_file (f : GroupFile) : Prop := gf_decision f = DecisionRemove.

(** Versions [a] and [b] share data through a chain of versions with a common
    path, local path, inode, *arr file or disc root. *)
Definition same_file (g : DuplicateGroup) (a b : nat) : Prop :=
  rtsc (share_key (map sameFileKeys (map gf_version (dg_files g)))) a b.

(** A disc may only go as a whole, from a movie library, when it was verified
    and can be reached. *)
Record disc_removable (mt : string) (d : DiscInfo) : Prop := {
  dr_movie : mt <> MediaTypeEpisode;
  dr_type : discProtectOnly (di_type d) = false;
  dr_verified : di_removable d = true;
  dr_owned : di_owned_entries d <> [];
  dr_root : blank (di_local_root d) = false;
}.

Record removal_safe (g : DuplicateGroup) (r : nat) (f : GroupFile) : Prop := {
  rs_protected : gf_protected f = false;
  rs_shared : isShared (gf_version f) = false;
  rs_optimized : isOptimized (gf_version f) = false;
  rs_member : mv_disc (gf_version f) = None ->
    forall p, p ∈ versionPaths (gf_version f) -> IsDiscPath p = false;
  rs_disc : forall d, mv_disc (gf_version f) = Some d -> disc_removable (dg_media_type g) d;
  rs_intentional : FlagIntentionalArr ∈ dg_flags g ->
    forall a, mv_arr (gf_version f) = Some a -> af_instance_id a = 0%Z;
  rs_same_file : forall k f', dg_files g !! k = Some f' -> kept_file f' -> ~ same_file g k r;
  rs_other_server : forall e, e ∈ mv_other_servers (gf_version f) -> ol_match e = OtherSameFile ->
    exists o, o ∈ ol_others e /\ forall f', f' ∈ dg_files g -> removed_file f' ->
      mv_key (gf_version f') ∉ om_same o /\ mv_key (gf_version f') ∈ om_distinct o;
}.

Record safe_decisions (g : DuplicateGroup) : Prop := {
  sd_decided : forall f, f ∈ dg_files g -> kept_file f \/ removed_file f;
  sd_kept : exists f, f ∈ dg_files g /\ kept_file f;
  sd_removals : forall r f, dg_files g !! r = Some f -> removed_file f ->
    removal_safe g r f /\
    (exists k, k ∈ dg_files g /\ kept_file k /\ available_version (gf_version k) = true) /\
    FlagMinAge ∉ dg_flags g /\ FlagArrQueueBusy ∉ dg_flags g;
}.

(** ** Deciding the specification *)

Lemma decides_eq d f : decides d f = true <-> gf_decision f = d.
Proof. unfold decides. apply String.eqb_eq. Qed.

Lemma elem_of_decided_files d fs i :
  i ∈ decided d fs <-> exists f, fs !! i = Some f /\ gf_decision f = d.
Proof.
  unfold decided. rewrite elem_of_lfilter, elem_of_seq. split.
  - intros [_ Hd]. destruct (fs !! i) as [f|]; [| done]. apply decides_eq in Hd. eauto.
  - intros (f & Hf & Hd). rewrite Hf. apply decides_eq in Hd. split; [| done].
    apply lookup_lt_Some in Hf. lia.
Qed.

Lemma some_decided d fs : (0 <? length (decided d fs))%nat = true <-> exists f, f ∈ fs /\ gf_decision f = d.
Proof.
  rewrite Nat.ltb_lt. split.
  - intros Hl. destruct (decided d fs) as [|i l] eqn:E; [simpl in Hl; lia |].
    assert (Hi : i ∈ decided d fs) by (rewrite E; set_solver).
    apply elem_of_decided_files in Hi as (f & Hf & Hd). exists f. split; [by eapply list_elem_of_lookup_2 | done].
  - intros (f & (i & Hi)%list_elem_of_lookup & Hd).
    assert (Hin : i ∈ decided d fs) by (apply elem_of_decided_files; eauto).
    destruct (decided d fs); [by apply elem_of_nil in Hin | simpl; lia].
Qed.

Lemma if_nil {A} (b : bool) (x : A) : (if b then [x] else []) = [] <-> b = false.
Proof. by destruct b. Qed.

Lemma opt_nil {A B} (o : option A) (x : A -> B) :
  match o with Some a => [x a] | None => [] end = [] <-> o = None.
Proof. by destruct o. Qed.

Lemma flat_map_nil {A B} (f : A -> list B) l : flat_map f l = [] <-> forall x, x ∈ l -> f x = [].
Proof.
  induction l as [|x l IH]; simpl; [set_solver |]. rewrite app_nil, IH. set_solver.
Qed.

Lemma omap_nil {A B} (f : A -> option B) l : omap f l = [] <-> forall x, x ∈ l -> f x = None.
Proof.
  induction l as [|x l IH]; simpl; [set_solver |].
  destruct (f x) eqn:E; [split; [done |]; intros Hall; specialize (Hall x); set_solver |].
  rewrite IH. set_solver.
Qed.

Lemma find_nil {A} (f : A -> bool) l : find f l = None <-> forall x, x ∈ l -> f x = false.
Proof.
  split.
  - intros Hf x Hx. apply (find_none _ _ Hf). by apply list_elem_of_In.
  - induction l as [|x l IH]; intros Hall; simpl; [done |]. rewrite Hall by set_solver. apply IH. set_solver.
Qed.

Lemma disc_problems_nil mt v :
  disc_problems mt v = [] <-> forall d, mv_disc v = Some d -> disc_removable mt d.
Proof.
  unfold disc_problems. destruct (mv_disc v) as [d|]; [| done].
  destruct (String.eqb_spec mt MediaTypeEpisode) as [->|Hne].
  { split; [done |]. intros Hd. by destruct (Hd d eq_refl). }
  destruct (discProtectOnly (di_type d)) eqn:Et; simpl.
  { split; [done |]. intros Hd. destruct (Hd d eq_refl). congruence. }
  rewrite if_nil, !orb_false_iff, negb_false_iff, Nat.eqb_neq. split.
  - intros [[? Ho] ?] d' [= <-]. split; try done. intros E. by rewrite E in Ho.
  - intros Hd. destruct (Hd d eq_refl). split_and!; try done. by destruct (di_owned_entries d).
Qed.

Lemma removed_problems_nil g f r :
  dg_files g !! r = Some f ->
  removed_problems g (sameFileComponents (map gf_version (dg_files g))) (decided DecisionKeep (dg_files g)) r f = [] <->
  gf_protected f = false /\ isShared (gf_version f) = false /\ isOptimized (gf_version f) = false /\
  (mv_disc (gf_version f) = None -> forall p, p ∈ versionPaths (gf_version f) -> IsDiscPath p = false) /\
  (forall d, mv_disc (gf_version f) = Some d -> disc_removable (dg_media_type g) d) /\
  (FlagIntentionalArr ∈ dg_flags g -> forall a, mv_arr (gf_version f) = Some a -> af_instance_id a = 0%Z) /\
  (forall k f', dg_files g !! k = Some f' -> kept_file f' -> ~ same_file g k r).
Proof.
  intros Hr. unfold removed_problems.
  rewrite !app_nil, !if_nil, !opt_nil, find_nil, disc_problems_nil.
  assert (Hm : discMemberPath (gf_version f) = None <->
    (mv_disc (gf_version f) = None -> forall p, p ∈ versionPaths (gf_version f) -> IsDiscPath p = false)).
  { unfold discMemberPath. destruct (mv_disc (gf_version f)); [by split |].
    rewrite find_nil. naive_solver. }
  assert (Ha : match mv_arr (gf_version f) with
      | Some a => if has_flag (dg_flags g) FlagIntentionalArr && negb (af_instance_id a =? 0)%Z
          then [PIntentional (mv_key (gf_version f)) (arrName a)] else []
      | None => [] end = [] <->
    (FlagIntentionalArr ∈ dg_flags g -> forall a, mv_arr (gf_version f) = Some a -> af_instance_id a = 0%Z)).
  { destruct (mv_arr (gf_version f)) as [a|]; [| done]. rewrite if_nil, andb_false_iff, negb_false_iff, Z.eqb_eq.
    unfold has_flag. rewrite mem_false. destruct (decide (FlagIntentionalArr ∈ dg_flags g)); naive_solver. }
  assert (Hs : (forall k, k ∈ decided DecisionKeep (dg_files g) ->
      bool_decide (sameFileComponents (map gf_version (dg_files g)) !! k =
                   sameFileComponents (map gf_version (dg_files g)) !! r) = false) <->
    (forall k f', dg_files g !! k = Some f' -> kept_file f' -> ~ same_file g k r)).
  { setoid_rewrite elem_of_decided_files. setoid_rewrite bool_decide_eq_false.
    assert (Hi : forall k f', dg_files g !! k = Some f' ->
      (sameFileComponents (map gf_version (dg_files g)) !! k =
       sameFileComponents (map gf_version (dg_files g)) !! r <-> same_file g k r)).
    { intros k f' Hk. apply same_components_iff; rewrite length_map; by eapply lookup_lt_Some. }
    split.
    - intros Hall k f' Hk Hkept Hsame. apply (Hall k); [eauto |]. by apply (Hi k f').
    - intros Hall k (f' & Hk & Hkept) E. apply (Hall k f' Hk Hkept). by apply (Hi k f'). }
  rewrite Hm, Ha, Hs. tauto.
Qed.
End spec.

Section decided_spec.
Context `{Unicode}.

Lemma needs_copy_false keys e :
  needs_copy keys e = false <->
  (ol_match e = OtherSameFile ->
   exists o, o ∈ ol_others e /\ forall k, k ∈ keys -> k ∉ om_same o /\ k ∈ om_distinct o).
Proof.
  unfold needs_copy, survivor. rewrite andb_false_iff, negb_false_iff, String.eqb_neq, existsb_elem.
  setoid_rewrite forallb_elem. setoid_rewrite negb_true_iff. setoid_rewrite orb_false_iff.
  setoid_rewrite negb_false_iff. setoid_rewrite mem_true. setoid_rewrite mem_false.
  destruct (decide (ol_match e = OtherSameFile)); naive_solver.
Qed.

Definition removed_keys (fs : list GroupFile) : list string :=
  map mv_key (omap (fun r => gf_version <$> fs !! r) (decided DecisionRemove fs)).

Lemma elem_of_removed_versions fs v :
  v ∈ omap (fun r => gf_version <$> fs !! r) (decided DecisionRemove fs) <->
  exists f, f ∈ fs /\ removed_file f /\ v = gf_version f.
Proof.
  rewrite list_elem_of_omap. setoid_rewrite elem_of_decided_files. split.
  - intros (r & (f & Hf & Hd) & Hv). rewrite Hf in Hv. injection Hv as <-.
    exists f. split; [by eapply list_elem_of_lookup_2 | done].
  - intros (f & (r & Hr)%list_elem_of_lookup & Hd & ->). exists r. rewrite Hr. eauto.
Qed.

Lemma otherServerProblems_nil fs :
  otherServerProblems fs (decided DecisionRemove fs) = [] <->
  forall f, f ∈ fs -> removed_file f -> forall e, e ∈ mv_other_servers (gf_version f) ->
    ol_match e = OtherSameFile -> exists o, o ∈ ol_others e /\
      forall f', f' ∈ fs -> removed_file f' ->
        mv_key (gf_version f') ∉ om_same o /\ mv_key (gf_version f') ∈ om_distinct o.
Proof.
  unfold otherServerProblems. fold (removed_keys fs). rewrite omap_nil.
  assert (Hkeys : forall P : string -> Prop, (forall k, k ∈ removed_keys fs -> P k) <->
    (forall f', f' ∈ fs -> removed_file f' -> P (mv_key (gf_version f')))).
  { intros P. unfold removed_keys. setoid_rewrite list_elem_of_fmap. setoid_rewrite elem_of_removed_versions.
    naive_solver. }
  setoid_rewrite elem_of_removed_versions. setoid_rewrite fmap_None. setoid_rewrite find_nil.
  setoid_rewrite needs_copy_false. setoid_rewrite Hkeys. split.
  - intros Hall f Hf Hr e He. apply (Hall (gf_version f)); eauto.
  - intros Hall v (f & Hf & Hr & ->) e He. by apply (Hall f).
Qed.

Lemma decided_nil_problems fs :
  flat_map (fun f => if decides DecisionKeep f || decides DecisionRemove f then []
                     else [PNoDecision (mv_key (gf_version f)) (gf_decision f)]) fs = [] <->
  forall f, f ∈ fs -> kept_file f \/ removed_file f.
Proof.
  rewrite flat_map_nil. unfold kept_file, removed_file. setoid_rewrite <- decides_eq.
  setoid_rewrite <- orb_true_iff. split; intros Hall f Hf; specialize (Hall f Hf);
    by destruct (decides DecisionKeep f || decides DecisionRemove f).
Qed.

Lemma kept_problems_nil (fs : list GroupFile) (b : bool) :
  (if (length (decided DecisionKeep fs) =? 0)%nat then [PNothingKept]
   else if b then [PNothingAvailable] else []) = [] <->
  (exists f, f ∈ fs /\ kept_file f) /\ b = false.
Proof.
  unfold kept_file. rewrite <- (some_decided DecisionKeep fs).
  destruct (decided DecisionKeep fs), b; simpl; split; try done; naive_solver.
Qed.

Lemma exists_available (fs : list GroupFile) :
  existsb (fun f => decides DecisionKeep f && available_version (gf_version f)) fs = true <->
  exists k, k ∈ fs /\ kept_file k /\ available_version (gf_version k) = true.
Proof.
  unfold kept_file. rewrite existsb_elem. split.
  - intros (k & Hk & [Hd%decides_eq Ha]%andb_true_iff). eauto.
  - intros (k & Hk & Hd & Ha). exists k. split; [done |]. apply andb_true_iff. by rewrite decides_eq.
Qed.

(** The checks of the source decide the specification. *)
Lemma decision_problems_nil g : decision_problems g = [] <-> safe_decisions g.
Proof.
  unfold decision_problems. destruct (dg_files g) as [|f0 fs] eqn:Efs.
  { split; [done |]. intros [_ (f & Hf & _) _]. rewrite Efs in Hf. by apply elem_of_nil in Hf. }
  rewrite <- Efs. clear Efs f0 fs. set (fs := dg_files g).
  rewrite !app_nil, decided_nil_problems, kept_problems_nil, !if_nil, otherServerProblems_nil.
  assert (Hrem : flat_map (fun r => match fs !! r with
      | Some f => removed_problems g (sameFileComponents (map gf_version fs)) (decided DecisionKeep fs) r f
      | None => [] end) (decided DecisionRemove fs) = [] <->
    forall r f, fs !! r = Some f -> removed_file f ->
      removed_problems g (sameFileComponents (map gf_version fs)) (decided DecisionKeep fs) r f = []).
  { rewrite flat_map_nil. setoid_rewrite elem_of_decided_files. split.
    - intros Hall r f Hf Hd. specialize (Hall r). rewrite Hf in Hall. apply Hall. eauto.
    - intros Hall r (f & Hf & Hd). rewrite Hf. by apply Hall. }
  rewrite Hrem, !andb_false_iff, negb_false_iff, exists_available.
  unfold has_flag. rewrite !mem_false.
  split.
  - intros (Hd & [Hk Ha] & Hr & Hm & Hq & Ho). split; [done | done |].
    intros r f Hf Hrf.
    assert (Hb : (0 <? length (decided DecisionRemove fs))%nat = true).
    { apply some_decided. exists f. split; [by eapply list_elem_of_lookup_2 | done]. }
    rewrite Hb in Ha, Hm, Hq. split_and!; [| by destruct Ha | by destruct Hm | by destruct Hq].
    specialize (Hr r f Hf Hrf). apply removed_problems_nil in Hr as (? & ? & ? & ? & ? & ? & ?); [| done].
    split; try done. apply Ho; [by eapply list_elem_of_lookup_2 | done].
  - intros [Hd Hk Hr].
    assert (Hc : (0 <? length (decided DecisionRemove fs))%nat = false \/
                 (exists r f, fs !! r = Some f /\ removed_file f)).
    { destruct (0 <? length (decided DecisionRemove fs))%nat eqn:E; [right | by left].
      apply some_decided in E as (f & (r & Hrf)%list_elem_of_lookup & Hd'). eauto. }
    split_and!; try done.
    + destruct Hc as [Hc|(r & f & Hf & Hrf)]; [by left | right]. by apply (Hr r f Hf Hrf).
    + intros r f Hf Hrf. destruct (Hr r f Hf Hrf) as ([] & _). by apply removed_problems_nil.
    + destruct Hc as [Hc|(r & f & Hf & Hrf)]; [by left | right]. by apply (Hr r f Hf Hrf).
    + destruct Hc as [Hc|(r & f & Hf & Hrf)]; [by left | right]. by apply (Hr r f Hf Hrf).
    + intros f (r & Hf)%list_elem_of_lookup Hrf. by destruct (Hr r f Hf Hrf) as ([] & _).
Qed.
End decided_spec.

(** ** The interface of a decision engine

    What the rest of the program relies on: a group the engine leaves pending or
    queued carries safe decisions, and every file of an evaluated group keeps
    its place. *)
Class SafeEngine `{Unicode} (run : DuplicateGroup -> option DuplicateGroup) : Prop := {
  engine_safe : forall g g', run g = Some g' ->
    dg_status g' = GroupPending \/ dg_status g' = GroupQueued -> safe_decisions g';
  engine_files : forall g g', run g = Some g' -> length (dg_files g') = length (dg_files g);
}.

Section client.
Context `{Unicode} (run : DuplicateGroup -> option DuplicateGroup) `{!SafeEngine run}.

(** A client that acts only on pending or queued groups never removes the last
    available version. *)
Lemma engine_keeps_available g g' f :
  run g = Some g' -> dg_status g' = GroupPending \/ dg_status g' = GroupQueued ->
  f ∈ dg_files g' -> removed_file f ->
  exists k, k ∈ dg_files g' /\ kept_file k /\ available_version (gf_version k) = true.
Proof.
  intros Hrun Hs (r & Hr)%list_elem_of_lookup Hrf. destruct (engine_safe g g' Hrun Hs) as [_ _ Hrem].
  by destruct (Hrem r f Hr Hrf) as (_ & ? & _).
Qed.
End client.
