(* ===== verification/ResultFacts.v ===== *)
(** * Facts about the written results

    The criterion an explanation names really decided, the reclaimable bytes
    are bounded by what the removed versions hold, the signature does not
    depend on the order of the files, and the text hashed for a disc is
    unambiguous. *)

From S2P Require Import Prelude GoStd GoFloat Models UnionFind DiscPaths Paths Titles Versions Criteria Ranking Flags CrossServer Decide DecideFacts Explain Evaluate.
Local Open Scope Z_scope.

(** ** Explanations *)

Section explanations.
Context `{Unicode} `{Doublestar} `{RegexSyntax}.

Lemma newEvaluation_rounds g p env :
  let ev := newEvaluation g p env in
  ev_rounds ev = snd (rank (ev_vs ev) (ev_metrics ev)).
Proof. unfold newEvaluation. cbn zeta. by destruct (rank _ _) eqn:E; simpl; rewrite E. Qed.

Lemma first_pairwise_spec k ms b x j w :
  first_pairwise k ms b x = Some (j, w) ->
  (k <= j)%nat /\ exists m, ms !! (j - k)%nat = Some m /\
    if w : bool then beats m b x = true else beats m x b = true.
Proof.
  revert k. induction ms as [|m ms IH]; intros k; simpl; [done |].
  destruct (beats m b x) eqn:E1.
  { intros [= -> <-]. split; [done |]. exists m. by rewrite Nat.sub_diag. }
  destruct (beats m x b) eqn:E2.
  { intros [= -> <-]. split; [done |]. exists m. by rewrite Nat.sub_diag. }
  intros (Hle & m' & Hm & Hb)%IH. split; [lia |]. exists m'. split; [| done].
  by replace (j - k)%nat with (S (j - S k)) by lia.
Qed.

(** The metric and the winner [versus] names are those of a real comparison. *)
Lemma versus_beats g p env b x :
  let ev := newEvaluation g p env in
  let '(mi, w) := versus ev b x in
  mi = length (ev_metrics ev) \/ exists m, ev_metrics ev !! mi = Some m /\ beats m w x = true.
Proof.
  cbn zeta. set (ev := newEvaluation g p env). unfold versus.
  assert (Hround : forall d, (fst d = length (ev_metrics ev)) ->
    let '(mi, w) := default d (elimination_in (ev_rounds ev) (ev_pos ev b) x) in
    mi = length (ev_metrics ev) \/ exists m, ev_metrics ev !! mi = Some m /\ beats m w x = true).
  { intros d Hd. unfold elimination_in.
    destruct (find _ _) as [[i [mi w]]|] eqn:Ef; simpl; [| destruct d; simpl in *; by left].
    apply List.find_some in Ef as [Hin Hi]. simpl in Hi. apply Nat.eqb_eq in Hi as ->.
    apply list_elem_of_In in Hin.
    destruct (ev_rounds ev !! ev_pos ev b) as [round|] eqn:Er; [| by apply elem_of_nil in Hin].
    apply (rank_loop_elim (length (ev_vs ev)) (ev_metrics ev) (by_key (ev_vs ev)) round x mi w); [| done].
    apply list_elem_of_lookup_2 in Er. unfold ev in *. by rewrite newEvaluation_rounds in Er. }
  destruct (first_pairwise 0 (ev_metrics ev) b x) as [[k []]|] eqn:Ef.
  - apply first_pairwise_spec in Ef as (_ & m & Hm & Hb). right. exists m. by rewrite Nat.sub_0_r in Hm.
  - by apply Hround.
  - case_goal; [by left | by apply Hround].
Qed.
End explanations.

(** ** Reclaimable bytes *)

Section reclaim.
Context `{Unicode}.

Definition part_bytes (p : MediaPart) : Z := Z.max (mp_size p) 0.
Definition parts_bytes (ps : list MediaPart) : Z := foldr (fun p n => part_bytes p + n) 0 ps.
(** The bytes a removed version can free at most. *)
Definition version_bytes (v : MediaVersion) : Z :=
  match mv_disc v with
  | Some d => if 0 <? di_total_bytes d then max0 (di_freed_bytes d) else parts_bytes (mv_parts v)
  | None => parts_bytes (mv_parts v)
  end.
Definition all_bytes (vs : list MediaVersion) : Z := foldr (fun v n => version_bytes v + n) 0 vs.

Lemma parts_bytes_nonneg ps : 0 <= parts_bytes ps.
Proof. induction ps as [|p ps IH]; simpl; [lia |]. unfold part_bytes. lia. Qed.
Lemma version_bytes_nonneg v : 0 <= version_bytes v.
Proof.
  unfold version_bytes. destruct (mv_disc v); [| apply parts_bytes_nonneg].
  case_goal; [unfold max0; lia | apply parts_bytes_nonneg].
Qed.
Lemma all_bytes_nonneg vs : 0 <= all_bytes vs.
Proof. induction vs as [|v vs IH]; simpl; [lia |]. pose proof (version_bytes_nonneg v). lia. Qed.

Lemma reclaim_part_bound acc p :
  0 <= snd acc -> snd acc + part_bytes p <= max_int64 ->
  0 <= snd (reclaim_part acc p) <= snd acc + part_bytes p.
Proof.
  destruct acc as [seen total]. unfold reclaim_part, part_bytes. simpl. intros H0 H1.
  destruct ((1 <? mp_link_count p) || (mp_size p <=? 0)) eqn:E; simpl; [lia |].
  bsimp. destruct (foldl _ _ _) as [s dup]. simpl. destruct dup; [lia |].
  rewrite wrap64_id; [lia |]. unfold min_int64. lia.
Qed.

Lemma reclaim_parts_bound ps acc :
  0 <= snd acc -> snd acc + parts_bytes ps <= max_int64 ->
  0 <= snd (foldl reclaim_part acc ps) <= snd acc + parts_bytes ps.
Proof.
  revert acc. induction ps as [|p ps IH]; intros acc H0 H1; simpl in *; [lia |].
  pose proof (parts_bytes_nonneg ps). pose proof (reclaim_part_bound acc p H0 ltac:(lia)).
  pose proof (IH (reclaim_part acc p)). lia.
Qed.

Lemma reclaim_version_bound acc v :
  0 <= snd acc -> snd acc + version_bytes v <= max_int64 ->
  0 <= snd (reclaim_version acc v) <= snd acc + version_bytes v.
Proof.
  destruct acc as [seen total]. unfold reclaim_version, version_bytes. simpl. intros H0 H1.
  destruct (mv_disc v) as [d|]; [| by apply (reclaim_parts_bound _ (seen, total))].
  destruct (0 <? di_total_bytes d); [| by apply (reclaim_parts_bound _ (seen, total))].
  unfold max0 in *. case_goal; simpl; [lia |]. rewrite wrap64_id; [lia |]. unfold min_int64. lia.
Qed.

Lemma reclaim_versions_bound vs acc :
  0 <= snd acc -> snd acc + all_bytes vs <= max_int64 ->
  0 <= snd (foldl reclaim_version acc vs) <= snd acc + all_bytes vs.
Proof.
  revert acc. induction vs as [|v vs IH]; intros acc H0 H1; simpl in *; [lia |].
  pose proof (all_bytes_nonneg vs). pose proof (reclaim_version_bound acc v H0 ltac:(lia)).
  pose proof (IH (reclaim_version acc v)). lia.
Qed.
End reclaim.

(** ** The text hashed for a disc *)

(** [c] does not occur in [s]. *)
Definition free_of (c : ascii) (s : string) : Prop := index_byte s c = None.

Lemma free_of_cons c d s : free_of c (String d s) <-> c <> d /\ free_of c s.
Proof.
  unfold free_of, index_byte. simpl. destruct (Ascii.eqb_spec c d) as [->|Hne]; [naive_solver |].
  destruct (index_byte_where (Ascii.eqb c) s); simpl; naive_solver.
Qed.

Lemma sep_inj c a b x y :
  free_of c a -> free_of c b -> (a +:+ String c x = b +:+ String c y)%string -> a = b /\ x = y.
Proof.
  revert b. induction a as [|d a IH]; intros b Ha Hb E; destruct b as [|e b].
  - by injection E.
  - rewrite str_app_cons in E. injection E as -> _. apply free_of_cons in Hb as [? _]. done.
  - rewrite str_app_cons in E. injection E as -> _. apply free_of_cons in Ha as [? _]. done.
  - rewrite !str_app_cons in E. injection E as -> E.
    apply free_of_cons in Ha as [_ Ha], Hb as [_ Hb]. destruct (IH b Ha Hb E) as [-> ->]. done.
Qed.

Lemma app_length_inj (a b x y : string) :
  String.length a = String.length b -> (a +:+ x = b +:+ y)%string -> a = b /\ x = y.
Proof.
  revert b. induction a as [|d a IH]; intros [|e b] Hl E; simpl in Hl; try done.
  rewrite !str_app_cons in E. injection E as -> E. destruct (IH b) as [-> ->]; [lia | done | done].
Qed.

Lemma pretty_N_go_free c n s :
  (forall m, (m < 10)%N -> pretty_N_char m <> c) -> free_of c s -> free_of c (pretty_N_go n s).
Proof.
  intros Hc. revert s. induction (N.lt_wf_0 n) as [n _ IH]. intros s Hs.
  destruct (decide (n = 0)%N) as [->|Hn]; [by rewrite pretty_N_go_0 |].
  rewrite pretty_N_go_step by lia. apply IH; [apply N.div_lt; lia |].
  apply free_of_cons. split; [| done]. intros E. apply (Hc (n mod 10)%N); [by apply N.mod_lt | done].
Qed.

Lemma digit_chars m : (m < 10)%N -> pretty_N_char m <> ":"%char /\ pretty_N_char m <> Ascii.zero.
Proof.
  intros Hm. destruct m as [|p]; [done |].
  do 4 (destruct p as [p|p|]; try done; try lia).
Qed.

Lemma format_int_free c z :
  c = ":"%char \/ c = Ascii.zero -> free_of c (format_int z).
Proof.
  intros Hc. unfold format_int.
  assert (HN : forall n : N, free_of c (pretty n)).
  { intros n. unfold pretty, pretty_N. case_decide; [by destruct Hc as [->| ->] |].
    apply pretty_N_go_free; [| done]. intros m Hm. destruct (digit_chars m Hm). naive_solver. }
  destruct z as [|q|q].
  - by destruct Hc as [->| ->].
  - apply (HN (Npos q)).
  - change (pretty (Z.neg q)) with (String "-" (pretty (Npos q))). apply free_of_cons.
    split; [by destruct Hc as [->| ->] | apply HN].
Qed.

Lemma format_int_inj a b : format_int a = format_int b -> a = b.
Proof. unfold format_int. intros E. by apply (inj pretty) in E. Qed.

Definition field_value (v : string) : string :=
  (format_int (Z.of_nat (String.length v)) +:+ ":" +:+ v +:+ nul)%string.

Lemma field_eq name vals :
  field name vals =
  (name +:+ ":" +:+ format_int (Z.of_nat (length vals)) +:+ nul +:+ sconcat (map field_value vals))%string.
Proof. done. Qed.

Lemma field_values_inj (a b : list string) x y :
  length a = length b ->
  (sconcat (map field_value a) +:+ x = sconcat (map field_value b) +:+ y)%string -> a = b /\ x = y.
Proof.
  revert b. induction a as [|v a IH]; intros [|w b] Hl E; try done.
  change (sconcat (map field_value (v :: a))) with (field_value v +:+ sconcat (map field_value a))%string in E.
  change (sconcat (map field_value (w :: b))) with (field_value w +:+ sconcat (map field_value b))%string in E.
  unfold field_value in E at 1 3. rewrite !str_app_assoc in E.
  apply sep_inj in E as [Elen E]; [| apply format_int_free; by left..].
  apply format_int_inj in Elen.
  apply app_length_inj in E as [-> E]; [| lia].
  injection E as E. destruct (IH b) as [-> ->]; [simpl in Hl; lia | done | done].
Qed.

(** A field can be read back, whatever follows it. *)
Lemma field_inj name vals vals' x y :
  (field name vals +:+ x = field name vals' +:+ y)%string -> vals = vals' /\ x = y.
Proof.
  rewrite !field_eq, !str_app_assoc. intros E.
  assert (E1 : (format_int (Z.of_nat (length vals)) +:+ nul +:+ sconcat (map field_value vals) +:+ x =
                format_int (Z.of_nat (length vals')) +:+ nul +:+ sconcat (map field_value vals') +:+ y)%string).
  { assert (Hc : forall a u w : string, (a +:+ u = a +:+ w)%string -> u = w).
    { induction a as [|d a IH]; intros u w; [done |]. rewrite !str_app_cons. intros [= E']. by apply IH. }
    apply (Hc name) in E. by apply (Hc ":"%string) in E. }
  apply sep_inj in E1 as [Elen E1]; [| apply format_int_free; by right..].
  apply format_int_inj in Elen. apply field_values_inj; [lia |]. exact E1.
Qed.

Lemma disc_fields_values d d' :
  disc_fields d = disc_fields d' ->
  di_root d = di_root d' /\ path_clean (di_local_root d) = path_clean (di_local_root d') /\
  sortedClean (di_roots d) = sortedClean (di_roots d') /\
  sortedClean (di_local_roots d) = sortedClean (di_local_roots d') /\
  sortedClean (di_owned_entries d) = sortedClean (di_owned_entries d') /\
  di_file_count d = di_file_count d' /\ di_total_bytes d = di_total_bytes d' /\
  di_fingerprint d = di_fingerprint d'.
Proof.
  unfold disc_fields. intros E.
  apply field_inj in E as [E1 E]. apply field_inj in E as [E2 E]. apply field_inj in E as [E3 E].
  apply field_inj in E as [E4 E]. apply field_inj in E as [E5 E]. apply field_inj in E as [E6 E].
  assert (E7 : [di_fingerprint d] = [di_fingerprint d']).
  { apply (field_inj "fingerprint" _ _ "" ""). by rewrite !str_app_nil_r. }
  injection E1 as ->. injection E2 as ->. injection E6 as F1 F2. injection E7 as ->.
  apply format_int_inj in F1, F2. split_and!; done.
Qed.

(** ** Signatures *)

Lemma signature_Permutation_lines fs fs' :
  map signature_line fs ≡ₚ map signature_line fs' -> signature fs = signature fs'.
Proof. unfold signature. intros Hp. by rewrite (sort_strings_Permutation _ _ Hp). Qed.

(** ** Ranks *)

Lemma pos_in_spec order i : NoDup order -> i ∈ order -> order !! pos_in order i = Some i.
Proof.
  intros Hnd Hi. unfold pos_in.
  destruct (list_find_elem_of (fun j => j = i) order i Hi eq_refl) as [[k j] Hf].
  rewrite Hf. simpl. apply list_find_Some in Hf as (Hk & -> & _). done.
Qed.

(** The positions of the versions are a permutation of the ranks. *)
Lemma positions_Permutation order n :
  order ≡ₚ seq 0 n -> map (pos_in order) (seq 0 n) ≡ₚ seq 0 n.
Proof.
  intros Hp. assert (Hnd : NoDup order) by (rewrite Hp; apply NoDup_seq).
  assert (Hlen : length order = n) by (by rewrite Hp, length_seq).
  apply submseteq_length_Permutation; [| by rewrite length_map, !length_seq].
  apply NoDup_submseteq.
  - apply NoDup_fmap_2_strong; [| apply NoDup_seq].
    intros a b Ha Hb E. rewrite <- Hp in Ha, Hb.
    apply pos_in_spec in Ha, Hb; try done. rewrite E in Ha. congruence.
  - intros k (i & -> & Hi)%list_elem_of_fmap. rewrite <- Hp in Hi. apply pos_in_spec in Hi; [| done].
    apply lookup_lt_Some in Hi. apply elem_of_seq. lia.
Qed.

(** ** The minimum age *)

Section ages.
Context `{Unicode} `{Doublestar} (ev : evaluation).

(** A removed version not (known to be) old enough. *)
Definition too_young (now : time) (v : MediaVersion) : Prop :=
  is_zero (newestAdded v) = true \/ time_sub now (newestAdded v) < env_min_age (ev_env ev).

Lemma annotate_age_mono now i acc : has_young (snd acc) = true -> has_young (snd (annotate_age ev now i acc)) = true.
Proof.
  destruct acc as [st y]. unfold annotate_age. simpl. intros Hy.
  assert (Hmax : forall a, 0 <? Z.max a 1 = true) by (intros; apply Z.ltb_lt; lia).
  repeat case_goal; unfold has_young in *; simpl; try done; rewrite ?Hmax, ?orb_true_r; done.
Qed.

Lemma annotate_age_nonneg now i acc : 0 <= yg_age (snd acc) -> 0 <= yg_age (snd (annotate_age ev now i acc)).
Proof.
  destruct acc as [st y]. unfold annotate_age. simpl. intros Hy. repeat case_goal; simpl; lia.
Qed.

Lemma annotate_age_young now i v st y :
  0 <= yg_age y -> ev_vs ev !! i = Some v -> kept st i = false -> too_young now v ->
  has_young (snd (annotate_age ev now i (st, y))) = true.
Proof.
  intros Hpos Hv Hk Hy. unfold annotate_age, has_young. rewrite Hv, Hk.
  assert (Hmax : forall a, 0 <? Z.max a 1 = true) by (intros; apply Z.ltb_lt; lia).
  destruct (is_zero (newestAdded v)) eqn:Ez; simpl; [by rewrite orb_true_r |].
  destruct Hy as [?|Hy]; [congruence |].
  destruct (Z.ltb_spec (time_sub now (newestAdded v)) 0); simpl; [by rewrite !orb_true_r |].
  rewrite (proj2 (Z.ltb_lt _ _) Hy). simpl.
  destruct (Z.eqb_spec (yg_age y) 0); simpl; [by rewrite Hmax |].
  destruct (Z.ltb_spec (time_sub now (newestAdded v)) (yg_age y)); [by rewrite Hmax |].
  rewrite (proj2 (Z.ltb_lt 0 (yg_age y))); [done | lia].
Qed.

Lemma annotate_ages_young now l i v st y :
  0 <= yg_age y -> i ∈ l -> ev_vs ev !! i = Some v -> kept st i = false -> too_young now v ->
  has_young (snd (foldl (fun acc j => annotate_age ev now j acc) (st, y) l)) = true.
Proof.
  intros Hpos Hin Hv Hk Hy. revert st y Hk Hpos. induction l as [|j l IH]; intros st y Hk Hpos; [by apply elem_of_nil in Hin |].
  cbn [foldl]. apply elem_of_cons in Hin as [->|Hin].
  - apply (foldl_inv _ (fun acc => has_young (snd acc) = true)); [by eapply annotate_age_young |].
    intros acc x _. apply annotate_age_mono.
  - assert (Hs : kept (fst (annotate_age ev now j (st, y))) i = false).
    { unfold annotate_age. repeat case_goal; done. }
    pose proof (annotate_age_nonneg now j (st, y) Hpos).
    destruct (annotate_age ev now j (st, y)) as [st' y']. cbn [fst snd] in *. apply IH; done.
Qed.

Lemma annotate_young now st i v :
  0 < env_min_age (ev_env ev) -> ev_vs ev !! i = Some v -> kept st i = false -> too_young now v ->
  has_young (snd (annotate ev now st)) = true.
Proof.
  intros Hmin Hv Hk Hy.
  pose proof (annotate_decisions ev now st) as Hsame. unfold annotate in *.
  set (s1 := for_range _ (annotate_kept ev) _) in *.
  assert (Hks : st_keep s1 = st_keep st).
  { unfold s1. apply (foldl_inv _ (fun s => st_keep s = st_keep st)).
    - apply (foldl_inv _ (fun s => st_keep s = st_keep st)).
      + apply (foldl_inv _ (fun s => st_keep s = st_keep st)); [done |].
        intros s [a b] _ Hs. unfold annotate_pair. case_goal; done.
      + intros s j _ Hs. unfold annotate_untracked. repeat case_goal; done.
    - intros s j _ Hs. unfold annotate_kept. repeat case_goal; done. }
  rewrite (proj2 (Z.ltb_lt _ _) Hmin). unfold for_range.
  apply (annotate_ages_young now (seq 0 (ev_n ev)) i v).
  - done.
  - apply elem_of_seq. apply lookup_lt_Some in Hv. unfold ev_n. lia.
  - done.
  - unfold kept in *. by rewrite Hks.
  - done.
Qed.
End ages.
