(* ===== verification/EngineTheorems.v ===== *)
(** * Theorems about evaluating a group

    The safety of [Evaluate] and [ValidateDecisions], stated against the
    specification of Spec.v, and the promises of the single steps: protections,
    keepers, same files, other servers, playable copies, explanations. *)

From S2P Require Import Prelude GoStd GoFloat Models UnionFind DiscPaths Paths Titles Versions Criteria Ranking Flags CrossServer Decide DecideFacts Explain Evaluate Fixtures Validate EvaluateFacts Safety Spec ResultFacts Group ExecGuards.
Local Open Scope string_scope.
Local Open Scope Z_scope.

(** [Evaluate] as the decision engine the rest of the program relies on. *)
#[export] Instance evaluate_engine `{Unicode} `{Doublestar} `{RegexSyntax} clock p env :
  SafeEngine (fun g => match Evaluate clock g p env with inr g' => Some g' | inl _ => None end).
Proof.
  split; intros g g'; destruct (Evaluate clock g p env) as [e|x] eqn:E; try done; intros [= <-];
    apply Evaluate_inr in E as [Hc ->].
  - intros Hs. apply decision_problems_nil, pending_no_problems; [by apply checkEvaluable_files | done].
  - apply the_fields.
Qed.

Section statements.
Context `{Unicode} `{Doublestar} `{RegexSyntax}.

(** A file whose version may not be removed ([discProtectionReasons],
    protections, multi-episode files and the like give a reason). *)
Definition must_keep (g : DuplicateGroup) (p : Profile) (env : EvalEnv) (v : MediaVersion) : Prop :=
  initial_reasons (newEvaluation g p env) v <> [].
End statements.

(** C1: The decisions of a group that [Evaluate] leaves pending, or lets stay
    queued for the executor, are safe: everything is decided, an available
    version is kept when something is removed, and no removed version is
    protected, shared with other episodes, optimized, part of a disc, the same
    file as a kept one or another server's last copy. *)
Theorem Evaluate_actionable_safe `{Unicode} `{Doublestar} `{RegexSyntax} clock g p env g' :
  Evaluate clock g p env = inr g' ->
  dg_status g' = GroupPending \/ dg_status g' = GroupQueued -> safe_decisions g'.
Proof.
  intros E Hs. apply (engine_safe (run := fun g => match Evaluate clock g p env with inr g' => Some g' | inl _ => None end) g g').
  - by rewrite E.
  - done.
Qed.

Lemma Evaluate_actionable_safe_witness : safe_decisions fx_result.
Proof. apply (Evaluate_actionable_safe 0 fx_group fx_profile fx_env); [reflexivity | left; vm_compute; reflexivity]. Defined.

(** C2: [ValidateDecisions] reports no error exactly for safe decisions. *)
Theorem ValidateDecisions_safe `{Unicode} g : ValidateDecisions g = None <-> safe_decisions g.
Proof.
  rewrite <- decision_problems_nil. unfold ValidateDecisions. by destruct (decision_problems g).
Qed.

(** C3: Whatever status a group gets, the only invariants its decisions can
    miss are the three that make it wait or ask for a review: no reachable
    keeper, the minimum age and a busy *arr queue. *)
Theorem Evaluate_problems `{Unicode} `{Doublestar} `{RegexSyntax} clock g p env g' :
  Evaluate clock g p env = inr g' ->
  forall q, q ∈ decision_problems g' -> q = PNothingAvailable \/ q = PMinAge \/ q = PQueueBusy.
Proof.
  intros [Hc ->]%Evaluate_inr q Hq. rewrite evaluate_problems in Hq by (by apply checkEvaluable_files).
  unfold left_problems in Hq. rewrite !elem_of_app in Hq.
  destruct Hq as [Hq|[Hq|Hq]]; revert Hq; case_goal; rewrite ?list_elem_of_singleton; auto;
    by intros ?%elem_of_nil.
Qed.

(** An accessible keeper is missing: the problem is there, the group in review. *)
Definition fx_unreachable : MediaVersion :=
  fx_full "plex:1:13" 13 "2160p"
    [{| mp_path := "/m/Dune (2021)/Dune (2021) 4k.mkv"; mp_local_path := ""; mp_size := 60000000000;
        mp_duration := 0; mp_exists := Some true; mp_accessible := Some false; mp_shared_with := [];
        mp_shortcut_of := []; mp_link_count := 1; mp_inode := ""; mp_item_id := "" |}] None None [] [].
Definition fx_size_profile : Profile := {|
  pf_id := 7; pf_criteria := [fx_criterion CritResolution; fx_criterion CritFileSize];
  pf_keep_count := 1; pf_keep_per := KeepPerNone; pf_protections := [] |}.
Definition fx_unreachable_group : DuplicateGroup := fx_group_of [fx_file fx_b; fx_file fx_unreachable].
Definition fx_unreachable_result : DuplicateGroup := run_evaluation 0 fx_unreachable_group fx_size_profile fx_env.

Lemma Evaluate_problems_witness :
  decision_problems fx_unreachable_result = [PNothingAvailable] /\
  (PNothingAvailable = PNothingAvailable \/ PNothingAvailable = PMinAge \/ PNothingAvailable = PQueueBusy).
Proof.
  assert (E : decision_problems fx_unreachable_result = [PNothingAvailable]) by (vm_compute; reflexivity).
  split; [exact E |].
  apply (Evaluate_problems 0 fx_unreachable_group fx_size_profile fx_env fx_unreachable_result); [reflexivity |].
  rewrite E. apply list_elem_of_singleton. reflexivity.
Defined.

(** C4: A version with any reason to be protected (optimized, missing, shared
    with other episodes, a disc that may not go, a file inside a disc, an
    intentional *arr instance, a profile protection, a report-only reason) is
    protected and kept, whatever the user's overrides ask. *)
Theorem Evaluate_keeps_protected `{Unicode} `{Doublestar} `{RegexSyntax} clock g p env g' i f f' :
  Evaluate clock g p env = inr g' ->
  dg_files g !! i = Some f -> dg_files g' !! i = Some f' -> must_keep g p env (gf_version f) ->
  gf_decision f' = DecisionKeep /\ gf_protected f' = true.
Proof.
  intros [_ ->]%Evaluate_inr Hf Hf' Hr.
  destruct (the_file clock g p env i f' Hf') as (f0 & Hf0 & _ & Hd & _ & Hp & _ & _ & _ & Hvs).
  rewrite Hf in Hf0. injection Hf0 as <-.
  destruct (kept (the_state clock g p env) i) eqn:Ek.
  - split; [by rewrite Hd |]. rewrite Hp, the_protected. by apply (decide_protects _ i (gf_version f)).
  - destruct (removed_unprotected clock g p env i _ Hvs Ek) as [_ Hn]. by apply Hr in Hn.
Qed.

Definition fx_remove (v : MediaVersion) : GroupFile := {|
  gf_version := v; gf_decision := ""; gf_engine_decision := ""; gf_override := "remove"; gf_rank := 0;
  gf_reasons := []; gf_deciding_criterion := ""; gf_protected := false; gf_protected_reason := [] |}.
Definition fx_protecting : Profile := {|
  pf_id := 8; pf_criteria := [fx_criterion CritResolution]; pf_keep_count := 1; pf_keep_per := KeepPerNone;
  pf_protections := [{| pr_type := ProtectLibrary; pr_value := "movies" |}] |}.
Definition fx_overridden : DuplicateGroup := fx_group_of [fx_remove fx_b; fx_file fx_a].

Definition fx_overridden_result : DuplicateGroup := run_evaluation 0 fx_overridden fx_protecting fx_env.
Definition file_at (g : DuplicateGroup) (i : nat) : GroupFile := default (fx_file fx_a) (dg_files g !! i).

Lemma Evaluate_keeps_protected_witness :
  gf_decision (file_at fx_overridden_result 0) = DecisionKeep /\
  gf_protected (file_at fx_overridden_result 0) = true.
Proof.
  apply (Evaluate_keeps_protected 0 fx_overridden fx_protecting fx_env fx_overridden_result 0%nat (fx_remove fx_b)).
  - reflexivity.
  - reflexivity.
  - vm_compute. reflexivity.
  - unfold must_keep. vm_compute. discriminate.
Defined.

(** C5: When some version may be kept (it is neither optimized nor missing), one
    such version is kept, even when the user asks to remove all of them. *)
Theorem Evaluate_keeps_eligible `{Unicode} `{Doublestar} `{RegexSyntax} clock g p env g' f :
  Evaluate clock g p env = inr g' -> f ∈ dg_files g -> eligible_version (gf_version f) = true ->
  exists i f1 f', dg_files g !! i = Some f1 /\ dg_files g' !! i = Some f' /\
    eligible_version (gf_version f1) = true /\ gf_decision f' = DecisionKeep.
Proof.
  intros [_ ->]%Evaluate_inr (i & Hi)%list_elem_of_lookup He.
  set (ev := the_ev g p env). pose proof (the_ok g p env) as Hok. fold ev in Hok.
  assert (Hv : ev_vs ev !! i = Some (gf_version f)) by (unfold ev; by rewrite the_vs, list_lookup_fmap, Hi).
  destruct (decide_keeps_eligible ev Hok i) as (j & Hej & Hj).
  { by apply lookup_lt_Some in Hv. }
  { by rewrite (eligible_spec ev Hok i _ Hv). }
  assert (Hlt : (j < length (dg_files g))%nat).
  { apply bget_lt in Hj. rewrite (wf_keep _ _ (decide_wf ev)) in Hj. unfold ev in Hj. by rewrite the_n in Hj. }
  destruct (dg_files g !! j) as [f1|] eqn:E1; [| apply lookup_ge_None in E1; lia].
  pose proof (the_fields clock g p env) as (_ & _ & Hl).
  destruct (dg_files (the_group clock g p env) !! j) as [f'|] eqn:E2; [| apply lookup_ge_None in E2; lia].
  exists j, f1, f'. split_and!; try done.
  - rewrite <- (eligible_spec ev Hok j); [done |]. unfold ev. by rewrite the_vs, list_lookup_fmap, E1.
  - apply the_file in E2 as (f2 & _ & _ & -> & _). rewrite the_kept. fold ev. unfold kept in *. by rewrite Hj.
Qed.

Definition fx_all_removed : DuplicateGroup := fx_group_of [fx_remove fx_b; fx_remove fx_a].
Definition fx_all_removed_result : DuplicateGroup := run_evaluation 0 fx_all_removed fx_profile fx_env.
Lemma Evaluate_keeps_eligible_witness :
  exists i f1 f', dg_files fx_all_removed !! i = Some f1 /\ dg_files fx_all_removed_result !! i = Some f' /\
    eligible_version (gf_version f1) = true /\ gf_decision f' = DecisionKeep.
Proof.
  apply (Evaluate_keeps_eligible 0 fx_all_removed fx_profile fx_env fx_all_removed_result (fx_remove fx_b)).
  - reflexivity.
  - apply list_elem_of_In. left. reflexivity.
  - vm_compute. reflexivity.
Defined.

(** C6: Versions linked by a chain of shared paths, inodes, *arr files or disc
    roots are all kept or all removed. *)
Theorem Evaluate_same_file_together `{Unicode} `{Doublestar} `{RegexSyntax} clock g p env g' a b fa fb :
  Evaluate clock g p env = inr g' ->
  dg_files g' !! a = Some fa -> dg_files g' !! b = Some fb -> same_file g' a b ->
  gf_decision fa = gf_decision fb.
Proof.
  intros [_ ->]%Evaluate_inr Ha Hb Hs. unfold same_file in Hs.
  apply same_components_iff in Hs; [| rewrite length_map; by eapply lookup_lt_Some..].
  rewrite the_same_components in Hs.
  apply the_file in Ha as (f1 & _ & _ & -> & _ & _ & _ & _ & _ & H1'), Hb as (f2 & _ & _ & -> & _ & _ & _ & _ & _ & H2').
  rewrite !the_kept. f_equal.
  apply (closed_same_spec _ (the_ok g p env)); [apply decide_closed, the_ok | by eapply lookup_lt_Some.. | done].
Qed.

(** The same file reached twice: the profile's loser is kept too. *)
Definition fx_hardlinked : MediaVersion :=
  fx_version "plex:1:14" 14 "1080p" "/m/Dune (2021)/Dune (2021) 2160p.mkv" 50000000000.
Definition fx_twice : DuplicateGroup := fx_group_of [fx_file fx_hardlinked; fx_file fx_b; fx_file fx_a].
Definition fx_twice_result : DuplicateGroup := run_evaluation 0 fx_twice fx_profile fx_env.

Lemma Evaluate_same_file_together_witness :
  map gf_decision (dg_files fx_twice_result) = [DecisionKeep; DecisionRemove; DecisionKeep] /\
  gf_decision (file_at fx_twice_result 0) = gf_decision (file_at fx_twice_result 2).
Proof.
  split; [vm_compute; reflexivity |].
  apply (Evaluate_same_file_together 0 fx_twice fx_profile fx_env fx_twice_result 0%nat 2%nat).
  - vm_compute. reflexivity.
  - vm_compute. reflexivity.
  - vm_compute. reflexivity.
  - apply rtc_once. left.
    exists (sameFileKeys fx_hardlinked), (sameFileKeys fx_a), "p:/m/dune (2021)/dune (2021) 2160p.mkv".
    split; [vm_compute; reflexivity |]. split; [vm_compute; reflexivity |].
    split; apply mem_true; vm_compute; reflexivity.
Defined.

(** C7: A removed version whose file another server's item lists leaves that item
    with a version proven different from everything the group removes. *)
Theorem Evaluate_other_servers `{Unicode} `{Doublestar} `{RegexSyntax} clock g p env g' f e :
  Evaluate clock g p env = inr g' ->
  f ∈ dg_files g' -> removed_file f -> e ∈ mv_other_servers (gf_version f) -> ol_match e = OtherSameFile ->
  exists o, o ∈ ol_others e /\ forall f', f' ∈ dg_files g' -> removed_file f' ->
    mv_key (gf_version f') ∉ om_same o /\ mv_key (gf_version f') ∈ om_distinct o.
Proof.
  intros [_ ->]%Evaluate_inr. intros Hf Hr. revert e. revert f Hf Hr. rewrite <- otherServerProblems_nil.
  apply no_other_server_problems.
Qed.

Definition fx_listing (others : list OtherMedia) : OtherListing := {|
  ol_server_id := 2; ol_server_name := "attic"; ol_library_id := 9; ol_library_title := "Films";
  ol_rating_key := "77"; ol_item_title := "Dune"; ol_path := "/films/Dune 1080p.mkv"; ol_match := OtherSameFile;
  ol_item_keeps_another := None; ol_kept_by_group := None; ol_others := others; ol_hint := ""; ol_version_key := ""; ol_media_id := 0; ol_part_item_ids := [] |}.
Definition fx_other : OtherMedia :=
  {| om_version_key := "plex:2:5"; om_same := []; om_distinct := ["plex:1:12"] |}.
Definition fx_shared_b (others : list OtherMedia) : MediaVersion := set_other_servers [fx_listing others] fx_b.
Definition fx_listed (others : list OtherMedia) : DuplicateGroup := fx_group_of [fx_file (fx_shared_b others); fx_file fx_a].
Definition fx_listed_result : DuplicateGroup := run_evaluation 0 (fx_listed [fx_other]) fx_profile fx_env.

(** With a survivor the copy goes; without one it is kept. *)
Example fx_listed_decisions :
  map gf_decision (dg_files fx_listed_result) = [DecisionRemove; DecisionKeep] /\
  map gf_decision (dg_files (run_evaluation 0 (fx_listed []) fx_profile fx_env)) = [DecisionKeep; DecisionKeep].
Proof. split; by vm_compute. Qed.

Lemma Evaluate_other_servers_witness :
  exists o, o ∈ ol_others (fx_listing [fx_other]) /\ forall f', f' ∈ dg_files fx_listed_result -> removed_file f' ->
    mv_key (gf_version f') ∉ om_same o /\ mv_key (gf_version f') ∈ om_distinct o.
Proof.
  apply (Evaluate_other_servers 0 (fx_listed [fx_other]) fx_profile fx_env fx_listed_result
    (file_at fx_listed_result 0) (set_item_keeps (Some true) (fx_listing [fx_other]))).
  - vm_compute. reflexivity.
  - apply list_elem_of_lookup. exists 0%nat. vm_compute. reflexivity.
  - vm_compute. reflexivity.
  - apply list_elem_of_lookup. exists 0%nat. vm_compute. reflexivity.
  - reflexivity.
Defined.

(** The loop that re-checks the other servers ends by itself: its fuel is
    never used up, and one more pass would change nothing. *)
Theorem other_servers_loop_ends `{Unicode} `{Doublestar} `{RegexSyntax} g p env after st fuel :
  let ev := newEvaluation g p env in
  length (st_keep st) = ev_n ev -> closed_same ev st -> (loop_fuel ev <= fuel)%nat ->
  let st' := other_servers_loop ev (loop_fuel ev) after st in
  other_servers_loop ev fuel after st = st' /\ protectOtherServers ev after st' = (st', false).
Proof.
  intros ev Hlen Hs Hf st'. pose proof (newEvaluation_ok g p env) as Hok. fold ev in Hok.
  assert (Hu : (unkept ev st < loop_fuel ev)%nat) by (pose proof (unkept_le ev st); unfold loop_fuel; lia).
  split; [by apply other_servers_loop_fuel |].
  destruct (other_servers_loop_spec ev (loop_fuel ev) after st Hlen (comp_length ev Hok) (eo_members _ Hok) Hs Hu)
    as (Hc & _ & _). fold st' in Hc.
  destruct (protectOtherServers_unchanged ev after st' Hc) as [Hst _].
  destruct (protectOtherServers ev after st'); simpl in *; congruence.
Qed.

Definition fx_loop_ev : evaluation := newEvaluation (fx_listed []) fx_profile fx_env.
Lemma other_servers_loop_ends_witness :
  st_keep (initial_decisions fx_loop_ev) = [false; true] /\
  let ev := newEvaluation (fx_listed []) fx_profile fx_env in
  let st' := other_servers_loop ev (loop_fuel ev) false (initial_decisions fx_loop_ev) in
  other_servers_loop ev 10 false (initial_decisions fx_loop_ev) = st' /\
  protectOtherServers ev false st' = (st', false).
Proof.
  split; [vm_compute; reflexivity |].
  apply (other_servers_loop_ends (fx_listed []) fx_profile fx_env false (initial_decisions fx_loop_ev) 10%nat).
  - vm_compute. reflexivity.
  - intros c ms Hin. exfalso.
    assert (E : ev_same_members (newEvaluation (fx_listed []) fx_profile fx_env) = []) by (vm_compute; reflexivity).
    rewrite E in Hin. apply elem_of_nil in Hin. exact Hin.
  - vm_compute. repeat constructor.
Defined.

(** Exactly the first [keepCount] eligible versions of every partition, in
    ranking order, are selected as keepers. *)
Theorem rankKeep_top `{Unicode} `{Doublestar} `{RegexSyntax} g p env i :
  let ev := newEvaluation g p env in
  bget (rankKeep ev) i = true <->
  exists k ms, (k, ms) ∈ ev_part_members ev /\
    i ∈ take (Z.to_nat (Z.max (pf_keep_count p) 1)) (List.filter (eligible ev) ms).
Proof.
  destruct (newEvaluation_fields g p env) as [<- _]. pose proof (newEvaluation_ok g p env) as Hok.
  generalize dependent (newEvaluation g p env). intros ev Hok. exact (proj2 (rankKeep_spec ev Hok i)).
Qed.

(** With "Always Keep a Plex-Playable Copy", every partition that has an
    available version Plex can play keeps one in the engine's decisions. *)
Theorem engine_keeps_playable `{Unicode} `{Doublestar} `{RegexSyntax} g p env k ms :
  let ev := newEvaluation g p env in
  env_keep_playable_copy env = true -> (k, ms) ∈ ev_part_members ev ->
  (exists i, i ∈ ms /\ eligible ev i = true /\ playable_at ev i = true) ->
  exists i, i ∈ ms /\ bget (engineKeep ev) i = true /\ eligible ev i = true /\ playable_at ev i = true.
Proof.
  destruct (newEvaluation_fields g p env) as (_ & Henv & _). pose proof (newEvaluation_ok g p env) as Hok.
  generalize dependent (newEvaluation g p env). intros ev Henv Hok ev' He. subst ev'. rewrite <- Henv in He.
  exact (engine_playable ev Hok He k ms).
Qed.

(** A disc that ranks first next to a regular copy. *)
Definition fx_disc (others : list OtherListing) : MediaVersion :=
  fx_full "plex:1:15" 15 "2160p" [fx_part "/m/Dune (2021)/disc/BDMV/STREAM/00001.m2ts" 40000000000] None
    (Some fx_disc_info) others [].
Definition fx_disc_group : DuplicateGroup := fx_group_of [fx_file fx_b; fx_file (fx_disc [])].

Lemma engine_keeps_playable_witness :
  let ev := newEvaluation fx_disc_group fx_profile fx_env in
  ev_part_members ev = [("", [1; 0])]%nat /\ bget (rankKeep ev) 0 = false /\
  exists i, i ∈ [1; 0]%nat /\ bget (engineKeep ev) i = true /\ eligible ev i = true /\ playable_at ev i = true.
Proof.
  split; [vm_compute; reflexivity |]. split; [vm_compute; reflexivity |].
  apply (engine_keeps_playable fx_disc_group fx_profile fx_env "" [1; 0]%nat).
  - reflexivity.
  - apply list_elem_of_lookup. exists 0%nat. vm_compute. reflexivity.
  - exists 0%nat. split; [apply mem_true; vm_compute; reflexivity |]. split; vm_compute; reflexivity.
Defined.

(** The last other-server pass keeps a disc after the playable copies were
    checked: with keepPer, an override removes the only playable version of a
    partition whose disc is kept. *)
Definition fx_per_resolution : Profile := {|
  pf_id := 9; pf_criteria := [fx_criterion CritFileSize]; pf_keep_count := 1; pf_keep_per := KeepPerResolution;
  pf_protections := [] |}.
Definition fx_disc_env : EvalEnv := {|
  env_now := 63900000000000000000; env_min_age := 0; env_libraries := ∅;
  env_different_arr_intentional := false; env_max_group_size := 4; env_allow_disc_removal := true;
  env_keep_playable_copy := true |}.
Definition fx_disc_other : OtherMedia :=
  {| om_version_key := "plex:2:6"; om_same := []; om_distinct := ["plex:1:15"] |}.
Definition fx_gap_group : DuplicateGroup :=
  fx_group_of [fx_file fx_b; fx_remove fx_a; fx_file (fx_disc [fx_listing [fx_disc_other]])].

(** The playable copy is checked before the last same-file and other-server
    passes: with keepers per resolution, an override can remove the only
    Plex-playable version of a partition whose disc those passes then keep. *)
Theorem playable_copy_gap :
  let g' := run_evaluation 0 fx_gap_group fx_per_resolution fx_disc_env in
  map gf_decision (dg_files g') = [DecisionKeep; DecisionRemove; DecisionKeep] /\
  map (KeepPartition KeepPerResolution) (map gf_version (dg_files g')) = ["1080"; "2160"; "2160"] /\
  map plexPlayable (map gf_version (dg_files g')) = [true; true; false].
Proof. split_and!; by vm_compute. Qed.

(** The criterion and the winner an explanation names are real: the named
    version beats the loser on that criterion, unless the version keys decided. *)
Theorem versus_sound `{Unicode} `{Doublestar} `{RegexSyntax} g p env b x :
  let ev := newEvaluation g p env in
  fst (versus ev b x) = length (ev_metrics ev) \/
  exists m, ev_metrics ev !! fst (versus ev b x) = Some m /\ beats m (snd (versus ev b x)) x = true.
Proof. cbn zeta. pose proof (versus_beats g p env b x) as Hv. cbn zeta in Hv. destruct (versus (newEvaluation g p env) b x). exact Hv. Qed.

(** One report-only reason anywhere protects every version, and the group
    is shown as protected, not acted on. *)
Theorem report_only_keeps_all `{Unicode} `{Doublestar} `{RegexSyntax} clock g p env g' :
  Evaluate clock g p env = inr g' -> reportOnlyReasons (map gf_version (dg_files g)) <> [] ->
  (forall f', f' ∈ dg_files g' -> gf_decision f' = DecisionKeep /\ gf_protected f' = true) /\
  (dg_status g' = GroupProtected \/ dg_status g' = GroupIgnored).
Proof.
  intros [Hc ->]%Evaluate_inr Hro. split.
  - intros f' (i & Hi)%list_elem_of_lookup.
    destruct (the_file clock g p env i f' Hi) as (f & _ & _ & Hd & _ & Hp & _ & _ & _ & Hvs).
    assert (Hr : initial_reasons (the_ev g p env) (gf_version f) <> []).
    { unfold initial_reasons, reportOnlyProtection. rewrite the_vs.
      destruct (reportOnlyReasons (map gf_version (dg_files g))); [done |]. by rewrite app_nil; intros [_ ?]. }
    rewrite Hd, Hp. pose proof (decide_protects (the_ev g p env) i _ Hvs Hr) as Hpr.
    rewrite the_kept, the_protected, Hpr. by rewrite (wf_kept _ _ (decide_wf (the_ev g p env)) i Hpr).
  - pose proof (the_status clock g p env) as Hs.
    assert (Hf : exists r, the_fresh clock g p env = (GroupProtected, r, false)).
    { unfold the_fresh, status. rewrite the_vs. destruct (reportOnlyReasons (map gf_version (dg_files g))); [done |].
      by eexists. }
    destruct Hf as [r Hf]. rewrite Hf in Hs. unfold next_status in Hs.
    destruct (String.eqb_spec (dg_status g) GroupIgnored) as [Ei|_]; [right; injection Hs as -> _; done | left].
    rewrite andb_false_r in Hs. by injection Hs as -> _.
Qed.

Definition fx_report_only : MediaVersion :=
  fx_full "jellyfin:1:16" 0 "720p" [fx_part "/m/Dune (2021)/Dune (2021) 720p.mkv" 4000000000] None None []
    ["the folder also holds another title"].
Definition fx_report_group : DuplicateGroup := fx_group_of [fx_file fx_report_only; fx_remove fx_b; fx_file fx_a].
Definition fx_report_result : DuplicateGroup := run_evaluation 0 fx_report_group fx_profile fx_env.

Lemma report_only_keeps_all_witness :
  (forall f', f' ∈ dg_files fx_report_result -> gf_decision f' = DecisionKeep /\ gf_protected f' = true) /\
  (dg_status fx_report_result = GroupProtected \/ dg_status fx_report_result = GroupIgnored).
Proof.
  apply (report_only_keeps_all 0 fx_report_group fx_profile fx_env fx_report_result).
  - vm_compute. reflexivity.
  - vm_compute. discriminate.
Defined.

(** A protection the executor finds ([ProtectionReason]) is one [Evaluate]
    honours: the version is protected and kept. *)
Theorem ProtectionReason_honoured `{Unicode} `{Doublestar} `{RegexSyntax} clock g p env g' i f f' :
  Evaluate clock g p env = inr g' -> dg_files g !! i = Some f -> dg_files g' !! i = Some f' ->
  ProtectionReason p (gf_version f) (env_libraries env) <> None ->
  gf_decision f' = DecisionKeep /\ gf_protected f' = true.
Proof.
  intros [_ ->]%Evaluate_inr Hf Hf' Hp.
  destruct (the_file clock g p env i f' Hf') as (f0 & Hf0 & _ & Hd & _ & Hpr & _ & _ & _ & Hvs).
  rewrite Hf in Hf0. injection Hf0 as <-.
  assert (Hr : initial_reasons (the_ev g p env) (gf_version f) <> []).
  { intros Hn. apply initial_reasons_nil in Hn. pose proof (rm_profile _ _ Hn) as Hm.
    destruct (newEvaluation_fields g p env) as (_ & He & Hpf & _). unfold the_ev in Hm. rewrite He, Hpf in Hm.
    apply Hp. unfold ProtectionReason.
    destruct (omap _ (pf_protections p)) as [|r l] eqn:E; [done |]. exfalso.
    assert (Hin : r ∈ omap (fun pr => matchProtection pr (gf_version f) (env_libraries env)) (pf_protections p))
      by (rewrite E; set_solver).
    apply list_elem_of_omap in Hin as (pr & Hpr' & Hmm). by rewrite Hm in Hmm. }
  pose proof (decide_protects (the_ev g p env) i _ Hvs Hr) as Hprot.
  rewrite Hd, Hpr, the_kept, the_protected, Hprot. by rewrite (wf_kept _ _ (decide_wf (the_ev g p env)) i Hprot).
Qed.

Lemma ProtectionReason_honoured_witness :
  gf_decision (file_at fx_overridden_result 0) = DecisionKeep /\
  gf_protected (file_at fx_overridden_result 0) = true.
Proof.
  apply (ProtectionReason_honoured 0 fx_overridden fx_protecting fx_env fx_overridden_result 0%nat (fx_remove fx_b)).
  - reflexivity.
  - reflexivity.
  - vm_compute. reflexivity.
  - vm_compute. discriminate.
Defined.

(** The flag for an unreachable keeper is recomputed from scratch: it is set
    exactly when a kept, available version is not accessible, whatever flags the
    group had before. *)
Theorem missing_keeper_flag `{Unicode} `{Doublestar} `{RegexSyntax} clock g p env g' :
  Evaluate clock g p env = inr g' ->
  FlagMissingKeeperFile ∈ dg_flags g' <->
  exists f', f' ∈ dg_files g' /\ kept_file f' /\ eligible_version (gf_version f') = true /\
    isInaccessible (gf_version f') = true.
Proof.
  intros [_ ->]%Evaluate_inr. rewrite the_flags.
  set (ev := the_ev g p env). set (st := the_state clock g p env). split.
  - intros [_ [Hl|Hl]]%finish_flags_inv.
    + destruct Hl as [[_ Ho]|[Hv|[[_ Hi]|[(i & Hlt & v & Hv & Hd)|[[_ Hm]|[_ Hm]]]]]]; try done.
      { apply versionFlags_names in Hv. apply mem_true in Hv. vm_compute in Hv. done. }
      destruct Hd as [(_ & ? & _)|(Hk & He & [[? _]|[_ Hi]])]; try done.
      assert (Hj : (i < length (dg_files g))%nat) by (unfold ev in Hlt; by rewrite the_n in Hlt).
      pose proof (the_fields clock g p env) as (_ & _ & Hlen).
      destruct (dg_files (the_group clock g p env) !! i) as [f'|] eqn:Ef; [| apply lookup_ge_None in Ef; lia].
      exists f'. split; [by eapply list_elem_of_lookup_2 |].
      apply the_file in Ef as (f & _ & Hver & Hd & _ & _ & _ & _ & _ & Hvs).
      fold ev in Hvs. rewrite Hv in Hvs. injection Hvs as ->.
      unfold kept_file. rewrite Hd. fold st. rewrite Hk. split_and!; [done | |].
      * rewrite Hver. change (eligible_version (mark_listings ?a ?b ?v)) with (eligible_version v).
        by rewrite <- (eligible_spec ev (the_ok g p env) i).
      * rewrite Hver. done.
    + apply mem_true in Hl. vm_compute in Hl. done.
  - intros (f' & (i & Hi)%list_elem_of_lookup & Hk & He & Hacc).
    apply the_file in Hi as (f & _ & Hver & Hd & _ & _ & _ & _ & _ & Hvs).
    apply finish_flags_local; [done |]. unfold local_flag. do 3 right. left. exists i.
    fold ev in Hvs. split; [by apply lookup_lt_Some in Hvs |]. exists (gf_version f). split; [done |]. right.
    rewrite Hver in He, Hacc. fold st in Hd. unfold kept_file in Hk. rewrite Hk in Hd.
    split_and!.
    + by destruct (kept st i).
    + rewrite (eligible_spec ev (the_ok g p env) i _ Hvs). done.
    + by right.
Qed.

Lemma missing_keeper_flag_witness :
  FlagMissingKeeperFile ∈ dg_flags fx_unreachable_result <->
  exists f', f' ∈ dg_files fx_unreachable_result /\ kept_file f' /\ eligible_version (gf_version f') = true /\
    isInaccessible (gf_version f') = true.
Proof.
  apply (missing_keeper_flag 0 fx_unreachable_group fx_size_profile fx_env fx_unreachable_result).
  vm_compute. reflexivity.
Defined.

(** A removal that has not reached the minimum age, or whose age is unknown
    or in the future, makes the group wait: it is flagged and neither pending nor
    still queued. *)
Theorem young_removal_waits `{Unicode} `{Doublestar} `{RegexSyntax} clock g p env g' f' :
  Evaluate clock g p env = inr g' -> 0 < env_min_age env ->
  f' ∈ dg_files g' -> removed_file f' ->
  is_zero (newestAdded (gf_version f')) = true \/
    time_sub (if is_zero (env_now env) then clock else env_now env) (newestAdded (gf_version f')) < env_min_age env ->
  FlagMinAge ∈ dg_flags g' /\ dg_status g' <> GroupPending /\ dg_status g' <> GroupQueued.
Proof.
  intros [_ ->]%Evaluate_inr Hmin (i & Hi)%list_elem_of_lookup Hr Hy.
  apply the_file in Hi as (f & _ & Hver & Hd & _ & _ & _ & _ & _ & Hvs). unfold removed_file in Hr. rewrite Hr in Hd.
  destruct (newEvaluation_fields g p env) as (_ & He & _).
  assert (Hk : kept (the_state clock g p env) i = false) by (by destruct (kept (the_state clock g p env) i)).
  rewrite Hver in Hy. change (newestAdded (mark_listings ?a ?b ?v)) with (newestAdded v) in Hy.
  assert (Hyoung : has_young (the_young clock g p env) = true).
  { unfold the_young. apply (annotate_young (the_ev g p env) (the_now clock env) _ i (gf_version f)).
    - unfold the_ev. by rewrite He.
    - done.
    - by rewrite the_kept in Hk.
    - unfold too_young, the_now, the_ev. rewrite He. exact Hy. }
  assert (Hf : FlagMinAge ∈ dg_flags (the_group clock g p env)).
  { rewrite the_flags. apply finish_flags_local; [done |]. unfold local_flag. tauto. }
  split; [done |]. split; intros Hs; (assert (Hx : FlagMinAge ∉ dg_flags (the_group clock g p env));
    [apply fresh_allows, (status_cases clock g p env); tauto | done]).
Qed.

Definition fx_young_env : EvalEnv := {|
  env_now := 63808000000000000001; env_min_age := 3600000000000; env_libraries := ∅;
  env_different_arr_intentional := false; env_max_group_size := 4; env_allow_disc_removal := false;
  env_keep_playable_copy := true |}.
Definition fx_young_result : DuplicateGroup := run_evaluation 0 fx_group fx_profile fx_young_env.

Lemma young_removal_waits_witness :
  FlagMinAge ∈ dg_flags fx_young_result /\ dg_status fx_young_result <> GroupPending /\
  dg_status fx_young_result <> GroupQueued.
Proof.
  apply (young_removal_waits 0 fx_group fx_profile fx_young_env fx_young_result (file_at fx_young_result 0)).
  - vm_compute. reflexivity.
  - reflexivity.
  - apply list_elem_of_lookup. exists 0%nat. vm_compute. reflexivity.
  - vm_compute. reflexivity.
  - right. vm_compute. reflexivity.
Defined.

(** The ranks written to the files are 1 to n, each once: ranking loses no
    version and ranks none twice. *)
Theorem ranks_permutation `{Unicode} `{Doublestar} `{RegexSyntax} clock g p env g' :
  Evaluate clock g p env = inr g' -> map gf_rank (dg_files g') ≡ₚ seq 1 (length (dg_files g')).
Proof.
  intros [_ ->]%Evaluate_inr. destruct (the_fields clock g p env) as (_ & _ & Hl). rewrite Hl.
  assert (E : map gf_rank (dg_files (the_group clock g p env)) =
              map S (map (pos_in (ev_order (the_ev g p env))) (seq 0 (length (dg_files g))))).
  { apply list_eq. intros i. rewrite !list_lookup_fmap.
    destruct (dg_files (the_group clock g p env) !! i) as [f'|] eqn:Ef.
    - pose proof (lookup_lt_Some _ _ _ Ef) as Hlt. rewrite Hl in Hlt. rewrite lookup_seq_lt by done.
      apply the_file in Ef as (f & _ & _ & _ & _ & _ & _ & Hr & _). simpl. by rewrite Hr.
    - apply lookup_ge_None in Ef. rewrite Hl in Ef. by rewrite lookup_seq_ge. }
  rewrite E, <- seq_shift. apply Permutation_map.
  apply positions_Permutation. rewrite <- (the_n g p env). apply (eo_order _ (the_ok g p env)).
Qed.

Lemma ranks_permutation_witness : [2; 1]%nat ≡ₚ seq 1 2.
Proof. apply (ranks_permutation 0 fx_group fx_profile fx_env fx_result). vm_compute. reflexivity. Defined.

(** The bytes reported as reclaimable are never negative and at most what the
    removed versions hold, as long as that sum fits an int64. *)
Theorem reclaimable_bounds `{Unicode} vs keep :
  all_bytes (removed_versions vs keep) <= max_int64 ->
  0 <= reclaimable vs keep <= all_bytes (removed_versions vs keep).
Proof. intros Hb. unfold reclaimable. apply (reclaim_versions_bound _ (∅, 0)); simpl; lia. Qed.

Lemma reclaimable_bounds_witness :
  0 <= reclaimable [fx_a; fx_b; fx_hardlinked] [false; true; false] <=
    all_bytes (removed_versions [fx_a; fx_b; fx_hardlinked] [false; true; false]).
Proof. apply (reclaimable_bounds [fx_a; fx_b; fx_hardlinked] [false; true; false]). vm_compute. discriminate. Defined.

(** The signature a person reviewed does not depend on the order of the
    files. *)
Theorem signature_order_independent fs fs' : fs ≡ₚ fs' -> signature fs = signature fs'.
Proof. intros Hp. apply signature_Permutation_lines. by apply Permutation_map. Qed.

Lemma signature_order_independent_witness :
  signature [fx_file fx_a; fx_file fx_b] = signature [fx_file fx_b; fx_file fx_a].
Proof. apply (signature_order_independent [fx_file fx_a; fx_file fx_b]). apply perm_swap. Defined.

(** The text hashed for a disc determines everything a whole-disc removal
    moves: a disc whose roots, entries, size or fingerprint changed after a review
    is hashed from another text. *)
Theorem disc_fields_injective d d' :
  disc_fields d = disc_fields d' ->
  di_root d = di_root d' /\ path_clean (di_local_root d) = path_clean (di_local_root d') /\
  sortedClean (di_roots d) = sortedClean (di_roots d') /\
  sortedClean (di_local_roots d) = sortedClean (di_local_roots d') /\
  sortedClean (di_owned_entries d) = sortedClean (di_owned_entries d') /\
  di_file_count d = di_file_count d' /\ di_total_bytes d = di_total_bytes d' /\
  di_fingerprint d = di_fingerprint d'.
Proof. apply disc_fields_values. Qed.

Definition fx_set_ab : DiscInfo := fx_disc_at ["/m/a/"; "/m/b"].
Definition fx_set_ba : DiscInfo := fx_disc_at ["/m/b"; "/m/./a"].
Lemma disc_fields_injective_witness :
  di_root fx_set_ab = di_root fx_set_ba /\
  path_clean (di_local_root fx_set_ab) = path_clean (di_local_root fx_set_ba) /\
  sortedClean (di_roots fx_set_ab) = sortedClean (di_roots fx_set_ba) /\
  sortedClean (di_local_roots fx_set_ab) = sortedClean (di_local_roots fx_set_ba) /\
  sortedClean (di_owned_entries fx_set_ab) = sortedClean (di_owned_entries fx_set_ba) /\
  di_file_count fx_set_ab = di_file_count fx_set_ba /\ di_total_bytes fx_set_ab = di_total_bytes fx_set_ba /\
  di_fingerprint fx_set_ab = di_fingerprint fx_set_ba.
Proof. apply (disc_fields_injective fx_set_ab fx_set_ba). vm_compute. reflexivity. Defined.
