(* ===== verification/GroupTheorems.v ===== *)
(** * Theorems about building groups

    What [BuildGroups] promises the evaluation: unique keys, groups of two or
    more candidates, homogeneous variants, merges only within one scope; and the
    guards the executor repeats on stored groups. *)

From S2P Require Import Prelude GoStd GoFloat Models UnionFind DiscPaths Paths Titles Versions Criteria Ranking Flags CrossServer Decide Explain Evaluate Fixtures Group GroupFacts ExecGuards.
Local Open Scope string_scope.
Local Open Scope Z_scope.

(** ** Concrete items *)

Definition fx_item (rk : string) (lib : Z) (versions : list MediaVersion) : MediaItem := {|
  it_server_id := 1; it_library_id := lib; it_library_title := "Movies"; it_section_key := "1";
  it_rating_key := rk; it_media_type := MediaTypeMovie; it_title := "Dune"; it_year := 2021; it_show_title := "";
  it_season := 0; it_episode := 0; it_external_ids := {[ "tmdb" := "438631" ]}; it_show_ids := ∅;
  it_edition_title := ""; it_versions := versions; it_server_kind := MediaServerPlex; it_key_id := "" |}.

Definition fx_options : GroupOptions := {|
  op_editions := true; op_3d := true; op_languages := true; op_different_arr_intentional := false;
  op_duration_percent := f0; op_duration_minutes := 0; op_max_group_size := 0; op_exclusions := [];
  op_libraries := {[ 1 := {| lib_title := "Movies"; lib_scope_group := "films" |};
                     2 := {| lib_title := "Movies 4K"; lib_scope_group := "Films" |} ]} |}.

Definition fx_items : list MediaItem := [fx_item "100" 1 [fx_b]; fx_item "200" 2 [fx_a]].
Definition fx_built : list DuplicateGroup := BuildGroups fx_items fx_options.

(** The two libraries share a scope and the tmdb id: one group of both. *)
Example fx_built_keys :
  map (fun g => (dg_key g, map (fun f => mv_key (gf_version f)) (dg_files g))) fx_built =
    [("movie:tmdb:438631", ["plex:1:11"; "plex:1:12"])].
Proof. by vm_compute. Qed.

Section statements.
Context `{Unicode} `{RegexSyntax}.

Definition exclusions_of (opts : GroupOptions) : exclusionSet := compileExclusions (op_exclusions opts).
Definition units_of (items : list MediaItem) (opts : GroupOptions) : list unit_ :=
  buildUnits (collectItems items (normalized opts) (exclusions_of (normalized opts))).
End statements.

(** Group keys are unique and the groups are sorted by them: the "~2" loop
    always finds a free key. *)
Theorem BuildGroups_unique_keys `{Unicode} `{RegexSyntax} items opts :
  NoDup (map dg_key (BuildGroups items opts)) /\
  StronglySorted (fun a b => str_lt (dg_key b) (dg_key a) = false) (BuildGroups items opts).
Proof. apply BuildGroups_keys. Qed.

(** Every built group has at least two versions with distinct, non-empty keys,
    none of them optimized, missing or excluded by library or path. *)
Theorem BuildGroups_candidates `{Unicode} `{RegexSyntax} items opts g :
  g ∈ BuildGroups items opts ->
  (2 <= length (dg_files g))%nat /\ NoDup (map (fun f => mv_key (gf_version f)) (dg_files g)) /\
  forall f, f ∈ dg_files g -> mv_key (gf_version f) <> "" /\ isOptimized (gf_version f) = false /\
    isUnavailable (gf_version f) = false /\
    versionExcluded (compileExclusions (op_exclusions opts)) (gf_version f) = false.
Proof.
  intros (u & vg & Hu & Hvg & Hl & Hv & _)%BuildGroups_group.
  destruct (variant_versions _ _ _ _ _ Hu Hvg) as [Hc Hnd].
  assert (Hlen : length (dg_files g) = length (vg_cands vg)).
  { apply (f_equal length) in Hv. by rewrite !length_map in Hv. }
  split_and!.
  - by rewrite Hlen.
  - rewrite <- (map_map gf_version mv_key), Hv, map_map. exact Hnd.
  - intros f Hf. assert (Hin : gf_version f ∈ map cd_v (vg_cands vg)).
    { rewrite <- Hv. by apply list_elem_of_fmap_2. }
    apply list_elem_of_fmap in Hin as (c & E & Hin). rewrite E.
    destruct (Hc c Hin) as [[H1' H2' H3' H4' _ _] _]. done.
Qed.

Definition fx_built_group : DuplicateGroup := default fx_group (fx_built !! 0%nat).
Lemma BuildGroups_candidates_witness :
  (2 <= length (dg_files fx_built_group))%nat /\
  NoDup (map (fun f => mv_key (gf_version f)) (dg_files fx_built_group)) /\
  forall f, f ∈ dg_files fx_built_group -> mv_key (gf_version f) <> "" /\ isOptimized (gf_version f) = false /\
    isUnavailable (gf_version f) = false /\
    versionExcluded (compileExclusions (op_exclusions fx_options)) (gf_version f) = false.
Proof.
  apply (BuildGroups_candidates fx_items fx_options fx_built_group).
  apply list_elem_of_lookup. exists 0%nat. vm_compute. reflexivity.
Defined.

(** Splitting into variants neither loses nor repeats a candidate. *)
Theorem splitVariants_partition cands opts :
  flat_map vg_cands (splitVariants cands opts) ≡ₚ cands.
Proof. apply splitVariants_cands. Qed.

(** With the options on, the versions of one variant group have the same
    edition, agree on being 3D, and share an audio language when both languages
    are known: no version can be removed in favour of one without its language. *)
Theorem splitVariants_homogeneous cands opts g a b :
  langs_ok cands -> g ∈ splitVariants cands opts -> a ∈ vg_cands g -> b ∈ vg_cands g ->
  (op_editions opts = true -> cd_edition a = cd_edition b) /\
  (op_3d opts = true -> cd_3d a = cd_3d b) /\
  (op_languages opts = true -> cd_langs a <> [] -> cd_langs b <> [] ->
     exists l, l ∈ cd_langs a /\ l ∈ cd_langs b).
Proof.
  intros Hok Hg Ha Hb. destruct (splitVariants_members cands opts g Hok Hg a b Ha Hb) as (He & H3 & Hl).
  split_and!; [done | done |]. intros Ho Hna Hnb. by apply stringsIntersect_spec, Hl.
Qed.

Definition fx_cand (key : string) (langs : list string) : candidate :=
  {| cd_v := fx_version key 1 "1080p" "/m/a.mkv" 1; cd_edition := ""; cd_3d := false; cd_langs := langs |}.
(** English and German, bridged by a release with both. *)
Definition fx_langs : list candidate :=
  [fx_cand "plex:1:1" ["eng"]; fx_cand "plex:1:2" ["ger"]; fx_cand "plex:1:3" ["eng"; "ger"]; fx_cand "plex:1:4" ["eng"]].
Definition fx_eng : variantGroup :=
  {| vg_suffix := "#lang-eng"; vg_cands := [fx_cand "plex:1:1" ["eng"]; fx_cand "plex:1:4" ["eng"]];
     vg_flags := [FlagLanguageVariant] |}.

Lemma splitVariants_homogeneous_witness :
  (op_editions fx_options = true -> "" = "") /\ (op_3d fx_options = true -> false = false) /\
  (op_languages fx_options = true -> ["eng"] <> [] -> ["eng"] <> [] ->
     exists l, l ∈ ["eng"] /\ l ∈ ["eng"]).
Proof.
  apply (splitVariants_homogeneous fx_langs fx_options fx_eng (fx_cand "plex:1:1" ["eng"]) (fx_cand "plex:1:4" ["eng"])).
  - intros c l Hc Hl. assert (Hin : l ∈ flat_map cd_langs fx_langs).
    { apply elem_of_flat_map. exists c. split; [exact Hc | exact Hl]. }
    assert (E : flat_map cd_langs fx_langs = ["eng"; "ger"; "eng"; "ger"; "eng"]) by (vm_compute; reflexivity).
    rewrite E in Hin. clear E Hl Hc.
    repeat (apply elem_of_cons in Hin as [->|Hin]; [split; [discriminate | reflexivity] |]).
    apply elem_of_nil in Hin. destruct Hin.
  - apply list_elem_of_lookup. exists 0%nat. vm_compute. reflexivity.
  - apply list_elem_of_lookup. exists 0%nat. reflexivity.
  - apply list_elem_of_lookup. exists 1%nat. reflexivity.
Defined.

(** Items are merged into one unit only within one server, scope and media
    type, from at least two libraries, and on a read-only server only when every
    library contributes one item. *)
Theorem buildUnits_merges `{Unicode} items u :
  u ∈ buildUnits items -> (2 <= length (un_entries u))%nat ->
  (forall a b, a ∈ un_entries u -> b ∈ un_entries u -> scoped a = true /\ bucket_key a = bucket_key b) /\
  (2 <= distinctLibraries (un_entries u))%nat /\
  (readOnlyCluster (un_entries u) = true -> distinctLibraries (un_entries u) = length (un_entries u)).
Proof.
  intros [_ [Hl|[Hsame Hm]]]%buildUnits_spec H2; [lia |]. split; [done |].
  unfold merged_cluster in Hm. apply andb_true_iff in Hm as [Hd Hr]. apply Nat.leb_le in Hd.
  split; [done |]. intros E. rewrite E in Hr. simpl in Hr. by apply Nat.eqb_eq.
Qed.

Definition fx_entries : list itemEntry :=
  collectItems fx_items (normalized fx_options) (compileExclusions []).
Definition fx_unit : unit_ := default
  {| un_entries := []; un_cands := []; un_meta := fx_item "" 0 []; un_unavailable := false; un_key := "";
     un_id_conflicts := [] |} (buildUnits fx_entries !! 0%nat).

Lemma buildUnits_merges_witness :
  (forall a b, a ∈ un_entries fx_unit -> b ∈ un_entries fx_unit -> scoped a = true /\ bucket_key a = bucket_key b) /\
  (2 <= distinctLibraries (un_entries fx_unit))%nat /\
  (readOnlyCluster (un_entries fx_unit) = true -> distinctLibraries (un_entries fx_unit) = length (un_entries fx_unit)).
Proof.
  apply (buildUnits_merges fx_entries fx_unit).
  - apply list_elem_of_lookup. exists 0%nat. vm_compute. reflexivity.
  - vm_compute. repeat constructor.
Defined.

(** An exclusion created after a group was stored stops it: when the
    exclusions cover the group's key, one of its libraries, or the library or a
    path of one of its versions, [ExclusionReason] reports a reason. *)
Theorem ExclusionReason_covers `{Unicode} `{RegexSyntax} ex g :
  let s := compileExclusions ex in
  trim_space (dg_key g) ∈ map trim_space (xs_group_keys s) \/
  (exists id, id ∈ default [] (dg_library_ids g) /\ id ∈ xs_libraries s) \/
  (exists f, f ∈ dg_files g /\ versionExcluded s (gf_version f) = true) ->
  ExclusionReason ex g <> None.
Proof.
  cbn zeta. set (s := compileExclusions ex). unfold ExclusionReason. fold s.
  destruct (find (key_covers (dg_key g)) (xs_group_keys s)) eqn:E1; [done |].
  destruct (find (fun id => mem id (xs_libraries s)) (default [] (dg_library_ids g))) eqn:E2; [done |].
  destruct (title_exclusion s _); [done |].
  assert (Hforms : forall k, trim_space k ∈ keyForms k).
  { intros k. unfold keyForms. destruct (DisambiguationIndex (trim_space k)) as [[i n]|]; [| set_solver].
    destruct (index_byte_where _ _); set_solver. }
  intros [(k & E & Hk)%list_elem_of_fmap|[(id & Hid & Hin)|(f & Hf & Hx)]].
  - exfalso. apply (find_none _ _) with (x := k) in E1; [| by apply list_elem_of_In].
    apply not_true_iff_false in E1. apply E1. unfold key_covers. apply existsb_elem.
    exists (trim_space k). split; [apply Hforms |]. apply existsb_elem. exists (trim_space (dg_key g)).
    split; [apply Hforms |]. rewrite E. apply String.eqb_refl.
  - exfalso. apply (find_none _ _) with (x := id) in E2; [| by apply list_elem_of_In].
    apply mem_false in E2. done.
  - assert (Hin : exists r, r ∈ omap (fun f => version_exclusion s (gf_version f)) (dg_files g)).
    { eexists. apply list_elem_of_omap. exists f. split; [done |]. unfold version_exclusion. by rewrite Hx. }
    destruct Hin as [r Hr]. destruct (omap _ (dg_files g)); [by apply elem_of_nil in Hr | done].
Qed.

Lemma ExclusionReason_covers_witness :
  ExclusionReason [{| ex_kind := ExcludePathPrefix; ex_value := "M/Dune (2021)" |}] fx_group <> None.
Proof.
  apply (ExclusionReason_covers [{| ex_kind := ExcludePathPrefix; ex_value := "M/Dune (2021)" |}] fx_group).
  right. right. exists (fx_file fx_b). split; [apply list_elem_of_lookup; exists 0%nat; reflexivity |].
  vm_compute. reflexivity.
Defined.
