(* ===== verification/RankTheorems.v ===== *)
(** * Theorems about ranking, same files and discs

    The elimination filter, the order it produces, the components of versions
    that share a file, the durations that may be compared, and the rule that
    keeps everything inside a disc structure. *)

From S2P Require Import Prelude GoStd GoFloat Models UnionFind DiscPaths Paths Titles Versions Criteria Ranking Flags CrossServer Decide DecideFacts Explain Evaluate EvaluateFacts Safety Fixtures.
Local Open Scope string_scope.
Local Open Scope Z_scope.

(** The filter of one criterion never removes everybody, adds nobody, and
    records for everyone it eliminates a member that beats it. *)
Theorem survivors_sound m s :
  (s <> [] -> fst (survivors m s) <> []) /\ fst (survivors m s) `sublist_of` s /\
  forall i, i ∈ s -> i ∉ fst (survivors m s) ->
    exists b, (i, b) ∈ snd (survivors m s) /\ b ∈ s /\ beats m b i = true.
Proof.
  split_and!; [apply survivors_nonempty | apply survivors_sublist |].
  intros i Hi Hn. destruct (eliminator m (best_of m s) i) as [b|] eqn:E.
  - exists b. split; [| by apply eliminator_sound in E as (? & _ & ?)].
    unfold survivors. cbn [snd]. apply list_elem_of_omap. exists i. by rewrite E.
  - exfalso. apply Hn. by apply elem_of_survivors.
Qed.

(** C8: When the scores are numbers and a better score never beats less, the
    one-pass filter keeps exactly the versions nobody beats. *)
Theorem survivors_are_unbeaten m s i :
  scores_ok m s -> beats_monotone m s ->
  i ∈ fst (survivors m s) <-> i ∈ s /\ forall j, j ∈ s -> beats m j i = false.
Proof. apply survivors_unbeaten. Qed.

(** File sizes with a 10 % tolerance: 100 and 95 tie, 50 loses. *)
Definition fx_sizes : metric :=
  with_tolerance (fint 10) f0 (metric_of CritFileSize "File size" (map (fun z => Some (fint z)) [100; 95; 50])).

(** The hypotheses as tests, to evaluate them on a concrete metric. *)
Definition monotone_test (m : metric) (s : list nat) : bool :=
  forallb (fun a => forallb (fun a' => forallb (fun i =>
    negb (bool_decide (bucket m a = bucket m a') && present m a' && negb (flt (score m a') (score m a)) && beats m a i) ||
    beats m a' i) s) s) s.
Lemma monotone_test_spec m s : monotone_test m s = true -> beats_monotone m s.
Proof.
  unfold monotone_test. intros Ht a a' i Ha Ha' Hi Hb Hp Hf Hbe.
  rewrite forallb_elem in Ht. specialize (Ht a Ha). rewrite forallb_elem in Ht. specialize (Ht a' Ha').
  rewrite forallb_elem in Ht. specialize (Ht i Hi).
  rewrite bool_decide_true, Hp, Hf, Hbe in Ht by done. exact Ht.
Qed.

Lemma survivors_are_unbeaten_witness :
  fst (survivors fx_sizes [0; 1; 2]%nat) = [0; 1]%nat /\
  (1%nat ∈ fst (survivors fx_sizes [0; 1; 2]%nat) <->
   1%nat ∈ [0; 1; 2]%nat /\ forall j, j ∈ [0; 1; 2]%nat -> beats fx_sizes j 1 = false).
Proof.
  split; [vm_compute; reflexivity |].
  apply (survivors_are_unbeaten fx_sizes [0; 1; 2]%nat 1%nat).
  - intros i Hi. repeat (apply elem_of_cons in Hi as [->|Hi]; [vm_compute; reflexivity |]).
    apply elem_of_nil in Hi. destruct Hi.
  - apply monotone_test_spec. vm_compute. reflexivity.
Defined.

(** The version ranked first survives the first criterion among all versions:
    no later criterion outweighs an earlier one. *)
Theorem first_criterion_decides `{Unicode} vs m ms :
  (1 < length vs)%nat ->
  exists w rest, fst (rank vs (m :: ms)) = w :: rest /\ w ∈ fst (survivors m (by_key vs)).
Proof.
  intros Hlen. unfold rank. destruct (length vs) as [|k] eqn:El; [lia |].
  assert (Hbk : length (by_key vs) = S k) by (by rewrite by_key_Permutation, length_seq).
  assert (Hne : by_key vs <> []) by (intros E; rewrite E in Hbk; done).
  cbn [rank_loop]. unfold rank_round.
  pose proof (round_metrics_spec 0 (m :: ms) (by_key vs) [] Hne) as [Hn _].
  destruct (round_metrics 0 (m :: ms) (by_key vs) []) as [[|w s] elim] eqn:Er; [done |].
  assert (Hw : w ∈ fst (survivors m (by_key vs))).
  { apply (round_first_metric 0 m ms (by_key vs) []); [lia |]. rewrite Er. set_solver. }
  destruct (rank_loop k _ _) as [order rounds]. exists w, order. done.
Qed.

Lemma first_criterion_decides_witness :
  exists w rest, fst (rank [fx_b; fx_a] [metric_of CritFileSize "File size" [Some (fint 9); Some (fint 50)]]) = w :: rest /\
    w ∈ fst (survivors (metric_of CritFileSize "File size" [Some (fint 9); Some (fint 50)]) (by_key [fx_b; fx_a])).
Proof. apply first_criterion_decides. vm_compute. reflexivity. Defined.

(** C9: Two versions are in one same-file component exactly when a chain of
    versions with a common path, local path, inode, *arr file or disc root links
    them. *)
Theorem sameFileComponents_chains `{Unicode} vs a b :
  (a < length vs)%nat -> (b < length vs)%nat ->
  sameFileComponents vs !! a = sameFileComponents vs !! b <-> rtsc (share_key (map sameFileKeys vs)) a b.
Proof. apply same_components_iff. Qed.

Lemma sameFileComponents_chains_witness :
  sameFileComponents [fx_a; fx_b] !! 0%nat = sameFileComponents [fx_a; fx_b] !! 1%nat <->
  rtsc (share_key (map sameFileKeys [fx_a; fx_b])) 0%nat 1%nat.
Proof. apply (sameFileComponents_chains [fx_a; fx_b] 0%nat 1%nat); vm_compute; repeat constructor. Defined.

(** The reference duration of a version is the longest among the versions that
    cover as many episodes, and 0 when its own count is unknown: an episode is
    never called a sample of a double episode. *)
Theorem durationPeers_longest `{Unicode} mt vs i v :
  vs !! i = Some v ->
  exists d, durationPeers mt vs !! i = Some d /\
    (episodeCount mt v <= 0 -> d = 0) /\
    (0 < episodeCount mt v ->
      (forall w, w ∈ vs -> episodeCount mt w = episodeCount mt v -> versionDuration w <= d) /\
      (d = 0 \/ exists w, w ∈ vs /\ episodeCount mt w = episodeCount mt v /\ versionDuration w = d)).
Proof.
  intros Hi. eexists. split; [unfold durationPeers; by rewrite list_lookup_fmap, Hi |].
  destruct (Z.ltb_spec 0 (episodeCount mt v)) as [Hc|Hc]; [| split; [done | lia]].
  split; [lia |]. intros _. split.
  - intros w Hw E. rewrite <- E. apply longest_durations_spec; [done | lia].
  - unfold longest_durations.
    assert (Hinv : forall c d, foldl (longest_step mt) ∅ vs !! c = Some d ->
      exists w, w ∈ vs /\ episodeCount mt w = c /\ versionDuration w = d).
    { apply (foldl_inv _ (fun l => forall c d, l !! c = Some d ->
        exists w, w ∈ vs /\ episodeCount mt w = c /\ versionDuration w = d)); [by intros c d; rewrite lookup_empty |].
      intros l w Hw IH c d. unfold longest_step. case_goal; [| by apply IH].
      rewrite lookup_insert. case_decide; [intros [= <-]; eauto | by apply IH]. }
    destruct (foldl _ ∅ vs !! episodeCount mt v) as [d|] eqn:E; [right; by apply Hinv | by left].
Qed.

Lemma durationPeers_longest_witness :
  exists d, durationPeers MediaTypeMovie [fx_a; fx_b] !! 0%nat = Some d /\
    (episodeCount MediaTypeMovie fx_a <= 0 -> d = 0) /\
    (0 < episodeCount MediaTypeMovie fx_a ->
      (forall w, w ∈ [fx_a; fx_b] -> episodeCount MediaTypeMovie w = episodeCount MediaTypeMovie fx_a ->
         versionDuration w <= d) /\
      (d = 0 \/ exists w, w ∈ [fx_a; fx_b] /\ episodeCount MediaTypeMovie w = episodeCount MediaTypeMovie fx_a /\
         versionDuration w = d)).
Proof. apply (durationPeers_longest MediaTypeMovie [fx_a; fx_b] 0%nat fx_a). reflexivity. Defined.

(** A regular version with a file below a disc structure folder (BDMV,
    VIDEO_TS, CERTIFICATE ..., whatever surrounds it) is protected and kept: a disc
    never loses a single file. *)
Theorem disc_files_kept `{Unicode} `{Doublestar} `{RegexSyntax} clock g p env g' i f f' path comp :
  Evaluate clock g p env = inr g' -> dg_files g !! i = Some f -> dg_files g' !! i = Some f' ->
  mv_disc (gf_version f) = None -> path ∈ versionPaths (gf_version f) ->
  comp ∈ split_byte "/"%char (to_slash path) -> comp <> "" -> is_Some (lookupFold structureDirs comp) ->
  gf_decision f' = DecisionKeep /\ gf_protected f' = true.
Proof.
  intros E Hf Hf' Hd Hp Hc Hne Hs. apply Evaluate_inr in E as [_ ->].
  destruct (the_file clock g p env i f' Hf') as (f0 & Hf0 & _ & Hdec & _ & Hpr & _ & _ & _ & Hvs).
  rewrite Hf in Hf0. injection Hf0 as <-.
  assert (Hr : initial_reasons (the_ev g p env) (gf_version f) <> []).
  { intros Hn. apply initial_reasons_nil in Hn. pose proof (rm_member _ _ Hn) as Hm.
    unfold discMemberPath in Hm. rewrite Hd in Hm.
    apply (find_none _ _) with (x := path) in Hm; [| by apply list_elem_of_In].
    rewrite (locate_structure path comp) in Hm; done. }
  pose proof (decide_protects (the_ev g p env) i _ Hvs Hr) as Hprot.
  rewrite Hdec, Hpr, the_kept, the_protected, Hprot. by rewrite (wf_kept _ _ (decide_wf (the_ev g p env)) i Hprot).
Qed.

Definition fx_clip : MediaVersion :=
  fx_version "plex:1:17" 17 "1080p" "/m/Dune (2021)/bdmv/STREAM/00800.m2ts" 900000000.
Definition fx_clip_group : DuplicateGroup := fx_group_of [fx_file fx_clip; fx_file fx_a].
Definition fx_clip_result : DuplicateGroup := run_evaluation 0 fx_clip_group fx_profile fx_env.
Definition fx_clip_file : GroupFile := default (fx_file fx_a) (dg_files fx_clip_result !! 0%nat).

Lemma disc_files_kept_witness : gf_decision fx_clip_file = DecisionKeep /\ gf_protected fx_clip_file = true.
Proof.
  apply (disc_files_kept 0 fx_clip_group fx_profile fx_env fx_clip_result 0%nat (fx_file fx_clip) fx_clip_file
    "/m/Dune (2021)/bdmv/STREAM/00800.m2ts" "bdmv").
  - vm_compute. reflexivity.
  - reflexivity.
  - vm_compute. reflexivity.
  - reflexivity.
  - apply mem_true. vm_compute. reflexivity.
  - apply mem_true. vm_compute. reflexivity.
  - discriminate.
  - eexists. vm_compute. reflexivity.
Defined.
