(* ===== verification/Commands.v ===== *)
(** * The command queue

    internal/commands: the queue of background commands (scans, removal runs,
    backups) and the scheduler of periodic tasks. The Go manager is shared by
    many goroutines and guards its fields with mutexes, so the model is a state
    [manager] and one function per critical section; [mstep] interleaves them
    in any order. A command's goroutine is at the [phase] its entry records.

    Handlers, the clock and the outcome of every database write appear as
    arguments of the steps. Progress timers may fire at any time. Messages are
    kept before [logging.Redact] and [truncate] shorten them; [canonicalBody]
    (encoding/json) is the string an [Enqueue] call passes. The snapshot and the
    write of one [save] are one step, since [persistMu] keeps them together. Rows
    are not deleted: housekeeping (DeleteOlderThan) removes finished ones only.
    Published events are left out. *)

From S2P Require Import Prelude GoStd Models.
Local Open Scope string_scope.
Local Open Scope Z_scope.

(** ** Data (internal/models/entities.go) *)

Definition CommandQueued := "queued".
Definition CommandStarted := "started".
Definition CommandCompleted := "completed".
Definition CommandFailed := "failed".
Definition CommandAborted := "aborted".
Definition TriggerManual := "manual".
Definition TriggerScheduled := "scheduled".

Record Command := {
  cm_id : Z;
  cm_name : string;
  cm_body : string;
  cm_status : string;
  cm_trigger : string;
  cm_message : string;
  cm_queued_at : time;
  cm_started_at : option time;
  cm_ended_at : option time;
  cm_duration : string;
}.

Record handlerEntry := { he_name : string; he_exclusive : bool }.

(** Where the goroutine of an entry stands: not started, [run] before and after
    the start is recorded, in its handler, and after [complete] before and after
    the outcome is recorded. *)
Inductive phase := PWaiting | PStarting | PReady | PHandler | PFinished | PSaved.
#[export] Instance phase_eq_dec : EqDecision phase.
Proof. solve_decision. Defined.

Record entry := {
  ce_h : handlerEntry;
  ce_canon : string;
  ce_cmd : Command;
  ce_finished : bool;
  ce_dirty : bool;
  ce_phase : phase;
}.
Definition ce_id (e : entry) : Z := cm_id (ce_cmd e).
Definition ce_exclusive (e : entry) : bool := he_exclusive (ce_h e).
(** What makes two commands identical. *)
Definition ce_key (e : entry) : string * string := (he_name (ce_h e), ce_canon e).

(** The [Enqueue] call that holds [enqMu]. *)
Inductive enqueue_call :=
  | EqIdle
  | EqChecked (h : handlerEntry) (canon trigger : string)
  | EqCreated (e : entry).

(** Where [Start] stands. *)
Inductive start_pc := SIdle | SRecover | SDispatch | SLoop | SDone.

Record manager := {
  mg_handlers : gmap string handlerEntry;
  mg_queue : list entry;
  mg_running : gmap Z entry;
  mg_exclusive_busy : bool;
  mg_shared_busy : nat;
  mg_workers : nat;
  mg_ctx_done : bool;
  mg_started : bool;
  mg_stopping : bool;
  mg_closed : bool;
  mg_boot_until : time;
  mg_recovered : bool;
  mg_enqueue : enqueue_call;
  mg_start : start_pc;
  mg_aborting : list entry;         (* entries abortQueued has still to record *)
  mg_db : gmap Z Command;           (* the commands table *)
}.

Definition Workers : nat := 3.
Definition StartupGrace : Z := 5 * 60 * 10 ^ 9.

(** [New] over the commands a previous process left. *)
Definition new_manager (db : gmap Z Command) : manager := {|
  mg_handlers := ∅; mg_queue := []; mg_running := ∅; mg_exclusive_busy := false; mg_shared_busy := 0;
  mg_workers := Workers; mg_ctx_done := false; mg_started := false; mg_stopping := false; mg_closed := false;
  mg_boot_until := 0; mg_recovered := false; mg_enqueue := EqIdle; mg_start := SIdle; mg_aborting := [];
  mg_db := db |}.

(** ** Field updates *)

Definition set_lanes (queue : list entry) (running : gmap Z entry) (exb : bool) (shb : nat) (m : manager) : manager := {|
  mg_handlers := mg_handlers m; mg_queue := queue; mg_running := running; mg_exclusive_busy := exb;
  mg_shared_busy := shb; mg_workers := mg_workers m; mg_ctx_done := mg_ctx_done m; mg_started := mg_started m;
  mg_stopping := mg_stopping m; mg_closed := mg_closed m; mg_boot_until := mg_boot_until m;
  mg_recovered := mg_recovered m; mg_enqueue := mg_enqueue m; mg_start := mg_start m;
  mg_aborting := mg_aborting m; mg_db := mg_db m |}.
Definition set_running (running : gmap Z entry) (m : manager) : manager :=
  set_lanes (mg_queue m) running (mg_exclusive_busy m) (mg_shared_busy m) m.
Definition set_enqueue (c : enqueue_call) (m : manager) : manager := {|
  mg_handlers := mg_handlers m; mg_queue := mg_queue m; mg_running := mg_running m;
  mg_exclusive_busy := mg_exclusive_busy m; mg_shared_busy := mg_shared_busy m; mg_workers := mg_workers m;
  mg_ctx_done := mg_ctx_done m; mg_started := mg_started m; mg_stopping := mg_stopping m;
  mg_closed := mg_closed m; mg_boot_until := mg_boot_until m; mg_recovered := mg_recovered m;
  mg_enqueue := c; mg_start := mg_start m; mg_aborting := mg_aborting m; mg_db := mg_db m |}.
Definition set_db (db : gmap Z Command) (m : manager) : manager := {|
  mg_handlers := mg_handlers m; mg_queue := mg_queue m; mg_running := mg_running m;
  mg_exclusive_busy := mg_exclusive_busy m; mg_shared_busy := mg_shared_busy m; mg_workers := mg_workers m;
  mg_ctx_done := mg_ctx_done m; mg_started := mg_started m; mg_stopping := mg_stopping m;
  mg_closed := mg_closed m; mg_boot_until := mg_boot_until m; mg_recovered := mg_recovered m;
  mg_enqueue := mg_enqueue m; mg_start := mg_start m; mg_aborting := mg_aborting m; mg_db := db |}.
(** The lists of entries not started and to abort, with the flags that stop. *)
Definition set_stop (queue aborting : list entry) (stopping closed : bool) (pc : start_pc) (m : manager) : manager := {|
  mg_handlers := mg_handlers m; mg_queue := queue; mg_running := mg_running m;
  mg_exclusive_busy := mg_exclusive_busy m; mg_shared_busy := mg_shared_busy m; mg_workers := mg_workers m;
  mg_ctx_done := mg_ctx_done m; mg_started := mg_started m; mg_stopping := stopping;
  mg_closed := closed; mg_boot_until := mg_boot_until m; mg_recovered := mg_recovered m;
  mg_enqueue := mg_enqueue m; mg_start := pc; mg_aborting := aborting; mg_db := mg_db m |}.
Definition set_start (pc : start_pc) (m : manager) : manager :=
  set_stop (mg_queue m) (mg_aborting m) (mg_stopping m) (mg_closed m) pc m.

(** ** Entries *)

Definition set_phase (p : phase) (e : entry) : entry := {|
  ce_h := ce_h e; ce_canon := ce_canon e; ce_cmd := ce_cmd e; ce_finished := ce_finished e;
  ce_dirty := ce_dirty e; ce_phase := p |}.

(** The status, message and times of a command. *)
Definition set_outcome (status message : string) (started ended : option time) (duration : string) (c : Command) :
    Command := {|
  cm_id := cm_id c; cm_name := cm_name c; cm_body := cm_body c; cm_status := status; cm_trigger := cm_trigger c;
  cm_message := message; cm_queued_at := cm_queued_at c; cm_started_at := started; cm_ended_at := ended;
  cm_duration := duration |}.

Definition pad3 (z : Z) : string := if z <? 100 then "0" +:+ pad2 z else format_int z.
(** "hh:mm:ss.fff" *)
Definition formatDuration (d : Z) : string :=
  let d := Z.max d 0 in
  let ms := d / 10 ^ 6 in
  pad2 (ms / 3600000) +:+ ":" +:+ pad2 (ms / 60000 mod 60) +:+ ":" +:+ pad2 (ms / 1000 mod 60) +:+ "." +:+
  pad3 (ms mod 1000).

(** [complete] up to its [save]: a result is a message or an error. *)
Definition complete_entry (now : time) (ctx_err : bool) (res : string + string) (e : entry) : entry :=
  let c := ce_cmd e in
  let '(status, message) := match res with
    | inl msg => (CommandCompleted, if String.eqb (trim_space msg) "" then "Completed" else trim_space msg)
    | inr err => if ctx_err then (CommandAborted, trim_space ("Aborted: Dupearr is shutting down: " +:+ err))
                 else (CommandFailed, trim_space err)
    end in
  let duration := formatDuration match cm_started_at c with Some s => time_sub now s | None => 0 end in
  {| ce_h := ce_h e; ce_canon := ce_canon e;
     ce_cmd := set_outcome status message (cm_started_at c) (Some now) duration c;
     ce_finished := true; ce_dirty := ce_dirty e; ce_phase := PFinished |}.

(** [abortQueued] up to its [save]. *)
Definition abort_entry (now : time) (e : entry) : entry :=
  let c := ce_cmd e in
  {| ce_h := ce_h e; ce_canon := ce_canon e;
     ce_cmd := set_outcome CommandAborted "Aborted: Dupearr stopped before the command started"
       (cm_started_at c) (Some now) (cm_duration c) c;
     ce_finished := true; ce_dirty := ce_dirty e; ce_phase := PFinished |}.

(** The first lines of [run]. *)
Definition start_entry (now : time) (e : entry) : entry :=
  let c := ce_cmd e in
  {| ce_h := ce_h e; ce_canon := ce_canon e;
     ce_cmd := set_outcome CommandStarted (cm_message c) (Some now) (cm_ended_at c) (cm_duration c) c;
     ce_finished := ce_finished e; ce_dirty := ce_dirty e; ce_phase := PStarting |}.

(** A progress message; ignored when empty or once the command has finished. *)
Definition progress_entry (msg : string) (e : entry) : entry :=
  let msg := trim_space msg in
  if String.eqb msg "" || ce_finished e then e else
  let c := ce_cmd e in
  {| ce_h := ce_h e; ce_canon := ce_canon e;
     ce_cmd := set_outcome (cm_status c) msg (cm_started_at c) (cm_ended_at c) (cm_duration c) c;
     ce_finished := ce_finished e; ce_dirty := true; ce_phase := ce_phase e |}.

Definition clean_entry (e : entry) : entry := {|
  ce_h := ce_h e; ce_canon := ce_canon e; ce_cmd := ce_cmd e; ce_finished := ce_finished e;
  ce_dirty := false; ce_phase := ce_phase e |}.

(** The write of [save], when it succeeds ([ok]). *)
Definition save_command (ok : bool) (e : entry) (db : gmap Z Command) : gmap Z Command :=
  if ok then <[ce_id e := ce_cmd e]> db else db.

(** ** Dispatching *)

(** The loop of [dispatchLocked]: entries kept and started, and the lanes. *)
Fixpoint dispatch_queue (workers : nat) (exb : bool) (shb : nat) (q : list entry) :
    list entry * list entry * bool * nat :=
  match q with
  | [] => ([], [], exb, shb)
  | e :: q' =>
    if ce_exclusive e then
      if exb then
        let '(kept, start, exb', shb') := dispatch_queue workers exb shb q' in (e :: kept, start, exb', shb')
      else
        let '(kept, start, exb', shb') := dispatch_queue workers true shb q' in (kept, e :: start, exb', shb')
    else if (workers <=? shb)%nat then
      let '(kept, start, exb', shb') := dispatch_queue workers exb shb q' in (e :: kept, start, exb', shb')
    else
      let '(kept, start, exb', shb') := dispatch_queue workers exb (S shb) q' in (kept, e :: start, exb', shb')
  end.

Definition may_dispatch (m : manager) : bool := mg_started m && negb (mg_stopping m) && negb (mg_ctx_done m).

Definition dispatchLocked (m : manager) : manager :=
  if negb (may_dispatch m) then m else
  let '(kept, start, exb, shb) :=
    dispatch_queue (mg_workers m) (mg_exclusive_busy m) (mg_shared_busy m) (mg_queue m) in
  set_lanes kept (foldl (fun r e => <[ce_id e := e]> r) (mg_running m) start) exb shb m.

(** [release]: free the lane of a finished command and start what can run. *)
Definition release (id : Z) (m : manager) : manager :=
  match mg_running m !! id with
  | None => m
  | Some e =>
    dispatchLocked (set_lanes (mg_queue m) (delete id (mg_running m))
      (if ce_exclusive e then false else mg_exclusive_busy m)
      (if ce_exclusive e then mg_shared_busy m else Nat.pred (mg_shared_busy m)) m)
  end.

(** ** Recovery *)

Definition unfinished_status (s : string) : bool := String.eqb s CommandQueued || String.eqb s CommandStarted.

(** [FailRunning] (internal/database/repo_activity.go): queued and started
    commands become aborted, keeping a message they have. *)
Definition FailRunning (now : time) (db : gmap Z Command) : gmap Z Command :=
  (fun c => if unfinished_status (cm_status c) then
     set_outcome CommandAborted
       (if String.eqb (cm_message c) "" then "Aborted: Dupearr stopped while the command was running" else cm_message c)
       (cm_started_at c) (Some now) (cm_duration c) c
   else c) <$> db.

(** [recoverOrphansLocked]: once per process, whether the write succeeds or not. *)
Definition recoverOrphansLocked (ok : bool) (now : time) (m : manager) : manager :=
  if mg_recovered m then m else {|
  mg_handlers := mg_handlers m; mg_queue := mg_queue m; mg_running := mg_running m;
  mg_exclusive_busy := mg_exclusive_busy m; mg_shared_busy := mg_shared_busy m; mg_workers := mg_workers m;
  mg_ctx_done := mg_ctx_done m; mg_started := mg_started m; mg_stopping := mg_stopping m;
  mg_closed := mg_closed m; mg_boot_until := mg_boot_until m; mg_recovered := true;
  mg_enqueue := mg_enqueue m; mg_start := mg_start m; mg_aborting := mg_aborting m;
  mg_db := if ok then FailRunning now (mg_db m) else mg_db m |}.

(** ** Enqueueing *)

Section enqueue.
Context `{Unicode}.

Definition handler_key (name : string) : string := to_lower (trim_space name).

(** [Register]; a nil handler is never registered here. *)
Definition Register (name : string) (exclusive : bool) (m : manager) : manager :=
  let name := trim_space name in
  if String.eqb name "" then m else {|
  mg_handlers := <[to_lower name := {| he_name := name; he_exclusive := exclusive |}]> (mg_handlers m);
  mg_queue := mg_queue m; mg_running := mg_running m;
  mg_exclusive_busy := mg_exclusive_busy m; mg_shared_busy := mg_shared_busy m; mg_workers := mg_workers m;
  mg_ctx_done := mg_ctx_done m; mg_started := mg_started m; mg_stopping := mg_stopping m;
  mg_closed := mg_closed m; mg_boot_until := mg_boot_until m; mg_recovered := mg_recovered m;
  mg_enqueue := mg_enqueue m; mg_start := mg_start m; mg_aborting := mg_aborting m; mg_db := mg_db m |}.

Definition is_duplicate (key : string * string) (e : entry) : bool :=
  bool_decide (ce_key e = key) && negb (ce_finished e).

(** [findDuplicateLocked]; with several running duplicates any may be named. *)
Definition findDuplicateLocked (key : string * string) (running : bool) (m : manager) : option entry :=
  match find (is_duplicate key) (map snd (map_to_list (mg_running m))) with
  | Some e => if running then Some e else find (is_duplicate key) (mg_queue m)
  | None => find (is_duplicate key) (mg_queue m)
  end.

(** What an [Enqueue] call returns before it creates a command. *)
Inductive enqueue_result := EqUnknown | EqInvalidBody | EqCancelled | EqStopped | EqExisting (c : Command).

(** [enqueue] up to the write: [canon] is the canonical body, if it is one;
    [ctx_err] tells whether the caller gave up. *)
Definition enqueue_check (recover_ok : bool) (now : time) (name : string) (canon : option string)
    (trigger : string) (ctx_err joinRunning : bool) (m : manager) : manager * option enqueue_result :=
  match mg_handlers m !! handler_key name with
  | None => (m, Some EqUnknown)
  | Some h =>
    match canon with
    | None => (m, Some EqInvalidBody)
    | Some canon =>
      if ctx_err then (m, Some EqCancelled) else
      let m := recoverOrphansLocked recover_ok now m in
      if mg_stopping m || mg_closed m then (m, Some EqStopped)
      else match findDuplicateLocked (he_name h, canon) joinRunning m with
      | Some e => (m, Some (EqExisting (ce_cmd e)))
      | None =>
        let trigger := trim_space trigger in
        (set_enqueue (EqChecked h canon (if String.eqb trigger "" then TriggerManual else trigger)) m, None)
      end
    end
  end.

Definition new_command (id : Z) (now : time) (h : handlerEntry) (canon trigger : string) : Command := {|
  cm_id := id; cm_name := he_name h; cm_body := canon; cm_status := CommandQueued; cm_trigger := trigger;
  cm_message := ""; cm_queued_at := now; cm_started_at := None; cm_ended_at := None; cm_duration := "" |}.

(** The write of [enqueue]: a new row [id], or an error. *)
Definition enqueue_create (ok : bool) (id : Z) (now : time) (m : manager) : manager :=
  match mg_enqueue m with
  | EqChecked h canon trigger =>
    if ok then
      let c := new_command id now h canon trigger in
      set_enqueue (EqCreated {| ce_h := h; ce_canon := canon; ce_cmd := c; ce_finished := false;
                                ce_dirty := false; ce_phase := PWaiting |})
        (set_db (<[id := c]> (mg_db m)) m)
    else set_enqueue EqIdle m
  | _ => m
  end.

(** The rest of [enqueue]: queue and dispatch, or abort when the manager stopped
    in the meantime. *)
Definition enqueue_commit (m : manager) : manager :=
  match mg_enqueue m with
  | EqCreated e =>
    let m := set_enqueue EqIdle m in
    if mg_stopping m || mg_closed m then
      set_stop (mg_queue m) (mg_aborting m ++ [e]) (mg_stopping m) (mg_closed m) (mg_start m) m
    else dispatchLocked (set_lanes (mg_queue m ++ [e]) (mg_running m) (mg_exclusive_busy m) (mg_shared_busy m) m)
  | _ => m
  end.

(** [CountQueued]. *)
Definition CountQueued (name trigger : string) (m : manager) : nat :=
  length (List.filter (fun e => equal_fold (he_name (ce_h e)) (trim_space name) &&
    String.eqb (cm_trigger (ce_cmd e)) trigger) (mg_queue m)).
End enqueue.

(** [lookupLocked] and [Get]: from memory, else from the table. *)
Definition lookupLocked (id : Z) (m : manager) : option entry :=
  match mg_running m !! id with
  | Some e => Some e
  | None => find (fun e => ce_id e =? id) (mg_queue m)
  end.
Definition Get (id : Z) (m : manager) : option Command :=
  match lookupLocked id m with Some e => Some (ce_cmd e) | None => mg_db m !! id end.

(** ** The goroutine of a command *)

(** Replace a running entry by [f] of it. *)
Definition on_running (id : Z) (p : phase) (f : entry -> entry) (m : manager) : manager :=
  match mg_running m !! id with
  | Some e => if bool_decide (ce_phase e = p) then set_running (<[id := f e]> (mg_running m)) m else m
  | None => m
  end.

(** [run]: nothing starts once the context is done. *)
Definition run_begin (id : Z) (now : time) (m : manager) : manager :=
  on_running id PWaiting (if mg_ctx_done m then abort_entry now else start_entry now) m.

(** The start is recorded, or the command fails without running. *)
Definition run_record (id : Z) (ok : bool) (now : time) (why : string) (m : manager) : manager :=
  match mg_running m !! id with
  | Some e =>
    if bool_decide (ce_phase e = PStarting) then
      let e' := if ok then set_phase PReady (clean_entry e)
        else complete_entry now (mg_ctx_done m) (inr ("could not record the command start: " +:+ why)) (clean_entry e) in
      set_db (save_command ok e (mg_db m)) (set_running (<[id := e']> (mg_running m)) m)
    else m
  | None => m
  end.

(** The handler is called, unless the context ended. *)
Definition run_invoke (id : Z) (now : time) (m : manager) : manager :=
  on_running id PReady (if mg_ctx_done m then complete_entry now true (inr "not started: context canceled")
                        else set_phase PHandler) m.

(** The handler returns a message or an error (a panic is an error). *)
Definition run_return (id : Z) (now : time) (res : string + string) (m : manager) : manager :=
  on_running id PHandler (complete_entry now (mg_ctx_done m) res) m.

(** The last [save]. *)
Definition run_save (id : Z) (ok : bool) (m : manager) : manager :=
  match mg_running m !! id with
  | Some e =>
    if bool_decide (ce_phase e = PFinished) then
      set_db (save_command ok e (mg_db m)) (set_running (<[id := set_phase PSaved (clean_entry e)]> (mg_running m)) m)
    else m
  | None => m
  end.

(** The deferred [release]. *)
Definition run_release (id : Z) (m : manager) : manager :=
  match mg_running m !! id with
  | Some e => if bool_decide (ce_phase e = PSaved) then release id m else m
  | None => m
  end.

(** [run] from start to end, when nothing else happens in between: [t1] to [t4]
    are the readings of the clock, [res] is what the handler returns. *)
Definition run (id : Z) (t1 t2 t3 t4 : time) (start_ok save_ok : bool) (why : string) (res : string + string)
    (m : manager) : manager :=
  run_release id (run_save id save_ok (run_return id t4 res (run_invoke id t3 (run_record id start_ok t2 why
    (run_begin id t1 m))))).

(** [progressFunc]: a message from the handler, at any time. *)
Definition run_progress (id : Z) (msg : string) (m : manager) : manager :=
  match mg_running m !! id with
  | Some e => match ce_phase e with
              | PHandler | PFinished | PSaved => set_running (<[id := progress_entry msg e]> (mg_running m)) m
              | _ => m
              end
  | None => m
  end.

(** [flushProgress]: skipped when finished or unchanged. *)
Definition run_flush (id : Z) (ok : bool) (m : manager) : manager :=
  match mg_running m !! id with
  | Some e =>
    if ce_finished e || negb (ce_dirty e) then m
    else set_db (save_command ok e (mg_db m)) (set_running (<[id := clean_entry e]> (mg_running m)) m)
  | None => m
  end.

(** ** Starting and stopping *)

Definition start_begin (now : time) (m : manager) : manager :=
  if mg_started m || mg_closed m then m else {|
  mg_handlers := mg_handlers m; mg_queue := mg_queue m; mg_running := mg_running m;
  mg_exclusive_busy := mg_exclusive_busy m; mg_shared_busy := mg_shared_busy m; mg_workers := mg_workers m;
  mg_ctx_done := mg_ctx_done m; mg_started := true; mg_stopping := mg_stopping m;
  mg_closed := mg_closed m; mg_boot_until := now + StartupGrace; mg_recovered := mg_recovered m;
  mg_enqueue := mg_enqueue m; mg_start := SRecover; mg_aborting := mg_aborting m; mg_db := mg_db m |}.
(** [Start] takes [enqMu] to recover, then dispatches what was queued before. *)
Definition start_recover (ok : bool) (now : time) (m : manager) : manager :=
  match mg_start m, mg_enqueue m with
  | SRecover, EqIdle => set_start SDispatch (recoverOrphansLocked ok now m)
  | _, _ => m
  end.
Definition start_dispatch (m : manager) : manager :=
  match mg_start m with
  | SDispatch => dispatchLocked (set_start SLoop m)
  | _ => m
  end.

(** [shutdown], when [Start]'s loop sees its context end. *)
Definition shutdown (m : manager) : manager :=
  match mg_start m with
  | SLoop => if mg_ctx_done m then set_stop [] (mg_aborting m ++ mg_queue m) true (mg_closed m) SDone m else m
  | _ => m
  end.

(** [Wait] up to waiting. *)
Definition wait_close (m : manager) : manager :=
  if mg_started m then set_stop (mg_queue m) (mg_aborting m) (mg_stopping m) true (mg_start m) m
  else set_stop [] (mg_aborting m ++ mg_queue m) true true (mg_start m) m.

(** [abortQueued] of the [k]-th entry taken off the queue. *)
Definition abort_save (k : nat) (ok : bool) (now : time) (m : manager) : manager :=
  match mg_aborting m !! k with
  | Some e => set_db (save_command ok (abort_entry now e) (mg_db m))
      (set_stop (mg_queue m) (delete k (mg_aborting m)) (mg_stopping m) (mg_closed m) (mg_start m) m)
  | None => m
  end.

(** The context given to [Start] ends. *)
Definition cancel (m : manager) : manager := {|
  mg_handlers := mg_handlers m; mg_queue := mg_queue m; mg_running := mg_running m;
  mg_exclusive_busy := mg_exclusive_busy m; mg_shared_busy := mg_shared_busy m; mg_workers := mg_workers m;
  mg_ctx_done := true; mg_started := mg_started m; mg_stopping := mg_stopping m;
  mg_closed := mg_closed m; mg_boot_until := mg_boot_until m; mg_recovered := mg_recovered m;
  mg_enqueue := mg_enqueue m; mg_start := mg_start m; mg_aborting := mg_aborting m; mg_db := mg_db m |}.

(** ** Interleavings *)

(** One critical section of any goroutine. [fresh] holds of the names some
    caller passes to [EnqueueFresh] (the program: CheckHealth). A new row gets an
    id the table does not have. *)
Inductive mstep `{Unicode} (fresh : string -> Prop) (m : manager) : manager -> Prop :=
  | step_register name exclusive : mstep fresh m (Register name exclusive m)
  | step_enqueue_check recover_ok now name canon trigger ctx_err join :
      mg_enqueue m = EqIdle ->
      (join = true \/ forall h, mg_handlers m !! handler_key name = Some h -> fresh (he_name h)) ->
      mstep fresh m (fst (enqueue_check recover_ok now name canon trigger ctx_err join m))
  | step_enqueue_create ok id now : mg_db m !! id = None -> mstep fresh m (enqueue_create ok id now m)
  | step_enqueue_commit : mstep fresh m (enqueue_commit m)
  | step_run_begin id now : mstep fresh m (run_begin id now m)
  | step_run_record id ok now why : mstep fresh m (run_record id ok now why m)
  | step_run_invoke id now : mstep fresh m (run_invoke id now m)
  | step_run_return id now res : mstep fresh m (run_return id now res m)
  | step_run_save id ok : mstep fresh m (run_save id ok m)
  | step_run_release id : mstep fresh m (run_release id m)
  | step_run_progress id msg : mstep fresh m (run_progress id msg m)
  | step_run_flush id ok : mstep fresh m (run_flush id ok m)
  | step_start_begin now : mstep fresh m (start_begin now m)
  | step_start_recover ok now : mstep fresh m (start_recover ok now m)
  | step_start_dispatch : mstep fresh m (start_dispatch m)
  | step_shutdown : mstep fresh m (shutdown m)
  | step_wait_close : mstep fresh m (wait_close m)
  | step_abort_save k ok now : mstep fresh m (abort_save k ok now m)
  | step_cancel : mstep fresh m (cancel m).

(** The states a process can reach from the commands of the previous one. *)
Definition mreachable `{Unicode} (fresh : string -> Prop) (m : manager) : Prop :=
  exists db, rtc (mstep fresh) (new_manager db) m.

(** * The task scheduler

    internal/commands/scheduler.go: when a periodic task runs next, which tasks a
    check of the schedule queues, and which finished commands count as a run of
    their task. The task list itself (registration, loading, sorting for the
    page) is not modelled. *)

Record ScheduledTask := {
  tk_name : string;
  tk_task_name : string;
  tk_interval : Z;                   (* minutes; 0 = disabled *)
  tk_last_execution : option time;
  tk_last_start : option time;
  tk_last_duration : string;
  tk_next_execution : option time;
}.

(** [time.Duration(interval) * time.Minute] *)
Definition minutes (interval : Z) : Z := wrap64 (interval * (60 * 10 ^ 9)).

Definition set_schedule (interval : Z) (last next : option time) (t : ScheduledTask) : ScheduledTask := {|
  tk_name := tk_name t; tk_task_name := tk_task_name t; tk_interval := interval;
  tk_last_execution := last; tk_last_start := tk_last_start t; tk_last_duration := tk_last_duration t;
  tk_next_execution := next |}.

(** The last run, reset to now when the clock was set back. *)
Definition last_run (t : ScheduledTask) (now : time) : option time :=
  match tk_last_execution t with
  | Some l => Some (if time_after l now then now else l)
  | None => None
  end.

(** [nextExecution]: the task, its next run and whether the task changed. *)
Definition nextExecution (t : ScheduledTask) (interval : Z) (now : time) : ScheduledTask * option time * bool :=
  if interval <=? 0 then
    match tk_next_execution t with
    | Some _ => (set_schedule (tk_interval t) (tk_last_execution t) None t, None, true)
    | None => (t, None, false)
    end
  else
    let iv := minutes interval in
    let last := last_run t now in
    let next := match last, tk_next_execution t with
      | Some l, _ => l + iv
      | None, Some anchor => if time_after anchor (now + iv) then now + iv else anchor
      | None, None => now + iv
      end in
    let changed := negb (bool_decide (last = tk_last_execution t)) ||
      negb (bool_decide (tk_next_execution t = Some next)) in
    (set_schedule (tk_interval t) last (Some next) t, Some next, changed).

(** [effectiveNext]: nothing runs during the startup grace. *)
Definition effectiveNext (next : option time) (boot_until : time) : option time :=
  (fun n => if n <? boot_until then boot_until else n) <$> next.

(** [intervalOf] of the interval a task reports. *)
Definition intervalOf (minutes : Z) : Z := Z.max minutes 0.

(** One task in [checkSchedule]: the task, whether it is saved and whether its
    command is queued. *)
Definition check_task (t : ScheduledTask) (configured boot_until now : Z) : ScheduledTask * bool * bool :=
  let interval := intervalOf configured in
  let changed := negb (tk_interval t =? interval) in
  let '(t, base, anchored) :=
    nextExecution (set_schedule interval (tk_last_execution t) (tk_next_execution t) t) interval now in
  let due := match effectiveNext base boot_until with
             | Some next => negb (time_after next now)
             | None => false
             end in
  (t, changed || anchored, due).

(** [recordTaskRun]: the finished commands that stand for their task. *)
Definition counts_as_run (c : Command) : bool :=
  negb (String.eqb (cm_status c) CommandAborted) && bool_decide (is_Some (cm_ended_at c)) &&
  (String.eqb (cm_trigger c) TriggerScheduled || String.eqb (cm_body c) "{}").

Definition recordTaskRun (t : ScheduledTask) (c : Command) (configured now : Z) : ScheduledTask :=
  if negb (counts_as_run c) then t else
  let interval := intervalOf configured in
  fst (fst (nextExecution {|
    tk_name := tk_name t; tk_task_name := tk_task_name t; tk_interval := interval;
    tk_last_execution := cm_ended_at c;
    tk_last_start := match cm_started_at c with Some s => Some s | None => cm_ended_at c end;
    tk_last_duration := cm_duration c; tk_next_execution := tk_next_execution t |} interval now)).

(** ** Lemmas *)

Lemma minutes_small i : 0 <= i <= 153722867 -> minutes i = i * (60 * 10 ^ 9).
Proof. intros Hi. unfold minutes. apply wrap64_id. unfold min_int64, max_int64. lia. Qed.

(** Looking again changes nothing: not at the same time, and not later. *)
Lemma nextExecution_again t interval now now' t' next changed :
  0 < interval <= 153722867 -> now <= now' ->
  nextExecution t interval now = (t', next, changed) -> nextExecution t' interval now' = (t', next, false).
Proof.
  intros Hi Hle. unfold nextExecution, last_run, time_after.
  destruct (interval <=? 0) eqn:E0; [bsimp; lia |].
  assert (Hiv : 0 < minutes interval) by (rewrite minutes_small; lia).
  destruct (tk_last_execution t) as [l|] eqn:El; [| destruct (tk_next_execution t) as [a|] eqn:Ea];
    intros [= <- <- <-]; cbn.
  - destruct (now <? l) eqn:E1; bsimp.
    + destruct (now' <? now) eqn:E2; [bsimp; lia |]. by rewrite !bool_decide_eq_true_2.
    + destruct (now' <? l) eqn:E2; [bsimp; lia |]. by rewrite !bool_decide_eq_true_2.
  - destruct (now + minutes interval <? a) eqn:E1; bsimp;
      (destruct (now' + minutes interval <? _) eqn:E2; [bsimp; lia | by rewrite !bool_decide_eq_true_2]).
  - destruct (now' + minutes interval <? _) eqn:E2; [bsimp; lia | by rewrite !bool_decide_eq_true_2].
Qed.

(** The next run is at most one interval away. *)
Lemma nextExecution_bound t interval now :
  0 < interval <= 153722867 ->
  exists next, snd (fst (nextExecution t interval now)) = Some next /\ next <= now + minutes interval.
Proof.
  intros Hi. unfold nextExecution, last_run, time_after.
  destruct (interval <=? 0) eqn:E0; [bsimp; lia |]. cbn. eexists. split; [done |].
  destruct (tk_last_execution t) as [l|]; [| destruct (tk_next_execution t) as [a|]].
  - destruct (now <? l) eqn:E; bsimp; lia.
  - destruct (now + minutes interval <? a) eqn:E; bsimp; lia.
  - lia.
Qed.
