(* ===== verification/CommandsInv.v ===== *)
(** * The command queue: invariants and that every step keeps them *)

From S2P Require Import Prelude GoStd Models Commands.
Local Open Scope string_scope.
Local Open Scope Z_scope.

(** * Invariants of the command queue

    What every critical section of the manager keeps: rows and entries agree,
    the lanes count what runs, no identical commands wait twice, and no startable
    command is left waiting. The invariants are stated on the components a
    critical section touches, so that moving an entry between them is one lemma. *)

(** ** Counting the lanes *)

Definition lane (exclusive : bool) (r : gmap Z entry) : gmap Z entry :=
  filter (fun kv => ce_exclusive (snd kv) = exclusive) r.
Definition lane_count (exclusive : bool) (r : gmap Z entry) : nat := size (lane exclusive r).
Definition one_if (b : bool) : nat := if b then 1%nat else 0%nat.

Lemma lane_insert_new x r id e :
  r !! id = None -> lane_count x (<[id:=e]> r) = (one_if (Bool.eqb (ce_exclusive e) x) + lane_count x r)%nat.
Proof.
  intros Hn. unfold lane_count, lane. destruct (Bool.eqb (ce_exclusive e) x) eqn:E.
  - apply eqb_prop in E. rewrite map_filter_insert_True by done.
    rewrite map_size_insert_None; [done |]. apply map_lookup_filter_None. by left.
  - apply eqb_false_iff in E. rewrite map_filter_insert_False by done. by rewrite delete_id.
Qed.

Lemma lane_delete x r id e :
  r !! id = Some e -> lane_count x r = (one_if (Bool.eqb (ce_exclusive e) x) + lane_count x (delete id r))%nat.
Proof.
  intros Hs. rewrite <- (insert_id r id e) at 1 by done. rewrite <- insert_delete_eq.
  apply lane_insert_new. apply lookup_delete_eq.
Qed.

Lemma lane_update x r id e e' :
  r !! id = Some e -> ce_exclusive e' = ce_exclusive e -> lane_count x (<[id:=e']> r) = lane_count x r.
Proof.
  intros Hs He. rewrite <- insert_delete_eq, lane_insert_new by apply lookup_delete_eq.
  by rewrite (lane_delete x r id e Hs), He.
Qed.

(** ** Entries and rows *)

Definition row_status (db : gmap Z Command) (id : Z) : option string := cm_status <$> db !! id.

(** What the table says of an entry, by where its goroutine stands. *)
Definition entry_ok (db : gmap Z Command) (e : entry) : Prop :=
  match ce_phase e with
  | PWaiting => ce_finished e = false /\ ce_dirty e = false /\ row_status db (ce_id e) = Some CommandQueued
  | PStarting => ce_finished e = false /\ ce_dirty e = false /\ row_status db (ce_id e) = Some CommandQueued /\
      cm_status (ce_cmd e) = CommandStarted
  | PReady => ce_finished e = false /\ ce_dirty e = false /\ row_status db (ce_id e) = Some CommandStarted /\
      cm_status (ce_cmd e) = CommandStarted
  | PHandler => ce_finished e = false /\ row_status db (ce_id e) = Some CommandStarted /\
      cm_status (ce_cmd e) = CommandStarted
  | PFinished => ce_finished e = true /\ unfinished_status (cm_status (ce_cmd e)) = false /\
      (row_status db (ce_id e) = Some CommandQueued \/ row_status db (ce_id e) = Some CommandStarted)
  | PSaved => ce_finished e = true /\ is_Some (row_status db (ce_id e))
  end.

Record core_ok (ws : list entry) (r : gmap Z entry) (exb : bool) (shb workers : nat) (db : gmap Z Command) : Prop := {
  core_ids : forall id e, r !! id = Some e -> ce_id e = id;
  core_nodup : NoDup (map ce_id ws);
  core_apart : forall e, e ∈ ws -> r !! ce_id e = None;
  core_waiting : forall e, e ∈ ws -> ce_phase e = PWaiting /\ entry_ok db e;
  core_running : forall id e, r !! id = Some e -> entry_ok db e;
  core_exclusive : one_if exb = lane_count true r;
  core_shared : shb = lane_count false r;
  core_workers : (shb <= workers)%nat;
}.

(** The entries in memory that have not been dispatched. *)
Definition created (c : enqueue_call) : list entry := match c with EqCreated e => [e] | _ => [] end.
Definition waiting (m : manager) : list entry := (mg_queue m ++ created (mg_enqueue m) ++ mg_aborting m)%list.

Record m_ok (m : manager) : Prop := {
  ok_core : core_ok (waiting m) (mg_running m) (mg_exclusive_busy m) (mg_shared_busy m) (mg_workers m) (mg_db m);
  ok_recovered : mg_recovered m = false -> waiting m = [] /\ mg_running m = ∅ /\ mg_enqueue m = EqIdle;
  ok_workers : mg_workers m = Workers;
}.

Section core.
Implicit Types (ws q : list entry) (r : gmap Z entry) (db : gmap Z Command).

Lemma core_perm ws ws' r exb shb w db : ws ≡ₚ ws' -> core_ok ws r exb shb w db -> core_ok ws' r exb shb w db.
Proof.
  intros Hp []. constructor; try done.
  - by rewrite <- Hp.
  - intros e He. apply core_apart0. by rewrite Hp.
  - intros e He. apply core_waiting0. by rewrite Hp.
Qed.

(** An entry leaves the waiting lists. *)
Lemma core_drop e ws r exb shb w db : core_ok (e :: ws) r exb shb w db -> core_ok ws r exb shb w db.
Proof.
  intros []. constructor; try done.
  - by apply NoDup_cons in core_nodup0 as [_ ?].
  - intros x Hx. apply core_apart0. set_solver.
  - intros x Hx. apply core_waiting0. set_solver.
Qed.

(** A waiting entry starts to run in a free lane. *)
Lemma core_start e ws r exb shb w db :
  core_ok (e :: ws) r exb shb w db ->
  (if ce_exclusive e then exb = false else (shb < w)%nat) ->
  core_ok ws (<[ce_id e:=e]> r) (if ce_exclusive e then true else exb) (if ce_exclusive e then shb else S shb) w db.
Proof.
  intros Hc Hfree. pose proof (core_drop _ _ _ _ _ _ _ Hc) as Hd. destruct Hc.
  assert (Hn : r !! ce_id e = None) by (apply core_apart0; set_solver).
  apply NoDup_cons in core_nodup0 as [Hnotin _].
  destruct Hd. constructor; try done.
  - intros id x [[<- <-]|[Hne Hx]]%lookup_insert_Some; eauto.
  - intros x Hx. rewrite lookup_insert_ne; [auto |]. intros E. apply Hnotin. rewrite E.
    by apply list_elem_of_fmap_2.
  - intros id x [[<- <-]|[Hne Hx]]%lookup_insert_Some; [| eauto].
    apply core_waiting0. set_solver.
  - rewrite lane_insert_new, <- core_exclusive0 by done. destruct (ce_exclusive e); simpl in *; [by subst | done].
  - rewrite lane_insert_new, <- core_shared0 by done. by destruct (ce_exclusive e).
  - destruct (ce_exclusive e); lia.
Qed.

(** The row of one id changes. *)
Lemma entry_ok_other db id c e : ce_id e <> id -> entry_ok db e -> entry_ok (<[id:=c]> db) e.
Proof. intros Hne. unfold entry_ok, row_status. by rewrite lookup_insert_ne. Qed.

(** A running entry changes, and perhaps its row. *)
Lemma core_update id e e' ws r exb shb w db db' :
  core_ok ws r exb shb w db -> r !! id = Some e -> ce_h e' = ce_h e -> ce_id e' = ce_id e ->
  (forall x, ce_id x <> id -> entry_ok db x -> entry_ok db' x) -> entry_ok db' e' ->
  core_ok ws (<[id:=e']> r) exb shb w db'.
Proof.
  intros [] Hid Hh Hi Hdb He'. assert (Hx : ce_exclusive e' = ce_exclusive e) by (unfold ce_exclusive; by rewrite Hh).
  assert (Hapart : forall x, x ∈ ws -> ce_id x <> id).
  { intros x Hin <-. apply core_apart0 in Hin. congruence. }
  constructor; try done.
  - intros i x [[<- <-]|[Hne Hl]]%lookup_insert_Some; [rewrite Hi |]; eauto.
  - intros x Hin. rewrite lookup_insert_ne; [auto |]. intros E. by apply (Hapart x).
  - intros x Hin. destruct (core_waiting0 x Hin). auto.
  - intros i x [[<- <-]|[Hne Hl]]%lookup_insert_Some; [done |].
    apply Hdb; [| eauto]. by rewrite (core_ids0 i x Hl).
  - by rewrite (lane_update true r id e e').
  - by rewrite (lane_update false r id e e').
Qed.

(** A running entry is released. *)
Lemma core_release id e ws r exb shb w db :
  core_ok ws r exb shb w db -> r !! id = Some e ->
  core_ok ws (delete id r) (if ce_exclusive e then false else exb)
    (if ce_exclusive e then shb else Nat.pred shb) w db.
Proof.
  intros [] Hid. pose proof (lane_delete true r id e Hid) as Ht. pose proof (lane_delete false r id e Hid) as Hf.
  constructor; try done.
  - intros i x [Hne Hx]%lookup_delete_Some. eauto.
  - intros x Hx. apply lookup_delete_None. auto.
  - intros i x [Hne Hx]%lookup_delete_Some. eauto.
  - destruct (ce_exclusive e), exb; simpl in *; lia.
  - destruct (ce_exclusive e); simpl in *; lia.
  - destruct (ce_exclusive e); lia.
Qed.

(** A new command, with a row no entry has. *)
Lemma core_create e ws r exb shb w db :
  core_ok ws r exb shb w db -> db !! ce_id e = None -> ce_phase e = PWaiting -> ce_finished e = false ->
  ce_dirty e = false -> cm_status (ce_cmd e) = CommandQueued ->
  core_ok (e :: ws) r exb shb w (<[ce_id e:=ce_cmd e]> db).
Proof.
  intros [] Hn Hp Hf Hdirty Hs.
  assert (Hother : forall x, entry_ok db x -> ce_id x <> ce_id e).
  { intros x Hx E. unfold entry_ok, row_status in Hx. rewrite E, Hn in Hx.
    destruct (ce_phase x); simpl in Hx; naive_solver (by eauto using is_Some_None). }
  assert (Hnr : r !! ce_id e = None).
  { destruct (r !! ce_id e) as [x|] eqn:E; [| done]. exfalso. apply (Hother x); eauto. }
  constructor; try done.
  - simpl. apply NoDup_cons. split; [| done]. intros (x & E & Hin)%list_elem_of_fmap.
    apply (Hother x); [| done]. by apply core_waiting0.
  - intros x [->|Hin]%elem_of_cons; auto.
  - intros x [->|Hin]%elem_of_cons.
    + split; [done |]. unfold entry_ok, row_status. rewrite Hp, lookup_insert_eq. simpl. by rewrite Hs.
    + destruct (core_waiting0 x Hin). split; [done |]. apply entry_ok_other; auto.
  - intros id x Hx. apply entry_ok_other; eauto.
Qed.

(** ** Dispatching *)

Lemma core_dispatch q rest r exb shb w db k s exb' shb' :
  core_ok (q ++ rest) r exb shb w db -> dispatch_queue w exb shb q = (k, s, exb', shb') ->
  core_ok (k ++ rest) (foldl (fun r e => <[ce_id e := e]> r) r s) exb' shb' w db.
Proof.
  revert rest r exb shb k s. induction q as [|e q IH]; intros rest r exb shb k s Hc Hd; simpl in Hd.
  { by injection Hd as <- <- <- <-. }
  assert (Hkeep : forall k0, (k0 ++ e :: rest)%list ≡ₚ ((e :: k0) ++ rest)%list) by (intros; simpl; by rewrite Permutation_middle).
  assert (Hq : core_ok (q ++ e :: rest) r exb shb w db) by (eapply core_perm; [| exact Hc]; by rewrite <- Hkeep).
  pose proof (core_start e (q ++ rest) r exb shb w db) as Hstart.
  destruct (ce_exclusive e); [destruct exb |]; [| |destruct (w <=? shb)%nat eqn:E];
    destruct (dispatch_queue _ _ _ q) as [[[k0 s0] x0] y0] eqn:E0; injection Hd as <- <- <- <-.
  - eapply core_perm; [apply Hkeep | by eapply IH].
  - simpl. eapply IH; [| exact E0]. by apply Hstart.
  - eapply core_perm; [apply Hkeep | by eapply IH].
  - simpl. eapply IH; [| exact E0]. apply Hstart; [done |]. apply Nat.leb_gt in E. lia.
Qed.

(** What is kept waits for a full lane; nothing is lost; FIFO in each lane. *)
Lemma dispatch_full w exb shb q k s exb' shb' :
  dispatch_queue w exb shb q = (k, s, exb', shb') ->
  (exb = true -> exb' = true) /\ (shb <= shb')%nat /\
  forall e, e ∈ k -> if ce_exclusive e then exb' = true else (w <= shb')%nat.
Proof.
  revert exb shb k s. induction q as [|e q IH]; intros exb shb k s Hd; simpl in Hd.
  { injection Hd as <- <- <- <-. split_and!; try done. intros e He. by apply elem_of_nil in He. }
  destruct (ce_exclusive e) eqn:Ex; [destruct exb |]; [| |destruct (w <=? shb)%nat eqn:E];
    destruct (dispatch_queue _ _ _ q) as [[[k0 s0] x0] y0] eqn:E0; injection Hd as <- <- <- <-;
    apply IH in E0 as (Hx & Hs & Hk); (split; [try done; eauto |]); (split; [lia |]); try exact Hk;
    intros x [->|Hin]%elem_of_cons; try (by apply Hk); rewrite Ex; [by apply Hx |].
  apply Nat.leb_le in E. lia.
Qed.

Lemma dispatch_Permutation w exb shb q k s exb' shb' :
  dispatch_queue w exb shb q = (k, s, exb', shb') -> (k ++ s)%list ≡ₚ q.
Proof.
  revert exb shb k s. induction q as [|e q IH]; intros exb shb k s Hd; simpl in Hd.
  { by injection Hd as <- <- <- <-. }
  destruct (ce_exclusive e); [destruct exb |]; [| |destruct (w <=? shb)%nat];
    destruct (dispatch_queue _ _ _ q) as [[[k0 s0] x0] y0] eqn:E0; injection Hd as <- <- <- <-;
    apply IH in E0; rewrite <- E0; simpl; by rewrite ?Permutation_middle.
Qed.

(** ** The table *)

Lemma entry_ok_save ok e db x : ce_id x <> ce_id e -> entry_ok db x -> entry_ok (save_command ok e db) x.
Proof. destruct ok; simpl; [| done]. intros Hne. by apply entry_ok_other. Qed.

Lemma row_save_ok e db : row_status (save_command true e db) (ce_id e) = Some (cm_status (ce_cmd e)).
Proof. unfold row_status. simpl. by rewrite lookup_insert_eq. Qed.

(** An entry that never ran is aborted. *)
Lemma core_abort ok now e ws r exb shb w db :
  core_ok (e :: ws) r exb shb w db -> core_ok ws r exb shb w (save_command ok (abort_entry now e) db).
Proof.
  intros Hc. pose proof (core_drop _ _ _ _ _ _ _ Hc) as []. destruct Hc.
  apply NoDup_cons in core_nodup1 as [Hnotin _].
  assert (Hn : r !! ce_id e = None) by (apply core_apart1; set_solver).
  constructor; try done.
  - intros x Hx. destruct (core_waiting0 x Hx). split; [done |]. apply entry_ok_save; [| done].
    intros E. apply Hnotin. apply list_elem_of_fmap. exists x. split; [done | done].
  - intros id x Hx. apply entry_ok_save; [| eauto]. intros E.
    change (ce_id x = ce_id e) in E. rewrite (core_ids0 id x Hx) in E. subst id. congruence.
Qed.

(** With nothing in memory the table may change at will. *)
Lemma core_empty exb shb w db db' : core_ok [] ∅ exb shb w db -> core_ok [] ∅ exb shb w db'.
Proof. intros []. constructor; try done; set_solver. Qed.
End core.

(** * The invariants hold in every reachable state

    [m_ok] is kept by every critical section of the manager,
    whatever the handlers return and whichever writes fail; so are the two
    properties that need it: identical commands are joined, and no command that
    could start is left waiting. *)

(** ** Rows, entries and lanes *)

Lemma waiting_lanes q r exb shb m : waiting (set_lanes q r exb shb m) = (q ++ created (mg_enqueue m) ++ mg_aborting m)%list.
Proof. done. Qed.

Lemma dispatch_ok m : m_ok m -> m_ok (dispatchLocked m).
Proof.
  intros Hm. unfold dispatchLocked. destruct (negb (may_dispatch m)); [done |].
  destruct (dispatch_queue _ _ _ _) as [[[k s] exb] shb] eqn:E. destruct Hm as [Hc Hr Hw]. constructor; [| |done].
  - by eapply core_dispatch.
  - intros Hf. destruct (Hr Hf) as (Hwait & Hrun & Hidle). unfold waiting in Hwait.
    apply app_eq_nil in Hwait as [Hq Hrest]. rewrite Hq in E. injection E as <- <- <- <-.
    split_and!; [by rewrite waiting_lanes, Hrest | done | done].
Qed.

Lemma recover_ok ok now m : m_ok m -> m_ok (recoverOrphansLocked ok now m).
Proof.
  intros Hm. unfold recoverOrphansLocked. destruct (mg_recovered m) eqn:E; [done |].
  destruct Hm as [Hc Hr Hw]. destruct (Hr E) as (Hwait & Hrun & _). constructor; [| done | done].
  unfold waiting in *. cbn. rewrite Hwait, Hrun in *. by eapply core_empty.
Qed.

Lemma recover_recovered ok now m : mg_recovered (recoverOrphansLocked ok now m) = true.
Proof. unfold recoverOrphansLocked. by destruct (mg_recovered m) eqn:E. Qed.

Lemma recover_fields ok now m : let m' := recoverOrphansLocked ok now m in
  mg_handlers m' = mg_handlers m /\ mg_queue m' = mg_queue m /\ mg_running m' = mg_running m /\
  mg_enqueue m' = mg_enqueue m /\ mg_start m' = mg_start m /\ mg_aborting m' = mg_aborting m /\
  may_dispatch m' = may_dispatch m /\ mg_exclusive_busy m' = mg_exclusive_busy m /\
  mg_shared_busy m' = mg_shared_busy m /\ mg_workers m' = mg_workers m /\ mg_ctx_done m' = mg_ctx_done m.
Proof. unfold recoverOrphansLocked. by destruct (mg_recovered m). Qed.

(** A manager that recovered, or has nothing in memory. *)
Lemma ok_running_recovered m id e : m_ok m -> mg_running m !! id = Some e -> mg_recovered m = true.
Proof.
  intros [_ Hr _] Hid. destruct (mg_recovered m); [done |]. destruct (Hr eq_refl) as (_ & E & _).
  rewrite E in Hid. by apply lookup_empty_Some in Hid.
Qed.

(** A step of a running entry: its entry changes, and perhaps its row. *)
Lemma running_step_ok id e e' db' m :
  m_ok m -> mg_running m !! id = Some e -> ce_h e' = ce_h e -> ce_id e' = ce_id e ->
  (forall x, ce_id x <> id -> entry_ok (mg_db m) x -> entry_ok db' x) -> entry_ok db' e' ->
  m_ok (set_db db' (set_running (<[id:=e']> (mg_running m)) m)).
Proof.
  intros Hm Hid Hh Hi Hdb He'. pose proof (ok_running_recovered _ _ _ Hm Hid) as Hrec.
  destruct Hm as [Hc Hr Hw]. constructor; [| |done].
  - by eapply core_update.
  - cbn. congruence.
Qed.

Lemma set_db_same r m : set_db (mg_db m) (set_running r m) = set_running r m.
Proof. done. Qed.

Lemma on_running_ok id p f m :
  m_ok m ->
  (forall e, mg_running m !! id = Some e -> ce_phase e = p -> entry_ok (mg_db m) e ->
     ce_h (f e) = ce_h e /\ ce_id (f e) = ce_id e /\ entry_ok (mg_db m) (f e)) ->
  m_ok (on_running id p f m).
Proof.
  intros Hm Hf. unfold on_running. destruct (mg_running m !! id) as [e|] eqn:Hid; [| done].
  case_bool_decide as Hp; [| done]. rewrite <- set_db_same.
  destruct (Hf e eq_refl Hp) as (Hh & Hi & Hok); [by apply (core_running _ _ _ _ _ _ (ok_core _ Hm) id) |].
  by eapply running_step_ok.
Qed.

(** Saving a running entry. *)
Lemma save_step_ok ok id e e' m :
  m_ok m -> mg_running m !! id = Some e -> ce_h e' = ce_h e -> ce_id e' = ce_id e ->
  entry_ok (save_command ok e (mg_db m)) e' ->
  m_ok (set_db (save_command ok e (mg_db m)) (set_running (<[id:=e']> (mg_running m)) m)).
Proof.
  intros Hm Hid Hh Hi He'. eapply running_step_ok; try done. intros x Hx. apply entry_ok_save.
  by rewrite (core_ids _ _ _ _ _ _ (ok_core _ Hm) id e Hid).
Qed.

(** ** The goroutine of a command *)

Ltac at_phase Hp Hok := unfold entry_ok in Hok; rewrite Hp in Hok.

Lemma run_begin_ok id now m : m_ok m -> m_ok (run_begin id now m).
Proof.
  intros Hm. apply on_running_ok; [done |]. intros e _ Hp Hok. at_phase Hp Hok.
  destruct (mg_ctx_done m); unfold entry_ok, ce_id in *; cbn; naive_solver.
Qed.

Lemma complete_final now b res e : unfinished_status (cm_status (ce_cmd (complete_entry now b res e))) = false.
Proof. unfold complete_entry. destruct res; [done | by destruct b]. Qed.

Lemma complete_shape now b res e :
  let e' := complete_entry now b res e in
  ce_h e' = ce_h e /\ ce_canon e' = ce_canon e /\ ce_id e' = ce_id e /\ ce_finished e' = true /\ ce_phase e' = PFinished.
Proof. unfold complete_entry, ce_id. destruct res; [done | by destruct b]. Qed.

(** The entry of a command that ends before its outcome is recorded. *)
Lemma complete_ok now b res e db :
  (row_status db (ce_id e) = Some CommandQueued \/ row_status db (ce_id e) = Some CommandStarted) ->
  entry_ok db (complete_entry now b res e).
Proof.
  intros Hrow. destruct (complete_shape now b res e) as (_ & _ & Hi & Hf & Hp).
  unfold entry_ok. rewrite Hp, Hi, complete_final. done.
Qed.

Lemma run_record_ok id ok now why m : m_ok m -> m_ok (run_record id ok now why m).
Proof.
  intros Hm. unfold run_record. destruct (mg_running m !! id) as [e|] eqn:Hid; [| done].
  case_bool_decide as Hp; [| done].
  pose proof (core_running _ _ _ _ _ _ (ok_core _ Hm) id e Hid) as Hok. at_phase Hp Hok.
  destruct Hok as (Hf & Hd & Hrow & Hs). destruct ok.
  - apply save_step_ok; try done. pose proof (row_save_ok e (mg_db m)) as Hrow'.
    unfold entry_ok, ce_id in *. cbn [set_phase clean_entry ce_phase ce_cmd ce_finished ce_dirty]. by rewrite Hrow', Hs.
  - destruct (complete_shape now (mg_ctx_done m) (inr ("could not record the command start: " +:+ why)) (clean_entry e))
      as (Hh & _ & Hi & _). apply save_step_ok; try done. apply complete_ok. by left.
Qed.

Lemma run_invoke_ok id now m : m_ok m -> m_ok (run_invoke id now m).
Proof.
  intros Hm. apply on_running_ok; [done |]. intros e _ Hp Hok. at_phase Hp Hok. destruct Hok as (Hf & Hd & Hrow & Hs).
  destruct (mg_ctx_done m); [| done].
  destruct (complete_shape now true (inr "not started: context canceled") e) as (Hh & _ & Hi & _).
  split_and!; [done | done |]. apply complete_ok. by right.
Qed.

Lemma run_return_ok id now res m : m_ok m -> m_ok (run_return id now res m).
Proof.
  intros Hm. apply on_running_ok; [done |]. intros e _ Hp Hok. at_phase Hp Hok. destruct Hok as (Hf & Hrow & Hs).
  destruct (complete_shape now (mg_ctx_done m) res e) as (Hh & _ & Hi & _).
  split_and!; [done | done |]. apply complete_ok. by right.
Qed.

Lemma run_save_ok id ok m : m_ok m -> m_ok (run_save id ok m).
Proof.
  intros Hm. unfold run_save. destruct (mg_running m !! id) as [e|] eqn:Hid; [| done].
  case_bool_decide as Hp; [| done].
  pose proof (core_running _ _ _ _ _ _ (ok_core _ Hm) id e Hid) as Hok. at_phase Hp Hok.
  destruct Hok as (Hf & Hs & Hrow). apply save_step_ok; try done.
  unfold entry_ok. cbn [set_phase clean_entry ce_phase ce_finished]. split; [done |].
  change (ce_id (set_phase PSaved (clean_entry e))) with (ce_id e).
  destruct ok; [rewrite row_save_ok; eauto | simpl; destruct Hrow as [-> | ->]; eauto].
Qed.

Lemma progress_shape msg e :
  let e' := progress_entry msg e in
  ce_h e' = ce_h e /\ ce_canon e' = ce_canon e /\ ce_id e' = ce_id e /\ ce_finished e' = ce_finished e /\
  ce_phase e' = ce_phase e /\ cm_status (ce_cmd e') = cm_status (ce_cmd e).
Proof. unfold progress_entry, ce_id. by destruct (_ || _). Qed.

Lemma run_progress_ok id msg m : m_ok m -> m_ok (run_progress id msg m).
Proof.
  intros Hm. unfold run_progress. destruct (mg_running m !! id) as [e|] eqn:Hid; [| done].
  pose proof (core_running _ _ _ _ _ _ (ok_core _ Hm) id e Hid) as Hok.
  destruct (progress_shape msg e) as (Hh & _ & Hi & Hf & Hp' & Hs).
  destruct (ce_phase e) eqn:Hp; try done; rewrite <- set_db_same; eapply running_step_ok; try done;
    at_phase Hp Hok; unfold entry_ok; by rewrite Hp', Hi, Hf, ?Hs.
Qed.

Lemma run_flush_ok id ok m : m_ok m -> m_ok (run_flush id ok m).
Proof.
  intros Hm. unfold run_flush. destruct (mg_running m !! id) as [e|] eqn:Hid; [| done].
  destruct (ce_finished e || negb (ce_dirty e)) eqn:E; [done |].
  apply orb_false_iff in E as [Hf Hd%negb_false_iff].
  pose proof (core_running _ _ _ _ _ _ (ok_core _ Hm) id e Hid) as Hok.
  destruct (ce_phase e) eqn:Hp; at_phase Hp Hok; try naive_solver congruence.
  apply save_step_ok; try done. unfold entry_ok. cbn [clean_entry ce_phase ce_finished ce_cmd]. rewrite Hp.
  change (ce_id (clean_entry e)) with (ce_id e).
  destruct Hok as (_ & Hrow & Hs). split_and!; try done. destruct ok; [by rewrite row_save_ok, Hs | done].
Qed.

Lemma release_ok id m : m_ok m -> m_ok (release id m).
Proof.
  intros Hm. unfold release. destruct (mg_running m !! id) as [e|] eqn:Hid; [| done].
  pose proof (ok_running_recovered _ _ _ Hm Hid) as Hrec. destruct Hm as [Hc Hr Hw].
  apply dispatch_ok. constructor; [by apply core_release | | done]. cbn. congruence.
Qed.

(** ** Enqueueing, starting and stopping *)

Section steps.
Context `{Unicode}.

Lemma enqueue_check_ok rok now name canon trigger err join m :
  mg_enqueue m = EqIdle -> m_ok m -> m_ok (fst (enqueue_check rok now name canon trigger err join m)).
Proof.
  intros Hidle Hm. unfold enqueue_check.
  destruct (mg_handlers m !! _) as [h|]; [| done]. destruct canon as [canon|]; [| done]. destruct err; [done |].
  pose proof (recover_ok rok now m Hm) as Hok. pose proof (recover_recovered rok now m) as Hrec.
  destruct (recover_fields rok now m) as (_ & _ & _ & Hen & _). rewrite Hidle in Hen. clear Hm.
  revert Hok Hrec Hen. generalize (recoverOrphansLocked rok now m). intros m' Hok Hrec Hen.
  destruct (mg_stopping m' || mg_closed m'); [done |]. destruct (findDuplicateLocked _ _ _); [done |].
  destruct Hok as [Hc Hr Hw]. constructor; [| cbn; congruence | done].
  unfold waiting in *. rewrite Hen in Hc. exact Hc.
Qed.

Lemma enqueue_create_ok ok id now m : mg_db m !! id = None -> m_ok m -> m_ok (enqueue_create ok id now m).
Proof.
  intros Hn Hm. pose proof Hm as [Hc Hr Hw]. unfold enqueue_create.
  destruct (mg_enqueue m) as [|h canon trigger|e0] eqn:En; [done | | done].
  assert (Hrec : mg_recovered m = true) by (destruct (mg_recovered m); [done |]; by destruct Hr as (_ & _ & ?)).
  unfold waiting in Hc. rewrite En in Hc. destruct ok.
  - constructor; [| cbn; congruence | done]. unfold waiting. cbn.
    eapply core_perm; [apply Permutation_middle |].
    by apply (core_create {| ce_h := h; ce_canon := canon; ce_cmd := new_command id now h canon trigger;
      ce_finished := false; ce_dirty := false; ce_phase := PWaiting |} _ _ _ _ _ _ Hc).
  - constructor; [exact Hc | cbn; congruence | done].
Qed.

Lemma enqueue_commit_ok m : m_ok m -> m_ok (enqueue_commit m).
Proof.
  intros Hm. pose proof Hm as [Hc Hr Hw]. unfold enqueue_commit.
  destruct (mg_enqueue m) as [|h canon trigger|e] eqn:En; [done | done |].
  assert (Hrec : mg_recovered m = true) by (destruct (mg_recovered m); [done |]; by destruct Hr as (_ & _ & ?)).
  unfold waiting in Hc. rewrite En in Hc. cbn zeta. destruct (_ || _).
  - constructor; [| cbn; congruence | done]. unfold waiting. cbn in *.
    eapply core_perm; [| exact Hc]. by rewrite <- Permutation_cons_append.
  - apply dispatch_ok. constructor; [| cbn; congruence | done]. unfold waiting. cbn in *.
    eapply core_perm; [| exact Hc]. by rewrite <- app_assoc.
Qed.

Lemma shutdown_ok m : m_ok m -> m_ok (shutdown m).
Proof.
  intros Hm. pose proof Hm as [Hc Hr Hw]. unfold shutdown. destruct (mg_start m); try done. destruct (mg_ctx_done m); [| done].
  constructor; [| | done]; unfold waiting in *; cbn.
  - eapply core_perm; [| exact Hc]. rewrite (app_assoc _ _ (mg_queue m)). apply Permutation_app_comm.
  - intros Hf. destruct (Hr Hf) as (Hwait & Hrun & Hidle). apply app_eq_nil in Hwait as [Hq Hrest].
    rewrite Hq, app_nil_r. done.
Qed.

Lemma wait_close_ok m : m_ok m -> m_ok (wait_close m).
Proof.
  intros [Hc Hr Hw]. unfold wait_close. destruct (mg_started m); [by constructor |].
  constructor; [| | done]; unfold waiting in *; cbn.
  - eapply core_perm; [| exact Hc]. rewrite (app_assoc _ _ (mg_queue m)). apply Permutation_app_comm.
  - intros Hf. destruct (Hr Hf) as (Hwait & Hrun & Hidle). apply app_eq_nil in Hwait as [Hq Hrest].
    rewrite Hq, app_nil_r. done.
Qed.

Lemma abort_save_ok k ok now m : m_ok m -> m_ok (abort_save k ok now m).
Proof.
  intros Hm. pose proof Hm as [Hc Hr Hw]. unfold abort_save. destruct (mg_aborting m !! k) as [e|] eqn:Hk; [| done].
  constructor; [| | done]; unfold waiting in *; cbn.
  - apply core_abort. eapply core_perm; [| exact Hc].
    rewrite !Permutation_middle. by repeat f_equiv; apply delete_Permutation.
  - intros Hf. destruct (Hr Hf) as (Hwait & Hrun & Hidle). apply app_eq_nil in Hwait as [Hq [Hcr Ha]%app_eq_nil].
    rewrite Ha in Hk. done.
Qed.

Lemma start_recover_ok ok now m : m_ok m -> m_ok (start_recover ok now m).
Proof.
  intros Hm. unfold start_recover. destruct (mg_start m); try done. destruct (mg_enqueue m); try done.
  by destruct (recover_ok ok now m Hm).
Qed.

Lemma start_dispatch_ok m : m_ok m -> m_ok (start_dispatch m).
Proof.
  intros Hm. unfold start_dispatch. destruct (mg_start m); try done. apply dispatch_ok. by destruct Hm.
Qed.

Lemma mstep_ok fresh m m' : mstep fresh m m' -> m_ok m -> m_ok m'.
Proof.
  intros Hs Hm. destruct Hs; eauto using enqueue_check_ok, enqueue_create_ok, enqueue_commit_ok, run_begin_ok,
    run_record_ok, run_invoke_ok, run_return_ok, run_save_ok, run_progress_ok, run_flush_ok,
    start_recover_ok, start_dispatch_ok, shutdown_ok, wait_close_ok, abort_save_ok.
  - unfold Register. destruct (String.eqb _ _); [done | by destruct Hm].
  - unfold run_release. destruct (mg_running m !! id); [| done]. case_bool_decide; [by apply release_ok | done].
  - unfold start_begin. destruct (_ || _); [done | by destruct Hm].
  - by destruct Hm.
Qed.

(** Anything true at the start and kept by every step of a well-formed state. *)
Lemma mreachable_ind fresh (P : manager -> Prop) :
  (forall db, P (new_manager db)) ->
  (forall m m', m_ok m -> P m -> mstep fresh m m' -> P m') ->
  forall m, mreachable fresh m -> m_ok m /\ P m.
Proof.
  intros H0 Hs m [db Hr]. revert m Hr. apply (rtc_ind_r (fun m => m_ok m /\ P m)).
  - split; [| done]. constructor; [constructor | |]; cbn; try done; try set_solver; try lia.
    apply NoDup_nil_2.
  - intros m m' _ Hstep [Hok HP]. split; [by eapply mstep_ok | by eapply Hs].
Qed.

Lemma mreachable_ok fresh m : mreachable fresh m -> m_ok m.
Proof. intros Hm. by destruct (mreachable_ind fresh (fun _ => True) ltac:(done) ltac:(done) m Hm). Qed.
End steps.
