(* ===== verification/CommandsFrame.v ===== *)
(** * What a critical section may change

    Three frames shared by the theorems on the command queue: the goroutine of a
    command changes its own entry and row ([run_frame]), dispatching only moves
    entries from the queue to the running ones, and every step but a new
    [Enqueue] leaves no more commands alive than before ([shrinks]). *)

From S2P Require Import Prelude GoStd Models Commands CommandsInv.
Local Open Scope string_scope.
Local Open Scope Z_scope.

(** ** The goroutine of a command *)

(** The step [e] to [e'] of the running command [id]. *)
Record run_frame (m m' : manager) (id : Z) (e e' : entry) (db' : gmap Z Command) : Prop := {
  rf_eq : m' = set_db db' (set_running (<[id:=e']> (mg_running m)) m);
  rf_running : mg_running m !! id = Some e;
  rf_id : ce_id e' = ce_id e;
  rf_h : ce_h e' = ce_h e;
  rf_canon : ce_canon e' = ce_canon e;
  rf_finished : ce_finished e = true -> ce_finished e' = true;
  rf_handler : ce_phase e' = PHandler -> ce_phase e = PHandler \/ mg_ctx_done m = false;
  rf_db : db' = mg_db m \/ (ce_phase e <> PSaved /\ exists ok, db' = save_command ok e (mg_db m));
}.

Definition run_step (m m' : manager) : Prop := m' = m \/ exists id e e' db', run_frame m m' id e e' db'.

Lemma on_running_frame id p f m :
  (forall e, mg_running m !! id = Some e -> ce_phase e = p ->
     ce_id (f e) = ce_id e /\ ce_h (f e) = ce_h e /\ ce_canon (f e) = ce_canon e /\
     (ce_finished e = true -> ce_finished (f e) = true) /\
     (ce_phase (f e) = PHandler -> ce_phase e = PHandler \/ mg_ctx_done m = false)) ->
  run_step m (on_running id p f m).
Proof.
  intros Hf. unfold on_running. destruct (mg_running m !! id) as [e|] eqn:E; [| by left].
  case_bool_decide as Hp; [| by left]. right. exists id, e, (f e), (mg_db m).
  destruct (Hf e eq_refl Hp) as (? & ? & ? & ? & ?). by constructor; try done; left.
Qed.

Lemma run_begin_frame id now m : run_step m (run_begin id now m).
Proof. apply on_running_frame. intros e _ _. by destruct (mg_ctx_done m). Qed.

Lemma run_invoke_frame id now m : run_step m (run_invoke id now m).
Proof.
  apply on_running_frame. intros e _ Hp. destruct (mg_ctx_done m); [| by split_and!; try done; right].
  destruct (complete_shape now true (inr "not started: context canceled") e) as (-> & -> & -> & -> & ->). done.
Qed.

Lemma run_return_frame id now res m : run_step m (run_return id now res m).
Proof.
  apply on_running_frame. intros e _ Hp.
  destruct (complete_shape now (mg_ctx_done m) res e) as (-> & -> & -> & -> & ->). done.
Qed.

Lemma run_record_frame id ok now why m : run_step m (run_record id ok now why m).
Proof.
  unfold run_record. destruct (mg_running m !! id) as [e|] eqn:E; [| by left].
  case_bool_decide as Hp; [| by left]. right. exists id, e. do 2 eexists.
  destruct (complete_shape now (mg_ctx_done m) (inr ("could not record the command start: " +:+ why)) (clean_entry e))
    as (H1 & H2 & H3 & H4 & H5).
  constructor; try done; try (by destruct ok).
  - destruct ok; [done | by rewrite H5].
  - right. split; [by rewrite Hp | by exists ok].
Qed.

Lemma run_save_frame id ok m : run_step m (run_save id ok m).
Proof.
  unfold run_save. destruct (mg_running m !! id) as [e|] eqn:E; [| by left].
  case_bool_decide as Hp; [| by left]. right. exists id, e. do 2 eexists.
  constructor; try done. right. split; [by rewrite Hp | by exists ok].
Qed.

Lemma run_progress_frame id msg m : run_step m (run_progress id msg m).
Proof.
  unfold run_progress. destruct (mg_running m !! id) as [e|] eqn:E; [| by left].
  destruct (progress_shape msg e) as (H1 & H2 & H3 & H4 & H5 & _).
  destruct (ce_phase e) eqn:Hp; try (by left); right; exists id, e, (progress_entry msg e), (mg_db m);
    constructor; rewrite ?H4, ?H5; try done; by left.
Qed.

Lemma run_flush_frame id ok m : m_ok m -> run_step m (run_flush id ok m).
Proof.
  intros Hm. unfold run_flush. destruct (mg_running m !! id) as [e|] eqn:E; [| by left].
  destruct (ce_finished e || negb (ce_dirty e)) eqn:Ef; [by left |]. right. exists id, e. do 2 eexists.
  constructor; try done; [by left |].
  right. split; [| by exists ok]. intros Hp.
  pose proof (core_running _ _ _ _ _ _ (ok_core _ Hm) id e E) as Hok. at_phase Hp Hok.
  apply orb_false_iff in Ef as [Ef _]. destruct Hok. congruence.
Qed.

(** ** Dispatching *)

Lemma foldl_insert_lookup s (r : gmap Z entry) id e :
  foldl (fun r e => <[ce_id e := e]> r) r s !! id = Some e -> e ∈ s \/ r !! id = Some e.
Proof.
  revert r. induction s as [|x s IH]; intros r Hl; simpl in Hl; [by right |].
  apply IH in Hl as [Hin|[[_ <-]|[_ Hr]]%lookup_insert_Some]; [left; set_solver | left; set_solver | by right].
Qed.

Record moved (m m' : manager) : Prop := {
  mv_queue : mg_queue m' ⊆ mg_queue m;
  mv_running : forall id e, mg_running m' !! id = Some e -> mg_running m !! id = Some e \/
    (e ∈ mg_queue m /\ may_dispatch m = true);
  mv_enqueue : mg_enqueue m' = mg_enqueue m;
  mv_start : mg_start m' = mg_start m;
  mv_db : mg_db m' = mg_db m;
  mv_workers : mg_workers m' = mg_workers m;
}.

Lemma dispatch_moved m : moved m (dispatchLocked m).
Proof.
  unfold dispatchLocked. destruct (may_dispatch m) eqn:Hmay; cbn [negb]; [| by constructor; try done; eauto].
  destruct (dispatch_queue _ _ _ _) as [[[k s] exb] shb] eqn:E. apply dispatch_Permutation in E.
  constructor; try done; cbn.
  - intros e He. rewrite <- E. set_solver.
  - intros id e [Hin|Hr]%foldl_insert_lookup; [right | by left]. split; [| done]. rewrite <- E. set_solver.
Qed.

(** Only full lanes keep commands waiting. *)
Definition lane_full (m : manager) (e : entry) : Prop :=
  if ce_exclusive e then mg_exclusive_busy m = true else (mg_workers m <= mg_shared_busy m)%nat.

Lemma dispatch_lanes m e : may_dispatch m = true -> e ∈ mg_queue (dispatchLocked m) -> lane_full (dispatchLocked m) e.
Proof.
  unfold dispatchLocked. intros ->. cbn [negb].
  destruct (dispatch_queue _ _ _ _) as [[[k s] exb] shb] eqn:E. apply dispatch_full in E as (_ & _ & Hk). apply Hk.
Qed.

Lemma dispatch_may m : may_dispatch (dispatchLocked m) = may_dispatch m.
Proof.
  unfold dispatchLocked. destruct (negb _); [done |]. by destruct (dispatch_queue _ _ _ _) as [[[? ?] ?] ?].
Qed.

(** [release] moves entries too. *)
Lemma release_moved id m : moved m (release id m).
Proof.
  unfold release. destruct (mg_running m !! id) as [e0|] eqn:E; [| by constructor; try done; eauto].
  match goal with |- moved _ (dispatchLocked ?x) => destruct (dispatch_moved x) as [Hq Hr He Hs Hd Hw] end.
  constructor; try done. intros i e Hi. cbn in Hr. destruct (Hr i e Hi) as [Hi'|[Hin Hmay]]; [| by right].
  apply lookup_delete_Some in Hi' as [_ ?]. by left.
Qed.

(** ** Identical commands *)

(** Commands that have not started, and commands that have not finished. *)
Definition pending (m : manager) : list entry := (mg_queue m ++ created (mg_enqueue m))%list.
Definition alive (m : manager) (e : entry) : Prop :=
  e ∈ pending m \/ exists id, mg_running m !! id = Some e /\ ce_finished e = false.

Record shrinks (m m' : manager) : Prop := {
  sh_pending : pending m' ⊆ pending m;
  sh_alive : forall e', alive m' e' -> exists e, alive m e /\ ce_id e = ce_id e' /\ ce_key e = ce_key e';
  sh_checked : forall h canon t, mg_enqueue m' = EqChecked h canon t -> mg_enqueue m = EqChecked h canon t;
}.

Lemma shrinks_same m m' :
  pending m' ⊆ pending m -> mg_running m' = mg_running m ->
  (forall h canon t, mg_enqueue m' = EqChecked h canon t -> mg_enqueue m = EqChecked h canon t) -> shrinks m m'.
Proof.
  intros Hp Hr Hc. constructor; [done | | done]. intros e' [Hin|Hin]; exists e'; split_and!; try done.
  - left. by apply Hp.
  - right. by rewrite <- Hr.
Qed.

Lemma shrinks_trans m1 m2 m3 : shrinks m1 m2 -> shrinks m2 m3 -> shrinks m1 m3.
Proof.
  intros [Hp Ha Hc] [Hp' Ha' Hc']. constructor; [by etrans | | by eauto].
  intros e (e2 & (e1 & ? & <- & <-)%Ha & <- & <-)%Ha'. eauto.
Qed.

Lemma moved_shrinks m m' : moved m m' -> shrinks m m'.
Proof.
  intros [Hq Hr He _ _ _]. assert (Hp : pending m' ⊆ pending m) by (unfold pending; rewrite He; set_solver).
  constructor; [done | | by rewrite He]. intros e' [Hin|(id & Hid & Hf)]; exists e'; split_and!; try done.
  - left. by apply Hp.
  - destruct (Hr id e' Hid) as [?|[Hin _]]; [right; eauto | left; set_solver].
Qed.

Lemma run_step_shrinks m m' : run_step m m' -> shrinks m m'.
Proof.
  intros [->|(id & e & e' & db' & [Heq Hrun Hid Hh Hc Hf _ _])]; [by apply shrinks_same |]. subst m'.
  constructor; try done. intros x [Hin|(i & Hi & Hfin)]; [exists x; split_and!; try done; by left |].
  cbn in Hi. apply lookup_insert_Some in Hi as [[<- <-]|[_ Hi]].
  - exists e. split_and!; [| done | unfold ce_key; by rewrite Hh, Hc].
    right. exists id. split; [done |]. destruct (ce_finished e); [by rewrite Hf in Hfin | done].
  - exists x. split_and!; try done. right. eauto.
Qed.

Section steps.
Context `{Unicode} (fresh : string -> Prop).

(** Every step that neither joins nor creates a command. *)
Lemma mstep_shrinks m m' : m_ok m -> mstep fresh m m' ->
  shrinks m m' \/ (exists rok now name canon trigger err join, mg_enqueue m = EqIdle /\
    (join = true \/ forall h, mg_handlers m !! handler_key name = Some h -> fresh (he_name h)) /\
    m' = fst (enqueue_check rok now name canon trigger err join m)) \/
  (exists ok id now, m' = enqueue_create ok id now m).
Proof.
  intros Hm Hs. destruct Hs as [name x|rok now name canon trigger err join Hi Hj|ok id now _| | | | | | |id| | | |ok now| | | | |];
    try (left; by auto using run_step_shrinks, run_begin_frame, run_record_frame, run_invoke_frame,
      run_return_frame, run_save_frame, run_progress_frame, run_flush_frame).
  - left. unfold Register. by destruct (String.eqb _ _); apply shrinks_same.
  - right. left. by exists rok, now, name, canon, trigger, err, join.
  - right. right. eauto.
  - left. unfold enqueue_commit. destruct (mg_enqueue m) as [|h c t|e] eqn:E; [by apply shrinks_same .. |].
    cbn zeta. destruct (_ || _).
    + apply shrinks_same; [unfold pending; cbn; set_solver | done | done].
    + eapply shrinks_trans; [| apply moved_shrinks, dispatch_moved].
      apply shrinks_same; [unfold pending; rewrite E; cbn; set_solver | done | done].
  - left. unfold run_release. destruct (mg_running m !! id); [| by apply shrinks_same].
    case_bool_decide; [apply moved_shrinks, release_moved | by apply shrinks_same].
  - left. unfold start_begin. by destruct (_ || _); apply shrinks_same.
  - left. unfold start_recover. destruct (recover_fields ok now m) as (_ & Hq & Hr & He & _).
    destruct (mg_start m); try by apply shrinks_same. destruct (mg_enqueue m) eqn:E; try by apply shrinks_same.
    apply shrinks_same; unfold pending; cbn; rewrite ?Hq, ?He, ?E; done.
  - left. unfold start_dispatch. destruct (mg_start m); try by apply shrinks_same.
    eapply shrinks_trans; [| apply moved_shrinks, dispatch_moved]. by apply shrinks_same.
  - left. unfold shutdown. destruct (mg_start m); try by apply shrinks_same.
    destruct (mg_ctx_done m); [| by apply shrinks_same].
    apply shrinks_same; [unfold pending; cbn; set_solver | done | done].
  - left. unfold wait_close. destruct (mg_started m); [by apply shrinks_same |].
    apply shrinks_same; [unfold pending; cbn; set_solver | done | done].
  - left. unfold abort_save. destruct (mg_aborting m !! _); by apply shrinks_same.
  - left. by apply shrinks_same.
Qed.

(** No two commands of one name and body wait; unless the name is fresh, none
    waits behind one that runs. The call that holds [enqMu] has checked. *)
Record dup_ok (m : manager) : Prop := {
  dup_pending : forall e1 e2, e1 ∈ pending m -> e2 ∈ pending m -> ce_key e1 = ce_key e2 -> ce_id e1 = ce_id e2;
  dup_alive : forall e1 e2, alive m e1 -> alive m e2 -> ce_key e1 = ce_key e2 -> ~ fresh (fst (ce_key e1)) ->
    ce_id e1 = ce_id e2;
  dup_checked : forall h canon t, mg_enqueue m = EqChecked h canon t ->
    (forall e, e ∈ pending m -> ce_key e <> (he_name h, canon)) /\
    (~ fresh (he_name h) -> forall e, alive m e -> ce_key e <> (he_name h, canon));
}.

Lemma dup_shrinks m m' : dup_ok m -> shrinks m m' -> dup_ok m'.
Proof.
  intros [Hp Ha Hc] [Hp' Ha' Hc']. constructor.
  - auto.
  - intros e1 e2 (x1 & H1 & <- & <-)%Ha' (x2 & H2 & <- & <-)%Ha'. by apply Ha.
  - intros h canon t (Hq & Hl)%Hc'%Hc. split; [auto |].
    intros Hf e (x & Hx & _ & <-)%Ha'. auto.
Qed.

Lemma find_none_key key l : find (is_duplicate key) l = None ->
  forall e, e ∈ l -> ce_finished e = false -> ce_key e <> key.
Proof.
  intros Hn e Hin%list_elem_of_In Hf Hk. pose proof (find_none _ _ Hn e Hin) as Hd.
  unfold is_duplicate in Hd. by rewrite bool_decide_eq_true_2, Hf in Hd.
Qed.

Lemma dup_check rok now name canon trigger err join m :
  m_ok m -> mg_enqueue m = EqIdle ->
  (join = true \/ forall h, mg_handlers m !! handler_key name = Some h -> fresh (he_name h)) ->
  dup_ok m -> dup_ok (fst (enqueue_check rok now name canon trigger err join m)).
Proof.
  intros Hm Hidle Hj Hd. unfold enqueue_check.
  destruct (mg_handlers m !! _) as [h|] eqn:Eh; [| done]. destruct canon as [canon|]; [| done]. destruct err; [done |].
  pose proof (recover_ok rok now m Hm) as Hok. destruct (recover_fields rok now m) as (_ & Hq & Hr & He & _).
  assert (Hd' : dup_ok (recoverOrphansLocked rok now m)).
  { apply (dup_shrinks m); [done |]. apply shrinks_same; unfold pending; rewrite ?Hq, ?He; done. }
  rewrite Hidle in He. clear Hq Hr Hm Hidle Hd. revert Hok He Hd'. generalize (recoverOrphansLocked rok now m).
  intros m' Hok He [Hp Ha Hc]. destruct (mg_stopping m' || mg_closed m'); [done |].
  destruct (findDuplicateLocked _ _ _) as [x|] eqn:Ef; [done |].
  assert (Hpend : pending m' = mg_queue m') by (unfold pending; rewrite He; apply app_nil_r).
  assert (Hqueue : forall e, e ∈ mg_queue m' -> ce_key e <> (he_name h, canon)).
  { intros e Hin. apply (find_none_key _ (mg_queue m')); [| done |].
    - unfold findDuplicateLocked in Ef. destruct (find _ (map snd _)), join; congruence.
    - destruct (core_waiting _ _ _ _ _ _ (ok_core _ Hok) e) as [Hph Heok]; [unfold waiting; set_solver |].
      at_phase Hph Heok. tauto. }
  constructor.
  - intros e1 e2. change (pending (fst _)) with (mg_queue m' ++ [])%list. rewrite app_nil_r. rewrite Hpend in Hp. apply Hp.
  - intros e1 e2 H1 H2. apply Ha; [destruct H1 as [H1|H1] | destruct H2 as [H2|H2]]; unfold alive; rewrite Hpend;
      first [by right | left; cbn in *; set_solver].
  - cbn. intros h0 canon0 t0 [= <- <- <-]. split.
    + intros e. change (pending _) with (mg_queue m' ++ [])%list. rewrite app_nil_r. apply Hqueue.
    + intros Hnf e [Hin|(id & Hid & Hf)].
      * change (pending _) with (mg_queue m' ++ [])%list in Hin. rewrite app_nil_r in Hin. by apply Hqueue.
      * destruct Hj as [-> | Hj]; [| by destruct Hnf; apply Hj].
        apply (find_none_key _ (map snd (map_to_list (mg_running m')))); [| | done].
        -- unfold findDuplicateLocked in Ef. by destruct (find _ (map snd _)).
        -- apply list_elem_of_fmap. exists (id, e). split; [done | by apply elem_of_map_to_list].
Qed.

Lemma dup_create ok id now m : dup_ok m -> dup_ok (enqueue_create ok id now m).
Proof.
  intros Hd. unfold enqueue_create. destruct (mg_enqueue m) as [|h canon t|e0] eqn:En; [done | | done].
  destruct ok.
  - set (e0 := {| ce_h := h; ce_canon := canon; ce_cmd := _; ce_finished := false; ce_dirty := false; ce_phase := PWaiting |}).
    destruct Hd as [Hp Ha Hc]. destruct (Hc h canon t En) as [Hcp Hca].
    assert (Hpend : pending m = mg_queue m) by (unfold pending; rewrite En; apply app_nil_r).
    assert (Hnew : forall e, e ∈ (mg_queue m ++ [e0])%list -> e ∈ pending m \/ e = e0) by (rewrite Hpend; set_solver).
    assert (Hk : ce_key e0 = (he_name h, canon)) by done.
    constructor; [| | done].
    + intros e1 e2 [H1| ->]%Hnew [H2| ->]%Hnew Hkey; auto; exfalso.
      * apply (Hcp e1); congruence.
      * apply (Hcp e2); congruence.
    + assert (Hal : forall e, alive (set_enqueue (EqCreated e0) (set_db (<[id:=ce_cmd e0]> (mg_db m)) m)) e ->
        alive m e \/ e = e0).
      { intros e [[Hin| ->]%Hnew|Hr]; [left; by left | by right | left; by right]. }
      intros e1 e2 [H1| ->]%Hal [H2| ->]%Hal Hkey Hnf; auto; exfalso.
      * apply (Hca ltac:(rewrite Hkey in Hnf; exact Hnf) e1); congruence.
      * apply (Hca Hnf e2); congruence.
  - apply (dup_shrinks m); [done |]. apply shrinks_same; [| done | done].
    unfold pending. cbn. set_solver.
Qed.

Lemma mreachable_dup m : mreachable fresh m -> m_ok m /\ dup_ok m.
Proof.
  apply mreachable_ind.
  - intros db. constructor; unfold alive, pending; cbn; try done; set_solver.
  - intros m1 m2 Hm Hd Hs. destruct (mstep_shrinks m1 m2 Hm Hs) as [?|[(? & ? & ? & ? & ? & ? & ? & ? & ? & ->)|(? & ? & ? & ->)]].
    + by eapply dup_shrinks.
    + by apply dup_check.
    + by apply dup_create.
Qed.
End steps.
