(* ===== verification/CommandTheorems.v ===== *)
(** * The command queue: theorems

    For every interleaving of the manager's critical sections, whatever the
    handlers return and whichever database writes fail: how many commands run,
    which are joined, which wait, when a handler may start, what the table keeps
    of an outcome, and that a finished goroutine frees its lane; then when a
    scheduled task runs again. *)

From S2P Require Import Prelude GoStd Models Commands CommandsInv CommandsFrame Fixtures.
Local Open Scope string_scope.
Local Open Scope Z_scope.

(** ** Waiting commands *)

Definition wc_ok (m : manager) : Prop :=
  mg_start m = SLoop -> may_dispatch m = true -> forall e, e ∈ mg_queue m -> lane_full m e.

Lemma wc_same m m' :
  wc_ok m -> mg_start m' = mg_start m -> may_dispatch m' = may_dispatch m -> mg_queue m' = mg_queue m ->
  mg_exclusive_busy m' = mg_exclusive_busy m -> mg_shared_busy m' = mg_shared_busy m ->
  mg_workers m' = mg_workers m -> wc_ok m'.
Proof. unfold wc_ok, lane_full. intros Hwc -> -> -> -> -> ->. exact Hwc. Qed.

Lemma wc_dispatch m : wc_ok (dispatchLocked m).
Proof. intros _ Hmay e. rewrite dispatch_may in Hmay. by apply dispatch_lanes. Qed.

Lemma wc_not_loop m : mg_start m <> SLoop -> wc_ok m.
Proof. intros Hn Hs. done. Qed.

Lemma wc_idle m : mg_queue m = [] -> wc_ok m.
Proof. intros Hq _ _ e. rewrite Hq. by intros ?%elem_of_nil. Qed.

Lemma wc_run_step m m' : run_step m m' -> wc_ok m -> wc_ok m'.
Proof. intros [->|(? & ? & ? & ? & [-> _ _ _ _ _ _ _])] Hwc; [done | by apply (wc_same m)]. Qed.

Section steps.
Context `{Unicode} (fresh : string -> Prop).

Lemma wc_recover ok now m : wc_ok m -> wc_ok (recoverOrphansLocked ok now m).
Proof.
  intros Hwc. destruct (recover_fields ok now m) as (_ & ? & _ & _ & ? & _ & ? & ? & ? & ? & _).
  by apply (wc_same m).
Qed.

Lemma wc_step m m' : m_ok m -> wc_ok m -> mstep fresh m m' -> wc_ok m'.
Proof.
  intros Hm Hwc Hs. destruct Hs as [name x|rok now name canon trigger err join _ _|ok id now _| | | | | | |id| | | |ok now| | | | |];
    try (by eauto using wc_run_step, run_begin_frame, run_record_frame, run_invoke_frame,
      run_return_frame, run_save_frame, run_progress_frame, run_flush_frame).
  - unfold Register. destruct (String.eqb _ _); [done | by apply (wc_same m)].
  - unfold enqueue_check. destruct (mg_handlers m !! _); [| done]. destruct canon; [| done]. destruct err; [done |].
    pose proof (wc_recover rok now m Hwc) as Hw. destruct (_ || _); [done |].
    destruct (findDuplicateLocked _ _ _); [done |]. by eapply wc_same.
  - unfold enqueue_create. destruct (mg_enqueue m), ok; by apply (wc_same m).
  - unfold enqueue_commit. destruct (mg_enqueue m) as [| |e]; [exact Hwc .. |]. cbn zeta.
    destruct (_ || _); [by apply (wc_same m) | apply wc_dispatch].
  - unfold run_release. destruct (mg_running m !! id) as [e|] eqn:Hid; [| done]. case_bool_decide; [| done].
    unfold release. rewrite Hid. apply wc_dispatch.
  - unfold start_begin. destruct (_ || _); [done |]. by apply wc_not_loop.
  - unfold start_recover. destruct (mg_start m), (mg_enqueue m); done.
  - unfold start_dispatch. destruct (mg_start m); try done. apply wc_dispatch.
  - unfold shutdown. destruct (mg_start m); try done. destruct (mg_ctx_done m); [by apply wc_idle | done].
  - unfold wait_close. destruct (mg_started m); [by apply (wc_same m) | by apply wc_idle].
  - unfold abort_save. destruct (mg_aborting m !! _); [by apply (wc_same m) | done].
  - intros _ Hmay. unfold may_dispatch in Hmay. cbn in Hmay. by rewrite andb_false_r in Hmay.
Qed.

(** ** Starting handlers *)

(** A dispatched entry has not called its handler. *)
Lemma moved_from m m' id e' : m_ok m -> moved m m' -> mg_running m' !! id = Some e' -> ce_phase e' = PHandler ->
  exists e, mg_running m !! id = Some e /\ ce_phase e = PHandler.
Proof.
  intros Hm [_ Hr _ _ _ _] Hid Hp. destruct (Hr id e' Hid) as [?|[Hin _]]; [eauto |].
  destruct (core_waiting _ _ _ _ _ _ (ok_core _ Hm) e') as [Hw _]; [unfold waiting; set_solver | congruence].
Qed.

Definition handler_from (m m' : manager) : Prop := forall id e', mg_running m' !! id = Some e' -> ce_phase e' = PHandler ->
  (exists e, mg_running m !! id = Some e /\ ce_phase e = PHandler) \/ mg_ctx_done m = false.

Lemma from_same m m' : mg_running m' = mg_running m -> handler_from m m'.
Proof. intros Hr id e' Hid Hp. rewrite Hr in Hid. left. eauto. Qed.

Lemma from_run_step m m' : run_step m m' -> handler_from m m'.
Proof.
  intros [->|(i & e & x & db & [-> Hrun _ _ _ _ Hh _])]; [by apply from_same |]. intros id e' Hid Hp. cbn in Hid.
  apply lookup_insert_Some in Hid as [[<- <-]|[_ Hid]]; [| left; eauto].
  destruct (Hh Hp); [left; eauto | by right].
Qed.

Lemma from_moved m m0 m' : m_ok m0 -> mg_running m0 = mg_running m -> moved m0 m' -> handler_from m m'.
Proof. intros Hm0 Hr Hmv id e' Hid Hp. rewrite <- Hr. left. by eapply (moved_from m0). Qed.

Lemma mstep_handler m m' : m_ok m -> mstep fresh m m' -> handler_from m m'.
Proof.
  intros Hm Hs. pose proof (mstep_ok fresh m m' Hs Hm) as Hm'.
  destruct Hs as [name x|rok now name canon trigger err join _ _|ok id now _| | | | | | |id| | | |ok now| | | | |];
    try (by eauto using from_run_step, run_begin_frame, run_record_frame, run_invoke_frame,
      run_return_frame, run_save_frame, run_progress_frame, run_flush_frame).
  - apply from_same. unfold Register. by destruct (String.eqb _ _).
  - apply from_same. unfold enqueue_check. destruct (mg_handlers m !! _); [| done]. destruct canon; [| done].
    destruct err; [done |]. destruct (recover_fields rok now m) as (_ & _ & <- & _).
    destruct (_ || _); [done |]. by destruct (findDuplicateLocked _ _ _).
  - apply from_same. unfold enqueue_create. by destruct (mg_enqueue m), ok.
  - intros id e' Hid Hp. left. clear Hm'. revert Hid. unfold enqueue_commit.
    destruct (mg_enqueue m) as [| |x] eqn:En; [eauto .. |]. cbn zeta. destruct (_ || _); [eauto |]. intros Hid.
    destruct (mv_running _ _ (dispatch_moved _) id e' Hid) as [Hr|[Hin _]]; [eauto |]. exfalso. cbn in Hin.
    destruct (core_waiting _ _ _ _ _ _ (ok_core _ Hm) e') as [Hw _]; [| congruence].
    unfold waiting. rewrite En. cbn. set_solver.
  - unfold run_release. destruct (mg_running m !! id); [| by apply from_same].
    case_bool_decide; [apply (from_moved m m); by auto using release_moved | by apply from_same].
  - apply from_same. unfold start_begin. by destruct (_ || _).
  - apply from_same. unfold start_recover. destruct (recover_fields ok now m) as (_ & _ & Hr & _).
    by destruct (mg_start m), (mg_enqueue m).
  - unfold start_dispatch. destruct (mg_start m); try by apply from_same.
    apply (from_moved m (set_start SLoop m)); [by destruct Hm | done | apply dispatch_moved].
  - apply from_same. unfold shutdown. by destruct (mg_start m), (mg_ctx_done m).
  - apply from_same. unfold wait_close. by destruct (mg_started m).
  - apply from_same. unfold abort_save. by destruct (mg_aborting m !! _).
  - by apply from_same.
Qed.

(** ** Recorded outcomes *)

Definition keeps_outcomes (db db' : gmap Z Command) : Prop := forall id c,
  db !! id = Some c -> unfinished_status (cm_status c) = false -> db' !! id = Some c.

Lemma keeps_refl db : keeps_outcomes db db.
Proof. by intros ?. Qed.

(** Only rows of commands that have not finished are written. *)
Lemma keeps_save ok e db :
  (row_status db (ce_id e) = Some CommandQueued \/ row_status db (ce_id e) = Some CommandStarted) ->
  keeps_outcomes db (save_command ok e db).
Proof.
  intros Hrow id c Hid Hf. destruct ok; [| done]. simpl. rewrite lookup_insert_ne; [done |]. intros <-.
  unfold row_status in Hrow. rewrite Hid in Hrow. destruct Hrow as [[= E]|[= E]]; by rewrite E in Hf.
Qed.

Lemma keeps_recover ok now m : keeps_outcomes (mg_db m) (mg_db (recoverOrphansLocked ok now m)).
Proof.
  unfold recoverOrphansLocked. destruct (mg_recovered m); [apply keeps_refl |]. cbn.
  destruct ok; [| apply keeps_refl]. intros id c Hid Hf. unfold FailRunning. by rewrite lookup_fmap, Hid; cbn; rewrite Hf.
Qed.

Lemma keeps_run_step m m' : m_ok m -> run_step m m' -> keeps_outcomes (mg_db m) (mg_db m').
Proof.
  intros Hm [->|(id & e & e' & db & [-> Hrun _ _ _ _ _ Hdb])]; [apply keeps_refl |]. cbn.
  destruct Hdb as [->|[Hp [ok ->]]]; [apply keeps_refl |]. apply keeps_save.
  pose proof (core_running _ _ _ _ _ _ (ok_core _ Hm) id e Hrun) as Hok. unfold entry_ok in Hok.
  destruct (ce_phase e); naive_solver.
Qed.

Lemma keeps_moved m m' : moved m m' -> keeps_outcomes (mg_db m) (mg_db m').
Proof. intros [_ _ _ _ -> _]. apply keeps_refl. Qed.

Lemma mstep_keeps m m' : m_ok m -> mstep fresh m m' -> keeps_outcomes (mg_db m) (mg_db m').
Proof.
  intros Hm Hs. destruct Hs as [name x|rok now name canon trigger err join _ _|ok id now Hn| | | | | | |id| | | |ok now| | | |k ok now|];
    try (by eauto using keeps_run_step, run_begin_frame, run_record_frame, run_invoke_frame,
      run_return_frame, run_save_frame, run_progress_frame, run_flush_frame); try apply keeps_refl.
  - unfold Register. destruct (String.eqb _ _); apply keeps_refl.
  - unfold enqueue_check. destruct (mg_handlers m !! _); [| apply keeps_refl].
    destruct canon; [| apply keeps_refl]. destruct err; [apply keeps_refl |].
    destruct (_ || _); [apply keeps_recover |]. destruct (findDuplicateLocked _ _ _); apply keeps_recover.
  - unfold enqueue_create. destruct (mg_enqueue m), ok; try apply keeps_refl. cbn.
    intros i c Hi _. rewrite lookup_insert_ne; [done | congruence].
  - unfold enqueue_commit. destruct (mg_enqueue m); try apply keeps_refl. cbn zeta.
    destruct (_ || _); [| rewrite (mv_db _ _ (dispatch_moved _))]; apply keeps_refl.
  - unfold run_release. destruct (mg_running m !! id); [| apply keeps_refl].
    case_bool_decide; [apply keeps_moved, release_moved | apply keeps_refl].
  - unfold start_begin. destruct (_ || _); apply keeps_refl.
  - unfold start_recover. destruct (mg_start m), (mg_enqueue m); try apply keeps_refl. apply keeps_recover.
  - unfold start_dispatch. destruct (mg_start m); try apply keeps_refl.
    rewrite (mv_db _ _ (dispatch_moved _)). apply keeps_refl.
  - unfold shutdown. destruct (mg_start m), (mg_ctx_done m); apply keeps_refl.
  - unfold wait_close. destruct (mg_started m); apply keeps_refl.
  - unfold abort_save. destruct (mg_aborting m !! k) as [e|] eqn:Hk; [| apply keeps_refl]. cbn.
    destruct ok; [| apply keeps_refl]. apply (keeps_save true (abort_entry now e)).
    apply list_elem_of_lookup_2 in Hk.
    destruct (core_waiting _ _ _ _ _ _ (ok_core _ Hm) e) as [Hp Hok]; [unfold waiting; set_solver |].
    at_phase Hp Hok. left. tauto.
Qed.
End steps.

(** ** A goroutine from start to end *)

Definition at_phases (m : manager) (id : Z) (ps : list phase) : Prop :=
  exists e, mg_running m !! id = Some e /\ ce_phase e ∈ ps.

Lemma on_running_at id p f m ps qs :
  at_phases m id ps -> (forall e, ce_phase e = p -> ce_phase (f e) ∈ qs) -> (forall q, q ∈ ps -> q <> p -> q ∈ qs) ->
  at_phases (on_running id p f m) id qs.
Proof.
  intros (e & Hid & Hp) Hf Hq. unfold on_running. rewrite Hid. case_bool_decide as E.
  - exists (f e). split; [by apply lookup_insert_eq | by apply Hf].
  - exists e. split; [done | by apply Hq].
Qed.

Lemma run_record_at id ok now why m :
  at_phases m id [PStarting; PFinished] -> at_phases (run_record id ok now why m) id [PReady; PFinished].
Proof.
  intros (e & Hid & Hp). unfold run_record. rewrite Hid. case_bool_decide as E.
  - eexists. split; [by apply lookup_insert_eq |].
    destruct (complete_shape now (mg_ctx_done m) (inr ("could not record the command start: " +:+ why)) (clean_entry e))
      as (_ & _ & _ & _ & Hp'). destruct ok; [| rewrite Hp']; set_solver.
  - exists e. split; [done |]. set_solver.
Qed.

Lemma run_finishes id t1 t2 t3 t4 start_ok why res m :
  at_phases m id [PWaiting] ->
  at_phases (run_return id t4 res (run_invoke id t3 (run_record id start_ok t2 why (run_begin id t1 m)))) id [PFinished].
Proof.
  intros Hw. assert (H1 : at_phases (run_begin id t1 m) id [PStarting; PFinished]).
  { apply (on_running_at _ _ _ _ _ _ Hw); [| set_solver]. intros e _. destruct (mg_ctx_done m); set_solver. }
  apply (run_record_at _ start_ok t2 why) in H1. revert H1. generalize (run_record id start_ok t2 why (run_begin id t1 m)).
  intros m1 H1. assert (H2 : at_phases (run_invoke id t3 m1) id [PHandler; PFinished]).
  { apply (on_running_at _ _ _ _ _ _ H1); [| set_solver]. intros e _. destruct (mg_ctx_done m1); set_solver. }
  apply (on_running_at _ _ _ _ _ _ H2); [| set_solver]. intros e _.
  destruct (complete_shape t4 (mg_ctx_done (run_invoke id t3 m1)) res e) as (_ & _ & _ & _ & ->). set_solver.
Qed.

(** Once released a command is no longer in memory. *)
Lemma release_gone id m : m_ok m -> mg_running (release id m) !! id = None.
Proof.
  intros Hm. unfold release. destruct (mg_running m !! id) as [e|] eqn:Hid; [| done].
  match goal with |- mg_running (dispatchLocked ?x) !! id = None => set (m0 := x) end.
  destruct (mg_running (dispatchLocked m0) !! id) as [x|] eqn:E; [exfalso | done].
  pose proof (release_ok id m Hm) as Hr. unfold release in Hr. rewrite Hid in Hr. fold m0 in Hr.
  pose proof (core_ids _ _ _ _ _ _ (ok_core _ Hr) id x E) as Hx.
  destruct (mv_running _ _ (dispatch_moved m0) id x E) as [Hd|[Hin _]].
  - cbn in Hd. by apply lookup_delete_Some in Hd as [? _].
  - cbn in Hin. pose proof (core_apart _ _ _ _ _ _ (ok_core _ Hm) x) as Ha. rewrite Hx, Hid in Ha.
    ospecialize (Ha _); [unfold waiting; set_solver | done].
Qed.


(** ** Sample states *)

Definition sample_fresh (name : string) : Prop := name = "CheckHealth".
Definition sample_enqueue (id : Z) (canon : string) (m : manager) : manager :=
  enqueue_commit (enqueue_create true id 1 (fst (enqueue_check true 1 "scanlibraries" (Some canon) "" false true m))).
(** A scan is dispatched, and a second scan waits behind it. *)
Definition sample_queued : manager :=
  sample_enqueue 2 "{2}" (sample_enqueue 1 "{1}" (start_dispatch (start_recover true 0 (start_begin 0
    (Register "ScanLibraries" true (new_manager ∅)))))).
(** The start of the first one is recorded. *)
Definition sample_ready : manager := run_record 1 true 3 "" (run_begin 1 2 sample_queued).
Definition sample_ended : manager := run_save 1 true (run_return 1 5 (inl "3 groups") (run_invoke 1 4 sample_ready)).

Lemma sample_enqueue_steps id canon m :
  mg_enqueue m = EqIdle ->
  mg_db (fst (enqueue_check true 1 "scanlibraries" (Some canon) "" false true m)) !! id = None ->
  mreachable sample_fresh m -> mreachable sample_fresh (sample_enqueue id canon m).
Proof.
  intros Hi Hn' [db Hr]. exists db. unfold sample_enqueue.
  eapply rtc_r; [| apply step_enqueue_commit]. eapply rtc_r; [| apply step_enqueue_create; exact Hn'].
  eapply rtc_r; [exact Hr |]. apply step_enqueue_check; [done | by left].
Qed.

Lemma sample_queued_reachable : mreachable sample_fresh sample_queued.
Proof.
  unfold sample_queued. do 2 (apply sample_enqueue_steps; [vm_compute; reflexivity .. |]).
  exists ∅. eapply rtc_r; [| apply step_start_dispatch]. eapply rtc_r; [| apply step_start_recover].
  eapply rtc_r; [| apply step_start_begin]. apply rtc_once. apply step_register.
Qed.

Lemma sample_ready_reachable : mreachable sample_fresh sample_ready.
Proof.
  destruct sample_queued_reachable as [db Hr]. exists db. unfold sample_ready.
  eapply rtc_r; [| apply step_run_record]. eapply rtc_r; [exact Hr | apply step_run_begin].
Qed.

Lemma sample_ended_reachable : mreachable sample_fresh sample_ended.
Proof.
  destruct sample_ready_reachable as [db Hr]. exists db. unfold sample_ended.
  eapply rtc_r; [| apply step_run_save]. eapply rtc_r; [| apply step_run_return].
  eapply rtc_r; [exact Hr | apply step_run_invoke].
Qed.

(** ** Theorems *)

Section theorems.
Context `{Unicode}.

(** C36: in every state the process can reach at most one exclusive command is
    running, whatever its name, and at most three others: deletion runs, scans
    and backups never overlap. *)
Theorem lanes_bounded fresh m :
  mreachable fresh m ->
  (lane_count true (mg_running m) <= 1)%nat /\ (lane_count false (mg_running m) <= Workers)%nat.
Proof.
  intros Hm%mreachable_ok. destruct Hm as [[] _ Hw]. rewrite <- core_exclusive, <- core_shared.
  split; [unfold one_if; destruct (mg_exclusive_busy m) | rewrite <- Hw]; lia.
Qed.

Lemma nodup_by_id {A} (l : list entry) (f : entry -> A) :
  NoDup (map ce_id l) -> (forall x y, x ∈ l -> y ∈ l -> f x = f y -> ce_id x = ce_id y) -> NoDup (map f l).
Proof.
  induction l as [|a l IH]; intros Hn Hf; [apply NoDup_nil_2 |]. simpl in *.
  apply NoDup_cons in Hn as [Ha Hn]. apply NoDup_cons. split.
  - intros (x & E & Hin)%list_elem_of_fmap. apply Ha. apply list_elem_of_fmap. exists x. split; [| done].
    symmetry. apply Hf; [set_solver .. | done].
  - apply IH; [done |]. intros x y Hx Hy. apply Hf; set_solver.
Qed.

(** Two commands with the same name and body never wait together; unless
    some caller asks for fresh runs of that name, none waits or runs while an
    unfinished one exists: a double click queues one deletion run. *)
Theorem identical_commands_joined fresh m :
  mreachable fresh m ->
  NoDup (map ce_key (mg_queue m)) /\
  forall e1 e2, alive m e1 -> alive m e2 -> ce_key e1 = ce_key e2 -> ~ fresh (fst (ce_key e1)) -> ce_id e1 = ce_id e2.
Proof.
  intros [Hm Hd]%mreachable_dup. split; [| apply Hd]. apply nodup_by_id.
  - pose proof (core_nodup _ _ _ _ _ _ (ok_core _ Hm)) as Hn. unfold waiting in Hn.
    rewrite map_app in Hn. apply NoDup_app in Hn as [Hn _]. exact Hn.
  - intros x y Hx Hy. apply (dup_pending _ _ Hd); unfold pending; set_solver.
Qed.

(** While the manager runs, a command waits only for a full lane: an
    exclusive one for the exclusive command that runs, another for three that do. *)
Theorem waits_only_for_full_lane fresh m e :
  mreachable fresh m -> mg_start m = SLoop -> may_dispatch m = true -> e ∈ mg_queue m ->
  if ce_exclusive e then lane_count true (mg_running m) = 1%nat else lane_count false (mg_running m) = Workers.
Proof.
  intros Hm Hs Hmay He. assert (Hboth : m_ok m /\ wc_ok m).
  { revert Hm. apply mreachable_ind; [by intros db | by intros; eapply wc_step]. }
  destruct Hboth as [[[] _ Hw] Hwc]. specialize (Hwc Hs Hmay e He). unfold lane_full in Hwc.
  rewrite <- core_exclusive, <- core_shared. destruct (ce_exclusive e); [by rewrite Hwc | lia].
Qed.

(** A handler runs only with its start recorded, and is called only while
    the manager's context is not done: what a crash interrupts is in the table,
    and no deletion begins during a shutdown. *)
Theorem handler_start_recorded fresh m m' id e' :
  mreachable fresh m -> mstep fresh m m' -> mg_running m' !! id = Some e' -> ce_phase e' = PHandler ->
  row_status (mg_db m') id = Some CommandStarted /\
  ((exists e, mg_running m !! id = Some e /\ ce_phase e = PHandler) \/ mg_ctx_done m = false).
Proof.
  intros Hm%mreachable_ok Hs Hid Hp. split; [| by eapply mstep_handler].
  pose proof (mstep_ok fresh m m' Hs Hm) as Hm'.
  pose proof (core_running _ _ _ _ _ _ (ok_core _ Hm') id e' Hid) as Hok. at_phase Hp Hok.
  destruct Hok as (_ & Hrow & _). by rewrite (core_ids _ _ _ _ _ _ (ok_core _ Hm') id e' Hid) in Hrow.
Qed.

(** The recorded outcome of a command is never overwritten: not by a late
    progress message, not by the recovery of a previous process' commands. *)
Theorem outcome_kept fresh m m' id c :
  mreachable fresh m -> mstep fresh m m' ->
  mg_db m !! id = Some c -> unfinished_status (cm_status c) = false -> mg_db m' !! id = Some c.
Proof. intros Hm%mreachable_ok Hs. by apply (mstep_keeps fresh m m'). Qed.

(** C37: whatever its handler returns and whichever writes fail, a command that
    runs to the end uninterrupted (its goroutine's steps as one, nothing else in
    between) leaves its lane: it is no longer running, the lane it held is counted
    free again (the exclusive lane is busy exactly when an exclusive command is
    running, the shared count is the number of the others), a command still waiting
    then faces a full lane, unless the manager is stopping, and the last write of the
    command records an outcome. *)
Theorem run_frees_lane fresh m id e t1 t2 t3 t4 start_ok save_ok why res :
  mreachable fresh m -> mg_running m !! id = Some e -> ce_phase e = PWaiting ->
  let m' := run id t1 t2 t3 t4 start_ok save_ok why res m in
  mg_running m' !! id = None /\
  one_if (mg_exclusive_busy m') = lane_count true (mg_running m') /\
  mg_shared_busy m' = lane_count false (mg_running m') /\
  (may_dispatch m' = true -> forall w, w ∈ mg_queue m' -> lane_full m' w) /\
  (save_ok = true -> exists s, row_status (mg_db m') id = Some s /\ unfinished_status s = false).
Proof.
  intros Hm%mreachable_ok Hid Hp. unfold run.
  destruct (run_finishes id t1 t2 t3 t4 start_ok why res m) as (x & Hx & Hpx); [exists e; set_solver |].
  pose proof (run_return_ok id t4 res _ (run_invoke_ok id t3 _ (run_record_ok id start_ok t2 why _ (run_begin_ok id t1 m Hm)))) as Hok.
  revert x Hx Hpx Hok. generalize (run_return id t4 res (run_invoke id t3 (run_record id start_ok t2 why (run_begin id t1 m)))).
  intros m1 x Hx Hpx%list_elem_of_singleton Hok. pose proof (run_save_ok id save_ok m1 Hok) as Hok'.
  destruct (ok_core _ (mstep_ok fresh _ _ (step_run_release fresh _ id) Hok')) as [_ _ _ _ _ Hex Hsh _].
  pose proof (core_running _ _ _ _ _ _ (ok_core _ Hok) id x Hx) as Hxok. at_phase Hpx Hxok. destruct Hxok as (_ & Hfin & _).
  unfold run_release in *. unfold run_save in *. rewrite Hx in *. rewrite bool_decide_eq_true_2 in * by done.
  cbn [set_db set_running set_lanes mg_running] in *. rewrite lookup_insert_eq in *. cbn [set_phase ce_phase] in *.
  rewrite bool_decide_eq_true_2 in * by done. split_and!; [by apply release_gone | done | done | |].
  - unfold release. cbn [mg_running set_db set_running set_lanes]. rewrite lookup_insert_eq. intros Hmay w.
    rewrite dispatch_may in Hmay. by apply dispatch_lanes.
  - intros ->. exists (cm_status (ce_cmd x)). split; [| done].
    rewrite (mv_db _ _ (release_moved _ _)). rewrite <- (core_ids _ _ _ _ _ _ (ok_core _ Hok) id x Hx) at 2.
    apply row_save_ok.
Qed.
End theorems.

(** A task the schedule knows, with its interval set. *)
Lemma set_schedule_id t : set_schedule (tk_interval t) (tk_last_execution t) (tk_next_execution t) t = t.
Proof. by destruct t. Qed.

Lemma next_kept t interval now t' next changed :
  nextExecution t interval now = (t', next, changed) -> tk_interval t' = tk_interval t /\ tk_next_execution t' = next.
Proof.
  unfold nextExecution. destruct (interval <=? 0); [destruct (tk_next_execution t) eqn:E |];
    by intros [= <- <- <-].
Qed.

Lemma intervalOf_pos i : 0 < i -> intervalOf i = i.
Proof. unfold intervalOf. lia. Qed.

(** After a check, an enabled task has a next run at most one interval
    away; further checks and restarts never move or rewrite it, and queue the
    task exactly from that time on, outside the startup grace. *)
Theorem schedule_never_postponed t configured boot now :
  0 < configured <= 153722867 ->
  let t' := fst (fst (check_task t configured boot now)) in
  exists next, tk_next_execution t' = Some next /\ next <= now + minutes configured /\
  forall later boot', now <= later ->
    check_task t' configured boot' later = (t', false, (next <=? later) && (boot' <=? later)).
Proof.
  intros Hc. unfold check_task. rewrite intervalOf_pos by lia.
  set (t0 := set_schedule configured (tk_last_execution t) (tk_next_execution t) t).
  destruct (nextExecution_bound t0 configured now Hc) as (next & Hn & Hle).
  destruct (nextExecution t0 configured now) as [[t' n] changed] eqn:E. simpl in Hn. subst n. simpl.
  destruct (next_kept _ _ _ _ _ _ E) as [Hi Hnext]. exists next. split_and!; [done | done |].
  intros later boot' Hl. change (tk_interval t0) with configured in Hi.
  assert (Hid : set_schedule configured (tk_last_execution t') (tk_next_execution t') t' = t')
    by (rewrite <- Hi; apply set_schedule_id).
  rewrite Hid, Hi, Z.eqb_refl, (nextExecution_again t0 configured now later t' (Some next) changed) by done.
  simpl. f_equal. unfold time_after. apply eq_true_iff_eq. destruct (next <? boot') eqn:Eb; bsimp; lia.
Qed.

(** A finished run of an enabled task, failed or not, makes the task wait a
    whole interval from the end of the run; an aborted one, and a run with
    parameters of its own, leave the schedule as it was. *)
Theorem run_restarts_interval t c configured now later boot ended :
  0 < configured <= 153722867 -> cm_ended_at c = Some ended -> ended <= now -> now <= later ->
  if counts_as_run c then
    snd (check_task (recordTaskRun t c configured now) configured boot later) =
      (ended + minutes configured <=? later) && (boot <=? later)
  else recordTaskRun t c configured now = t.
Proof.
  intros Hc He Hle Hl. unfold recordTaskRun. destruct (counts_as_run c); [| done]. cbn [negb].
  unfold check_task, nextExecution, last_run, time_after. rewrite intervalOf_pos by lia.
  rewrite (proj2 (Z.leb_gt configured 0)) by lia. cbn. rewrite He. cbn.
  rewrite (proj2 (Z.ltb_ge now ended)) by lia. cbn. rewrite (proj2 (Z.ltb_ge later ended)) by lia. cbn.
  apply eq_true_iff_eq. destruct (_ <? boot) eqn:Eb; bsimp; lia.
Qed.

(** ** Witnesses *)

Lemma lanes_bounded_witness :
  (lane_count true (mg_running sample_ready) <= 1)%nat /\ (lane_count false (mg_running sample_ready) <= Workers)%nat.
Proof. exact (lanes_bounded sample_fresh sample_ready sample_ready_reachable). Defined.

Lemma identical_commands_joined_witness :
  map ce_key (mg_queue sample_ready) = [("ScanLibraries", "{2}")] /\ NoDup (map ce_key (mg_queue sample_ready)).
Proof.
  split; [vm_compute; reflexivity |].
  exact (proj1 (identical_commands_joined sample_fresh sample_ready sample_ready_reachable)).
Defined.

Definition sample_waiting : entry := {|
  ce_h := {| he_name := "ScanLibraries"; he_exclusive := true |}; ce_canon := "{2}";
  ce_cmd := new_command 2 1 {| he_name := "ScanLibraries"; he_exclusive := true |} "{2}" TriggerManual;
  ce_finished := false; ce_dirty := false; ce_phase := PWaiting |}.

Lemma waits_only_for_full_lane_witness : lane_count true (mg_running sample_ready) = 1%nat.
Proof.
  assert (He : sample_waiting ∈ mg_queue sample_ready) by (vm_compute; left).
  refine (waits_only_for_full_lane sample_fresh sample_ready sample_waiting sample_ready_reachable _ _ He);
    vm_compute; reflexivity.
Defined.

Lemma handler_start_recorded_witness :
  row_status (mg_db (run_invoke 1 4 sample_ready)) 1 = Some CommandStarted.
Proof.
  eapply (proj1 (handler_start_recorded sample_fresh sample_ready (run_invoke 1 4 sample_ready) 1 _
    sample_ready_reachable (step_run_invoke _ _ 1 4) _ _)).
  Unshelve.
  2: { vm_compute. reflexivity. }
  vm_compute. reflexivity.
Defined.

Definition sample_row : Command := {|
  cm_id := 1; cm_name := "ScanLibraries"; cm_body := "{1}"; cm_status := CommandCompleted; cm_trigger := TriggerManual;
  cm_message := "3 groups"; cm_queued_at := 1; cm_started_at := Some 2; cm_ended_at := Some 5;
  cm_duration := "00:00:00.000" |}.

Lemma outcome_kept_witness : mg_db (run_progress 1 "late" sample_ended) !! 1 = Some sample_row.
Proof.
  refine (outcome_kept sample_fresh sample_ended _ 1 sample_row sample_ended_reachable
    (step_run_progress _ _ 1 "late") _ _); vm_compute; reflexivity.
Defined.

Definition sample_started : entry := {|
  ce_h := {| he_name := "ScanLibraries"; he_exclusive := true |}; ce_canon := "{1}";
  ce_cmd := new_command 1 1 {| he_name := "ScanLibraries"; he_exclusive := true |} "{1}" TriggerManual;
  ce_finished := false; ce_dirty := false; ce_phase := PWaiting |}.

(** The second scan starts when the first one, whose start cannot be recorded, ends. *)
Lemma run_frees_lane_witness :
  let m' := run 1 2 3 4 5 false true "disk full" (inl "unused") sample_queued in
  mg_running m' !! 1 = None /\ is_Some (mg_running m' !! 2) /\ row_status (mg_db m') 1 = Some CommandFailed.
Proof.
  intros m'. split_and!; [| vm_compute; eauto | vm_compute; reflexivity].
  refine (proj1 (run_frees_lane sample_fresh sample_queued 1 sample_started 2 3 4 5 false true "disk full" (inl "unused")
    sample_queued_reachable _ _)); vm_compute; reflexivity.
Defined.

Definition sample_task : ScheduledTask := {|
  tk_name := "Scan Libraries"; tk_task_name := "ScanLibraries"; tk_interval := 0; tk_last_execution := None;
  tk_last_start := None; tk_last_duration := ""; tk_next_execution := None |}.

Lemma schedule_never_postponed_witness :
  exists next, tk_next_execution (fst (fst (check_task sample_task 60 0 7))) = Some next /\ next <= 7 + minutes 60.
Proof.
  destruct (schedule_never_postponed sample_task 60 0 7) as (next & ? & ? & _); [lia |]. by exists next.
Defined.

Lemma run_restarts_interval_witness :
  snd (check_task (recordTaskRun sample_task
    {| cm_id := 1; cm_name := "ScanLibraries"; cm_body := "{}"; cm_status := CommandFailed; cm_trigger := TriggerScheduled;
       cm_message := "no library"; cm_queued_at := 1; cm_started_at := Some 2; cm_ended_at := Some 5; cm_duration := "" |}
    60 6) 60 0 7) = false.
Proof.
  match goal with |- snd (check_task (recordTaskRun _ ?c _ _) _ _ _) = _ =>
    rewrite (run_restarts_interval sample_task c 60 6 7 0 5 ltac:(lia) eq_refl ltac:(lia) ltac:(lia)) end.
  vm_compute. reflexivity.
Defined.
