(* ===== verification/Pathmap.v ===== *)
(** * Path mapping

    internal/pathmap/pathmap.go: translation between the paths a media server or
    *arr reports and the paths Dupearr sees itself. The host separator is "/", so
    [filepath.FromSlash] is the identity; [Stat] is I/O and not modelled. A nil
    mapper is one without mappings. *)

From S2P Require Import Prelude GoStd Paths.
Local Open Scope string_scope.
Local Open Scope Z_scope.

Record PathMapping := {
  pm_source_type : string;
  pm_source_id : Z;
  pm_remote_path : string;
  pm_local_path : string;
}.

(** [entry]: one mapping, normalised. *)
Record map_entry := {
  me_source_type : string;
  me_source_id : Z;
  me_remote : string;
  me_local : string;
  me_remote_out : string;
  me_local_out : string;
  me_remote_backslash : bool;
}.

Record Mapper := {
  mp_by_remote : list map_entry;      (* longest remote prefix first *)
  mp_by_local : list map_entry;       (* longest local prefix first *)
}.

(** [hasDrive]: "c:" or "c:/…". *)
Definition hasDrive (p : string) : bool :=
  match p with
  | String c (String ":" "") => isASCIILetter c
  | String c (String ":" (String "/" _)) => isASCIILetter c
  | _ => false
  end.

Definition isAbs (p : string) : bool := has_prefix p "/" || hasDrive p.
Definition isWindowsStyle (p : string) : bool := hasDrive p || has_prefix p "//".

Definition Normalize (p : string) : string :=
  if String.eqb p "" then "" else
  let p := to_slash p in
  if has_prefix p "//" then
    let rest := path_clean ("/" +:+ trim_left_where is_slash p) in
    if String.eqb rest "/" then "/" else "/" +:+ rest
  else if hasDrive p then
    smap lower_ascii (stake 1 p) +:+ ":" +:+ path_clean ("/" +:+ sdrop 2 p)
  else path_clean p.

(** [keepDriveCase]. *)
Definition keepDriveCase (raw norm : string) : string :=
  if hasDrive norm && negb (String.eqb raw "") then stake 1 raw +:+ sdrop 1 norm else norm.

(** [join]: a remainder below a normalised base. *)
Definition join_path (base rest : string) : string :=
  if String.eqb rest "" then base
  else if has_suffix base "/" then base +:+ rest
  else base +:+ "/" +:+ rest.

Section unicode.
Context `{Unicode}.

(** [trimPrefix]: [p] relative to a whole-segment prefix. *)
Definition trimPrefix (p prefix : string) : option string :=
  if (String.length p <? String.length prefix)%nat then None else
  let head := stake (String.length prefix) p in
  if negb (if isWindowsStyle prefix then equal_fold head prefix else String.eqb head prefix) then None else
  match sdrop (String.length prefix) p with
  | "" => Some ""
  | String c rest' as rest =>
    if has_suffix prefix "/" then Some rest
    else if Ascii.eqb c "/" then Some rest' else None
  end.

(** The entry [New] makes of one mapping, if its paths are absolute. *)
Definition new_entry (pm : PathMapping) : option map_entry :=
  let r := Normalize (pm_remote_path pm) in
  let l := Normalize (pm_local_path pm) in
  if negb (isAbs r) || negb (isAbs l) then None else
  Some {| me_source_type := pm_source_type pm; me_source_id := pm_source_id pm; me_remote := r; me_local := l;
          me_remote_out := keepDriveCase (pm_remote_path pm) r; me_local_out := keepDriveCase (pm_local_path pm) l;
          me_remote_backslash := contains (pm_remote_path pm) (String backslash "") && negb (contains (pm_remote_path pm) "/") |}.

Definition longer (f : map_entry -> string) (a b : map_entry) : bool :=
  (String.length (f b) <? String.length (f a))%nat.
Definition New (mappings : list PathMapping) : Mapper :=
  let entries := omap new_entry mappings in
  {| mp_by_remote := stable_sort (longer me_remote) entries; mp_by_local := stable_sort (longer me_local) entries |}.

Definition of_source (st : string) (sid : Z) (e : map_entry) : bool :=
  String.eqb (me_source_type e) st && (me_source_id e =? sid).

(** The first entry of the source whose prefix covers [p], with the remainder. *)
Fixpoint first_match (side : map_entry -> string) (st : string) (sid : Z) (p : string) (l : list map_entry) :
    option (map_entry * string) :=
  match l with
  | [] => None
  | e :: l' =>
    if of_source st sid e then
      match trimPrefix p (side e) with
      | Some rest => Some (e, rest)
      | None => first_match side st sid p l'
      end
    else first_match side st sid p l'
  end.

Definition ToLocal (m : Mapper) (st : string) (sid : Z) (remote : string) : option string :=
  let p := Normalize remote in
  if negb (isAbs p) then None else
  match first_match me_remote st sid p (mp_by_remote m) with
  | Some (e, rest) => Some (join_path (me_local_out e) rest)
  | None => None
  end.

(** [strings.ReplaceAll(r, "/", `\`)]. *)
Definition to_backslash (s : string) : string := smap (fun c => if Ascii.eqb c "/" then backslash else c) s.

Definition ToRemote (m : Mapper) (st : string) (sid : Z) (local : string) : option string :=
  let p := Normalize local in
  if negb (isAbs p) then None else
  match first_match me_local st sid p (mp_by_local m) with
  | Some (e, rest) =>
    let r := join_path (me_remote_out e) rest in
    Some (if me_remote_backslash e then to_backslash r else r)
  | None => None
  end.

(** [Fingerprint]: the first eight bytes of a SHA-256 over the source's mappings. *)
Definition Fingerprint (m : Mapper) (st : string) (sid : Z) : string :=
  match List.filter (of_source st sid) (mp_by_remote m) with
  | [] => ""
  | es => stake 16 (sha256_hex (join (String "010" "")
      (sort_strings (map (fun e => me_remote e +:+ String "000" (me_local e)) es))))
  end.
End unicode.

Example normalize_ex :
  map Normalize ["C:\Movies\"; "\\NAS\share\a\..\b"; "/data//movies/"; ""; "C:"; "./C:/x"] =
  ["c:/Movies"; "//NAS/share/b"; "/data/movies"; ""; "c:/"; "C:/x"].
Proof. reflexivity. Qed.
