(* ===== verification/PathmapTheorems.v ===== *)
(** * Path mapping: theorems

    Normalising is idempotent on absolute paths; a translation uses the longest
    whole-segment prefix of the source's mappings and fails only when none covers
    the path; translating back gives the normalised path. *)

From S2P Require Import Prelude GoStd Paths Pathmap Fixtures.
Local Open Scope string_scope.
Local Open Scope Z_scope.

(** ** Components of a cleaned path *)

Notation slash := "/"%char.
Definition free (c : ascii) (s : string) : Prop := index_byte s c = None.
Record comp_ok (s : string) : Prop := {
  co_empty : s <> "";
  co_dot : s <> ".";
  co_dots : s <> "..";
  co_slash : free slash s;
}.

Lemma free_app c a b : free c (a +:+ b) <-> free c a /\ free c b.
Proof.
  unfold free, index_byte. induction a as [|d a IH]; simpl; [tauto |]. destruct (Ascii.eqb c d); [naive_solver |].
  destruct (index_byte_where _ (a +:+ b)), (index_byte_where _ a); simpl in *; naive_solver.
Qed.

Lemma free_cons c d s : free c (String d s) <-> c <> d /\ free c s.
Proof.
  unfold free, index_byte. simpl. destruct (Ascii.eqb_spec c d); [naive_solver |].
  destruct (index_byte_where _ s); naive_solver.
Qed.

Lemma split_free c d s cur : free d s -> free d cur -> forall x, x ∈ split_byte_from c cur s -> free d x.
Proof.
  revert cur. induction s as [|e s IH]; intros cur Hs Hc x; simpl; [by intros ->%list_elem_of_singleton |].
  apply free_cons in Hs as [Hne Hs]. destruct (Ascii.eqb e c).
  - intros [->|Hx]%elem_of_cons; [done |]. by eapply (IH "").
  - apply IH; [done |]. apply free_app. split; [done |]. by apply free_cons.
Qed.

Lemma split_no_sep c s cur : free c cur -> forall x, x ∈ split_byte_from c cur s -> free c x.
Proof.
  revert cur. induction s as [|e s IH]; intros cur Hc x; simpl; [by intros ->%list_elem_of_singleton |].
  destruct (Ascii.eqb_spec e c) as [->|Hne].
  - intros [->|Hx]%elem_of_cons; [done |]. by eapply (IH "").
  - apply IH. apply free_app. split; [done |]. by apply free_cons.
Qed.

(** The components [path_clean] keeps of a rooted path. *)
Definition rcomps (s : string) : list string := rev (foldl (clean_step true) [] (split_byte slash s)).

Lemma clean_step_ok out comp : Forall comp_ok out -> free slash comp -> Forall comp_ok (clean_step true out comp).
Proof.
  intros Ho Hf. unfold clean_step. destruct (String.eqb_spec comp ""); [done |]. destruct (String.eqb_spec comp "."); [done |].
  cbn [orb]. destruct (String.eqb_spec comp "..").
  - destruct out as [|top rest]; [done |]. inversion Ho as [|? ? Ht Hr]; subst.
    destruct (String.eqb_spec top ".."); [by destruct (co_dots _ Ht) | done].
  - by constructor.
Qed.

Lemma rcomps_ok s : Forall comp_ok (rcomps s).
Proof.
  unfold rcomps. apply Forall_rev. apply (foldl_inv _ (Forall comp_ok)); [constructor |].
  intros out comp Hin Ho. apply clean_step_ok; [done |]. by eapply (split_no_sep slash s "").
Qed.

Lemma clean_steps_ok l out : Forall comp_ok l -> foldl (clean_step true) out l = (rev l ++ out)%list.
Proof.
  revert out. induction l as [|x l IH]; intros out Hl; simpl; [done |]. inversion Hl as [|? ? [H1 H2 H3 _] Hl']; subst.
  rewrite IH by done. unfold clean_step. rewrite (proj2 (String.eqb_neq x "") H1), (proj2 (String.eqb_neq x ".") H2),
    (proj2 (String.eqb_neq x "..") H3). cbn. by rewrite <- app_assoc.
Qed.

Lemma rcomps_join l : Forall comp_ok l -> rcomps (join "/" l) = l.
Proof.
  intros Hl. unfold rcomps. destruct l as [|x l]; [done |]. unfold split_byte.
  pose proof (split_join slash (x :: l) ltac:(done)) as Hs. unfold split_byte in Hs. rewrite Hs.
  - rewrite clean_steps_ok, app_nil_r by done. by rewrite rev_involutive.
  - intros y Hy. rewrite Forall_forall in Hl. by apply Hl.
Qed.

Lemma clean_rooted s : path_clean ("/" +:+ s) = "/" +:+ join "/" (rcomps s).
Proof.
  change ("/" +:+ s) with (String slash s). unfold path_clean, rcomps, split_byte, has_prefix.
  cbn -[foldl clean_step join]. by replace (String.prefix "" s) with true by by destruct s.
Qed.

Lemma rcomps_slash s : rcomps (String slash s) = rcomps s.
Proof. reflexivity. Qed.

Lemma clean_normal l : Forall comp_ok l -> path_clean ("/" +:+ join "/" l) = "/" +:+ join "/" l.
Proof. intros Hl. by rewrite clean_rooted, rcomps_join. Qed.

(** ** Normalising *)

Lemma no_backslash s : free backslash s -> to_slash s = s.
Proof.
  unfold to_slash. induction s as [|c s IH]; [done |]. intros [Hne Hs]%free_cons. simpl.
  rewrite (proj2 (Ascii.eqb_neq c backslash)) by congruence. by rewrite IH.
Qed.

Lemma to_slash_free s : free backslash (to_slash s).
Proof.
  unfold to_slash. induction s as [|c s IH]; [done |]. simpl. apply free_cons. split; [| done].
  by destruct (Ascii.eqb_spec c backslash); [discriminate | congruence].
Qed.

Lemma free_join d l : d <> slash -> Forall (free d) l -> free d (join "/" l).
Proof.
  intros Hd. induction l as [|x l IH]; intros Hl; [done |]. inversion Hl as [|? ? Hx Hl']; subst.
  destruct l as [|y l]; [done |]. rewrite join_cons by done. apply free_app. split; [done |].
  apply free_cons. split; [done | by apply IH].
Qed.

Lemma clean_step_incl rooted out comp x : x ∈ clean_step rooted out comp -> x ∈ out \/ x = comp \/ x = "..".
Proof. unfold clean_step. repeat case_match; set_solver. Qed.

Lemma rcomps_free d s : d <> "."%char -> free d s -> Forall (free d) (rcomps s).
Proof.
  intros Hd Hs. unfold rcomps. apply Forall_rev. apply (foldl_inv _ (Forall (free d))); [constructor |].
  intros out comp Hin Ho. rewrite Forall_forall in *. intros x [?|[-> | ->]]%clean_step_incl; [by apply Ho | |].
  - by eapply (split_free slash d s "").
  - by repeat (apply free_cons; split; [done |]).
Qed.

Lemma hasDrive_letter c s : hasDrive (String c s) = true -> isASCIILetter c = true.
Proof.
  destruct s as [|[[] [] [] [] [] [] [] []] s]; try done. destruct s as [|[[] [] [] [] [] [] [] []] s]; done.
Qed.

Lemma hasDrive_slash s : hasDrive (String slash s) = false.
Proof. apply not_true_is_false. by intros ?%hasDrive_letter. Qed.

(** The remainder after "/", "//" or a drive. *)
Lemma normal_posix l : Forall comp_ok l -> Forall (free backslash) l -> Normalize ("/" +:+ join "/" l) = "/" +:+ join "/" l.
Proof.
  intros Hl Hb. assert (Hf : free backslash ("/" +:+ join "/" l)).
  { apply free_app. split; [done | by apply free_join]. }
  unfold Normalize. rewrite no_backslash by done.
  assert (Hunc : has_prefix ("/" +:+ join "/" l) "//" = false).
  { destruct l as [|x l]; [done |]. inversion Hl as [|? ? [H1 _ _ H4] _]; subst.
    destruct x as [|c x]; [done |]. apply free_cons in H4 as [Hc _].
    assert (Hj : exists t, join "/" (String c x :: l) = String c t) by (destruct l; eexists; reflexivity).
    destruct Hj as [t ->]. change ("/" +:+ String c t) with (String slash (String c t)). unfold has_prefix. cbn -[ascii_dec].
    by destruct (ascii_dec slash c). }
  rewrite Hunc. change (hasDrive ("/" +:+ join "/" l)) with (hasDrive (String slash (join "/" l))).
  rewrite hasDrive_slash, clean_normal by done. done.
Qed.

Definition comps_ok (l : list string) : Prop := Forall comp_ok l /\ Forall (free backslash) l.

Inductive normal : string -> Prop :=
  | nf_posix l : comps_ok l -> normal ("/" +:+ join "/" l)
  | nf_unc l : l <> [] -> comps_ok l -> normal ("//" +:+ join "/" l)
  | nf_drive c l : isASCIILetter c = true -> lower_ascii c = c -> comps_ok l ->
      normal (String c (":" +:+ "/" +:+ join "/" l)).

Lemma join_head l : l <> [] -> Forall comp_ok l -> exists c t, join "/" l = String c t /\ c <> slash.
Proof.
  intros Hne Hl. destruct l as [|x l]; [done |]. inversion Hl as [|? ? [H1 _ _ H4] _]; subst.
  destruct x as [|c x]; [done |]. apply free_cons in H4 as [Hc _].
  destruct l as [|y l]; [by exists c, x |]. rewrite join_cons by done. by eexists c, _.
Qed.

Lemma letter_lower c : isASCIILetter c = true ->
  isASCIILetter (lower_ascii c) = true /\ lower_ascii (lower_ascii c) = lower_ascii c /\ c <> backslash /\
  lower_ascii c <> backslash.
Proof. by destruct c as [[] [] [] [] [] [] [] []]. Qed.

Lemma letter_not_slash c : isASCIILetter c = true -> c <> slash.
Proof. by intros Hc ->. Qed.

Lemma rcomps_comps_ok s : free backslash s -> comps_ok (rcomps s).
Proof. intros Hs. split; [apply rcomps_ok | by apply rcomps_free]. Qed.

Lemma trim_left_free d s : free d s -> free d (trim_left_where is_slash s).
Proof. induction s as [|c s IH]; [done |]. intros Hs. simpl. destruct (is_slash c); [| done]. apply IH. by apply free_cons in Hs as [_ ?]. Qed.

Lemma has_prefix_slash s : has_prefix s "/" = true -> exists t, s = String slash t.
Proof.
  unfold has_prefix. destruct s as [|c s]; [done |]. cbn -[ascii_dec]. destruct (ascii_dec slash c) as [<-|]; [| done].
  by exists s.
Qed.

Lemma hasDrive_inv p : hasDrive p = true -> exists c s, p = String c (String ":" s) /\ isASCIILetter c = true /\
  (s = "" \/ exists t, s = String slash t).
Proof.
  destruct p as [|c p]; [done |]. intros Hd. pose proof (hasDrive_letter _ _ Hd) as Hc. revert Hd.
  destruct p as [|[[] [] [] [] [] [] [] []] s]; try done. intros Hd. exists c, s. split_and!; try done.
  destruct s as [|[[] [] [] [] [] [] [] []] s]; try done; [by left | right; by eexists].
Qed.

Lemma normalize_normal p : isAbs (to_slash p) = true -> normal (Normalize p).
Proof.
  intros Ha. unfold Normalize. destruct (String.eqb_spec p "") as [->|_]; [done |].
  pose proof (to_slash_free p) as Hf. set (q := to_slash p) in *. clearbody q. cbv zeta.
  destruct (has_prefix q "//") eqn:Eu.
  - set (t := trim_left_where is_slash q). assert (Ht : free backslash t) by by apply trim_left_free.
    rewrite clean_rooted. pose proof (rcomps_comps_ok _ Ht) as Hok. destruct (rcomps t) as [|x l] eqn:E.
    + apply (nf_posix []). by split.
    + destruct (join_head (x :: l)) as (c & u & Hj & _); [done | apply Hok |].
      destruct (String.eqb_spec ("/" +:+ join "/" (x :: l)) "/") as [Eq|_]; [by rewrite Hj in Eq |].
      change ("/" +:+ "/" +:+ join "/" (x :: l)) with ("//" +:+ join "/" (x :: l)). by apply nf_unc.
  - destruct (hasDrive q) eqn:Ed.
    + apply hasDrive_inv in Ed as (c & s & -> & Hc & Hs). cbn [stake smap sdrop].
      destruct (letter_lower c Hc) as (H1 & H2 & _). rewrite clean_rooted. apply nf_drive; [done | done |].
      apply rcomps_comps_ok. apply free_cons in Hf as [_ Hf]. by apply free_cons in Hf as [_ Hf].
    + unfold isAbs in Ha. rewrite Ed, orb_false_r in Ha. apply has_prefix_slash in Ha as [t ->].
      change (String slash t) with ("/" +:+ t). rewrite clean_rooted. apply nf_posix.
      apply rcomps_comps_ok. by apply free_cons in Hf as [_ Hf].
Qed.

Lemma normal_fix p : normal p -> Normalize p = p.
Proof.
  intros [l [Hl Hb]|l Hne [Hl Hb]|c l Hc Hlow [Hl Hb]]; [by apply normal_posix | |].
  - assert (Hf : free backslash ("//" +:+ join "/" l)) by (apply free_app; split; [done | by apply free_join]).
    unfold Normalize. rewrite no_backslash by done.
    destruct (join_head l Hne Hl) as (c & t & Hj & Hc).
    assert (Ht : trim_left_where is_slash ("//" +:+ join "/" l) = join "/" l).
    { rewrite Hj. change ("//" +:+ String c t) with (String slash (String slash (String c t))). cbn -[Ascii.eqb].
      unfold is_slash. by rewrite (proj2 (Ascii.eqb_neq c slash) Hc). }
    rewrite Ht, clean_normal by done.
    assert (Hu : has_prefix ("//" +:+ join "/" l) "//" = true) by (rewrite Hj; done). rewrite Hu, Hj. done.
  - set (s := String c (":" +:+ "/" +:+ join "/" l)).
    destruct (letter_lower c Hc) as (_ & _ & Hcb & _). assert (Hf : free backslash s).
    { apply free_cons. split; [done |]. apply free_app. split; [done |]. apply free_app. split; [done | by apply free_join]. }
    unfold Normalize. rewrite no_backslash by done.
    replace (has_prefix s "//") with false.
    2:{ symmetry. apply not_true_is_false. unfold s, has_prefix. cbn -[ascii_dec].
        destruct (ascii_dec slash c) as [E|]; [by apply letter_not_slash in Hc | done]. }
    assert (Hd : hasDrive s = true) by exact Hc. rewrite Hd. unfold s. cbn [stake smap sdrop]. rewrite Hlow.
    change (String c (":" +:+ path_clean ("/" +:+ String slash (join "/" l))) = String c (":" +:+ "/" +:+ join "/" l)).
    by rewrite clean_rooted, rcomps_slash, rcomps_join.
Qed.

(** ** Whole-segment prefixes *)

Lemma stake_sdrop n s : stake n s +:+ sdrop n s = s.
Proof. revert s. induction n as [|n IH]; intros [|c s]; try done. cbn [stake sdrop]. by rewrite str_app_cons, IH. Qed.

Lemma suffix_slash s : has_suffix s "/" = true -> exists t, s = t +:+ "/".
Proof.
  unfold has_suffix. intros [_ E%String.eqb_eq]%andb_true_iff. exists (stake (String.length s - String.length "/") s).
  rewrite <- E at 2. by rewrite stake_sdrop.
Qed.

Lemma join_inj l l' : Forall comp_ok l -> Forall comp_ok l' -> join "/" l = join "/" l' -> l = l'.
Proof. intros Hl Hl' E. by rewrite <- (rcomps_join l Hl), E, rcomps_join. Qed.

Lemma split_comps l : l <> [] -> Forall comp_ok l -> split_byte_from slash "" (join "/" l) = l.
Proof. intros Hne Hl. apply split_join; [done |]. intros x Hx. rewrite Forall_forall in Hl. by apply Hl. Qed.

Lemma no_suffix_slash a : a <> [] -> Forall comp_ok a -> has_suffix ("/" +:+ join "/" a) "/" = false.
Proof.
  intros Hne Ha. apply not_true_is_false. intros [t Ht]%suffix_slash.
  assert (Hs : split_byte_from slash "" ("/" +:+ join "/" a) = "" :: a).
  { change ("/" +:+ join "/" a) with (String slash (join "/" a)). cbn -[join]. by rewrite split_comps. }
  rewrite Ht in Hs. change "/" with (String slash "") in Hs. rewrite split_byte_from_app in Hs. cbn in Hs.
  assert (Hin : "" ∈ a).
  { destruct (split_byte_from slash "" t) as [|x l] eqn:E; [by apply split_not_nil in E |]. injection Hs as _ <-. set_solver. }
  rewrite Forall_forall in Ha. by destruct (co_empty _ (Ha _ Hin)).
Qed.

Lemma join_app a b : a <> [] -> b <> [] -> join "/" (a ++ b) = join "/" a +:+ "/" +:+ join "/" b.
Proof.
  intros Ha Hb. induction a as [|x a IH]; [done |]. destruct a as [|y a].
  - cbn [app]. by rewrite join_cons.
  - change ((x :: y :: a) ++ b)%list with (x :: (y :: a) ++ b)%list. rewrite join_cons, IH, (join_cons _ x (y :: a)) by done.
    by rewrite str_app_assoc, str_app_cons.
Qed.

Lemma join_not_empty l : l <> [] -> Forall comp_ok l -> join "/" l <> "".
Proof. intros Hne Hl. by destruct (join_head l Hne Hl) as (c & t & -> & _). Qed.

Lemma join_path_comps b l : Forall comp_ok b -> Forall comp_ok l ->
  join_path ("/" +:+ join "/" b) (join "/" l) = "/" +:+ join "/" (b ++ l).
Proof.
  intros Hb Hl. unfold join_path. destruct l as [|x l]; [by rewrite app_nil_r |].
  rewrite (proj2 (String.eqb_neq _ _) (join_not_empty (x :: l) ltac:(done) Hl)).
  destruct b as [|y b]; [done |]. rewrite no_suffix_slash by done.
  by rewrite join_app, !str_app_assoc.
Qed.

Lemma posix_not_windows a : Forall comp_ok a -> isWindowsStyle ("/" +:+ join "/" a) = false.
Proof.
  intros Ha. unfold isWindowsStyle. change ("/" +:+ join "/" a) with (String slash (join "/" a)).
  rewrite hasDrive_slash. destruct a as [|x a]; [done |].
  destruct (join_head (x :: a) ltac:(done) Ha) as (c & t & -> & Hc). unfold has_prefix. cbn -[ascii_dec].
  by destruct (ascii_dec slash c).
Qed.

Lemma stake_app a b : stake (String.length a) (a +:+ b) = a.
Proof. induction a as [|c a IH]; [by destruct b |]. rewrite str_app_cons. cbn [String.length stake]. by rewrite IH. Qed.

Section unicode.
Context `{Unicode}.

Lemma trimPrefix_spec p prefix rest : isWindowsStyle prefix = false -> trimPrefix p prefix = Some rest ->
  (rest = "" /\ p = prefix) \/ (has_suffix prefix "/" = true /\ p = prefix +:+ rest) \/ p = prefix +:+ "/" +:+ rest.
Proof.
  intros Hw. unfold trimPrefix. rewrite Hw. case_match; [done |]. case_match eqn:Eh; [done |].
  apply negb_false_iff, String.eqb_eq in Eh. pose proof (stake_sdrop (String.length prefix) p) as Hp. rewrite Eh in Hp.
  destruct (sdrop _ p) as [|c t]; [intros [= <-]; left; by rewrite str_app_nil_r in Hp |].
  destruct (has_suffix prefix "/"); [intros [= <-]; right; left; by split |].
  destruct (Ascii.eqb_spec c "/"); [| done]. intros [= <-]. subst c. by right; right.
Qed.

(** Relative paths of component lists. *)
Lemma trimPrefix_comps l a rest : Forall comp_ok l -> Forall comp_ok a ->
  trimPrefix ("/" +:+ join "/" l) ("/" +:+ join "/" a) = Some rest ->
  exists l', l = (a ++ l')%list /\ rest = join "/" l'.
Proof.
  intros Hl Ha Ht. apply trimPrefix_spec in Ht as [[-> E]|[[Hs E]|E]]; [| | | by apply posix_not_windows].
  - exists []. rewrite app_nil_r. split; [| done]. apply join_inj; [done | done |]. by apply str_app_inj_l in E.
  - destruct a as [|x a]; [| by rewrite no_suffix_slash in Hs]. exists l. split; [done |].
    by apply str_app_inj_l in E.
  - rewrite str_app_assoc in E. apply str_app_inj_l in E. destruct a as [|x a].
    { destruct l as [|y l]; [done |]. destruct (join_head (y :: l) ltac:(done) Hl) as (c & t & Hj & Hc).
      rewrite Hj in E. by injection E as ->. }
    assert (Hne : l <> []) by (intros ->; by apply (f_equal String.length) in E; rewrite !str_length_app in E; cbn in E; lia).
    exists (split_byte_from slash "" rest). split; [| by rewrite join_split_from].
    rewrite <- (split_comps l Hne Hl), E. change ("/" +:+ rest) with (String slash rest).
    by rewrite split_byte_from_app, split_comps.
Qed.

Lemma trimPrefix_app a l' : Forall comp_ok a -> Forall comp_ok l' ->
  trimPrefix ("/" +:+ join "/" (a ++ l')) ("/" +:+ join "/" a) = Some (join "/" l').
Proof.
  intros Ha Hl. assert (E : exists t, "/" +:+ join "/" (a ++ l') = ("/" +:+ join "/" a) +:+ t /\
    (l' = [] /\ t = "" \/ l' <> [] /\ ((a = [] /\ t = join "/" l') \/ (a <> [] /\ t = "/" +:+ join "/" l')))).
  { destruct l' as [|x l']; [exists ""; rewrite app_nil_r, str_app_nil_r; tauto |].
    destruct a as [|y a]; [by exists (join "/" (x :: l')); split; [| right; split; [| left]] |].
    exists ("/" +:+ join "/" (x :: l')). split; [by rewrite join_app, str_app_assoc | by right; split; [| right]]. }
  destruct E as (t & E & Ht). rewrite E. unfold trimPrefix. rewrite stake_app, sdrop_app, posix_not_windows by done.
  rewrite String.eqb_refl. cbn [negb]. rewrite str_length_app.
  rewrite (proj2 (Nat.ltb_ge _ _)) by lia. destruct Ht as [[-> ->]|[Hne [[-> ->]|[Hna ->]]]]; [done | |].
  - destruct (join_head l' Hne Hl) as (c & u & -> & _). done.
  - change ("/" +:+ join "/" l') with (String slash (join "/" l')). cbn [Ascii.eqb]. by rewrite no_suffix_slash.
Qed.

(** ** Which mapping is used *)

Lemma new_entry_sides pm e : new_entry pm = Some e ->
  isAbs (me_remote e) = true /\ isAbs (me_local e) = true /\
  me_remote e = Normalize (pm_remote_path pm) /\ me_local e = Normalize (pm_local_path pm) /\
  me_remote_out e = keepDriveCase (pm_remote_path pm) (me_remote e) /\
  me_local_out e = keepDriveCase (pm_local_path pm) (me_local e).
Proof.
  unfold new_entry. case_match eqn:E; [done |]. intros [= <-]. apply orb_false_iff in E as [E1 E2].
  apply negb_false_iff in E1, E2. by split_and!.
Qed.

Lemma elem_of_entries f mappings e : e ∈ stable_sort (longer f) (omap new_entry mappings) <->
  exists pm, pm ∈ mappings /\ new_entry pm = Some e.
Proof. by rewrite elem_of_stable_sort, list_elem_of_omap. Qed.

Lemma longest_first f l : StronglySorted (fun a b => (String.length (f b) <= String.length (f a))%nat) (stable_sort (longer f) l).
Proof.
  eapply StronglySorted_weaken; [| apply stable_sort_sorted].
  - intros x y. unfold longer. rewrite Nat.ltb_ge. done.
  - intros x y z. unfold longer. rewrite !Nat.ltb_ge. lia.
  - intros x y. unfold longer. rewrite Nat.ltb_ge, Nat.ltb_lt. lia.
Qed.

Lemma first_match_spec f st sid p l :
  match first_match f st sid p l with
  | Some (e, rest) => e ∈ l /\ of_source st sid e = true /\ trimPrefix p (f e) = Some rest /\
      (StronglySorted (fun a b => (String.length (f b) <= String.length (f a))%nat) l ->
       forall e', e' ∈ l -> of_source st sid e' = true -> trimPrefix p (f e') <> None ->
       (String.length (f e') <= String.length (f e))%nat)
  | None => forall e, e ∈ l -> of_source st sid e = true -> trimPrefix p (f e) = None
  end.
Proof.
  induction l as [|x l IH]; cbn [first_match]; [by intros e He%elem_of_nil |].
  assert (Hskip : (of_source st sid x = true -> trimPrefix p (f x) = None) ->
    match first_match f st sid p l with
    | Some (e, rest) => e ∈ x :: l /\ of_source st sid e = true /\ trimPrefix p (f e) = Some rest /\
        (StronglySorted (fun a b => (String.length (f b) <= String.length (f a))%nat) (x :: l) ->
         forall e', e' ∈ x :: l -> of_source st sid e' = true -> trimPrefix p (f e') <> None ->
         (String.length (f e') <= String.length (f e))%nat)
    | None => forall e, e ∈ x :: l -> of_source st sid e = true -> trimPrefix p (f e) = None
    end).
  { intros Hx. destruct (first_match f st sid p l) as [[e rest]|].
    - destruct IH as (H1 & H2 & H3 & H4). split_and!; [set_solver | done | done |].
      intros Hs e' [->|He']%elem_of_cons Ho Ht; [by rewrite Hx in Ht |]. apply H4; [by inversion Hs | done..].
    - intros e [->|He]%elem_of_cons; [done | by apply IH]. }
  destruct (of_source st sid x) eqn:Eo; [| by apply Hskip].
  destruct (trimPrefix p (f x)) as [rest|] eqn:Et; [| by apply Hskip]. split_and!; [set_solver | done | done |].
  intros Hs e' [->|He']%elem_of_cons _ _; [done |]. inversion Hs as [|? ? _ Hall]; subst.
  rewrite Forall_forall in Hall. by apply Hall.
Qed.
End unicode.

(** ** Theorems *)

(** Normalising twice is normalising once, for every absolute path (POSIX,
    drive or UNC). The relative "./C:/x" is the kind of path it fails for. *)
Theorem normalize_idempotent p : isAbs (to_slash p) = true -> Normalize (Normalize p) = Normalize p.
Proof. intros Ha. by apply normal_fix, normalize_normal. Qed.

Section theorems.
Context `{Unicode}.

(** A remote path is translated with a mapping of that very source whose
    remote prefix covers it by whole segments ("/data/movies" never covers
    "/data/movies2"), and no mapping of the source that covers it has a longer
    prefix; there is no translation exactly when the path is not absolute or no
    mapping of the source covers it. *)
Theorem to_local_longest mappings st sid r :
  match ToLocal (New mappings) st sid r with
  | Some l => exists pm e rest, pm ∈ mappings /\ new_entry pm = Some e /\ of_source st sid e = true /\
      trimPrefix (Normalize r) (me_remote e) = Some rest /\ l = join_path (me_local_out e) rest /\
      (isWindowsStyle (me_remote e) = false -> Normalize r = me_remote e \/ has_suffix (me_remote e) "/" = true \/
         Normalize r = me_remote e +:+ "/" +:+ rest) /\
      (forall pm' e', pm' ∈ mappings -> new_entry pm' = Some e' -> of_source st sid e' = true ->
         trimPrefix (Normalize r) (me_remote e') <> None -> (String.length (me_remote e') <= String.length (me_remote e))%nat)
  | None => isAbs (Normalize r) = false \/
      forall pm e, pm ∈ mappings -> new_entry pm = Some e -> of_source st sid e = true ->
        trimPrefix (Normalize r) (me_remote e) = None
  end.
Proof.
  unfold ToLocal. destruct (isAbs (Normalize r)); [| by left]. cbn [negb New mp_by_remote].
  pose proof (first_match_spec me_remote st sid (Normalize r) (stable_sort (longer me_remote) (omap new_entry mappings))) as Hm.
  destruct (first_match _ _ _ _ _) as [[e rest]|].
  - destruct Hm as (Hin & Ho & Ht & Hmax). apply elem_of_entries in Hin as (pm & Hpm & He).
    exists pm, e, rest. split_and!; try done.
    + intros Hw. destruct (trimPrefix_spec _ _ _ Hw Ht) as [[_ E]|[[E _]|E]]; tauto.
    + intros pm' e' Hpm' He'. apply Hmax; [apply longest_first |]. apply elem_of_entries. eauto.
  - right. intros pm e Hpm He. apply Hm. apply elem_of_entries. eauto.
Qed.

(** A POSIX path, written as an absolute one. *)
Definition plain_path (raw : string) : Prop := isAbs (to_slash raw) = true /\ isWindowsStyle (Normalize raw) = false.
Definition for_source (st : string) (sid : Z) (pm : PathMapping) : Prop :=
  pm_source_type pm = st /\ pm_source_id pm = sid.
Record plain_mapping (pm : PathMapping) : Prop := {
  pl_remote : plain_path (pm_remote_path pm);
  pl_local : plain_path (pm_local_path pm);
  pl_forward : contains (pm_remote_path pm) (String backslash "") = false;
}.

Lemma plain_posix raw : plain_path raw ->
  exists l, comps_ok l /\ Normalize raw = "/" +:+ join "/" l /\ isAbs (Normalize raw) = true /\
    keepDriveCase raw (Normalize raw) = Normalize raw.
Proof.
  intros [Ha Hw]. pose proof (normalize_normal _ Ha) as Hn. unfold keepDriveCase. unfold isWindowsStyle in Hw.
  apply orb_false_iff in Hw as [Hd Hu]. rewrite Hd. cbn [andb].
  destruct Hn as [l Hl|l Hne Hl|c l Hc _ Hl].
  - exists l. split_and!; [done | done | | done].
    change ("/" +:+ join "/" l) with (String slash (join "/" l)). unfold isAbs, has_prefix. cbn -[join].
    by destruct (join "/" l).
  - exfalso. destruct (join_head l Hne (proj1 Hl)) as (d & t & E & _). by rewrite E in Hu.
  - exfalso. change (hasDrive (String c (":" +:+ "/" +:+ join "/" l))) with (isASCIILetter c) in Hd. by rewrite Hc in Hd.
Qed.

(** The entry of a plain mapping. *)
Lemma plain_entry pm e : plain_mapping pm -> new_entry pm = Some e -> exists a b, comps_ok a /\ comps_ok b /\
  me_remote e = "/" +:+ join "/" a /\ me_remote_out e = "/" +:+ join "/" a /\
  me_local e = "/" +:+ join "/" b /\ me_local_out e = "/" +:+ join "/" b /\ me_remote_backslash e = false.
Proof.
  intros [Hr Hl Hb] He. destruct (plain_posix _ Hr) as (a & Ha & Ea & _ & Ka).
  destruct (plain_posix _ Hl) as (b & Hb' & Eb & _ & Kb).
  unfold new_entry in He. case_match; [done |]. injection He as <-. cbn. rewrite Ka, Kb, Hb. exists a, b. by split_and!.
Qed.

Lemma entry_source pm e st sid : new_entry pm = Some e -> of_source st sid e = true -> for_source st sid pm.
Proof.
  unfold new_entry. case_match; [done |]. intros [= <-] [Ht%String.eqb_eq Hs%Z.eqb_eq]%andb_true_iff. by split.
Qed.

(** A path translated to a local one translates back to the path it was, up
    to normalising, when the source's mappings are POSIX paths none of whose local
    folders lies inside another's. *)
Theorem to_remote_to_local mappings st sid r l : plain_path r ->
  (forall pm, pm ∈ mappings -> for_source st sid pm -> plain_mapping pm) ->
  (forall pm pm', pm ∈ mappings -> pm' ∈ mappings -> for_source st sid pm -> for_source st sid pm' ->
     trimPrefix (Normalize (pm_local_path pm)) (Normalize (pm_local_path pm')) <> None -> pm = pm') ->
  ToLocal (New mappings) st sid r = Some l -> ToRemote (New mappings) st sid l = Some (Normalize r).
Proof.
  intros Hr Hplain Hdisj. destruct (plain_posix _ Hr) as (cs & [Hcs Hcb] & Er & Habs & _).
  unfold ToLocal. rewrite Habs. cbn [negb New mp_by_remote].
  pose proof (first_match_spec me_remote st sid (Normalize r) (stable_sort (longer me_remote) (omap new_entry mappings))) as Hm.
  destruct (first_match _ _ _ _ _) as [[e rest]|]; [| done]. intros [= <-].
  destruct Hm as (Hin & Ho & Ht & _). apply elem_of_entries in Hin as (pm & Hpm & He).
  pose proof (entry_source _ _ _ _ He Ho) as Hsrc.
  destruct (plain_entry pm e (Hplain _ Hpm Hsrc) He) as (a & b & [Ha _] & [Hb Hbb] & Ea & Oa & Eb & Ob & Hbs).
  rewrite Er, Ea in Ht. apply trimPrefix_comps in Ht as (cs' & -> & ->); [| done | done].
  apply Forall_app in Hcs as [_ Hcs]. apply Forall_app in Hcb as [_ Hcb].
  rewrite Ob, join_path_comps by done. set (local := "/" +:+ join "/" (b ++ cs')).
  assert (Hok : comps_ok (b ++ cs')) by (split; apply Forall_app; by split).
  assert (Hn : Normalize local = local) by by apply normal_fix, nf_posix.
  unfold ToRemote. rewrite Hn. assert (Hla : isAbs local = true).
  { unfold isAbs, local. change ("/" +:+ join "/" (b ++ cs')) with (String slash (join "/" (b ++ cs'))). unfold has_prefix.
    cbn -[join]. by destruct (join "/" (b ++ cs')). }
  rewrite Hla. cbn [negb New mp_by_local].
  pose proof (first_match_spec me_local st sid local (stable_sort (longer me_local) (omap new_entry mappings))) as Hm.
  assert (Hcover : trimPrefix local (me_local e) = Some (join "/" cs')) by (rewrite Eb; by apply trimPrefix_app).
  destruct (first_match _ _ _ _ _) as [[e' rest']|].
  - destruct Hm as (Hin' & Ho' & Ht' & _). apply elem_of_entries in Hin' as (pm' & Hpm' & He').
    pose proof (entry_source _ _ _ _ He' Ho') as Hsrc'.
    destruct (plain_entry pm' e' (Hplain _ Hpm' Hsrc') He') as (a' & b' & [Ha' _] & [Hb' _] & Ea' & Oa' & Eb' & Ob' & Hbs').
    rewrite Eb' in Ht'. apply trimPrefix_comps in Ht' as (cs'' & Hsplit & ->); [| apply Hok | done].
    assert (pm' = pm) as ->.
    { destruct (new_entry_sides _ _ He) as (_ & _ & _ & El & _). destruct (new_entry_sides _ _ He') as (_ & _ & _ & El' & _).
      rewrite Eb in El. rewrite Eb' in El'.
      apply app_eq_inv in Hsplit as [(k & -> & _)|(k & -> & _)].
      - symmetry. apply Hdisj; try done. rewrite <- El, <- El'. apply Forall_app in Hb as [Hb1 Hb2].
        by rewrite trimPrefix_app.
      - apply Hdisj; try done. rewrite <- El, <- El'. apply Forall_app in Hb' as [Hb1 Hb2]. by rewrite trimPrefix_app. }
    assert (e' = e) as -> by congruence. rewrite Eb in Eb'. apply str_app_inj_l, join_inj in Eb' as <-; [| done | done].
    apply app_inv_head in Hsplit as <-. rewrite Hbs, Oa, join_path_comps by done. by rewrite Er.
  - exfalso. rewrite (Hm e) in Hcover; [done | | done]. apply elem_of_entries. eauto.
Qed.
End theorems.

(** ** Witnesses *)

Definition sample_mappings : list PathMapping := [
  {| pm_source_type := "server"; pm_source_id := 1; pm_remote_path := "/data/movies/"; pm_local_path := "/mnt/movies" |};
  {| pm_source_type := "server"; pm_source_id := 1; pm_remote_path := "/data/movies/4k"; pm_local_path := "/fast/4k" |}].

Lemma normalize_idempotent_witness : Normalize (Normalize "C:\Movies\..\TV") = "c:/TV".
Proof. rewrite normalize_idempotent by (vm_compute; reflexivity). vm_compute. reflexivity. Defined.

Lemma to_remote_to_local_witness :
  ToRemote (New sample_mappings) "server" 1 "/fast/4k/Film/film.mkv" = Some "/data/movies/4k/Film/film.mkv".
Proof.
  apply (to_remote_to_local sample_mappings "server" 1 "/data/movies//4k/Film/film.mkv").
  - split; vm_compute; reflexivity.
  - intros pm Hpm _. apply list_elem_of_In in Hpm. destruct Hpm as [<-|[<-|[]]]; repeat split; vm_compute; reflexivity.
  - intros pm pm' Hpm Hpm' _ _ Ht. apply list_elem_of_In in Hpm, Hpm'.
    destruct Hpm as [<-|[<-|[]]], Hpm' as [<-|[<-|[]]]; [reflexivity | | | reflexivity]; vm_compute in Ht; by destruct Ht.
  - vm_compute. reflexivity.
Defined.
