(* ===== verification/Store.v ===== *)
(** * The store of groups and removals

    internal/database (repo_groups.go, repo_activity.go): the rows of duplicate
    groups, their files and the removals approved for them, and the write
    transactions that change them. Every operation is one transaction of the
    single writer connection, so an operation is a function on the tables; a
    transaction that fails leaves them unchanged and is not modelled as a step.

    A group file row is a pair of its id and the file; ids come from AUTOINCREMENT
    counters and are never reused. JSON columns are the values they encode.
    Display-only columns (thumb, search text, *arr links) are left out. *)

From S2P Require Import Prelude GoStd Models Paths.
Local Open Scope string_scope.
Local Open Scope Z_scope.

(** ** Rows *)

Definition ActionPending := "pending".
Definition ActionRunning := "running".
Definition ActionSucceeded := "succeeded".
Definition ActionDryRun := "dry_run".
Definition ActionSkipped := "skipped".
Definition ActionFailed := "failed".
Definition ActionCancelled := "cancelled".

Record Action := {
  ac_id : Z;
  ac_group_id : Z;
  ac_group_file_id : Z;
  ac_version_key : string;
  ac_title : string;
  ac_paths : list string;
  ac_size : Z;
  ac_method : string;
  ac_status : string;
  ac_dry_run : bool;
  ac_message : string;
  ac_recycle_path : string;
  ac_permanent : bool;
  ac_created_at : time;
  ac_started_at : option time;
  ac_finished_at : option time;
}.

(** The columns of a group the engine does not read. *)
Record GroupMeta := {
  gm_stable_count : Z;
  gm_first_seen : time;
  gm_last_seen : time;
  gm_updated : time;
  gm_last_scan_id : Z;
}.

(** [gr_group] holds the columns of the group; its files are [gr_files]. *)
Record group_row := {
  gr_group : DuplicateGroup;
  gr_meta : GroupMeta;
  gr_files : list (Z * GroupFile);
  gr_retained : gmap string string;    (* overrides of versions that left the group *)
}.

Record store := {
  sd_groups : gmap Z group_row;
  sd_actions : gmap Z Action;
  sd_next_group : Z;
  sd_next_file : Z;
  sd_next_action : Z;
}.
Definition empty_store : store := {|
  sd_groups := ∅; sd_actions := ∅; sd_next_group := 1; sd_next_file := 1; sd_next_action := 1 |}.

(** ** Field updates *)

Definition set_groups (gs : gmap Z group_row) (s : store) : store := {|
  sd_groups := gs; sd_actions := sd_actions s; sd_next_group := sd_next_group s;
  sd_next_file := sd_next_file s; sd_next_action := sd_next_action s |}.
Definition set_actions (acts : gmap Z Action) (s : store) : store := {|
  sd_groups := sd_groups s; sd_actions := acts; sd_next_group := sd_next_group s;
  sd_next_file := sd_next_file s; sd_next_action := sd_next_action s |}.

Definition set_group (status : string) (reason : list status_item) (flags : list string) (files : list GroupFile)
    (reclaimable : Z) (g : DuplicateGroup) : DuplicateGroup := {|
  dg_key := dg_key g; dg_media_type := dg_media_type g; dg_title := dg_title g; dg_year := dg_year g;
  dg_show_title := dg_show_title g; dg_season := dg_season g; dg_episode := dg_episode g;
  dg_server_id := dg_server_id g; dg_library_ids := dg_library_ids g; dg_external_ids := dg_external_ids g;
  dg_status := status; dg_status_reason := reason; dg_flags := flags; dg_profile_id := dg_profile_id g;
  dg_files := files; dg_reclaimable_bytes := reclaimable; dg_signature := dg_signature g;
  dg_cross_server := dg_cross_server g |}.
Definition with_status (status : string) (reason : list status_item) (r : group_row) : group_row :=
  let g := gr_group r in {|
  gr_group := set_group status reason (dg_flags g) (dg_files g) (dg_reclaimable_bytes g) g;
  gr_meta := gr_meta r; gr_files := gr_files r; gr_retained := gr_retained r |}.
Definition with_flags (flags : list string) (r : group_row) : group_row :=
  let g := gr_group r in {|
  gr_group := set_group (dg_status g) (dg_status_reason g) flags (dg_files g) (dg_reclaimable_bytes g) g;
  gr_meta := gr_meta r; gr_files := gr_files r; gr_retained := gr_retained r |}.
Definition touch (now : time) (r : group_row) : group_row :=
  let m := gr_meta r in {|
  gr_group := gr_group r;
  gr_meta := {| gm_stable_count := gm_stable_count m; gm_first_seen := gm_first_seen m;
    gm_last_seen := gm_last_seen m; gm_updated := now; gm_last_scan_id := gm_last_scan_id m |};
  gr_files := gr_files r; gr_retained := gr_retained r |}.

Definition row_status (r : group_row) : string := dg_status (gr_group r).

(** [Get] / [GetByKey]: the group with its files. *)
Definition load_group (r : group_row) : DuplicateGroup :=
  let g := gr_group r in
  set_group (dg_status g) (dg_status_reason g) (dg_flags g) (map snd (gr_files r)) (dg_reclaimable_bytes g) g.

Definition set_decision (override decision : string) (f : GroupFile) : GroupFile := {|
  gf_version := gf_version f; gf_decision := decision; gf_engine_decision := gf_engine_decision f;
  gf_override := override; gf_rank := gf_rank f; gf_reasons := gf_reasons f;
  gf_deciding_criterion := gf_deciding_criterion f; gf_protected := gf_protected f;
  gf_protected_reason := gf_protected_reason f |}.

Definition file_key (f : GroupFile) : string := mv_key (gf_version f).

(** The status, message and times a removal gets. *)
Definition finish_action (status message : string) (finished : time) (a : Action) : Action := {|
  ac_id := ac_id a; ac_group_id := ac_group_id a; ac_group_file_id := ac_group_file_id a;
  ac_version_key := ac_version_key a; ac_title := ac_title a; ac_paths := ac_paths a; ac_size := ac_size a;
  ac_method := ac_method a; ac_status := status; ac_dry_run := ac_dry_run a; ac_message := message;
  ac_recycle_path := ac_recycle_path a; ac_permanent := ac_permanent a; ac_created_at := ac_created_at a;
  ac_started_at := ac_started_at a; ac_finished_at := Some finished |}.

(** ** Known values *)

Definition knownGroupStatuses : list string :=
  [GroupPending; GroupReview; GroupDeferred; GroupProtected; GroupQueued; GroupResolved; GroupIgnored; GroupFailed].
Definition validGroupStatus (s : string) : bool := mem s knownGroupStatuses.
Definition statusBlocksRemovals (s : string) : bool :=
  mem s [GroupIgnored; GroupResolved; GroupReview; GroupDeferred; GroupProtected].
Definition validDecision (d : string) : bool := mem d [""; DecisionKeep; DecisionRemove].
Definition knownActionStatuses : list string :=
  [ActionPending; ActionRunning; ActionSucceeded; ActionDryRun; ActionSkipped; ActionFailed; ActionCancelled].
Definition isQueuedStatus (s : string) : bool := String.eqb s ActionPending || String.eqb s ActionRunning.

(** ** Cancelling removals *)

Definition reopenedReason : list status_item :=
  [SIText "Queued removals were cancelled; check the decisions and approve again"].

(** Some removal of group [id] is pending or running. *)
Definition has_queued (s : store) (id : Z) : bool :=
  existsb (fun kv => (ac_group_id (snd kv) =? id) && isQueuedStatus (ac_status (snd kv))) (map_to_list (sd_actions s)).

(** [reopenEmptiedGroups]. *)
Definition reopenEmptiedGroups (now : time) (ids : list Z) (s : store) : store :=
  set_groups (map_imap (fun id r => Some
    (if mem id ids && String.eqb (row_status r) GroupQueued && negb (has_queued s id)
     then touch now (with_status GroupPending reopenedReason r) else r)) (sd_groups s)) s.

(** [cancelActions]: the removals in a status of [from] that satisfy [cond]. *)
Definition cancelActions (now : time) (from : list string) (message : string) (cond : Action -> bool) (s : store) :
    store * Z :=
  let hit a := mem (ac_status a) from && cond a in
  let cancelled := List.filter (fun kv => hit (snd kv)) (map_to_list (sd_actions s)) in
  let s' := set_actions ((fun a => if hit a then finish_action ActionCancelled message now a else a) <$> sd_actions s) s in
  (reopenEmptiedGroups now (map (fun kv => ac_group_id (snd kv)) cancelled) s', Z.of_nat (length cancelled)).
Definition cancelPending (now : time) (message : string) (cond : Action -> bool) (s : store) : store * Z :=
  cancelActions now [ActionPending] message cond s.

Definition cancelMessage := "Cancelled".
Definition cancelUserMessage := "Cancelled by user".
Definition cancelDeletedMessage := "Cancelled: the duplicate group was deleted".
Definition cancelIgnoredMessage := "Cancelled: the duplicate group was ignored".
Definition cancelResolvedMessage := "Cancelled: the duplicate was no longer detected by a full scan".
Definition cancelServerMessage := "Cancelled: the media server was removed from Dupearr".
Definition cancelArrMessage := "Cancelled: an *arr instance tracking a version of this group was removed from Dupearr".
Definition cancelExcludedMessage := "Cancelled: the content was excluded from duplicate detection".
Definition cancelStaleMessage :=
  "Cancelled: the version is no longer marked for removal (re-evaluated, overridden to keep, protected or gone)".

(** [statusCancelMessage]; the reason of the group is left out of the text. *)
Definition statusCancelMessage `{Unicode} (status : string) : string :=
  if String.eqb status GroupIgnored then cancelIgnoredMessage
  else if String.eqb status GroupResolved then "Cancelled: the duplicate group was marked resolved"
  else "Cancelled: the duplicate group moved to " +:+ quote status.

Definition cancelPendingActions (now : time) (group_id : Z) (message : string) (s : store) : store * Z :=
  cancelPending now message (fun a => ac_group_id a =? group_id) s.

(** The file an action targets: its version key, or its file id without one. *)
Definition stale_target (a : Action) (idf : Z * GroupFile) : bool :=
  if String.eqb (ac_version_key a) "" then fst idf =? ac_group_file_id a
  else String.eqb (file_key (snd idf)) (ac_version_key a).
Definition group_files (s : store) (id : Z) : list (Z * GroupFile) :=
  match sd_groups s !! id with Some r => gr_files r | None => [] end.
(** The condition of [cancelStaleActions]. *)
Definition is_stale (s : store) (group_id : Z) (a : Action) : bool :=
  (ac_group_id a =? group_id) &&
  negb (existsb (fun idf => String.eqb (gf_decision (snd idf)) DecisionRemove && stale_target a idf)
    (group_files s (ac_group_id a))).
Definition cancelStaleActions (now : time) (group_id : Z) (s : store) : store * Z :=
  cancelPending now cancelStaleMessage (is_stale s group_id) s.

(** ** Removals (actionRepo) *)

Inductive store_error :=
  | ErrInvalidStatus
  | ErrNotFound
  | ErrNotRemovable
  | ErrActionNotPending
  | ErrInvalidDecision
  | ErrEmptyKey
  | ErrEmptyVersionKey
  | ErrDuplicateVersionKey
  | ErrEmptyFlag.

(** [actionTargetRemovable]: the target is marked for removal right now. *)
Definition target_matches (file_id : Z) (version_key : string) (idf : Z * GroupFile) : bool :=
  String.eqb (gf_decision (snd idf)) DecisionRemove && negb (gf_protected (snd idf)) &&
  ((file_id =? 0) || (fst idf =? file_id)) &&
  (String.eqb version_key "" || String.eqb (file_key (snd idf)) version_key).
Definition actionTargetRemovable (s : store) (group_id file_id : Z) (version_key : string) : bool :=
  if (file_id =? 0) && String.eqb version_key "" then false else
  match sd_groups s !! group_id with
  | None => false
  | Some r =>
    negb (String.eqb (row_status r) GroupIgnored || String.eqb (row_status r) GroupResolved) &&
    existsb (target_matches file_id version_key) (gr_files r)
  end.
Definition action_removable (s : store) (a : Action) : bool :=
  actionTargetRemovable s (ac_group_id a) (ac_group_file_id a) (ac_version_key a).

Definition with_new_id (id : Z) (status : string) (created : time) (a : Action) : Action := {|
  ac_id := id; ac_group_id := ac_group_id a; ac_group_file_id := ac_group_file_id a;
  ac_version_key := ac_version_key a; ac_title := ac_title a; ac_paths := ac_paths a; ac_size := ac_size a;
  ac_method := ac_method a; ac_status := status; ac_dry_run := ac_dry_run a; ac_message := ac_message a;
  ac_recycle_path := ac_recycle_path a; ac_permanent := ac_permanent a; ac_created_at := created;
  ac_started_at := ac_started_at a; ac_finished_at := ac_finished_at a |}.

(** [actionRepo.Create]. *)
Definition CreateAction (now : time) (a : Action) (s : store) : store_error + (store * Action) :=
  let status := if String.eqb (ac_status a) "" then ActionPending else ac_status a in
  if negb (mem status knownActionStatuses) then inl ErrInvalidStatus
  else if isQueuedStatus status && negb (action_removable s a) then inl ErrNotRemovable
  else
    let id := sd_next_action s in
    let a' := with_new_id id status (if is_zero (ac_created_at a) then now else ac_created_at a) a in
    inr ({| sd_groups := sd_groups s; sd_actions := <[id := a']> (sd_actions s); sd_next_group := sd_next_group s;
            sd_next_file := sd_next_file s; sd_next_action := id + 1 |}, a').

(** [checkActionTransition]. *)
Definition checkActionTransition (current next : string) : bool :=
  if String.eqb next ActionRunning then isQueuedStatus current
  else if String.eqb next ActionPending then
    negb (String.eqb current ActionCancelled || String.eqb current ActionSucceeded)
  else if String.eqb next ActionCancelled then isQueuedStatus current || String.eqb current ActionCancelled
  else true.

(** What a transaction that was refused has nevertheless written. *)
Inductive update_result := Updated | Refused (e : store_error) | CancelledStale.

(** [actionRepo.Update]: every column but the id and the creation time. *)
Definition UpdateAction (now : time) (a : Action) (s : store) : store * update_result :=
  if negb (mem (ac_status a) knownActionStatuses) then (s, Refused ErrInvalidStatus) else
  match sd_actions s !! ac_id a with
  | None => (s, Refused ErrNotFound)
  | Some old =>
    let current := ac_status old in
    if negb (checkActionTransition current (ac_status a)) then (s, Refused ErrActionNotPending)
    else if (String.eqb (ac_status a) ActionPending ||
             (String.eqb (ac_status a) ActionRunning && String.eqb current ActionPending)) &&
            negb (action_removable s a)
    then
      if negb (isQueuedStatus current) then (s, Refused ErrNotRemovable)
      else (fst (cancelActions now [current] cancelStaleMessage (fun x => ac_id x =? ac_id a) s), CancelledStale)
    else
      let s' := set_actions (<[ac_id a := with_new_id (ac_id a) (ac_status a) (ac_created_at old) a]> (sd_actions s)) s in
      if String.eqb (ac_status a) ActionCancelled && negb (String.eqb current ActionCancelled)
      then (reopenEmptiedGroups now [ac_group_id a] s', Updated) else (s', Updated)
  end.

Definition CancelPendingForGroup (now : time) (group_id : Z) (s : store) : store * Z :=
  cancelPendingActions now group_id cancelMessage s.

(** [CancelIfPending]. *)
Definition CancelIfPending (now : time) (id : Z) (s : store) : store_error + (store * bool) :=
  let '(s', n) := cancelPending now cancelUserMessage (fun a => ac_id a =? id) s in
  if 0 <? n then inr (s', true)
  else match sd_actions s !! id with Some _ => inr (s', false) | None => inl ErrNotFound end.

(** [ListPending] and [ListByGroup]: oldest first, then by id. *)
Definition action_before (a b : Action) : bool :=
  (ac_created_at a <? ac_created_at b) || ((ac_created_at a =? ac_created_at b) && (ac_id a <? ac_id b)).
Definition list_actions (f : Action -> bool) (s : store) : list Action :=
  stable_sort action_before (List.filter f (map snd (map_to_list (sd_actions s)))).
Definition ListPending (s : store) : list Action := list_actions (fun a => String.eqb (ac_status a) ActionPending) s.
Definition ListByGroup (group_id : Z) (s : store) : list Action := list_actions (fun a => ac_group_id a =? group_id) s.

(** ** Groups (groupRepo) *)

Section groups.
Context `{Unicode}.

(** [afterStatusChange]. *)
Definition afterStatusChange (now : time) (id : Z) (status : string) (s : store) : store :=
  if statusBlocksRemovals status then fst (cancelPendingActions now id (statusCancelMessage status) s) else s.

(** [UpdateStatusIf]: a compare-and-set of the status; [UpdateStatus] takes any. *)
Definition UpdateStatusIf (now : time) (id : Z) (from : list string) (to : string) (reason : list status_item)
    (s : store) : store_error + (store * bool) :=
  if negb (validGroupStatus to) then inl ErrInvalidStatus
  else if negb (forallb validGroupStatus from) then inl ErrInvalidStatus
  else match from with
  | [] => inr (s, false)
  | _ =>
    match sd_groups s !! id with
    | None => inl ErrNotFound
    | Some r =>
      if mem (row_status r) from
      then inr (afterStatusChange now id to (set_groups (<[id := touch now (with_status to reason r)]> (sd_groups s)) s), true)
      else inr (s, false)
    end
  end.
Definition UpdateStatus (now : time) (id : Z) (to : string) (reason : list status_item) (s : store) :
    store_error + store :=
  if negb (validGroupStatus to) then inl ErrInvalidStatus
  else match sd_groups s !! id with
  | None => inl ErrNotFound
  | Some r =>
    inr (afterStatusChange now id to (set_groups (<[id := touch now (with_status to reason r)]> (sd_groups s)) s))
  end.

(** [SetFlag]: one copy of the flag added, or every copy removed. *)
Definition SetFlag (now : time) (id : Z) (flag : string) (on : bool) (s : store) : store_error + store :=
  let flag := trim_space flag in
  if String.eqb flag "" then inl ErrEmptyFlag else
  match sd_groups s !! id with
  | None => inl ErrNotFound
  | Some r =>
    let flags := dg_flags (gr_group r) in
    if Bool.eqb (mem flag flags) on then inr s else
    let flags' := if on then (flags ++ [flag])%list else List.filter (fun f => negb (String.eqb f flag)) flags in
    inr (set_groups (<[id := touch now (with_flags flags' r)]> (sd_groups s)) s)
  end.

Definition with_files (files : list (Z * GroupFile)) (r : group_row) : group_row := {|
  gr_group := gr_group r; gr_meta := gr_meta r; gr_files := files; gr_retained := gr_retained r |}.

(** [SetOverride]: "keep" takes effect at once. *)
Definition SetOverride (now : time) (group_id file_id : Z) (d : string) (s : store) : store_error + store :=
  if negb (validDecision d) then inl ErrInvalidDecision else
  match sd_groups s !! group_id with
  | None => inl ErrNotFound
  | Some r =>
    if negb (existsb (fun idf => fst idf =? file_id) (gr_files r)) then inl ErrNotFound else
    let files := map (fun idf => if fst idf =? file_id
      then (fst idf, set_decision d (if String.eqb d DecisionKeep then DecisionKeep else gf_decision (snd idf)) (snd idf))
      else idf) (gr_files r) in
    let s' := set_groups (<[group_id := touch now (with_files files r)]> (sd_groups s)) s in
    inr (if String.eqb d DecisionKeep then fst (cancelStaleActions now group_id s') else s')
  end.

(** [MarkUnseenResolved]: groups a full scan of their libraries did not see. *)
Definition resolvedReason : list status_item := [SIText "No longer detected as a duplicate by the last full scan"].
Definition unseen (scan_id : Z) (libraries : list Z) (r : group_row) : bool :=
  negb (String.eqb (row_status r) GroupIgnored || String.eqb (row_status r) GroupResolved) &&
  negb (gm_last_scan_id (gr_meta r) =? scan_id) &&
  existsb (fun l => mem l libraries) (default [] (dg_library_ids (gr_group r))).
Definition MarkUnseenResolved (now : time) (scan_id : Z) (libraries : list Z) (s : store) : store * list Z :=
  let ids := map fst (List.filter (fun kv => unseen scan_id libraries (snd kv)) (map_to_list (sd_groups s))) in
  let s' := set_groups ((fun r => if unseen scan_id libraries r
    then touch now (with_status GroupResolved resolvedReason r) else r) <$> sd_groups s) s in
  (match ids with
   | [] => s'
   | _ => fst (cancelPending now cancelResolvedMessage (fun a => mem (ac_group_id a) ids) s')
   end, stable_sort Z.ltb ids).

(** [Delete]: the files go with the group, the removals stay on record. *)
Definition DeleteGroup (now : time) (id : Z) (s : store) : store_error + store :=
  match sd_groups s !! id with
  | None => inl ErrNotFound
  | Some _ => inr (fst (cancelPendingActions now id cancelDeletedMessage (set_groups (delete id (sd_groups s)) s)))
  end.
End groups.

(** ** Upsert *)

Section upsert.
Context `{Unicode}.

(** The checks on the files, in the source's order. *)
Fixpoint check_files (seen : list string) (files : list GroupFile) : option store_error :=
  match files with
  | [] => None
  | f :: files' =>
    let k := file_key f in
    if blank k then Some ErrEmptyVersionKey
    else if mem k seen then Some ErrDuplicateVersionKey
    else if negb (validDecision (gf_decision f) && validDecision (gf_engine_decision f) && validDecision (gf_override f))
    then Some ErrInvalidDecision
    else check_files (k :: seen) files'
  end.

Definition stored_file (key : string) (stored : list (Z * GroupFile)) : option (Z * GroupFile) :=
  find (fun idf => String.eqb (file_key (snd idf)) key) stored.

(** The override that wins: the stored row's, else the one retained when the
    version left, else the caller's. *)
Definition upsert_override (stored : list (Z * GroupFile)) (retained : gmap string string) (f : GroupFile) : string :=
  match stored_file (file_key f) stored with
  | Some (_, old) => gf_override old
  | None =>
    match retained !! file_key f with
    | Some ov => if negb (String.eqb ov "") && validDecision ov then ov else gf_override f
    | None => gf_override f
    end
  end.
Definition effective_keep (override : string) (f : GroupFile) : bool :=
  String.eqb (if String.eqb override "" then gf_engine_decision f else override) DecisionKeep || gf_protected f.
Definition upsert_decision (override : string) (f : GroupFile) : string :=
  if effective_keep override f && negb (String.eqb (gf_decision f) DecisionKeep) then DecisionKeep else gf_decision f.

Definition hardlinked (v : MediaVersion) : bool := existsb (fun p => 1 <? mp_link_count p) (mv_parts v).

(** What a removal turned into a keep no longer frees. *)
Definition reclaim_lost (override : string) (f : GroupFile) : Z :=
  if effective_keep override f && String.eqb (gf_decision f) DecisionRemove then
    let v := gf_version f in
    match mv_disc v with
    | Some d => if 0 <? di_total_bytes d then di_freed_bytes d else if hardlinked v then 0 else TotalSize v
    | None => if hardlinked v then 0 else TotalSize v
    end
  else 0.

(** One file: its row, and what remains of the retained overrides. *)
Definition upsert_file (stored : list (Z * GroupFile)) (acc : list GroupFile * gmap string string * Z) (f : GroupFile) :
    list GroupFile * gmap string string * Z :=
  let '(out, retained, reclaimable) := acc in
  let ov := upsert_override stored retained f in
  ((out ++ [set_decision ov (upsert_decision ov f) f])%list, delete (file_key f) retained,
   wrap64 (reclaimable - reclaim_lost ov f)).

(** Ids: of the stored row, or new ones in order. *)
Fixpoint number_files (stored : list (Z * GroupFile)) (next : Z) (files : list GroupFile) : list (Z * GroupFile) * Z :=
  match files with
  | [] => ([], next)
  | f :: files' =>
    match stored_file (file_key f) stored with
    | Some (id, _) => let '(rest, next') := number_files stored next files' in ((id, f) :: rest, next')
    | None => let '(rest, next') := number_files stored (next + 1) files' in ((next, f) :: rest, next')
    end
  end.

(** The overrides of versions that leave with this upsert. *)
Definition retain_vanished (incoming : list string) (stored : list (Z * GroupFile)) (retained : gmap string string) :
    gmap string string :=
  foldl (fun m idf => let k := file_key (snd idf) in
    if negb (mem k incoming) && negb (String.eqb (gf_override (snd idf)) "") then <[k := gf_override (snd idf)]> m else m)
    retained stored.

Definition noKeeperReason : list status_item :=
  [SIText "Safety: no version of this group is marked keep; check the decisions"].

(** A nil list of libraries is stored as an empty one. *)
Definition non_nil_libraries (g : DuplicateGroup) : DuplicateGroup := {|
  dg_key := dg_key g; dg_media_type := dg_media_type g; dg_title := dg_title g; dg_year := dg_year g;
  dg_show_title := dg_show_title g; dg_season := dg_season g; dg_episode := dg_episode g;
  dg_server_id := dg_server_id g; dg_library_ids := Some (default [] (dg_library_ids g));
  dg_external_ids := dg_external_ids g; dg_status := dg_status g; dg_status_reason := dg_status_reason g;
  dg_flags := dg_flags g; dg_profile_id := dg_profile_id g; dg_files := dg_files g;
  dg_reclaimable_bytes := dg_reclaimable_bytes g; dg_signature := dg_signature g;
  dg_cross_server := dg_cross_server g |}.

(** The row [Upsert] writes over [old], with the next file id. *)
Definition upsert_row (now : time) (status : string) (g : DuplicateGroup) (m : GroupMeta) (old : option group_row)
    (next_file : Z) : group_row * Z :=
  let stored := match old with Some r => gr_files r | None => [] end in
  let retained := match old with Some r => gr_retained r | None => ∅ end in
  let '(status, reason) := match old with
    | Some r => if String.eqb (row_status r) GroupIgnored then (GroupIgnored, dg_status_reason (gr_group r))
                else (status, dg_status_reason g)
    | None => (status, dg_status_reason g)
    end in
  let '(files, retained, reclaimable) :=
    foldl (upsert_file stored) ([], retained, dg_reclaimable_bytes g) (dg_files g) in
  let reclaimable := Z.max reclaimable 0 in
  let retained := retain_vanished (map file_key (dg_files g)) stored retained in
  let '(status, reason) :=
    if negb (bool_decide (dg_files g = [])) && negb (String.eqb status GroupIgnored) &&
       negb (String.eqb status GroupResolved) &&
       negb (existsb (fun f => String.eqb (gf_decision f) DecisionKeep) files)
    then (GroupReview, noKeeperReason) else (status, reason) in
  let '(rows, next_file) := number_files stored next_file files in
  ({| gr_group := non_nil_libraries (set_group status reason (dg_flags g) [] reclaimable g);
      gr_meta := {| gm_stable_count := gm_stable_count m;
        gm_first_seen := match old with Some r => gm_first_seen (gr_meta r)
                         | None => if is_zero (gm_first_seen m) then now else gm_first_seen m end;
        gm_last_seen := if is_zero (gm_last_seen m) then now else gm_last_seen m;
        gm_updated := now; gm_last_scan_id := gm_last_scan_id m |};
      gr_files := rows; gr_retained := retained |}, next_file).

Definition group_by_key (key : string) (s : store) : option (Z * group_row) :=
  find (fun kv => String.eqb (dg_key (gr_group (snd kv))) key) (map_to_list (sd_groups s)).

(** [Upsert]: whether the group was created, and its id. *)
Definition Upsert (now : time) (g : DuplicateGroup) (m : GroupMeta) (s : store) : store_error + (store * Z * bool) :=
  if blank (dg_key g) then inl ErrEmptyKey else
  let status := if String.eqb (dg_status g) "" then GroupReview else dg_status g in
  if negb (validGroupStatus status) then inl ErrInvalidStatus else
  match check_files [] (dg_files g) with
  | Some e => inl e
  | None =>
    match group_by_key (dg_key g) s with
    | None =>
      let id := sd_next_group s in
      let '(r, next_file) := upsert_row now status g m None (sd_next_file s) in
      inr ({| sd_groups := <[id := r]> (sd_groups s); sd_actions := sd_actions s; sd_next_group := id + 1;
              sd_next_file := next_file; sd_next_action := sd_next_action s |}, id, true)
    | Some (id, old) =>
      let '(r, next_file) := upsert_row now status g m (Some old) (sd_next_file s) in
      let s1 := {| sd_groups := <[id := r]> (sd_groups s); sd_actions := sd_actions s; sd_next_group := sd_next_group s;
                   sd_next_file := next_file; sd_next_action := sd_next_action s |} in
      let s2 := if statusBlocksRemovals (row_status r)
        then fst (cancelPendingActions now id (statusCancelMessage (row_status r)) s1) else s1 in
      inr (fst (cancelStaleActions now id s2), id, false)
    end
  end.

(** ** Exclusions *)

(** The groups an exclusion covers, as SQL selects them: prefixes of paths are
    compared as ASCII lower case, without segments. *)
Definition exclusion_covers (e : Exclusion) (r : group_row) : bool :=
  let value := trim_space (ex_value e) in
  if String.eqb (ex_kind e) ExcludeGroupKey then String.eqb (dg_key (gr_group r)) value
  else if String.eqb (ex_kind e) ExcludeLibrary then
    match parse_int value with
    | Some id => mem id (default [] (dg_library_ids (gr_group r)))
    | None => false
    end
  else if String.eqb (ex_kind e) ExcludePathPrefix then
    existsb (fun idf => existsb (fun p =>
      has_prefix (smap lower_ascii (mp_path p)) (smap lower_ascii value) ||
      has_prefix (smap lower_ascii (mp_local_path p)) (smap lower_ascii value))
      (mv_parts (gf_version (snd idf)))) (gr_files r)
  else false.

(** [exclusionRepo.Create]: the removals it cancels. *)
Definition exclude_removals (now : time) (e : Exclusion) (s : store) : store_error + store :=
  if blank (ex_kind e) || blank (ex_value e) then inl ErrEmptyKey else
  inr (fst (cancelPending now cancelExcludedMessage (fun a =>
    match sd_groups s !! ac_group_id a with Some r => exclusion_covers e r | None => false end) s)).
End upsert.

(** ** Connections that are deleted *)

(** [mediaServerRepo.Delete] and [arrInstanceRepo.Delete]: the removals they cancel. *)
Definition delete_server_removals (now : time) (id : Z) (s : store) : store :=
  fst (cancelPending now cancelServerMessage (fun a =>
    match sd_groups s !! ac_group_id a with Some r => dg_server_id (gr_group r) =? id | None => false end) s).
Definition tracked_by (id : Z) (f : GroupFile) : bool :=
  match mv_arr (gf_version f) with Some i => af_instance_id i =? id | None => false end.
Definition delete_arr_removals (now : time) (id : Z) (s : store) : store :=
  fst (cancelPending now cancelArrMessage
    (fun a => existsb (fun idf => tracked_by id (snd idf)) (group_files s (ac_group_id a))) s).

(** ** Transactions *)

(** One write transaction of any caller that changes a group or a removal: the
    scanner, the executor, the API. *)
Inductive sstep `{Unicode} (s : store) : store -> Prop :=
  | st_create now a s' a' : CreateAction now a s = inr (s', a') -> sstep s s'
  | st_update now a : sstep s (fst (UpdateAction now a s))
  | st_cancel_group now id : sstep s (fst (CancelPendingForGroup now id s))
  | st_cancel now id s' b : CancelIfPending now id s = inr (s', b) -> sstep s s'
  | st_upsert now g m s' id b : Upsert now g m s = inr (s', id, b) -> sstep s s'
  | st_status now id to reason s' : UpdateStatus now id to reason s = inr s' -> sstep s s'
  | st_status_if now id from to reason s' b : UpdateStatusIf now id from to reason s = inr (s', b) -> sstep s s'
  | st_flag now id flag on s' : SetFlag now id flag on s = inr s' -> sstep s s'
  | st_override now gid fid d s' : SetOverride now gid fid d s = inr s' -> sstep s s'
  | st_unseen now scan libs : sstep s (fst (MarkUnseenResolved now scan libs s))
  | st_delete now id s' : DeleteGroup now id s = inr s' -> sstep s s'
  | st_exclude now e s' : exclude_removals now e s = inr s' -> sstep s s'
  | st_delete_server now id : sstep s (delete_server_removals now id s)
  | st_delete_arr now id : sstep s (delete_arr_removals now id s).

Definition sreachable `{Unicode} (s : store) : Prop := rtc sstep empty_store s.
