(* ===== verification/StoreFacts.v ===== *)
(** * Invariants of the store

    What every write transaction keeps: the keys of a group's files are distinct,
    a protected file and one the user overrode to "keep" are decided "keep", and a
    pending removal targets a file decided "remove" in a group that is neither
    ignored nor resolved. *)

From S2P Require Import Prelude GoStd Models Paths Store.
Local Open Scope string_scope.
Local Open Scope Z_scope.

Definition removed_target (a : Action) (idf : Z * GroupFile) : bool :=
  String.eqb (gf_decision (snd idf)) DecisionRemove && stale_target a idf.

(** The target of a removal is still marked for removal. *)
Definition row_targets (r : group_row) (a : Action) : bool :=
  negb (String.eqb (row_status r) GroupIgnored || String.eqb (row_status r) GroupResolved) &&
  existsb (removed_target a) (gr_files r).
Definition target_current (s : store) (a : Action) : bool :=
  match sd_groups s !! ac_group_id a with Some r => row_targets r a | None => false end.

Definition file_kept (f : GroupFile) : Prop :=
  gf_protected f = true \/ gf_override f = DecisionKeep -> gf_decision f = DecisionKeep.
Record row_ok (r : group_row) : Prop := {
  ro_keys : NoDup (map (fun idf => file_key (snd idf)) (gr_files r));
  ro_kept : forall idf, idf ∈ gr_files r -> file_kept (snd idf);
  ro_overrides : forall idf, idf ∈ gr_files r -> validDecision (gf_override (snd idf)) = true;
  ro_retained : forall k ov, gr_retained r !! k = Some ov -> validDecision ov = true;
}.

Lemma row_same_files r r' : gr_files r' = gr_files r -> gr_retained r' = gr_retained r -> row_ok r -> row_ok r'.
Proof. intros Hf Ht [Hk Hd Ho Hr]. by constructor; rewrite ?Hf, ?Ht. Qed.

Record store_ok (s : store) : Prop := {
  so_groups : forall id r, sd_groups s !! id = Some r -> id < sd_next_group s /\ row_ok r;
  so_actions : forall id a, sd_actions s !! id = Some a -> ac_id a = id /\ id < sd_next_action s;
  so_pending : forall id a, sd_actions s !! id = Some a -> ac_status a = ActionPending -> target_current s a = true;
}.

(** ** Reopening and cancelling *)

(** The groups of two stores differ in status, reason and times only, and no
    group becomes ignored or resolved. *)
Definition same_groups (s s' : store) : Prop := forall id,
  match sd_groups s !! id, sd_groups s' !! id with
  | Some r, Some r' => gr_files r' = gr_files r /\ forall a, row_targets r a = true -> row_targets r' a = true
  | None, None => True
  | _, _ => False
  end.

Lemma same_groups_refl s : same_groups s s.
Proof. intros id. by destruct (sd_groups s !! id). Qed.

Lemma same_target s s' a : same_groups s s' -> target_current s a = true -> target_current s' a = true.
Proof.
  intros Hs. unfold target_current. specialize (Hs (ac_group_id a)).
  destruct (sd_groups s !! _), (sd_groups s' !! _); try done. naive_solver.
Qed.

Lemma reopen_same now ids s : same_groups s (reopenEmptiedGroups now ids s).
Proof.
  intros id. cbn. rewrite map_lookup_imap. destruct (sd_groups s !! id) as [r|]; cbn; [| done].
  destruct (mem id ids && String.eqb (row_status r) GroupQueued && negb (has_queued s id)) eqn:E; [| done].
  split; [done |]. intros a. unfold row_targets. cbn. by intros [_ ?]%andb_true_iff.
Qed.

Lemma reopen_actions now ids s : sd_actions (reopenEmptiedGroups now ids s) = sd_actions s.
Proof. done. Qed.

Lemma reopen_row now ids s id r' : sd_groups (reopenEmptiedGroups now ids s) !! id = Some r' ->
  exists r, sd_groups s !! id = Some r /\ gr_files r' = gr_files r /\ gr_retained r' = gr_retained r /\
    (r' = r \/ (row_status r = GroupQueued /\ row_status r' = GroupPending /\ has_queued s id = false)).
Proof.
  cbn. rewrite map_lookup_imap. destruct (sd_groups s !! id) as [r|]; [| done]. cbn. intros [= <-].
  exists r. split; [done |].
  destruct (mem id ids && String.eqb (row_status r) GroupQueued && negb (has_queued s id)) eqn:E.
  - apply andb_true_iff in E as [[_ Hq%String.eqb_eq]%andb_true_iff Hh%negb_true_iff]. split_and!; try done. by right.
  - split_and!; try done. by left.
Qed.

(** The removals after a cancellation. *)
Lemma cancel_actions now from msg cond s s' n : cancelActions now from msg cond s = (s', n) ->
  forall id a', sd_actions s' !! id = Some a' -> exists a, sd_actions s !! id = Some a /\
    ((a' = a /\ mem (ac_status a) from && cond a = false) \/
     (a' = finish_action ActionCancelled msg now a /\ mem (ac_status a) from && cond a = true)).
Proof.
  unfold cancelActions. intros [= <- <-] id a'. rewrite reopen_actions. cbn. rewrite lookup_fmap.
  destruct (sd_actions s !! id) as [a|]; [| done]. intros [= <-]. exists a. split; [done |].
  destruct (mem (ac_status a) from && cond a) eqn:E; [by right | by left].
Qed.

Lemma cancel_groups now from msg cond s s' n : cancelActions now from msg cond s = (s', n) -> same_groups s s'.
Proof.
  unfold cancelActions. intros [= <- <-] id. specialize (reopen_same now (map (fun kv => ac_group_id (snd kv))
    (List.filter (fun kv => mem (ac_status (snd kv)) from && cond (snd kv)) (map_to_list (sd_actions s))))
    (set_actions ((fun a => if mem (ac_status a) from && cond a then finish_action ActionCancelled msg now a else a)
      <$> sd_actions s) s) id). done.
Qed.

Lemma cancel_row now from msg cond s s' n id r' : cancelActions now from msg cond s = (s', n) ->
  sd_groups s' !! id = Some r' -> exists r, sd_groups s !! id = Some r /\ gr_files r' = gr_files r /\
    gr_retained r' = gr_retained r.
Proof.
  unfold cancelActions. intros [= <- <-] Hr'. apply reopen_row in Hr' as (r & Hr & Hf & Ht & _). by exists r.
Qed.

Lemma cancel_counters now from msg cond s s' n : cancelActions now from msg cond s = (s', n) ->
  sd_next_group s' = sd_next_group s /\ sd_next_action s' = sd_next_action s /\ sd_next_file s' = sd_next_file s.
Proof. unfold cancelActions. by intros [= <- <-]. Qed.

Lemma cancelled_not_pending msg now a : ac_status (finish_action ActionCancelled msg now a) <> ActionPending.
Proof. done. Qed.

(** Changing the groups and then cancelling what the change invalidates. *)
Lemma cancel_ok now msg cond s s1 s' n :
  cancelPending now msg cond s1 = (s', n) -> store_ok s -> sd_actions s1 = sd_actions s -> sd_next_action s1 = sd_next_action s ->
  (forall id r, sd_groups s1 !! id = Some r -> id < sd_next_group s1 /\ row_ok r) ->
  (forall a, target_current s a = true -> cond a = false -> target_current s1 a = true) -> store_ok s'.
Proof.
  intros Hc [_ Hacts Hpend] Ha Hna Hg Hcur. unfold cancelPending in Hc.
  destruct (cancel_counters _ _ _ _ _ _ _ Hc) as (Hn1 & Hn2 & _). constructor.
  - intros id r' Hr'. destruct (cancel_row _ _ _ _ _ _ _ _ _ Hc Hr') as (r & Hr & Hf & Ht).
    destruct (Hg id r Hr) as [Hlt Hrow]. rewrite Hn1. split; [done | by apply (row_same_files r)].
  - intros id a' Hid. destruct (cancel_actions _ _ _ _ _ _ _ Hc id a' Hid) as (a & Hl & Hcase).
    rewrite Ha in Hl. rewrite Hn2, Hna. destruct (Hacts id a Hl). destruct Hcase as [[-> _]|[-> _]]; done.
  - intros id a' Hid Hp. destruct (cancel_actions _ _ _ _ _ _ _ Hc id a' Hid) as (a & Hl & [[-> Hno]|[-> _]]); [| done].
    rewrite Ha in Hl. apply (same_target s1); [by eapply cancel_groups |].
    apply Hcur; [by eapply Hpend |]. rewrite Hp in Hno. done.
Qed.

Lemma cancel_only now msg cond s s' n : store_ok s -> cancelPending now msg cond s = (s', n) -> store_ok s'.
Proof. intros Hs Hc. apply (cancel_ok _ _ _ s _ _ _ Hc Hs); try done. apply Hs. Qed.

(** ** Removals *)

Lemma existsb_impl {A} (f g : A -> bool) l :
  (forall x, x ∈ l -> f x = true -> g x = true) -> existsb f l = true -> existsb g l = true.
Proof. intros Hfg (x & Hx & Hf)%existsb_elem. apply existsb_elem. eauto. Qed.

Lemma removable_current s a : action_removable s a = true -> target_current s a = true.
Proof.
  unfold action_removable, actionTargetRemovable, target_current, row_targets.
  destruct ((ac_group_file_id a =? 0) && String.eqb (ac_version_key a) "") eqn:E0; [done |].
  destruct (sd_groups s !! ac_group_id a) as [r|]; [| done].
  intros [-> Hf]%andb_true_iff. revert Hf. apply existsb_impl. intros [fid f] _.
  unfold target_matches, removed_target, stale_target. cbn.
  destruct (String.eqb (ac_version_key a) "") eqn:Ek; intros Hm; bsimp.
  - rewrite andb_true_r in E0. rewrite E0 in *. cbn in *. by rewrite H, H1.
  - cbn in *. by rewrite H, H0.
Qed.

(** The removals change, the groups do not. *)
Lemma actions_ok s s' : store_ok s -> sd_groups s' = sd_groups s -> sd_next_group s' = sd_next_group s ->
  (forall id a, sd_actions s' !! id = Some a -> ac_id a = id /\ id < sd_next_action s' /\
     (ac_status a = ActionPending -> target_current s a = true)) -> store_ok s'.
Proof.
  intros [Hg _ _] Heq Hn Ha. constructor.
  - rewrite Heq, Hn. exact Hg.
  - intros id a Hl. destruct (Ha id a Hl) as (? & ? & _). done.
  - intros id a Hl Hp. destruct (Ha id a Hl) as (_ & _ & Hc). unfold target_current. rewrite Heq. by apply Hc.
Qed.

(** Reopening changes no target. *)
Lemma reopen_ok now ids s : store_ok s -> store_ok (reopenEmptiedGroups now ids s).
Proof.
  intros [Hg Ha Hp]. constructor.
  - intros id r' Hr'. apply reopen_row in Hr' as (r & Hr & Hf & Ht & _). destruct (Hg id r Hr) as [Hlt Hrow].
    split; [done | by apply (row_same_files r)].
  - exact Ha.
  - intros id a Hl Hs. apply (same_target s); [apply reopen_same | by eapply Hp].
Qed.

Lemma create_ok now a s s' a' : CreateAction now a s = inr (s', a') -> store_ok s -> store_ok s'.
Proof.
  unfold CreateAction. intros Hc Hs. case_match eqn:E0; [done |]. case_match eqn:E1; [done |].
  injection Hc as <- _. pose proof Hs as [Hg Ha Hp]. apply (actions_ok s); try done. cbn.
  intros id x [[<- <-]|[_ Hx]]%lookup_insert_Some; [| destruct (Ha id x Hx); eauto with lia].
  split_and!; [done | lia |]. cbn. intros Hst. apply andb_false_iff in E1 as [E1|E1%negb_false_iff].
  - rewrite Hst in E1. done.
  - by apply removable_current in E1.
Qed.

(** What [Update] did, when it was not refused. *)
Lemma update_cases now a s s' res : UpdateAction now a s = (s', res) ->
  (s' = s /\ exists e, res = Refused e) \/
  (exists n, res = CancelledStale /\ exists old, sd_actions s !! ac_id a = Some old /\
     isQueuedStatus (ac_status old) = true /\
     cancelActions now [ac_status old] cancelStaleMessage (fun x => ac_id x =? ac_id a) s = (s', n)) \/
  (exists old, res = Updated /\ sd_actions s !! ac_id a = Some old /\
     checkActionTransition (ac_status old) (ac_status a) = true /\
     (ac_status a = ActionPending \/ (ac_status a = ActionRunning /\ ac_status old = ActionPending) ->
      action_removable s a = true) /\
     let s1 := set_actions (<[ac_id a := with_new_id (ac_id a) (ac_status a) (ac_created_at old) a]> (sd_actions s)) s in
     s' = if String.eqb (ac_status a) ActionCancelled && negb (String.eqb (ac_status old) ActionCancelled)
          then reopenEmptiedGroups now [ac_group_id a] s1 else s1).
Proof.
  unfold UpdateAction. case_match; [intros [= <- <-]; left; eauto |].
  destruct (sd_actions s !! ac_id a) as [old|] eqn:Hl; [| intros [= <- <-]; left; eauto].
  case_match eqn:Ht; [intros [= <- <-]; left; eauto |]. apply negb_false_iff in Ht.
  case_match eqn:Hr.
  - case_match eqn:Eq; [intros [= <- <-]; left; eauto |]. apply negb_false_iff in Eq.
    destruct (cancelActions _ _ _ _ _) as [s1 n] eqn:Ec. intros [= <- <-]. right. left. eauto 8.
  - intros Hfin. right. right. exists old.
    assert (Hrem : ac_status a = ActionPending \/ (ac_status a = ActionRunning /\ ac_status old = ActionPending) ->
      action_removable s a = true).
    { intros Hst. apply andb_false_iff in Hr as [Hr|Hr%negb_false_iff]; [| done]. exfalso.
      destruct Hst as [E|[E1 E2]]; [by rewrite E in Hr | by rewrite E1, E2 in Hr]. }
    case_match; injection Hfin as <- <-; by split_and!.
Qed.

Lemma update_ok now a s : store_ok s -> store_ok (fst (UpdateAction now a s)).
Proof.
  intros Hs. destruct (UpdateAction now a s) as [s' res] eqn:E. cbn.
  apply update_cases in E as [[-> _]|[(n & _ & old & Hl & _ & Hc)|(old & _ & Hl & _ & Hrem & Hs')]]; [done | |].
  - pose proof Hs as [Hg Ha Hp]. destruct (cancel_counters _ _ _ _ _ _ _ Hc) as (Hn1 & Hn2 & _). constructor.
    + intros id r' Hr'. destruct (cancel_row _ _ _ _ _ _ _ _ _ Hc Hr') as (r & Hr & Hf & Ht).
      destruct (Hg id r Hr) as [Hlt Hrow]. rewrite Hn1. split; [done | by apply (row_same_files r)].
    + intros id x Hx. destruct (cancel_actions _ _ _ _ _ _ _ Hc id x Hx) as (y & Hy & [[-> _]|[-> _]]);
        rewrite Hn2; by destruct (Ha id y Hy).
    + intros id x Hx Hst. destruct (cancel_actions _ _ _ _ _ _ _ Hc id x Hx) as (y & Hy & [[-> _]|[-> _]]); [| done].
      apply (same_target s); [by eapply cancel_groups | by eapply Hp].
  - assert (Hs1 : store_ok (set_actions (<[ac_id a := with_new_id (ac_id a) (ac_status a) (ac_created_at old) a]>
      (sd_actions s)) s)).
    { pose proof Hs as [Hg Ha Hp]. apply (actions_ok s); try done. cbn.
      intros id x [[<- <-]|[_ Hx]]%lookup_insert_Some; [| destruct (Ha id x Hx); eauto].
      destruct (Ha _ _ Hl). split_and!; [done | done |]. cbn. intros Hst.
      apply removable_current in Hrem; [done | by left]. }
    rewrite Hs'. case_match; [by apply reopen_ok | done].
Qed.

(** ** Groups *)

(** One group's row changes. *)
Lemma insert_rows_ok s id r : store_ok s -> id < sd_next_group s -> row_ok r ->
  forall i x, <[id := r]> (sd_groups s) !! i = Some x -> i < sd_next_group s /\ row_ok x.
Proof. intros [Hg _ _] Hid Hr i x [[<- <-]|[_ Hx]]%lookup_insert_Some; [done | by apply Hg in Hx]. Qed.

Lemma insert_target s id r a : target_current s a = true ->
  (ac_group_id a = id -> row_targets r a = true) ->
  target_current (set_groups (<[id := r]> (sd_groups s)) s) a = true.
Proof.
  unfold target_current. cbn. intros Hc Hr. destruct (decide (ac_group_id a = id)) as [E|Hne].
  - rewrite E, lookup_insert_eq. by apply Hr.
  - by rewrite lookup_insert_ne.
Qed.

Lemma insert_group_ok s id r : store_ok s -> id < sd_next_group s -> row_ok r ->
  (forall a, target_current s a = true -> ac_group_id a = id -> row_targets r a = true) ->
  store_ok (set_groups (<[id := r]> (sd_groups s)) s).
Proof.
  intros Hs Hid Hr Ht. pose proof Hs as [_ Ha Hp]. constructor; [exact (insert_rows_ok s _ _ Hs Hid Hr) | done |].
  intros i a Hl Hst. apply insert_target; [by eapply Hp |]. eauto.
Qed.

Lemma target_row s a r : sd_groups s !! ac_group_id a = Some r -> target_current s a = row_targets r a.
Proof. unfold target_current. by intros ->. Qed.

Section groups.
Context `{Unicode}.

Lemma not_blocking to : statusBlocksRemovals to = false -> to <> GroupIgnored /\ to <> GroupResolved.
Proof. unfold statusBlocksRemovals. intros Hm%mem_false. split; intros ->; apply Hm; set_solver. Qed.

Lemma open_status to : to <> GroupIgnored -> to <> GroupResolved ->
  negb (String.eqb to GroupIgnored || String.eqb to GroupResolved) = true.
Proof. intros H1%String.eqb_neq H2%String.eqb_neq. by rewrite H1, H2. Qed.

Lemma status_ok now id to reason s r : store_ok s -> sd_groups s !! id = Some r ->
  store_ok (afterStatusChange now id to (set_groups (<[id := touch now (with_status to reason r)]> (sd_groups s)) s)).
Proof.
  intros Hs Hr. pose proof Hs as [Hg Ha Hp]. destruct (Hg id r Hr) as [Hid Hrow]. unfold afterStatusChange.
  assert (Hrow' : row_ok (touch now (with_status to reason r))) by by apply (row_same_files r).
  destruct (statusBlocksRemovals to) eqn:Eb.
  - destruct (cancelPendingActions _ _ _ _) as [s' n] eqn:Ec. cbn. refine (cancel_ok _ _ _ _ _ _ _ Ec Hs eq_refl eq_refl (insert_rows_ok s _ _ Hs Hid _) _); [done |].
    intros a Hc Hne%Z.eqb_neq. by apply insert_target.
  - apply not_blocking in Eb as [H1 H2]. apply insert_group_ok; try done.
    intros a Hc Heq. rewrite (target_row s a r) in Hc by by rewrite Heq.
    unfold row_targets in *. apply andb_true_iff in Hc as [_ Hf]. apply andb_true_iff. split; [| done].
    by apply open_status.
Qed.

Lemma flag_ok now id flag on s s' : SetFlag now id flag on s = inr s' -> store_ok s -> store_ok s'.
Proof.
  unfold SetFlag. intros Hf Hs. case_match; [done |]. destruct (sd_groups s !! id) as [r|] eqn:Hr; [| done].
  case_match; injection Hf as <-; [done |]. pose proof Hs as [Hg Ha Hp]. destruct (Hg id r Hr) as [Hid Hrow].
  apply insert_group_ok; [done | done | by apply (row_same_files r) |].
  intros a Hc Heq. rewrite (target_row s a r) in Hc by by rewrite Heq. done.
Qed.

(** Cancelling what is stale, after one group was written. *)
Lemma stale_ok now id r s s1 s' n : cancelStaleActions now id s1 = (s', n) -> store_ok s ->
  sd_actions s1 = sd_actions s -> sd_next_action s1 = sd_next_action s -> sd_next_group s1 = sd_next_group s ->
  sd_groups s1 = <[id := r]> (sd_groups s) -> id < sd_next_group s -> row_ok r ->
  row_status r <> GroupIgnored -> row_status r <> GroupResolved -> store_ok s'.
Proof.
  intros Hc Hs Ha Hna Hng Hgs Hid Hr H1 H2. refine (cancel_ok _ _ _ _ _ _ _ Hc Hs Ha Hna _ _).
  - rewrite Hgs, Hng. exact (insert_rows_ok s _ _ Hs Hid Hr).
  - intros a Hcur Hns. unfold target_current in *. rewrite Hgs. destruct (decide (ac_group_id a = id)) as [Heq|Hne].
    + unfold is_stale, group_files in Hns. rewrite Hgs, Heq, Z.eqb_refl, lookup_insert_eq in Hns.
      rewrite Heq, lookup_insert_eq. unfold row_targets. rewrite open_status by done. by apply negb_false_iff in Hns.
    + by rewrite lookup_insert_ne.
Qed.

Lemma override_ok now gid fid d s s' : SetOverride now gid fid d s = inr s' -> store_ok s -> store_ok s'.
Proof.
  unfold SetOverride. intros Ho Hs. case_match eqn:Ev; [done |]. apply negb_false_iff in Ev. destruct (sd_groups s !! gid) as [r|] eqn:Hr; [| done].
  case_match; [done |]. injection Ho as <-. pose proof Hs as [Hg Ha Hp]. destruct (Hg gid r Hr) as [Hid Hrow].
  set (upd := fun idf : Z * GroupFile => if fst idf =? fid
    then (fst idf, set_decision d (if String.eqb d DecisionKeep then DecisionKeep else gf_decision (snd idf)) (snd idf))
    else idf).
  set (r' := touch now (with_files (map upd (gr_files r)) r)).
  assert (Hrow' : row_ok r').
  { destruct Hrow as [Hk Hd Hov Hret]. constructor; cbn.
    - rewrite map_map. erewrite map_ext; [exact Hk |]. intros [i f]. unfold upd. cbn. by destruct (i =? fid).
    - intros idf (x & -> & Hin)%list_elem_of_fmap. specialize (Hd x Hin). unfold upd, file_kept in *.
      destruct (fst x =? fid); [| done]. cbn. destruct (String.eqb d DecisionKeep) eqn:Ed; [done |].
      apply String.eqb_neq in Ed. intros [?|?]; [apply Hd; by left | done].
    - intros idf (x & -> & Hin)%list_elem_of_fmap. specialize (Hov x Hin). unfold upd. by destruct (fst x =? fid).
    - exact Hret. }
  assert (Hcur : forall a, target_current s a = true -> ac_group_id a = gid ->
    String.eqb d DecisionKeep = false -> row_targets r' a = true).
  { intros a Hc Heq Ed. rewrite (target_row s a r) in Hc by by rewrite Heq. unfold row_targets in *.
    apply andb_true_iff in Hc as [Hst Hf]. apply andb_true_iff. split; [done |].
    apply existsb_elem in Hf as (x & Hx & Hm). apply existsb_elem. exists (upd x).
    split; [by apply list_elem_of_fmap_2 |]. unfold upd. rewrite Ed. by destruct (fst x =? fid). }
  destruct (String.eqb d DecisionKeep) eqn:Ed.
  - change (store_ok (fst (cancelStaleActions now gid (set_groups (<[gid := r']> (sd_groups s)) s)))).
    destruct (cancelStaleActions _ _ _) as [s' n] eqn:Ec. cbn.
    refine (cancel_ok _ _ _ _ _ _ _ Ec Hs eq_refl eq_refl (insert_rows_ok s _ _ Hs Hid _) _); [done |].
    intros a Hc Hns. apply insert_target; [done |]. intros Heq. unfold row_targets.
    rewrite (target_row s a r) in Hc by by rewrite Heq. unfold row_targets in Hc.
    apply andb_true_iff in Hc as [Hst _]. apply andb_true_iff. split; [done |].
    unfold is_stale, group_files in Hns. cbn in Hns. rewrite Heq, Z.eqb_refl, lookup_insert_eq in Hns.
    by apply negb_false_iff in Hns.
  - apply insert_group_ok; try done. intros a Hc Heq. by apply Hcur.
Qed.

Lemma unseen_ok now scan libs s : store_ok s -> store_ok (fst (MarkUnseenResolved now scan libs s)).
Proof.
  intros Hs. unfold MarkUnseenResolved. cbn [fst].
  set (ids := map fst (List.filter (fun kv => unseen scan libs (snd kv)) (map_to_list (sd_groups s)))).
  set (s1 := set_groups _ s). pose proof Hs as [Hg Ha Hp].
  assert (Hrows : forall i x, sd_groups s1 !! i = Some x -> i < sd_next_group s1 /\ row_ok x).
  { intros i x. cbn. rewrite lookup_fmap. destruct (sd_groups s !! i) as [r|] eqn:Hr; [| done]. intros [= <-].
    destruct (Hg i r Hr). split; [done |]. destruct (unseen _ _ _); [by apply (row_same_files r) | done]. }
  assert (Hcur : forall a, target_current s a = true -> mem (ac_group_id a) ids = false -> target_current s1 a = true).
  { intros a Hc Hni%mem_false. unfold target_current in *. cbn. rewrite lookup_fmap.
    destruct (sd_groups s !! ac_group_id a) as [r|] eqn:Hr; [| done]. cbn.
    destruct (unseen scan libs r) eqn:Eu; [| done]. exfalso. apply Hni. apply list_elem_of_fmap.
    exists (ac_group_id a, r). split; [done |]. apply elem_of_lfilter. split; [by apply elem_of_map_to_list | done]. }
  destruct ids as [|i0 ids0] eqn:Ei.
  - constructor; [exact Hrows | exact Ha |]. intros id a Hl Hst. apply Hcur; [by eapply Hp | by apply mem_false, not_elem_of_nil].
  - rewrite <- Ei in *. destruct (cancelPending _ _ _ _) as [s' n] eqn:Ec.
    apply (cancel_ok _ _ _ _ _ _ _ Ec Hs eq_refl eq_refl Hrows Hcur).
Qed.

Lemma delete_ok now id s s' : DeleteGroup now id s = inr s' -> store_ok s -> store_ok s'.
Proof.
  unfold DeleteGroup. intros Hd Hs. destruct (sd_groups s !! id) as [r|]; [| done]. apply (inj inr) in Hd as <-.
  destruct (cancelPendingActions _ _ _ _) as [s' n] eqn:Ec. cbn. pose proof Hs as [Hg Ha Hp].
  refine (cancel_ok _ _ _ _ _ _ _ Ec Hs eq_refl eq_refl _ _).
  - intros i x Hx. cbn in Hx. apply lookup_delete_Some in Hx as [_ Hx]. by apply Hg in Hx.
  - intros a Hc Hne%Z.eqb_neq. unfold target_current in *. cbn. by rewrite lookup_delete_ne.
Qed.

(** ** Upsert *)

Lemma check_files_keys seen files : check_files seen files = None ->
  NoDup (map file_key files) /\ (forall f, f ∈ files -> file_key f ∉ seen) /\
  (forall f, f ∈ files -> blank (file_key f) = false /\ validDecision (gf_override f) = true).
Proof.
  revert seen. induction files as [|f files IH]; intros seen; cbn.
  { intros _. split_and!; [constructor | intros f Hf; by apply not_elem_of_nil in Hf ..]. }
  case_match eqn:Eb; [done |]. case_match eqn:Em; [done |]. case_match eqn:Ev; [done |].
  apply mem_false in Em. apply negb_false_iff in Ev. intros (Hnd & Hseen & Hok)%IH.
  apply andb_true_iff in Ev as [_ Ev]. split_and!.
  - constructor; [| done]. intros (x & Heq & Hx)%list_elem_of_fmap. apply (Hseen x Hx). rewrite Heq. set_solver.
  - intros x [->|Hx]%elem_of_cons; [done |]. specialize (Hseen x Hx). set_solver.
  - intros x [->|Hx]%elem_of_cons; [done | by apply Hok].
Qed.

Definition upserted (stored : list (Z * GroupFile)) (retained : gmap string string) (f : GroupFile) : GroupFile :=
  let ov := upsert_override stored retained f in set_decision ov (upsert_decision ov f) f.
Definition drop_keys (files : list GroupFile) (m : gmap string string) : gmap string string :=
  foldl (fun m f => delete (file_key f) m) m files.

Lemma upsert_fold stored retained files : forall out m n, NoDup (map file_key files) ->
  (forall f, f ∈ files -> m !! file_key f = retained !! file_key f) ->
  exists n', foldl (upsert_file stored) (out, m, n) files =
    ((out ++ map (upserted stored retained) files)%list, drop_keys files m, n').
Proof.
  induction files as [|f files IH]; intros out m n Hnd Hm; cbn.
  { exists n. by rewrite app_nil_r. }
  inversion Hnd as [|? ? Hni Hnd']; subst.
  assert (Eo : upsert_override stored m f = upsert_override stored retained f).
  { unfold upsert_override. by rewrite (Hm f) by set_solver. }
  rewrite Eo. edestruct IH as [n' ->]; [done | |].
  - intros x Hx. assert (file_key f <> file_key x).
    { intros E. apply Hni. rewrite E. by apply list_elem_of_fmap_2. }
    rewrite lookup_delete_ne by done. apply Hm. set_solver.
  - exists n'. unfold upserted. by rewrite <- app_assoc.
Qed.

Lemma number_files_snd stored next files : map snd (fst (number_files stored next files)) = files.
Proof.
  revert next. induction files as [|f files IH]; intros next; cbn; [done |].
  destruct (stored_file _ _) as [[i x]|]; [specialize (IH next) | specialize (IH (next + 1))];
    destruct (number_files _ _ _) as [rest nx]; cbn in *; by rewrite IH.
Qed.

Definition old_files (old : option group_row) := match old with Some r => gr_files r | None => [] end.
Definition old_retained (old : option group_row) := match old with Some r => gr_retained r | None => ∅ end.

(** The row [Upsert] writes: its files, retained overrides and status. *)
Lemma upsert_row_spec now status g m old nf r nf' : upsert_row now status g m old nf = (r, nf') ->
  NoDup (map file_key (dg_files g)) ->
  let files := map (upserted (old_files old) (old_retained old)) (dg_files g) in
  let ignored := match old with Some r0 => String.eqb (row_status r0) GroupIgnored | None => false end in
  let no_keeper := negb (bool_decide (dg_files g = [])) && negb (String.eqb status GroupIgnored) &&
    negb (String.eqb status GroupResolved) && negb (existsb (fun f => String.eqb (gf_decision f) DecisionKeep) files) in
  gr_files r = fst (number_files (old_files old) nf files) /\ map snd (gr_files r) = files /\
  gr_retained r = retain_vanished (map file_key (dg_files g)) (old_files old) (drop_keys (dg_files g) (old_retained old)) /\
  dg_key (gr_group r) = dg_key g /\
  row_status r = if ignored then GroupIgnored
                 else if no_keeper then GroupReview else status.
Proof.
  intros Hu Hnd. cbv zeta. unfold upsert_row in Hu. fold (old_files old) in Hu. fold (old_retained old) in Hu.
  destruct (upsert_fold (old_files old) (old_retained old) (dg_files g) [] (old_retained old)
    (dg_reclaimable_bytes g) Hnd (fun _ _ => eq_refl)) as [n' Ef]. rewrite app_nil_l in Ef. rewrite Ef in Hu.
  set (files := map (upserted (old_files old) (old_retained old)) (dg_files g)) in *.
  pose proof (number_files_snd (old_files old) nf files) as Hsnd.
  destruct old as [r0|]; cbn [old_files old_retained] in *; [destruct (String.eqb (row_status r0) GroupIgnored) |];
    (match type of Hu with context [if ?c then (GroupReview, _) else _] => destruct c eqn:Ec end);
    destruct (number_files _ _ _) as [rows nx]; injection Hu as <- <-; cbn -[String.eqb] in *; split_and!; try done.
  by rewrite andb_false_r in Ec.
Qed.

Lemma upserted_kept stored retained f : file_kept (upserted stored retained f).
Proof.
  unfold file_kept, upserted, upsert_decision, effective_keep. cbn.
  set (ov := upsert_override stored retained f). intros [Hp|Ho].
  - rewrite Hp, orb_true_r. cbn. by destruct (String.eqb_spec (gf_decision f) DecisionKeep).
  - rewrite Ho. cbn. by destruct (String.eqb_spec (gf_decision f) DecisionKeep).
Qed.

Lemma file_keys_snd (l : list (Z * GroupFile)) : map (fun idf => file_key (snd idf)) l = map file_key (map snd l).
Proof. by rewrite map_map. Qed.

Lemma upserted_keys stored retained files : map file_key (map (upserted stored retained) files) = map file_key files.
Proof. by rewrite map_map. Qed.

Lemma retained_valid files stored m k ov : (forall idf, idf ∈ stored -> validDecision (gf_override (snd idf)) = true) ->
  (forall k ov, m !! k = Some ov -> validDecision ov = true) ->
  retain_vanished files stored m !! k = Some ov -> validDecision ov = true.
Proof.
  unfold retain_vanished. revert m. induction stored as [|idf stored IH]; intros m Hst Hm; cbn; [by apply Hm |].
  apply IH; [set_solver |]. intros k' ov'. case_match; [| by apply Hm].
  intros [[<- <-]|[_ ?]]%lookup_insert_Some; [apply Hst; set_solver | by eapply Hm].
Qed.

Lemma drop_keys_Some files m k ov : drop_keys files m !! k = Some ov <-> m !! k = Some ov /\ k ∉ map file_key files.
Proof.
  unfold drop_keys. revert m. induction files as [|f files IH]; intros m; cbn; [set_solver |].
  rewrite IH, lookup_delete_Some. set_solver.
Qed.

Definition old_ok (old : option group_row) : Prop := match old with Some r => row_ok r | None => True end.

Lemma override_valid old f : old_ok old -> validDecision (gf_override f) = true ->
  validDecision (upsert_override (old_files old) (old_retained old) f) = true.
Proof.
  intros Ho Hf. unfold upsert_override, stored_file.
  destruct (find _ _) as [[i x]|] eqn:E.
  - apply find_some in E as [Hin%list_elem_of_In _]. destruct old as [r|]; [| by apply not_elem_of_nil in Hin].
    exact (ro_overrides _ Ho _ Hin).
  - destruct (old_retained old !! file_key f) as [ov|]; [| done]. by case_match eqn:Ec; [apply andb_true_iff in Ec as [_ ?] |].
Qed.

Lemma upsert_row_ok now status g m old nf r nf' : upsert_row now status g m old nf = (r, nf') ->
  check_files [] (dg_files g) = None -> old_ok old -> row_ok r.
Proof.
  intros Hu (Hnd & _ & Hval)%check_files_keys Ho.
  destruct (upsert_row_spec _ _ _ _ _ _ _ _ Hu Hnd) as (_ & Hf & Ht & _).
  assert (Hin : forall idf, idf ∈ gr_files r -> exists f, f ∈ dg_files g /\
    snd idf = upserted (old_files old) (old_retained old) f).
  { intros idf Hi. apply (list_elem_of_fmap_2 snd) in Hi. change (snd <$> gr_files r) with (map snd (gr_files r)) in Hi.
    rewrite Hf in Hi. apply list_elem_of_fmap in Hi as (f & E & Hin). by exists f. }
  constructor.
  - by rewrite file_keys_snd, Hf, upserted_keys.
  - intros idf (f & _ & ->)%Hin. apply upserted_kept.
  - intros idf (f & Hf' & ->)%Hin. cbn. apply override_valid; [done | by apply Hval].
  - intros k ov. rewrite Ht. apply retained_valid.
    + intros idf Hi. destruct old as [r0|]; [exact (ro_overrides _ Ho _ Hi) | by apply not_elem_of_nil in Hi].
    + intros k' ov' [Hl _]%drop_keys_Some. destruct old as [r0|]; [exact (ro_retained _ Ho _ _ Hl) | done].
Qed.

Lemma group_by_key_Some key s id r : group_by_key key s = Some (id, r) ->
  sd_groups s !! id = Some r /\ dg_key (gr_group r) = key.
Proof.
  unfold group_by_key. intros [Hin Hk%String.eqb_eq]%find_some. split; [| done].
  by apply elem_of_map_to_list, list_elem_of_In.
Qed.

(** What [Upsert] did, when it was not refused. *)
Lemma upsert_cases now g m s s' id b : Upsert now g m s = inr (s', id, b) ->
  check_files [] (dg_files g) = None /\
  let status := if String.eqb (dg_status g) "" then GroupReview else dg_status g in
  exists old r nf, group_by_key (dg_key g) s = old /\
    upsert_row now status g m (option_map snd old) (sd_next_file s) = (r, nf) /\
  match old with
  | None => b = true /\ id = sd_next_group s /\
    s' = {| sd_groups := <[id := r]> (sd_groups s); sd_actions := sd_actions s; sd_next_group := id + 1;
            sd_next_file := nf; sd_next_action := sd_next_action s |}
  | Some (i, _) => b = false /\ id = i /\ exists s1 n2,
    let s0 := {| sd_groups := <[id := r]> (sd_groups s); sd_actions := sd_actions s; sd_next_group := sd_next_group s;
                 sd_next_file := nf; sd_next_action := sd_next_action s |} in
    (if statusBlocksRemovals (row_status r)
     then exists n1, cancelPendingActions now id (statusCancelMessage (row_status r)) s0 = (s1, n1) else s1 = s0) /\
    cancelStaleActions now id s1 = (s', n2)
  end.
Proof.
  unfold Upsert. case_match; [done |]. case_match; [done |]. destruct (check_files [] (dg_files g)) eqn:Ecf; [done |].
  intros Hu. split; [done |]. cbv zeta in *.
  destruct (group_by_key (dg_key g) s) as [[i old]|] eqn:Eg; destruct (upsert_row _ _ _ _ _ _) as [r nf] eqn:Er.
  - apply (inj inr) in Hu. injection Hu as <- <- <-. exists (Some (i, old)), r, nf. split; [done |]. split; [exact Er |].
    split_and!; [done | done |]. destruct (statusBlocksRemovals (row_status r)).
    + eexists _, _. split; [eexists; apply surjective_pairing | apply surjective_pairing].
    + eexists _, _. split; [reflexivity | apply surjective_pairing].
  - apply (inj inr) in Hu. injection Hu as <- <- <-. exists None, r, nf. done.
Qed.

Lemma upsert_ok now g m s s' id b : Upsert now g m s = inr (s', id, b) -> store_ok s -> store_ok s'.
Proof.
  intros Hu Hs. pose proof Hs as [Hg Ha Hp].
  apply upsert_cases in Hu as (Hnd & old & r & nf & Hold & Hrow & Hcase).
  assert (Hr : row_ok r).
  { apply (upsert_row_ok _ _ _ _ _ _ _ _ Hrow Hnd). destruct old as [[i o]|]; [| done].
    apply group_by_key_Some in Hold as [Hl _]. by apply Hg in Hl as [_ ?]. }
  destruct old as [[i o]|].
  - destruct Hcase as (_ & -> & s1 & n2 & Hblock & Hstale).
    apply group_by_key_Some in Hold as [Hl _]. destruct (Hg _ _ Hl) as [Hid _].
    destruct (statusBlocksRemovals (row_status r)) eqn:Eb.
    + destruct Hblock as [n1 Hcp]. refine (cancel_only _ _ _ _ _ _ _ Hstale).
      refine (cancel_ok _ _ _ s _ _ _ Hcp Hs eq_refl eq_refl (insert_rows_ok s _ _ Hs Hid Hr) _).
      intros a Hc Hne%Z.eqb_neq. unfold target_current in *. cbn. by rewrite lookup_insert_ne.
    + subst s1. apply not_blocking in Eb as [H1 H2]. by apply (stale_ok _ _ _ _ _ _ _ Hstale Hs eq_refl eq_refl eq_refl eq_refl).
  - destruct Hcase as (_ & -> & ->). constructor; cbn.
    + intros j x [[<- <-]|[_ Hx]]%lookup_insert_Some; [split; [lia | done] |]. apply Hg in Hx as [Hlt Hx]. split; [lia | done].
    + exact Ha.
    + intros j a Hl Hst. pose proof (Hp j a Hl Hst) as Hc. unfold target_current in *. cbn.
      rewrite lookup_insert_ne; [done |]. intros Heq.
      destruct (sd_groups s !! ac_group_id a) as [x|] eqn:Ex; [| done]. apply Hg in Ex as [Hlt _]. lia.
Qed.

Lemma cancel_pending_ok now msg cond s : store_ok s -> store_ok (fst (cancelPending now msg cond s)).
Proof. intros Hs. destruct (cancelPending now msg cond s) as [s' n] eqn:Ec. by apply (cancel_only _ _ _ _ _ _ Hs Ec). Qed.

Lemma exclude_ok now e s s' : exclude_removals now e s = inr s' -> store_ok s -> store_ok s'.
Proof.
  unfold exclude_removals. case_match; [done |]. intros Hs'%(inj inr) Hs.
  destruct (cancelPending _ _ _ _) as [s1 n] eqn:Ec. cbn in Hs'. subst s1. by apply (cancel_only _ _ _ _ _ _ Hs Ec).
Qed.

Lemma cancel_group_ok now id s : store_ok s -> store_ok (fst (CancelPendingForGroup now id s)).
Proof.
  intros Hs. destruct (CancelPendingForGroup now id s) as [s' n] eqn:Ec. by apply (cancel_only _ _ _ _ _ _ Hs Ec).
Qed.

Lemma cancel_one_ok now id s s' b : CancelIfPending now id s = inr (s', b) -> store_ok s -> store_ok s'.
Proof.
  unfold CancelIfPending. intros Hc Hs. destruct (cancelPending _ _ _ _) as [s1 n] eqn:Ec.
  pose proof (cancel_only _ _ _ _ _ _ Hs Ec). repeat case_match; by simplify_eq.
Qed.

Lemma update_status_ok now id to reason s s' : UpdateStatus now id to reason s = inr s' -> store_ok s -> store_ok s'.
Proof.
  unfold UpdateStatus. intros Hu Hs. case_match; [done |]. destruct (sd_groups s !! id) as [r|] eqn:Hr; [| done].
  apply (inj inr) in Hu as <-. by apply status_ok.
Qed.
Lemma update_status_if_ok now id from to reason s s' b :
  UpdateStatusIf now id from to reason s = inr (s', b) -> store_ok s -> store_ok s'.
Proof.
  unfold UpdateStatusIf. intros Hu Hs. case_match; [done |]. case_match; [done |].
  destruct from as [|f from]; [by simplify_eq |]. destruct (sd_groups s !! id) as [r|] eqn:Hr; [| done].
  case_match; [| by simplify_eq]. apply (inj inr) in Hu. apply pair_equal_spec in Hu as [<- _]. by apply status_ok.
Qed.

Lemma sstep_ok s s' : sstep s s' -> store_ok s -> store_ok s'.
Proof.
  intros Hst Hs. destruct Hst.
  - by eapply create_ok.
  - by apply update_ok.
  - by apply cancel_group_ok.
  - by eapply cancel_one_ok.
  - by eapply upsert_ok.
  - by eapply update_status_ok.
  - by eapply update_status_if_ok.
  - by eapply flag_ok.
  - by eapply override_ok.
  - by apply unseen_ok.
  - by eapply delete_ok.
  - by eapply exclude_ok.
  - by apply cancel_pending_ok.
  - by apply cancel_pending_ok.
Qed.

Lemma empty_store_ok : store_ok empty_store.
Proof. by constructor. Qed.

Lemma sreachable_ok s : sreachable s -> store_ok s.
Proof. unfold sreachable. intros Hr. pose proof empty_store_ok as H0. revert H0. by induction Hr; eauto using sstep_ok. Qed.

(** ** What a step does to one removal *)

Definition cancelled_by (s : store) (a a' : Action) : Prop :=
  isQueuedStatus (ac_status a) = true /\ exists msg now, a' = finish_action ActionCancelled msg now a.
Definition updated_to (s : store) (a a' : Action) : Prop :=
  checkActionTransition (ac_status a) (ac_status a') = true /\
  (ac_status a' = ActionPending \/ (ac_status a' = ActionRunning /\ ac_status a = ActionPending) ->
   action_removable s a' = true).
Definition action_moves (s : store) (a a' : Action) : Prop := a' = a \/ cancelled_by s a a' \/ updated_to s a a'.

Lemma cancel_moves now from msg cond s0 s s' n : cancelActions now from msg cond s = (s', n) ->
  (forall st, st ∈ from -> isQueuedStatus st = true) -> forall id a, sd_actions s !! id = Some a ->
  exists a', sd_actions s' !! id = Some a' /\ (a' = a \/ cancelled_by s0 a a').
Proof.
  unfold cancelActions. intros [= <- <-] Hq id a Hl. rewrite reopen_actions. cbn. rewrite lookup_fmap, Hl. cbn.
  eexists. split; [done |]. destruct (mem (ac_status a) from && cond a) eqn:E; [| by left].
  apply andb_true_iff in E as [Hm%mem_true _]. right. split; [by apply Hq | eauto].
Qed.

Lemma pending_queued st : st ∈ [ActionPending] -> isQueuedStatus st = true.
Proof. by intros ->%list_elem_of_singleton. Qed.

Lemma pending_moves now msg cond s0 s s' n : cancelPending now msg cond s = (s', n) ->
  forall id a, sd_actions s !! id = Some a -> exists a', sd_actions s' !! id = Some a' /\ (a' = a \/ cancelled_by s0 a a').
Proof. intros Hc. apply (cancel_moves _ _ _ _ _ _ _ _ Hc pending_queued). Qed.

Lemma cancelled_twice s a a1 a2 : a1 = a \/ cancelled_by s a a1 -> a2 = a1 \/ cancelled_by s a1 a2 ->
  a2 = a \/ cancelled_by s a a2.
Proof.
  intros [->|[Hq1 (m1 & n1 & ->)]] [->|[Hq (m2 & n2 & ->)]]; unfold cancelled_by; [by left | right; eauto.. |].
  by cbn in Hq.
Qed.

Lemma status_moves now id to s0 s a i : sd_actions s !! i = Some a ->
  exists a', sd_actions (afterStatusChange now id to s) !! i = Some a' /\ (a' = a \/ cancelled_by s0 a a').
Proof.
  intros Hl. unfold afterStatusChange. destruct (statusBlocksRemovals to); [| by eauto].
  destruct (cancelPendingActions _ _ _ _) as [s' n] eqn:Ec. exact (pending_moves _ _ _ s0 _ _ _ Ec _ _ Hl).
Qed.

Lemma fst_moves now msg cond s0 s i a : sd_actions s !! i = Some a ->
  exists a', sd_actions (fst (cancelPending now msg cond s)) !! i = Some a' /\ (a' = a \/ cancelled_by s0 a a').
Proof. intros Hl. destruct (cancelPending _ _ _ _) as [s' n] eqn:Ec. exact (pending_moves _ _ _ s0 _ _ _ Ec _ _ Hl). Qed.

Lemma update_moves now x s i a : store_ok s -> sd_actions s !! i = Some a ->
  exists a', sd_actions (fst (UpdateAction now x s)) !! i = Some a' /\ action_moves s a a'.
Proof.
  intros Hs Hl. destruct (UpdateAction now x s) as [s' res] eqn:E. cbn. unfold action_moves.
  apply update_cases in E as [[-> _]|[(n & _ & old & Hold & Hq & Hc)|(old & _ & Hold & Ht & Hrem & Hs')]].
  - eauto.
  - destruct (cancel_moves _ _ _ _ s _ _ _ Hc (fun st Hst => ltac:(apply list_elem_of_singleton in Hst as ->; exact Hq)) _ _ Hl)
      as (a' & ? & ?). exists a'. tauto.
  - assert (Hsame : sd_actions s' = <[ac_id x := with_new_id (ac_id x) (ac_status x) (ac_created_at old) x]> (sd_actions s))
      by (rewrite Hs'; by case_match). rewrite Hsame. destruct (decide (ac_id x = i)) as [<-|Hne].
    + rewrite lookup_insert_eq. eexists. split; [done |]. right. right. simplify_eq. split; [exact Ht | exact Hrem].
    + rewrite lookup_insert_ne by done. eauto.
Qed.

Lemma upsert_moves now g m s s' id b i a : Upsert now g m s = inr (s', id, b) -> sd_actions s !! i = Some a ->
  exists a', sd_actions s' !! i = Some a' /\ (a' = a \/ cancelled_by s a a').
Proof.
  intros (_ & old & r & nf & _ & _ & Hcase)%upsert_cases Hl. destruct old as [[j o]|].
  - destruct Hcase as (_ & _ & s1 & n2 & Hb & Hst).
    assert (H1 : exists a1, sd_actions s1 !! i = Some a1 /\ (a1 = a \/ cancelled_by s a a1)).
    { destruct (statusBlocksRemovals _); [| subst s1; eauto]. destruct Hb as [n1 Hb].
      exact (pending_moves _ _ _ s _ _ _ Hb _ _ Hl). }
    destruct H1 as (a1 & Hl1 & Hm1). destruct (pending_moves _ _ _ s _ _ _ Hst _ _ Hl1) as (a2 & Hl2 & Hm2).
    exists a2. split; [done |]. by eapply cancelled_twice.
  - destruct Hcase as (_ & _ & ->). eauto.
Qed.

Lemma create_keeps now x s s' a' i a : store_ok s -> CreateAction now x s = inr (s', a') -> sd_actions s !! i = Some a ->
  sd_actions s' !! i = Some a.
Proof.
  unfold CreateAction. intros Hs Hc Hl. case_match; [done |]. case_match; [done |]. injection Hc as <- _. cbn.
  rewrite lookup_insert_ne; [done |]. pose proof (so_actions _ Hs _ _ Hl). lia.
Qed.

(** ** Reopening *)

(** A group left "queued" with nothing to run. *)
Definition stranded (s : store) (g : Z) : Prop :=
  exists r, sd_groups s !! g = Some r /\ row_status r = GroupQueued /\ has_queued s g = false.

Lemma has_queued_spec s g : has_queued s g = true <->
  exists i a, sd_actions s !! i = Some a /\ ac_group_id a = g /\ isQueuedStatus (ac_status a) = true.
Proof.
  unfold has_queued. rewrite existsb_elem. split.
  - intros ([i a] & Hin%elem_of_map_to_list & [Hg%Z.eqb_eq Hq]%andb_true_iff). eauto.
  - intros (i & a & Hl & <- & Hq). exists (i, a). cbn. rewrite Z.eqb_refl, Hq. by split; [apply elem_of_map_to_list |].
Qed.

(** A cancellation strands no group: one that is stranded afterwards was before,
    and none of its removals was cancelled. *)
Lemma cancel_strands_none now from msg cond s s' n g : cancelActions now from msg cond s = (s', n) -> stranded s' g ->
  stranded s g /\ forall i a, sd_actions s !! i = Some a -> ac_group_id a = g -> sd_actions s' !! i = Some a.
Proof.
  unfold cancelActions. intros [= <- <-] (r' & Hr' & Hst & Hno).
  set (s1 := set_actions _ s) in *. set (ids := map _ _) in *.
  assert (Hni : mem g ids = false).
  { cbn in Hr'. rewrite map_lookup_imap in Hr'. destruct (sd_groups s !! g) as [r|]; [| done]. cbn in Hr'.
    injection Hr' as Hr'. destruct (mem g ids); [| done]. cbn in Hr'. exfalso.
    change (has_queued s1 g = false) in Hno. rewrite Hno in Hr'. cbn in Hr'.
    rewrite andb_true_r in Hr'. by destruct (String.eqb_spec (row_status r) GroupQueued); subst r'. }
  apply mem_false in Hni.
  assert (Hun : forall i a, sd_actions s !! i = Some a -> ac_group_id a = g -> sd_actions s1 !! i = Some a).
  { intros i a Hl Hg. cbn. rewrite lookup_fmap, Hl. cbn. destruct (mem (ac_status a) from && cond a) eqn:Eh; [| done]. exfalso. apply Hni.
    apply list_elem_of_fmap. exists (i, a). split; [done |]. apply elem_of_lfilter.
    split; [by apply elem_of_map_to_list | done]. }
  split; [| intros i a Hl Hg; rewrite reopen_actions; by apply Hun].
  apply reopen_row in Hr' as (r & Hr & _ & _ & [->|(_ & Hp & _)]); [| by rewrite Hp in Hst].
  exists r. split_and!; [done | done |]. apply not_true_iff_false. intros (i & a & Hl & Hg & Hq)%has_queued_spec.
  apply not_true_iff_false in Hno. apply Hno, has_queued_spec. exists i, a. split_and!; try done.
  rewrite reopen_actions. by apply Hun.
Qed.

Lemma reopened_not_stranded now ids s g : g ∈ ids -> ~ stranded (reopenEmptiedGroups now ids s) g.
Proof.
  intros Hg%mem_true (r' & Hr' & Hst & Hno). change (has_queued s g = false) in Hno. cbn in Hr'.
  rewrite map_lookup_imap in Hr'. destruct (sd_groups s !! g) as [r|]; [| done]. cbn in Hr'.
  rewrite Hg, Hno, andb_true_r in Hr'. injection Hr' as Hr'.
  by destruct (String.eqb_spec (row_status r) GroupQueued); subst r'.
Qed.

(** No removal of a group left stranded changed. *)
Definition stranded_untouched (s s' : store) : Prop := forall g, stranded s' g ->
  forall i a, sd_actions s !! i = Some a -> ac_group_id a = g -> sd_actions s' !! i = Some a.

Lemma cancel_untouched now from msg cond s : stranded_untouched s (fst (cancelActions now from msg cond s)).
Proof. intros g Hst. destruct (cancelActions _ _ _ _ _) as [s' n] eqn:Ec. by apply (cancel_strands_none _ _ _ _ _ _ _ _ Ec). Qed.

Lemma upsert_untouched now g m s s' id b : Upsert now g m s = inr (s', id, b) -> stranded_untouched s s'.
Proof.
  intros (_ & old & r & nf & _ & _ & Hcase)%upsert_cases h Hst. destruct old as [[j o]|].
  - destruct Hcase as (_ & _ & s1 & n2 & Hb & Hstale). intros i a Hl Hg.
    destruct (cancel_strands_none _ _ _ _ _ _ _ _ Hstale Hst) as [Hst1 Hun]. apply Hun; [| done].
    destruct (statusBlocksRemovals _); [| by subst s1]. destruct Hb as [n1 Hb].
    destruct (cancel_strands_none _ _ _ _ _ _ _ _ Hb Hst1) as [_ Hun1]. by apply Hun1.
  - destruct Hcase as (_ & _ & ->). by intros i a Hl _.
Qed.

Lemma pending_untouched now msg cond s : stranded_untouched s (fst (cancelPending now msg cond s)).
Proof. exact (cancel_untouched now [ActionPending] msg cond s). Qed.

Lemma update_reopens now x s i a a' : sd_actions s !! i = Some a -> isQueuedStatus (ac_status a) = true ->
  sd_actions (fst (UpdateAction now x s)) !! i = Some a' -> ac_status a' = ActionCancelled ->
  ~ stranded (fst (UpdateAction now x s)) (ac_group_id a').
Proof.
  intros Hl Hq. destruct (UpdateAction now x s) as [s' res] eqn:E. cbn. intros Hl' Hcan Hst.
  assert (Hne : a' <> a) by (intros ->; by rewrite Hcan in Hq).
  apply update_cases in E as [[-> _]|[(n & _ & old & Hold & _ & Hc)|(old & _ & Hold & _ & _ & Hs')]]; [congruence | |].
  - pose proof Hc as Hc'. unfold cancelActions in Hc'. injection Hc' as Es' _.
    assert (Hg : ac_group_id a' = ac_group_id a).
    { destruct (cancel_actions _ _ _ _ _ _ _ Hc _ _ Hl') as (a0 & Ha0 & [[-> _]|[-> _]]); cbn; congruence. }
    destruct (cancel_strands_none _ _ _ _ _ _ _ _ Hc Hst) as [_ Hun]. rewrite (Hun i a Hl) in Hl' by by symmetry. congruence.
  - cbv zeta in Hs'.
    assert (Hsame : sd_actions s' = <[ac_id x := with_new_id (ac_id x) (ac_status x) (ac_created_at old) x]> (sd_actions s))
      by (rewrite Hs'; by case_match). rewrite Hsame in Hl'.
    apply lookup_insert_Some in Hl' as [[Hi <-]|[_ Hl']]; [| congruence]. cbn in Hcan. rewrite Hcan in Hs'.
    assert (Ho : ac_status old <> ActionCancelled).
    { replace old with a by congruence. intros Ho. by rewrite Ho in Hq. }
    apply String.eqb_neq in Ho. rewrite Ho in Hs'. cbn in Hs'. subst s'.
    eapply reopened_not_stranded; [| exact Hst]. by apply list_elem_of_singleton.
Qed.

Lemma status_untouched now id to s s1 : sd_actions s1 = sd_actions s -> stranded_untouched s (afterStatusChange now id to s1).
Proof.
  intros Ha. unfold afterStatusChange, cancelPendingActions. intros g Hst i a Hl Hg. rewrite <- Ha in Hl.
  destruct (statusBlocksRemovals to); [| done]. by apply (pending_untouched _ _ _ _ _ Hst).
Qed.

Lemma same_untouched s s' : sd_actions s' = sd_actions s -> stranded_untouched s s'.
Proof. by intros E g _ i a Hl _; rewrite E. Qed.

(** What a step that is no [Update] does to the removals. *)
Definition only_cancels (s s' : store) : Prop :=
  stranded_untouched s s' /\
  forall i a, sd_actions s !! i = Some a -> exists a', sd_actions s' !! i = Some a' /\ (a' = a \/ cancelled_by s a a').

Lemma same_only_cancels s s' : sd_actions s' = sd_actions s -> only_cancels s s'.
Proof. intros E. split; [by apply same_untouched |]. rewrite E. eauto. Qed.

Lemma cancel_only_cancels now msg cond s s1 : sd_actions s1 = sd_actions s ->
  only_cancels s (fst (cancelPending now msg cond s1)).
Proof.
  intros E. split.
  - intros g Hst i a Hl Hg. rewrite <- E in Hl. by apply (pending_untouched _ _ _ _ _ Hst).
  - intros i a Hl. rewrite <- E in Hl. by apply fst_moves.
Qed.

Lemma status_only_cancels now id to s s1 : sd_actions s1 = sd_actions s -> only_cancels s (afterStatusChange now id to s1).
Proof.
  intros E. unfold afterStatusChange, cancelPendingActions.
  case_match; [by apply cancel_only_cancels | by apply same_only_cancels].
Qed.

Lemma step_cases s s' : sstep s s' -> store_ok s ->
  (exists now x, s' = fst (UpdateAction now x s)) \/ only_cancels s s'.
Proof.
  intros Hst Hs. destruct Hst; [| by eauto | right..].
  - right. split; [| intros i b Hl; exists b; split; [by eapply create_keeps | by left]].
    intros g _ i b Hl _. by eapply create_keeps.
  - unfold CancelPendingForGroup, cancelPendingActions. by apply cancel_only_cancels.
  - unfold CancelIfPending in *. destruct (cancelPending _ _ _ _) as [s1 n] eqn:Ec.
    assert (s' = fst (cancelPending now cancelUserMessage (fun a => ac_id a =? id) s)) as ->
      by (rewrite Ec; repeat case_match; cbn; congruence). by apply cancel_only_cancels.
  - split; [by eapply upsert_untouched | intros i a; by eapply upsert_moves].
  - unfold UpdateStatus in *. repeat case_match; simplify_eq. by apply status_only_cancels.
  - unfold UpdateStatusIf in *. repeat case_match; simplify_eq; [by apply same_only_cancels | by apply status_only_cancels |
      by apply same_only_cancels].
  - apply same_only_cancels. unfold SetFlag in *. by repeat case_match; simplify_eq.
  - unfold SetOverride in *. cbv zeta in *. case_match; [done |]. case_match; [| done]. case_match; [done |].
    match goal with Hx : inr _ = inr _ |- _ => apply (inj inr) in Hx as <- end.
    unfold cancelStaleActions. case_match; [by apply cancel_only_cancels | by apply same_only_cancels].
  - unfold MarkUnseenResolved. cbn [fst]. case_match; [by apply same_only_cancels | by apply cancel_only_cancels].
  - unfold DeleteGroup in *. case_match; [| done].
    match goal with Hx : inr _ = inr _ |- _ => apply (inj inr) in Hx as <- end.
    unfold cancelPendingActions. by apply cancel_only_cancels.
  - unfold exclude_removals in *. case_match; [done |].
    match goal with Hx : inr _ = inr _ |- _ => apply (inj inr) in Hx as <- end. by apply cancel_only_cancels.
  - by apply cancel_only_cancels.
  - by apply cancel_only_cancels.
Qed.

Lemma step_moves s s' i a : sstep s s' -> store_ok s -> sd_actions s !! i = Some a ->
  exists a', sd_actions s' !! i = Some a' /\ action_moves s a a'.
Proof.
  intros Hst Hs Hl. unfold action_moves. destruct (step_cases _ _ Hst Hs) as [(now & x & ->)|[_ Hc]].
  - by apply update_moves.
  - destruct (Hc _ _ Hl) as (a' & ? & ?). exists a'. tauto.
Qed.

(** A step that cancels a queued removal leaves its group with another one to run,
    or no longer "queued". *)
Lemma step_reopens s s' i a a' : sstep s s' -> store_ok s -> sd_actions s !! i = Some a ->
  isQueuedStatus (ac_status a) = true -> sd_actions s' !! i = Some a' -> ac_status a' = ActionCancelled ->
  ~ stranded s' (ac_group_id a').
Proof.
  intros Hst Hs Hl Hq Hl' Hcan. destruct (step_cases _ _ Hst Hs) as [(now & x & ->)|[Hu Hc]]; [by eapply update_reopens |].
  assert (Hne : a' <> a) by (intros ->; by rewrite Hcan in Hq).
  destruct (Hc _ _ Hl) as (b & Hb & Hcase). assert (b = a') as -> by congruence.
  destruct Hcase as [?|(_ & msg & now & ->)]; [done |]. intros Hs'. rewrite (Hu _ Hs' i a Hl) in Hl' by done. congruence.
Qed.

(** ** Overrides *)

Definition find_key (k : string) (files : list GroupFile) : option GroupFile :=
  find (fun f => String.eqb (file_key f) k) files.

(** The override of version [k]: of its file, or retained after it left. *)
Definition version_override (r : group_row) (k : string) : string :=
  match find_key k (map snd (gr_files r)) with
  | Some f => gf_override f
  | None => default "" (gr_retained r !! k)
  end.

Lemma stored_file_snd k l : option_map snd (stored_file k l) = find_key k (map snd l).
Proof.
  unfold stored_file, find_key. induction l as [|[i f] l IH]; cbn; [done |]. by destruct (String.eqb (file_key f) k).
Qed.

Lemma find_key_None k files : find_key k files = None <-> k ∉ map file_key files.
Proof.
  unfold find_key. induction files as [|f files IH]; cbn; [set_solver |].
  destruct (String.eqb_spec (file_key f) k) as [E|E]; [subst; set_solver |]. rewrite IH. set_solver.
Qed.

Lemma find_key_map k (h : GroupFile -> GroupFile) files : (forall f, file_key (h f) = file_key f) ->
  find_key k (map h files) = option_map h (find_key k files).
Proof.
  intros Hk. unfold find_key. induction files as [|f files IH]; cbn; [done |]. rewrite Hk.
  by destruct (String.eqb (file_key f) k).
Qed.

Lemma retain_lookup incoming stored m k : k ∉ incoming -> NoDup (map (fun idf => file_key (snd idf)) stored) ->
  retain_vanished incoming stored m !! k =
  match find_key k (map snd stored) with
  | Some f => if String.eqb (gf_override f) "" then m !! k else Some (gf_override f)
  | None => m !! k
  end.
Proof.
  intros Hk%mem_false. unfold retain_vanished, find_key. revert m.
  induction stored as [|[i f] stored IH]; intros m Hnd; cbn -[String.eqb]; [done |].
  inversion Hnd as [|? ? Hni Hnd']; subst. rewrite IH by done.
  destruct (String.eqb_spec (file_key f) k) as [E|E].
  - assert (Hno : find_key k (map snd stored) = None).
    { apply find_key_None. rewrite <- file_keys_snd. by subst k. }
    unfold find_key in Hno. rewrite Hno, E, Hk. cbn. destruct (String.eqb (gf_override f) ""); cbn; [done |].
    by rewrite lookup_insert_eq.
  - assert (El : forall v, <[file_key f := v]> m !! k = m !! k) by (intros; by rewrite lookup_insert_ne).
    destruct (_ && _); [| done]. by rewrite El.
Qed.

Lemma upsert_row_override now status g m o nf r nf' k : upsert_row now status g m (Some o) nf = (r, nf') ->
  check_files [] (dg_files g) = None -> row_ok o -> version_override o k <> "" ->
  version_override r k = version_override o k.
Proof.
  intros Hu (Hnd & _)%check_files_keys [Hkeys _ _ Hret].
  destruct (upsert_row_spec _ _ _ _ _ _ _ _ Hu Hnd) as (_ & Hf & Ht & _). cbn [old_files old_retained] in *.
  unfold version_override. rewrite Hf, find_key_map by done. destruct (find_key k (dg_files g)) as [f|] eqn:Ef; cbn.
  - assert (Hfk : file_key f = k) by by apply find_some in Ef as [_ ?%String.eqb_eq].
    unfold upsert_override. rewrite Hfk, <- stored_file_snd.
    destruct (stored_file k (gr_files o)) as [[i x]|]; cbn; [done |].
    destruct (gr_retained o !! k) as [ov|] eqn:Eo; cbn; [| done].
    intros Hne%String.eqb_neq. by rewrite Hne, (Hret _ _ Eo).
  - apply find_key_None in Ef. rewrite Ht, retain_lookup by done.
    assert (Ed : drop_keys (dg_files g) (gr_retained o) !! k = gr_retained o !! k).
    { apply option_eq. intros v. rewrite drop_keys_Some. tauto. }
    rewrite Ed. destruct (find_key k (map snd (gr_files o))) as [x|]; [| done].
    intros Hne%String.eqb_neq. by rewrite Hne.
Qed.

(** Rows that differ in neither files nor retained overrides. *)
Definition rows_keep_files (s s' : store) : Prop := forall id r', sd_groups s' !! id = Some r' ->
  exists r, sd_groups s !! id = Some r /\ gr_files r' = gr_files r /\ gr_retained r' = gr_retained r.

Lemma rows_keep_files_trans s1 s2 s3 : rows_keep_files s1 s2 -> rows_keep_files s2 s3 -> rows_keep_files s1 s3.
Proof.
  intros H1 H2 id r3 (r2 & Hl2 & Hf2 & Ht2)%H2. destruct (H1 _ _ Hl2) as (r1 & Hl1 & Hf1 & Ht1).
  exists r1. split_and!; congruence.
Qed.

Lemma same_keep_files s s' : sd_groups s' = sd_groups s -> rows_keep_files s s'.
Proof. intros E id r'. rewrite E. eauto. Qed.

Lemma cancel_keep_files now from msg cond s : rows_keep_files s (fst (cancelActions now from msg cond s)).
Proof.
  intros id r' Hl. destruct (cancelActions _ _ _ _ _) as [s' n] eqn:Ec. by apply (cancel_row _ _ _ _ _ _ _ _ _ Ec).
Qed.

Lemma insert_keep_files s id r r' : sd_groups s !! id = Some r -> gr_files r' = gr_files r ->
  gr_retained r' = gr_retained r -> rows_keep_files s (set_groups (<[id := r']> (sd_groups s)) s).
Proof. intros Hl Hf Ht i x Hx. cbn in Hx. apply lookup_insert_Some in Hx as [[<- <-]|[_ Hx]]; eauto. Qed.

Lemma status_keep_files now id to s : rows_keep_files s (afterStatusChange now id to s).
Proof.
  unfold afterStatusChange, cancelPendingActions, cancelPending.
  destruct (statusBlocksRemovals to); [apply cancel_keep_files | by apply same_keep_files].
Qed.

(** Rows that differ in status, reason and times only, and only by reopening. *)
Definition reopened_row (r r' : group_row) : Prop :=
  gr_files r' = gr_files r /\ gr_retained r' = gr_retained r /\
  (row_status r' = row_status r \/ (row_status r = GroupQueued /\ row_status r' = GroupPending)).
Definition rows_reopened (s s' : store) : Prop := forall id,
  match sd_groups s !! id, sd_groups s' !! id with
  | Some r, Some r' => reopened_row r r'
  | None, None => True
  | _, _ => False
  end.

Lemma rows_reopened_refl s : rows_reopened s s.
Proof. intros id. destruct (sd_groups s !! id); [| done]. split_and!; [done | done | by left]. Qed.

Lemma rows_reopened_trans s1 s2 s3 : rows_reopened s1 s2 -> rows_reopened s2 s3 -> rows_reopened s1 s3.
Proof.
  intros H1 H2 id. specialize (H1 id). specialize (H2 id). unfold reopened_row in *.
  destruct (sd_groups s1 !! id), (sd_groups s2 !! id), (sd_groups s3 !! id); try done.
  destruct H1 as (F1 & T1 & H1), H2 as (F2 & T2 & H2). split_and!; [congruence | congruence |].
  destruct H1 as [E1|[E1 E1']], H2 as [E2|[E2 E2']]; [left; congruence | right; split; congruence.. |].
  by rewrite E2 in E1'.
Qed.

Lemma cancel_rows now from msg cond s : rows_reopened s (fst (cancelActions now from msg cond s)).
Proof.
  intros id. unfold cancelActions. cbn. rewrite map_lookup_imap. destruct (sd_groups s !! id) as [r|]; cbn; [| done].
  set (c := _ && negb (has_queued _ _)). destruct c eqn:E.
  - unfold c in E. apply andb_true_iff in E as [[_ Hq%String.eqb_eq]%andb_true_iff _]. split_and!; [done | done | by right].
  - split_and!; [done | done | by left].
Qed.

(** The groups after [Upsert]. *)
Lemma upsert_rows now g m s s' id b : Upsert now g m s = inr (s', id, b) -> store_ok s ->
  exists old r nf s0, group_by_key (dg_key g) s = old /\ check_files [] (dg_files g) = None /\
    upsert_row now (if String.eqb (dg_status g) "" then GroupReview else dg_status g) g m (option_map snd old)
      (sd_next_file s) = (r, nf) /\
    match old with Some (i, _) => id = i | None => sd_groups s !! id = None end /\
    sd_groups s0 = <[id := r]> (sd_groups s) /\ rows_reopened s0 s'.
Proof.
  intros (Hcf & old & r & nf & Hold & Hrow & Hcase)%upsert_cases Hs. exists old, r, nf.
  set (s0 := {| sd_groups := <[id := r]> (sd_groups s); sd_actions := sd_actions s; sd_next_group := sd_next_group s;
                sd_next_file := nf; sd_next_action := sd_next_action s |}).
  destruct old as [[i o]|].
  - destruct Hcase as (_ & -> & s1 & n2 & Hb & Hstale). exists s0. fold s0 in Hb. split_and!; try done.
    unfold cancelStaleActions, cancelPendingActions, cancelPending in *.
    apply (rows_reopened_trans _ s1).
    + destruct (statusBlocksRemovals (row_status r)); [| subst s1; apply rows_reopened_refl].
      destruct Hb as [n1 Hb]. replace s1 with (fst (s1, n1)) by done. rewrite <- Hb. apply cancel_rows.
    + replace s' with (fst (s', n2)) by done. rewrite <- Hstale. apply cancel_rows.
  - destruct Hcase as (_ & -> & ->). exists s0. split_and!; try done; [| intros j; cbn; apply (rows_reopened_refl s0)].
    destruct (sd_groups s !! sd_next_group s) as [x|] eqn:E; [| done]. apply (so_groups _ Hs) in E. lia.
Qed.

Lemma stored_file_map k (h : Z * GroupFile -> Z * GroupFile) files :
  (forall idf, file_key (snd (h idf)) = file_key (snd idf)) ->
  stored_file k (map h files) = option_map h (stored_file k files).
Proof.
  intros Hk. unfold stored_file. induction files as [|idf files IH]; cbn; [done |]. rewrite Hk.
  by destruct (String.eqb (file_key (snd idf)) k).
Qed.

Lemma override_changes now gid fid d s s' i r r' k : SetOverride now gid fid d s = inr s' ->
  sd_groups s !! i = Some r -> sd_groups s' !! i = Some r' -> version_override r' k <> version_override r k ->
  i = gid /\ exists f, (fid, f) ∈ gr_files r /\ file_key f = k.
Proof.
  unfold SetOverride. intros Ho Hr Hr'. case_match; [done |]. destruct (sd_groups s !! gid) as [r0|] eqn:Hl; [| done].
  case_match; [done |]. cbv zeta in Ho. apply (inj inr) in Ho.
  set (upd := fun idf : Z * GroupFile => if fst idf =? fid
    then (fst idf, set_decision d (if String.eqb d DecisionKeep then DecisionKeep else gf_decision (snd idf)) (snd idf))
    else idf) in *.
  set (s1 := set_groups (<[gid := touch now (with_files (map upd (gr_files r0)) r0)]> (sd_groups s)) s) in *.
  assert (Hk : rows_keep_files s1 s').
  { rewrite <- Ho. destruct (String.eqb d DecisionKeep); [| by apply same_keep_files].
    exact (cancel_keep_files now [ActionPending] cancelStaleMessage (is_stale s1 gid) s1). }
  destruct (Hk _ _ Hr') as (r1 & Hr1 & Hf & Ht). cbn in Hr1. intros Hne.
  apply lookup_insert_Some in Hr1 as [[<- <-]|[_ Hx]].
  - split; [done |]. assert (r0 = r) as -> by congruence. cbn in Hf, Ht. unfold version_override in Hne. rewrite Hf, Ht in Hne.
    rewrite <- !stored_file_snd, stored_file_map in Hne by (intros [j f]; unfold upd; cbn; by destruct (j =? fid)).
    destruct (stored_file k (gr_files r)) as [[j f]|] eqn:Ef; [| done].
    apply find_some in Ef as [Hin%list_elem_of_In Hk'%String.eqb_eq]. cbn in Hne, Hk'. unfold upd in Hne. cbn in Hne.
    destruct (Z.eqb_spec j fid) as [->|]; [by exists f | done].
  - assert (r1 = r) as -> by congruence. exfalso. apply Hne. unfold version_override. by rewrite Hf, Ht.
Qed.

Ltac insert_keep id :=
  match goal with Hl : sd_groups _ !! id = Some ?g |- _ => eapply (insert_keep_files _ _ g); [exact Hl | done | done] end.

(** Only [SetOverride] changes an override that is set. *)
Lemma step_overrides s s' gid r r' k : sstep s s' -> store_ok s -> sd_groups s !! gid = Some r ->
  sd_groups s' !! gid = Some r' -> version_override r k <> "" -> version_override r' k <> version_override r k ->
  exists now fid d f, SetOverride now gid fid d s = inr s' /\ (fid, f) ∈ gr_files r /\ file_key f = k.
Proof.
  intros Hst Hs Hr Hr' Hset Hne.
  assert (Hkeep : rows_keep_files s s' -> False).
  { intros Hk. destruct (Hk _ _ Hr') as (x & Hx & Hf & Ht). assert (x = r) as -> by congruence.
    apply Hne. unfold version_override. by rewrite Hf, Ht. }
  destruct Hst.
  - exfalso. apply Hkeep, same_keep_files. unfold CreateAction in *. by repeat case_match; simplify_eq.
  - exfalso. apply Hkeep. destruct (UpdateAction now a s) as [s' res] eqn:E. cbn.
    apply update_cases in E as [[-> _]|[(n & _ & old & _ & _ & Hc)|(old & _ & _ & _ & _ & ->)]].
    + by apply same_keep_files.
    + replace s' with (fst (s', n)) by done. rewrite <- Hc. apply cancel_keep_files.
    + case_match; [| by apply same_keep_files]. intros id x (y & Hy & Hf & Ht & _)%reopen_row. eauto.
  - exfalso. apply Hkeep. unfold CancelPendingForGroup, cancelPendingActions, cancelPending. apply cancel_keep_files.
  - exfalso. apply Hkeep. unfold CancelIfPending, cancelPending in *. destruct (cancelActions _ _ _ _ _) as [s1 n] eqn:Ec.
    replace s' with (fst (s1, n)) by (repeat case_match; cbn; congruence). rewrite <- Ec. apply cancel_keep_files.
  - exfalso. destruct (upsert_rows _ _ _ _ _ _ _ ltac:(eassumption) Hs) as
      (old & x & nf & s0 & Hold & Hcf & Hrow & Hid & Hs0 & Hre).
    specialize (Hre gid). rewrite Hs0, Hr' in Hre. destruct (decide (gid = id)) as [->|Hng].
    + rewrite lookup_insert_eq in Hre. destruct Hre as (Hf & Ht & _).
      destruct old as [[i o]|]; [| congruence]. subst i. apply group_by_key_Some in Hold as [Ho _].
      assert (o = r) as -> by congruence. cbn in Hrow.
      apply Hne. rewrite <- (upsert_row_override _ _ _ _ _ _ _ _ k Hrow Hcf); [| by apply (so_groups _ Hs) in Ho as [_ ?] | done].
      unfold version_override. by rewrite Hf, Ht.
    + rewrite lookup_insert_ne, Hr in Hre by done. destruct Hre as (Hf & Ht & _).
      apply Hne. unfold version_override. by rewrite Hf, Ht.
  - exfalso. apply Hkeep. unfold UpdateStatus in *. repeat case_match; simplify_eq.
    eapply rows_keep_files_trans; [| apply status_keep_files]. insert_keep id.
  - exfalso. apply Hkeep. unfold UpdateStatusIf in *. repeat case_match; simplify_eq; try by apply same_keep_files.
    eapply rows_keep_files_trans; [| apply status_keep_files]. insert_keep id.
  - exfalso. apply Hkeep. unfold SetFlag in *. repeat case_match; simplify_eq; try by apply same_keep_files.
    all: insert_keep id.
  - match goal with Ho : SetOverride _ _ _ _ _ = _ |- _ => destruct (override_changes _ _ _ _ _ _ _ _ _ _ Ho Hr Hr' Hne)
      as (-> & f & Hin & Hk); eauto 8 end.
  - exfalso. apply Hkeep. unfold MarkUnseenResolved, cancelPending. cbn [fst].
    eapply (rows_keep_files_trans _ (set_groups _ s)); [| case_match; [by apply same_keep_files | apply cancel_keep_files]].
    intros id x. cbn. rewrite lookup_fmap. destruct (sd_groups s !! id) as [y|]; [| done]. intros [= <-]. exists y.
    by destruct (unseen _ _ _).
  - exfalso. apply Hkeep. unfold DeleteGroup, cancelPendingActions, cancelPending in *. case_match; [| done].
    match goal with Hx : inr _ = inr _ |- _ => apply (inj inr) in Hx as <- end.
    eapply rows_keep_files_trans; [| apply cancel_keep_files]. intros i x Hx. cbn in Hx.
    apply lookup_delete_Some in Hx as [_ Hx]. eauto.
  - exfalso. apply Hkeep. unfold exclude_removals, cancelPending in *. case_match; [done |].
    match goal with Hx : inr _ = inr _ |- _ => apply (inj inr) in Hx as <- end. apply cancel_keep_files.
  - exfalso. apply Hkeep, cancel_keep_files.
  - exfalso. apply Hkeep, cancel_keep_files.
Qed.
End groups.
