(* ===== verification/StoreTheorems.v ===== *)
(** * The store of groups and removals: theorems

    For every sequence of write transactions, of whichever callers: a pending
    removal is still wanted, one that was cancelled or succeeded is not queued again,
    cancellations leave no group waiting for nothing, an override of the user outlives
    scans, and a scan never stores an actionable group without a keeper. *)

From S2P Require Import Prelude GoStd Models Paths Store StoreFacts Fixtures.
Local Open Scope string_scope.
Local Open Scope Z_scope.

Section theorems.
Context `{Unicode}.

(** What an action names as its target. *)
Definition names_file (a : Action) (fid : Z) (f : GroupFile) : Prop :=
  if String.eqb (ac_version_key a) "" then fid = ac_group_file_id a else file_key f = ac_version_key a.

(** C15: in every state of the database that any sequence of transactions can
    reach, a pending removal targets a file that exists, is decided "remove", is
    not protected and not overridden to "keep", in a group that is neither ignored
    nor resolved. *)
Theorem pending_removals_wanted s i a : sreachable s -> sd_actions s !! i = Some a -> ac_status a = ActionPending ->
  exists r fid f, sd_groups s !! ac_group_id a = Some r /\ (fid, f) ∈ gr_files r /\ names_file a fid f /\
    gf_decision f = DecisionRemove /\ gf_protected f = false /\ gf_override f <> DecisionKeep /\
    row_status r <> GroupIgnored /\ row_status r <> GroupResolved.
Proof.
  intros Hs%sreachable_ok Hl Hp. pose proof (so_pending _ Hs _ _ Hl Hp) as Hc. unfold target_current in Hc.
  destruct (sd_groups s !! ac_group_id a) as [r|] eqn:Hr; [| done]. unfold row_targets in Hc.
  apply andb_true_iff in Hc as [Hst Hf]. apply negb_true_iff, orb_false_iff in Hst as [H1%String.eqb_neq H2%String.eqb_neq].
  apply existsb_elem in Hf as ([fid f] & Hin & [Hd%String.eqb_eq Ht]%andb_true_iff). cbn in Hd.
  pose proof (ro_kept _ (proj2 (so_groups _ Hs _ _ Hr)) _ Hin) as Hk. unfold file_kept in Hk. cbn in Hk. rewrite Hd in Hk.
  exists r, fid, f. split_and!; try done.
  - unfold names_file, stale_target in *. cbn in Ht. destruct (String.eqb _ ""); [by apply Z.eqb_eq | by apply String.eqb_eq].
  - apply not_true_is_false. intros E. by specialize (Hk (or_introl E)).
  - intros E. by specialize (Hk (or_intror E)).
Qed.

(** C17: no transaction loses a removal. One that was cancelled or succeeded is
    neither queued nor started by the next transaction that touches it (one that
    failed, was skipped or was a dry run may be queued again, and has to be queued
    before it starts); a removal is started only when it was pending or already
    running; one that is queued, or started from pending, is at that moment still
    marked for removal; and only a queued one, pending or running, is cancelled. *)
Theorem removal_lifecycle s s' i a : sreachable s -> sstep s s' -> sd_actions s !! i = Some a ->
  exists a', sd_actions s' !! i = Some a' /\
    (ac_status a = ActionCancelled \/ ac_status a = ActionSucceeded ->
       ac_status a' <> ActionPending /\ ac_status a' <> ActionRunning) /\
    (ac_status a' = ActionRunning -> ac_status a = ActionRunning \/ ac_status a = ActionPending) /\
    (a' <> a -> ac_status a' = ActionPending \/ (ac_status a' = ActionRunning /\ ac_status a = ActionPending) ->
       action_removable s a' = true) /\
    (ac_status a' = ActionCancelled -> ac_status a = ActionCancelled \/ isQueuedStatus (ac_status a) = true).
Proof.
  intros Hs%sreachable_ok Hst Hl. destruct (step_moves _ _ _ _ Hst Hs Hl) as (a' & Hl' & Hm). exists a'. split; [done |].
  destruct Hm as [->|[(Hq & msg & now & ->)|[Ht Hr]]].
  - split_and!; try done; [by intros [-> | ->] | by left | by left].
  - cbn. split_and!; try done; [by intros _ [?|[? _]] | by right].
  - unfold checkActionTransition, isQueuedStatus in *. split_and!; [intros Hend; split; intros E | intros E | done | intros E];
      rewrite E in Ht; cbn in Ht.
    + by destruct Hend as [E'|E']; rewrite E' in Ht.
    + by destruct Hend as [E'|E']; rewrite E' in Ht.
    + apply orb_true_iff in Ht as [?%String.eqb_eq|?%String.eqb_eq]; [by right | by left].
    + apply orb_true_iff in Ht as [?|?%String.eqb_eq]; [by right | by left].
Qed.

(** Whatever transaction cancels a queued removal, its group is not left
    "queued" with nothing to run: either another of its removals is pending or
    running, or the group is open for decisions again. *)
Theorem cancelled_groups_reopened s s' i a a' r : sreachable s -> sstep s s' -> sd_actions s !! i = Some a ->
  isQueuedStatus (ac_status a) = true -> sd_actions s' !! i = Some a' -> ac_status a' = ActionCancelled ->
  sd_groups s' !! ac_group_id a' = Some r -> row_status r = GroupQueued ->
  exists j b, sd_actions s' !! j = Some b /\ ac_group_id b = ac_group_id a' /\ isQueuedStatus (ac_status b) = true.
Proof.
  intros Hs%sreachable_ok Hst Hl Hq Hl' Hcan Hr Hrq. apply has_queued_spec, not_false_iff_true. intros Hno.
  apply (step_reopens _ _ _ _ _ Hst Hs Hl Hq Hl' Hcan). by exists r.
Qed.

(** An override the user set outlives everything but the user: as long as its
    group exists, no scan, approval, run or cleanup changes it, even when the version
    leaves the group and comes back; only [SetOverride] on that very version does. *)
Theorem overrides_survive s s' gid r r' k : sreachable s -> sstep s s' -> sd_groups s !! gid = Some r ->
  sd_groups s' !! gid = Some r' -> version_override r k <> "" ->
  version_override r' k = version_override r k \/
  exists now fid d f, SetOverride now gid fid d s = inr s' /\ (fid, f) ∈ gr_files r /\ file_key f = k.
Proof.
  intros Hs%sreachable_ok Hst Hr Hr' Hset.
  destruct (String.eqb_spec (version_override r' k) (version_override r k)) as [E|E]; [by left | right].
  by apply (step_overrides s s' gid r r' k).
Qed.

(** Whatever a caller stores for a group: the row has the versions given,
    a protected version or one overridden to "keep" is stored as a keep, a group
    with versions but no keeper is stored for review unless it is ignored or
    resolved, and an ignored group stays ignored. *)
Theorem upsert_keeps_a_keeper now g m s s' id b : sreachable s -> Upsert now g m s = inr (s', id, b) ->
  exists r, sd_groups s' !! id = Some r /\
    map file_key (map snd (gr_files r)) = map file_key (dg_files g) /\
    (forall idf, idf ∈ gr_files r -> file_kept (snd idf)) /\
    (dg_files g <> [] -> (exists idf, idf ∈ gr_files r /\ gf_decision (snd idf) = DecisionKeep) \/
       row_status r ∈ [GroupReview; GroupIgnored; GroupResolved]) /\
    (forall r0, sd_groups s !! id = Some r0 -> row_status r0 = GroupIgnored -> row_status r = GroupIgnored).
Proof.
  intros Hs%sreachable_ok Hu. pose proof (upsert_ok _ _ _ _ _ _ _ Hu Hs) as Hs'.
  destruct (upsert_rows _ _ _ _ _ _ _ Hu Hs) as (old & x & nf & s0 & Hold & Hcf & Hrow & Hid & Hs0 & Hre).
  apply check_files_keys in Hcf as (Hnd & _).
  destruct (upsert_row_spec _ _ _ _ _ _ _ _ Hrow Hnd) as (_ & Hf & _ & _ & Hst).
  specialize (Hre id). rewrite Hs0, lookup_insert_eq in Hre. destruct (sd_groups s' !! id) as [r|] eqn:Hr; [| done].
  destruct Hre as (Hfr & _ & Hsr). exists r. split; [done |]. split; [by rewrite Hfr, Hf, upserted_keys |].
  split; [exact (ro_kept _ (proj2 (so_groups _ Hs' _ _ Hr))) |].
  assert (Hsame : row_status x <> GroupQueued -> row_status r = row_status x) by (intros; destruct Hsr as [?|[? _]]; done).
  split.
  - intros Hne. rewrite Hfr. rewrite (bool_decide_eq_false_2 _ Hne) in Hst. cbn [negb andb] in Hst.
    destruct (existsb _ (map _ (dg_files g))) eqn:Ek.
    + left. rewrite <- Hf in Ek. apply existsb_elem in Ek as (f & Hin & Hd%String.eqb_eq).
      apply list_elem_of_fmap in Hin as (idf & -> & Hin). by exists idf.
    + right. rewrite andb_true_r in Hst. destruct old as [[i o]|]; cbn -[String.eqb] in Hst;
        [destruct (String.eqb (row_status o) GroupIgnored) |];
        repeat match type of Hst with context [String.eqb ?a ?b] => destruct (String.eqb_spec a b) as [Eq|?] end;
        cbn in Hst; rewrite ?Eq in Hst; rewrite (Hsame ltac:(by rewrite Hst)), Hst; set_solver.
  - intros r0 Hr0 Hig. destruct old as [[i o]|]; [| congruence]. subst i. apply group_by_key_Some in Hold as [Ho _].
    assert (o = r0) as -> by congruence. cbn -[String.eqb] in Hst. rewrite Hig, String.eqb_refl in Hst.
    by rewrite (Hsame ltac:(by rewrite Hst)).
Qed.
End theorems.

(** ** Witnesses *)

Definition or_else {A B} (d : B) (x : A + B) : B := match x with inl _ => d | inr y => y end.
Definition sample_meta : GroupMeta := {|
  gm_stable_count := 1; gm_first_seen := 0; gm_last_seen := 0; gm_updated := 0; gm_last_scan_id := 1 |}.
Definition sample_action : Action := {|
  ac_id := 0; ac_group_id := 1; ac_group_file_id := 1; ac_version_key := "plex:1:12"; ac_title := "Dune";
  ac_paths := ["/m/Dune (2021)/Dune (2021) 1080p.mkv"]; ac_size := 9000000000; ac_method := "plex"; ac_status := "";
  ac_dry_run := false; ac_message := ""; ac_recycle_path := ""; ac_permanent := false; ac_created_at := 0;
  ac_started_at := None; ac_finished_at := None |}.

(** A scan stores a group with two versions to remove, an approval queues both removals. *)
Definition fx_c : MediaVersion :=
  fx_version "plex:1:13" 13 "720p" "/m/Dune (2021)/Dune (2021) 720p.mkv" 4000000000.
Definition fx_three : DuplicateGroup :=
  set_group GroupPending [] [] [set_decision "" DecisionRemove (fx_file fx_b); set_decision "" DecisionRemove (fx_file fx_c);
    set_decision "" DecisionKeep (fx_file fx_a)] 13000000000 fx_group.
Definition sample_second : Action := {|
  ac_id := 0; ac_group_id := 1; ac_group_file_id := 2; ac_version_key := "plex:1:13"; ac_title := "Dune";
  ac_paths := ["/m/Dune (2021)/Dune (2021) 720p.mkv"]; ac_size := 4000000000; ac_method := "plex"; ac_status := "";
  ac_dry_run := false; ac_message := ""; ac_recycle_path := ""; ac_permanent := false; ac_created_at := 0;
  ac_started_at := None; ac_finished_at := None |}.
Definition sample_scanned : store := fst (fst (or_else (empty_store, 0, false) (Upsert 10 fx_three sample_meta empty_store))).
Definition sample_created : store * Action := or_else (empty_store, sample_action) (CreateAction 20 sample_action sample_scanned).
Definition sample_both : store * Action := or_else (empty_store, sample_action) (CreateAction 20 sample_second (fst sample_created)).
Definition sample_approved : store :=
  or_else empty_store (UpdateStatus 21 1 GroupQueued [SIText "Approved"] (fst sample_both)).
(** The user keeps the first version after all; a later scan no longer finds it. *)
Definition sample_kept : store := or_else empty_store (SetOverride 30 1 1 DecisionKeep sample_approved).
Definition fx_single : DuplicateGroup :=
  set_group GroupPending [] [] [set_decision "" DecisionRemove (fx_file fx_c); set_decision "" DecisionKeep (fx_file fx_a)]
    4000000000 fx_group.
Definition sample_left : store := fst (fst (or_else (empty_store, 0, false) (Upsert 40 fx_single sample_meta sample_kept))).

Lemma sample_scanned_step : sstep empty_store sample_scanned.
Proof. apply (st_upsert _ 10 fx_three sample_meta _ 1 true). vm_compute. reflexivity. Qed.
Lemma sample_created_step : sstep sample_scanned (fst sample_created).
Proof. apply (st_create _ 20 sample_action _ (snd sample_created)). vm_compute. reflexivity. Qed.
Lemma sample_both_step : sstep (fst sample_created) (fst sample_both).
Proof. apply (st_create _ 20 sample_second _ (snd sample_both)). vm_compute. reflexivity. Qed.
Lemma sample_approved_step : sstep (fst sample_both) sample_approved.
Proof. apply (st_status _ 21 1 GroupQueued [SIText "Approved"]). vm_compute. reflexivity. Qed.
Lemma sample_kept_step : sstep sample_approved sample_kept.
Proof. apply (st_override _ 30 1 1 DecisionKeep). vm_compute. reflexivity. Qed.
Lemma sample_left_step : sstep sample_kept sample_left.
Proof. apply (st_upsert _ 40 fx_single sample_meta _ 1 false). vm_compute. reflexivity. Qed.

Lemma sample_approved_reachable : sreachable sample_approved.
Proof.
  eapply rtc_l; [exact sample_scanned_step |]. eapply rtc_l; [exact sample_created_step |].
  eapply rtc_l; [exact sample_both_step |]. apply rtc_once. exact sample_approved_step.
Qed.
Lemma sample_kept_reachable : sreachable sample_kept.
Proof. eapply rtc_r; [exact sample_approved_reachable | exact sample_kept_step]. Qed.

Definition sample_row (s : store) : group_row :=
  default {| gr_group := fx_group; gr_meta := sample_meta; gr_files := []; gr_retained := ∅ |} (sd_groups s !! 1).
Definition sample_stored (s : store) : Action := default sample_action (sd_actions s !! 1).

Lemma pending_removals_wanted_witness :
  exists fid f, (fid, f) ∈ gr_files (sample_row sample_approved) /\ gf_decision f = DecisionRemove /\
    row_status (sample_row sample_approved) = GroupQueued.
Proof.
  destruct (pending_removals_wanted sample_approved 1 (sample_stored sample_approved) sample_approved_reachable)
    as (r & fid & f & Hr & Hin & _ & Hd & _); [vm_compute; reflexivity .. |].
  exists fid, f. replace (sample_row sample_approved) with r by (unfold sample_row; vm_compute in Hr; injection Hr as <-; vm_compute; reflexivity).
  split_and!; [exact Hin | exact Hd |]. vm_compute in Hr. injection Hr as <-. vm_compute. reflexivity.
Defined.

Lemma removal_lifecycle_witness : exists a', sd_actions sample_kept !! 1 = Some a' /\ ac_status a' = ActionCancelled.
Proof.
  destruct (removal_lifecycle sample_approved sample_kept 1 (sample_stored sample_approved) sample_approved_reachable
    sample_kept_step) as (a' & Hl & _); [vm_compute; reflexivity |].
  exists a'. split; [exact Hl |]. vm_compute in Hl. injection Hl as <-. vm_compute. reflexivity.
Defined.

Lemma cancelled_groups_reopened_witness :
  exists j b, sd_actions sample_kept !! j = Some b /\ isQueuedStatus (ac_status b) = true.
Proof.
  destruct (cancelled_groups_reopened sample_approved sample_kept 1 (sample_stored sample_approved) (sample_stored sample_kept)
    (sample_row sample_kept) sample_approved_reachable sample_kept_step) as (j & b & Hb & _ & Hq);
    [vm_compute; reflexivity .. |].
  by exists j, b.
Defined.

Lemma overrides_survive_witness :
  version_override (sample_row sample_left) "plex:1:12" = DecisionKeep /\ length (gr_files (sample_row sample_left)) = 2%nat.
Proof.
  split; [| vm_compute; reflexivity].
  destruct (overrides_survive sample_kept sample_left 1 (sample_row sample_kept) (sample_row sample_left) "plex:1:12"
    sample_kept_reachable sample_left_step) as [E|(now & fid & d & f & Ho & _)]; [vm_compute; reflexivity | vm_compute; reflexivity | vm_compute; discriminate | |].
  - rewrite E. vm_compute. reflexivity.
  - vm_compute. reflexivity.
Defined.

Lemma upsert_keeps_a_keeper_witness :
  exists r, sd_groups sample_left !! 1 = Some r /\
    ((exists idf, idf ∈ gr_files r /\ gf_decision (snd idf) = DecisionKeep) \/
     row_status r ∈ [GroupReview; GroupIgnored; GroupResolved]).
Proof.
  destruct (upsert_keeps_a_keeper 40 fx_single sample_meta sample_kept sample_left 1 false sample_kept_reachable)
    as (r & Hr & _ & _ & Hk & _); [vm_compute; reflexivity |].
  exists r. split; [exact Hr |]. apply Hk. vm_compute. discriminate.
Defined.
