(* ===== verification/ExecModel.v ===== *)
(** * The executor: data and shared rules

    internal/executor: the settings and connections a run reads (executor.go,
    process.go), the helpers on stored groups (process.go, guards.go, record.go)
    and the rules for full discs and read-only servers that need no I/O (disc.go,
    readonly.go). A stored group is the group with its file rows. Messages are
    left out; what refuses a removal is named by [reason]. *)

From S2P Require Import Prelude GoStd Models DiscPaths Paths Titles Pathmap Store.
Local Open Scope string_scope.
Local Open Scope Z_scope.

(** ** Settings and connections *)

Record Settings := {
  st_dry_run : bool;
  st_mode : string;
  st_min_age_hours : Z;
  st_max_deletions_per_run : Z;
  st_deletion_methods : list string;
  st_recycle_bin_path : string;
  st_stable_scans_required : Z;
  st_max_bytes_per_run_gb : Z;
  st_allow_disc_removal : bool;
  st_keep_playable_copy : bool;
}.
Definition ModeAuto := "auto".
Definition TriggerManual := "manual".
Definition MethodArr := "arr".
Definition MethodPlex := "plex".
Definition MethodFilesystem := "filesystem".
Definition StorageSeparate := "separate".
Definition PathSourceServer := "server".
Definition PathSourceArr := "arr".

Record MediaServer := {
  ms_kind : string;
  ms_machine_identifier : string;
  ms_enabled : bool;
  ms_storage : string;
}.
(** A Go map lookup of a missing server. *)
Definition zero_server : MediaServer := {|
  ms_kind := ""; ms_machine_identifier := ""; ms_enabled := false; ms_storage := "" |}.
Definition IsPlex (k : string) : bool := String.eqb k MediaServerPlex || String.eqb k "".
Definition Supported (k : string) : bool := mem k [MediaServerPlex; ""; MediaServerJellyfin].
Definition ReadOnly (k : string) : bool := kind_read_only k.

Record ArrInstance := {
  ai_kind : string;
  ai_enabled : bool;
  ai_server_ids : list Z;
  ai_links_confirmed : bool;
}.

(** A library with the columns the executor reads. *)
Record StoredLibrary := {
  sl_library : Library;
  sl_enabled : bool;
  sl_profile_id : option Z;
}.

(** What [newRun] reads once. *)
Record config := {
  cf_settings : Settings;
  cf_servers : gmap Z MediaServer;
  cf_arrs : gmap Z ArrInstance;
  cf_mappings : list PathMapping;
  cf_libraries : gmap Z StoredLibrary;
  cf_exclusions : list Exclusion;
  cf_profiles : gmap Z Profile;
  cf_default_profile : Profile;
}.
Definition cf_mapper (cf : config) : Mapper := New (cf_mappings cf).
Definition cf_server (cf : config) (sid : Z) : MediaServer := default zero_server (cf_servers cf !! sid).
(** The libraries as the engine's protections read them. *)
Definition cf_library_names (cf : config) : gmap Z Library := sl_library <$> cf_libraries cf.

(** ** Stored groups *)

Record xgroup := { xg_id : Z; xg_group : DuplicateGroup; xg_files : list (Z * GroupFile) }.
Definition load_row (id : Z) (r : group_row) : xgroup :=
  {| xg_id := id; xg_group := load_group r; xg_files := gr_files r |}.
Definition versions_of (g : xgroup) : list MediaVersion := map (fun idf => gf_version (snd idf)) (xg_files g).

Definition serverOf (g : xgroup) (v : MediaVersion) : Z :=
  if negb (mv_server_id v =? 0) then mv_server_id v else dg_server_id (xg_group g).

(** The distinct servers and rating keys of a group's versions, sorted. *)
Definition involved_servers (g : xgroup) : list Z :=
  stable_sort Z.ltb (dedup (omap (fun v => if blank (mv_rating_key v) then None else Some (serverOf g v)) (versions_of g))).
Definition rating_keys_on (g : xgroup) (sid : Z) : list string :=
  sort_strings (dedup (omap (fun v =>
    if blank (mv_rating_key v) || negb (serverOf g v =? sid) then None else Some (trim_space (mv_rating_key v)))
    (versions_of g))).
(** [involvedRatingKeys]. *)
Definition involvedRatingKeys (g : xgroup) : list (Z * list string) :=
  map (fun sid => (sid, rating_keys_on g sid)) (involved_servers g).

Definition other_kind (key : string) : bool :=
  match KindOfVersionKey key with Some k => negb (IsPlex k) | None => false end.

(** [playingKeys]: the ids a session reports while it plays a version of the group. *)
Definition playingKeys (g : xgroup) (sid : Z) : list string :=
  dedup (rating_keys_on g sid ++
    flat_map (fun v =>
      if (serverOf g v =? sid) && other_kind (mv_key v)
      then List.filter (fun id => negb (String.eqb id "")) (map trim_space (mv_source_id v :: map mp_item_id (mv_parts v)))
      else []) (versions_of g)).

(** [listingPlayingIDs]. *)
Definition listingPlayingIDs (e : OtherListing) : list string :=
  trim_space (ol_rating_key e) ::
  (if other_kind (ol_version_key e) then
     (match last_index_byte (ol_version_key e) ":"%char with Some i => [sdrop (S i) (ol_version_key e)] | None => [] end) ++
     List.filter (fun id => negb (String.eqb id "")) (map trim_space (ol_part_item_ids e))
   else []).

(** [displayTitle]. *)
Definition displayTitle (g : DuplicateGroup) : string :=
  let title := trim_space (dg_title g) in
  let show := trim_space (dg_show_title g) in
  let ep := EpisodeLabel (dg_season g) (dg_episode g) in
  let plain :=
    let title := if String.eqb title "" then dg_key g else title in
    if String.eqb (dg_media_type g) MediaTypeMovie && (0 <? dg_year g)
    then title +:+ " (" +:+ format_int (dg_year g) +:+ ")" else title in
  if String.eqb (dg_media_type g) MediaTypeEpisode && negb (String.eqb show "") then
    if negb (String.eqb title "") then show +:+ " - " +:+ ep +:+ " - " +:+ title else show +:+ " - " +:+ ep
  else plain.

(** [findTargetFile]. *)
Definition findTargetFile (g : xgroup) (a : Action) : option (Z * GroupFile) :=
  if String.eqb (ac_version_key a) "" && (ac_group_file_id a =? 0) then None else
  find (fun idf => (String.eqb (ac_version_key a) "" || String.eqb (file_key (snd idf)) (ac_version_key a)) &&
                   ((ac_group_file_id a =? 0) || (fst idf =? ac_group_file_id a))) (xg_files g).

(** [samePathList]. *)
Definition samePathList (a b : list string) : bool :=
  negb (Nat.eqb (length a) 0) && Nat.eqb (length a) (length b) &&
  forallb (fun xy => String.eqb (Normalize (fst xy)) (Normalize (snd xy))) (combine a b).

(** [partPaths]: for a disc, its roots. *)
Definition partPaths (v : MediaVersion) : list string :=
  let parts := map mp_path (mv_parts v) in
  match mv_disc v with
  | Some d => match di_roots d with
              | [] => if String.eqb (di_root d) "" then parts else [di_root d]
              | roots => roots
              end
  | None => parts
  end.

(** [isShared]. *)
Definition isShared (v : MediaVersion) : bool :=
  existsb (fun p => negb (Nat.eqb (length (mp_shared_with p)) 0)) (mv_parts v) || (0 <? mv_episode_end v) ||
  match mv_arr v with
  | Some a => String.eqb (af_kind a) ArrSonarr && (1 <? Z.of_nat (length (af_episode_ids a)))
  | None => false
  end.

(** [hasShortcut]. *)
Definition hasShortcut (v : MediaVersion) : bool :=
  existsb (fun p => negb (Nat.eqb (length (mp_shortcut_of p)) 0)) (mv_parts v).

(** [readOnlyVersion] and [readOnlyGroup]. *)
Definition readOnlyVersion (v : MediaVersion) : bool :=
  match KindOfVersionKey (mv_key v) with Some k => ReadOnly k | None => false end.
Definition readOnlyGroup (g : xgroup) : bool := existsb readOnlyVersion (versions_of g).

(** [withinSlash]: strictly inside. *)
Definition withinSlash (p root : string) : bool :=
  if String.eqb root "" || String.eqb p root then false
  else if has_suffix root "/" then has_prefix p root
  else has_prefix p (root +:+ "/").

(** [isWithin], for absolute paths ([filepath.Rel] cleans both). *)
Definition isWithin (child root : string) : bool :=
  has_prefix child "/" && has_prefix root "/" && withinSlash (path_clean child) (path_clean root).

Definition decided_remove (f : GroupFile) : bool := String.eqb (gf_decision f) DecisionRemove.
Definition decided_keep (f : GroupFile) : bool := String.eqb (gf_decision f) DecisionKeep.

Section unicode.
Context `{Unicode}.

(** [isOptimized]. *)
Definition isOptimized (v : MediaVersion) : bool :=
  mv_optimized v ||
  existsb (fun p => contains ("/" +:+ to_lower (trim_slash (Normalize (mp_path p))) +:+ "/") "/plex versions/") (mv_parts v).

(** [pathKey]: Windows-style paths compare without case. *)
Definition pathKey (p : string) : string :=
  let n := Normalize (trim_space p) in
  if String.eqb n "" then ""
  else if has_prefix n "//" || match n with String c (String ":" _) => isASCIILetter c | _ => false end then to_lower n
  else n.

(** ** Full discs *)

(** [plexPlayable]: neither a disc nor a file of one. *)
Definition plexPlayable (v : MediaVersion) : bool :=
  match mv_disc v with
  | Some _ => false
  | None => negb (existsb (fun p => IsDiscPath (mp_path p) ||
      (negb (String.eqb (mp_local_path p) "") && IsDiscPath (mp_local_path p))) (mv_parts v))
  end.

(** [onlyDiscsKept]. *)
Definition onlyDiscsKept (g : xgroup) : bool :=
  let files := map snd (xg_files g) in
  let kept f := decided_keep f && negb (isOptimized (gf_version f)) in
  existsb (fun f => kept f && negb (plexPlayable (gf_version f))) files &&
  negb (existsb (fun f => kept f && plexPlayable (gf_version f)) files) &&
  existsb (fun f => decided_remove f && plexPlayable (gf_version f)) files.

Inductive reason :=
  (* approvals *)
  | ChangedSinceReview | ChangedWhileApproving | NeedsManualApproval | AlreadyQueued | AlreadyResolved | IsIgnored
  | IsProtected | UnknownStatus | NeedsAutoMode | NotStable | BlockingFlag (flag : string) | RemovalRunning
  (* full discs *)
  | DiscNeedsPerson | DiscInTVLibrary | DiscRemovalOff | DiscNeedsBin | DiscNeedsFilesystem | DiscNotRemovable
  | OnlyDiscsKept
  (* read-only servers *)
  | ReadOnlyNeedsPerson | IsReportOnly | UnmappedPart (path : string) | StoredWithoutIdentity (sid : Z)
  | RemovalGateClosed (sid : Z).

(** [discRemovalProblem]. *)
Definition disc_removable_now (f : GroupFile) : bool :=
  match mv_disc (gf_version f) with
  | Some d => di_removable d && negb (Nat.eqb (length (di_owned_entries d)) 0) && negb (blank (di_local_root d)) &&
              Nat.eqb (length (di_plex_items d)) 0
  | None => true
  end.
Definition discRemovalProblem (g : xgroup) (st : Settings) (manual : bool) : option reason :=
  let discs := List.filter (fun f => decided_remove f && IsDisc (gf_version f)) (map snd (xg_files g)) in
  let discs_problem :=
    match discs with
    | [] => None
    | _ =>
      if negb manual then Some DiscNeedsPerson
      else if String.eqb (dg_media_type (xg_group g)) MediaTypeEpisode then Some DiscInTVLibrary
      else if negb (st_allow_disc_removal st) then Some DiscRemovalOff
      else if blank (st_recycle_bin_path st) then Some DiscNeedsBin
      else if negb (existsb (fun m => equal_fold (trim_space m) MethodFilesystem) (st_deletion_methods st))
      then Some DiscNeedsFilesystem
      else if negb (forallb disc_removable_now discs) then Some DiscNotRemovable else None
    end in
  match discs_problem with
  | Some p => Some p
  | None => if st_keep_playable_copy st && onlyDiscsKept g then Some OnlyDiscsKept else None
  end.

(** [discMember]: a path of a regular version inside a disc, also as mapped. *)
Definition disc_path_of (m : Mapper) (v : MediaVersion) (p : MediaPart) : option string :=
  if IsDiscPath (mp_path p) then Some (mp_path p)
  else if negb (String.eqb (mp_local_path p) "") && IsDiscPath (mp_local_path p) then Some (mp_local_path p)
  else match ToLocal m PathSourceServer (mv_server_id v) (mp_path p) with
       | Some local => if IsDiscPath local then Some local else None
       | None => None
       end.
Definition discMember (m : Mapper) (v : MediaVersion) : option string :=
  match mv_disc v with
  | Some _ => None
  | None => head (omap (disc_path_of m v) (mv_parts v))
  end.

(** ** Read-only servers *)

(** [unmappedPart]. *)
Definition unmappedPart (m : Mapper) (sid : Z) (v : MediaVersion) : option string :=
  head (omap (fun p => match ToLocal m PathSourceServer sid (mp_path p) with Some _ => None | None => Some (mp_path p) end)
    (mv_parts v)).

(** [readOnlyApprovalProblem]: the first version with a problem. *)
Definition read_only_version_problem (g : xgroup) (m : Mapper) (v : MediaVersion) : option reason :=
  match mv_report_only v with
  | [] => UnmappedPart <$> unmappedPart m (serverOf g v) v
  | _ => Some IsReportOnly
  end.
Definition readOnlyApprovalProblem (g : xgroup) (mappings : list PathMapping) (manual : bool) : option reason :=
  if negb (readOnlyGroup g) then None
  else if negb manual then Some ReadOnlyNeedsPerson
  else head (omap (read_only_version_problem g (New mappings)) (versions_of g)).

(** [multiServer] and [enabledServerIDs]. *)
Definition live_server (s : MediaServer) : bool := ms_enabled s && Supported (ms_kind s).
Definition enabledServerIDs (cf : config) : list Z :=
  stable_sort Z.ltb (map fst (List.filter (fun kv => live_server (snd kv)) (map_to_list (cf_servers cf)))).
Definition multiServer (cf : config) : bool := (2 <=? Z.of_nat (length (enabledServerIDs cf))).
Definition separateServer (s : MediaServer) : bool := equal_fold (trim_space (ms_storage s)) StorageSeparate.

(** [profileFor]: the scanner's rule. *)
Definition profileFor (cf : config) (g : xgroup) : Profile :=
  match default [] (dg_library_ids (xg_group g)) with
  | [] => cf_default_profile cf
  | lid :: _ =>
    match cf_libraries cf !! lid with
    | Some l => match sl_profile_id l with
                | Some pid => default (cf_default_profile cf) (cf_profiles cf !! pid)
                | None => cf_default_profile cf
                end
    | None => cf_default_profile cf
    end
  end.
End unicode.

(** [gbToBytes]: decimal GB, saturating. *)
Definition bytesPerGB : Z := 1000000000.
Definition gbToBytes (gb : Z) : Z :=
  if gb <=? 0 then 0
  else if max_int64 / bytesPerGB <? gb then max_int64
  else gb * bytesPerGB.
