(* ===== verification/FileId.v ===== *)
(** * Whether two paths are one file (internal/fileid)

    [Compare] proves two open files different, finds them the same, or says it cannot tell.
    The system calls are [hooks], answered anew for every call; the filesystem types a
    [prober] determined, and the mount table it read, are kept. Reasons are left out.
    At the end: what a proof of difference rests on. *)

From S2P Require Import Prelude GoStd.
Local Open Scope string_scope.
Local Open Scope Z_scope.

Inductive Verdict := Unknown | Same | Distinct.

Record Stat := { s_dev : Z; s_ino : Z; s_nlink : Z; s_size : Z; s_regular : bool }.
Record Info := { i_dev : Z; i_ino : Z; i_nlink : Z; i_size : Z; i_fs_type : string; i_allowlisted : bool }.

(** ** Filesystem types *)

Definition magicNames : list (Z * string) :=
  [(0xEF53, "ext4"); (0x58465342, "xfs"); (0x9123683E, "btrfs"); (0x2FC12FC1, "zfs"); (0x6969, "nfs"); (0xFF534D42, "cifs");
   (0xFE534D42, "smb2"); (0x65735546, "fuse"); (0x794C7630, "overlay"); (0x01021997, "9p"); (0x01021994, "tmpfs"); (0x73717368, "squashfs")].
Definition magic_name (m : Z) : option string := snd <$> find (fun p => fst p =? m) magicNames.
Definition allowlisted (name : string) : bool := mem name ["ext4"; "xfs"; "btrfs"; "zfs"].

(** [strings.Cut] at a byte: what is before it (everything when it is missing). *)
Definition before_byte (s : string) (c : ascii) : string := match index_byte s c with Some i => stake i s | None => s end.
Definition agrees (magicName mountType : string) : bool :=
  let base := before_byte mountType "."%char in
  if String.eqb magicName "ext4" then mem base ["ext2"; "ext3"; "ext4"]
  else if String.eqb magicName "nfs" then mem base ["nfs"; "nfs4"]
  else if String.eqb magicName "cifs" || String.eqb magicName "smb2" then String.eqb base "cifs" || has_prefix base "smb"
  else if String.eqb magicName "fuse" then mem base ["fuse"; "fuseblk"; "virtiofs"]
  else String.eqb magicName base.
Definition knownOther (m : Z) (name : string) : bool :=
  match magic_name m with Some want => negb (agrees want name) | None => false end.

(** ** The mount table *)

Record mountEntry := { me_dev : string; me_typ : string }.

(** [strconv.ParseUint(s, 10, 32)] succeeds. *)
Definition is_uint32 (s : string) : bool :=
  negb (String.eqb s "") && match parse_digits 0 s with Some n => n <? 2 ^ 32 | None => false end.
(** The first "-" from field 6 on. *)
Fixpoint separator (i : nat) (fs : list string) : option nat :=
  match fs with
  | [] => None
  | f :: fs => if (6 <=? i)%nat && String.eqb f "-" then Some i else separator (S i) fs
  end.
Definition mount_line (line : string) : option mountEntry :=
  let f := fields_func is_space line in
  if (length f <? 10)%nat then None else
  match separator 0 f with
  | None => None
  | Some sep =>
    match f !! S sep, f !! 2%nat with
    | Some typ, Some dev =>
      match index_byte dev ":"%char with
      | None => None
      | Some i => if is_uint32 (stake i dev) && is_uint32 (sdrop (S i) dev) then Some {| me_dev := dev; me_typ := typ |} else None
      end
    | _, _ => None
    end
  end.
Definition ParseMountinfo (data : string) : list mountEntry := omap mount_line (split_byte "010"%char data).

(** ** Probing *)

(** A file descriptor is a number; [None] is an error. *)
Record hooks := {
  h_supported : bool;
  h_open : string -> option Z;
  h_fstat : Z -> option Stat;
  h_stat : string -> option Stat;
  h_fstatfs : Z -> option Z;
  h_statfs : string -> option Z;
  h_mountinfo : option string;
  h_major : Z -> Z;
  h_minor : Z -> Z;
}.

Record fsType := { ft_name : string; ft_allowlisted : bool }.
Definition no_type : fsType := {| ft_name := ""; ft_allowlisted := false |}.
(** [None]: the mount table was not read yet; [Some None]: it could not be. *)
Record prober := { pr_assume : string; pr_types : gmap Z fsType; pr_mounts : option (option (list mountEntry)) }.
Definition new_prober (assume : string) : prober := {| pr_assume := assume; pr_types := ∅; pr_mounts := None |}.

Section probe.
Context (h : hooks).

Definition mountEntries (p : prober) : option (list mountEntry) * prober :=
  match pr_mounts p with
  | Some r => (r, p)
  | None => let r := ParseMountinfo <$> h_mountinfo h in
            (r, {| pr_assume := pr_assume p; pr_types := pr_types p; pr_mounts := Some r |})
  end.
Definition device_id (dev : Z) : string := format_int (h_major h dev) +:+ ":" +:+ format_int (h_minor h dev).
(** The type all entries of a device agree on: [None] when two differ. *)
Fixpoint mounted_type (id name : string) (es : list mountEntry) : option string :=
  match es with
  | [] => Some name
  | e :: es =>
    if negb (String.eqb (me_dev e) id) then mounted_type id name es
    else if negb (String.eqb name "") && negb (String.eqb name (me_typ e)) then None
    else mounted_type id (me_typ e) es
  end.
(** The type with this name and this f_type. *)
Definition confirmed_type (name : string) (magic : option Z) : fsType :=
  match magic with
  | None => {| ft_name := name; ft_allowlisted := false |}
  | Some m =>
    if knownOther m name then {| ft_name := name; ft_allowlisted := false |}
    else {| ft_name := name; ft_allowlisted :=
      if String.eqb name "zfs" then negb (knownOther m "zfs")
      else if allowlisted name then match magic_name m with Some want => String.eqb want name | None => false end
      else false |}
  end.
Definition determine (dev : Z) (magic : option Z) (p : prober) : fsType * prober :=
  if negb (String.eqb (pr_assume p) "") then ({| ft_name := pr_assume p; ft_allowlisted := allowlisted (pr_assume p) |}, p) else
  let '(entries, p) := mountEntries p in
  (match entries with
   | None => no_type
   | Some es =>
     match mounted_type (device_id dev) "" es with
     | None => no_type
     | Some name => if String.eqb name "" then no_type else confirmed_type name magic
     end
   end, p).
Definition typeOf (dev : Z) (magic : option Z) (p : prober) : fsType * prober :=
  match pr_types p !! dev with
  | Some t => (t, p)
  | None =>
    let '(t, p) := determine dev magic p in
    (t, {| pr_assume := pr_assume p; pr_types := <[dev := t]> (pr_types p); pr_mounts := pr_mounts p |})
  end.

Definition PathInfo (path : string) (p : prober) : option Info * prober :=
  match h_stat h path with
  | None => (None, p)
  | Some st =>
    if negb (s_regular st) then (None, p) else
    let '(ft, p) := typeOf (s_dev st) (h_statfs h path) p in
    (Some {| i_dev := s_dev st; i_ino := s_ino st; i_nlink := s_nlink st; i_size := s_size st; i_fs_type := ft_name ft;
             i_allowlisted := ft_allowlisted ft && h_supported h |}, p)
  end.
Definition CouldBeDistinct (a b : Info) : bool :=
  i_allowlisted a && i_allowlisted b && (i_dev a =? i_dev b) && negb (i_ino a =? 0) && negb (i_ino b =? 0) && negb (i_ino a =? i_ino b).

(** The verdict on two open regular files of one device whose types are known. *)
Definition compare_stats (sa sb : Stat) (ta tb : fsType) : Verdict :=
  if negb (ft_allowlisted ta) || negb (ft_allowlisted tb) then Unknown
  else if negb (s_ino sa =? 0) && negb (s_ino sb =? 0) && negb (s_ino sa =? s_ino sb) then Distinct
  else if negb (s_size sa =? s_size sb) then Distinct
  else Unknown.
Definition Compare (a b : string) (p : prober) : Verdict * prober :=
  match h_open h a with
  | None => (Unknown, p)
  | Some fa =>
    match h_open h b with
    | None => (Unknown, p)
    | Some fb =>
      match h_fstat h fa, h_fstat h fb with
      | Some sa, Some sb =>
        if negb (s_regular sa) || negb (s_regular sb) then (Unknown, p)
        else if (s_dev sa =? s_dev sb) && negb (s_ino sa =? 0) && (s_ino sa =? s_ino sb) then (Same, p)
        else if negb (h_supported h) then (Unknown, p)
        else if negb (s_dev sa =? s_dev sb) then (Unknown, p)
        else
          let '(ta, p) := typeOf (s_dev sa) (h_fstatfs h fa) p in
          let '(tb, p) := typeOf (s_dev sb) (h_fstatfs h fb) p in
          (compare_stats sa sb ta tb, p)
      | _, _ => (Unknown, p)
      end
    end
  end.
End probe.

(** The fields of a prober are the package's: one comes from [Default] (no type is assumed) and
    is changed by its methods only. [used hs p]: by calls answered by [hs], the last one first. *)
Inductive used : list hooks -> prober -> Prop :=
  | used_new : used [] (new_prober "")
  | used_compare h a b hs p : used hs p -> used (h :: hs) (snd (Compare h a b p))
  | used_info h path hs p : used hs p -> used (h :: hs) (snd (PathInfo h path p)).
Record Prober := { pb_fields :> prober; pb_used : exists hs, used hs pb_fields }.
Definition Default : Prober := {| pb_fields := new_prober ""; pb_used := ex_intro _ [] used_new |}.
Lemma used_again h a b p : (exists hs, used hs p) -> exists hs, used hs (snd (Compare h a b p)).
Proof. intros [hs Hp]. exists (h :: hs). by apply used_compare. Qed.
Definition CompareFiles (h : hooks) (a b : string) (p : Prober) : Verdict * Prober :=
  (fst (Compare h a b p), {| pb_fields := snd (Compare h a b p); pb_used := used_again h a b p (pb_used p) |}).

(** * What a verdict rests on *)

(** The entries of a device that has one type. *)
Lemma mounted_type_spec id name0 es name : mounted_type id name0 es = Some name -> name <> "" ->
  (name0 = "" \/ name0 = name) /\ (forall e, e ∈ es -> me_dev e = id -> me_typ e = name \/ me_typ e = "") /\
  (name0 = name \/ exists e, e ∈ es /\ me_dev e = id /\ me_typ e = name).
Proof.
  revert name0. induction es as [|e es IH]; intros name0; cbn [mounted_type].
  { intros [= ->] _. split_and!; [by right | by intros e ?%elem_of_nil | by left]. }
  destruct (String.eqb_spec (me_dev e) id) as [Hid|Hid]; cbn [negb].
  - destruct (String.eqb_spec name0 "") as [->|H0]; cbn [negb andb]; [| destruct (String.eqb_spec name0 (me_typ e)) as [Et|]; cbn [negb]; [| done]].
    + intros Hm Hn. destruct (IH _ Hm Hn) as (H1 & H2 & H3). split_and!; [by left | |].
      * intros x [->|Hx]%elem_of_cons Hd; [naive_solver | by apply H2].
      * right. destruct H3 as [Ht|(x & Hx & Hd & Ht)]; [exists e | exists x]; (split_and!; [set_solver | done | done]).
    + intros Hm Hn. destruct (IH _ Hm Hn) as (H1 & H2 & H3). rewrite <- Et in *. split_and!; [done | |].
      * intros x [->|Hx]%elem_of_cons Hd; [rewrite <- Et; naive_solver | by apply H2].
      * destruct H3 as [Ht|(x & Hx & Hd & Ht)]; [by left | right; exists x; set_solver].
  - intros Hm Hn. destruct (IH _ Hm Hn) as (H1 & H2 & H3). split_and!; [done | |].
    + intros x [->|Hx]%elem_of_cons Hd; [done | by apply H2].
    + destruct H3 as [Ht|(x & Hx & Hd & Ht)]; [by left | right; exists x; set_solver].
Qed.

Lemma fields_not_empty f cur l x : x ∈ fields_runes f cur l -> x <> "".
Proof.
  revert cur. induction l as [|[r b] l IH]; intros cur; cbn [fields_runes].
  - destruct (String.eqb_spec cur ""); [by intros ?%elem_of_nil | by intros ->%list_elem_of_singleton].
  - destruct (f r); [| apply IH]. destruct (String.eqb_spec cur ""); [apply IH |]. intros [->|Hx]%elem_of_cons; [done | by eapply IH].
Qed.
Lemma parsed_type data e : e ∈ ParseMountinfo data -> me_typ e <> "".
Proof.
  unfold ParseMountinfo. intros (line & _ & Hl)%list_elem_of_omap. unfold mount_line in Hl. destruct (_ <? 10)%nat; [done |].
  destruct (separator 0 _) as [sep|]; [| done]. destruct (fields_func is_space line !! S sep) as [typ|] eqn:Et; [| done].
  destruct (fields_func is_space line !! 2%nat) as [dev|]; [| done]. destruct (index_byte dev ":"); [| done].
  destruct (_ && _); [| done]. injection Hl as <-. cbn. apply list_elem_of_lookup_2 in Et. by eapply fields_not_empty.
Qed.

(** The f_type of a device as the system calls [h] gave it: for an open file of the device, or
    for a path to one. *)
Definition f_type_read (h : hooks) (dev m : Z) : Prop :=
  (exists fd st, h_fstat h fd = Some st /\ s_dev st = dev /\ h_fstatfs h fd = Some m) \/
  (exists path st, h_stat h path = Some st /\ s_dev st = dev /\ h_statfs h path = Some m).
(** The type of a device is [name], an allowlisted one: the mount table [es], read in one of
    the calls [hs], lists the device with that type only, and an f_type read on the device in
    one of those calls is the one of that type (ZFS may have an unknown one). *)
Definition known_type (hs : list hooks) (es : list mountEntry) (dev : Z) (name : string) : Prop :=
  allowlisted name = true /\ (exists h data, h ∈ hs /\ h_mountinfo h = Some data /\ es = ParseMountinfo data) /\
  exists h m, h ∈ hs /\ f_type_read h dev m /\ (magic_name m = Some name \/ (name = "zfs" /\ magic_name m = None)) /\
    (exists e, e ∈ es /\ me_dev e = device_id h dev) /\ (forall e, e ∈ es -> me_dev e = device_id h dev -> me_typ e = name).

Lemma agrees_zfs want : agrees want "zfs" = true -> want = "zfs".
Proof.
  unfold agrees. change (before_byte "zfs" "."%char) with "zfs". destruct (String.eqb want "ext4"); [done |]. destruct (String.eqb want "nfs"); [done |].
  destruct (String.eqb want "cifs"); [done |]. destruct (String.eqb want "smb2"); [done |]. destruct (String.eqb want "fuse"); [done |].
  intros Hw. by apply String.eqb_eq in Hw.
Qed.
Lemma confirmed_spec name magic : ft_allowlisted (confirmed_type name magic) = true -> ft_name (confirmed_type name magic) = name /\
  allowlisted name = true /\ exists m, magic = Some m /\ (magic_name m = Some name \/ (name = "zfs" /\ magic_name m = None)).
Proof.
  unfold confirmed_type. destruct magic as [m|]; [| done]. destruct (knownOther m name) eqn:Ek; [done |]. cbn [ft_name ft_allowlisted].
  destruct (String.eqb_spec name "zfs") as [->|Hz].
  - intros _. split_and!; [done | done |]. exists m. split; [done |]. unfold knownOther in Ek. destruct (magic_name m) as [want|] eqn:Em; [left | by right].
    apply negb_false_iff, agrees_zfs in Ek. by rewrite Ek.
  - destruct (allowlisted name) eqn:Ea; [| done]. destruct (magic_name m) as [want|] eqn:Em; [| done]. intros ->%String.eqb_eq.
    split_and!; [done | done |]. exists m. split; [done | by left].
Qed.

Section history.
(** The table a prober holds was read in one of the calls. *)
Definition table_read (hs : list hooks) (p : prober) : Prop :=
  forall es, pr_mounts p = Some (Some es) -> exists h data, h ∈ hs /\ h_mountinfo h = Some data /\ es = ParseMountinfo data.

(** Every allowlisted type a prober remembers is known. *)
Record sound (hs : list hooks) (p : prober) : Prop := {
  so_assume : pr_assume p = "";
  so_table : table_read hs p;
  so_types : forall dev t, pr_types p !! dev = Some t -> ft_allowlisted t = true ->
    exists es, pr_mounts p = Some (Some es) /\ known_type hs es dev (ft_name t);
}.

Lemma known_more hs hs' es dev name : hs ⊆ hs' -> known_type hs es dev name -> known_type hs' es dev name.
Proof. intros Hs (Ha & (h & data & Hh & Ht) & (h' & m & Hh' & Hk)). split; [done |]. split; [exists h, data; auto | exists h', m; auto]. Qed.
Lemma sound_more hs hs' p : hs ⊆ hs' -> sound hs p -> sound hs' p.
Proof.
  intros Hs [Ha Ht Hk]. split; [done | |].
  - intros es He. destruct (Ht es He) as (h & data & Hh & Hd). exists h, data. auto.
  - intros dev t Hl Hal. destruct (Hk dev t Hl Hal) as (es & He & Hn). exists es. split; [done |]. by eapply known_more.
Qed.
Lemma sound_new : sound [] (new_prober "").
Proof. split; [done | done | by intros ? ?]. Qed.
Lemma entries_sound h hs p : h ∈ hs -> sound hs p ->
  sound hs (snd (mountEntries h p)) /\ pr_mounts (snd (mountEntries h p)) = Some (fst (mountEntries h p)).
Proof.
  intros Hh Hp. pose proof Hp as [Ha Ht Hs]. unfold mountEntries. destruct (pr_mounts p) as [r|] eqn:Em; cbn [fst snd]; [by split |]. split; [| done]. split; cbn.
  - done.
  - intros es [= E]. destruct (h_mountinfo h) as [data|] eqn:Ed; [| done]. injection E as <-. by exists h, data.
  - intros dev t Hl Hal. destruct (Hs dev t Hl Hal) as (es & Hes & _). congruence.
Qed.
Lemma type_sound h hs dev magic p : h ∈ hs -> (forall m, magic = Some m -> f_type_read h dev m) -> sound hs p ->
  let '(t, p') := typeOf h dev magic p in sound hs p' /\
  (ft_allowlisted t = true -> exists es, pr_mounts p' = Some (Some es) /\ known_type hs es dev (ft_name t)).
Proof.
  intros Hh Hread Hp. unfold typeOf. destruct (pr_types p !! dev) as [t|] eqn:El; [split; [done | by apply Hp] |].
  unfold determine. rewrite (so_assume _ p Hp). cbn [String.eqb negb]. pose proof (entries_sound h hs p Hh Hp) as [Hp1 Hm].
  destruct (mountEntries h p) as [entries p1]. cbn [fst snd] in *.
  set (t := match entries with None => _ | Some _ => _ end).
  assert (Ht : ft_allowlisted t = true -> exists es, pr_mounts p1 = Some (Some es) /\ known_type hs es dev (ft_name t)).
  { subst t. destruct entries as [es|]; [| done]. destruct (mounted_type (device_id h dev) "" es) as [name|] eqn:Et; [| done].
    destruct (String.eqb_spec name "") as [|Hn]; [done |]. intros (-> & Hal & m & Hmg & Hmag)%confirmed_spec. exists es. split; [done |].
    pose proof (so_table _ _ Hp1 es Hm) as Htab. split; [done |]. split; [done |].
    destruct (mounted_type_spec _ _ _ _ Et Hn) as (_ & Hall & Hex). exists h, m. split_and!; [done | by apply Hread | done | naive_solver |].
    intros e He Hd. destruct (Hall e He Hd) as [|E]; [done |]. destruct Htab as (h1 & data & _ & _ & ->). by destruct (parsed_type data e). }
  split; [| done]. split; cbn; [apply Hp1 | apply Hp1 |]. intros dev' t'. rewrite lookup_insert. case_decide as Hdev; [intros [= <-]; subst; exact Ht | apply Hp1].
Qed.

Lemma compare_sound h a b hs p : h ∈ hs -> sound hs p -> let '(v, p') := Compare h a b p in sound hs p' /\
  (v = Distinct -> h_supported h = true /\ exists fa fb sa sb es name, h_open h a = Some fa /\ h_open h b = Some fb /\
     h_fstat h fa = Some sa /\ h_fstat h fb = Some sb /\ s_regular sa = true /\ s_regular sb = true /\ s_dev sa = s_dev sb /\
     (s_ino sa <> s_ino sb \/ s_size sa <> s_size sb) /\ pr_mounts p' = Some (Some es) /\ known_type hs es (s_dev sa) name).
Proof.
  intros Hh Hp. unfold Compare. destruct (h_open h a) as [fa|]; [| done]. destruct (h_open h b) as [fb|]; [| done].
  destruct (h_fstat h fa) as [sa|] eqn:Ea; [| done]. destruct (h_fstat h fb) as [sb|] eqn:Eb; [| done].
  destruct (negb (s_regular sa) || negb (s_regular sb)) eqn:Er; [done |]. apply orb_false_iff in Er as [Era%negb_false_iff Erb%negb_false_iff].
  destruct (_ && (s_ino sa =? s_ino sb)); [done |]. destruct (h_supported h); [cbn [negb] | done]. destruct (Z.eqb_spec (s_dev sa) (s_dev sb)) as [Ed|]; [| done]. cbn [negb].
  assert (Hra : forall m, h_fstatfs h fa = Some m -> f_type_read h (s_dev sa) m) by (intros m Hm; left; by exists fa, sa).
  assert (Hrb : forall m, h_fstatfs h fb = Some m -> f_type_read h (s_dev sb) m) by (intros m Hm; left; by exists fb, sb).
  pose proof (type_sound h hs (s_dev sa) (h_fstatfs h fa) p Hh Hra Hp) as Ht. destruct (typeOf h (s_dev sa) _ p) as [ta p1]. destruct Ht as [Hp1 _].
  pose proof (type_sound h hs (s_dev sb) (h_fstatfs h fb) p1 Hh Hrb Hp1) as Ht. destruct (typeOf h (s_dev sb) _ p1) as [tb p2]. destruct Ht as [Hp2 Hb].
  split; [done |]. unfold compare_stats. destruct (negb (ft_allowlisted ta) || negb (ft_allowlisted tb)) eqn:Eal; [done |].
  apply orb_false_iff in Eal as [_ Eal%negb_false_iff]. destruct (Hb Eal) as (es & Hes & Hk). intros Hd. split; [done |].
  exists fa, fb, sa, sb, es, (ft_name tb). rewrite Ed. split_and!; try done.
  destruct (negb (s_ino sa =? 0) && negb (s_ino sb =? 0) && negb (s_ino sa =? s_ino sb)) eqn:Ei.
  - left. apply andb_true_iff in Ei as [_ Ei%negb_true_iff]. by apply Z.eqb_neq in Ei.
  - right. destruct (Z.eqb_spec (s_size sa) (s_size sb)); done.
Qed.
End history.

Lemma used_sound hs p : used hs p -> sound hs p.
Proof.
  induction 1 as [|h a b hs p _ Hp|h path hs p _ Hp]; [apply sound_new | |]; (apply (sound_more _ (h :: hs)) in Hp; [| set_solver]).
  - pose proof (compare_sound h a b (h :: hs) p ltac:(left) Hp) as Hc. by destruct (Compare h a b p) as [v p'], Hc.
  - unfold PathInfo. destruct (h_stat h path) as [st|] eqn:Es; [| done]. destruct (negb (s_regular st)); [done |].
    assert (Hr : forall m, h_statfs h path = Some m -> f_type_read h (s_dev st) m) by (intros m Hm; right; by exists path, st).
    pose proof (type_sound h (h :: hs) (s_dev st) (h_statfs h path) p ltac:(left) Hr Hp) as Ht. by destruct (typeOf h _ _ p) as [t p'], Ht.
Qed.

(** C12: A difference is proven: two paths are only called different on a supported platform, when both
    were open at once as regular files of one device with different inode numbers or sizes; the
    mount table, read in this call or an earlier one of the prober, lists that device with one
    allowlisted type only; and an f_type read on that very device, for an open file or a path of
    it in one of those calls, is the f_type of that type (for ZFS, at least that of no other).
    So wherever descriptors of one file report one inode number and one size, the two paths are
    different files. *)
Theorem distinct_proven h a b hs p : used hs p -> fst (Compare h a b p) = Distinct ->
  h_supported h = true /\ exists fa fb sa sb es name, h_open h a = Some fa /\ h_open h b = Some fb /\
    h_fstat h fa = Some sa /\ h_fstat h fb = Some sb /\ s_regular sa = true /\ s_regular sb = true /\ s_dev sa = s_dev sb /\
    (s_ino sa <> s_ino sb \/ s_size sa <> s_size sb) /\ pr_mounts (snd (Compare h a b p)) = Some (Some es) /\
    known_type (h :: hs) es (s_dev sa) name /\
    forall (F : Type) (file : Z -> F), (forall x y sx sy, file x = file y -> h_fstat h x = Some sx -> h_fstat h y = Some sy ->
      s_ino sx = s_ino sy /\ s_size sx = s_size sy) -> file fa <> file fb.
Proof.
  intros Hu Hd. pose proof (sound_more hs (h :: hs) p ltac:(set_solver) (used_sound _ _ Hu)) as Hs0.
  pose proof (compare_sound h a b (h :: hs) p ltac:(left) Hs0) as Hc. destruct (Compare h a b p) as [v p']. cbn [fst snd] in *.
  destruct Hc as [_ Hc]. destruct (Hc Hd) as (Hs & fa & fb & sa & sb & es & name & H1 & H2 & H3 & H4 & H5 & H6 & H7 & H8 & H9 & H10).
  split; [done |]. exists fa, fb, sa, sb, es, name. split_and!; try done. intros F file Hfile Heq. destruct (Hfile _ _ _ _ Heq H3 H4) as [E1 E2]. naive_solver.
Qed.

(** ** The mount table as the kernel writes it *)

(** Words of printable ASCII (paths are octal-escaped). *)
Fixpoint plain (s : string) : bool :=
  match s with "" => true | String c s => (byte_of c <? 128) && negb (is_space (byte_of c)) && plain s end.
Lemma plain_fields w cur t : plain w = true -> fields_runes is_space cur (runes (w +:+ t)) = fields_runes is_space (cur +:+ w) (runes t).
Proof.
  revert cur. induction w as [|c w IH]; intros cur; [by rewrite str_app_nil_r |]. cbn [plain]. intros [[Hc Hs%negb_true_iff]%andb_true_iff Hw]%andb_true_iff.
  rewrite str_app_cons, rune_ascii by done. cbn [fields_runes]. rewrite Hs, IH by done. by rewrite str_app_assoc.
Qed.
Lemma fields_join ws : Forall (fun w => w <> "" /\ plain w = true) ws -> fields_func is_space (join " " ws) = ws.
Proof.
  unfold fields_func. induction ws as [|w ws IH]; [done |]. intros [[Hne Hp] Hws]%Forall_cons. destruct ws as [|w2 ws].
  - cbn [join]. rewrite <- (str_app_nil_r w) at 1. rewrite plain_fields by done. change (runes "") with (@nil (Z * string)). cbn [fields_runes].
    change ("" +:+ w) with w. by rewrite (proj2 (String.eqb_neq w "") Hne).
  - rewrite join_cons by done. rewrite plain_fields by done. rewrite rune_ascii by done. cbn [fields_runes].
    change (is_space (byte_of " ")) with true. cbv iota. change ("" +:+ w) with w. rewrite (proj2 (String.eqb_neq w "") Hne). by rewrite IH.
Qed.

Record mount_fields := { mf_id : string; mf_parent : string; mf_major : Z; mf_minor : Z; mf_root : string; mf_point : string; mf_options : string;
  mf_optional : list string; mf_type : string; mf_source : string; mf_super : string }.
Definition mf_device (m : mount_fields) : string := format_int (mf_major m) +:+ ":" +:+ format_int (mf_minor m).
(** proc(5): a line of /proc/self/mountinfo. *)
Definition mount_words (m : mount_fields) : list string :=
  [mf_id m; mf_parent m; mf_device m; mf_root m; mf_point m; mf_options m] ++ mf_optional m ++ ["-"; mf_type m; mf_source m; mf_super m].
Definition mount_ok (m : mount_fields) : Prop :=
  0 <= mf_major m < 2 ^ 32 /\ 0 <= mf_minor m < 2 ^ 32 /\ "-" ∉ mf_optional m /\ Forall (fun w => w <> "" /\ plain w = true) (mount_words m).
Definition mount_table (ms : list mount_fields) : string := join "
" (map (fun m => join " " (mount_words m)) ms).

Lemma separator_optional i opt rest : (6 <= i)%nat -> "-" ∉ opt -> separator i (opt ++ "-" :: rest) = Some (i + length opt)%nat.
Proof.
  revert i. induction opt as [|o opt IH]; intros i Hi Hn; cbn [app separator length].
  - rewrite (proj2 (Nat.leb_le 6 i) Hi). cbn [andb]. by rewrite Nat.add_0_r.
  - rewrite not_elem_of_cons in Hn. destruct Hn as [Ho Hn]. rewrite (proj2 (String.eqb_neq o "-")) by done. rewrite andb_false_r, IH by (lia || done).
    f_equal. lia.
Qed.
Lemma uint32_text z : 0 <= z < 2 ^ 32 -> is_uint32 (format_int z) = true /\ index_byte (format_int z) ":"%char = None.
Proof.
  intros Hz. destruct (format_nat_digits z) as (Hp & Hd & Hne); [unfold max_int64; lia |]. split; [| by eapply all_chars_free].
  unfold is_uint32. rewrite Hp, (proj2 (String.eqb_neq _ _) Hne). cbn [negb andb]. apply Z.ltb_lt. lia.
Qed.
Lemma cut_between a b c : index_byte a c = None -> index_byte (a +:+ String c b) c = Some (String.length a) /\
  stake (String.length a) (a +:+ String c b) = a /\ sdrop (S (String.length a)) (a +:+ String c b) = b.
Proof.
  unfold index_byte. induction a as [|d a IH]; cbn [index_byte_where]; intros Ha.
  - change ("" +:+ String c b) with (String c b). cbn [index_byte_where]. by rewrite Ascii.eqb_refl.
  - rewrite str_app_cons. cbn [index_byte_where String.length stake]. destruct (Ascii.eqb c d); [done |].
    destruct (index_byte_where _ a); [done |]. destruct (IH eq_refl) as (H1 & H2 & H3). rewrite H1, H2. split_and!; [done | done | exact H3].
Qed.
Lemma mount_line_words m : mount_ok m -> mount_line (join " " (mount_words m)) = Some {| me_dev := mf_device m; me_typ := mf_type m |}.
Proof.
  intros (Hmaj & Hmin & Ho & Hw). unfold mount_line. rewrite fields_join by done. rewrite (proj2 (Nat.ltb_ge _ 10)).
  2:{ unfold mount_words. rewrite !length_app. cbn. lia. }
  assert (Hs : separator 0 (mount_words m) = Some (6 + length (mf_optional m))%nat).
  { change (separator 6 (mf_optional m ++ ["-"; mf_type m; mf_source m; mf_super m])%list = Some (6 + length (mf_optional m))%nat). by apply separator_optional. }
  assert (Ht : mount_words m !! S (6 + length (mf_optional m)) = Some (mf_type m)).
  { change ((mf_optional m ++ ["-"; mf_type m; mf_source m; mf_super m])%list !! S (length (mf_optional m)) = Some (mf_type m)).
    rewrite lookup_app_r by lia. by replace (S (length (mf_optional m)) - length (mf_optional m))%nat with 1%nat by lia. }
  rewrite Hs, Ht. change (mount_words m !! 2%nat) with (Some (mf_device m)). cbv iota.
  unfold mf_device. change (":" +:+ format_int (mf_minor m)) with (String ":" (format_int (mf_minor m))).
  destruct (uint32_text _ Hmaj) as [Hu1 Hf1], (uint32_text _ Hmin) as [Hu2 _].
  destruct (cut_between (format_int (mf_major m)) (format_int (mf_minor m)) ":" Hf1) as (-> & -> & ->). by rewrite Hu1, Hu2.
Qed.
Lemma index_byte_free_app a d b c : index_byte a c = None -> c <> d -> index_byte b c = None -> index_byte (a +:+ String d b) c = None.
Proof.
  unfold index_byte. intros Ha Hd Hb. induction a as [|e a IH].
  - change ("" +:+ String d b) with (String d b). cbn [index_byte_where]. by rewrite (proj2 (Ascii.eqb_neq c d)), Hb.
  - rewrite str_app_cons. cbn [index_byte_where] in *. destruct (Ascii.eqb c e); [done |]. destruct (index_byte_where _ a); [done |]. by rewrite IH.
Qed.
Lemma plain_free w : plain w = true -> index_byte w "010"%char = None.
Proof.
  unfold index_byte. induction w as [|c w IH]; [done |]. cbn [plain index_byte_where]. intros [[_ Hs%negb_true_iff]%andb_true_iff Hw]%andb_true_iff.
  destruct (Ascii.eqb_spec "010" c) as [<-|]; [done |]. by rewrite IH.
Qed.

(** The mount table is read back: for a table of well-formed lines, with any optional fields, [ParseMountinfo]
    gives the device and the filesystem type of every line, in order. *)
Theorem mountinfo_read ms : Forall mount_ok ms ->
  ParseMountinfo (mount_table ms) = map (fun m => {| me_dev := mf_device m; me_typ := mf_type m |}) ms.
Proof.
  intros Hms. destruct ms as [|m0 ms0]; [by vm_compute |]. unfold ParseMountinfo, mount_table.
  assert (Hlf : forall x, x ∈ map (fun m => join " " (mount_words m)) (m0 :: ms0) -> index_byte x "010"%char = None).
  { intros x (m & -> & Hm)%list_elem_of_fmap. rewrite Forall_forall in Hms. destruct (Hms m Hm) as (_ & _ & _ & Hw).
    clear - Hw. induction (mount_words m) as [|w ws IH]; [done |]. apply Forall_cons in Hw as [[_ Hp%plain_free] Hws].
    destruct ws as [|w2 ws]; [done |]. rewrite join_cons by done. apply index_byte_free_app; [done | done |]. by apply IH. }
  rewrite split_join by done. clear Hlf. induction Hms as [|m ms Hm Hms IH]; [done |]. cbn [map omap list_omap]. by rewrite mount_line_words, IH.
Qed.

(** ** Witnesses *)

(** One ext4 disk and a bind mount of it, and an NFS share; two files on the disk. *)
Definition fx_mounts : list mount_fields := [
  {| mf_id := "22"; mf_parent := "1"; mf_major := 8; mf_minor := 1; mf_root := "/"; mf_point := "/"; mf_options := "rw,relatime";
     mf_optional := ["shared:1"]; mf_type := "ext4"; mf_source := "/dev/sda1"; mf_super := "rw" |};
  {| mf_id := "31"; mf_parent := "22"; mf_major := 8; mf_minor := 1; mf_root := "/media"; mf_point := "/my\040films"; mf_options := "rw";
     mf_optional := []; mf_type := "ext4"; mf_source := "/dev/sda1"; mf_super := "rw" |};
  {| mf_id := "40"; mf_parent := "22"; mf_major := 0; mf_minor := 45; mf_root := "/"; mf_point := "/nas"; mf_options := "rw";
     mf_optional := ["master:2"; "shared:3"]; mf_type := "nfs4"; mf_source := "nas:/films"; mf_super := "rw" |}].
Definition fx_ids : hooks := {|
  h_supported := true;
  h_open := fun p => if String.eqb p "/films/a.mkv" then Some 3 else if String.eqb p "/films/b.mkv" then Some 4 else if String.eqb p "/nas/a.mkv" then Some 5 else None;
  h_fstat := fun fd => Some {| s_dev := if fd =? 5 then 45 else 2049; s_ino := 100 + fd; s_nlink := 1; s_size := 700; s_regular := true |};
  h_stat := fun _ => None;
  h_fstatfs := fun fd => Some (if fd =? 5 then 0x6969 else 0xEF53);
  h_statfs := fun _ => None;
  h_mountinfo := Some (mount_table fx_mounts);
  h_major := fun dev => dev / 256;
  h_minor := fun dev => dev mod 256;
|}.
Example fx_compared : fst (Compare fx_ids "/films/a.mkv" "/films/a.mkv" Default) = Same /\
  fst (Compare fx_ids "/films/a.mkv" "/nas/a.mkv" Default) = Unknown /\ fst (Compare fx_ids "/nas/a.mkv" "/nas/b.mkv" Default) = Unknown.
Proof. split_and!; by vm_compute. Qed.

Lemma distinct_proven_witness : fst (Compare fx_ids "/films/a.mkv" "/films/b.mkv" Default) = Distinct /\
  exists es name, pr_mounts (snd (Compare fx_ids "/films/a.mkv" "/films/b.mkv" Default)) = Some (Some es) /\ known_type [fx_ids] es 2049 name.
Proof.
  assert (Hd : fst (Compare fx_ids "/films/a.mkv" "/films/b.mkv" Default) = Distinct) by by vm_compute. split; [exact Hd |].
  destruct (distinct_proven fx_ids "/films/a.mkv" "/films/b.mkv" [] Default used_new Hd) as (_ & fa & fb & sa & sb & es & name & Ha & _ & Hsa & _ & _ & _ & _ & _ & Hm & Hk & _).
  exists es, name. split; [exact Hm |]. injection Ha as <-. injection Hsa as <-. exact Hk.
Defined.

Lemma mountinfo_read_witness : ParseMountinfo (mount_table fx_mounts) =
  [{| me_dev := "8:1"; me_typ := "ext4" |}; {| me_dev := "8:1"; me_typ := "ext4" |}; {| me_dev := "0:45"; me_typ := "nfs4" |}].
Proof.
  refine (eq_trans (mountinfo_read fx_mounts _) _); [| by vm_compute].
  unfold fx_mounts, mount_ok, mount_words. repeat apply Forall_cons_2; try apply Forall_nil_2; cbn [mf_major mf_minor mf_optional];
    (split; [lia |]; split; [lia |]; split; [set_solver |]; repeat apply Forall_cons_2; try apply Forall_nil_2; (split; [done | by vm_compute])).
Defined.
