(* ===== verification/ExecWorld.v ===== *)
(** * The executor's surroundings

    Everything an approval or a queue run does not control, as one oracle: what
    other transactions do between its own (scans, the API, the user), which
    database calls fail, the clock, the cancellation of its context, the answers of
    media servers and *arr instances, and the disk. An oracle is indexed by a
    counter that every call advances, so the same question may be answered
    differently each time. The program is written in the state monad [M] over the
    database, that counter, the state of the run, its prober of file identities and a
    trace of the removals it started. *)

From S2P Require Import Prelude GoStd Models Pathmap Store ExecModel FileId.
Local Open Scope string_scope.
Local Open Scope Z_scope.

(** ** The disk *)

Record FileInfo := { fi_regular : bool; fi_size : Z; fi_dev : Z; fi_ino : Z }.
(** [os.SameFile]. *)
Definition SameFile (a b : FileInfo) : bool := (fi_dev a =? fi_dev b) && (fi_ino a =? fi_ino b).

(** The disk during one verification: [os.Stat], [filepath.EvalSymlinks] and
    [resolveExisting] ([None]: an error). *)
Record fs_view := {
  fv_stat : string -> option FileInfo;
  fv_resolve : string -> option string;
  fv_resolve_existing : string -> option string;
}.

(** A disc as [disc.Detect] and [disc.Inspect] report it. *)
Record Disc := {
  dc_root : string;
  dc_roots : list string;
  dc_owned_entries : list string;
  dc_file_count : Z;
  dc_total_size : Z;
  dc_freed_bytes : Z;
  dc_fingerprint : string;
  dc_removable : bool;
  dc_inspected : bool;                        (* Inspect succeeded *)
  dc_newest_mod_time : time;
}.

(** ** Answers of servers *)

Inductive answer (A : Type) := Failed | NotFound | Got (a : A).
Arguments Failed {A}.
Arguments NotFound {A}.
Arguments Got {A} a.

(** [arr.TrackedFileRef]. *)
Record TrackedFileRef := { tf_item_id : Z; tf_path : string; tf_size : Z }.

(** What a media server lists (internal/mediaserver/mediaserver.go): its libraries, and
    the rows of one. *)
Record LibrarySection := {
  se_key : string;
  se_type : string;
  se_title : string;
  se_uuid : string;
  se_locations : list string;
  se_refreshing : bool;
  se_scanned_at : Z;
  se_content_changed_at : Z;
  se_other_video : bool;
}.
Record PartRef := { rp_id : Z; rp_file : string; rp_size : Z; rp_item_id : string }.
Record MediaRef := {
  mr_id : Z;
  mr_optimized : bool;
  mr_width : Z;
  mr_height : Z;
  mr_duration_ms : Z;
  mr_parts : list PartRef;
  mr_version_id : string;
}.
Record ItemRef := {
  ir_rating_key : string;
  ir_media_type : string;
  ir_title : string;
  ir_year : Z;
  ir_show_title : string;
  ir_season : Z;
  ir_episode : Z;
  ir_guid : string;
  ir_external_ids : gmap string string;
  ir_media_count : Z;
  ir_media : list MediaRef;
  ir_added_at : time;
  ir_shortcuts : list PartRef;
}.
(** [VersionIDOf]. *)
Definition VersionIDOf (m : MediaRef) : string :=
  if negb (String.eqb (mr_version_id m) "") then mr_version_id m else format_int (mr_id m).
(** [ListingFingerprint]: [zero_byte] joins the fields of a line. *)
Definition zero_byte : string := String "000" "".
Definition part_line (row vid : string) (p : PartRef) : string :=
  join zero_byte [row; vid; rp_file p; format_int (rp_size p); rp_item_id p].
Definition media_lines (row : string) (m : MediaRef) : list string :=
  match mr_parts m with
  | [] => [row +:+ zero_byte +:+ VersionIDOf m]
  | ps => map (part_line row (VersionIDOf m)) ps
  end.
Definition item_lines (r : ItemRef) : list string :=
  let row := trim_space (ir_rating_key r) in
  (flat_map (media_lines row) (ir_media r) ++ map (part_line row "strm") (ir_shortcuts r) ++
   match ir_media r, ir_shortcuts r with [], [] => [row] | _, _ => [] end)%list.
Definition ListingFingerprint (refs : list ItemRef) : string :=
  sha256_hex (foldr (fun l out => l +:+ String "010" out) "" (sort_strings (flat_map item_lines refs))).

Class World := {
  w_env : nat -> store -> store;              (* other transactions before a call *)
  w_db_fails : nat -> bool;
  w_now : nat -> time;
  w_cancelled : nat -> bool;                  (* ctx.Err() <> nil *)
  w_settings : nat -> option Settings;
  w_path_mappings : nat -> option (list PathMapping);
  w_client : Z -> bool;                       (* a client can be built for the server *)
  w_identity : nat -> Z -> answer string;     (* NotFound: an empty answer *)
  w_sessions : nat -> Z -> answer (list string);
  w_item : nat -> Z -> string -> answer MediaItem;
  w_gate : nat -> Z -> answer (option reason); (* NotFound: the client has no removal gate *)
  w_sections : nat -> Z -> option (list LibrarySection);  (* None: an error *)
  w_listing : nat -> Z -> string -> string -> answer (list ItemRef); (* AllItems; NotFound: the client cannot list *)
  w_arr_client : Z -> bool;
  w_arr_file : nat -> Z -> Z -> answer TrackedFileRef;
  w_arr_bin : nat -> Z -> option string;      (* the recycle bin of an *arr *)
  w_own_bin : nat -> option string;           (* the validated recycle bin of Dupearr *)
  w_fs : nat -> fs_view;
  w_discs : nat -> string -> option (list Disc);  (* discs in a folder *)
  w_ids : nat -> hooks;                       (* the system calls of a file comparison *)
}.

(** What one verification reads. *)
Record observation := {
  ob_now : time;
  ob_fs : fs_view;
  ob_discs : string -> option (list Disc);
  ob_own_bin : option string;
  ob_arr_client : Z -> bool;
  ob_arr_bin : Z -> option string;
}.
Definition observe (W : World) (n : nat) : observation := {|
  ob_now := w_now n; ob_fs := w_fs n; ob_discs := w_discs n; ob_own_bin := w_own_bin n; ob_arr_client := w_arr_client;
  ob_arr_bin := w_arr_bin n |}.

(** Other transactions are transactions. *)
Definition env_ok `{Unicode} (W : World) : Prop := forall n s, rtc sstep s (w_env n s).

(** ** Runs *)

Record Summary := {
  sm_processed : Z;
  sm_succeeded : Z;
  sm_dry_run : Z;
  sm_skipped : Z;
  sm_failed : Z;
  sm_deferred : Z;
  sm_bytes_freed : Z;
  sm_aborted : bool;
}.
Definition empty_summary : Summary := {|
  sm_processed := 0; sm_succeeded := 0; sm_dry_run := 0; sm_skipped := 0; sm_failed := 0; sm_deferred := 0;
  sm_bytes_freed := 0; sm_aborted := false |}.

(** Why no new removal may start. *)
Inductive stop := CountNotSet | BytesNotSet | LimitNotSet | CountReached | BytesReached | SettingsUnreadable.
Inductive abort := TooManyFailures | PerformAborted.

Record run_state := {
  rn_dry_run : bool;                          (* r.st.DryRun *)
  rn_kept : gset string;                      (* keptInRun *)
  rn_attempts : Z;
  rn_bytes : Z;
  rn_consecutive : Z;
  rn_stopped : option stop;
  rn_aborted : option abort;
  rn_sum : Summary;
}.
Definition new_run (dry : bool) (stopped : option stop) : run_state := {|
  rn_dry_run := dry; rn_kept := ∅; rn_attempts := 0; rn_bytes := 0; rn_consecutive := 0; rn_stopped := stopped;
  rn_aborted := None; rn_sum := empty_summary |}.

(** ** The monad *)

Section monad.
Context {E : Type}.

Record xstate := {
  xs_store : store;
  xs_clock : nat;
  xs_run : run_state;
  xs_ids : Prober;                            (* r.ids *)
  xs_trace : list E;                          (* newest first *)
}.
Definition M (A : Type) : Type := xstate -> A * xstate.

Definition xret {A} (x : A) : M A := fun s => (x, s).
Definition xbind {A B} (m : M A) (k : A -> M B) : M B := fun s => let '(x, s') := m s in k x s'.
Definition when (b : bool) (m : M unit) : M unit := if b then m else xret tt.

Definition set_store (st : store) (s : xstate) : xstate :=
  {| xs_store := st; xs_clock := xs_clock s; xs_run := xs_run s; xs_ids := xs_ids s; xs_trace := xs_trace s |}.
Definition tick (s : xstate) : xstate :=
  {| xs_store := xs_store s; xs_clock := S (xs_clock s); xs_run := xs_run s; xs_ids := xs_ids s; xs_trace := xs_trace s |}.

Definition get_run : M run_state := fun s => (xs_run s, s).
Definition modify_run (f : run_state -> run_state) : M unit := fun s =>
  (tt, {| xs_store := xs_store s; xs_clock := xs_clock s; xs_run := f (xs_run s); xs_ids := xs_ids s;
        xs_trace := xs_trace s |}).
Definition emit (e : E) : M unit := fun s =>
  (tt, {| xs_store := xs_store s; xs_clock := xs_clock s; xs_run := xs_run s; xs_ids := xs_ids s;
        xs_trace := e :: xs_trace s |}).
(** A run starts with its counters and, [FileIdentity] being unset, a prober of its own. *)
Definition start_run (r : run_state) : M unit := fun s =>
  (tt, {| xs_store := xs_store s; xs_clock := xs_clock s; xs_run := r; xs_ids := Default; xs_trace := xs_trace s |}).

(** One question to the surroundings. *)
Definition ask {A} (f : nat -> A) : M A := fun s => (f (xs_clock s), tick s).

(** For the trace: when something happens. *)
Definition get_clock : M nat := fun s => (xs_clock s, s).

(** [r.fileIDs().Compare(a, b)]. *)
Definition compare_files `{World} (a b : string) : M Verdict := fun s =>
  let '(v, ids) := CompareFiles (w_ids (xs_clock s)) a b (xs_ids s) in
  (v, {| xs_store := xs_store s; xs_clock := S (xs_clock s); xs_run := xs_run s; xs_ids := ids; xs_trace := xs_trace s |}).

(** One database call: other transactions come first; a failed call changes
    nothing and answers [None]. *)
Definition db `{World} {A} (f : store -> store * A) : M (option A) := fun s =>
  let st := w_env (xs_clock s) (xs_store s) in
  if w_db_fails (xs_clock s) then (None, tick (set_store st s))
  else let '(st', x) := f st in (Some x, tick (set_store st' s)).
(** A call that may be refused: a refusal changes nothing either. *)
Definition db_try `{World} {A} (f : store -> store_error + (store * A)) : M (option (store_error + A)) :=
  db (fun st => match f st with inl e => (st, inl e) | inr (st', x) => (st', inr x) end).
Definition db_read `{World} {A} (f : store -> A) : M (option A) := db (fun st => (st, f st)).

Definition for_each {A} (f : A -> M unit) : list A -> M unit :=
  fix go l := match l with [] => xret tt | x :: l' => xbind (f x) (fun _ => go l') end.
End monad.
Arguments xstate E : clear implicits.
Arguments M E A : clear implicits.

Notation "'let!' x := m 'in' k" := (xbind m (fun x => k)) (at level 200, x pattern, m at level 100, k at level 200) : dup_scope.
Notation "m ;; k" := (xbind m (fun _ => k)) (at level 100, right associativity) : dup_scope.
