(* ===== verification/ExecApprove.v ===== *)
(** * Approving and cancelling removals

    internal/executor/executor.go (ApproveReviewed, CancelGroup and their helpers)
    and recover.go (recoverInterrupted). Each database call may be preceded by the
    transactions of scans and users, and may fail. History, events and log lines
    are left out; a re-scan the code asks for is not modelled. *)

From S2P Require Import Prelude GoStd Models DiscPaths Paths Validate ExecGuards Store Pathmap ExecModel ExecWorld.
Local Open Scope string_scope.
Local Open Scope Z_scope.

#[export] Instance status_item_eq_dec : EqDecision status_item.
Proof. solve_decision. Defined.

Inductive approve_error :=
  | NotApprovable (r : reason)
  | InvalidDecisions (text : string)
  | NothingToRemove
  | GroupNotFound
  | ActionRefused (e : store_error)
  | DatabaseError.

(** ** What an approval depends on *)

(** [sameArr]. *)
Definition sameArr (a b : option ArrFileInfo) : bool :=
  match a, b with
  | None, None => true
  | Some a, Some b =>
    (af_instance_id a =? af_instance_id b) && (af_file_id a =? af_file_id b) && (af_item_id a =? af_item_id b) &&
    bool_decide (af_episode_ids a = af_episode_ids b) && bool_decide (af_tags a = af_tags b)
  | _, _ => false
  end.

Definition same_approval_file (x y : GroupFile) : bool :=
  String.eqb (gf_decision x) (gf_decision y) && Bool.eqb (gf_protected x) (gf_protected y) &&
  samePathList (partPaths (gf_version x)) (partPaths (gf_version y)) &&
  (TotalSize (gf_version x) =? TotalSize (gf_version y)) && sameArr (mv_arr (gf_version x)) (mv_arr (gf_version y)).

(** [sameApprovalState]; of files with one key the map keeps the last. *)
Definition sameApprovalState (a b : xgroup) : bool :=
  let ga := xg_group a in
  let gb := xg_group b in
  let fa := map snd (xg_files a) in
  let fb := map snd (xg_files b) in
  String.eqb (dg_signature ga) (dg_signature gb) && Nat.eqb (length fa) (length fb) &&
  bool_decide (sort_strings (dedup (dg_flags ga)) = sort_strings (dedup (dg_flags gb))) &&
  forallb (fun x => match find (fun y => String.eqb (file_key y) (file_key x)) (rev fb) with
                    | Some y => same_approval_file x y
                    | None => false
                    end) fa.

(** [checkApprovable]. *)
Definition checkApprovable (g : xgroup) (stable_count : Z) (manual : bool) (st : Settings) : option reason :=
  let status := dg_status (xg_group g) in
  let automatic :=
    if manual then None
    else if negb (String.eqb (st_mode st) ModeAuto) then Some NeedsAutoMode
    else if stable_count <? Z.max 1 (st_stable_scans_required st) then Some NotStable
    else BlockingFlag <$> find BlocksAutoApproval (dg_flags (xg_group g)) in
  if String.eqb status GroupPending then automatic
  else if mem status [GroupReview; GroupDeferred; GroupFailed] then
    if manual then automatic else Some NeedsManualApproval
  else if String.eqb status GroupQueued then Some AlreadyQueued
  else if String.eqb status GroupResolved then Some AlreadyResolved
  else if String.eqb status GroupIgnored then Some IsIgnored
  else if String.eqb status GroupProtected then Some IsProtected
  else Some UnknownStatus.

(** The files an approval queues. *)
Definition approval_targets (g : xgroup) : list (Z * GroupFile) :=
  List.filter (fun idf => decided_remove (snd idf) && negb (gf_protected (snd idf)) &&
    negb (mv_optimized (gf_version (snd idf)))) (xg_files g).

(** The creation time of a batch: after every earlier removal of the group. *)
Definition millisecond : Z := 1000000.
Definition batch_stamp (now : time) (existing : list Action) : time :=
  foldl (fun stamp a => if time_after stamp (ac_created_at a) then stamp else ac_created_at a + millisecond) now existing.

Definition new_action (g : xgroup) (dry_run : bool) (stamp : time) (idf : Z * GroupFile) : Action := {|
  ac_id := 0; ac_group_id := xg_id g; ac_group_file_id := fst idf; ac_version_key := file_key (snd idf);
  ac_title := displayTitle (xg_group g); ac_paths := partPaths (gf_version (snd idf)); ac_size := TotalSize (gf_version (snd idf));
  ac_method := ""; ac_status := ActionPending; ac_dry_run := dry_run; ac_message := ""; ac_recycle_path := "";
  ac_permanent := false; ac_created_at := stamp; ac_started_at := None; ac_finished_at := None |}.

Section approve.
Context `{Unicode} {W : World} {E : Type}.
Notation M := (M E).

Definition get_group (id : Z) : M (option (option (xgroup * Z))) :=
  db_read (fun s => match sd_groups s !! id with
                    | Some r => Some (load_row id r, gm_stable_count (gr_meta r))
                    | None => None
                    end).

(** [groupChanged]; [None] is a database error. *)
Definition groupChanged (approved : xgroup) (with_status : bool) : M (option bool) :=
  let! now := get_group (xg_id approved) in
  xret (match now with
        | None => None
        | Some None => Some true
        | Some (Some (g, _)) => Some (
            with_status && (negb (String.eqb (dg_status (xg_group g)) (dg_status (xg_group approved))) ||
              negb (bool_decide (dg_status_reason (xg_group g) = dg_status_reason (xg_group approved)))) ||
            negb (sameApprovalState approved g))
        end).

(** [rollbackApproval]: a failure is only logged. *)
Definition rollbackApproval (gid : Z) : M unit :=
  let! now := ask w_now in
  let! _ := db (CancelPendingForGroup now gid) in xret tt.

Definition approval_text : list status_item := [SIText "Approved"].
Definition changed_text : list status_item :=
  [SIText "This duplicate changed while it was being approved (a scan stored new results); it is re-scanned — review it again"].

(** [revertApproval]. *)
Definition revertApproval (gid : Z) : M unit :=
  rollbackApproval gid ;;
  let! now := ask w_now in
  let! _ := db_try (UpdateStatusIf now gid [GroupQueued; GroupPending] GroupReview changed_text) in xret tt.

(** The removals of the batch, one transaction each. *)
Fixpoint create_batch (g : xgroup) (dry_run : bool) (stamp : time) (targets : list (Z * GroupFile)) :
    M (approve_error + list Action) :=
  match targets with
  | [] => xret (inr [])
  | t :: rest =>
    let! now := ask w_now in
    let! created := db_try (CreateAction now (new_action g dry_run stamp t)) in
    match created with
    | Some (inr a) =>
      let! more := create_batch g dry_run stamp rest in
      xret (match more with inr l => inr (a :: l) | inl e => inl e end)
    | refused =>
      rollbackApproval (xg_id g) ;;
      let! changed := groupChanged g true in
      xret (inl (match changed, refused with
                 | Some true, _ => NotApprovable ChangedWhileApproving
                 | _, Some (inl e) => ActionRefused e
                 | _, _ => DatabaseError
                 end))
    end
  end.

(** The checks that need no write, in the source's order. *)
Definition approval_checks (g : xgroup) (stable_count : Z) (manual : bool) (signature : string) (st : Settings)
    (mappings : option (list PathMapping)) : option approve_error :=
  if negb (String.eqb signature "") && negb (String.eqb signature (dg_signature (xg_group g)))
  then Some (NotApprovable ChangedSinceReview)
  else match checkApprovable g stable_count manual st with
  | Some r => Some (NotApprovable r)
  | None =>
    match ValidateDecisions (xg_group g) with
    | Some text => Some (InvalidDecisions text)
    | None =>
      match discRemovalProblem g st manual with
      | Some r => Some (NotApprovable r)
      | None =>
        let read_only :=
          if readOnlyGroup g then
            match mappings with
            | None => Some DatabaseError
            | Some ms => NotApprovable <$> readOnlyApprovalProblem g ms manual
            end
          else None in
        match read_only with
        | Some e => Some e
        | None => match approval_targets g with [] => Some NothingToRemove | _ => None end
        end
      end
    end
  end.

(** From the queued removals to the status: [created] counts once the group is
    still what was checked, before and after the write of its status. *)
Definition commit_approval (g : xgroup) (created : list Action) : M (approve_error + list Action) :=
  let! changed := groupChanged g true in
  match changed with
  | None => rollbackApproval (xg_id g) ;; xret (inl DatabaseError)
  | Some true => rollbackApproval (xg_id g) ;; xret (inl (NotApprovable ChangedWhileApproving))
  | Some false =>
    let! now := ask w_now in
    let! written := db_try (UpdateStatusIf now (xg_id g) [dg_status (xg_group g)] GroupQueued approval_text) in
    match written with
    | Some (inr true) =>
      let! changed := groupChanged g false in
      match changed with
      | Some false => xret (inr created)
      | Some true => revertApproval (xg_id g) ;; xret (inl (NotApprovable ChangedWhileApproving))
      | None => revertApproval (xg_id g) ;; xret (inl DatabaseError)
      end
    | Some (inr false) => rollbackApproval (xg_id g) ;; xret (inl (NotApprovable ChangedWhileApproving))
    | Some (inl e) => rollbackApproval (xg_id g) ;; xret (inl (ActionRefused e))
    | None => rollbackApproval (xg_id g) ;; xret (inl DatabaseError)
    end
  end.

(** Queueing the batch of a group whose checks passed. *)
Definition queue_batch (g : xgroup) (st : Settings) : M (approve_error + list Action) :=
  let! existing := db_read (ListByGroup (xg_id g)) in
  match existing with
  | None => xret (inl DatabaseError)
  | Some existing =>
    let! now := ask w_now in
    if existsb (fun a => String.eqb (ac_status a) ActionRunning) existing then xret (inl (NotApprovable RemovalRunning))
    else
      let stamp := batch_stamp now existing in
      let! cleared :=
        (if existsb (fun a => String.eqb (ac_status a) ActionPending) existing
         then let! now := ask w_now in db (CancelPendingForGroup now (xg_id g))
         else xret (Some 0)) in
      match cleared with
      | None => xret (inl DatabaseError)
      | Some _ =>
        let! created := create_batch g (st_dry_run st) stamp (approval_targets g) in
        match created with
        | inl e => xret (inl e)
        | inr created => commit_approval g created
        end
      end
  end.

(** [ApproveReviewed]. *)
Definition ApproveReviewed (gid : Z) (trigger signature : string) : M (approve_error + list Action) :=
  let! settings := ask w_settings in
  match settings with
  | None => xret (inl DatabaseError)
  | Some st =>
    let! got := get_group gid in
    match got with
    | None => xret (inl DatabaseError)
    | Some None => xret (inl GroupNotFound)
    | Some (Some (g, stable)) =>
      let! mappings := ask w_path_mappings in
      match approval_checks g stable (String.eqb trigger TriggerManual) (trim_space signature) st mappings with
      | Some e => xret (inl e)
      | None => queue_batch g st
      end
    end
  end.

(** ** CancelGroup *)

Definition cancelled_text : list status_item := [SIText "Queued removals were cancelled"].
Definition CancelGroup (gid : Z) : M (option approve_error) :=
  let! got := get_group gid in
  match got with
  | None => xret (Some DatabaseError)
  | Some None => xret (Some GroupNotFound)
  | Some (Some (g, _)) =>
    let! now := ask w_now in
    let! cancelled := db (CancelPendingForGroup now gid) in
    match cancelled with
    | None => xret (Some DatabaseError)
    | Some _ =>
      if mem (dg_status (xg_group g)) [GroupQueued; GroupFailed] then
        let! now := ask w_now in
        let! written := db_try (fun s => match UpdateStatus now gid GroupPending cancelled_text s with
                                         | inl e => inl e | inr s' => inr (s', tt) end) in
        xret (match written with Some (inr _) => None | Some (inl e) => Some (ActionRefused e) | None => Some DatabaseError end)
      else xret None
    end
  end.

(** ** RecoverInterrupted *)

Definition recoverFrom : list string :=
  [GroupPending; GroupReview; GroupDeferred; GroupProtected; GroupQueued; GroupResolved; GroupFailed].
Definition interruptedMessage := "Interrupted by a restart while running — verify the files, then re-approve".
Definition interrupted_text : list status_item := [SIText interruptedMessage].
Definition not_attempted_message := "Not attempted: another removal of this group was interrupted by a restart".

(** An action given a final status, in memory. *)
Definition finished (status message : string) (now : time) (a : Action) : Action := finish_action status message now a.

(** [cancelActions]: those still pending in memory; a refusal is only logged. *)
Definition cancelQueued (message : string) (actions : list Action) : M unit :=
  for_each (fun a =>
    if String.eqb (ac_status a) ActionPending then
      let! now := ask w_now in
      let! _ := db (UpdateAction now (finished ActionCancelled message now a)) in xret tt
    else xret tt) actions.

(** Marks the running removals failed; answers the groups of those that were. *)
Fixpoint fail_running (running : list Action) : M (list Z * Z) :=
  match running with
  | [] => xret ([], 0)
  | a :: rest =>
    let! now := ask w_now in
    let! updated := db (UpdateAction now (finished ActionFailed interruptedMessage now a)) in
    let! more := fail_running rest in
    let '(groups, n) := more in
    xret (match updated with
          | Some Updated => (ac_group_id a :: groups, n + 1)
          | _ => (groups, n)
          end)
  end.

Definition fail_group (gid : Z) : M unit :=
  let! now := ask w_now in
  let! written := db_try (UpdateStatusIf now gid recoverFrom GroupFailed interrupted_text) in
  match written with
  | Some (inr true) =>
    let! acts := db_read (ListByGroup gid) in
    match acts with Some acts => cancelQueued not_attempted_message acts | None => xret tt end
  | _ => xret tt
  end.

(** [recoverInterrupted]: how many removals were recovered. *)
Definition recoverInterrupted : M (option Z) :=
  let! running := db_read (list_actions (fun a => String.eqb (ac_status a) ActionRunning)) in
  match running with
  | None => xret None
  | Some running =>
    let! failed := fail_running running in
    let '(groups, n) := failed in
    for_each fail_group (dedup groups) ;; xret (Some n)
  end.
End approve.
