(* ===== verification/ExecVerify.v ===== *)
(** * Re-verifying a group right before acting

    internal/executor/verify.go, and the parts of disc.go and guards.go it uses. A
    [verification] compares every version to remove and every kept version with the
    items just fetched and with the disk as it is now. Times of the minimum age are
    nanoseconds. Problems are named, their text is left out. *)

From S2P Require Import Prelude GoStd Models DiscPaths Paths Ranking Pathmap Store ExecModel ExecWorld.
Local Open Scope string_scope.
Local Open Scope Z_scope.

(** [target]: a queued removal and the group file it removes. *)
Record target := { tg_action : Action; tg_id : Z; tg_file : GroupFile }.
Definition tg_version (t : target) : MediaVersion := gf_version (tg_file t).

Record verifiedPart := { vp_path : string; vp_size : Z; vp_local : string; vp_fi : option FileInfo }.
Record verifiedVersion := {
  vv_id : Z;
  vv_file : GroupFile;
  vv_fresh : option MediaVersion;
  vv_parts : list verifiedPart;
  vv_disc : option Disc;
}.
Definition vv_version (v : verifiedVersion) : MediaVersion := gf_version (vv_file v).

(** The freshly fetched items; [None]: the item is gone. *)
Definition items := list ((Z * string) * option MediaItem).
Definition find_item (fresh : items) (sid : Z) (rk : string) : option (option MediaItem) :=
  snd <$> find (fun kv => (fst (fst kv) =? sid) && String.eqb (snd (fst kv)) rk) fresh.

Inductive verify_problem :=
  | NotRechecked | ItemGone | VersionIdUnknown | NoFiles | NoLongerListed | NowOptimized | NowReportOnly
  | PartCountChanged | FileChanged (path : string) | SizeChanged (path : string) | ReportedMissing (path : string)
  | NotAccessible (path : string) | CannotReadOnDisk (path : string) | NotRegular (path : string)
  | SizeOnDiskDiffers (path : string) | NotMapped (path : string) | NotConfirmed (path : string)
  | InRecycleBin
  | DiscUnreachable | DiscNotAbsolute | DiscUnreadable | DiscGone | DiscEntriesChanged | DiscSetChanged
  | DiscContentChanged | DiscFingerprintChanged | DiscNoLongerRemovable.

Inductive group_problem :=
  | StaleLoser (key : string) (p : verify_problem)
  | UsedByOtherMedia (path : string)
  | UsedByOtherMediaInDisc (path : string)
  | SameFileAsKept (loser kept : string)
  | KeptInsideDisc (loser kept : string)
  | SameArrFile (loser : string)
  | NoKeeperVerified
  | NoPartitionKeeper (loser : string)
  | PartitionNotKept (loser : string)
  | NoPlayableKeeper (loser : string).

Record verification := {
  vr_keepers : list verifiedVersion;
  vr_losers : list (Z * verifiedVersion);      (* by action id *)
  vr_items : items;
  vr_removing : list (Z * string);             (* server and version id *)
  vr_problem : option group_problem;
  vr_wait : bool;
}.
Definition loser_of (vr : verification) (t : target) : option verifiedVersion :=
  snd <$> find (fun kv => fst kv =? ac_id (tg_action t)) (vr_losers vr).

(** ** Discs on disk *)

Definition sameCleanPaths (a b : list string) : bool :=
  bool_decide (sort_strings (map path_clean a) = sort_strings (map path_clean b)).

(** [discDetectFolder]. *)
Definition discDetectFolder (d : DiscInfo) : string :=
  let root := path_clean (di_local_root d) in
  if IsImage (Some d) || (1 <? length (di_local_roots d))%nat then path_dir root
  else if existsb (fun e => String.eqb (path_clean e) root) (di_owned_entries d) then path_dir root
  else root.

(** [verifyDisc], given the discs found in the folder. *)
Definition verifyDisc (discs : string -> option (list Disc)) (v : MediaVersion) (keeper : bool) : verify_problem + Disc :=
  match mv_disc v with
  | None => inl DiscUnreachable
  | Some info =>
    if blank (di_local_root info) then inl DiscUnreachable
    else if negb (has_prefix (di_local_root info) "/") then inl DiscNotAbsolute
    else match discs (discDetectFolder info) with
    | None => inl DiscUnreadable
    | Some found =>
      match find (fun d => String.eqb (path_clean (dc_root d)) (path_clean (di_local_root info))) found with
      | None => inl DiscGone
      | Some d =>
        if negb (dc_inspected d) then inl DiscUnreadable
        else if negb (sameCleanPaths (dc_owned_entries d) (di_owned_entries info)) then inl DiscEntriesChanged
        else if (0 <? length (di_local_roots info))%nat && negb (sameCleanPaths (dc_roots d) (di_local_roots info))
        then inl DiscSetChanged
        else if negb (dc_file_count d =? di_file_count info) || negb (dc_total_size d =? di_total_bytes info)
        then inl DiscContentChanged
        else if negb (String.eqb (di_fingerprint info) "") && negb (String.eqb (dc_fingerprint d) (di_fingerprint info))
        then inl DiscFingerprintChanged
        else if negb keeper && negb (dc_removable d) then inl DiscNoLongerRemovable
        else inr d
      end
    end
  end.

Section fs.
Context (fs : fs_view).

(** [resolvedEntry]. *)
Definition resolvedEntry (e : string) : option string :=
  let e := path_clean e in
  (fun parent => path_clean (parent +:+ "/" +:+ path_base e)) <$> fv_resolve_existing fs (path_dir e).

Definition overlaps (l : string) (entries : list string) : bool :=
  existsb (fun e => String.eqb l e || isWithin l e || isWithin e l) entries.

(** [Disc.Owns]. *)
Definition Owns (owned : list string) (p : string) : bool :=
  let p := path_clean p in
  existsb (fun e => String.eqb p (path_clean e) || has_prefix p (path_clean e +:+ "/")) owned.

(** [discHolds]: one of the local paths is, holds or lies in an owned entry, or
    cannot be proven not to. *)
Definition discHolds (owned : list string) (locals : list string) : bool :=
  match locals with
  | [] => false
  | _ =>
    let resolved := map resolvedEntry owned in
    existsb (fun r => match r with None => true | Some _ => false end) resolved ||
    existsb (fun l =>
      let l := path_clean l in
      has_prefix l "/" &&
      (Owns owned l || overlaps l (map path_clean owned) ||
       match fv_resolve_existing fs l with
       | None => true
       | Some res => overlaps res (omap id resolved)
       end)) locals
  end.
End fs.

Section verify.
Context `{Unicode} (cf : config) (ob : observation).
Let m := cf_mapper cf.
Let st := cf_settings cf.

(** ** One version *)

(** The checks on one part; [inr]: its verified form. *)
Definition check_part (kind : string) (sid : Z) (keeper : bool) (sp fp : MediaPart) : verify_problem + verifiedPart :=
  let path := mp_path fp in
  if negb (String.eqb (Normalize (mp_path sp)) (Normalize path)) then inl (FileChanged path)
  else if negb (mp_size sp =? mp_size fp) then inl (SizeChanged path)
  else if bool_decide (mp_exists fp = Some false) then inl (ReportedMissing path)
  else if keeper && bool_decide (mp_accessible fp = Some false) then inl (NotAccessible path)
  else match ToLocal m PathSourceServer sid path with
  | Some local =>
    match fv_stat (ob_fs ob) local with
    | None => inl (CannotReadOnDisk local)
    | Some fi =>
      if negb (fi_regular fi) then inl (NotRegular local)
      else if negb (fi_size fi =? mp_size fp) then inl (SizeOnDiskDiffers local)
      else inr {| vp_path := path; vp_size := mp_size fp; vp_local := local; vp_fi := Some fi |}
    end
  | None =>
    if ReadOnly kind then inl (NotMapped path)
    else if keeper && bool_decide (mp_exists fp = None) then inl (NotConfirmed path)
    else inr {| vp_path := path; vp_size := mp_size fp; vp_local := ""; vp_fi := None |}
  end.

Fixpoint check_parts (kind : string) (sid : Z) (keeper : bool) (pairs : list (MediaPart * MediaPart)) :
    verify_problem + list verifiedPart :=
  match pairs with
  | [] => inr []
  | (sp, fp) :: rest =>
    match check_part kind sid keeper sp fp with
    | inl p => inl p
    | inr vp => match check_parts kind sid keeper rest with inl p => inl p | inr vps => inr (vp :: vps) end
    end
  end.

(** [checkPlexVersion]. *)
Definition checkPlexVersion (g : xgroup) (idf : Z * GroupFile) (fresh : items) (keeper : bool) :
    verify_problem + verifiedVersion :=
  let stored := gf_version (snd idf) in
  let sid := serverOf g stored in
  let kind := ms_kind (cf_server cf sid) in
  match find_item fresh sid (trim_space (mv_rating_key stored)) with
  | None => inl NotRechecked
  | Some None => inl ItemGone
  | Some (Some item) =>
    if String.eqb (ServerVersionID stored) "" then inl VersionIdUnknown
    else if Nat.eqb (length (mv_parts stored)) 0 then inl NoFiles
    else match find (fun v => String.eqb (ServerVersionID v) (ServerVersionID stored)) (it_versions item) with
    | None => inl NoLongerListed
    | Some fv =>
      if isOptimized fv then inl NowOptimized
      else if negb (Nat.eqb (length (mv_report_only fv)) 0) then inl NowReportOnly
      else if negb (Nat.eqb (length (mv_parts fv)) (length (mv_parts stored))) then inl PartCountChanged
      else match check_parts kind sid keeper (combine (mv_parts stored) (mv_parts fv)) with
      | inl p => inl p
      | inr parts => inr {| vv_id := fst idf; vv_file := snd idf; vv_fresh := Some fv; vv_parts := parts; vv_disc := None |}
      end
    end
  end.

(** [checkDiscVersion]. *)
Definition disc_parts (v : MediaVersion) (sid : Z) (d : Disc) : list verifiedPart :=
  imap (fun i p => {|
    vp_path := mp_path p; vp_size := mp_size p;
    vp_local := if IsLooseClips (mv_disc v) then default "" (ToLocal m PathSourceServer sid (mp_path p))
                else default "" (dc_roots d !! i);
    vp_fi := None |}) (mv_parts v).
Definition checkDiscVersion (g : xgroup) (idf : Z * GroupFile) (fresh : items) (keeper : bool) :
    verify_problem + verifiedVersion :=
  let stored := gf_version (snd idf) in
  let sid := serverOf g stored in
  match find_item fresh sid (trim_space (mv_rating_key stored)) with
  | Some None => inl ItemGone
  | _ =>
    match verifyDisc (ob_discs ob) stored keeper with
    | inl p => inl p
    | inr d => inr {| vv_id := fst idf; vv_file := snd idf; vv_fresh := None; vv_parts := disc_parts stored sid d; vv_disc := Some d |}
    end
  end.

(** [checkVersion]. *)
Definition DiscKeyPrefix := "disc:".
Definition checkVersion (g : xgroup) (idf : Z * GroupFile) (fresh : items) (keeper : bool) :
    verify_problem + verifiedVersion :=
  let stored := gf_version (snd idf) in
  if IsDisc stored && ((mv_media_id stored <=? 0) || has_prefix (mv_key stored) DiscKeyPrefix)
  then checkDiscVersion g idf fresh keeper
  else match checkPlexVersion g idf fresh keeper with
  | inl p => inl p
  | inr vv =>
    match mv_disc stored with
    | None => inr vv
    | Some d =>
      if keeper && blank (di_local_root d) then inr vv
      else match verifyDisc (ob_discs ob) stored keeper with
      | inl p => inl p
      | inr fresh_disc => inr {| vv_id := vv_id vv; vv_file := vv_file vv; vv_fresh := vv_fresh vv; vv_parts := vv_parts vv;
                                 vv_disc := Some fresh_disc |}
      end
    end
  end.

(** ** Shared files *)

(** [sameResolved]. *)
Definition sameResolved (a b : string) : bool :=
  match fv_resolve (ob_fs ob) a, fv_resolve (ob_fs ob) b with Some x, Some y => String.eqb x y | _, _ => false end.

(** [sharesFile]. *)
Definition sharesFile (lv : verifiedVersion) (kf : GroupFile) (kv : option verifiedVersion) : bool :=
  let keep_paths := (map (fun p => Normalize (mp_path p)) (mv_parts (gf_version kf)) ++
    match kv with Some k => map (fun p => Normalize (vp_path p)) (vv_parts k) | None => [] end)%list in
  existsb (fun p => mem (Normalize (mp_path p)) keep_paths) (mv_parts (vv_version lv)) ||
  existsb (fun lp => mem (Normalize (vp_path lp)) keep_paths ||
    match kv, vp_fi lp with
    | Some k, Some lfi => existsb (fun kp =>
        match vp_fi kp with
        | Some kfi => SameFile lfi kfi || sameResolved (vp_local lp) (vp_local kp)
        | None => false
        end) (vv_parts k)
    | _, _ => false
    end) (vv_parts lv).

(** [targetMedia]. *)
Definition targetMedia (g : xgroup) (targets : list target) : list (Z * string) :=
  flat_map (fun t =>
    let v := tg_version t in
    let sid := serverOf g v in
    ((if String.eqb (ServerVersionID v) "" then [] else [(sid, ServerVersionID v)]) ++
     match mv_disc v with
     | Some d => if IsLooseClips (Some d)
                 then map (fun id => (sid, format_int id)) (List.filter (fun id => 0 <? id) (di_plex_media_ids d)) else []
     | None => []
     end)%list) targets.

(** The media listed with the group's items that are not removed in this run. *)
Definition item_ref_before (a b : (Z * string) * option MediaItem) : bool :=
  (fst (fst a) <? fst (fst b)) || ((fst (fst a) =? fst (fst b)) && str_lt (snd (fst a)) (snd (fst b))).
Definition other_media (queued : list (Z * string)) (fresh : items) : list (Z * MediaVersion) :=
  flat_map (fun kv =>
    match snd kv with
    | Some it => map (fun v => (fst (fst kv), v))
        (List.filter (fun v => negb (mem (fst (fst kv), ServerVersionID v) queued)) (it_versions it))
    | None => []
    end) (stable_sort item_ref_before fresh).

(** [sharedWithOtherMedia]. *)
Definition sharedWithOtherMedia (g : xgroup) (targets : list target) (fresh : items)
    (losers : list (Z * verifiedVersion)) : option group_problem :=
  let loser_paths := flat_map (fun kv => map vp_path (vv_parts (snd kv))) losers in
  head (flat_map (fun other : Z * MediaVersion =>
    let paths := map (fun p => Normalize (mp_path p)) (mv_parts (snd other)) in
    omap (fun p => if mem (Normalize p) paths then Some (UsedByOtherMedia p) else None) loser_paths)
    (other_media (targetMedia g targets) fresh)).

(** [discSharedWithOtherMedia]: a queued medium is known by a non-empty id. *)
Definition discSharedWithOtherMedia (g : xgroup) (targets : list target) (fresh : items)
    (losers : list (Z * verifiedVersion)) : option group_problem :=
  head (flat_map (fun kv =>
    match vv_disc (snd kv) with
    | None => []
    | Some d => flat_map (fun other : Z * MediaVersion =>
        omap (fun p => match ToLocal m PathSourceServer (fst other) (mp_path p) with
                       | Some local => if discHolds (ob_fs ob) (dc_owned_entries d) [local]
                                       then Some (UsedByOtherMediaInDisc (mp_path p)) else None
                       | None => None
                       end) (mv_parts (snd other)))
        (other_media (targetMedia g targets) fresh)
    end) losers).

(** [discKeeperInside]. *)
Definition discKeeperInside (d : Disc) (kf : GroupFile) (kv : option verifiedVersion) : bool :=
  let v := gf_version kf in
  let locals := (flat_map (fun p =>
      (if String.eqb (mp_local_path p) "" then [] else [mp_local_path p]) ++
      match ToLocal m PathSourceServer (mv_server_id v) (mp_path p) with Some l => [l] | None => [] end) (mv_parts v) ++
    match kv with
    | Some k => List.filter (fun l => negb (String.eqb l "")) (map vp_local (vv_parts k))
    | None => []
    end)%list in
  discHolds (ob_fs ob) (dc_owned_entries d) locals.

(** [recycledKeeper]: the verified copy lies in a recycle bin. *)
Definition in_own_bin (p : verifiedPart) : bool :=
  if blank (st_recycle_bin_path st) then false else
  match ob_own_bin ob with
  | None => false
  | Some own =>
    let res := default (path_clean (vp_local p)) (fv_resolve (ob_fs ob) (vp_local p)) in
    negb (String.eqb own "") && negb (String.eqb (vp_local p) "") && (String.eqb res own || isWithin res own)
  end.
Definition in_arr_bin (kind : string) (p : verifiedPart) (id : Z) (inst : ArrInstance) : bool :=
  ai_enabled inst && String.eqb (ai_kind inst) kind && ob_arr_client ob id &&
  match ob_arr_bin ob id with
  | None => false
  | Some bin =>
    negb (String.eqb bin "") &&
    ((negb (String.eqb (pathKey bin) "") && withinSlash (pathKey (vp_path p)) (pathKey bin)) ||
     (negb (String.eqb (vp_local p) "") &&
      match ToLocal m PathSourceArr id bin with
      | Some lb => has_prefix lb "/" && isWithin (path_clean (vp_local p)) (path_clean lb)
      | None => false
      end))
  end.
Definition recycledKeeper (vv : verifiedVersion) (media_type : string) : bool :=
  let kind := if String.eqb media_type MediaTypeEpisode then ArrSonarr else ArrRadarr in
  existsb (fun p => in_own_bin p || existsb (fun kv => in_arr_bin kind p (fst kv) (snd kv)) (map_to_list (cf_arrs cf)))
    (vv_parts vv).

(** ** Keepers *)

(** The kept files of the group, optimized versions apart. *)
Definition keep_files (g : xgroup) : list (Z * GroupFile) :=
  List.filter (fun idf => decided_keep (snd idf) && negb (isOptimized (gf_version (snd idf)))) (xg_files g).

Definition check_keeper (g : xgroup) (fresh : items) (idf : Z * GroupFile) : verify_problem + verifiedVersion :=
  match checkVersion g idf fresh true with
  | inl p => inl p
  | inr vv => if recycledKeeper vv (dg_media_type (xg_group g)) then inl InRecycleBin else inr vv
  end.
Definition verified_keepers (g : xgroup) (fresh : items) : list verifiedVersion :=
  omap (fun idf => match check_keeper g fresh idf with inr vv => Some vv | inl _ => None end) (keep_files g).
Definition keeper_of (keepers : list verifiedVersion) (idf : Z * GroupFile) : option verifiedVersion :=
  find (fun k => vv_id k =? fst idf) keepers.

(** Invariant 2 of one removal against one kept file. *)
Definition pair_problem (t : target) (lv : verifiedVersion) (keepers : list verifiedVersion) (kf : Z * GroupFile) :
    option group_problem :=
  let kv := keeper_of keepers kf in
  if sharesFile lv (snd kf) kv then Some (SameFileAsKept (file_key (tg_file t)) (file_key (snd kf)))
  else match vv_disc lv with
  | Some d => if discKeeperInside d (snd kf) kv then Some (KeptInsideDisc (file_key (tg_file t)) (file_key (snd kf))) else None
  | None => None
  end.
Definition same_arr_file (t : target) (kf : Z * GroupFile) : bool :=
  match mv_arr (tg_version t), mv_arr (gf_version (snd kf)) with
  | Some a, Some k => (af_instance_id k =? af_instance_id a) && (af_file_id k =? af_file_id a)
  | _, _ => false
  end.
Definition loser_problem (t : target) (lv : verifiedVersion) (keepers : list verifiedVersion)
    (kfs : list (Z * GroupFile)) : option group_problem :=
  match head (omap (pair_problem t lv keepers) kfs) with
  | Some p => Some p
  | None => if existsb (same_arr_file t) kfs then Some (SameArrFile (file_key (tg_file t))) else None
  end.

(** [partitionKeeperProblem] for one removal whose partition has no verified keeper. *)
Definition partition_problem (g : xgroup) (prof : Profile) (t : target) : option group_problem :=
  let key := KeepPartition (pf_keep_per prof) (tg_version t) in
  let here := List.filter (fun idf => String.eqb (KeepPartition (pf_keep_per prof) (gf_version (snd idf))) key) (xg_files g) in
  if existsb (fun idf => decided_keep (snd idf) && negb (isOptimized (gf_version (snd idf)))) here
  then Some (NoPartitionKeeper (file_key (tg_file t)))
  else if negb (existsb (fun idf => decided_remove (snd idf) && String.eqb (gf_engine_decision (snd idf)) DecisionKeep &&
      String.eqb (to_lower (trim_space (gf_override (snd idf)))) DecisionRemove) here)
  then Some (PartitionNotKept (file_key (tg_file t))) else None.
Definition partitionKeeperProblem (g : xgroup) (targets : list target) (keepers : list verifiedVersion) : option group_problem :=
  let prof := profileFor cf g in
  let part v := KeepPartition (pf_keep_per prof) v in
  let verified := map (fun k => part (vv_version k)) keepers in
  if existsb (fun t => String.eqb (part (tg_version t)) "") (firstn 1 targets) then None
  else head (omap (fun t => if mem (part (tg_version t)) verified then None else partition_problem g prof t) targets).

(** [playable] and [playableKeeperProblem]. *)
Definition playable (v : MediaVersion) : bool := plexPlayable v && bool_decide (discMember m v = None).
Definition playableKeeperProblem (g : xgroup) (targets : list target) (keepers : list verifiedVersion) : option group_problem :=
  let prof := profileFor cf g in
  let part v := KeepPartition (pf_keep_per prof) v in
  if negb (st_keep_playable_copy st) || forallb playable (versions_of g) then None else
  let covered := map part (List.filter (fun v => playable v && negb (isOptimized v)) (map vv_version keepers)) in
  head (omap (fun t => if playable (tg_version t) && negb (mem (part (tg_version t)) covered)
                       then Some (NoPlayableKeeper (file_key (tg_file t))) else None) targets).

(** [newestAdded], and the minimum age of one removal. *)
Definition newestAdded (stored : MediaVersion) (fresh : option MediaVersion) : time :=
  let t := mv_added_at stored in
  let t := match fresh with Some f => if time_after (mv_added_at f) t then mv_added_at f else t | None => t end in
  match mv_arr stored with Some a => if time_after (af_date_added a) t then af_date_added a else t | None => t end.
Definition hour : Z := 3600000000000.
Definition too_young (min_age : Z) (t : target) (lv : verifiedVersion) : bool :=
  let added := newestAdded (tg_version t) (vv_fresh lv) in
  let added := match vv_disc lv with
               | Some d => if time_after (dc_newest_mod_time d) added then dc_newest_mod_time d else added
               | None => added
               end in
  is_zero added || (time_sub (ob_now ob) added <? min_age).

(** ** verify *)

Fixpoint check_losers (g : xgroup) (fresh : items) (targets : list target) : group_problem + list (Z * verifiedVersion) :=
  match targets with
  | [] => inr []
  | t :: rest =>
    match checkVersion g (tg_id t, tg_file t) fresh false with
    | inl p => inl (StaleLoser (file_key (tg_file t)) p)
    | inr vv => match check_losers g fresh rest with inl p => inl p | inr l => inr ((ac_id (tg_action t), vv) :: l) end
    end
  end.

Definition removing_of (g : xgroup) : list (Z * string) :=
  map (fun v => (serverOf g v, ServerVersionID v)) (map gf_version (List.filter decided_remove (map snd (xg_files g)))).

Definition first_of {A} (a : option A) (b : option A) : option A := match a with Some x => Some x | None => b end.

(** The problems of a group whose versions to remove are all still there. *)
Definition losers_problem (g : xgroup) (targets : list target) (fresh : items) (losers : list (Z * verifiedVersion))
    (keepers : list verifiedVersion) : option group_problem :=
  first_of (head (omap (fun tl => loser_problem (fst tl) (snd (snd tl)) keepers (keep_files g)) (combine targets losers)))
  (first_of (match keepers with [] => Some NoKeeperVerified | _ => None end)
  (first_of (partitionKeeperProblem g targets keepers)
    (playableKeeperProblem g targets keepers))).

Definition verify (g : xgroup) (targets : list target) (fresh : items) : verification :=
  let result losers keepers problem wait := {|
    vr_keepers := keepers; vr_losers := losers; vr_items := fresh; vr_removing := removing_of g; vr_problem := problem;
    vr_wait := wait |} in
  match check_losers g fresh targets with
  | inl p => result [] [] (Some p) false
  | inr losers =>
    match first_of (sharedWithOtherMedia g targets fresh losers) (discSharedWithOtherMedia g targets fresh losers) with
    | Some p => result losers [] (Some p) false
    | None =>
      let keepers := verified_keepers g fresh in
      match losers_problem g targets fresh losers keepers with
      | Some p => result losers keepers (Some p) false
      | None =>
        let min_age := wrap64 (st_min_age_hours st * hour) in
        result losers keepers None
          ((0 <? min_age) && existsb (fun tl => too_young min_age (fst tl) (snd (snd tl))) (combine targets losers))
      end
    end
  end.

(** [remainsInItem]: the item keeps another version afterwards. *)
Definition remainsInItem (vr : verification) (sid : Z) (v : MediaVersion) : bool :=
  match find_item (vr_items vr) sid (trim_space (mv_rating_key v)) with
  | Some (Some it) => existsb (fun o => negb (String.eqb (ServerVersionID o) (ServerVersionID v)) &&
      negb (String.eqb (ServerVersionID o) "") && negb (isOptimized o) && negb (mem (sid, ServerVersionID o) (vr_removing vr)))
      (it_versions it)
  | _ => false
  end.
End verify.
