(* ===== verification/ExecAssess.v ===== *)
(** * Assessing a group

    internal/executor/process.go: what processGroup decides before its first
    removal, with the guards of guards.go, readonly.go and crossserver.go that stop a
    group, and its live comparison with the other servers. Assessing a group only
    reads; what it concludes is a [verdict]. How a method is chosen, performed and
    followed up is the interface [Methods]. Texts of problems and the extra scans a
    problem asks for are left out. *)

From S2P Require Import Prelude GoStd Models DiscPaths Paths Validate ExecGuards Pathmap Store ExecModel FileId ExecWorld ExecApprove ExecVerify.
Local Open Scope string_scope.
Local Open Scope Z_scope.

(** ** Methods *)

Record methodChoice := {
  mc_method : string;
  mc_permanent : bool;
  mc_arr : option (Z * ArrFileInfo);      (* the *arr instance and what it tracks *)
  mc_freed : option Z;                    (* a disc: what moving it frees *)
}.
(** [performResult]. *)
Inductive performResult :=
  | PStale (no_rescan : bool)
  | PFailed (recycle_path : string) (abort_run : bool)
  | PDone (message : string) (recycle_paths : string).

Class Methods := {
  md_select : nat -> config -> xgroup -> target -> verification -> option methodChoice;
  md_perform : nat -> target -> methodChoice -> verification -> performResult;
  md_notes : nat -> Z -> list string;     (* notes added to a removal afterwards *)
}.

(** ** What stops a stored group *)

(** A queued removal with the file it names, if the group still has it. *)
Definition queued := (Action * option (Z * GroupFile))%type.
Definition queued_of (g : xgroup) (actions : list Action) : list queued := map (fun a => (a, findTargetFile g a)) actions.

Inductive target_problem :=
  | GoneFromGroup | NotMarkedForRemoval | FilesChanged | DiscSizeChanged | IsSharedFile | HasShortcut | IsOptimizedVersion
  | IsDiscMember.

Section run.
Context `{Unicode} `{Doublestar} `{RegexSyntax} {W : World} {D : Methods} {E : Type} (cf : config).
Notation M := (M E).
Let mapper := cf_mapper cf.

Definition targetProblem (q : queued) : option target_problem :=
  let '(a, file) := q in
  match file with
  | None => Some GoneFromGroup
  | Some (_, f) =>
    let v := gf_version f in
    if negb (decided_remove f) || gf_protected f then Some NotMarkedForRemoval
    else if negb (samePathList (ac_paths a) (partPaths v)) then Some FilesChanged
    else if IsDisc v && negb (ac_size a =? TotalSize v) then Some DiscSizeChanged
    else if isShared v then Some IsSharedFile
    else if hasShortcut v then Some HasShortcut
    else if isOptimized v then Some IsOptimizedVersion
    else if bool_decide (is_Some (discMember mapper v)) then Some IsDiscMember
    else None
  end.

(** [notAllowedNow]. *)
Definition file_not_allowed (prof : Profile) (q : queued) : bool :=
  match snd q with
  | None => false
  | Some (_, f) =>
    let v := gf_version f in
    match cf_libraries cf !! mv_library_id v with Some l => negb (sl_enabled l) | None => false end ||
    bool_decide (is_Some (ProtectionReason prof v (cf_library_names cf)))
  end.
Definition notAllowedNow (g : xgroup) (qs : list queued) : bool :=
  bool_decide (is_Some (ExclusionReason (cf_exclusions cf) (xg_group g))) ||
  bool_decide (is_Some (discRemovalProblem g (cf_settings cf) true)) ||
  existsb (file_not_allowed (profileFor cf g)) qs.

(** [crossServerRecordProblem]. *)
Definition server_covered (rec : CrossServerRecord) (sid : Z) : bool :=
  let srv := cf_server cf sid in
  match find (fun s => cs_server_id s =? sid) (cs_servers rec) with
  | None => false
  | Some s =>
    equal_fold (trim_space (cs_machine_identifier s)) (trim_space (ms_machine_identifier srv)) &&
    Bool.eqb (cs_separate s) (separateServer srv) && String.eqb (cs_mappings s) (Fingerprint mapper PathSourceServer sid)
  end.
Definition crossServerRecordProblem (g : xgroup) : bool :=
  if negb (multiServer cf) then false else
  match dg_cross_server (xg_group g) with
  | None => true
  | Some rec => negb (cs_complete rec) || negb (forallb (server_covered rec) (enabledServerIDs cf))
  end.

(** [ListByRatingKeys]. *)
Definition ListByRatingKeys (sid : Z) (rks : list string) (s : store) : list xgroup :=
  map (fun kv => load_row (fst kv) (snd kv))
    (stable_sort (fun a b => fst a <? fst b) (List.filter (fun kv =>
      (dg_server_id (gr_group (snd kv)) =? sid) &&
      existsb (fun idf => mem (mv_rating_key (gf_version (snd idf))) rks) (gr_files (snd kv))) (map_to_list (sd_groups s)))).
Definition live_group (o : xgroup) : bool :=
  negb (String.eqb (dg_status (xg_group o)) GroupResolved || String.eqb (dg_status (xg_group o)) GroupIgnored).
Definition keeps_key (keys : list string) (o : xgroup) : bool :=
  existsb (fun idf => mem (file_key (snd idf)) keys && negb (decided_remove (snd idf))) (xg_files o).

(** [crossKept]: [Some true] is a conflict, [None] a database error. *)
Fixpoint crossKept (listings : list OtherListing) : M (option bool) :=
  match listings with
  | [] => xret (Some false)
  | e :: rest =>
    let! r := get_run in
    if bool_decide (ol_version_key e ∈ rn_kept r) then xret (Some true)
    else if blank (ol_rating_key e) then crossKept rest
    else
      let! others := db_read (ListByRatingKeys (ol_server_id e) [trim_space (ol_rating_key e)]) in
      match others with
      | None => xret None
      | Some os => if existsb (fun o => live_group o && keeps_key [ol_version_key e] o) os then xret (Some true) else crossKept rest
      end
  end.

Fixpoint kept_by_groups (self : Z) (keys : list string) (by_server : list (Z * list string)) : M (option bool) :=
  match by_server with
  | [] => xret (Some false)
  | (sid, rks) :: rest =>
    let! others := db_read (ListByRatingKeys sid rks) in
    match others with
    | None => xret None
    | Some os =>
      if existsb (fun o => negb (xg_id o =? self) && live_group o && keeps_key keys o) os then xret (Some true)
      else kept_by_groups self keys rest
    end
  end.

(** The rating keys of the targets, per server. *)
Definition target_keys (g : xgroup) (ts : list target) : list (Z * list string) :=
  let pairs := omap (fun t => if blank (mv_rating_key (tg_version t)) then None
                              else Some (serverOf g (tg_version t), trim_space (mv_rating_key (tg_version t)))) ts in
  map (fun kv => (fst kv, dedup (map snd (snd kv)))) (sorted_groups Z.ltb fst pairs).

(** [keptElsewhere]. *)
Definition keptElsewhere (g : xgroup) (ts : list target) : M (option bool) :=
  let! cross := crossKept (flat_map (fun t => mv_other_servers (tg_version t)) ts) in
  match cross with
  | None => xret None
  | Some true => xret (Some true)
  | Some false =>
    let! r := get_run in
    if existsb (fun t => bool_decide (file_key (tg_file t) ∈ rn_kept r)) ts then xret (Some true)
    else kept_by_groups (xg_id g) (map (fun t => file_key (tg_file t)) ts) (target_keys g ts)
  end.

(** ** Servers *)

(** [serverClient]: there is one to ask. *)
Definition serverClient (sid : Z) : bool :=
  match cf_servers cf !! sid with Some s => ms_enabled s && w_client sid | None => false end.

Inductive check := Pass | Skip | Wait (failure playing : bool).

(** [serverIdentityProblem]. *)
Definition identity_check (sid : Z) (id : answer string) : check :=
  let want := trim_space (ms_machine_identifier (cf_server cf sid)) in
  if String.eqb want "" then Pass
  else match id with
  | Got got => if equal_fold (trim_space got) want then Pass else Skip
  | Failed | NotFound => Wait true false
  end.
Definition serverIdentityProblem (sid : Z) : M check :=
  if String.eqb (trim_space (ms_machine_identifier (cf_server cf sid))) "" then xret Pass
  else let! id := ask (fun n => w_identity n sid) in xret (identity_check sid id).

(** Checks in order, up to the first that does not pass. *)
Fixpoint all_checks {A} (f : A -> M check) (l : list A) : M check :=
  match l with
  | [] => xret Pass
  | x :: rest => let! c := f x in match c with Pass => all_checks f rest | _ => xret c end
  end.
Definition and_then (a b : M check) : M check := let! c := a in match c with Pass => b | _ => xret c end.

(** [readOnlyRunProblem]. *)
Definition read_only_here (g : xgroup) (v : MediaVersion) : bool :=
  ReadOnly (ms_kind (cf_server cf (serverOf g v))) || readOnlyVersion v.
Definition gate_check (sid : Z) : M check :=
  if blank (ms_machine_identifier (cf_server cf sid)) then xret Skip
  else if negb (serverClient sid) then xret (Wait true false)
  else let! gate := ask (fun n => w_gate n sid) in
    xret (match gate with
          | NotFound | Got None => Pass
          | Failed => Wait true false
          | Got (Some _) => Skip
          end).
Definition readOnlyRunProblem (g : xgroup) : M check :=
  let vs := List.filter (read_only_here g) (versions_of g) in
  if existsb (fun v => bool_decide (is_Some (unmappedPart mapper (serverOf g v) v))) vs then xret Skip
  else all_checks gate_check (stable_sort Z.ltb (dedup (map (serverOf g) vs))).

(** F10: a version is playing. *)
Definition sessions_check (g : xgroup) (sid : Z) : M check :=
  let! sessions := ask (fun n => w_sessions n sid) in
  xret (match sessions with
        | Got ids => if existsb (fun k => mem k ids) (playingKeys g sid) then Wait false true else Pass
        | Failed | NotFound => Wait true false
        end).

(** The fresh items; [None]: one could not be read. *)
Fixpoint fetch_items (refs : list (Z * string)) : M (option items) :=
  match refs with
  | [] => xret (Some [])
  | (sid, rk) :: rest =>
    let! a := ask (fun n => w_item n sid rk) in
    match a with
    | Failed => xret None
    | Got it => let! more := fetch_items rest in xret ((fun l => ((sid, rk), Some it) :: l) <$> more)
    | NotFound => let! more := fetch_items rest in xret ((fun l => ((sid, rk), None) :: l) <$> more)
    end
  end.

(** ** What an *arr tracks *)

(** [rawConfirmAllowed]. *)
Definition rawConfirmAllowed (inst sid : Z) : bool :=
  if negb (multiServer cf) then true else
  match cf_arrs cf !! inst, cf_servers cf !! sid with
  | Some i, Some s => ai_links_confirmed i && mem sid (ai_server_ids i) && negb (separateServer s)
  | _, _ => false
  end.

(** [arrFileProblem], given the *arr's answer. *)
Definition arr_file_check (ob : observation) (inst : Z) (info : ArrFileInfo) (v : MediaVersion) (lv : option verifiedVersion)
    (ref : answer TrackedFileRef) : check :=
  match ref with
  | NotFound => Skip
  | Failed => Wait true false
  | Got ref =>
    if (0 <? af_item_id info) && negb (tf_item_id ref =? af_item_id info) then Skip
    else if IsDiscPath (tf_path ref) then Skip
    else match mv_parts v with
    | [p] =>
      let '(server_path, size, local) := match lv with
        | Some l => match vv_parts l with
                    | [vp] => (vp_path vp, vp_size vp, vp_local vp)
                    | _ => (mp_path p, mp_size p, "")
                    end
        | None => (mp_path p, mp_size p, "")
        end in
      let arr_local := ToLocal mapper PathSourceArr (af_instance_id info) (tf_path ref) in
      let sid := mv_server_id v in
      let located :=
        if blank (tf_path ref) then false
        else match arr_local with
        | Some al =>
          if String.eqb local "" then
            negb (multiServer cf) && String.eqb (pathKey (tf_path ref)) (pathKey server_path)
          else String.eqb (pathKey al) (pathKey local) || sameResolved ob al local
        | None => rawConfirmAllowed (af_instance_id info) sid && String.eqb (pathKey (tf_path ref)) (pathKey server_path)
        end in
      if located && (tf_size ref =? size) then Pass else Skip
    | _ => Skip
    end
  end.
Definition arrFileProblem (t : target) (vr : verification) (choice : methodChoice) : M check :=
  match mc_arr choice with
  | None => xret Pass
  | Some (inst, info) =>
    let! ref := ask (fun n => w_arr_file n inst (af_file_id info)) in
    let! ob := ask (observe W) in
    xret (arr_file_check ob inst info (tg_version t) (loser_of vr t) ref)
  end.

(** [keptDiscArrProblem]. *)
Definition kept_disc_tracked (info : ArrFileInfo) (ref : TrackedFileRef) (d : DiscInfo) : bool :=
  if (0 <? af_item_id info) && negb (tf_item_id ref =? af_item_id info) then false
  else match ToLocal mapper PathSourceArr (af_instance_id info) (tf_path ref), di_owned_entries d with
  | Some local, (_ :: _) as owned =>
    existsb (fun e => String.eqb (path_clean local) (path_clean e) || isWithin (path_clean local) (path_clean e)) owned
  | _, _ =>
    existsb (fun root => negb (String.eqb (pathKey root) "") && withinSlash (pathKey (tf_path ref)) (pathKey root) &&
      IsDiscPath (tf_path ref)) (di_roots d ++ [di_root d])
  end.

(** [keeperArrProblem] for one kept version, given the *arr's answer. *)
Definition kept_file_tracked (ob : observation) (k : verifiedVersion) (info : ArrFileInfo) (ref : TrackedFileRef) : bool :=
  let v := vv_version k in
  let '(server_path, size, local) :=
    match vv_parts k, mv_parts v with
    | [vp], _ => (vp_path vp, vp_size vp, vp_local vp)
    | _, p :: _ => (mp_path p, TotalSize v, "")
    | _, [] => ("", TotalSize v, "")
    end in
  let same_path := String.eqb (pathKey (tf_path ref)) (pathKey server_path) in
  let same_local :=
    match ToLocal mapper PathSourceArr (af_instance_id info) (tf_path ref) with
    | Some al => negb (String.eqb local "") && (String.eqb (pathKey al) (pathKey local) || sameResolved ob al local)
    | None => false
    end in
  let same_name := negb (blank (tf_path ref)) &&
    equal_fold (path_base (Normalize (tf_path ref))) (path_base (Normalize server_path)) in
  negb ((0 <? af_item_id info) && negb (tf_item_id ref =? af_item_id info)) &&
  (same_path || same_local || same_name) && (tf_size ref =? size).
Definition keeper_arr_check (ob : observation) (k : verifiedVersion) (info : ArrFileInfo) (ref : answer TrackedFileRef) : check :=
  match ref with
  | NotFound => Skip
  | Failed => Wait true false
  | Got ref =>
    let tracked :=
      match mv_disc (vv_version k) with
      | Some d => if IsImage (Some d) then kept_file_tracked ob k info ref else kept_disc_tracked info ref d
      | None => kept_file_tracked ob k info ref
      end in
    if tracked then Pass else Skip
  end.
Definition keeperArrProblem (k : verifiedVersion) : M check :=
  match mv_arr (vv_version k) with
  | None => xret Pass
  | Some info =>
    let inst := af_instance_id info in
    let asked := match cf_arrs cf !! inst with Some i => ai_enabled i && w_arr_client inst | None => false end in
    if (af_file_id info <=? 0) || negb asked then xret Pass
    else
      let! ref := ask (fun n => w_arr_file n inst (af_file_id info)) in
      let! ob := ask (observe W) in
      xret (keeper_arr_check ob k info ref)
  end.

(** ** Other servers (crossserver.go): the checks of a group that two or more servers may list *)

Definition otherIdentity (sid : Z) : M check :=
  if blank (ms_machine_identifier (cf_server cf sid)) then xret (Wait false false) else serverIdentityProblem sid.
Definition otherGate (sid : Z) : M check :=
  if negb (ReadOnly (ms_kind (cf_server cf sid))) then xret Pass
  else let! gate := ask (fun n => w_gate n sid) in
    xret (match gate with
          | NotFound | Got None => Pass
          | Failed => Wait true false
          | Got (Some _) => Skip
          end).
Definition serverHasMapping (sid : Z) : bool :=
  existsb (fun m => String.eqb (pm_source_type m) PathSourceServer && (pm_source_id m =? sid)) (cf_mappings cf).
Definition localOverlap (sid : Z) (locations locals : list string) : bool :=
  existsb (fun loc =>
    match ToLocal mapper PathSourceServer sid loc with
    | None => false
    | Some l => existsb (fun p => withinSlash p (pathKey l) || withinSlash (pathKey l) p) locals
    end) locations.
(** [slices.Compact]. *)
Fixpoint compact (l : list string) : list string :=
  match l with
  | x :: ((y :: _) as rest) => if String.eqb x y then compact rest else x :: compact rest
  | _ => l
  end.
Definition locations_key (locs : list string) : list string :=
  compact (sort_strings (List.filter (fun k => negb (String.eqb k "")) (map pathKey locs))).
Definition sameLocations (a b : list string) : bool := bool_decide (locations_key a = locations_key b).

(** The local paths of the versions to remove. *)
Definition target_locals (g : xgroup) (ts : list target) : list string :=
  flat_map (fun t => omap (fun p =>
    pathKey <$> ToLocal mapper PathSourceServer (serverOf g (tg_version t)) (mp_path p)) (mv_parts (tg_version t))) ts.
Definition listingChange (sid : Z) (lib : CrossServerLibrary) : M check :=
  if String.eqb (cl_fingerprint lib) "" then xret Pass else
  let mt := if equal_fold (trim_space (cl_type lib)) "show" then MediaTypeEpisode else MediaTypeMovie in
  let! refs := ask (fun n => w_listing n sid (cl_section_key lib) mt) in
  xret (match refs with
        | NotFound => Skip
        | Failed => Wait true false
        | Got refs => if String.eqb (ListingFingerprint refs) (cl_fingerprint lib) then Pass else Skip
        end).
Definition listed_type (sec : LibrarySection) : bool :=
  let typ := to_lower (trim_space (se_type sec)) in String.eqb typ "movie" || String.eqb typ "show".
(** The library as the scan recorded it. *)
Definition recorded_library (rec : CrossServerRecord) (sid : Z) (sec : LibrarySection) : option CrossServerLibrary :=
  find (fun l => (cl_server_id l =? sid) && String.eqb (cl_section_key l) (trim_space (se_key sec))) (cs_libraries rec).
Definition section_check (rec : CrossServerRecord) (locals : list string) (sid : Z) (sec : LibrarySection) : M check :=
  if negb (listed_type sec) && negb (se_other_video sec) then xret Pass
  else if separateServer (cf_server cf sid) && negb (localOverlap sid (se_locations sec) locals) then xret Pass
  else if negb (listed_type sec) then xret Skip
  else match recorded_library rec sid sec with
  | None => xret Skip
  | Some lib =>
    if negb (sameLocations (cl_locations lib) (se_locations sec)) then xret Skip
    else if se_refreshing sec || cl_refreshing lib then xret Skip
    else if (se_scanned_at sec =? 0) || (se_content_changed_at sec =? 0) then
      let! c := listingChange sid lib in
      xret (match c with Pass => if String.eqb (cl_fingerprint lib) "" then Skip else Pass | _ => c end)
    else if (cl_scanned_at lib <? se_scanned_at sec) || (cl_content_changed_at lib <? se_content_changed_at sec) then xret Skip
    else xret Pass
  end.
Definition server_sections (rec : CrossServerRecord) (locals : list string) (sid : Z) : M check :=
  if separateServer (cf_server cf sid) && negb (serverHasMapping sid) then xret Pass
  else if negb (serverClient sid) then xret (Wait false false)
  else and_then (otherIdentity sid) (and_then (otherGate sid)
    (let! secs := ask (fun n => w_sections n sid) in
     match secs with
     | None => xret (Wait true false)
     | Some secs => all_checks (section_check rec locals sid) secs
     end)).
Definition sectionsProblem (g : xgroup) (ts : list target) : M check :=
  match dg_cross_server (xg_group g) with
  | None => xret Skip
  | Some rec => all_checks (server_sections rec (target_locals g ts))
      (List.filter (fun sid => negb (sid =? dg_server_id (xg_group g))) (enabledServerIDs cf))
  end.

(** [listingVersion]: the version a listing names. *)
Definition listingVersion (srv : MediaServer) (e : OtherListing) (v : MediaVersion) : bool :=
  if IsPlex (ms_kind srv) then mv_media_id v =? ol_media_id e
  else negb (String.eqb (ServerVersionID v) "") &&
    String.eqb (VersionKey (ms_kind srv) (ol_server_id e) (ServerVersionID v)) (ol_version_key e).
(** [survivorProblem]: [true] when there is none. *)
Fixpoint all_distinct (local : string) (losers : list verifiedPart) : M bool :=
  match losers with
  | [] => xret true
  | lp :: rest =>
    if String.eqb (vp_local lp) "" then xret false else
    let! v := compare_files local (vp_local lp) in
    match v with Distinct => all_distinct local rest | Same | Unknown => xret false end
  end.
Definition survivor_part (sid : Z) (losers : list verifiedPart) (p : MediaPart) : M bool :=
  if bool_decide (mp_exists p = Some false) || bool_decide (mp_accessible p = Some false) then xret false else
  match ToLocal mapper PathSourceServer sid (mp_path p) with
  | None => xret false
  | Some local =>
    let! fi := ask (fun n => fv_stat (w_fs n) local) in
    match fi with
    | None => xret false
    | Some fi => if negb (fi_regular fi) || negb (fi_size fi =? mp_size p) then xret false else all_distinct local losers
    end
  end.
Fixpoint survivor_parts (sid : Z) (losers : list verifiedPart) (ps : list MediaPart) : M bool :=
  match ps with
  | [] => xret true
  | p :: rest => let! ok := survivor_part sid losers p in if ok : bool then survivor_parts sid losers rest else xret false
  end.
Definition survives (sid : Z) (losers : list verifiedPart) (o : MediaVersion) : M bool :=
  match losers with [] => xret false | _ => survivor_parts sid losers (mv_parts o) end.
(** [listingProblem]. *)
Definition may_survive (srv : MediaServer) (e : OtherListing) (o : MediaVersion) : bool :=
  negb (listingVersion srv e o) && negb (isOptimized o) && negb (Nat.eqb (length (mv_parts o)) 0) &&
  Nat.eqb (length (mv_report_only o)) 0.
Fixpoint any_survives (sid : Z) (losers : list verifiedPart) (os : list MediaVersion) : M check :=
  match os with
  | [] => xret Skip
  | o :: rest => let! ok := survives sid losers o in if ok : bool then xret Pass else any_survives sid losers rest
  end.
Definition still_listed (srv : MediaServer) (e : OtherListing) (it : MediaItem) : bool :=
  match last (List.filter (listingVersion srv e) (it_versions it)) with
  | None => false
  | Some v => existsb (fun p => String.eqb (Normalize (mp_path p)) (Normalize (ol_path e))) (mv_parts v)
  end.
Definition listingProblem (srv : MediaServer) (losers : list verifiedPart) (e : OtherListing) (it : MediaItem) : M check :=
  if negb (still_listed srv e it) then xret Skip
  else any_survives (ol_server_id e) losers (List.filter (may_survive srv e) (it_versions it)).

(** Another server's identity, gate and sessions, checked once per server. *)
Definition listed_ids (sid : Z) (es : list OtherListing) : list string :=
  flat_map listingPlayingIDs (List.filter (fun e => ol_server_id e =? sid) es).
Definition other_sessions (sid : Z) (es : list OtherListing) : M check :=
  let! sessions := ask (fun n => w_sessions n sid) in
  xret (match sessions with
        | Got ids => if existsb (fun k => mem k ids) (listed_ids sid es) then Wait false true else Pass
        | Failed | NotFound => Wait true false
        end).
Definition other_server (sid : Z) (es : list OtherListing) : M check :=
  and_then (otherIdentity sid) (and_then (otherGate sid) (other_sessions sid es)).
Definition fetched := list ((Z * string) * MediaItem).
Definition find_fetched (ref : Z * string) (fresh : fetched) : option MediaItem :=
  snd <$> find (fun kv => (fst (fst kv) =? fst ref) && String.eqb (snd (fst kv)) (snd ref)) fresh.
Definition other_item (ref : Z * string) (fresh : fetched) : M (answer MediaItem) :=
  match find_fetched ref fresh with
  | Some it => xret (Got it)
  | None => ask (fun n => w_item n (fst ref) (snd ref))
  end.
(** [all]: every listing of every target; [todo]: those still to check. *)
Fixpoint check_listings (all : list OtherListing) (losers : list verifiedPart) (todo : list OtherListing) (checked : list Z)
    (fresh : fetched) : M check :=
  match todo with
  | [] => xret Pass
  | e :: rest =>
    let sid := ol_server_id e in
    match cf_servers cf !! sid with
    | None => check_listings all losers rest checked fresh
    | Some srv =>
      if negb (ms_enabled srv) then check_listings all losers rest checked fresh
      else if negb (serverClient sid) then xret (Wait false false)
      else
        let! c := (if mem sid checked then xret Pass else other_server sid all) in
        match c with
        | Pass =>
          let ref := (sid, trim_space (ol_rating_key e)) in
          let! it := other_item ref fresh in
          match it with
          | Failed => xret (Wait true false)
          | NotFound => xret (Wait false false)
          | Got it =>
            let! c := listingProblem srv losers e it in
            match c with Pass => check_listings all losers rest (sid :: checked) ((ref, it) :: fresh) | _ => xret c end
          end
        | _ => xret c
        end
    end
  end.
Definition listings_of (ts : list target) : list OtherListing := flat_map (fun t => mv_other_servers (tg_version t)) ts.
Definition loser_parts (ts : list target) (vr : verification) : list verifiedPart :=
  flat_map (fun t => match loser_of vr t with Some l => vv_parts l | None => [] end) ts.
Definition otherServerProblem (g : xgroup) (ts : list target) (vr : verification) : M check :=
  and_then (sectionsProblem g ts) (check_listings (listings_of ts) (loser_parts ts vr) (listings_of ts) [] []).

(** ** Assessing a group *)

(** What happens to a group: [Act] carries the targets in order, what verified them
    and the method of each. *)
Inductive verdict :=
  | Act (ts : list target) (vr : verification) (plans : list methodChoice)
  | SkipGroup (actions : list Action)
  | DeferGroup (failure playing : bool)
  | RefuseGroup (ts : list target) (bad : target)
  | LeaveGroup.                                   (* the run was cancelled *)

(** A wait is dropped when the run was cancelled meanwhile. *)
Definition wait_or_leave (failure playing : bool) : M verdict :=
  let! c := ask w_cancelled in xret (if c : bool then LeaveGroup else DeferGroup failure playing).
Definition settle (ts : list target) (c : check) (next : M verdict) : M verdict :=
  match c with
  | Pass => next
  | Skip => xret (SkipGroup (map tg_action ts))
  | Wait failure true => xret (DeferGroup failure true)
  | Wait failure false => wait_or_leave failure false
  end.

(** Untracked versions first (a stable sort). *)
Definition untracked_first (ts : list target) : list target :=
  let tracked t := match mv_arr (tg_version t) with Some _ => true | None => false end in
  (List.filter (fun t => negb (tracked t)) ts ++ List.filter tracked ts)%list.
Definition targets_of (qs : list queued) : list target :=
  omap (fun q => match snd q with
                 | Some (fid, f) => Some {| tg_action := fst q; tg_id := fid; tg_file := f |}
                 | None => None
                 end) qs.

(** The method of every removal, and that its *arr still tracks the version. *)
Fixpoint choose_methods (g : xgroup) (all ts : list target) (vr : verification) : M (verdict + list methodChoice) :=
  match ts with
  | [] => xret (inr [])
  | t :: rest =>
    let! choice := ask (fun n => md_select n cf g t vr) in
    match choice with
    | None =>
      let! c := ask w_cancelled in
      xret (inl (if c : bool then LeaveGroup else RefuseGroup all t))
    | Some choice =>
      let! c := arrFileProblem t vr choice in
      match c with
      | Pass =>
        let! more := choose_methods g all rest vr in
        xret (match more with inl v => inl v | inr l => inr (choice :: l) end)
      | Skip => xret (inl (SkipGroup (map tg_action all)))
      | Wait f p => let! v := wait_or_leave f p in xret (inl v)
      end
    end
  end.

(** From the fresh items on. *)
Definition assess_verified (g : xgroup) (ts : list target) (fresh : items) : M verdict :=
  let! ob := ask (observe W) in
  let vr := verify cf ob g ts fresh in
  match vr_problem vr with
  | Some _ => xret (SkipGroup (map tg_action ts))
  | None =>
    if vr_wait vr then xret (DeferGroup false false) else
    let! others := (if multiServer cf then otherServerProblem g ts vr else xret Pass) in
    match others with
    | Skip => xret (SkipGroup (map tg_action ts))
    | Wait f p => wait_or_leave f p
    | Pass =>
      let! plans := choose_methods g ts ts vr in
      match plans with
      | inl v => xret v
      | inr plans =>
        let! c := all_checks keeperArrProblem (vr_keepers vr) in
        settle ts c (xret (Act ts vr plans))
      end
    end
  end.

(** Servers, sessions and items. *)
Definition assess_live (g : xgroup) (ts : list target) : M verdict :=
  let sids := involved_servers g in
  if negb (forallb serverClient sids) then xret (SkipGroup (map tg_action ts)) else
  let! c := and_then (all_checks serverIdentityProblem sids)
    (and_then (if readOnlyGroup g then readOnlyRunProblem g else xret Pass) (all_checks (sessions_check g) sids)) in
  settle ts c
    (let! fresh := fetch_items (flat_map (fun kv => map (fun rk => (fst kv, rk)) (snd kv)) (involvedRatingKeys g)) in
     match fresh with
     | None => wait_or_leave true false
     | Some fresh => assess_verified g ts fresh
     end).

Definition stored_problems (g : xgroup) (qs : list queued) : bool :=
  existsb (fun q => bool_decide (is_Some (targetProblem q))) qs ||
  bool_decide (is_Some (ValidateDecisions (xg_group g))).

Definition assess (g : xgroup) (qs : list queued) : M verdict :=
  if notAllowedNow g qs || crossServerRecordProblem g || stored_problems g qs then xret (SkipGroup (map fst qs))
  else
    let ts := targets_of qs in
    let! kept := keptElsewhere g ts in
    match kept with
    | None => wait_or_leave true false
    | Some true => xret (SkipGroup (map fst qs))
    | Some false => assess_live g (untracked_first ts)
    end.
End run.
