(* ===== verification/ExecRun.v ===== *)
(** * A queue run

    internal/executor/process.go: ProcessQueue, processGroup after its verdict,
    execute, finalizeGroup and the breakers. A run leaves a trace of the removals it
    carried out, with what each relied on. Messages, events, history, progress
    reports and re-scans are left out: the text of a stored message or reason is
    empty. *)

From S2P Require Import Prelude GoStd Models Paths Store ExecModel ExecWorld ExecApprove ExecVerify ExecAssess.
Local Open Scope string_scope.
Local Open Scope Z_scope.

(** ** The trace *)

(** A removal that was carried out (or tried): the group, its removals and what
    verified them, the method, the database right before it was marked running, when the run
    turned to the group (its row was read next) and when the removal was performed. *)
Record performed := {
  pf_since : nat;
  pf_clock : nat;
  pf_group : xgroup;
  pf_targets : list target;
  pf_target : target;
  pf_verification : verification;
  pf_choice : methodChoice;
  pf_before : store;
  pf_dry_run : bool;                      (* the run is a dry run by now *)
  pf_result : performResult;
}.
Inductive event := Simulated (t : target) | Performed (p : performed).

(** ** Run state *)

Definition with_summary (f : Summary -> Summary) (r : run_state) : run_state := {|
  rn_dry_run := rn_dry_run r; rn_kept := rn_kept r; rn_attempts := rn_attempts r; rn_bytes := rn_bytes r;
  rn_consecutive := rn_consecutive r; rn_stopped := rn_stopped r; rn_aborted := rn_aborted r; rn_sum := f (rn_sum r) |}.
Definition set_dry (r : run_state) : run_state := {|
  rn_dry_run := true; rn_kept := rn_kept r; rn_attempts := rn_attempts r; rn_bytes := rn_bytes r;
  rn_consecutive := rn_consecutive r; rn_stopped := rn_stopped r; rn_aborted := rn_aborted r; rn_sum := rn_sum r |}.
Definition set_stopped (why : stop) (r : run_state) : run_state := {|
  rn_dry_run := rn_dry_run r; rn_kept := rn_kept r; rn_attempts := rn_attempts r; rn_bytes := rn_bytes r;
  rn_consecutive := rn_consecutive r; rn_stopped := Some why; rn_aborted := rn_aborted r; rn_sum := rn_sum r |}.
Definition set_aborted (why : abort) (r : run_state) : run_state :=
  match rn_aborted r with
  | Some _ => r
  | None =>
    let sm := rn_sum r in {|
    rn_dry_run := rn_dry_run r; rn_kept := rn_kept r; rn_attempts := rn_attempts r; rn_bytes := rn_bytes r;
    rn_consecutive := rn_consecutive r; rn_stopped := rn_stopped r; rn_aborted := Some why;
    rn_sum := {| sm_processed := sm_processed sm; sm_succeeded := sm_succeeded sm; sm_dry_run := sm_dry_run sm;
      sm_skipped := sm_skipped sm; sm_failed := sm_failed sm; sm_deferred := sm_deferred sm;
      sm_bytes_freed := sm_bytes_freed sm; sm_aborted := true |} |}
  end.
Definition count_attempt (r : run_state) : run_state := {|
  rn_dry_run := rn_dry_run r; rn_kept := rn_kept r; rn_attempts := rn_attempts r + 1; rn_bytes := rn_bytes r;
  rn_consecutive := rn_consecutive r; rn_stopped := rn_stopped r; rn_aborted := rn_aborted r; rn_sum := rn_sum r |}.
(** A removal that succeeded or was simulated. *)
Definition count_done (size freed : Z) (r : run_state) : run_state :=
  let sm := rn_sum r in {|
  rn_dry_run := rn_dry_run r; rn_kept := rn_kept r; rn_attempts := rn_attempts r; rn_bytes := wrap64 (rn_bytes r + size);
  rn_consecutive := 0; rn_stopped := rn_stopped r; rn_aborted := rn_aborted r;
  rn_sum := {| sm_processed := sm_processed sm; sm_succeeded := sm_succeeded sm; sm_dry_run := sm_dry_run sm;
    sm_skipped := sm_skipped sm; sm_failed := sm_failed sm; sm_deferred := sm_deferred sm;
    sm_bytes_freed := wrap64 (sm_bytes_freed sm + freed); sm_aborted := sm_aborted sm |} |}.
Definition keep_in_run (keys : list string) (r : run_state) : run_state := {|
  rn_dry_run := rn_dry_run r; rn_kept := rn_kept r ∪ list_to_set keys; rn_attempts := rn_attempts r; rn_bytes := rn_bytes r;
  rn_consecutive := rn_consecutive r; rn_stopped := rn_stopped r; rn_aborted := rn_aborted r; rn_sum := rn_sum r |}.

(** [noteFailure]. *)
Definition maxConsecutiveFailures : Z := 3.
Definition note_failure (r : run_state) : run_state :=
  let r := {|
    rn_dry_run := rn_dry_run r; rn_kept := rn_kept r; rn_attempts := rn_attempts r; rn_bytes := rn_bytes r;
    rn_consecutive := rn_consecutive r + 1; rn_stopped := rn_stopped r; rn_aborted := rn_aborted r; rn_sum := rn_sum r |} in
  if maxConsecutiveFailures <=? rn_consecutive r then set_aborted TooManyFailures r else r.

Definition count_result (status : string) (sm : Summary) : Summary :=
  let one (s : string) := if String.eqb status s then 1 else 0 in {|
  sm_processed := sm_processed sm + 1; sm_succeeded := sm_succeeded sm + one ActionSucceeded;
  sm_dry_run := sm_dry_run sm + one ActionDryRun; sm_skipped := sm_skipped sm + one ActionSkipped;
  sm_failed := sm_failed sm + one ActionFailed; sm_deferred := sm_deferred sm; sm_bytes_freed := sm_bytes_freed sm;
  sm_aborted := sm_aborted sm |}.
Definition count_deferred (sm : Summary) : Summary := {|
  sm_processed := sm_processed sm; sm_succeeded := sm_succeeded sm; sm_dry_run := sm_dry_run sm; sm_skipped := sm_skipped sm;
  sm_failed := sm_failed sm; sm_deferred := sm_deferred sm + 1; sm_bytes_freed := sm_bytes_freed sm;
  sm_aborted := sm_aborted sm |}.

(** ** Budget *)

Section run.
Context `{Unicode} `{Doublestar} `{RegexSyntax} {W : World} {D : Methods} (cf : config).
Notation M := (M event).

Definition maxCount : Z := st_max_deletions_per_run (cf_settings cf).
Definition maxBytes : Z := gbToBytes (st_max_bytes_per_run_gb (cf_settings cf)).

(** [newRun]: a limit of 0 or less allows nothing. *)
Definition newRun : run_state :=
  let st := cf_settings cf in
  new_run (st_dry_run st)
    (if st_max_deletions_per_run st <=? 0 then Some CountNotSet
     else if st_max_bytes_per_run_gb st <=? 0 then Some BytesNotSet else None).

(** [budgetAllows]: why a removal of [size] bytes may not start. *)
Definition over_budget (size : Z) (r : run_state) : option stop :=
  match rn_stopped r with
  | Some why => Some why
  | None =>
    if (maxCount <=? 0) || (maxBytes <=? 0) then Some LimitNotSet
    else if maxCount <=? rn_attempts r then Some CountReached
    else if (maxBytes <=? rn_bytes r) || ((0 <? rn_bytes r) && (maxBytes <? wrap64 (rn_bytes r + size)))
    then Some BytesReached else None
  end.
Definition budgetAllows (size : Z) : M bool :=
  let! r := get_run in
  match over_budget size r with
  | Some why => modify_run (set_stopped why) ;; xret false
  | None => xret true
  end.

(** [halted]. *)
Definition halted : M bool :=
  let! c := ask w_cancelled in
  let! r := get_run in
  xret (c || bool_decide (is_Some (rn_aborted r)) || bool_decide (is_Some (rn_stopped r))).
(** The guard of both loops; the budget is only asked while nothing is halted. *)
Definition may_start (size : Z) : M bool :=
  let! h := halted in if h : bool then xret false else budgetAllows size.

(** ** Bookkeeping *)

(** [finishAction]; a failure to record is only logged. *)
Definition finishAction (status : string) (a : Action) : M Action :=
  let! now := ask w_now in
  let a' := finish_action status "" now a in
  let! _ := db (UpdateAction now a') in
  modify_run (with_summary (count_result status)) ;; xret a'.

(** [setRunStatus]: only over "queued", or the same status. *)
Definition setRunStatus (gid : Z) (status : string) : M bool :=
  let! now := ask w_now in
  let! written := db_try (UpdateStatusIf now gid [GroupQueued; status] status []) in
  xret (match written with Some (inr ok) => ok | _ => false end).

(** [setPlaying]; a failure is only logged. *)
Definition setPlaying (gid : Z) (on : bool) : M unit :=
  let! now := ask w_now in
  let! _ := db_try (fun s => match SetFlag now gid FlagPlaying on s with inl e => inl e | inr s' => inr (s', tt) end) in
  xret tt.

(** [skipGroup]: of the removals not yet started. *)
Definition skipGroup (gid : Z) (actions : list Action) : M unit :=
  for_each (fun a => if String.eqb (ac_status a) ActionPending
                     then let! _ := finishAction ActionSkipped a in xret tt else xret tt) actions ;;
  let! _ := setRunStatus gid GroupReview in xret tt.

(** [deferGroup]. *)
Definition deferGroup (gid : Z) (failure playing : bool) : M unit :=
  modify_run (with_summary count_deferred) ;;
  when playing (setPlaying gid true) ;;
  let! _ := setRunStatus gid GroupQueued in
  when failure (modify_run note_failure).

(** The status a group gets from its approval batch: [None] leaves it. A cancelled
    removal is not part of the batch, but keeps the group from being resolved. *)
Definition with_status_of (status : string) (l : list Action) : list Action :=
  List.filter (fun a => String.eqb (ac_status a) status) l.
Definition group_outcome (stamps : list time) (all : list Action) : option string :=
  let mine := List.filter (fun a => existsb (Z.eqb (ac_created_at a)) stamps) all in
  let n status := Z.of_nat (length (with_status_of status mine)) in
  let total := Z.of_nat (length mine) - n ActionCancelled in
  if total =? 0 then None else Some (
    if 0 <? n ActionFailed then GroupFailed
    else if 0 <? n ActionSkipped then GroupReview
    else if 0 <? n ActionPending + n ActionRunning then GroupQueued
    else if n ActionDryRun =? total then GroupPending
    else if (n ActionSucceeded =? total) && (0 <? n ActionCancelled) then GroupPending
    else if n ActionSucceeded =? total then GroupResolved
    else GroupPending).

(** [finalizeGroup]. *)
Definition finalizeGroup (g : xgroup) (stamps : list time) : M unit :=
  let! all := db_read (ListByGroup (xg_id g)) in
  match all with
  | None => xret tt
  | Some all =>
    match group_outcome stamps all with
    | None => xret tt
    | Some status =>
      when (mem FlagPlaying (dg_flags (xg_group g))) (setPlaying (xg_id g) false) ;;
      let! _ := setRunStatus (xg_id g) status in xret tt
    end
  end.

(** [refuseGroup]. *)
Definition refuseGroup (g : xgroup) (ts : list target) (bad : target) (stamps : list time) : M unit :=
  let! _ := finishAction ActionFailed (tg_action bad) in
  modify_run note_failure ;;
  let! _ := setRunStatus (xg_id g) GroupFailed in
  cancelQueued "" (map tg_action (List.filter (fun t => negb (ac_id (tg_action t) =? ac_id (tg_action bad))) ts)) ;;
  finalizeGroup g stamps.

(** ** One removal *)

(** A removal that was started: its action as it ended, and why not to go on. *)
Record started := { sd_target : target; sd_action : Action; sd_choice : methodChoice; sd_status : string }.
Inductive execution := NotStarted (pending : bool) | Started (s : started).

(** The settings are read again before a real removal: dry run may be on by now. *)
Definition reread_settings (a : Action) : M bool :=
  let! r := get_run in
  if rn_dry_run r || ac_dry_run a then xret true else
  let! st := ask w_settings in
  match st with
  | None =>
    let! c := ask w_cancelled in
    when (negb c) (modify_run (set_stopped SettingsUnreadable)) ;; xret false
  | Some st => when (st_dry_run st) (modify_run set_dry) ;; xret true
  end.

Definition start_action (now : time) (a : Action) : Action := {|
  ac_id := ac_id a; ac_group_id := ac_group_id a; ac_group_file_id := ac_group_file_id a;
  ac_version_key := ac_version_key a; ac_title := ac_title a; ac_paths := ac_paths a; ac_size := ac_size a;
  ac_method := ac_method a; ac_status := ActionRunning; ac_dry_run := ac_dry_run a; ac_message := ac_message a;
  ac_recycle_path := ac_recycle_path a; ac_permanent := ac_permanent a; ac_created_at := ac_created_at a;
  ac_started_at := Some now; ac_finished_at := ac_finished_at a |}.
Definition with_method (method : string) (permanent : bool) (recycle : string) (a : Action) : Action := {|
  ac_id := ac_id a; ac_group_id := ac_group_id a; ac_group_file_id := ac_group_file_id a;
  ac_version_key := ac_version_key a; ac_title := ac_title a; ac_paths := ac_paths a; ac_size := ac_size a;
  ac_method := method; ac_status := ac_status a; ac_dry_run := ac_dry_run a; ac_message := ac_message a;
  ac_recycle_path := recycle; ac_permanent := permanent; ac_created_at := ac_created_at a;
  ac_started_at := ac_started_at a; ac_finished_at := ac_finished_at a |}.

(** What a started removal ends as. *)
Definition result_status (dry : bool) (res : performResult) : string :=
  if dry then ActionDryRun
  else match res with PStale _ => ActionSkipped | PFailed _ _ => ActionFailed | PDone _ _ => ActionSucceeded end.

(** The removal itself, marked running. *)
Definition simulate (t : target) (a : Action) (choice : methodChoice) : M execution :=
  emit (Simulated t) ;;
  modify_run (count_done (ac_size a) 0) ;;
  let! a' := finishAction ActionDryRun a in
  xret (Started {| sd_target := t; sd_action := a'; sd_choice := choice; sd_status := ActionDryRun |}).
Definition really_remove (since : nat) (g : xgroup) (ts : list target) (t : target) (vr : verification) (a : Action)
    (choice : methodChoice) (before : store) : M execution :=
  let! r := get_run in
  let! at_ := get_clock in
  let! res := ask (fun n => md_perform n t choice vr) in
  emit (Performed {| pf_since := since; pf_clock := at_; pf_group := g; pf_targets := ts; pf_target := t; pf_verification := vr; pf_choice := choice;
    pf_before := before; pf_dry_run := rn_dry_run r; pf_result := res |}) ;;
  match res with
  | PStale _ =>
    let! a' := finishAction ActionSkipped a in
    xret (Started {| sd_target := t; sd_action := a'; sd_choice := choice; sd_status := ActionSkipped |})
  | PFailed recycle abort_run =>
    let! a' := finishAction ActionFailed (with_method (ac_method a) (ac_permanent a) recycle a) in
    when abort_run (modify_run (set_aborted PerformAborted)) ;;
    modify_run note_failure ;;
    xret (Started {| sd_target := t; sd_action := a'; sd_choice := choice; sd_status := ActionFailed |})
  | PDone _ recycle =>
    modify_run (count_done (ac_size a) (default (ac_size a) (mc_freed choice))) ;;
    let! a' := finishAction ActionSucceeded (with_method (ac_method a) (ac_permanent a) recycle a) in
    xret (Started {| sd_target := t; sd_action := a'; sd_choice := choice; sd_status := ActionSucceeded |})
  end.

(** [execute]. *)
Definition execute (since : nat) (g : xgroup) (ts : list target) (t : target) (vr : verification) (choice : methodChoice) : M execution :=
  let a := tg_action t in
  let! readable := reread_settings a in
  if negb readable then xret (NotStarted true) else
  let! now := ask w_now in
  let a := start_action now a in
  let! updated := db (fun st => let '(st', res) := UpdateAction now a st in (st', (st, res))) in
  match updated with
  | Some (before, Updated) =>
    let a := with_method (mc_method choice) (mc_permanent choice) (ac_recycle_path a) a in
    modify_run count_attempt ;;
    let! r := get_run in
    if rn_dry_run r || ac_dry_run a then simulate t a choice
    else really_remove since g ts t vr a choice before
  | _ => xret (NotStarted false)
  end.

(** The removals in order, up to a limit, a failure or stale data; and those still
    pending in memory. *)
Fixpoint run_targets (since : nat) (g : xgroup) (all : list target) (vr : verification) (todo : list (target * methodChoice)) :
    M (list started * list Action) :=
  match todo with
  | [] => xret ([], [])
  | (t, choice) :: rest =>
    let! go := may_start (ac_size (tg_action t)) in
    if negb go then xret ([], map (fun tc => tg_action (fst tc)) todo) else
    let! e := execute since g all t vr choice in
    match e with
    | NotStarted pending =>
      let! more := run_targets since g all vr rest in
      xret (fst more, if pending : bool then tg_action t :: snd more else snd more)
    | Started s =>
      if mem (sd_status s) [ActionSkipped; ActionFailed]
      then xret ([s], map (fun tc => tg_action (fst tc)) rest)
      else
        let! more := run_targets since g all vr rest in
        xret (s :: fst more, snd more)
    end
  end.

(** [postActions], as far as the database and the run see it: the notes added to
    the removals that succeeded, and the versions kept from now on. *)
Definition appendNote (s : started) (note : string) : M unit :=
  if blank note then xret tt else
  let! now := ask w_now in
  let! _ := db (UpdateAction now (sd_action s)) in xret tt.
Definition kept_keys (vr : verification) : list string :=
  flat_map (fun k => mv_key (vv_version k) :: map ol_version_key (mv_other_servers (vv_version k))) (vr_keepers vr).
Definition after_removals (vr : verification) (done : list started) : M unit :=
  match List.filter (fun s => String.eqb (sd_status s) ActionSucceeded) done with
  | [] => xret tt
  | removed =>
    for_each (fun s => let! notes := ask (fun n => md_notes n (ac_id (sd_action s))) in for_each (appendNote s) notes) removed ;;
    modify_run (keep_in_run (kept_keys vr))
  end.

(** ** One group *)

Definition stamps_of (ts : list target) : list time := map (fun t => ac_created_at (tg_action t)) ts.
Definition act (since : nat) (g : xgroup) (ts : list target) (vr : verification) (plans : list methodChoice) : M unit :=
  let! r := run_targets since g ts vr (combine ts plans) in
  let '(done, rest) := r in
  after_removals vr done ;;
  if existsb (fun s => String.eqb (sd_status s) ActionSkipped) done then skipGroup (xg_id g) rest
  else
    when (existsb (fun s => String.eqb (sd_status s) ActionFailed) done)
      (let! _ := setRunStatus (xg_id g) GroupFailed in cancelQueued "" rest) ;;
    finalizeGroup g (stamps_of ts).

(** Versions of old rows get the server of their group. *)
Definition set_server_id (sid : Z) (v : MediaVersion) : MediaVersion := {|
  mv_key := mv_key v; mv_server_id := sid; mv_library_id := mv_library_id v;
  mv_library_title := mv_library_title v; mv_section_key := mv_section_key v;
  mv_rating_key := mv_rating_key v; mv_media_id := mv_media_id v; mv_item_title := mv_item_title v;
  mv_optimized := mv_optimized v; mv_item_key_id := mv_item_key_id v; mv_source_id := mv_source_id v;
  mv_episode_end := mv_episode_end v; mv_report_only := mv_report_only v; mv_parts := mv_parts v;
  mv_container := mv_container v; mv_duration_ms := mv_duration_ms v;
  mv_bitrate_kbps := mv_bitrate_kbps v; mv_video_bitrate := mv_video_bitrate v; mv_width := mv_width v;
  mv_height := mv_height v; mv_resolution := mv_resolution v; mv_video_codec := mv_video_codec v;
  mv_bit_depth := mv_bit_depth v; mv_dynamic_range := mv_dynamic_range v;
  mv_audio_tracks := mv_audio_tracks v; mv_subtitle_count := mv_subtitle_count v;
  mv_source := mv_source v; mv_edition := mv_edition v; mv_added_at := mv_added_at v;
  mv_arr := mv_arr v; mv_disc := mv_disc v; mv_watch := mv_watch v; mv_other_servers := mv_other_servers v |}.
Definition with_server (sid : Z) (f : GroupFile) : GroupFile := {|
  gf_version := if mv_server_id (gf_version f) =? 0 then set_server_id sid (gf_version f) else gf_version f;
  gf_decision := gf_decision f; gf_engine_decision := gf_engine_decision f; gf_override := gf_override f;
  gf_rank := gf_rank f; gf_reasons := gf_reasons f; gf_deciding_criterion := gf_deciding_criterion f;
  gf_protected := gf_protected f; gf_protected_reason := gf_protected_reason f |}.
Definition normalize_servers (g : xgroup) : xgroup :=
  let dg := xg_group g in
  let files := map (fun idf => (fst idf, with_server (dg_server_id dg) (snd idf))) (xg_files g) in {|
  xg_id := xg_id g;
  xg_group := set_group (dg_status dg) (dg_status_reason dg) (dg_flags dg) (map snd files) (dg_reclaimable_bytes dg) dg;
  xg_files := files |}.

(** [processGroup]. *)
Definition processGroup (gid : Z) (actions : list Action) : M unit :=
  let! since := get_clock in
  let! got := get_group gid in
  match got with
  | None => let! c := ask w_cancelled in when (negb c) (modify_run note_failure)
  | Some None => cancelQueued "" actions
  | Some (Some (stored, _)) =>
    let g := normalize_servers stored in
    if negb (String.eqb (dg_status (xg_group g)) GroupQueued) then cancelQueued "" actions else
    let! v := assess cf g (queued_of g actions) in
    match v with
    | Act ts vr plans => act since g ts vr plans
    | SkipGroup acts => skipGroup (xg_id g) acts
    | DeferGroup failure playing => deferGroup (xg_id g) failure playing
    | RefuseGroup ts bad => refuseGroup g ts bad (stamps_of ts)
    | LeaveGroup => xret tt
    end
  end.

(** [batchByGroup]: in the order the groups first appear. *)
Definition batchByGroup (pending : list Action) : list (Z * list Action) :=
  map (fun gid => (gid, List.filter (fun a => ac_group_id a =? gid) pending)) (dedup (map ac_group_id pending)).

Fixpoint process_batches (bs : list (Z * list Action)) : M unit :=
  match bs with
  | [] => xret tt
  | (gid, actions) :: rest =>
    let! go := may_start 0 in
    if negb go then xret tt else processGroup gid actions ;; process_batches rest
  end.

(** [finish]: how the run ended. *)
Inductive run_end := RunAborted (why : abort) | RunCancelled | RunStopped (why : stop) | RunFinished | QueueUnreadable.
Definition finish : M (Summary * run_end) :=
  let! r := get_run in
  let! c := ask w_cancelled in
  xret (rn_sum r,
    match rn_aborted r with
    | Some why => RunAborted why
    | None => if c : bool then RunCancelled
              else match rn_stopped r with Some why => RunStopped why | None => RunFinished end
    end).

(** [ProcessQueue], after [newRun]'s reads gave [cf]. *)
Definition ProcessQueue : M (Summary * run_end) :=
  start_run newRun ;;
  let! _ := recoverInterrupted in
  let! pending := db_read ListPending in
  match pending with
  | None => xret (empty_summary, QueueUnreadable)
  | Some [] => xret (empty_summary, RunFinished)
  | Some pending => process_batches (batchByGroup pending) ;; finish
  end.
End run.
