(* ===== verification/ExecFacts.v ===== *)
(** * Reasoning about runs

    A small program logic for the monad of ExecWorld.v. [rel R m] says that every
    run of [m] relates its start and its end by the preorder [R]; the two relations
    used most are [quiet] (no removal was started and the run's counters are the
    same) and [reading] (moreover nothing was written). [answers m Q]
    says what an answer of [m] implies, whatever the surroundings do; [during a m Q]
    moreover when: from the clock [a] on, and by the clock at which [m] ends. Then: what
    only asks. *)

From S2P Require Import Prelude GoStd Models Paths Validate Store StoreFacts Pathmap ExecModel FileId ExecWorld ExecApprove ExecVerify ExecAssess ExecRun.
Local Open Scope string_scope.
Local Open Scope Z_scope.

Create HintDb runs.

(** ** Relations between start and end *)

Section logic.
Context {E : Type}.
Implicit Types R : xstate E -> xstate E -> Prop.

Definition rel R {A} (m : M E A) : Prop := forall s, R s (snd (m s)).
Definition answers {A} (m : M E A) (Q : A -> Prop) : Prop := forall s, Q (fst (m s)).

Lemma rel_ret R `{!Reflexive R} {A} (x : A) : rel R (xret x).
Proof. intros s. cbn [xret snd]. reflexivity. Qed.

Lemma rel_bind R `{!Transitive R} {A B} (m : M E A) (k : A -> M E B) :
  rel R m -> (forall x, rel R (k x)) -> rel R (xbind m k).
Proof.
  intros Hm Hk s. unfold xbind. specialize (Hm s). destruct (m s) as [x s'].
  etransitivity; [exact Hm|apply Hk].
Qed.

(** The continuation only runs on answers the first part can give. *)
Lemma rel_bind_answer R `{!Transitive R} {A B} (m : M E A) (k : A -> M E B) (Q : A -> Prop) :
  rel R m -> answers m Q -> (forall x, Q x -> rel R (k x)) -> rel R (xbind m k).
Proof.
  intros Hm Hq Hk s. unfold xbind. specialize (Hm s). specialize (Hq s). destruct (m s) as [x s'].
  etransitivity; [exact Hm|by apply Hk].
Qed.

Lemma rel_when R `{!Reflexive R} b (m : M E unit) : (b = true -> rel R m) -> rel R (when b m).
Proof. intros Hm. destruct b; [auto|by apply rel_ret]. Qed.

Lemma rel_for_each R `{!PreOrder R} {A} (f : A -> M E unit) l : (forall x, x ∈ l -> rel R (f x)) -> rel R (for_each f l).
Proof.
  induction l as [|x l IH]; intros Hf; cbn [for_each]; [by apply rel_ret; typeclasses eauto|].
  apply rel_bind; [typeclasses eauto|apply Hf; left|]. intros _. apply IH. intros y Hy. apply Hf. by right.
Qed.

Lemma rel_weaken R R' {A} (m : M E A) : (forall s s', R s s' -> R' s s') -> rel R m -> rel R' m.
Proof. intros Hr Hm s. auto. Qed.

Lemma rel_and R R' {A} (m : M E A) : rel R m -> rel R' m -> rel (fun s s' => R s s' /\ R' s s') m.
Proof. intros H1 H2 s. split; auto. Qed.

Lemma answers_ret {A} (x : A) (Q : A -> Prop) : Q x -> answers (xret x) Q.
Proof. by intros Hq s. Qed.

Lemma answers_bind {A B} (m : M E A) (k : A -> M E B) (P : A -> Prop) (Q : B -> Prop) :
  answers m P -> (forall x, P x -> answers (k x) Q) -> answers (xbind m k) Q.
Proof.
  intros Hm Hk s. unfold xbind. specialize (Hm s). destruct (m s) as [x s']. by apply Hk.
Qed.

Lemma answers_next {A B} (m : M E A) (k : A -> M E B) (Q : B -> Prop) :
  (forall x, answers (k x) Q) -> answers (xbind m k) Q.
Proof. intros Hk. by apply (answers_bind _ _ (fun _ => True)). Qed.

Lemma answers_ask {A B} (f : nat -> A) (k : A -> M E B) (Q : B -> Prop) :
  (forall n, answers (k (f n)) Q) -> answers (xbind (ask f) k) Q.
Proof. intros Hk. apply (answers_bind _ _ (fun x => exists n, x = f n)); [intros s; by eexists|]. by intros _ [n ->]. Qed.

Lemma answers_weaken {A} (m : M E A) (P Q : A -> Prop) : answers m P -> (forall x, P x -> Q x) -> answers m Q.
Proof. intros Hm Hw s. auto. Qed.

(** Time passes. *)
Definition later (s s' : xstate E) : Prop := (xs_clock s <= xs_clock s')%nat.
#[export] Instance later_preorder : PreOrder later.
Proof. split; [intros s; unfold later; lia|unfold later; intros s1 s2 s3; lia]. Qed.
(** For a single call. *)
Ltac at_once := intros s; repeat split; try done; unfold later; cbn; lia.

(** [quiet]: only questions were asked and other database calls made. *)
Definition quiet (s s' : xstate E) : Prop := xs_run s' = xs_run s /\ xs_trace s' = xs_trace s /\ later s s'.
#[export] Instance quiet_preorder : PreOrder quiet.
Proof. split; [at_once|intros s1 s2 s3 (H1 & H2 & L1) (H3 & H4 & L2); split_and!; [congruence|congruence|unfold later in *; lia]]. Qed.

(** [reading]: nothing was written; others may have. *)
Definition others_wrote `{World} : store -> store -> Prop := rtc (fun a b => exists n, b = w_env n a).
Definition reading `{World} (s s' : xstate E) : Prop := quiet s s' /\ others_wrote (xs_store s) (xs_store s').
#[export] Instance reading_preorder `{World} : PreOrder reading.
Proof.
  split; [intros s; split; [by apply (reflexivity (R:=quiet))|apply rtc_refl]|].
  intros s1 s2 s3 [Q1 O1] [Q2 O2]. split; [by apply (transitivity (R:=quiet) Q1)|].
  unfold others_wrote in *. by transitivity (xs_store s2).
Qed.

(** Nothing is removed; the counters may change. *)
Definition silent (s s' : xstate E) : Prop := xs_trace s' = xs_trace s.
#[export] Instance silent_preorder : PreOrder silent.
Proof. split; [by intros s|unfold silent; intros s1 s2 s3 H1 H2; congruence]. Qed.

(** [keeps I]: the invariant [I] is carried from start to end. *)
Definition keeps (I : xstate E -> Prop) (s s' : xstate E) : Prop := I s -> I s'.
#[export] Instance keeps_preorder I : PreOrder (keeps I).
Proof. split; [intros s Hs; exact Hs|intros s1 s2 s3 H1 H2 Hs; exact (H2 (H1 Hs))]. Qed.

Lemma ask_quiet {A} (f : nat -> A) : rel quiet (ask f).
Proof. at_once. Qed.
Lemma get_run_quiet : rel quiet get_run.
Proof. at_once. Qed.
Lemma get_clock_quiet : rel quiet get_clock.
Proof. at_once. Qed.
Lemma db_quiet `{World} {A} (f : store -> store * A) : rel quiet (db f).
Proof.
  intros s. unfold db. destruct (w_db_fails _); [|destruct (f _) as [st x]]; (split_and!; try done; unfold later; cbn; lia).
Qed.
Lemma db_try_quiet `{World} {A} (f : store -> store_error + (store * A)) : rel quiet (db_try f).
Proof. apply db_quiet. Qed.
Lemma db_read_quiet `{World} {A} (f : store -> A) : rel quiet (db_read f).
Proof. apply db_quiet. Qed.
Lemma ask_reading `{World} {A} (f : nat -> A) : rel reading (ask f).
Proof. intros s. split; [apply ask_quiet|apply rtc_refl]. Qed.
Lemma get_run_reading `{World} : rel reading get_run.
Proof. intros s. split; [apply get_run_quiet|apply rtc_refl]. Qed.
Lemma db_read_reading `{World} {A} (f : store -> A) : rel reading (db_read f).
Proof.
  intros s. split; [apply db_read_quiet|]. unfold db_read, db. destruct (w_db_fails _); (apply rtc_once; by eexists).
Qed.
Lemma modify_silent f : rel silent (modify_run f).
Proof. by intros s. Qed.
End logic.

(** One step of the program at the head of a goal about it. *)
Ltac run_step :=
  cbv zeta;
  first
  [ solve [eauto with runs nocore]
  | apply rel_ret; typeclasses eauto
  | apply rel_bind; [typeclasses eauto| |intro]
  | apply rel_when; [typeclasses eauto|intro]
  | match goal with |- rel _ (if ?b then _ else _) => destruct b
                  | |- rel _ (match ?x with _ => _ end) => destruct x end ].
Ltac run_steps := repeat run_step.

Lemma quiet_silent {E} (s s' : xstate E) : quiet s s' -> silent s s'.
Proof. by intros (_ & ? & _). Qed.

Lemma reading_quiet {E} `{World} (s s' : xstate E) : reading s s' -> quiet s s'.
Proof. by intros [? _]. Qed.

Lemma quiet_later {E A} (m : M E A) : rel quiet m -> rel later m.
Proof. apply rel_weaken. by intros s s' (_ & _ & ?). Qed.
Lemma modify_later {E} f : rel (E:=E) later (modify_run f).
Proof. intros s. unfold later. cbn. lia. Qed.
Lemma emit_later {E} (e : E) : rel later (emit e).
Proof. intros s. unfold later. cbn. lia. Qed.

#[export] Hint Resolve ask_reading get_run_reading db_read_reading : runs.
#[export] Hint Resolve ask_quiet get_run_quiet get_clock_quiet db_quiet db_try_quiet db_read_quiet : runs.
#[export] Hint Resolve modify_later emit_later quiet_later : runs.

(** ** Answers and when they were given *)

Section during.
Context {E : Type}.

(** From a clock of at least [a], the answer [x] of [m], given by the clock [b], has [Q b x]. *)
Definition during {A} (a : nat) (m : M E A) (Q : nat -> A -> Prop) : Prop :=
  forall s, (a <= xs_clock s)%nat -> (a <= xs_clock (snd (m s)))%nat /\ Q (xs_clock (snd (m s))) (fst (m s)).

Lemma during_ret {A} a (x : A) (Q : nat -> A -> Prop) : (forall b, (a <= b)%nat -> Q b x) -> during a (xret x) Q.
Proof. intros Hq s Ha. split; [done|by apply Hq]. Qed.
Lemma during_bind {A B} a (m : M E A) (k : A -> M E B) P Q :
  during a m P -> (forall x b, (a <= b)%nat -> P b x -> during b (k x) Q) -> during a (xbind m k) Q.
Proof.
  intros Hm Hk s Ha. unfold xbind. destruct (Hm s Ha) as [Hb Hp]. destruct (m s) as [x s']. cbn [fst snd] in *.
  destruct (Hk x (xs_clock s') Hb Hp s') as [Hc Hq]; [lia|]. split; [lia|done].
Qed.
Lemma during_answers {A} a (m : M E A) (P : A -> Prop) : rel quiet m -> answers m P -> during a m (fun _ => P).
Proof. intros Hr Ha s Hs. destruct (Hr s) as (_ & _ & Hl). unfold later in Hl. split; [lia|apply Ha]. Qed.
Lemma during_next {A B} a (m : M E A) (k : A -> M E B) (P : A -> Prop) Q : rel quiet m -> answers m P ->
  (forall x b, (a <= b)%nat -> P x -> during b (k x) Q) -> during a (xbind m k) Q.
Proof. intros Hr Ha Hk. eapply during_bind; [by apply during_answers|]. exact Hk. Qed.
Lemma during_ask {A B} a (f : nat -> A) (k : A -> M E B) Q :
  (forall n, (a <= n)%nat -> during (S n) (k (f n)) Q) -> during a (xbind (ask f) k) Q.
Proof.
  intros Hk s Ha. unfold xbind, ask. destruct (Hk (xs_clock s) Ha (tick s)) as [Hb Hq]; [cbn; lia|]. split; [lia|exact Hq].
Qed.
Lemma answers_any {A} (m : M E A) : answers m (fun _ => True).
Proof. by intros s. Qed.
End during.

(** ** Approvals and recovery *)

Section quiet.
Context `{Unicode} {W : World} {E : Type}.
Notation silently m := (rel (E:=E) quiet m).

Lemma get_group_reading gid : rel (E:=E) reading (get_group gid).
Proof. apply db_read_reading. Qed.
Lemma get_group_quiet gid : silently (get_group gid).
Proof. apply db_read_quiet. Qed.
#[local] Hint Resolve get_group_quiet : runs.

Lemma groupChanged_quiet g b : silently (groupChanged g b).
Proof. unfold groupChanged. run_steps. Qed.
Lemma rollback_quiet gid : silently (rollbackApproval gid).
Proof. unfold rollbackApproval. run_steps. Qed.
#[local] Hint Resolve groupChanged_quiet rollback_quiet : runs.
Lemma revert_quiet gid : silently (revertApproval gid).
Proof. unfold revertApproval. run_steps. Qed.
#[local] Hint Resolve revert_quiet : runs.

Lemma cancelQueued_quiet msg acts : silently (cancelQueued msg acts).
Proof. apply rel_for_each; [typeclasses eauto|]. intros a _. run_steps. Qed.
#[local] Hint Resolve cancelQueued_quiet : runs.
Lemma fail_running_quiet acts : silently (fail_running acts).
Proof. induction acts as [|a acts IH]; cbn [fail_running]; run_steps. Qed.
#[local] Hint Resolve fail_running_quiet : runs.
Lemma fail_group_quiet gid : silently (fail_group gid).
Proof. unfold fail_group. run_steps. Qed.
Lemma recover_quiet : silently recoverInterrupted.
Proof.
  unfold recoverInterrupted. run_steps. apply rel_for_each; [typeclasses eauto|]. intros; apply fail_group_quiet.
Qed.
End quiet.

(** ** What only asks *)

Section reading.
Context `{Unicode} `{Doublestar} `{RegexSyntax} {W : World} {D : Methods} {E : Type}.
Notation M := (M E).
Notation silently m := (rel (E:=E) reading m).

Lemma wait_or_leave_reading f p : silently (wait_or_leave f p).
Proof. unfold wait_or_leave. run_steps. Qed.
#[local] Hint Resolve wait_or_leave_reading : runs.

Section config.
Context (cf : config).

Lemma all_checks_reading {A} (f : A -> M check) l : (forall x, silently (f x)) -> silently (all_checks f l).
Proof. intros Hf. induction l as [|x l IH]; cbn [all_checks]; run_steps. Qed.
Lemma and_then_reading (a b : M check) : silently a -> silently b -> silently (and_then a b).
Proof. intros Ha Hb. unfold and_then. run_steps. Qed.
Lemma settle_reading ts c (next : M verdict) : silently next -> silently (settle ts c next).
Proof. intros Hn. unfold settle. run_steps. Qed.

Lemma crossKept_reading ls : silently (crossKept ls).
Proof. induction ls as [|e ls IH]; cbn [crossKept]; run_steps. Qed.
Lemma kept_by_groups_reading self keys l : silently (kept_by_groups self keys l).
Proof. induction l as [|[sid rks] l IH]; cbn [kept_by_groups]; run_steps. Qed.
#[local] Hint Resolve crossKept_reading kept_by_groups_reading : runs.
Lemma keptElsewhere_reading g ts : silently (keptElsewhere g ts).
Proof. unfold keptElsewhere. run_steps. Qed.

Lemma identity_reading sid : silently (serverIdentityProblem cf sid).
Proof. unfold serverIdentityProblem. run_steps. Qed.
Lemma gate_reading sid : silently (gate_check cf sid).
Proof. unfold gate_check. run_steps. Qed.
Lemma sessions_reading g sid : silently (sessions_check g sid).
Proof. unfold sessions_check. run_steps. Qed.
Lemma readOnlyRun_reading g : silently (readOnlyRunProblem cf g).
Proof. unfold readOnlyRunProblem. destruct (existsb _ _); [run_steps|]. apply all_checks_reading. apply gate_reading. Qed.
Lemma fetch_reading refs : silently (fetch_items refs).
Proof. induction refs as [|[sid rk] refs IH]; cbn [fetch_items]; run_steps. Qed.
Lemma arrFile_reading t vr choice : silently (arrFileProblem cf t vr choice).
Proof. unfold arrFileProblem. run_steps. Qed.
Lemma keeperArr_reading k : silently (keeperArrProblem cf k).
Proof. unfold keeperArrProblem. run_steps. Qed.
#[local] Hint Resolve fetch_reading arrFile_reading keptElsewhere_reading : runs.

(** *** Other servers *)

Lemma compare_reading a b : silently (compare_files a b).
Proof. intros s. unfold compare_files. cbn. split; [split_and!; [done|done|unfold later; cbn; lia]|apply rtc_refl]. Qed.
#[local] Hint Resolve compare_reading : runs.
Lemma otherIdentity_reading sid : silently (otherIdentity cf sid).
Proof. unfold otherIdentity, serverIdentityProblem. run_steps. Qed.
Lemma otherGate_reading sid : silently (otherGate cf sid).
Proof. unfold otherGate. run_steps. Qed.
#[local] Hint Resolve otherIdentity_reading otherGate_reading : runs.
Lemma section_reading rec locals sid sec : silently (section_check cf rec locals sid sec).
Proof. unfold section_check, listingChange. run_steps. Qed.
Lemma sectionsProblem_reading g ts : silently (sectionsProblem cf g ts).
Proof.
  unfold sectionsProblem. destruct (dg_cross_server _) as [rec|]; [|run_steps]. apply all_checks_reading. intros sid. unfold server_sections.
  destruct (_ && _); [run_steps|]. destruct (negb _); [run_steps|]. repeat (apply and_then_reading; [auto with runs|]).
  apply rel_bind; [typeclasses eauto|auto with runs|]. intros [secs|]; [|run_steps]. apply all_checks_reading. intros sec. apply section_reading.
Qed.
Lemma distinct_reading local losers : silently (all_distinct local losers).
Proof. induction losers as [|lp losers IH]; cbn [all_distinct]; run_steps. Qed.
#[local] Hint Resolve distinct_reading : runs.
Lemma parts_reading sid losers ps : silently (survivor_parts cf sid losers ps).
Proof. induction ps as [|p ps IH]; cbn [survivor_parts]; unfold survivor_part; run_steps. Qed.
#[local] Hint Resolve parts_reading : runs.
Lemma any_reading sid losers os : silently (any_survives cf sid losers os).
Proof. induction os as [|o os IH]; cbn [any_survives]; unfold survives; run_steps. Qed.
#[local] Hint Resolve any_reading : runs.
Lemma other_server_reading sid es : silently (other_server cf sid es).
Proof. unfold other_server, other_sessions. repeat (apply and_then_reading; [auto with runs|]). run_steps. Qed.
#[local] Hint Resolve other_server_reading : runs.
Lemma listings_reading all losers todo checked fresh : silently (check_listings cf all losers todo checked fresh).
Proof.
  revert checked fresh. induction todo as [|e todo IH]; intros checked fresh; cbn [check_listings]; unfold listingProblem, other_item; run_steps.
Qed.
Lemma otherServers_reading g ts vr : silently (otherServerProblem cf g ts vr).
Proof. apply and_then_reading; [apply sectionsProblem_reading|apply listings_reading]. Qed.
#[local] Hint Resolve otherServers_reading : runs.

Lemma choose_reading g all ts vr : silently (choose_methods cf g all ts vr).
Proof. induction ts as [|t ts IH]; cbn [choose_methods]; run_steps. Qed.
#[local] Hint Resolve choose_reading : runs.
Lemma assess_verified_reading g ts fresh : silently (assess_verified cf g ts fresh).
Proof.
  unfold assess_verified. run_steps. all: try (apply all_checks_reading; apply keeperArr_reading).
  apply settle_reading. run_steps.
Qed.
#[local] Hint Resolve assess_verified_reading : runs.
Lemma assess_live_reading g ts : silently (assess_live cf g ts).
Proof.
  unfold assess_live. destruct (negb _); [run_steps|]. apply rel_bind; [typeclasses eauto| |intros c].
  - apply and_then_reading; [apply all_checks_reading, identity_reading|]. apply and_then_reading.
    + destruct (readOnlyGroup g); [apply readOnlyRun_reading|run_steps].
    + apply all_checks_reading, sessions_reading.
  - apply settle_reading. run_steps.
Qed.
#[local] Hint Resolve assess_live_reading : runs.
(** Assessing a group removes nothing and leaves the run as it was. *)
Lemma assess_reading g qs : silently (assess cf g qs).
Proof. unfold assess. run_steps. Qed.
End config.
End reading.


Lemma assess_quiet `{Unicode} `{Doublestar} `{RegexSyntax} {W : World} {D : Methods} {E} cf g qs :
  rel (E:=E) quiet (assess cf g qs).
Proof. eapply rel_weaken; [apply reading_quiet|apply assess_reading]. Qed.

#[export] Hint Resolve get_group_reading get_group_quiet groupChanged_quiet rollback_quiet revert_quiet cancelQueued_quiet
  recover_quiet assess_reading assess_quiet : runs.
