(* ===== verification/ServerFacts.v ===== *)
(** * What the checks of other servers establish

    For the programs of crossserver.go (ExecAssess.v): when they let a group through, the
    libraries of every other server are as the scan recorded them, and every listing of a
    file to remove keeps another copy, proven to be a different file. *)

From S2P Require Import Prelude GoStd Models Paths Validate Store Pathmap ExecModel FileId ExecWorld ExecApprove ExecVerify ExecAssess ExecFacts.
Local Open Scope string_scope.
Local Open Scope Z_scope.

(** An answer of [Pass] establishes [P]. *)
Definition passes {E} (m : M E check) (P : Prop) : Prop := answers m (fun c => c = Pass -> P).

Section logic.
Context {E : Type}.
Implicit Types m : M E check.

Lemma passes_ret (c : check) (P : Prop) : (c = Pass -> P) -> passes (E:=E) (xret c) P.
Proof. intros Hc s. exact Hc. Qed.
Lemma passes_and m1 m2 P Q : passes m1 P -> passes m2 Q -> passes (and_then m1 m2) (P /\ Q).
Proof.
  intros H1 H2. eapply answers_bind; [exact H1|]. intros [| |f p] Hp; try by apply answers_ret.
  eapply answers_weaken; [exact H2|]. cbv beta. auto.
Qed.
Lemma passes_all {A} (f : A -> M E check) l (P : A -> Prop) : (forall x, x ∈ l -> passes (f x) (P x)) -> passes (all_checks f l) (Forall P l).
Proof.
  induction l as [|x l IH]; intros Hf; cbn [all_checks]; [by apply passes_ret|].
  eapply answers_bind; [apply Hf; left|]. intros [| |fl p] Hp; try by apply answers_ret.
  eapply answers_weaken; [apply IH; intros y Hy; apply Hf; by right|]. cbv beta. auto.
Qed.
Lemma passes_weaken m (P Q : Prop) : passes m P -> (P -> Q) -> passes m Q.
Proof. intros Hm Hw. eapply answers_weaken; [exact Hm|]. cbv beta. auto. Qed.
Lemma passes_ask {A} (f : nat -> A) (k : A -> M E check) P : (forall n, passes (k (f n)) P) -> passes (xbind (ask f) k) P.
Proof. intros Hk. apply answers_ask. exact Hk. Qed.
End logic.

Section facts.
Context `{Unicode} {W : World} (cf : config).

(** ** A server answers as itself *)

Definition identified (sid : Z) : Prop :=
  blank (ms_machine_identifier (cf_server cf sid)) = false /\ exists n id, w_identity n sid = Got id /\
    equal_fold (trim_space id) (trim_space (ms_machine_identifier (cf_server cf sid))) = true.
Definition trusted (sid : Z) : Prop :=
  ReadOnly (ms_kind (cf_server cf sid)) = true -> exists n, w_gate n sid = NotFound \/ w_gate n sid = Got None.

Lemma identity_passes {E} sid : passes (E:=E) (otherIdentity cf sid) (identified sid).
Proof.
  unfold otherIdentity. destruct (blank _) eqn:Hb; [by apply passes_ret|]. unfold serverIdentityProblem.
  unfold blank in Hb. rewrite Hb. apply passes_ask. intros n. apply passes_ret. unfold identity_check. rewrite Hb.
  destruct (w_identity n sid) as [| |id] eqn:Hid; try done. destruct (equal_fold _ _) eqn:He; [|done]. intros _. split; [exact Hb|]. by exists n, id.
Qed.
Lemma gate_passes {E} sid : passes (E:=E) (otherGate cf sid) (trusted sid).
Proof.
  unfold otherGate, trusted. destruct (ReadOnly _); cbn [negb]; [|by apply passes_ret].
  apply passes_ask. intros n. apply passes_ret. intros Hc _. exists n. destruct (w_gate n sid) as [| |[r|]]; auto; done.
Qed.

(** ** Its libraries are the recorded ones *)

Definition library_unchanged (sid : Z) (sec : LibrarySection) (lib : CrossServerLibrary) : Prop :=
  sameLocations (cl_locations lib) (se_locations sec) = true /\ se_refreshing sec = false /\ cl_refreshing lib = false /\
  (se_scanned_at sec <> 0 /\ se_content_changed_at sec <> 0 /\ se_scanned_at sec <= cl_scanned_at lib /\
     se_content_changed_at sec <= cl_content_changed_at lib \/
   cl_fingerprint lib <> "" /\ exists n mt refs, w_listing n sid (cl_section_key lib) mt = Got refs /\
     ListingFingerprint refs = cl_fingerprint lib).
(** A library of server [sid] cannot list the group's files unseen. *)
Definition section_safe (rec : CrossServerRecord) (locals : list string) (sid : Z) (sec : LibrarySection) : Prop :=
  (listed_type sec = false /\ se_other_video sec = false) \/
  (separateServer (cf_server cf sid) = true /\ localOverlap cf sid (se_locations sec) locals = false) \/
  (listed_type sec = true /\ exists lib, recorded_library rec sid sec = Some lib /\ library_unchanged sid sec lib).
Definition libraries_safe (g : xgroup) (ts : list target) (rec : CrossServerRecord) (sid : Z) : Prop :=
  (separateServer (cf_server cf sid) = true /\ serverHasMapping cf sid = false) \/
  (identified sid /\ trusted sid /\ exists n secs, w_sections n sid = Some secs /\
     Forall (section_safe rec (target_locals cf g ts) sid) secs).

(** Listings with the same rows in any order have one fingerprint. *)
Lemma fingerprint_order refs refs' : refs ≡ₚ refs' -> ListingFingerprint refs = ListingFingerprint refs'.
Proof.
  intros Hp. unfold ListingFingerprint. rewrite (sort_strings_Permutation _ (flat_map item_lines refs')); [done|].
  by apply Permutation_flat_map.
Qed.

Lemma section_passes {E} rec locals sid sec : passes (E:=E) (section_check cf rec locals sid sec) (section_safe rec locals sid sec).
Proof.
  unfold section_check, section_safe. destruct (listed_type sec) eqn:Ht, (se_other_video sec) eqn:Ho; cbn [negb andb];
    try (by apply passes_ret; auto); (destruct (separateServer _) eqn:Hs, (localOverlap _ _ _ _) eqn:Hl; cbn [negb andb]); try (by apply passes_ret; auto).
  all: destruct (recorded_library rec sid sec) as [lib|] eqn:Hr; [|by apply passes_ret].
  all: apply (passes_weaken _ (library_unchanged sid sec lib)); [|by eauto 10].
  all: unfold library_unchanged; destruct (sameLocations _ _); [|by apply passes_ret]; cbn [negb];
    destruct (se_refreshing sec); [by apply passes_ret|]; destruct (cl_refreshing lib); [by apply passes_ret|]; cbn [orb].
  all: destruct (Z.eqb_spec (se_scanned_at sec) 0), (Z.eqb_spec (se_content_changed_at sec) 0); cbn [orb];
    try (destruct (Z.ltb_spec (cl_scanned_at lib) (se_scanned_at sec)), (Z.ltb_spec (cl_content_changed_at lib) (se_content_changed_at sec));
         apply passes_ret; try done; intros _; split_and!; try done; left; by split_and!).
  all: unfold listingChange; destruct (String.eqb_spec (cl_fingerprint lib) ""); [by apply answers_next; intros [| |]; apply answers_ret|].
  all: set (mt := if equal_fold _ _ then _ else _); apply (answers_bind _ _ (fun c => c = Pass -> exists n refs,
    w_listing n sid (cl_section_key lib) mt = Got refs /\ ListingFingerprint refs = cl_fingerprint lib)).
  all: try (apply passes_ask; intros n1; apply passes_ret; destruct (w_listing n1 sid (cl_section_key lib) mt) as [| |refs] eqn:Hl'; try done;
    destruct (String.eqb_spec (ListingFingerprint refs) (cl_fingerprint lib)); [|done]; intros _; by exists n1, refs).
  all: intros [| |f p] Hp; apply answers_ret; try done; intros _; destruct (Hp eq_refl) as (n1 & refs & Hl1 & Hf1);
    split_and!; try done; right; split; [done|]; by exists n1, mt, refs.
Qed.

Lemma sections_pass {E} g ts : passes (E:=E) (sectionsProblem cf g ts) (exists rec, dg_cross_server (xg_group g) = Some rec /\
  forall sid, sid ∈ enabledServerIDs cf -> sid <> dg_server_id (xg_group g) -> libraries_safe g ts rec sid).
Proof.
  unfold sectionsProblem. destruct (dg_cross_server _) as [rec|]; [|by apply passes_ret].
  eapply passes_weaken; [apply (passes_all _ _ (libraries_safe g ts rec))|].
  - intros sid _. unfold server_sections, libraries_safe. destruct (separateServer _) eqn:Hs, (serverHasMapping _ _) eqn:Hm; cbn [negb andb];
      try (by apply passes_ret; auto); destruct (negb (serverClient cf sid)); try (by apply passes_ret).
    all: eapply passes_weaken; [apply passes_and; [apply identity_passes|apply passes_and; [apply gate_passes|]]|].
    all: try (apply (passes_ask _ _ (exists n secs, w_sections n sid = Some secs /\ Forall (section_safe rec (target_locals cf g ts) sid) secs));
      intros n; destruct (w_sections n sid) as [secs|] eqn:Hsec; [|by apply passes_ret];
      eapply passes_weaken; [apply passes_all; intros sec _; apply section_passes|]; intros Hall; by exists n, secs).
    all: intros (Hi & Hg & Hx); right; by split_and!.
  - intros Hall. exists rec. split; [done|]. intros sid Hin Hne. rewrite Forall_forall in Hall. apply Hall. apply elem_of_lfilter. split; [done|].
    by apply negb_true_iff, Z.eqb_neq.
Qed.

(** ** Its listings keep a copy *)

(** The run compared the two files, and they were different. *)
Definition compared_distinct (a b : string) : Prop := exists n hs p, used hs p /\ fst (Compare (w_ids n) a b p) = Distinct.
(** A part of a remaining version: on disk as its server reports it, and no file to remove. *)
Definition part_survives (sid : Z) (losers : list verifiedPart) (p : MediaPart) : Prop :=
  mp_exists p <> Some false /\ mp_accessible p <> Some false /\ exists local n fi,
    ToLocal (cf_mapper cf) PathSourceServer sid (mp_path p) = Some local /\ fv_stat (w_fs n) local = Some fi /\
    fi_regular fi = true /\ fi_size fi = mp_size p /\ Forall (fun lp => compared_distinct local (vp_local lp)) losers.
Definition keeps_another (srv : MediaServer) (losers : list verifiedPart) (e : OtherListing) (it : MediaItem) : Prop :=
  still_listed srv e it = true /\ losers <> [] /\ exists o, o ∈ it_versions it /\ may_survive srv e o = true /\
    Forall (part_survives (ol_server_id e) losers) (mv_parts o).
(** Nothing of [es] is played on the server, which is the one it was. *)
Definition idle (sid : Z) (es : list OtherListing) : Prop :=
  identified sid /\ trusted sid /\ exists n ids, w_sessions n sid = Got ids /\
    forall e k, e ∈ es -> ol_server_id e = sid -> k ∈ listingPlayingIDs e -> k ∉ ids.
Definition fetched_ok (fresh : fetched) : Prop := forall ref it, (ref, it) ∈ fresh -> exists n, w_item n (fst ref) (snd ref) = Got it.
(** A listing by a server that is still enabled. *)
Definition listing_kept (all : list OtherListing) (losers : list verifiedPart) (e : OtherListing) : Prop :=
  forall srv, cf_servers cf !! ol_server_id e = Some srv -> ms_enabled srv = true -> idle (ol_server_id e) all /\
    exists n it, w_item n (ol_server_id e) (trim_space (ol_rating_key e)) = Got it /\ keeps_another srv losers e it.

Lemma all_distinct_spec {E} local losers :
  answers (E:=E) (all_distinct local losers) (fun ok => ok = true -> Forall (fun lp => compared_distinct local (vp_local lp)) losers).
Proof.
  induction losers as [|lp losers IH]; cbn [all_distinct]; [by apply answers_ret|]. destruct (String.eqb (vp_local lp) ""); [by apply answers_ret|].
  apply (answers_bind _ _ (fun v => v = Distinct -> compared_distinct local (vp_local lp))).
  - intros s. unfold compare_files, CompareFiles. cbn [fst]. intros Hd. destruct (pb_used (xs_ids s)) as [hs Hu]. by exists (xs_clock s), hs, (xs_ids s).
  - intros [| |] Hv; try by apply answers_ret. eapply answers_weaken; [exact IH|]. cbv beta. auto.
Qed.
Lemma survivor_part_spec {E} sid losers p :
  answers (E:=E) (survivor_part cf sid losers p) (fun ok => ok = true -> part_survives sid losers p).
Proof.
  unfold survivor_part, part_survives. destruct (bool_decide _) eqn:H1; [by apply answers_ret|]. destruct (bool_decide (mp_accessible p = _)) eqn:H2; [by apply answers_ret|].
  apply bool_decide_eq_false_1 in H1, H2. cbn [orb]. destruct (ToLocal _ _ _ _) as [local|]; [|by apply answers_ret].
  apply (answers_ask (fun n => fv_stat (w_fs n) local)). intros n. destruct (fv_stat (w_fs n) local) as [fi|] eqn:Hfi; [|by apply answers_ret].
  destruct (fi_regular fi) eqn:Hr; [|by apply answers_ret]. destruct (Z.eqb_spec (fi_size fi) (mp_size p)); [|by apply answers_ret]. cbn [negb orb].
  eapply answers_weaken; [apply all_distinct_spec|]. cbv beta. intros ok Hok Ht. split_and!; [done|done|]. exists local, n, fi. split_and!; auto.
Qed.
Lemma survivor_parts_spec {E} sid losers ps :
  answers (E:=E) (survivor_parts cf sid losers ps) (fun ok => ok = true -> Forall (part_survives sid losers) ps).
Proof.
  induction ps as [|p ps IH]; cbn [survivor_parts]; [by apply answers_ret|].
  eapply answers_bind; [apply survivor_part_spec|]. intros [] Hp; [|by apply answers_ret].
  eapply answers_weaken; [exact IH|]. cbv beta. auto.
Qed.
Lemma any_survives_passes {E} sid losers os : passes (E:=E) (any_survives cf sid losers os)
  (losers <> [] /\ exists o, o ∈ os /\ Forall (part_survives sid losers) (mv_parts o)).
Proof.
  induction os as [|o os IH]; cbn [any_survives]; [by apply passes_ret|].
  apply (answers_bind _ _ (fun ok => ok = true -> losers <> [] /\ Forall (part_survives sid losers) (mv_parts o))).
  - unfold survives. destruct losers as [|l losers']; [by apply answers_ret|]. eapply answers_weaken; [apply survivor_parts_spec|]. cbv beta. auto.
  - intros [] Ho; [apply passes_ret; intros _; destruct (Ho eq_refl); split; [done|]; exists o; split; [left|done]|].
    eapply passes_weaken; [exact IH|]. intros (Hl & o' & Hin & Hs). split; [done|]. exists o'. split; [by right|done].
Qed.
Lemma listing_passes {E} srv losers e it : passes (E:=E) (listingProblem cf srv losers e it) (keeps_another srv losers e it).
Proof.
  unfold listingProblem, keeps_another. destruct (still_listed srv e it); [|by apply passes_ret]. cbn [negb].
  eapply passes_weaken; [apply any_survives_passes|]. intros (Hl & o & [Hin Hm]%elem_of_lfilter & Hs). split_and!; try done. by exists o.
Qed.
Lemma other_server_passes {E} sid es : passes (E:=E) (other_server cf sid es) (idle sid es).
Proof.
  unfold other_server, idle. apply passes_and; [apply identity_passes|]. apply passes_and; [apply gate_passes|].
  unfold other_sessions. apply passes_ask. intros n. apply passes_ret. destruct (w_sessions n sid) as [| |ids] eqn:Hs; try done.
  destruct (existsb _ _) eqn:Hx; [done|]. intros _. exists n, ids. split; [done|]. intros e k He Hsid Hk Hin.
  apply not_true_iff_false in Hx. apply Hx, existsb_elem. exists k. split; [|by apply mem_true].
  unfold listed_ids. apply list_elem_of_In, in_flat_map. exists e. split; [|by apply list_elem_of_In].
  apply filter_In. split; [by apply list_elem_of_In|by apply Z.eqb_eq].
Qed.
Lemma other_item_spec {E} ref fresh : fetched_ok fresh ->
  answers (E:=E) (other_item ref fresh) (fun a => forall it, a = Got it -> exists n, w_item n (fst ref) (snd ref) = Got it).
Proof.
  intros Hf. unfold other_item, find_fetched. destruct (find _ fresh) as [[r0 it0]|] eqn:Hfi; cbn [fmap option_fmap option_map].
  - apply answers_ret. intros it [= <-]. apply find_some in Hfi as [Hin He]. cbn [fst snd] in *.
    apply andb_true_iff in He as [He1%Z.eqb_eq He2%String.eqb_eq]. destruct (Hf r0 it0) as [n Hn]; [by apply list_elem_of_In|]. exists n. by rewrite <- He1, <- He2.
  - intros s it. cbn. by eexists.
Qed.
Lemma listings_pass {E} all losers todo checked fresh : fetched_ok fresh -> (forall sid, sid ∈ checked -> idle sid all) ->
  passes (E:=E) (check_listings cf all losers todo checked fresh) (Forall (listing_kept all losers) todo).
Proof.
  revert checked fresh. induction todo as [|e todo IH]; intros checked fresh Hf Hc; cbn [check_listings]; [by apply passes_ret|].
  destruct (cf_servers cf !! ol_server_id e) as [srv|] eqn:Hs.
  2:{ eapply passes_weaken; [by apply IH|]. intros Ht. constructor; [intros srv; congruence|done]. }
  destruct (ms_enabled srv) eqn:Hen; cbn [negb].
  2:{ eapply passes_weaken; [by apply IH|]. intros Ht. constructor; [intros srv'; congruence|done]. }
  destruct (negb (serverClient _ _)); [by apply passes_ret|].
  apply (answers_bind _ _ (fun c => c = Pass -> idle (ol_server_id e) all)).
  { destruct (mem _ checked) eqn:Hm; [apply passes_ret; intros _; by apply Hc, mem_true|apply other_server_passes]. }
  intros [| |f p] Hi; try by apply answers_ret. specialize (Hi eq_refl).
  eapply answers_bind; [by apply other_item_spec|]. intros [| |it] Hit; try by apply answers_ret. destruct (Hit it eq_refl) as [n Hn].
  eapply answers_bind; [apply listing_passes|]. intros [| |f p] Hk; try by apply answers_ret. specialize (Hk eq_refl).
  eapply passes_weaken; [apply IH|].
  - intros ref it' [[= -> ->]|Hin]%elem_of_cons; [by exists n|by apply Hf].
  - intros sid [->|Hin]%elem_of_cons; [done|by apply Hc].
  - intros Ht. constructor; [|done]. intros srv' Hs' _. replace srv' with srv by congruence. split; [done|]. by exists n, it.
Qed.

(** What the checks of the other servers establish for a group. *)
Definition others_keep (g : xgroup) (ts : list target) (vr : verification) : Prop :=
  (exists rec, dg_cross_server (xg_group g) = Some rec /\
     forall sid, sid ∈ enabledServerIDs cf -> sid <> dg_server_id (xg_group g) -> libraries_safe g ts rec sid) /\
  Forall (listing_kept (listings_of ts) (loser_parts ts vr)) (listings_of ts).
Lemma others_pass {E} g ts vr : passes (E:=E) (otherServerProblem cf g ts vr) (others_keep g ts vr).
Proof.
  apply passes_and; [apply sections_pass|]. apply listings_pass; [by intros ref it ?%elem_of_nil|by intros sid ?%elem_of_nil].
Qed.
End facts.
