(* ===== verification/ExecInv.v ===== *)
(** * What holds throughout a queue run

    The invariants of a run: [paced] (every removal of the trace was allowed to
    start), [counted] (the counters of the run agree with the trace) and
    [events_ok] (every removal carried out was justified: what [assess] established
    for its group, and its row in the database when it started). *)

From S2P Require Import Prelude GoStd Models Paths Validate Store StoreFacts Pathmap ExecModel ExecWorld ExecApprove ExecVerify ExecAssess ExecRun ExecFacts ServerFacts.
Local Open Scope string_scope.
Local Open Scope Z_scope.

(** ** Reading a trace *)

(** A trace is newest first. *)
Definition event_target (e : event) : target := match e with Simulated t => t | Performed p => pf_target p end.
Definition event_size (e : event) : Z := ac_size (tg_action (event_target e)).
Inductive effect := EDone | EFailed | EStale.
Definition event_effect (e : event) : effect :=
  match e with
  | Simulated _ => EDone
  | Performed p => match pf_result p with PDone _ _ => EDone | PFailed _ _ => EFailed | PStale _ => EStale end
  end.

(** The bytes removed so far, as the run adds them up. *)
Fixpoint bytes_of (tr : list event) : Z :=
  match tr with
  | [] => 0
  | e :: older => match event_effect e with EDone => wrap64 (bytes_of older + event_size e) | _ => bytes_of older end
  end.
(** The failures since the last removal that succeeded. *)
Fixpoint failures_in_row (tr : list event) : Z :=
  match tr with
  | [] => 0
  | e :: older =>
    match event_effect e with EDone => 0 | EFailed => failures_in_row older + 1 | EStale => failures_in_row older end
  end.

Section inv.
Context `{Unicode} `{Doublestar} `{RegexSyntax} {W : World} {D : Methods} (cf : config).
(** When the run started. *)
Context (start : nat).
Notation M := (M event).
Notation state := (xstate event).

(** A removal of [size] bytes may start after [older]. *)
Definition may_follow (older : list event) (size : Z) : Prop :=
  Z.of_nat (length older) < maxCount cf /\ bytes_of older < maxBytes cf /\
  (0 < bytes_of older -> wrap64 (bytes_of older + size) <= maxBytes cf) /\
  failures_in_row older < maxConsecutiveFailures.
Fixpoint paced (tr : list event) : Prop :=
  match tr with [] => True | e :: older => may_follow older (event_size e) /\ paced older end.

(** [late]: failures of the trace the run has yet to note. *)
Definition counted (late : Z) (r : run_state) (tr : list event) : Prop :=
  rn_attempts r = Z.of_nat (length tr) /\ rn_bytes r = bytes_of tr /\ failures_in_row tr <= rn_consecutive r + late /\
  (maxConsecutiveFailures <= rn_consecutive r -> is_Some (rn_aborted r)).

(** The items were read from the clock [lo] on, before [hi]. *)
Definition fetched_during (lo hi : nat) (fresh : items) : Prop := forall ref it, (ref, it) ∈ fresh ->
  exists n, (lo <= n < hi)%nat /\ w_item n (fst ref) (snd ref) = match it with Some it => Got it | None => NotFound end.
(** What an assessment that let a group through has established, from the clock [since] on
    and before [until]. *)
Definition cleared (since until : nat) (g : xgroup) (qs : list queued) (ts : list target) (vr : verification) : Prop :=
  notAllowedNow cf g qs = false /\ crossServerRecordProblem cf g = false /\ stored_problems cf g qs = false /\
  ts = untracked_first (targets_of qs) /\
  (exists n fresh, fetched_during since n fresh /\ (since <= n < until)%nat /\ vr = verify cf (observe W n) g ts fresh) /\
  vr_problem vr = None /\ vr_wait vr = false /\ (multiServer cf = true -> others_keep cf g ts vr).

(** The row of a removal in the database right before it was started. *)
Definition was_queued (before : store) (a : Action) : Prop :=
  exists old, sd_actions before !! ac_id a = Some old /\ isQueuedStatus (ac_status old) = true /\
    (ac_status old = ActionPending -> action_removable before a = true).

(** The method of a removal is the one selected for it. *)
Definition chosen (g : xgroup) (vr : verification) (tc : target * methodChoice) : Prop :=
  exists n, md_select n cf g (fst tc) vr = Some (snd tc).

Record justified (p : performed) : Prop := {
  ju_since : (start <= pf_since p)%nat;
  ju_cleared : exists actions, cleared (pf_since p) (pf_clock p) (pf_group p) (queued_of (pf_group p) actions) (pf_targets p) (pf_verification p);
  ju_target : pf_target p ∈ pf_targets p;
  ju_dry : pf_dry_run p = false /\ ac_dry_run (tg_action (pf_target p)) = false;
  ju_queued : was_queued (pf_before p) (tg_action (pf_target p));
  ju_status : dg_status (xg_group (pf_group p)) = GroupQueued;
  ju_chosen : chosen (pf_group p) (pf_verification p) (pf_target p, pf_choice p);
  ju_result : pf_result p = md_perform (pf_clock p) (pf_target p) (pf_choice p) (pf_verification p);
}.
Definition events_ok (tr : list event) : Prop := forall p, Performed p ∈ tr -> justified p.

(** A run that began as a dry run stays one, and carries nothing out. *)
Definition dry_ok (r : run_state) (tr : list event) : Prop :=
  st_dry_run (cf_settings cf) = true -> rn_dry_run r = true /\ forall p, Performed p ∉ tr.

Definition good_but (late : Z) (s : state) : Prop :=
  paced (xs_trace s) /\ counted late (xs_run s) (xs_trace s) /\ events_ok (xs_trace s) /\ dry_ok (xs_run s) (xs_trace s).

Definition good : state -> Prop := good_but 0.

(** ** Steps that start no removal *)

(** [calm]: the counters the limits read are the same, failures may be added. *)
Definition calm (s s' : state) : Prop :=
  let r := xs_run s in
  let r' := xs_run s' in
  later s s' /\ xs_trace s' = xs_trace s /\ rn_attempts r' = rn_attempts r /\ rn_bytes r' = rn_bytes r /\
  rn_consecutive r <= rn_consecutive r' /\ (is_Some (rn_aborted r) -> is_Some (rn_aborted r')) /\
  (maxConsecutiveFailures <= rn_consecutive r' -> rn_consecutive r' = rn_consecutive r \/ is_Some (rn_aborted r')) /\
  (rn_dry_run r = true -> rn_dry_run r' = true).

#[export] Instance calm_preorder : PreOrder calm.
Proof.
  unfold calm, later. split; [intros s; repeat split; auto; lia|].
  intros s1 s2 s3 (L & T & A & B & C & Ab & F & Dr) (L' & T' & A' & B' & C' & Ab' & F' & Dr').
  split_and!; try congruence; try lia; auto.
  intros Hm. destruct (F' Hm) as [He|Hs]; [|by right].
  rewrite He in Hm. destruct (F Hm) as [He'|Hs]; [left; congruence|right; auto].
Qed.

Lemma quiet_calm {A} (m : M A) : rel quiet m -> rel calm m.
Proof. apply rel_weaken. intros s s' (Hr & Ht & Hl). unfold calm. rewrite Hr, Ht. split; [exact Hl|]. repeat split; auto; lia. Qed.

Lemma calm_later {A} (m : M A) : rel calm m -> rel later m.
Proof. apply rel_weaken. by intros s s' [Hl _]. Qed.

Lemma calm_good late s s' : calm s s' -> good_but late s -> good_but late s'.
Proof.
  intros (_ & T & A & B & C & Ab & F & Dr) (Hp & (Ca & Cb & Cf & Cx) & He & Hd).
  unfold good_but, counted, dry_ok. rewrite T. split_and!; auto; try congruence; try lia.
  - intros Hm. destruct (F Hm) as [Hc|Hs]; [|done]. apply Ab, Cx. by rewrite <- Hc.
  - intros Hs. destruct (Hd Hs) as [H1' H2']. auto.
Qed.

Lemma modify_calm f : (forall r, rn_attempts (f r) = rn_attempts r /\ rn_bytes (f r) = rn_bytes r /\
  rn_consecutive r <= rn_consecutive (f r) /\ (is_Some (rn_aborted r) -> is_Some (rn_aborted (f r))) /\
  (maxConsecutiveFailures <= rn_consecutive (f r) -> rn_consecutive (f r) = rn_consecutive r \/ is_Some (rn_aborted (f r))) /\
  (rn_dry_run r = true -> rn_dry_run (f r) = true)) -> rel calm (modify_run f).
Proof. intros Hf s. split; [apply modify_later|]. split; [done|apply Hf]. Qed.

Ltac calm_step := apply modify_calm; intros r; cbn; split_and!; auto; lia.
Lemma summary_calm f : rel calm (modify_run (with_summary f)).
Proof. calm_step. Qed.
Lemma stopped_calm why : rel calm (modify_run (set_stopped why)).
Proof. calm_step. Qed.
Lemma dry_calm : rel calm (modify_run set_dry).
Proof. calm_step. Qed.
Lemma kept_calm keys : rel calm (modify_run (keep_in_run keys)).
Proof. calm_step. Qed.
Lemma aborted_calm why : rel calm (modify_run (set_aborted why)).
Proof.
  apply modify_calm. intros r. unfold set_aborted. destruct (rn_aborted r) eqn:Ha; cbn; rewrite ?Ha; split_and!; auto; lia.
Qed.
Lemma failure_calm : rel calm (modify_run note_failure).
Proof.
  apply modify_calm. intros r. unfold note_failure. cbn.
  destruct (Z.leb_spec maxConsecutiveFailures (rn_consecutive r + 1)); cbn.
  - unfold set_aborted. cbn. destruct (rn_aborted r) eqn:Ha; cbn; rewrite ?Ha; split_and!; auto; lia.
  - split_and!; auto; lia.
Qed.

#[local] Hint Resolve summary_calm stopped_calm dry_calm kept_calm aborted_calm failure_calm quiet_calm : runs.

Lemma finish_calm status a : rel calm (finishAction status a).
Proof. unfold finishAction. run_steps. Qed.
Lemma status_quiet gid status : rel (E:=event) quiet (setRunStatus gid status).
Proof. unfold setRunStatus. run_steps. Qed.
Lemma playing_quiet gid on : rel (E:=event) quiet (setPlaying gid on).
Proof. unfold setPlaying. run_steps. Qed.
#[local] Hint Resolve finish_calm status_quiet playing_quiet : runs.
Lemma finalize_quiet g stamps : rel (E:=event) quiet (finalizeGroup g stamps).
Proof. unfold finalizeGroup. run_steps. Qed.
#[local] Hint Resolve finalize_quiet : runs.

Lemma skip_calm gid acts : rel calm (skipGroup gid acts).
Proof.
  unfold skipGroup. apply rel_bind; [typeclasses eauto| |intros _; run_steps].
  apply rel_for_each; [typeclasses eauto|]. intros a _. run_steps.
Qed.
Lemma defer_calm gid f p : rel calm (deferGroup gid f p).
Proof. unfold deferGroup. run_steps. Qed.
Lemma refuse_calm g ts bad stamps : rel calm (refuseGroup g ts bad stamps).
Proof. unfold refuseGroup. run_steps. Qed.
Lemma reread_calm a : rel calm (reread_settings a).
Proof. unfold reread_settings. run_steps. Qed.
Lemma budget_calm size : rel calm (budgetAllows cf size).
Proof. unfold budgetAllows. run_steps. Qed.
#[local] Hint Resolve budget_calm : runs.
Lemma may_start_calm size : rel calm (may_start cf size).
Proof. unfold may_start, halted. run_steps. Qed.
Lemma after_removals_calm vr done : rel calm (after_removals vr done).
Proof.
  unfold after_removals. destruct (List.filter _ _) as [|s l]; [run_steps|].
  apply rel_bind; [typeclasses eauto| |intros _; run_steps].
  apply rel_for_each; [typeclasses eauto|]. intros x _. apply rel_bind; [typeclasses eauto|run_steps|].
  intros notes. apply rel_for_each; [typeclasses eauto|]. intros note _. unfold appendNote. run_steps.
Qed.
#[local] Hint Resolve skip_calm defer_calm refuse_calm reread_calm may_start_calm after_removals_calm : runs.

(** A removal may start: nothing was stopped, and it is within the limits. *)
Definition allowed (size : Z) (s : state) : Prop :=
  rn_aborted (xs_run s) = None /\ over_budget cf size (xs_run s) = None.

Lemma may_start_allowed size s : fst (may_start cf size s) = true -> allowed size (snd (may_start cf size s)).
Proof.
  unfold may_start, halted, budgetAllows, xbind, ask, get_run, modify_run, xret, allowed. cbn.
  destruct (w_cancelled _); [done|]. cbn [orb].
  destruct (rn_aborted (xs_run s)) eqn:Ha; [by rewrite (bool_decide_eq_true_2 (is_Some (Some _))); cbn|].
  rewrite (bool_decide_eq_false_2 (is_Some None)) by (intros [? [=]]).
  destruct (rn_stopped (xs_run s)) eqn:Hs; [by rewrite (bool_decide_eq_true_2 (is_Some (Some _))); cbn|].
  rewrite (bool_decide_eq_false_2 (is_Some None)) by (intros [? [=]]). cbn.
  destruct (over_budget cf size (xs_run s)) eqn:Hb; cbn; [done|]. auto.
Qed.

Lemma allowed_may_follow size s : good s -> allowed size s -> may_follow (xs_trace s) size.
Proof.
  intros (_ & (Ca & Cb & Cf & Cx) & _ & _) [Hab Hob]. unfold over_budget in Hob.
  rewrite Ca, Cb in Hob. destruct (rn_stopped _); [done|].
  destruct (_ || _) eqn:E0 in Hob; [done|]. destruct (Z.leb_spec (maxCount cf) (Z.of_nat (length (xs_trace s)))); [done|].
  destruct (_ || _) eqn:E1 in Hob; [done|]. apply orb_false_iff in E1 as [E1 E2].
  apply Z.leb_gt in E1. unfold may_follow. split_and!; [done|done| |].
  - intros Hp. apply Z.ltb_lt in Hp. rewrite Hp in E2. cbn in E2. apply Z.ltb_ge in E2. lia.
  - destruct (Z.lt_ge_cases (failures_in_row (xs_trace s)) maxConsecutiveFailures) as [|Hge]; [done|].
    assert (Hm : maxConsecutiveFailures <= rn_consecutive (xs_run s)) by lia.
    apply Cx in Hm as [? ?]. congruence.
Qed.

Lemma cleared_until since a b g qs ts vr : (a <= b)%nat -> cleared since a g qs ts vr -> cleared since b g qs ts vr.
Proof. intros Hab (H1' & H2' & H3' & H4' & (n & fresh & Hf & Hn & Hv) & Hrest). split_and!; try done; [exists n, fresh; split_and!; [done|lia|lia|done]|apply Hrest..]. Qed.

(** ** One removal *)

(** Ready to add an event of [size] bytes: the attempt is counted. *)
Definition ready (size : Z) (s : state) : Prop :=
  paced (xs_trace s) /\ may_follow (xs_trace s) size /\
  counted 0 (xs_run s) (xs_trace s) /\ events_ok (xs_trace s) /\ dry_ok (xs_run s) (xs_trace s).

Lemma allowed_ready size s : good s -> allowed size s -> ready size s.
Proof. intros Hg Ha. pose proof (allowed_may_follow _ _ Hg Ha). destruct Hg as (? & ? & ? & ?). by split_and!. Qed.

Lemma calm_ready size s s' : calm s s' -> ready size s -> ready size s'.
Proof.
  intros Hc (Hp & Hm & Hr). assert (Hg : good_but 0 s) by (split; tauto).
  destruct (calm_good _ _ _ Hc Hg) as (Hp' & Hr'). destruct Hc as (_ & Ht & _). split; [done|]. split; [by rewrite Ht|done].
Qed.

(** The trace and the run after the event [e], the attempt counted. *)
Definition after_event (e : event) (f : run_state -> run_state) (s s' : state) : Prop :=
  xs_trace s' = e :: xs_trace s /\ xs_run s' = f (count_attempt (xs_run s)).

Lemma events_ok_cons e tr : (forall p, e = Performed p -> justified p) -> events_ok tr -> events_ok (e :: tr).
Proof. intros He Ht p. rewrite elem_of_cons. intros [<-|Hp]; [by apply He|by apply Ht]. Qed.

Lemma dry_ok_cons e r r' tr : (rn_dry_run r = true -> rn_dry_run r' = true /\ forall p, e <> Performed p) ->
  dry_ok r tr -> dry_ok r' (e :: tr).
Proof.
  intros He Hd Hs. destruct (Hd Hs) as [Hr Hn]. destruct (He Hr) as [Hr' Hne]. split; [done|].
  intros p. rewrite elem_of_cons. intros [<-|Hp]; [by eapply Hne|by eapply Hn].
Qed.

Lemma done_good e freed s s' :
  after_event e (count_done (event_size e) freed) s s' -> event_effect e = EDone -> ready (event_size e) s ->
  (forall p, e = Performed p -> justified p) -> (rn_dry_run (xs_run s) = true -> forall p, e <> Performed p) -> good s'.
Proof.
  intros [Ht Hr] Heff (Hp & Hm & (Ca & Cb & Cf & Cx) & Hev & Hd) Hj Hdry. unfold good, good_but. rewrite Ht, Hr.
  split_and!; [by split| |by apply events_ok_cons|].
  - unfold counted. cbn -[wrap64 Z.of_nat length]. rewrite Heff, Ca, Cb, length_cons.
    unfold maxConsecutiveFailures. split_and!; auto; lia.
  - revert Hd. apply dry_ok_cons. intros Hx. split; [done|by apply Hdry].
Qed.

Lemma other_good e f late s s' : after_event e f s s' -> event_effect e = match late with true => EFailed | false => EStale end ->
  f = id -> ready (event_size e) s ->
  (forall p, e = Performed p -> justified p) -> (rn_dry_run (xs_run s) = true -> forall p, e <> Performed p) ->
  good_but (if late then 1 else 0) s'.
Proof.
  intros [Ht Hr] Heff -> (Hp & Hm & (Ca & Cb & Cf & Cx) & Hev & Hd) Hj Hdry. unfold good_but. rewrite Ht, Hr.
  split_and!; [by split| |by apply events_ok_cons|].
  - unfold counted, id. cbn -[wrap64 Z.of_nat length]. rewrite Heff, Ca, Cb, length_cons.
    destruct late; split_and!; auto; lia.
  - revert Hd. apply dry_ok_cons. intros Hx. split; [done|by apply Hdry].
Qed.

Lemma failure_good s : good_but 1 s -> good (snd (modify_run note_failure s)).
Proof.
  intros Hg. pose proof (calm_good _ _ _ (failure_calm s) Hg) as (Hp & (Ca & Cb & Cf & Cx) & He & Hd).
  split_and!; try done. destruct Hg as (_ & (_ & _ & Cf0 & _) & _). split_and!; try done.
  revert Cf0. cbn. unfold note_failure. destruct (_ <=? _); cbn; [unfold set_aborted; cbn; destruct (rn_aborted (xs_run s))|]; cbn; lia.
Qed.

(** A state whose run has counted the attempt of a ready one. *)
Definition attempted (s s' : state) : Prop := xs_trace s' = xs_trace s /\ xs_run s' = count_attempt (xs_run s).

Lemma simulate_good t a choice s s1 : ac_size a = ac_size (tg_action t) -> ready (ac_size (tg_action t)) s ->
  attempted s s1 -> good (snd (simulate t a choice s1)).
Proof.
  intros Hsz Hr [Ht Hrun]. unfold simulate, xbind, emit, modify_run. cbn [xs_store xs_clock xs_run xs_trace]. rewrite Hsz.
  match goal with |- context [finishAction ActionDryRun a ?s1] => pose proof (finish_calm ActionDryRun a s1) as Hc;
    assert (Hg : good s1); [|destruct (finishAction ActionDryRun a s1) as [a' s2]] end.
  - eapply (done_good (Simulated t)); [|done|exact Hr|by intros p|by intros _ p].
    split; cbn [xs_trace xs_run]; [by rewrite Ht|by rewrite Hrun].
  - cbn in *. by eapply calm_good.
Qed.

(** The calm steps before a continuation keep what is good. *)
Lemma bind_good late late' {A B} (m : M A) (k : A -> M B) s : rel calm m -> good_but late s ->
  (forall x s', good_but late s' -> good_but late' (snd (k x s'))) -> good_but late' (snd (xbind m k s)).
Proof.
  intros Hm Hg Hk. unfold xbind. pose proof (Hm s) as Hc. destruct (m s) as [x s']. apply Hk. by eapply calm_good.
Qed.

Lemma really_remove_good since g ts t vr a choice before s s1 :
  (forall dry, dry = rn_dry_run (xs_run s) -> justified {| pf_since := since; pf_clock := xs_clock s1; pf_group := g; pf_targets := ts; pf_target := t;
    pf_verification := vr; pf_choice := choice; pf_before := before; pf_dry_run := dry; pf_result := md_perform (xs_clock s1) t choice vr |}) ->
  rn_dry_run (xs_run s) = false -> ac_size a = ac_size (tg_action t) -> ready (ac_size (tg_action t)) s ->
  attempted s s1 -> good (snd (really_remove since g ts t vr a choice before s1)).
Proof.
  intros Hj Hdry Hsz Hr [Ht Hrun]. unfold really_remove.
  unfold xbind at 1. unfold get_run. unfold xbind at 1. unfold get_clock. unfold xbind at 1. unfold ask. unfold xbind at 1. unfold emit, tick.
  cbn [xs_store xs_clock xs_run xs_trace]. rewrite Hrun.
  change (rn_dry_run (count_attempt (xs_run s))) with (rn_dry_run (xs_run s)). set (p := {| pf_since := since |}).
  assert (Hp : justified p) by (by apply Hj).
  assert (Hpe : forall q, Performed p = Performed q -> justified q) by (intros q [= <-]; exact Hp).
  assert (Hno : rn_dry_run (xs_run s) = true -> forall q, Performed p <> Performed q) by congruence.
  destruct (md_perform _ t choice vr) as [nr|recycle ab|msg recycle] eqn:Hres.
  - apply (bind_good 0); [eauto with runs| |done].
    eapply (other_good (Performed p) id false s); try done. split; cbn [xs_trace xs_run]; [by rewrite Ht|done].
  - apply (bind_good 1); [eauto with runs| |intros a' s2 Hg2].
    + eapply (other_good (Performed p) id true s); try done. split; cbn [xs_trace xs_run]; [by rewrite Ht|done].
    + apply (bind_good 1); [run_steps|exact Hg2|]. intros _ s3 Hg3. by apply failure_good.
  - unfold xbind at 1, modify_run. cbn [xs_store xs_clock xs_run xs_trace].
    apply (bind_good 0); [eauto with runs| |done]. rewrite Hsz.
    eapply (done_good (Performed p) _ s); try done. split; cbn [xs_trace xs_run]; [by rewrite Ht|done].
Qed.

Lemma update_was_queued now a st st' : UpdateAction now (start_action now a) st = (st', Updated) -> was_queued st a.
Proof.
  unfold UpdateAction. cbn [ac_status ac_id start_action]. destruct (mem ActionRunning knownActionStatuses) eqn:Hk; [|by vm_compute in Hk].
  cbn [negb]. destruct (sd_actions st !! ac_id a) as [old|] eqn:Hold; [|done].
  change (checkActionTransition (ac_status old) ActionRunning) with (isQueuedStatus (ac_status old)).
  destruct (isQueuedStatus (ac_status old)) eqn:Hq; [|done]. cbn [negb].
  change (String.eqb ActionRunning ActionPending) with false. change (String.eqb ActionRunning ActionRunning) with true.
  change (action_removable st (start_action now a)) with (action_removable st a). cbn [orb andb].
  destruct (String.eqb_spec (ac_status old) ActionPending) as [Hs|Hs]; intros Hu; exists old; split_and!; try done.
  cbn [andb] in Hu. destruct (action_removable st a); [done|]. rewrite Hs in Hu. cbn in Hu. done.
Qed.

Lemma execute_good since g acts ts t vr choice s : (start <= since)%nat -> cleared since (xs_clock s) g (queued_of g acts) ts vr -> dg_status (xg_group g) = GroupQueued -> t ∈ ts ->
  chosen g vr (t, choice) -> good s -> allowed (ac_size (tg_action t)) s -> good (snd (execute since g ts t vr choice s)).
Proof.
  intros Hsince Hcl Hst Ht Hch Hg Ha. pose proof (allowed_ready _ _ Hg Ha) as Hr. unfold execute.
  unfold xbind at 1. pose proof (reread_calm (tg_action t) s) as Hc. destruct (reread_settings (tg_action t) s) as [ok s1].
  cbn [snd] in Hc. pose proof (calm_ready _ _ _ Hc Hr) as Hr1. pose proof (calm_good _ _ _ Hc Hg) as Hg1.
  destruct ok; [|exact Hg1]. cbn [negb]. unfold xbind at 1, ask.
  set (now := w_now (xs_clock s1)). set (s2 := tick s1).
  assert (Hc2 : calm s1 s2) by (by apply (quiet_calm (ask w_now) (ask_quiet _))).
  unfold xbind at 1. match goal with |- context [db ?f s2] => pose proof (quiet_calm _ (db_quiet f) s2) as Hc3; set (F := f) in * end.
  unfold db in *. destruct (w_db_fails (xs_clock s2)); [cbn [snd] in *; eapply calm_good; [exact Hc3|by eapply calm_good]|].
  cbv zeta in *. set (before := w_env (xs_clock s2) (xs_store s2)) in *.
  destruct (F before) as [st' [bf res]] eqn:Hf. unfold F in Hf. destruct (UpdateAction now (start_action now (tg_action t)) before) as [st1 res1] eqn:Hu.
  injection Hf as <- <- <-. cbn [snd fst] in *. set (s3 := tick (set_store st1 s2)) in *.
  pose proof (calm_ready _ _ _ Hc2 Hr1) as Hr2. pose proof (calm_ready _ _ _ Hc3 Hr2) as Hr3.
  destruct res1; try (destruct Hr3 as (? & ? & ? & ? & ?); by split_and!).
  unfold xbind at 1, modify_run, get_run. unfold xbind at 1. cbn [xs_store xs_clock xs_run xs_trace].
  change (rn_dry_run (count_attempt (xs_run s3))) with (rn_dry_run (xs_run s3)).
  change (ac_dry_run (with_method _ _ _ (start_action now (tg_action t)))) with (ac_dry_run (tg_action t)).
  destruct (rn_dry_run (xs_run s3) || ac_dry_run (tg_action t)) eqn:Hd.
  - apply (simulate_good _ _ _ s3); [done|exact Hr3|done].
  - apply orb_false_iff in Hd as [Hd1 Hd2].
    apply (really_remove_good _ _ _ _ _ _ _ _ s3); try done. intros dry ->. cbn [xs_clock]. split; try done.
    + exists acts. cbn [pf_since pf_clock pf_group pf_targets pf_verification]. eapply cleared_until; [|exact Hcl].
      destruct Hc as [Hl _], Hc2 as [Hl2 _], Hc3 as [Hl3 _]. unfold later in *. lia.
    + by eapply update_was_queued.
Qed.

(** ** What an assessment establishes *)

Definition act_cleared (since until : nat) (g : xgroup) (qs : list queued) (v : verdict) : Prop :=
  match v with Act ts vr plans => cleared since until g qs ts vr /\ Forall (chosen g vr) (combine ts plans) | _ => True end.

Lemma settle_during {E} a ts c (next : ExecWorld.M E verdict) Q : (forall b, Q b (SkipGroup (map tg_action ts))) ->
  (forall b f p, Q b (DeferGroup f p)) -> (forall b, Q b LeaveGroup) -> during a next Q -> during a (settle ts c next) Q.
Proof.
  intros Hs Hd Hl Hn. destruct c as [| |f []]; cbn [settle]; try by apply during_ret. 1: exact Hn.
  apply during_ask. intros n _. apply during_ret. by destruct (w_cancelled n).
Qed.

Lemma wait_during {E} a f p Q : (forall b, Q b (DeferGroup f p)) -> (forall b, Q b LeaveGroup) -> during (E:=E) a (wait_or_leave f p) Q.
Proof. intros Hd Hl. apply during_ask. intros n _. apply during_ret. by destruct (w_cancelled n). Qed.

Lemma wait_answers {E} f p Q : Q (DeferGroup f p) -> Q LeaveGroup -> answers (E:=E) (wait_or_leave f p) Q.
Proof. intros Hd Hl. apply answers_next. intros c. apply answers_ret. by destruct c. Qed.

Lemma choose_answers {E} g all ts vr :
  answers (E:=E) (choose_methods cf g all ts vr) (fun r => match r with inl (Act _ _ _) => False | inl _ => True | inr plans => Forall (chosen g vr) (combine ts plans) end).
Proof.
  induction ts as [|t ts IH]; cbn [choose_methods]; [by apply answers_ret|].
  apply (answers_ask (fun n => md_select n cf g t vr)). intros n. destruct (md_select n cf g t vr) as [c|] eqn:Hc.
  - apply answers_next. intros [| |f p].
    + eapply answers_bind; [exact IH|]. intros [[]|] Hv; apply answers_ret; try done. cbn. constructor; [by exists n | done].
    + by apply answers_ret.
    + eapply answers_bind; [by apply (wait_answers _ _ (fun v => match v with Act _ _ _ => False | _ => True end))|].
      intros v Hv. by apply answers_ret.
  - apply answers_next. intros b. apply answers_ret. by destruct b.
Qed.

Lemma fetch_during {E} a refs : during (E:=E) a (fetch_items refs) (fun b r => forall fresh, r = Some fresh -> fetched_during a b fresh).
Proof.
  revert a. induction refs as [|[sid rk] refs IH]; intros a; cbn [fetch_items].
  { apply during_ret. intros b _ fresh [= <-] ref it ?%elem_of_nil. done. }
  apply (during_ask _ (fun n => w_item n sid rk)). intros n Hn.
  assert (Hstep : forall it, w_item n sid rk = match it with Some it => Got it | None => NotFound end ->
    during (E:=E) (S n) (let! more := fetch_items refs in xret ((fun l => ((sid, rk), it) :: l) <$> more))
      (fun b r => forall fresh, r = Some fresh -> fetched_during a b fresh)).
  { intros it Hit. eapply during_bind; [apply IH|]. intros more b Hb Hm. apply during_ret. intros c Hc fresh (l & -> & ->)%fmap_Some ref i.
    intros [[= -> ->]|Hin]%elem_of_cons; [exists n; split; [lia|exact Hit]|]. destruct (Hm l eq_refl ref i Hin) as (m & Hlt & Hw).
    exists m. split; [lia|exact Hw]. }
  destruct (w_item n sid rk) as [| |it]; [by apply during_ret|by apply (Hstep None)|by apply (Hstep (Some it))].
Qed.

Lemma verified_during {E} since a g qs ts fresh : (since <= a)%nat -> fetched_during since a fresh ->
  notAllowedNow cf g qs = false -> crossServerRecordProblem cf g = false -> stored_problems cf g qs = false ->
  ts = untracked_first (targets_of qs) -> during (E:=E) a (assess_verified cf g ts fresh) (fun b => act_cleared since b g qs).
Proof.
  intros Ha Hf H1' H2' H3' Hts. unfold assess_verified. apply during_ask. intros n Hn. cbv zeta.
  destruct (vr_problem _) eqn:Hp; [by apply during_ret|]. destruct (vr_wait _) eqn:Hw; [by apply during_ret|].
  set (vr := verify cf (observe W n) g ts fresh) in *.
  apply (during_next _ _ _ (fun c => c = Pass -> multiServer cf = true -> others_keep cf g ts vr)).
  { destruct (multiServer cf); [eapply rel_weaken; [apply reading_quiet|apply otherServers_reading]|run_steps]. }
  { destruct (multiServer cf); [|by apply answers_ret]. eapply answers_weaken; [apply others_pass|]. cbv beta. auto. }
  intros [| |f p] b Hb Hoth; [|by apply during_ret|by apply wait_during]. specialize (Hoth eq_refl).
  eapply during_next; [eapply rel_weaken; [apply reading_quiet|apply choose_reading]|apply choose_answers|].
  intros [v|plans] b' Hb' Hv; [apply during_ret; intros ? _; by destruct v|]. cbv beta iota in Hv.
  eapply during_next; [eapply rel_weaken; [apply reading_quiet|apply all_checks_reading, keeperArr_reading]|apply answers_any|].
  intros c' b'' Hb'' _. apply settle_during; try done. apply during_ret. intros z Hz. cbn [act_cleared]. split; [|exact Hv].
  unfold cleared. split_and!; try done. exists n, fresh. split_and!; [|lia|lia|done].
  intros ref it Hin. destruct (Hf ref it Hin) as (m & Hm & Hi). exists m. split; [lia|exact Hi].
Qed.

Lemma assess_during {E} since g qs : during (E:=E) since (assess cf g qs) (fun b => act_cleared since b g qs).
Proof.
  unfold assess. destruct (notAllowedNow cf g qs) eqn:H1'; [by apply during_ret|].
  destruct (crossServerRecordProblem cf g) eqn:H2'; [by apply during_ret|].
  destruct (stored_problems cf g qs) eqn:H3'; [by apply during_ret|]. cbn [orb].
  eapply during_next; [eapply rel_weaken; [apply reading_quiet|apply keptElsewhere_reading]|apply answers_any|].
  intros [[|]|] a Ha _; [by apply during_ret| |by apply wait_during].
  unfold assess_live. destruct (negb _); [by apply during_ret|].
  eapply during_next; [eapply rel_weaken; [apply reading_quiet|]|apply answers_any|].
  { apply and_then_reading; [apply all_checks_reading, identity_reading|]. apply and_then_reading; [|apply all_checks_reading, sessions_reading].
    destruct (readOnlyGroup g); [apply readOnlyRun_reading|run_steps]. }
  intros c a' Ha' _. apply settle_during; try done.
  eapply during_bind; [apply fetch_during|]. intros [fresh|] b Hb Hf; [|by apply wait_during].
  apply verified_during; try done; [lia|]. intros ref it Hin. destruct (Hf fresh eq_refl ref it Hin) as (m & Hm & Hi). exists m. split; [lia|exact Hi].
Qed.

(** ** The whole run *)

Lemma may_start_good size s : good s -> good (snd (may_start cf size s)).
Proof. apply calm_good, may_start_calm. Qed.

(** Every removal takes time. *)
Lemma execute_later since g ts t vr choice : rel (E:=event) later (execute since g ts t vr choice).
Proof. unfold execute, reread_settings, simulate, really_remove, finishAction. run_steps. Qed.

Lemma run_targets_good since g acts ts vr todo : (start <= since)%nat -> dg_status (xg_group g) = GroupQueued ->
  (forall tc, tc ∈ todo -> fst tc ∈ ts /\ chosen g vr tc) ->
  forall s, cleared since (xs_clock s) g (queued_of g acts) ts vr -> good s -> good (snd (run_targets cf since g ts vr todo s)).
Proof.
  intros Hsince Hst. induction todo as [|[t choice] todo IH]; intros Hin s Hcl Hg; [exact Hg|]. cbn [run_targets].
  unfold xbind at 1. pose proof (may_start_good (ac_size (tg_action t)) s Hg) as Hg1.
  pose proof (may_start_allowed (ac_size (tg_action t)) s) as Ha. pose proof (may_start_calm (ac_size (tg_action t)) s) as [Hl1 _].
  destruct (may_start cf _ s) as [go s1]. cbn [fst snd] in *. destruct go; [|exact Hg1]. cbn [negb]. specialize (Ha eq_refl).
  unfold xbind at 1. destruct (Hin (t, choice)) as [Ht Hch]; [by left|].
  assert (Hcl1 : cleared since (xs_clock s1) g (queued_of g acts) ts vr) by (by eapply cleared_until).
  pose proof (execute_good since g acts ts t vr choice s1 Hsince Hcl1 Hst Ht Hch Hg1 Ha) as Hg2.
  pose proof (execute_later since g ts t vr choice s1) as Hl2.
  destruct (execute since g ts t vr choice s1) as [e s2]. cbn [snd] in Hg2, Hl2.
  assert (Hrest : good (snd (run_targets cf since g ts vr todo s2))).
  { apply IH; [intros tc Htc; apply Hin; by right| |done]. by eapply cleared_until. }
  destruct e as [pending|st].
  - unfold xbind. by destruct (run_targets cf since g ts vr todo s2).
  - destruct (mem _ _); [exact Hg2|]. unfold xbind. by destruct (run_targets cf since g ts vr todo s2).
Qed.

Lemma act_good since g acts ts vr plans s : (start <= since)%nat -> cleared since (xs_clock s) g (queued_of g acts) ts vr -> Forall (chosen g vr) (combine ts plans) -> dg_status (xg_group g) = GroupQueued -> good s ->
  good (snd (act cf since g ts vr plans s)).
Proof.
  intros Hsince Hcl Hch Hst Hg. unfold act. unfold xbind at 1.
  assert (Hg1 : good (snd (run_targets cf since g ts vr (combine ts plans) s))).
  { eapply run_targets_good; try done. intros [t c] Htc. rewrite Forall_forall in Hch. split; [|by apply Hch].
    apply list_elem_of_In, in_combine_l in Htc. by apply list_elem_of_In. }
  destruct (run_targets _ _ _ _ _ _ s) as [[done rest] s1]. cbn [snd] in Hg1. revert s1 Hg1.
  assert (Hc : rel calm (after_removals vr done ;; (if existsb (fun s => String.eqb (sd_status s) ActionSkipped) done
    then skipGroup (xg_id g) rest
    else when (existsb (fun s => String.eqb (sd_status s) ActionFailed) done)
      (let! _ := setRunStatus (xg_id g) GroupFailed in cancelQueued "" rest) ;; finalizeGroup g (stamps_of ts)))) by run_steps.
  intros s1 Hg1. eapply calm_good; [apply Hc|exact Hg1].
Qed.

Lemma process_group_good gid actions s : (start <= xs_clock s)%nat -> good s -> good (snd (processGroup cf gid actions s)).
Proof.
  intros Hs Hg. unfold processGroup. unfold xbind at 1, get_clock at 1. unfold xbind at 1.
  pose proof (quiet_calm _ (get_group_quiet gid) s) as Hc0. destruct (get_group gid s) as [got s0]. cbn [snd] in Hc0.
  assert (Hg0 : good s0) by (by eapply calm_good). pose proof (proj1 Hc0) as Hl0. unfold later in Hl0. remember (xs_clock s) as since eqn:E.
  clear s E Hc0 Hg. revert s0 Hg0 Hl0. destruct got as [[[stored n]|]|]; intros s Hg Hl; [|by eapply calm_good; [apply quiet_calm, cancelQueued_quiet|] |].
  2:{ eapply calm_good; [|exact Hg]. match goal with |- calm _ (snd (?m _)) => assert (Hc : rel calm m) by run_steps end. apply Hc. }
  cbv zeta. destruct (String.eqb_spec (dg_status (xg_group (normalize_servers stored))) GroupQueued) as [Hst|]; cbn [negb].
  2:{ eapply calm_good; [apply quiet_calm, cancelQueued_quiet|exact Hg]. }
  unfold xbind. pose proof (assess_during since (normalize_servers stored) (queued_of (normalize_servers stored) actions) s Hl) as [_ Hv].
  pose proof (quiet_calm _ (assess_quiet cf (normalize_servers stored) (queued_of (normalize_servers stored) actions)) s) as Hc.
  destruct (assess _ _ _ s) as [v s1]. cbn [fst snd] in *. assert (Hg1 : good s1) by (by eapply calm_good).
  destruct v; [destruct Hv; by eapply act_good| | | |exact Hg1]; (eapply calm_good; [|exact Hg1]);
    [apply skip_calm|apply defer_calm|apply refuse_calm].
Qed.

Lemma process_group_later gid actions : rel (E:=event) later (processGroup cf gid actions).
Proof.
  unfold processGroup. apply rel_bind; [typeclasses eauto|eauto with runs|]. intros since.
  apply rel_bind; [typeclasses eauto|eauto with runs|]. intros [[[stored n]|]|]; [|run_steps|run_steps].
  cbv zeta. destruct (negb _); [eauto with runs|]. apply rel_bind; [typeclasses eauto|eauto with runs|].
  intros [ts vr plans|acts|f p|ts bad|]; [|apply calm_later; eauto with runs..].
  unfold act. apply rel_bind; [typeclasses eauto| |intros [done rest]; apply calm_later; run_steps].
  induction (combine ts plans) as [|[t c] todo IH]; cbn [run_targets]; [run_steps|].
  apply rel_bind; [typeclasses eauto|apply calm_later; eauto with runs|]. intros []; [|run_steps]. cbn [negb].
  apply rel_bind; [typeclasses eauto|apply execute_later|]. intros e. run_steps.
Qed.

Lemma process_batches_good bs s : (start <= xs_clock s)%nat -> good s -> good (snd (process_batches cf bs s)).
Proof.
  revert s. induction bs as [|[gid acts] bs IH]; intros s Hs Hg; [exact Hg|]. cbn [process_batches].
  unfold xbind at 1. pose proof (may_start_calm 0 s) as Hc. destruct (may_start cf 0 s) as [go s1]. cbn [snd] in Hc.
  assert (Hg1 : good s1) by (by eapply calm_good). destruct Hc as [Hl _]. unfold later in Hl. destruct go; [|exact Hg1]. cbn [negb].
  unfold xbind. pose proof (process_group_good gid acts s1 ltac:(lia) Hg1) as Hg2. pose proof (process_group_later gid acts s1) as Hl2.
  destruct (processGroup _ _ _ s1) as [u s2]. cbn [snd] in *. unfold later in Hl2. apply IH; [lia|done].
Qed.

(** A run starts with an empty trace. *)
Definition fresh (s : state) : Prop := xs_trace s = [].

Lemma queue_good s : start = xs_clock s -> fresh s -> good (snd (ProcessQueue cf s)).
Proof.
  intros Hs Hf. unfold ProcessQueue. unfold xbind at 1, start_run.
  match goal with |- good (snd (xbind _ _ ?s0)) => assert (Hg : good s0 /\ (start <= xs_clock s0)%nat); [|revert Hg; generalize s0; clear Hf Hs] end.
  - split; [|cbn; lia]. unfold good, good_but, counted, events_ok, dry_ok. cbn. rewrite Hf. split_and!; try done.
    + intros p Hp. inversion Hp.
    + intros Hd. split; [done|]. intros p Hp. inversion Hp.
  - intros s0 [Hg Hl]. unfold xbind at 1. pose proof (quiet_calm _ recover_quiet s0) as Hc1. destruct (recoverInterrupted s0) as [u s1]. cbn [snd] in Hc1.
    assert (Hg1 : good s1) by (by eapply calm_good). unfold xbind at 1. pose proof (quiet_calm _ (db_read_quiet ListPending) s1) as Hc2.
    destruct (db_read ListPending s1) as [got s2]. cbn [snd] in Hc2. assert (Hg2 : good s2) by (by eapply calm_good).
    destruct Hc1 as [Hl1 _], Hc2 as [Hl2 _]. unfold later in *. destruct got as [[|a l]|]; try exact Hg2.
    unfold xbind at 1. pose proof (process_batches_good (batchByGroup (a :: l)) s2 ltac:(lia) Hg2) as Hg3.
    destruct (process_batches _ _ s2) as [u' s3]. eapply calm_good; [|exact Hg3].
    apply quiet_calm. unfold finish. run_steps.
Qed.
End inv.

#[export] Hint Resolve summary_calm stopped_calm dry_calm kept_calm aborted_calm failure_calm quiet_calm finish_calm
  status_quiet playing_quiet finalize_quiet skip_calm defer_calm refuse_calm reread_calm may_start_calm
  after_removals_calm : runs.
