(* ===== verification/ExecVerifyFacts.v ===== *)
(** * Verification of stored versions: lemmas, and a concrete run *)

From S2P Require Import Prelude GoStd Models DiscPaths Paths Ranking Pathmap Store ExecModel FileId ExecWorld ExecVerify StoreFacts StoreTheorems Fixtures GroupTheorems ExecApprove ExecAssess ExecRun.
Local Open Scope string_scope.
Local Open Scope Z_scope.

(** * What a verification without a problem has checked

    [verified]: every version to remove was found unchanged, some kept version was
    found and lies in no recycle bin, and none of the removed versions is a file
    of a kept one. *)

Lemma head_None {A} (l : list A) : head l = None <-> l = [].
Proof. by destruct l. Qed.

Lemma omap_none {A B} (f : A -> option B) l : omap f l = [] <-> forall x, x ∈ l -> f x = None.
Proof.
  split.
  - intros Hl x Hx. destruct (f x) as [y|] eqn:Hy; [|done].
    assert (Hin : y ∈ omap f l) by (apply list_elem_of_omap; eauto). rewrite Hl in Hin. inversion Hin.
  - intros Hf. induction l as [|x l IH]; [done|]. cbn. rewrite (Hf x) by left. apply IH. intros y Hy. apply Hf. by right.
Qed.

Lemma first_of_None {A} (a b : option A) : first_of a b = None <-> a = None /\ b = None.
Proof. destruct a; cbn; split; intuition congruence. Qed.

Section facts.
Context `{Unicode} (cf : config) (ob : observation).

Record verified (g : xgroup) (ts : list target) (fresh : items) (vr : verification) : Prop := {
  vf_losers : Forall2 (fun t kv => fst kv = ac_id (tg_action t) /\
    checkVersion cf ob g (tg_id t, tg_file t) fresh false = inr (snd kv)) ts (vr_losers vr);
  vf_keepers : vr_keepers vr = verified_keepers cf ob g fresh;
  vf_some : vr_keepers vr <> [];
  vf_apart : forall t kv kf, (t, kv) ∈ combine ts (vr_losers vr) -> kf ∈ keep_files g ->
    pair_problem cf ob t (snd kv) (vr_keepers vr) kf = None /\ same_arr_file t kf = false;
  vf_partition : partitionKeeperProblem cf g ts (vr_keepers vr) = None;
  vf_playable : playableKeeperProblem cf g ts (vr_keepers vr) = None;
  vf_alone : sharedWithOtherMedia g ts fresh (vr_losers vr) = None;
  vf_age : vr_wait vr = false -> forall t kv, (t, kv) ∈ combine ts (vr_losers vr) ->
    let min_age := wrap64 (st_min_age_hours (cf_settings cf) * hour) in
    0 < min_age -> too_young ob min_age t (snd kv) = false;
}.

Lemma check_losers_ok g fresh ts losers : check_losers cf ob g fresh ts = inr losers ->
  Forall2 (fun t kv => fst kv = ac_id (tg_action t) /\
    checkVersion cf ob g (tg_id t, tg_file t) fresh false = inr (snd kv)) ts losers.
Proof.
  revert losers. induction ts as [|t ts IH]; cbn [check_losers]; intros losers Hl; [injection Hl as <-; constructor|].
  destruct (checkVersion cf ob g (tg_id t, tg_file t) fresh false) as [p|vv] eqn:Hc; [done|].
  destruct (check_losers cf ob g fresh ts) as [p|l]; [done|]. injection Hl as <-. constructor; [done|]. by apply IH.
Qed.

Lemma loser_apart t lv keepers kfs : loser_problem cf ob t lv keepers kfs = None ->
  forall kf, kf ∈ kfs -> pair_problem cf ob t lv keepers kf = None /\ same_arr_file t kf = false.
Proof.
  unfold loser_problem. destruct (head _) eqn:Hh; [done|]. apply head_None in Hh. rewrite omap_none in Hh.
  destruct (existsb _ _) eqn:He; [done|]. intros _ kf Hkf. split; [by apply Hh|].
  apply not_true_is_false. intros Hs. apply not_true_iff_false in He. apply He, existsb_elem. eauto.
Qed.

Lemma verify_verified g ts fresh : vr_problem (verify cf ob g ts fresh) = None ->
  verified g ts fresh (verify cf ob g ts fresh).
Proof.
  unfold verify. destruct (check_losers cf ob g fresh ts) as [p|losers] eqn:Hl; [done|].
  destruct (first_of (sharedWithOtherMedia _ _ _ _) _) eqn:Hsh; [done|]. apply first_of_None in Hsh as [Hsh _].
  destruct (losers_problem _ _ _ _ _ _ _) eqn:Hlp; [done|]. intros _.
  unfold losers_problem in Hlp. rewrite !first_of_None in Hlp. destruct Hlp as (Hpairs & Hk & Hpart & Hplay).
  apply head_None in Hpairs. rewrite omap_none in Hpairs. split; cbn [vr_losers vr_keepers vr_wait]; try done.
  - by apply check_losers_ok.
  - by destruct (verified_keepers cf ob g fresh).
  - intros t kv kf Htk Hkf. specialize (Hpairs _ Htk). by eapply loser_apart.
  - intros Hw t kv Htk Hpos. apply Z.ltb_lt in Hpos. rewrite Hpos in Hw. cbn [andb] in Hw.
    apply not_true_is_false. intros Hy. apply not_true_iff_false in Hw. apply Hw, existsb_elem. by exists (t, kv).
Qed.

(** The version of a target, as the verification found it. *)
Lemma verified_loser g ts fresh vr t : verified g ts fresh vr -> t ∈ ts -> exists kv, (t, kv) ∈ combine ts (vr_losers vr) /\
  fst kv = ac_id (tg_action t) /\ checkVersion cf ob g (tg_id t, tg_file t) fresh false = inr (snd kv).
Proof.
  intros Hv. pose proof (vf_losers _ _ _ _ Hv) as Hf. clear Hv.
  induction Hf as [|t' kv ts' l [H1 H2] _ IH]; intros Ht; [inversion Ht|].
  apply elem_of_cons in Ht as [->|Ht]; [exists kv; split; [left|done]|].
  destruct (IH Ht) as (kv' & Hin & Hr). exists kv'. split; [by right|done].
Qed.

Lemma elem_of_keep_files g idf : idf ∈ keep_files g <->
  idf ∈ xg_files g /\ decided_keep (snd idf) = true /\ isOptimized (gf_version (snd idf)) = false.
Proof. unfold keep_files. rewrite elem_of_lfilter, andb_true_iff, negb_true_iff. done. Qed.

Lemma verified_keeper g ts fresh vr : verified g ts fresh vr -> exists kf k, kf ∈ keep_files g /\
  checkVersion cf ob g kf fresh true = inr k /\ recycledKeeper cf ob k (dg_media_type (xg_group g)) = false.
Proof.
  intros Hv. pose proof (vf_some _ _ _ _ Hv) as Hne. rewrite (vf_keepers _ _ _ _ Hv) in Hne.
  destruct (verified_keepers cf ob g fresh) as [|k l] eqn:Hk; [done|]. assert (Hin : k ∈ verified_keepers cf ob g fresh)
    by (rewrite Hk; left). unfold verified_keepers in Hin. apply list_elem_of_omap in Hin as (kf & Hkf & Hc).
  unfold check_keeper in Hc. destruct (checkVersion cf ob g kf fresh true) as [p|vv] eqn:Hck; [done|].
  destruct (recycledKeeper cf ob vv _) eqn:Hr; [done|]. injection Hc as ->. by exists kf, k.
Qed.

(** ** One version *)

(** What the check of one part of a version has confirmed. *)
Definition part_confirmed (kind : string) (sid : Z) (keeper : bool) (sp fp : MediaPart) : Prop :=
  Normalize (mp_path fp) = Normalize (mp_path sp) /\ mp_size fp = mp_size sp /\ mp_exists fp <> Some false /\
  (keeper = true -> mp_accessible fp <> Some false) /\
  match ToLocal (cf_mapper cf) PathSourceServer sid (mp_path fp) with
  | Some local => exists fi, fv_stat (ob_fs ob) local = Some fi /\ fi_regular fi = true /\ fi_size fi = mp_size fp
  | None => ReadOnly kind = false /\ (keeper = true -> mp_exists fp = Some true)
  end.

Lemma check_part_confirmed kind sid keeper sp fp vp : check_part cf ob kind sid keeper sp fp = inr vp ->
  part_confirmed kind sid keeper sp fp.
Proof.
  unfold check_part, part_confirmed.
  destruct (String.eqb_spec (Normalize (mp_path sp)) (Normalize (mp_path fp))) as [Hn|]; [|done]. cbn [negb].
  destruct (Z.eqb_spec (mp_size sp) (mp_size fp)) as [Hz|]; [|done]. cbn [negb].
  destruct (bool_decide_reflect (mp_exists fp = Some false)) as [|Hex]; [done|].
  destruct (keeper && bool_decide (mp_accessible fp = Some false)) eqn:Hac; [done|].
  assert (Hac' : keeper = true -> mp_accessible fp <> Some false).
  { intros ->. cbn [andb] in Hac. by apply bool_decide_eq_false_1 in Hac. }
  destruct (ToLocal _ _ _ _) as [local|].
  - destruct (fv_stat (ob_fs ob) local) as [fi|] eqn:Hst; [|done]. destruct (fi_regular fi) eqn:Hr; [|done]. cbn [negb].
    destruct (Z.eqb_spec (fi_size fi) (mp_size fp)); [|done]. intros _. split_and!; eauto.
  - destruct (ReadOnly kind) eqn:Hk; [done|]. destruct (keeper && bool_decide (mp_exists fp = None)) eqn:Hnc; [done|].
    intros _. split_and!; try done. intros ->. cbn [andb] in Hnc. apply bool_decide_eq_false_1 in Hnc.
    by destruct (mp_exists fp) as [[]|].
Qed.

Lemma check_parts_confirmed kind sid keeper pairs vps : check_parts cf ob kind sid keeper pairs = inr vps ->
  forall sp fp, (sp, fp) ∈ pairs -> part_confirmed kind sid keeper sp fp.
Proof.
  revert vps. induction pairs as [|[sp fp] pairs IH]; cbn [check_parts]; intros vps Hc sp' fp' Hin; [inversion Hin|].
  destruct (check_part _ _ _ _ _ _ _) as [|vp] eqn:Hp; [done|]. destruct (check_parts _ _ _ _ _ pairs) as [|vps'] eqn:Hps; [done|].
  apply elem_of_cons in Hin as [Heq|Hin]; [|by eapply IH]. injection Heq as -> ->. by eapply check_part_confirmed.
Qed.

(** A version found on disk only, which its server does not list. *)
Definition from_disk (v : MediaVersion) : bool := IsDisc v && ((mv_media_id v <=? 0) || has_prefix (mv_key v) DiscKeyPrefix).
(** The server lists the version as it was stored. *)
Definition listing_confirmed (g : xgroup) (v : MediaVersion) (fr : items) (keeper : bool) : Prop :=
  exists item now,
    find_item fr (serverOf g v) (trim_space (mv_rating_key v)) = Some (Some item) /\ now ∈ it_versions item /\
    ServerVersionID now = ServerVersionID v /\ ServerVersionID v <> "" /\ mv_parts v <> [] /\
    length (mv_parts now) = length (mv_parts v) /\ isOptimized now = false /\ mv_report_only now = [] /\
    forall stored fresh, (stored, fresh) ∈ combine (mv_parts v) (mv_parts now) ->
      part_confirmed (ms_kind (cf_server cf (serverOf g v))) (serverOf g v) keeper stored fresh.
(** The disc is on disk as it was stored. *)
Definition disc_confirmed (info : DiscInfo) : Prop :=
  exists found d, ob_discs ob (discDetectFolder info) = Some found /\ d ∈ found /\ dc_inspected d = true /\
    path_clean (dc_root d) = path_clean (di_local_root info) /\
    sameCleanPaths (dc_owned_entries d) (di_owned_entries info) = true /\
    (di_local_roots info <> [] -> sameCleanPaths (dc_roots d) (di_local_roots info) = true) /\
    dc_file_count d = di_file_count info /\ dc_total_size d = di_total_bytes info /\
    (di_fingerprint info <> "" -> dc_fingerprint d = di_fingerprint info).

Lemma plex_confirmed g idf fr keeper vv : checkPlexVersion cf ob g idf fr keeper = inr vv -> listing_confirmed g (gf_version (snd idf)) fr keeper.
Proof.
  unfold checkPlexVersion, listing_confirmed. cbv zeta. set (v := gf_version (snd idf)).
  destruct (find_item _ _ _) as [[item|]|] eqn:Hi; [|done|done].
  destruct (String.eqb_spec (ServerVersionID v) "") as [|Hid]; [done|].
  destruct (Nat.eqb_spec (length (mv_parts v)) 0) as [|Hlen]; [done|].
  destruct (find _ (it_versions item)) as [now|] eqn:Hn; [|done]. apply find_some in Hn as [Hn Hsame].
  destruct (isOptimized now) eqn:Ho; [done|]. destruct (negb (Nat.eqb (length (mv_report_only now)) 0)) eqn:Hro; [done|].
  destruct (negb (Nat.eqb (length (mv_parts now)) _)) eqn:Hl; [done|].
  destruct (check_parts _ _ _ _ _ _) as [p|parts] eqn:Hp; [done|]. intros _. exists item, now.
  apply negb_false_iff, Nat.eqb_eq in Hro, Hl. split_and!; try done.
  - by apply list_elem_of_In.
  - by apply String.eqb_eq.
  - intros E. by rewrite E in Hlen.
  - by apply nil_length_inv.
  - intros sp fp. by eapply check_parts_confirmed.
Qed.
Lemma verify_disc_confirmed v keeper d : verifyDisc (ob_discs ob) v keeper = inr d -> exists info, mv_disc v = Some info /\ disc_confirmed info.
Proof.
  unfold verifyDisc. destruct (mv_disc v) as [info|]; [|done]. destruct (blank _); [done|]. destruct (negb (has_prefix _ _)); [done|].
  destruct (ob_discs ob (discDetectFolder info)) as [found|] eqn:Hf; [|done].
  destruct (find _ found) as [d'|] eqn:Hd; [|done]. apply find_some in Hd as [Hin%list_elem_of_In Hroot%String.eqb_eq].
  destruct (dc_inspected d') eqn:Hins; [cbn [negb]|done]. destruct (sameCleanPaths (dc_owned_entries d') _) eqn:Ho; [cbn [negb]|done].
  destruct (_ && negb (sameCleanPaths (dc_roots d') _)) eqn:Hr; [done|].
  destruct (negb (dc_file_count d' =? _) || _) eqn:Hc; [done|]. apply orb_false_iff in Hc as [Hc1%negb_false_iff Hc2%negb_false_iff].
  destruct (negb (String.eqb _ "") && _) eqn:Hfp; [done|]. destruct (negb keeper && _); [done|]. intros _.
  exists info. split; [done|]. exists found, d'. apply Z.eqb_eq in Hc1, Hc2. split_and!; try done.
  - intros Hne. destruct (di_local_roots info); [done|]. cbn [length Nat.ltb Nat.leb andb] in Hr. by apply negb_false_iff in Hr.
  - intros Hne. rewrite (proj2 (String.eqb_neq _ _) Hne) in Hfp. cbn [negb andb] in Hfp. by apply negb_false_iff, String.eqb_eq in Hfp.
Qed.
End facts.

(** * A concrete queue run

    A quiet world (no other caller, no failed call, a clock that stands still), one
    Plex server whose paths are mapped to a disk, and a method that always succeeds:
    the group of StoreTheorems.v is approved and its removals are carried out. *)

Definition fx_settings (dry : bool) (count gb : Z) : Settings := {|
  st_dry_run := dry; st_mode := "review"; st_min_age_hours := 24; st_max_deletions_per_run := count;
  st_deletion_methods := [MethodFilesystem]; st_recycle_bin_path := "/data/bin"; st_stable_scans_required := 2;
  st_max_bytes_per_run_gb := gb; st_allow_disc_removal := false; st_keep_playable_copy := true |}.
Definition fx_plex : MediaServer := {|
  ms_kind := MediaServerPlex; ms_machine_identifier := "m1"; ms_enabled := true; ms_storage := "shared" |}.
Definition fx_mapping : PathMapping := {|
  pm_source_type := PathSourceServer; pm_source_id := 1; pm_remote_path := "/m"; pm_local_path := "/data/m" |}.
Definition fx_config (st : Settings) : config := {|
  cf_settings := st; cf_servers := {[1 := fx_plex]}; cf_arrs := ∅; cf_mappings := [fx_mapping]; cf_libraries := ∅;
  cf_exclusions := []; cf_profiles := ∅; cf_default_profile := fx_profile |}.

(** The disk: a file for every version of the item, each of its own. *)
Definition fx_versions : list MediaVersion := [fx_a; fx_b; fx_c].
Definition fx_stat (p : string) : option FileInfo :=
  head (omap (fun v => head (omap (fun q => if String.eqb p ("/data" +:+ mp_path q)
    then Some {| fi_regular := true; fi_size := mp_size q; fi_dev := 1; fi_ino := mv_media_id v |} else None) (mv_parts v)))
    fx_versions).
Definition fx_disk : fs_view := {|
  fv_stat := fx_stat; fv_resolve := fun p => Some p; fv_resolve_existing := fun p => Some p |}.

#[export] Instance fx_world : World := {|
  w_env := fun _ s => s; w_db_fails := fun _ => false; w_now := fun _ => 63900000000000000000; w_cancelled := fun _ => false;
  w_settings := fun _ => Some (fx_settings false 10 100); w_path_mappings := fun _ => Some [fx_mapping];
  w_client := fun _ => true; w_identity := fun _ _ => Got "m1"; w_sessions := fun _ _ => Got [];
  w_item := fun _ _ _ => Got (fx_item "100" 1 fx_versions); w_gate := fun _ _ => NotFound; w_arr_client := fun _ => false;
  w_arr_file := fun _ _ _ => Failed; w_arr_bin := fun _ _ => None; w_own_bin := fun _ => Some "/data/bin"; w_fs := fun _ => fx_disk;
  w_discs := fun _ _ => Some []; w_sections := fun _ _ => None; w_listing := fun _ _ _ _ => NotFound; w_ids := fun _ => fx_ids |}.
#[export] Instance fx_methods : Methods := {|
  md_select := fun _ _ _ _ _ => Some {| mc_method := MethodFilesystem; mc_permanent := false; mc_arr := None; mc_freed := None |};
  md_perform := fun _ _ _ _ => PDone "" "/data/bin/x"; md_notes := fun _ _ => [] |}.

Definition fx_start (st : store) : xstate event := {|
  xs_store := st; xs_clock := 0; xs_run := new_run false None; xs_ids := Default; xs_trace := [] |}.
Definition fx_approval : (approve_error + list Action) * xstate event :=
  ApproveReviewed 1 TriggerManual "" (fx_start sample_scanned).
Definition fx_approved : store := xs_store (snd fx_approval).
Definition fx_run (st : Settings) : (Summary * run_end) * xstate event := ProcessQueue (fx_config st) (fx_start fx_approved).
Definition fx_trace (st : Settings) : list event := xs_trace (snd (fx_run st)).

(** Both removals are approved and carried out, and the group is resolved. *)
Example fx_run_resolves : let r := fx_run (fx_settings false 10 100) in
  snd (fst r) = RunFinished /\ length (xs_trace (snd r)) = 2%nat /\
  map (fun kv => ac_status (snd kv)) (map_to_list (sd_actions (xs_store (snd r)))) = [ActionSucceeded; ActionSucceeded] /\
  map (fun kv => row_status (snd kv)) (map_to_list (sd_groups (xs_store (snd r)))) = [GroupResolved].
Proof. cbv zeta. split_and!; by vm_compute. Qed.
