(* ===== verification/ExecTheorems.v ===== *)
(** * Queue runs: theorems

    For every run of the queue, whatever other callers write in between, whichever
    database calls fail and whatever servers and disks answer: which removals are
    carried out, what was checked before each, and when the run stops. *)

From S2P Require Import Prelude GoStd Models DiscPaths Paths Validate ExecGuards Store StoreFacts Pathmap ExecModel FileId ExecWorld ExecApprove ExecVerify ExecAssess ExecRun ExecFacts ServerFacts ExecInv ExecVerifyFacts StoreTheorems Fixtures GroupTheorems.
Local Open Scope string_scope.
Local Open Scope Z_scope.

Section helpers.
Context `{Unicode} `{Doublestar} `{RegexSyntax} {W : World} {D : Methods} (cf : config).
Notation state := (xstate event).

(** The removals a run carried out. *)
Definition removed_by (s : state) (p : performed) : Prop := Performed p ∈ xs_trace (snd (ProcessQueue cf s)).

Lemma removed_justified s p : fresh s -> removed_by s p -> justified cf (xs_clock s) p.
Proof. intros Hf Hp. destruct (queue_good cf (xs_clock s) s eq_refl Hf) as (_ & _ & He & _). by apply He. Qed.

Lemma elem_of_untracked t ts : t ∈ untracked_first ts <-> t ∈ ts.
Proof.
  unfold untracked_first. rewrite elem_of_app, !elem_of_lfilter, negb_true_iff.
  destruct (match mv_arr (tg_version t) with Some _ => true | None => false end); intuition congruence.
Qed.

Lemma elem_of_targets g actions t : t ∈ targets_of (queued_of g actions) ->
  findTargetFile g (tg_action t) = Some (tg_id t, tg_file t) /\ tg_action t ∈ actions.
Proof.
  unfold targets_of, queued_of. intros Ht. apply list_elem_of_omap in Ht as ([a f] & Hq & Ht).
  apply list_elem_of_fmap in Hq as (a' & Heq & Ha). injection Heq as -> ->. cbn [fst snd] in Ht.
  destruct (findTargetFile g a') as [[fid f]|] eqn:Hf; [|done]. by injection Ht as <-.
Qed.

Lemma find_target_elem g a idf : findTargetFile g a = Some idf -> idf ∈ xg_files g.
Proof. unfold findTargetFile. destruct (_ && _); [done|]. intros [Hin _]%find_some. by apply list_elem_of_In. Qed.

(** A removal that was carried out, as its group was assessed. *)
Lemma removed_target start p : justified cf start p -> exists actions n fr,
  let g := pf_group p in
  let t := pf_target p in
  let ob := observe W n in
  (start <= pf_since p <= n)%nat /\ (n < pf_clock p)%nat /\ fetched_during (pf_since p) n fr /\
  (tg_id t, tg_file t) ∈ xg_files g /\ t ∈ pf_targets p /\
  targetProblem cf (tg_action t, Some (tg_id t, tg_file t)) = None /\ ValidateDecisions (xg_group g) = None /\
  notAllowedNow cf g (queued_of g actions) = false /\ (tg_action t, Some (tg_id t, tg_file t)) ∈ queued_of g actions /\
  crossServerRecordProblem cf g = false /\
  verified cf ob g (pf_targets p) fr (pf_verification p) /\ vr_wait (pf_verification p) = false.
Proof.
  intros [Hstart (actions & Hna & Hcs & Hsp & Hts & (n & fr & Hfr & Hn & Hvr) & Hvp & Hvw & _) Hin _ _ _ _ _]. exists actions, n, fr. cbv zeta.
  pose proof Hin as Hin'. rewrite Hts, elem_of_untracked in Hin'. apply elem_of_targets in Hin' as [Hft Ha].
  assert (Hq : (tg_action (pf_target p), Some (tg_id (pf_target p), tg_file (pf_target p))) ∈ queued_of (pf_group p) actions).
  { rewrite <- Hft. unfold queued_of. apply list_elem_of_fmap. by exists (tg_action (pf_target p)). }
  unfold stored_problems in Hsp. apply orb_false_iff in Hsp as [Hsp Hval].
  split; [lia|]. split; [lia|]. split_and!; try done.
  - by eapply find_target_elem.
  - destruct (targetProblem _ _) as [x|] eqn:Htp; [|done]. apply not_true_iff_false in Hsp. exfalso. apply Hsp, existsb_elem.
    eexists. split; [exact Hq|]. rewrite Htp. by apply bool_decide_eq_true_2.
  - apply bool_decide_eq_false_1 in Hval. by apply eq_None_not_Some.
  - rewrite Hvr in Hvp |- *. by apply verify_verified.
Qed.
(** The removed version as it was verified. *)
Lemma loser_found ob g ts fr vr t : verified cf ob g ts fr vr -> t ∈ ts -> exists lv, loser_of vr t = Some lv.
Proof.
  intros Hv Ht. destruct (verified_loser cf ob _ _ _ _ _ Hv Ht) as (kv & Hkv & Hid & _). unfold loser_of.
  destruct (find _ (vr_losers vr)) as [kv'|] eqn:Hf; [by eexists|].
  apply list_elem_of_In, in_combine_r in Hkv. pose proof (find_none _ _ Hf kv Hkv) as Hn. cbv beta in Hn.
  by rewrite Hid, Z.eqb_refl in Hn.
Qed.
Lemma loser_parts_of ts vr t lv lp : t ∈ ts -> loser_of vr t = Some lv -> lp ∈ vv_parts lv -> lp ∈ loser_parts ts vr.
Proof.
  intros Ht Hl Hp. unfold loser_parts. apply list_elem_of_In, in_flat_map. exists t. split; [by apply list_elem_of_In|].
  rewrite Hl. by apply list_elem_of_In.
Qed.
(** What was established about the other servers. *)
Lemma removed_others start p : justified cf start p -> multiServer cf = true -> others_keep cf (pf_group p) (pf_targets p) (pf_verification p).
Proof. intros [_ (actions & Hc) _ _ _ _ _ _] Hm. by apply Hc. Qed.
Lemma bytes_range tr : bytes_of tr <= max_int64.
Proof.
  induction tr as [|e tr IH]; cbn [bytes_of]; [vm_compute; congruence|]. destruct (event_effect e); try done. apply wrap64_range.
Qed.

Lemma paced_bytes tr : paced cf tr -> (forall e, e ∈ tr -> 0 <= event_size e <= max_int64 - maxBytes cf) ->
  0 <= bytes_of tr /\ (bytes_of tr <= Z.max 0 (maxBytes cf) \/
  exists newer e older, tr = (newer ++ e :: older)%list /\ event_effect e = EDone /\ bytes_of older = 0 /\
    bytes_of tr = event_size e /\ maxBytes cf < event_size e).
Proof.
  induction tr as [|e tr IH]; intros Hp Hsz; [cbn; split; [lia|left; lia]|].
  destruct Hp as [(_ & Hlt & Hfit & _) Hp].
  destruct IH as [Hpos IH]; [done|intros x Hx; apply Hsz; by right|]. pose proof (Hsz e ltac:(left)) as He.
  cbn [bytes_of]. destruct (event_effect e) eqn:Heff.
  2,3: split; [done|]; destruct IH as [IH|(newer & x & older & -> & Hr)]; [by left|right; by exists (e :: newer), x, older].
  assert (Hsum : wrap64 (bytes_of tr + event_size e) = bytes_of tr + event_size e).
  { apply wrap64_id. pose proof (eq_refl : min_int64 = - 9223372036854775808). lia. }
  rewrite Hsum in *. split; [lia|]. destruct (Z.eq_dec (bytes_of tr) 0) as [E0|E0]; [|left; lia].
  rewrite E0, Z.add_0_l. destruct (Z.lt_ge_cases (maxBytes cf) (event_size e)) as [Hbig|]; [|left; lia].
  right. by exists [], e, tr.
Qed.
End helpers.

(** ** Batches *)

Lemma elem_of_batch stamps all a :
  a ∈ List.filter (fun a => existsb (Z.eqb (ac_created_at a)) stamps) all <-> a ∈ all /\ ac_created_at a ∈ stamps.
Proof.
  rewrite elem_of_lfilter, existsb_elem. split; intros [Ha Hx]; split; try done.
  - destruct Hx as (x & Hx & <-%Z.eqb_eq). done.
  - exists (ac_created_at a). split; [done|]. apply Z.eqb_refl.
Qed.

Lemma with_status_same st l : (forall a, a ∈ l -> ac_status a = st) -> with_status_of st l = l.
Proof.
  induction l as [|a l IH]; intros Hl; [done|]. cbn. rewrite (Hl a) by left. rewrite String.eqb_refl. f_equal. apply IH.
  intros x Hx. apply Hl. by right.
Qed.

Lemma with_status_none st st' l : (forall a, a ∈ l -> ac_status a = st) -> String.eqb st st' = false -> with_status_of st' l = [].
Proof.
  intros Hl Hne. induction l as [|a l IH]; [done|]. cbn. rewrite (Hl a) by left. rewrite Hne. apply IH.
  intros x Hx. apply Hl. by right.
Qed.

Lemma with_status_all st l a : length (with_status_of st l) = length l -> a ∈ l -> ac_status a = st.
Proof.
  induction l as [|b l IH]; [inversion 2|]. cbn. destruct (String.eqb_spec (ac_status b) st) as [Hb|Hb]; cbn.
  - intros [= Hl] [->|Ha]%elem_of_cons; [done|by apply IH].
  - intros Hl. pose proof (List.filter_length_le (fun a => String.eqb (ac_status a) st) l). unfold with_status_of in Hl. lia.
Qed.

Section theorems.
Context `{Unicode} `{Doublestar} `{RegexSyntax} {W : World} {D : Methods} (cf : config).
Notation state := (xstate event).

(** C14: a run only removes what its group, as read in this run, still decides to
    remove: the file is one of the group's, decided "remove", not protected, with the
    paths that were approved, and neither shared between episodes, the target of a
    shortcut, an optimized version nor a member of a disc; the group is queued, its
    decisions pass the last-line check, no exclusion covers it, and neither its
    library is disabled nor a protection of its profile holds the file. *)
Theorem removals_still_wanted (s : state) (p : performed) : fresh s -> removed_by cf s p ->
  let g := pf_group p in
  let f := tg_file (pf_target p) in
  let v := gf_version f in
  (tg_id (pf_target p), f) ∈ xg_files g /\ dg_status (xg_group g) = GroupQueued /\ ValidateDecisions (xg_group g) = None /\
  gf_decision f = DecisionRemove /\ gf_protected f = false /\
  samePathList (ac_paths (tg_action (pf_target p))) (partPaths v) = true /\
  isShared v = false /\ hasShortcut v = false /\ isOptimized v = false /\ discMember (cf_mapper cf) v = None /\
  ExclusionReason (cf_exclusions cf) (xg_group g) = None /\
  ProtectionReason (profileFor cf g) v (cf_library_names cf) = None /\
  (forall l, cf_libraries cf !! mv_library_id v = Some l -> sl_enabled l = true) /\
  crossServerRecordProblem cf g = false.
Proof.
  intros Hf Hp. pose proof (removed_justified cf s p Hf Hp) as Hj. cbv zeta.
  destruct (removed_target cf _ p Hj) as (actions & n & fr & _ & _ & _ & Hin & _ & Htp & Hval & Hna & Hq & Hcs & _).
  unfold targetProblem in Htp. destruct (negb (decided_remove _) || _) eqn:E1; [done|]. destruct (negb (samePathList _ _)) eqn:E2; [done|].
  destruct (IsDisc _ && _); [done|]. destruct (isShared _) eqn:E3; [done|]. destruct (hasShortcut _) eqn:E4; [done|].
  destruct (isOptimized _) eqn:E5; [done|]. destruct (bool_decide (is_Some (discMember _ _))) eqn:E6; [done|].
  apply orb_false_iff in E1 as [E1%negb_false_iff E1']. unfold notAllowedNow in Hna. rewrite !orb_false_iff in Hna.
  destruct Hna as [[Hx _] Hfiles].
  assert (Hfa : file_not_allowed cf (profileFor cf (pf_group p)) (tg_action (pf_target p), Some (tg_id (pf_target p), tg_file (pf_target p))) = false).
  { apply not_true_is_false. intros Hy. apply not_true_iff_false in Hfiles. apply Hfiles, existsb_elem. eauto. }
  unfold file_not_allowed in Hfa. cbn [snd] in Hfa. apply orb_false_iff in Hfa as [Hlib Hprot].
  split_and!; try done.
  - by apply (ju_status _ _ _ Hj).
  - by apply String.eqb_eq.
  - by apply negb_false_iff.
  - apply bool_decide_eq_false_1 in E6. by apply eq_None_not_Some.
  - apply bool_decide_eq_false_1 in Hx. by apply eq_None_not_Some.
  - apply bool_decide_eq_false_1 in Hprot. by apply eq_None_not_Some.
  - intros l Hl. rewrite Hl in Hlib. by apply negb_false_iff.
Qed.


(** A run carries out a removal only if its row was pending in the database when
    it was marked running, with a target still marked for removal (or was running
    already), and neither the run nor the removal is a dry run by then. *)
Theorem removals_started_from_queue (s : state) (p : performed) : fresh s -> removed_by cf s p ->
  let a := tg_action (pf_target p) in
  (exists old, sd_actions (pf_before p) !! ac_id a = Some old /\
     (ac_status old = ActionRunning \/ ac_status old = ActionPending /\ action_removable (pf_before p) a = true)) /\
  pf_dry_run p = false /\ ac_dry_run a = false.
Proof.
  intros Hf Hp. pose proof (removed_justified cf s p Hf Hp) as [_ _ _ Hd (old & Ho & Hq & Hr) _]. cbv zeta. split; [|done].
  exists old. split; [done|]. unfold isQueuedStatus in Hq. apply orb_true_iff in Hq as [Hq%String.eqb_eq|Hq%String.eqb_eq]; auto.
Qed.

(** A run that starts as a dry run removes nothing, whatever happens during it. *)
Theorem dry_run_removes_nothing (s : state) : fresh s -> st_dry_run (cf_settings cf) = true ->
  forall p, ~ removed_by cf s p.
Proof. intros Hf Hd p. destruct (queue_good cf (xs_clock s) s eq_refl Hf) as (_ & _ & _ & Hdry). by apply Hdry. Qed.

(** A run starts (or simulates) no more removals than the limit per run, none
    at all with a limit of 0 or less. *)
Theorem run_count_bounded (s : state) : fresh s ->
  Z.of_nat (length (xs_trace (snd (ProcessQueue cf s)))) <= Z.max 0 (st_max_deletions_per_run (cf_settings cf)).
Proof.
  intros Hf. destruct (queue_good cf (xs_clock s) s eq_refl Hf) as (Hp & _). revert Hp. generalize (xs_trace (snd (ProcessQueue cf s))).
  intros [|e tr]; [cbn; lia|]. intros [[Hl _] _]. unfold maxCount in Hl. rewrite length_cons. lia.
Qed.

(** Three failures in a row stop the run: no removal starts when the last three
    that ended (stale ones apart) all failed. *)
Theorem three_failures_stop (s : state) newer e older : fresh s ->
  xs_trace (snd (ProcessQueue cf s)) = (newer ++ e :: older)%list -> failures_in_row older < 3.
Proof.
  intros Hf Ht. destruct (queue_good cf (xs_clock s) s eq_refl Hf) as (Hp & _). rewrite Ht in Hp. clear Ht.
  induction newer as [|x newer IH]; cbn [paced app] in Hp; [|apply IH, Hp].
  by destruct Hp as [(_ & _ & _ & Hfail) _].
Qed.
(** The bytes a run removes stay within the limit per run, unless its first
    removal alone is larger: then it is the only one. (Sizes are not negative, and
    the limit is small enough for the sums not to wrap around.) *)
Theorem run_bytes_bounded (s : state) : fresh s ->
  let tr := xs_trace (snd (ProcessQueue cf s)) in
  (forall e, e ∈ tr -> 0 <= event_size e <= max_int64 - maxBytes cf) ->
  bytes_of tr <= Z.max 0 (maxBytes cf) \/
  exists newer e older, tr = (newer ++ e :: older)%list /\ event_effect e = EDone /\ bytes_of older = 0 /\
    bytes_of tr = event_size e /\ maxBytes cf < event_size e.
Proof.
  intros Hf. cbv zeta. destruct (queue_good cf (xs_clock s) s eq_refl Hf) as (Hp & _). revert Hp. generalize (xs_trace (snd (ProcessQueue cf s))).
  intros tr Hp Hsz. apply paced_bytes in Hp; [|done]. destruct Hp as [_ Hp]. destruct Hp as [?|?]; [left; lia|by right].
Qed.
(** A group ends "resolved" only when something of its approval batch is left
    and every removal of the batch succeeded: not when one failed, was skipped,
    cancelled, only simulated, or is still to run. *)
Theorem resolved_means_removed (stamps : list time) (all : list Action) :
  group_outcome stamps all = Some GroupResolved <->
  (exists a, a ∈ all /\ ac_created_at a ∈ stamps) /\
  forall a, a ∈ all -> ac_created_at a ∈ stamps -> ac_status a = ActionSucceeded.
Proof.
  unfold group_outcome. set (mine := List.filter _ all).
  assert (Hmine : forall a, a ∈ mine <-> a ∈ all /\ ac_created_at a ∈ stamps) by apply elem_of_batch.
  split.
  - destruct (Z.eqb_spec (Z.of_nat (length mine) - Z.of_nat (length (with_status_of ActionCancelled mine))) 0) as [|Hne]; [done|].
    repeat match goal with |- context [if ?b then _ else _] => destruct b eqn:?; [done|] end.
    match goal with |- context [if ?b then _ else _] => destruct b eqn:Hs; [|done] end. intros _. cbn [andb] in *. repeat match goal with Hx : (0 <? _) = false |- _ => apply Z.ltb_ge in Hx end.
    apply Z.eqb_eq in Hs. assert (Hall : length (with_status_of ActionSucceeded mine) = length mine) by lia.
    split.
    + destruct mine as [|a mine'] eqn:E; [by cbn in Hne|]. exists a. apply Hmine. left.
    + intros a Ha Hst. eapply with_status_all; [exact Hall|]. by apply Hmine.
  - intros [(a & Ha & Hst) Hall].
    assert (Hin : a ∈ mine) by (by apply Hmine).
    assert (Hs : forall x, x ∈ mine -> ac_status x = ActionSucceeded) by (intros x [? ?]%Hmine; by apply Hall).
    rewrite !(with_status_none _ _ _ Hs) by done. rewrite (with_status_same _ _ Hs).
    cbn [length Z.of_nat]. rewrite !Z.sub_0_r. destruct mine as [|b mine']; [inversion Hin|].
    destruct (Z.eqb_spec (Z.of_nat (length (b :: mine'))) 0) as [E|E]; [by cbn in E|]. cbn [Z.ltb Z.compare Z.add].
    destruct (Z.eqb_spec 0 (Z.of_nat (length (b :: mine')))) as [E'|]; [by rewrite <- E' in E|]. by rewrite Z.eqb_refl.
Qed.
(** C10: With two or more servers, no removal takes the last copy of another server's item: right before it,
    every other enabled server that lists the version answered as itself, played nothing of what
    it lists, and its item still had the listed file and another version (no optimized or
    report-only one) all of whose files were on disk with the size the server reports and were
    each proven a different file from every file of the version removed. *)
Theorem other_servers_keep_a_copy (s : state) (p : performed) : fresh s -> removed_by cf s p -> multiServer cf = true ->
  exists lv, loser_of (pf_verification p) (pf_target p) = Some lv /\
  forall e srv, e ∈ mv_other_servers (tg_version (pf_target p)) -> cf_servers cf !! ol_server_id e = Some srv -> ms_enabled srv = true ->
    (exists n id, w_identity n (ol_server_id e) = Got id /\ equal_fold (trim_space id) (trim_space (ms_machine_identifier srv)) = true) /\
    (exists n ids, w_sessions n (ol_server_id e) = Got ids /\ forall k, k ∈ listingPlayingIDs e -> k ∉ ids) /\
    exists n it o, w_item n (ol_server_id e) (trim_space (ol_rating_key e)) = Got it /\ still_listed srv e it = true /\
      o ∈ it_versions it /\ listingVersion srv e o = false /\ isOptimized o = false /\ mv_report_only o = [] /\ mv_parts o <> [] /\
      forall part, part ∈ mv_parts o -> exists local n' fi,
        ToLocal (cf_mapper cf) PathSourceServer (ol_server_id e) (mp_path part) = Some local /\
        fv_stat (w_fs n') local = Some fi /\ fi_regular fi = true /\ fi_size fi = mp_size part /\
        forall lp, lp ∈ vv_parts lv -> compared_distinct local (vp_local lp).
Proof.
  intros Hf Hp Hm. pose proof (removed_justified cf s p Hf Hp) as Hj. destruct (removed_others cf _ p Hj Hm) as [_ Hall].
  destruct (removed_target cf _ p Hj) as (actions & n0 & fr & _ & _ & _ & _ & Ht & _ & _ & _ & _ & _ & Hv & _).
  destruct (loser_found cf _ _ _ _ _ _ Hv Ht) as [lv Hlv]. exists lv. split; [exact Hlv|]. intros e srv He Hs Hen.
  assert (Hel : e ∈ listings_of (pf_targets p)).
  { apply list_elem_of_In, in_flat_map. exists (pf_target p). split; by apply list_elem_of_In. }
  rewrite Forall_forall in Hall. destruct (Hall e Hel srv Hs Hen) as [((_ & n1 & id & Hid & Hsame) & _ & n2 & ids & Hses & Hidle) Hit].
  unfold cf_server in Hsame. rewrite Hs in Hsame. split; [by exists n1, id|]. split; [exists n2, ids; split; [done|by eauto]|].
  destruct Hit as (n3 & it & Hitem & Hstill & _ & o & Ho & Hmay & Hparts). exists n3, it, o.
  unfold may_survive in Hmay. rewrite !andb_true_iff, !negb_true_iff, Nat.eqb_eq, Nat.eqb_neq in Hmay.
  destruct Hmay as [[[Hm1 Hm2] Hm3] Hm4%nil_length_inv]. split_and!; try done; [by intros E; rewrite E in Hm3|].
  intros part Hpart. rewrite Forall_forall in Hparts. destruct (Hparts part Hpart) as (_ & _ & local & n4 & fi & Hl & Hst & Hr & Hsz & Hdis).
  exists local, n4, fi. split_and!; try done. intros lp Hlp. rewrite Forall_forall in Hdis. apply Hdis. by eapply (loser_parts_of _ _ _ _ _ Ht Hlv).
Qed.

(** C11: With two or more servers, a removal starts only after the libraries of every other enabled server that could
    list its files were read again and were as the scan recorded them: a library was recorded, has
    the same folders, was not being scanned, and either reports no newer scan or change, or its
    listing still has the recorded fingerprint. A server with storage of its own counts only
    where a folder of it overlaps the files; a library that is never listed always counts. *)
Theorem other_libraries_unchanged (s : state) (p : performed) sid : fresh s -> removed_by cf s p -> multiServer cf = true ->
  sid ∈ enabledServerIDs cf -> sid <> dg_server_id (xg_group (pf_group p)) ->
  exists rec, dg_cross_server (xg_group (pf_group p)) = Some rec /\
    (separateServer (cf_server cf sid) = true /\ serverHasMapping cf sid = false \/
     exists n secs, w_sections n sid = Some secs /\ forall sec, sec ∈ secs ->
       listed_type sec = true \/ se_other_video sec = true ->
       separateServer (cf_server cf sid) = true /\
         localOverlap cf sid (se_locations sec) (target_locals cf (pf_group p) (pf_targets p)) = false \/
       exists lib, recorded_library rec sid sec = Some lib /\ sameLocations (cl_locations lib) (se_locations sec) = true /\
         se_refreshing sec = false /\ cl_refreshing lib = false /\
         (se_scanned_at sec <= cl_scanned_at lib /\ se_content_changed_at sec <= cl_content_changed_at lib \/
          cl_fingerprint lib <> "" /\ exists n' mt refs, w_listing n' sid (cl_section_key lib) mt = Got refs /\
            ListingFingerprint refs = cl_fingerprint lib)).
Proof.
  intros Hf Hp Hm Hin Hne. pose proof (removed_justified cf s p Hf Hp) as Hj. destruct (removed_others cf _ p Hj Hm) as [(rec & Hrec & Hall) _].
  exists rec. split; [exact Hrec|]. destruct (Hall sid Hin Hne) as [?|(_ & _ & n & secs & Hsec & Hsafe)]; [by left|right].
  exists n, secs. split; [exact Hsec|]. intros sec Hs Hkind. rewrite Forall_forall in Hsafe.
  destruct (Hsafe sec Hs) as [[Ht Ho]|[?|(_ & lib & Hl & Hloc & Hr1 & Hr2 & Hw)]]; [by destruct Hkind; congruence|by left|right].
  exists lib. split_and!; try done. destruct Hw as [(_ & _ & ? & ?)|?]; [by left|by right].
Qed.
End theorems.

(** ** Witnesses *)

Definition fx_live : Settings := fx_settings false 10 100.
Definition fx_cfg : config := fx_config fx_live.
Definition fx_begin : xstate event := fx_start fx_approved.

(** The concrete run of [ExecVerifyFacts] removes the 720p copy second. *)
Lemma fx_removed : exists p, removed_by fx_cfg fx_begin p /\ ac_version_key (tg_action (pf_target p)) = "plex:1:13".
Proof. unfold removed_by. vm_compute. eexists. split; [left|reflexivity]. Qed.

Lemma removals_still_wanted_witness : exists p, removed_by fx_cfg fx_begin p /\
  gf_decision (tg_file (pf_target p)) = DecisionRemove /\ dg_status (xg_group (pf_group p)) = GroupQueued.
Proof.
  destruct fx_removed as (p & Hp & _). exists p. split; [exact Hp|].
  destruct (removals_still_wanted fx_cfg fx_begin p eq_refl Hp) as (_ & Hst & _ & Hd & _). by split.
Defined.


Definition fx_row : group_row := default (sample_row sample_scanned) (sd_groups fx_approved !! 1).
Definition fx_loaded : xgroup := load_row 1 fx_row.
Definition fx_keeper : Z * GroupFile := default (0, fx_file fx_a) (gr_files fx_row !! 2%nat).
Definition fx_fresh : items := [((1, "100"), Some (fx_item "100" 1 fx_versions))].


Lemma removals_started_from_queue_witness : exists p, removed_by fx_cfg fx_begin p /\ pf_dry_run p = false.
Proof.
  destruct fx_removed as (p & Hp & _). exists p. split; [exact Hp|].
  apply (removals_started_from_queue fx_cfg fx_begin p eq_refl Hp).
Defined.

Lemma dry_run_removes_nothing_witness :
  length (fx_trace (fx_settings true 10 100)) = 2%nat /\ forall p, ~ removed_by (fx_config (fx_settings true 10 100)) fx_begin p.
Proof.
  split; [vm_compute; reflexivity|]. exact (dry_run_removes_nothing (fx_config (fx_settings true 10 100)) fx_begin eq_refl eq_refl).
Defined.

Lemma run_count_bounded_witness :
  length (fx_trace (fx_settings false 1 100)) = 1%nat /\ Z.of_nat (length (fx_trace (fx_settings false 1 100))) <= 1.
Proof.
  split; [vm_compute; reflexivity|]. exact (run_count_bounded (fx_config (fx_settings false 1 100)) fx_begin eq_refl).
Defined.

Lemma three_failures_stop_witness : exists newer e older, fx_trace fx_live = (newer ++ e :: older)%list /\ failures_in_row older < 3.
Proof.
  destruct (fx_trace fx_live) as [|e older] eqn:Ht; [vm_compute in Ht; discriminate Ht|].
  exists [], e, older. split; [reflexivity|]. exact (three_failures_stop fx_cfg fx_begin [] e older eq_refl Ht).
Defined.

Lemma run_bytes_bounded_witness : bytes_of (fx_trace (fx_settings false 10 10)) = 9000000000 /\
  (bytes_of (fx_trace (fx_settings false 10 10)) <= 10000000000 \/
   exists newer e older, fx_trace (fx_settings false 10 10) = (newer ++ e :: older)%list /\ event_effect e = EDone /\
     bytes_of older = 0 /\ bytes_of (fx_trace (fx_settings false 10 10)) = event_size e /\ 10000000000 < event_size e).
Proof.
  split; [vm_compute; reflexivity|].
  apply (run_bytes_bounded (fx_config (fx_settings false 10 10)) fx_begin eq_refl).
  assert (Hall : forallb (fun e => (0 <=? event_size e) && (event_size e <=? max_int64 - 10000000000))
    (fx_trace (fx_settings false 10 10)) = true) by (vm_compute; reflexivity).
  intros e He. apply (proj1 (forallb_elem _ _) Hall), andb_true_iff in He as [H1 H2].
  split; [by apply Z.leb_le|by apply Z.leb_le].
Defined.

(** ** Two media servers *)

(** A second server lists the 720p copy too, in an item that also has the 2160p one. *)
Definition fx_attic : MediaServer := {|
  ms_kind := MediaServerPlex; ms_machine_identifier := "m2"; ms_enabled := true; ms_storage := "shared" |}.
Definition fx_two : config := {|
  cf_settings := fx_settings false 10 100; cf_servers := {[1 := fx_plex; 2 := fx_attic]}; cf_arrs := ∅;
  cf_mappings := [fx_mapping; {| pm_source_type := PathSourceServer; pm_source_id := 2; pm_remote_path := "/v"; pm_local_path := "/data/m" |}];
  cf_libraries := ∅; cf_exclusions := []; cf_profiles := ∅; cf_default_profile := fx_profile |}.
Definition fx_listing : OtherListing := {|
  ol_server_id := 2; ol_server_name := "Attic"; ol_library_id := 5; ol_library_title := "Films"; ol_rating_key := "900"; ol_media_id := 91;
  ol_item_title := "Dune"; ol_path := "/v/Dune (2021)/Dune (2021) 720p.mkv"; ol_match := "path"; ol_item_keeps_another := Some true;
  ol_kept_by_group := None; ol_others := []; ol_hint := ""; ol_version_key := "plex:2:91"; ol_part_item_ids := [] |}.
Definition fx_listed : MediaVersion :=
  fx_full "plex:1:13" 13 "720p" [fx_part "/m/Dune (2021)/Dune (2021) 720p.mkv" 4000000000] None None [fx_listing] [].
Definition fx_attic_item : MediaItem := fx_item "900" 5
  [fx_version "" 91 "720p" "/v/Dune (2021)/Dune (2021) 720p.mkv" 4000000000; fx_version "" 92 "2160p" "/v/Dune (2021)/Dune (2021) 2160p.mkv" 50000000000].
Definition fx_record : CrossServerRecord := {|
  cs_complete := true;
  cs_servers := map (fun idm => {| cs_server_id := fst idm; cs_machine_identifier := snd idm; cs_separate := false; cs_mapped := true;
    cs_mappings := Fingerprint (cf_mapper fx_two) PathSourceServer (fst idm); cs_unread := "" |}) [(1, "m1"); (2, "m2")];
  cs_libraries := [{| cl_server_id := 2; cl_library_id := 5; cl_section_key := "5"; cl_type := "movie"; cl_locations := ["/v/"];
    cl_scanned_at := 1000; cl_content_changed_at := 900; cl_refreshing := false; cl_fingerprint := "" |}] |}.
Definition fx_shared_group : DuplicateGroup := {|
  dg_key := "plex:1:100"; dg_media_type := MediaTypeMovie; dg_title := "Dune"; dg_year := 2021;
  dg_show_title := ""; dg_season := 0; dg_episode := 0; dg_server_id := 1; dg_library_ids := None;
  dg_external_ids := ∅; dg_status := GroupPending; dg_status_reason := []; dg_flags := []; dg_profile_id := 0;
  dg_files := [set_decision "" DecisionRemove (fx_file fx_listed); set_decision "" DecisionKeep (fx_file fx_a)];
  dg_reclaimable_bytes := 4000000000; dg_signature := ""; dg_cross_server := Some fx_record |}.
(** The file comparison sees every file of the disk as an inode of one ext4 device. *)
Definition fx_compare : hooks := {|
  h_supported := true; h_open := fun p => Some (Z.of_nat (String.length p));
  h_fstat := fun fd => Some {| s_dev := 2049; s_ino := fd; s_nlink := 1; s_size := fd; s_regular := true |}; h_stat := fun _ => None;
  h_fstatfs := fun _ => Some 0xEF53; h_statfs := fun _ => None; h_mountinfo := Some (mount_table fx_mounts);
  h_major := fun dev => dev / 256; h_minor := fun dev => dev mod 256 |}.
Definition fx_two_world : World := {|
  w_env := fun _ s => s; w_db_fails := fun _ => false; w_now := fun _ => 63900000000000000000; w_cancelled := fun _ => false;
  w_settings := fun _ => Some (fx_settings false 10 100); w_path_mappings := fun _ => Some (cf_mappings fx_two);
  w_client := fun _ => true; w_identity := fun _ sid => Got (if sid =? 1 then "m1" else "m2"); w_sessions := fun _ _ => Got [];
  w_item := fun _ sid _ => Got (if sid =? 1 then fx_item "100" 1 [fx_a; fx_listed] else fx_attic_item); w_gate := fun _ _ => NotFound; w_arr_client := fun _ => false;
  w_arr_file := fun _ _ _ => Failed; w_arr_bin := fun _ _ => None; w_own_bin := fun _ => Some "/data/bin"; w_fs := fun _ => fx_disk;
  w_discs := fun _ _ => Some [];
  w_sections := fun _ _ => Some [{| se_key := "5"; se_type := "movie"; se_title := "Films"; se_uuid := ""; se_locations := ["/v"];
    se_refreshing := false; se_scanned_at := 1000; se_content_changed_at := 900; se_other_video := false |}];
  w_listing := fun _ _ _ _ => NotFound; w_ids := fun _ => fx_compare |}.
Definition fx_shared_scanned : store := fst (fst (or_else (empty_store, 0, false) (Upsert 10 fx_shared_group sample_meta empty_store))).
Definition fx_shared_approved : store := xs_store (snd (ApproveReviewed (W:=fx_two_world) 1 TriggerManual "" (fx_start fx_shared_scanned))).
Definition fx_two_start : xstate event := fx_start fx_shared_approved.
Lemma fx_two_removed : exists p, removed_by (W:=fx_two_world) fx_two fx_two_start p /\
  mv_other_servers (tg_version (pf_target p)) = [fx_listing] /\ dg_server_id (xg_group (pf_group p)) = 1.
Proof. unfold removed_by. vm_compute. eexists. split; [left|by split]. Qed.

Lemma other_servers_keep_a_copy_witness : exists p lv, removed_by (W:=fx_two_world) fx_two fx_two_start p /\
  loser_of (pf_verification p) (pf_target p) = Some lv /\
  exists o, o ∈ it_versions fx_attic_item /\ isOptimized o = false /\ mv_parts o <> [] /\
    forall part, part ∈ mv_parts o -> exists local, ToLocal (cf_mapper fx_two) PathSourceServer 2 (mp_path part) = Some local /\
      forall lp, lp ∈ vv_parts lv -> compared_distinct (W:=fx_two_world) local (vp_local lp).
Proof.
  destruct fx_two_removed as (p & Hp & He & _).
  destruct (other_servers_keep_a_copy (W:=fx_two_world) fx_two fx_two_start p eq_refl Hp ltac:(by vm_compute)) as (lv & Hlv & Hall).
  exists p, lv. split; [exact Hp|]. split; [exact Hlv|].
  destruct (Hall fx_listing fx_attic ltac:(rewrite He; left) eq_refl eq_refl) as (_ & _ & n & it & o & Hit & _ & Ho & _ & Hopt & _ & Hne & Hparts).
  injection Hit as <-. exists o. split; [exact Ho|]. split; [exact Hopt|]. split; [exact Hne|].
  intros part Hpart. destruct (Hparts part Hpart) as (local & n' & fi & Hl & _ & _ & _ & Hd). exists local. split; [exact Hl|exact Hd].
Defined.

Lemma other_libraries_unchanged_witness : exists p rec, removed_by (W:=fx_two_world) fx_two fx_two_start p /\
  dg_cross_server (xg_group (pf_group p)) = Some rec.
Proof.
  destruct fx_two_removed as (p & Hp & _ & Hsid). exists p.
  destruct (other_libraries_unchanged (W:=fx_two_world) fx_two fx_two_start p 2 eq_refl Hp ltac:(by vm_compute)) as (rec & Hrec & _);
    [apply list_elem_of_In; vm_compute; auto|by rewrite Hsid|]. exists rec. split; [exact Hp|exact Hrec].
Defined.
