(* ===== verification/ExecStore.v ===== *)
(** * Runs, approvals and the database

    Approvals, cancellations, recovery and queue runs write the database only by
    transactions of Store.v, as everyone else does: so whatever holds after every
    transaction holds after them, and while they are under way. *)

From S2P Require Import Prelude GoStd Models Paths Store StoreFacts Pathmap ExecModel ExecWorld ExecApprove ExecVerify ExecAssess ExecRun ExecFacts.
Local Open Scope string_scope.
Local Open Scope Z_scope.

(** [transaction f]: [f] is a transaction, or changes nothing. *)
Definition transaction `{Unicode} {A} (f : store -> store * A) : Prop := forall s, rtc sstep s (fst (f s)).

Section facts.
Context `{Unicode} `{Doublestar} `{RegexSyntax} {W : World} {D : Methods} (Henv : env_ok W).

Definition evolves {E} (s s' : xstate E) : Prop := rtc sstep (xs_store s) (xs_store s').
#[export] Instance evolves_preorder E : PreOrder (@evolves E).
Proof. split; [intros s; apply rtc_refl|]. intros s1 s2 s3 H1' H2'. unfold evolves in *. by transitivity (xs_store s2). Qed.

(** What a call to the database may be refused with changes nothing. *)
Definition attempt (f : store -> store_error + store) (s : store) : store_error + (store * unit) :=
  match f s with inl e => inl e | inr s' => inr (s', tt) end.

Context {E : Type}.
Notation evolving m := (rel (E:=E) evolves m).

Lemma db_evolves {A} (f : store -> store * A) : transaction f -> evolving (db f).
Proof.
  intros Hf s. unfold db, evolves. destruct (w_db_fails _); cbn; [apply Henv|].
  specialize (Hf (w_env (xs_clock s) (xs_store s))). destruct (f _) as [st x]. cbn in *.
  etransitivity; [apply Henv|exact Hf].
Qed.
Lemma db_try_evolves {A} (f : store -> store_error + (store * A)) :
  (forall s s' x, f s = inr (s', x) -> rtc sstep s s') -> evolving (db_try f).
Proof.
  intros Hf. apply db_evolves. intros s. destruct (f s) as [e|[s' x]] eqn:Hs; [apply rtc_refl|by eapply Hf].
Qed.
Lemma db_read_evolves {A} (f : store -> A) : evolving (db_read f).
Proof. apply db_evolves. intros s. apply rtc_refl. Qed.
Lemma ask_evolves {A} (f : nat -> A) : evolving (ask f).
Proof. intros s. apply rtc_refl. Qed.
Lemma get_run_evolves : evolving get_run.
Proof. intros s. apply rtc_refl. Qed.
Lemma get_clock_evolves : evolving get_clock.
Proof. intros s. apply rtc_refl. Qed.
Lemma start_evolves_run r : evolving (start_run r).
Proof. intros s. apply rtc_refl. Qed.
Lemma modify_evolves f : evolving (modify_run f).
Proof. intros s. apply rtc_refl. Qed.
Lemma emit_evolves e : evolving (emit e).
Proof. intros s. apply rtc_refl. Qed.

Lemma update_evolves now a : evolving (db (UpdateAction now a)).
Proof. apply db_evolves. intros s. apply rtc_once, st_update. Qed.
Lemma start_evolves now a :
  evolving (db (fun st => let '(st', res) := UpdateAction now a st in (st', (st, res)))).
Proof.
  apply db_evolves. intros s. pose proof (st_update s now a) as Hs. destruct (UpdateAction now a s) as [s' r]. by apply rtc_once.
Qed.
Lemma cancel_evolves now gid : evolving (db (CancelPendingForGroup now gid)).
Proof. apply db_evolves. intros s. apply rtc_once, st_cancel_group. Qed.
Lemma create_evolves now a : evolving (db_try (CreateAction now a)).
Proof. apply db_try_evolves. intros s s' x Hs. by eapply rtc_once, st_create. Qed.
Lemma status_if_evolves now id from to reason : evolving (db_try (UpdateStatusIf now id from to reason)).
Proof. apply db_try_evolves. intros s s' x Hs. by eapply rtc_once, st_status_if. Qed.
Lemma status_evolves now id to reason : evolving (db_try (attempt (UpdateStatus now id to reason))).
Proof.
  apply db_try_evolves. unfold attempt. intros s s' x Hs. destruct (UpdateStatus _ _ _ _ s) eqn:Hu; [done|].
  injection Hs as <- <-. by eapply rtc_once, st_status.
Qed.
Lemma flag_evolves now id flag on : evolving (db_try (attempt (SetFlag now id flag on))).
Proof.
  apply db_try_evolves. unfold attempt. intros s s' x Hs. destruct (SetFlag _ _ _ _ s) eqn:Hu; [done|].
  injection Hs as <- <-. by eapply rtc_once, st_flag.
Qed.
Lemma list_evolves gid : evolving (db_read (ListByGroup gid)).
Proof. apply db_read_evolves. Qed.
#[local] Hint Resolve db_read_evolves ask_evolves get_run_evolves get_clock_evolves modify_evolves emit_evolves update_evolves start_evolves
  cancel_evolves create_evolves status_if_evolves status_evolves flag_evolves : runs.

Lemma get_group_evolves gid : evolving (get_group gid).
Proof. apply db_read_evolves. Qed.
#[local] Hint Resolve get_group_evolves : runs.

(** ** Approvals *)

Lemma create_batch_evolves g dry stamp targets : evolving (create_batch g dry stamp targets).
Proof.
  induction targets as [|t targets IH]; cbn [create_batch]; [run_steps|].
  apply rel_bind; [typeclasses eauto|run_steps|intros now]. apply rel_bind; [typeclasses eauto|run_steps|intros created].
  destruct created as [[e|a]|]; run_steps.
Qed.
#[local] Hint Resolve create_batch_evolves : runs.
Lemma approve_evolves gid trigger signature : evolving (ApproveReviewed gid trigger signature).
Proof. unfold ApproveReviewed, queue_batch, commit_approval. run_steps. Qed.
Lemma cancel_group_evolves gid : evolving (CancelGroup gid).
Proof. unfold CancelGroup. run_steps. Qed.

(** ** Queue runs *)

Lemma cancelQueued_evolves msg acts : evolving (cancelQueued msg acts).
Proof. apply rel_for_each; [typeclasses eauto|]. intros a _. run_steps. Qed.
#[local] Hint Resolve cancelQueued_evolves : runs.
Lemma fail_running_evolves acts : evolving (fail_running acts).
Proof. induction acts as [|a acts IH]; cbn [fail_running]; run_steps. Qed.
#[local] Hint Resolve fail_running_evolves : runs.
Lemma fail_group_evolves gid : evolving (fail_group gid).
Proof. unfold fail_group. run_steps. Qed.
Lemma recover_evolves : evolving recoverInterrupted.
Proof.
  unfold recoverInterrupted. run_steps. apply rel_for_each; [typeclasses eauto|]. intros; apply fail_group_evolves.
Qed.
#[local] Hint Resolve recover_evolves : runs.

Lemma reading_evolves {A} (m : M E A) : rel reading m -> evolving m.
Proof.
  apply rel_weaken. intros s s' [_ Ho]. unfold evolves. induction Ho as [|x y z [n ->] _ IH]; [apply rtc_refl|].
  etransitivity; [apply Henv|exact IH].
Qed.
End facts.

Section runs.
Context `{Unicode} `{Doublestar} `{RegexSyntax} {W : World} {D : Methods} (Henv : env_ok W) (cf : config).
Notation evolving m := (rel (E:=event) (@evolves _ event) m).

#[local] Hint Resolve db_read_evolves ask_evolves get_run_evolves get_clock_evolves modify_evolves emit_evolves update_evolves start_evolves
  cancel_evolves create_evolves status_if_evolves status_evolves flag_evolves get_group_evolves cancelQueued_evolves
  recover_evolves : runs.

Lemma finish_evolves status a : evolving (finishAction status a).
Proof. unfold finishAction. run_steps. Qed.
Lemma setRunStatus_evolves gid status : evolving (setRunStatus gid status).
Proof. unfold setRunStatus. run_steps. Qed.
Lemma setPlaying_evolves gid on : evolving (setPlaying gid on).
Proof. unfold setPlaying. run_steps. Qed.
#[local] Hint Resolve finish_evolves setRunStatus_evolves setPlaying_evolves : runs.
Lemma finalize_evolves g stamps : evolving (finalizeGroup g stamps).
Proof. unfold finalizeGroup. run_steps. Qed.
Lemma skip_evolves gid acts : evolving (skipGroup gid acts).
Proof.
  unfold skipGroup. apply rel_bind; [typeclasses eauto| |intros _; run_steps].
  apply rel_for_each; [typeclasses eauto|]. intros a _. run_steps.
Qed.
#[local] Hint Resolve finalize_evolves skip_evolves : runs.
Lemma after_removals_evolves vr done : evolving (after_removals vr done).
Proof.
  unfold after_removals. destruct (List.filter _ _) as [|s l]; [run_steps|].
  apply rel_bind; [typeclasses eauto| |intros _; run_steps].
  apply rel_for_each; [typeclasses eauto|]. intros x _. apply rel_bind; [typeclasses eauto|run_steps|].
  intros notes. apply rel_for_each; [typeclasses eauto|]. intros note _. unfold appendNote. run_steps.
Qed.
#[local] Hint Resolve after_removals_evolves : runs.

Lemma execute_evolves since g ts t vr choice : evolving (execute since g ts t vr choice).
Proof. unfold execute, reread_settings, simulate, really_remove. run_steps. Qed.
Lemma may_start_evolves size : evolving (may_start cf size).
Proof. unfold may_start, halted, budgetAllows. run_steps. Qed.
#[local] Hint Resolve execute_evolves may_start_evolves : runs.
Lemma run_targets_evolves since g ts vr todo : evolving (run_targets cf since g ts vr todo).
Proof. induction todo as [|[t c] todo IH]; cbn [run_targets]; run_steps. Qed.
#[local] Hint Resolve run_targets_evolves : runs.

Lemma process_group_evolves gid acts : evolving (processGroup cf gid acts).
Proof.
  unfold processGroup. apply rel_bind; [typeclasses eauto|apply get_clock_evolves|]. intros since.
  apply rel_bind; [typeclasses eauto|run_steps|]. intros [[[stored n]|]|]; [|run_steps|run_steps].
  cbv zeta. destruct (negb _); [run_steps|]. apply rel_bind; [typeclasses eauto| |].
  - apply reading_evolves; [done|]. apply assess_reading.
  - intros v. unfold act, deferGroup, refuseGroup. run_steps.
Qed.
#[local] Hint Resolve process_group_evolves : runs.
Lemma process_batches_evolves bs : evolving (process_batches cf bs).
Proof. induction bs as [|[gid acts] bs IH]; cbn [process_batches]; run_steps. Qed.
#[local] Hint Resolve process_batches_evolves : runs.
Lemma queue_evolves : evolving (ProcessQueue cf).
Proof. unfold ProcessQueue, finish. run_steps. Qed.
End runs.
