(* ===== verification/ApproveFacts.v ===== *)
(** * Recovery and approval: lemmas *)

From S2P Require Import Prelude GoStd Models Paths Store StoreFacts ExecModel ExecWorld ExecApprove ExecFacts DiscPaths Validate Pathmap.
Local Open Scope string_scope.
Local Open Scope Z_scope.

(** * Winding down

    What failing and cancelling removals does to the store when nobody else writes:
    no removal becomes pending or running, one that failed stays failed, and so does
    a group; then what recoverInterrupted has done to every removal it listed. *)

(** No other caller writes, and no call fails. *)
Record calm_world (W : World) : Prop := {
  cw_env : forall n s, w_env n s = s;
  cw_db : forall n, w_db_fails n = false;
}.

Definition action_wound (i : Z) (a a' : Action) : Prop :=
  ac_group_id a' = ac_group_id a /\ (ac_id a = i -> ac_id a' = i) /\
  (ac_status a' = ActionRunning -> ac_status a = ActionRunning) /\
  (ac_status a' = ActionPending -> ac_status a = ActionPending) /\
  (ac_status a = ActionFailed -> ac_status a' = ActionFailed).
Definition row_wound (r r' : group_row) : Prop :=
  (row_status r = GroupFailed -> row_status r' = GroupFailed) /\
  (mem (row_status r) recoverFrom = true -> mem (row_status r') recoverFrom = true).
Definition wound_map {V} (R : Z -> V -> V -> Prop) (m m' : gmap Z V) : Prop := forall i,
  match m !! i, m' !! i with Some x, Some x' => R i x x' | None, None => True | _, _ => False end.
Definition winding (s s' : store) : Prop :=
  wound_map action_wound (sd_actions s) (sd_actions s') /\ wound_map (fun _ => row_wound) (sd_groups s) (sd_groups s').

Lemma wound_map_preorder {V} (R : Z -> V -> V -> Prop) : (forall i, PreOrder (R i)) -> PreOrder (wound_map R).
Proof.
  intros HR. split.
  - intros m i. destruct (m !! i); [reflexivity|done].
  - intros m1 m2 m3 H1 H2 i. specialize (H1 i). specialize (H2 i).
    destruct (m1 !! i), (m2 !! i), (m3 !! i); try done. by etransitivity.
Qed.
#[export] Instance action_wound_preorder i : PreOrder (action_wound i).
Proof. split; [intros a; unfold action_wound; tauto|]. unfold action_wound. intros a b c. intuition congruence. Qed.
#[export] Instance row_wound_preorder : PreOrder row_wound.
Proof. split; [intros r; unfold row_wound; tauto|]. unfold row_wound. intros a b c. tauto. Qed.
#[export] Instance winding_preorder : PreOrder winding.
Proof.
  assert (PA := wound_map_preorder action_wound _). assert (PR := wound_map_preorder (fun _ => row_wound) (fun _ => _)).
  split; [intros s; split; reflexivity|]. intros s1 s2 s3 [A1 R1] [A2 R2]. split; etransitivity; eassumption.
Qed.

(** ** One transaction *)

Lemma reopened_wound s s' : rows_reopened s s' -> wound_map (fun _ => row_wound) (sd_groups s) (sd_groups s').
Proof.
  intros Hr i. specialize (Hr i). destruct (sd_groups s !! i), (sd_groups s' !! i); try done.
  destruct Hr as (_ & _ & [E|[E E']]); unfold row_wound; rewrite ?E; [done|]. rewrite E'. by split; [intros|].
Qed.

Lemma reopen_rows now ids s : rows_reopened s (reopenEmptiedGroups now ids s).
Proof.
  intros id. destruct (sd_groups (reopenEmptiedGroups now ids s) !! id) as [r'|] eqn:Hr'.
  - apply reopen_row in Hr' as (r & -> & Hf & Ht & [->|(Hq & Hp & _)]); split_and!; auto.
  - cbn in Hr'. rewrite map_lookup_imap in Hr'. by destruct (sd_groups s !! id).
Qed.

Lemma cancel_winding now st msg cond s : isQueuedStatus st = true -> winding s (fst (cancelActions now [st] msg cond s)).
Proof.
  intros Hq. split; [|apply reopened_wound, cancel_rows]. intros i. unfold cancelActions. cbn [fst].
  rewrite reopen_actions. cbn [sd_actions set_actions]. rewrite lookup_fmap. destruct (sd_actions s !! i) as [a|]; cbn; [|done].
  destruct (_ && _) eqn:E; [|reflexivity]. apply andb_true_iff in E as [Hm _].
  apply mem_true, list_elem_of_singleton in Hm. unfold action_wound. cbn. split_and!; try done.
  intros Hf. rewrite Hf in Hm. by rewrite <- Hm in Hq.
Qed.

(** The row of a listed removal. *)
Definition known (s : store) (x : Action) : Prop :=
  exists a, sd_actions s !! ac_id x = Some a /\ ac_group_id a = ac_group_id x.

Lemma known_winding s s' x : winding s s' -> known s x -> known s' x.
Proof.
  intros [Hw _] (a & Ha & Hg). specialize (Hw (ac_id x)). rewrite Ha in Hw.
  destruct (sd_actions s' !! ac_id x) as [a'|] eqn:Ha'; [|done]. exists a'. split; [done|]. destruct Hw as [-> _]. done.
Qed.

Definition final (st : string) : Prop := st = ActionFailed \/ st = ActionCancelled.

(** What [Update] does with a final status. *)
Lemma update_winding now x s : known s x -> final (ac_status x) ->
  winding s (fst (UpdateAction now x s)) /\
  exists a', sd_actions (fst (UpdateAction now x s)) !! ac_id x = Some a' /\
    ac_status a' <> ActionPending /\ (ac_status x = ActionFailed -> ac_status a' = ActionFailed) /\
    (ac_status x = ActionFailed -> snd (UpdateAction now x s) = Updated).
Proof.
  intros (old & Hold & Hg) Hfin. unfold UpdateAction.
  assert (Hk : mem (ac_status x) knownActionStatuses = true) by (by destruct Hfin as [-> | ->]). rewrite Hk, Hold. cbn [negb].
  assert (Hnp : String.eqb (ac_status x) ActionPending || (String.eqb (ac_status x) ActionRunning && String.eqb (ac_status old) ActionPending) = false)
    by (by destruct Hfin as [-> | ->]). rewrite Hnp. cbn [andb].
  destruct (checkActionTransition (ac_status old) (ac_status x)) eqn:Ht; cbn [negb]; cycle 1.
  { destruct Hfin as [E|E]; rewrite E in Ht; [done|]. unfold checkActionTransition in Ht. cbn -[isQueuedStatus] in Ht.
    apply orb_false_iff in Ht as [Hq _]. split; [reflexivity|]. exists old. split_and!; try done; try (by rewrite E).
    intros Hp. by rewrite Hp in Hq. }
  set (a' := with_new_id (ac_id x) (ac_status x) (ac_created_at old) x).
  set (s1 := set_actions (<[ac_id x := a']> (sd_actions s)) s).
  assert (Hw1 : winding s s1).
  { split; [|intros i; cbn; destruct (sd_groups s !! i); [reflexivity|done]]. intros i. cbn [sd_actions set_actions s1].
    destruct (decide (ac_id x = i)) as [<-|Hne]; [|rewrite lookup_insert_ne by done; destruct (sd_actions s !! i); [reflexivity|done]].
    rewrite Hold, lookup_insert_eq. unfold action_wound, a'. cbn. split_and!; try done.
    - intros E. destruct Hfin as [E'|E']; by rewrite E' in E.
    - intros E. destruct Hfin as [E'|E']; by rewrite E' in E.
    - intros E. destruct Hfin as [E'|E']; [done|]. by rewrite E, E' in Ht. }
  assert (Hrow : sd_actions s1 !! ac_id x = Some a') by (cbn; by rewrite lookup_insert_eq).
  assert (Hst : ac_status a' <> ActionPending) by (cbn; intros E; destruct Hfin as [E'|E']; by rewrite E' in E).
  destruct (String.eqb (ac_status x) ActionCancelled && _) eqn:Hc; cbn [fst snd].
  - split; [etransitivity; [exact Hw1|]|exists a'; by rewrite reopen_actions].
    split; [intros i; rewrite reopen_actions; destruct (sd_actions s1 !! i); [reflexivity|done]|apply reopened_wound, reopen_rows].
  - split; [exact Hw1|]. by exists a'.
Qed.

(** ** Recovering *)

Section recover.
Context `{Unicode} {W : World} (Hcalm : calm_world W) {E : Type}.
Notation M := (M E).

Lemma db_calm {A} (f : store -> store * A) (s : xstate E) :
  fst (db f s) = Some (snd (f (xs_store s))) /\ xs_store (snd (db f s)) = fst (f (xs_store s)).
Proof. unfold db. rewrite (cw_db _ Hcalm), (cw_env _ Hcalm). by destruct (f (xs_store s)). Qed.
Lemma ask_store {A} (f : nat -> A) (s : xstate E) : xs_store (snd (ask f s)) = xs_store s.
Proof. done. Qed.

Lemma bind_run {A B} (m : M A) (k : A -> M B) (s : xstate E) : xbind m k s = k (fst (m s)) (snd (m s)).
Proof. unfold xbind. by destruct (m s). Qed.
Lemma ask_run {A} (f : nat -> A) (s : xstate E) : ask f s = (f (xs_clock s), tick s).
Proof. done. Qed.

(** [fail_running]: every removal of the list has failed. *)
Lemma fail_running_winds l (s : xstate E) : (forall x, x ∈ l -> known (xs_store s) x) ->
  winding (xs_store s) (xs_store (snd (fail_running l s))) /\
  (forall x, x ∈ l -> exists a', sd_actions (xs_store (snd (fail_running l s))) !! ac_id x = Some a' /\ ac_status a' = ActionFailed) /\
  fst (fst (fail_running l s)) = map ac_group_id l.
Proof.
  revert s. induction l as [|x l IH]; intros s Hk; [split_and!; [reflexivity|by intros y Hy; inversion Hy|done]|].
  cbn [fail_running]. rewrite bind_run, ask_run. cbn [fst snd]. set (now := w_now (xs_clock s)). set (x' := finished ActionFailed interruptedMessage now x).
  rewrite bind_run. destruct (db_calm (UpdateAction now x') (tick s)) as [Hres Hst].
  destruct (db (UpdateAction now x') (tick s)) as [res s1]. cbn [fst snd] in *. change (xs_store (tick s)) with (xs_store s) in *.
  destruct (update_winding now x' (xs_store s)) as (Hw & a' & Ha' & _ & Hf & Hu); [exact (Hk x ltac:(left))|by left|].
  rewrite <- Hst in Hw, Ha'. rewrite (Hu eq_refl) in Hres. subst res. rewrite bind_run.
  destruct (IH s1) as (Hw' & Hall & Hg); [intros y Hy; apply (known_winding (xs_store s)); [done|]; apply Hk; by right|].
  destruct (fail_running l s1) as [[groups n] s2]. cbn [fst snd xret] in *. split_and!.
  - by etransitivity.
  - intros y [->|Hy]%elem_of_cons; [|by apply Hall]. destruct Hw' as [Hwa _]. specialize (Hwa (ac_id x)).
    change (ac_id x') with (ac_id x) in Ha'. rewrite Ha' in Hwa. destruct (sd_actions (xs_store s2) !! ac_id x) as [a2|]; [|done].
    exists a2. split; [done|]. apply Hwa. by apply Hf.
  - cbn. by rewrite Hg.
Qed.

(** One step of [cancelQueued]. *)
Definition cancel_queued (msg : string) (a : Action) : M unit :=
  if String.eqb (ac_status a) ActionPending then
    let! now := ask w_now in
    let! _ := db (UpdateAction now (finished ActionCancelled msg now a)) in xret tt
  else xret tt.

Lemma cancel_queued_winds msg x (s : xstate E) : known (xs_store s) x ->
  winding (xs_store s) (xs_store (snd (cancel_queued msg x s))) /\
  (ac_status x = ActionPending -> exists a', sd_actions (xs_store (snd (cancel_queued msg x s))) !! ac_id x = Some a' /\
    ac_status a' <> ActionPending).
Proof.
  intros Hk. unfold cancel_queued. destruct (String.eqb_spec (ac_status x) ActionPending) as [Hp|Hp]; [|by split; [reflexivity|]].
  rewrite bind_run, ask_run. cbn [fst snd]. rewrite bind_run. set (now := w_now (xs_clock s)).
  set (x' := finished ActionCancelled msg now x).
  destruct (db_calm (UpdateAction now x') (tick s)) as [_ Hst]. destruct (db (UpdateAction now x') (tick s)) as [res s1].
  cbn [fst snd xret] in *. change (xs_store (tick s)) with (xs_store s) in *.
  destruct (update_winding now x' (xs_store s)) as (Hw & a' & Ha' & Hnp & _); [exact Hk|by right|].
  rewrite <- Hst in Hw, Ha'. split; [done|]. intros _. by exists a'.
Qed.

(** [cancelQueued]: none of the listed removals that were pending is. *)
Lemma cancelQueued_winds msg l (s : xstate E) : (forall x, x ∈ l -> known (xs_store s) x) ->
  winding (xs_store s) (xs_store (snd (cancelQueued msg l s))) /\
  forall x a', x ∈ l -> ac_status x = ActionPending -> sd_actions (xs_store (snd (cancelQueued msg l s))) !! ac_id x = Some a' ->
    ac_status a' <> ActionPending.
Proof.
  change (cancelQueued msg l s) with (for_each (cancel_queued msg) l s).
  revert s. induction l as [|x l IH]; intros s Hk; [split; [reflexivity|by intros y a' Hy; inversion Hy]|].
  cbn [for_each]. rewrite bind_run. destruct (cancel_queued_winds msg x s (Hk x ltac:(left))) as [Hw Hx].
  destruct (cancel_queued msg x s) as [u s1]. cbn [snd] in *.
  destruct (IH s1) as (Hw' & Hall); [intros y Hy; apply (known_winding (xs_store s)); [done|]; apply Hk; by right|].
  split; [by etransitivity|]. intros y a' [->|Hy]%elem_of_cons Hp Ha'; [|by eapply Hall].
  destruct Hw' as [Hwa _]. specialize (Hwa (ac_id x)). rewrite Ha' in Hwa. destruct (Hx Hp) as (a1 & Ha1 & Hn1).
  rewrite Ha1 in Hwa. intros E'. apply Hn1. by apply Hwa.
Qed.

Lemma elem_of_list_actions f s x : x ∈ list_actions f s <-> f x = true /\ exists i, sd_actions s !! i = Some x.
Proof.
  unfold list_actions. rewrite elem_of_stable_sort, elem_of_lfilter, list_elem_of_fmap. split.
  - intros [([i a] & -> & Hin%elem_of_map_to_list) Hf]. eauto.
  - intros [Hf (i & Hi)]. split; [|done]. exists (i, x). split; [done|]. by apply elem_of_map_to_list.
Qed.

Definition ids_ok (s : store) : Prop := forall i a, sd_actions s !! i = Some a -> ac_id a = i.
Lemma ids_winding s s' : winding s s' -> ids_ok s -> ids_ok s'.
Proof.
  intros [Hw _] Hi i a' Ha'. specialize (Hw i). rewrite Ha' in Hw. destruct (sd_actions s !! i) as [a|] eqn:Ha; [|done].
  apply Hw. by apply Hi.
Qed.
Lemma listed_known f s x : ids_ok s -> x ∈ list_actions f s -> known s x.
Proof. intros Hi (_ & i & Hx)%elem_of_list_actions. exists x. by rewrite (Hi _ _ Hx). Qed.

(** A group whose recovery is done: it failed, and nothing of it is pending. *)
Definition recovered (s : store) (gid : Z) : Prop :=
  (exists r, sd_groups s !! gid = Some r /\ row_status r = GroupFailed) /\
  forall i a, sd_actions s !! i = Some a -> ac_group_id a = gid -> ac_status a <> ActionPending.

Lemma recovered_winding s s' gid : winding s s' -> recovered s gid -> recovered s' gid.
Proof.
  intros [Hwa Hwr] [(r & Hr & Hf) Hp]. split.
  - specialize (Hwr gid). rewrite Hr in Hwr. destruct (sd_groups s' !! gid) as [r'|]; [|done]. exists r'. split; [done|]. by apply Hwr.
  - intros i a' Ha' Hg Hst. specialize (Hwa i). rewrite Ha' in Hwa. destruct (sd_actions s !! i) as [a|] eqn:Ha; [|done].
    destruct Hwa as (Hga & _ & _ & Hpa & _). apply (Hp i a Ha); [by rewrite <- Hga|by apply Hpa].
Qed.

Lemma fail_status_winding now gid s s' b : UpdateStatusIf now gid recoverFrom GroupFailed interrupted_text s = inr (s', b) ->
  winding s s' /\ (b = true -> exists r, sd_groups s' !! gid = Some r /\ row_status r = GroupFailed) /\
  (b = false -> forall r, sd_groups s !! gid = Some r -> mem (row_status r) recoverFrom = false).
Proof.
  unfold UpdateStatusIf. change (validGroupStatus GroupFailed) with true. change (forallb validGroupStatus recoverFrom) with true.
  cbn [negb]. destruct (sd_groups s !! gid) as [r|] eqn:Hr; [|done]. unfold recoverFrom at 1. fold recoverFrom.
  destruct (mem (row_status r) recoverFrom) eqn:Hm.
  - unfold afterStatusChange. change (statusBlocksRemovals GroupFailed) with false. cbv iota.
    intros [= <- <-]. split_and!; [|intros _; cbn; rewrite lookup_insert_eq; by eexists|done].
    split; [intros i; cbn; destruct (sd_actions s !! i); [reflexivity|done]|]. intros i. cbn.
    destruct (decide (gid = i)) as [<-|Hne]; [|rewrite lookup_insert_ne by done; destruct (sd_groups s !! i); [reflexivity|done]].
    by rewrite Hr, lookup_insert_eq.
  - intros [= <- <-]. split_and!; [reflexivity|done|]. intros _ r' [= <-]. done.
Qed.

Lemma fail_group_winds gid (s : xstate E) : ids_ok (xs_store s) ->
  winding (xs_store s) (xs_store (snd (fail_group gid s))) /\
  forall r, sd_groups (xs_store s) !! gid = Some r -> mem (row_status r) recoverFrom = true ->
    recovered (xs_store (snd (fail_group gid s))) gid.
Proof.
  intros Hids. unfold fail_group. rewrite bind_run, ask_run. cbn [fst snd]. rewrite bind_run. set (now := w_now (xs_clock s)).
  unfold db_try. match goal with |- context [db ?f (tick s)] => destruct (db_calm f (tick s)) as [Hres Hst];
    destruct (db f (tick s)) as [res s1] end. cbn [fst snd] in *. change (xs_store (tick s)) with (xs_store s) in *. subst res.
  destruct (UpdateStatusIf now gid recoverFrom GroupFailed interrupted_text (xs_store s)) as [e|[s' b]] eqn:Hu; cbn [fst snd] in *.
  - cbn. rewrite Hst. split; [reflexivity|]. intros r Hr Hm. exfalso. unfold UpdateStatusIf in Hu.
    change (validGroupStatus GroupFailed) with true in Hu. change (forallb validGroupStatus recoverFrom) with true in Hu.
    cbn [negb] in Hu. unfold recoverFrom at 1 in Hu. fold recoverFrom in Hu. by rewrite Hr, Hm in Hu.
  - destruct (fail_status_winding _ _ _ _ _ Hu) as (Hw & Ht & Hfa). rewrite <- Hst in Hw, Ht. destruct b; cbn [xret snd]; cycle 1.
    { split; [done|]. intros r Hr Hm. by rewrite (Hfa eq_refl r Hr) in Hm. }
    unfold db_read. rewrite bind_run. match goal with |- context [db ?f s1] => destruct (db_calm f s1) as [Hl Hs2]; destruct (db f s1) as [acts s2] end.
    cbn [fst snd] in *. subst acts.
    assert (Hids2 : ids_ok (xs_store s2)) by (rewrite Hs2; by eapply ids_winding).
    destruct (cancelQueued_winds not_attempted_message (ListByGroup gid (xs_store s1)) s2) as [Hw2 Hno].
    { intros x Hx. rewrite <- Hs2 in Hx. by eapply listed_known. }
    set (s3 := xs_store (snd (cancelQueued _ _ s2))) in *. rewrite Hs2 in Hw2. split; [by etransitivity|]. intros r Hr Hm. destruct (Ht eq_refl) as (r' & Hr' & Hf').
    split.
    + destruct Hw2 as [_ Hwr]. specialize (Hwr gid). rewrite Hr' in Hwr. destruct (sd_groups s3 !! gid) as [r2|]; [|done].
      exists r2. split; [done|]. by apply Hwr.
    + intros i a2 Ha2 Hg Hp. destruct Hw2 as [Hwa _]. specialize (Hwa i). rewrite Ha2 in Hwa.
      destruct (sd_actions (xs_store s1) !! i) as [a1|] eqn:Ha1; [|done]. destruct Hwa as (Hga & _ & _ & Hpa & _).
      assert (Hi : ac_id a1 = i) by (rewrite <- Hs2 in Ha1; by apply Hids2). subst i.
      apply (Hno a1 a2); [|by apply Hpa|done|done]. apply elem_of_list_actions. split; [|by eexists].
      apply Z.eqb_eq. by rewrite <- Hga.
Qed.

Lemma fail_groups_winds gids (s : xstate E) : ids_ok (xs_store s) ->
  winding (xs_store s) (xs_store (snd (for_each fail_group gids s))) /\
  forall gid r, gid ∈ gids -> sd_groups (xs_store s) !! gid = Some r -> mem (row_status r) recoverFrom = true ->
    recovered (xs_store (snd (for_each fail_group gids s))) gid.
Proof.
  revert s. induction gids as [|g gids IH]; intros s Hids; [split; [reflexivity|by intros y r Hy; inversion Hy]|].
  cbn [for_each]. rewrite bind_run. destruct (fail_group_winds g s Hids) as [Hw1 Hr1].
  destruct (fail_group g s) as [u s1]. cbn [snd] in *. destruct (IH s1) as [Hw2 Hr2]; [by eapply ids_winding|].
  split; [by etransitivity|]. intros gid r [->|Hin]%elem_of_cons Hr Hm.
  - eapply recovered_winding; [exact Hw2|by eapply Hr1].
  - destruct Hw1 as [Hwa Hwr]. specialize (Hwr gid). rewrite Hr in Hwr. destruct (sd_groups (xs_store s1) !! gid) as [r'|] eqn:Hr'; [|done].
    eapply Hr2; [done|done|]. by apply Hwr.
Qed.

(** [recoverInterrupted], alone on the database. *)
Lemma recover_winds (s : xstate E) : ids_ok (xs_store s) ->
  let s' := xs_store (snd (recoverInterrupted s)) in
  winding (xs_store s) s' /\
  (forall i a, sd_actions (xs_store s) !! i = Some a -> ac_status a = ActionRunning ->
     (exists a', sd_actions s' !! i = Some a' /\ ac_status a' = ActionFailed) /\
     forall r, sd_groups (xs_store s) !! ac_group_id a = Some r -> mem (row_status r) recoverFrom = true ->
       recovered s' (ac_group_id a)).
Proof.
  intros Hids. cbv zeta. unfold recoverInterrupted, db_read. rewrite bind_run.
  match goal with |- context [db ?f s] => destruct (db_calm f s) as [Hl Hs1]; destruct (db f s) as [running s1] end.
  cbn [fst snd] in *. subst running. set (l := list_actions _ (xs_store s)) in *. rewrite bind_run.
  destruct (fail_running_winds l s1) as (Hw & Hall & Hg); [rewrite Hs1; intros x Hx; by eapply listed_known|].
  destruct (fail_running l s1) as [[groups n] s2]. cbn [fst snd] in *. subst groups. rewrite Hs1 in Hw. rewrite bind_run.
  destruct (fail_groups_winds (dedup (map ac_group_id l)) s2) as [Hw2 Hrec]; [by eapply ids_winding|].
  destruct (for_each fail_group _ s2) as [u s3]. cbn [fst snd xret] in *. split; [by etransitivity|].
  intros i a Ha Hrun. assert (Hin : a ∈ l).
  { apply elem_of_list_actions. split; [|by eexists]. by apply String.eqb_eq. }
  pose proof (Hids _ _ Ha) as Hid. split.
  - destruct (Hall a Hin) as (a2 & Ha2 & Hf2). rewrite Hid in Ha2. destruct Hw2 as [Hwa _]. specialize (Hwa i). rewrite Ha2 in Hwa.
    destruct (sd_actions (xs_store s3) !! i) as [a3|]; [|done]. exists a3. split; [done|]. by apply Hwa.
  - intros r Hr Hm. destruct Hw as [_ Hwr]. specialize (Hwr (ac_group_id a)). rewrite Hr in Hwr.
    destruct (sd_groups (xs_store s2) !! ac_group_id a) as [r2|] eqn:Hr2; [|done].
    eapply Hrec; [|exact Hr2|by apply Hwr]. apply elem_of_dedup. by apply list_elem_of_fmap_2.
Qed.
End recover.

(** * An approval alone on the database

    When nobody else writes and no call fails, an approval whose checks pass goes
    through: every step of it is followed to its effect on the store. *)

Section approve.
Context `{Unicode} {W : World} (Hcalm : calm_world W) {E : Type}.
Notation M := (M E).

(** The group, still as the approval read it. *)
Definition unchanged (g : xgroup) (s : store) : Prop :=
  exists r, sd_groups s !! xg_id g = Some r /\ load_row (xg_id g) r = g.
Definition open_status (g : xgroup) : Prop :=
  mem (dg_status (xg_group g)) [GroupPending; GroupReview; GroupDeferred; GroupFailed] = true.

Lemma target_removable g s t : unchanged g s -> open_status g -> t ∈ approval_targets g -> fst t <> 0 ->
  actionTargetRemovable s (xg_id g) (fst t) (file_key (snd t)) = true.
Proof.
  intros (r & Hr & Hg) Ho Ht Hid. unfold actionTargetRemovable. apply Z.eqb_neq in Hid. rewrite Hid, Hr. cbn [andb].
  apply elem_of_lfilter in Ht as [Hin Ht]. apply andb_true_iff in Ht as [Ht _]. apply andb_true_iff in Ht as [Hd Hp].
  assert (Hrow : row_status r = dg_status (xg_group g)) by (by rewrite <- Hg).
  assert (Hfiles : gr_files r = xg_files g) by (by rewrite <- Hg).
  apply andb_true_iff. split.
  - rewrite Hrow. unfold open_status in Ho. apply mem_true in Ho. revert Ho. generalize (dg_status (xg_group g)).
    intros st Hst. repeat (apply elem_of_cons in Hst as [->|Hst]; [vm_compute; reflexivity|]). inversion Hst.
  - apply existsb_elem. exists t. rewrite Hfiles. split; [done|]. unfold target_matches. unfold decided_remove in Hd.
    by rewrite Hd, Hp, Hid, Z.eqb_refl, String.eqb_refl, !orb_true_r.
Qed.

(** What creating the batch does: every removal gets a row of its own. *)
Record batch_created (s s' : store) (l : list Action) : Prop := {
  bc_groups : sd_groups s' = sd_groups s;
  bc_rows : forall a, a ∈ l -> sd_actions s' !! ac_id a = Some a /\ sd_next_action s <= ac_id a;
  bc_new : forall i a, sd_actions s' !! i = Some a -> sd_actions s !! i = Some a \/ a ∈ l;
  bc_ids : forall i a, sd_actions s' !! i = Some a -> i < sd_next_action s';
}.

Lemma batch_nil s : (forall i a, sd_actions s !! i = Some a -> i < sd_next_action s) -> batch_created s s [].
Proof. intros Hi. split; [done|intros a Ha; inversion Ha|by left|done]. Qed.

Lemma batch_cons s s1 s2 a l : (forall i x, sd_actions s !! i = Some x -> i < sd_next_action s) ->
  ac_id a = sd_next_action s -> s1 = {| sd_groups := sd_groups s; sd_actions := <[sd_next_action s := a]> (sd_actions s);
    sd_next_group := sd_next_group s; sd_next_file := sd_next_file s; sd_next_action := sd_next_action s + 1 |} ->
  batch_created s1 s2 l -> (forall i x, sd_actions s1 !! i = Some x -> sd_actions s2 !! i = Some x) ->
  batch_created s s2 (a :: l).
Proof.
  intros Hi Hid -> [Hg Hr Hn Hids] Hkeep. cbn in *. split; [done| | |done].
  - intros x [->|Hx]%elem_of_cons; [split; [|lia]|split; [by apply Hr|destruct (Hr _ Hx); lia]].
    apply Hkeep. rewrite Hid. by rewrite lookup_insert_eq.
  - intros i x Hx. destruct (Hn i x Hx) as [Hs|?]; [|right; by right]. apply lookup_insert_Some in Hs as [[_ <-]|[_ ?]]; [right; left|by left].
Qed.

Definition created_as (dry : bool) (g : xgroup) (stamp now : time) (t : Z * GroupFile) (s : store) : Action :=
  let a := new_action g dry stamp t in
  with_new_id (sd_next_action s) ActionPending (if is_zero (ac_created_at a) then now else ac_created_at a) a.
Lemma create_removable g dry stamp t now s : action_removable s (new_action g dry stamp t) = true ->
  CreateAction now (new_action g dry stamp t) s = inr
    ({| sd_groups := sd_groups s; sd_actions := <[sd_next_action s := created_as dry g stamp now t s]> (sd_actions s);
        sd_next_group := sd_next_group s; sd_next_file := sd_next_file s; sd_next_action := sd_next_action s + 1 |},
     created_as dry g stamp now t s).
Proof. intros Hr. unfold CreateAction. rewrite Hr. reflexivity. Qed.

Lemma create_batch_calm g dry stamp ts (s : xstate E) :
  (forall t, t ∈ ts -> t ∈ approval_targets g /\ fst t <> 0) -> open_status g -> unchanged g (xs_store s) ->
  (forall i a, sd_actions (xs_store s) !! i = Some a -> i < sd_next_action (xs_store s)) ->
  exists l, fst (create_batch g dry stamp ts s) = inr l /\
    batch_created (xs_store s) (xs_store (snd (create_batch g dry stamp ts s))) l /\
    (forall i a, sd_actions (xs_store s) !! i = Some a ->
       sd_actions (xs_store (snd (create_batch g dry stamp ts s))) !! i = Some a).
Proof.
  revert s. induction ts as [|t ts IH]; intros s Hts Ho Hu Hi; [exists []; split_and!; [done|by apply batch_nil|done]|].
  cbn [create_batch]. rewrite bind_run, ask_run. cbn [fst snd]. rewrite bind_run. set (now := w_now (xs_clock s)).
  unfold db_try. match goal with |- context [db ?f (tick s)] => destruct (db_calm Hcalm f (tick s)) as [Hres Hst];
    destruct (db f (tick s)) as [res s1] end. cbn [fst snd] in *. change (xs_store (tick s)) with (xs_store s) in *. subst res.
  destruct (Hts t ltac:(left)) as [Htg Hid].
  assert (Hrem : action_removable (xs_store s) (new_action g dry stamp t) = true) by (by apply target_removable).
  rewrite (create_removable g dry stamp t now (xs_store s) Hrem) in *. cbn [fst snd] in *. rewrite bind_run.
  set (a := created_as dry g stamp now t (xs_store s)) in *.
  assert (Hi1 : forall i x, sd_actions (xs_store s1) !! i = Some x -> i < sd_next_action (xs_store s1)).
  { rewrite Hst. cbn. intros i x Hx. apply lookup_insert_Some in Hx as [[<- _]|[_ Hx]]; [lia|]. apply Hi in Hx. lia. }
  destruct (IH s1) as (l & Hl & Hb & Hkeep); [intros t' Ht'; apply Hts; by right|done|by rewrite Hst|done|].
  destruct (create_batch g dry stamp ts s1) as [r s2]. cbn [fst snd xret] in *. subst r. exists (a :: l). split_and!; [done| |].
  - eapply batch_cons; [exact Hi|done|exact Hst|done|done].
  - intros i x Hx. apply Hkeep. rewrite Hst. cbn. rewrite lookup_insert_ne; [done|]. apply Hi in Hx. lia.
Qed.

(** ** Reading the group again *)

Lemma get_group_calm gid (s : xstate E) :
  fst (get_group gid s) = Some (match sd_groups (xs_store s) !! gid with
    | Some r => Some (load_row gid r, gm_stable_count (gr_meta r)) | None => None end) /\
  xs_store (snd (get_group gid s)) = xs_store s.
Proof. unfold get_group, db_read. apply db_calm, Hcalm. Qed.

Lemma groupChanged_calm g b (s : xstate E) r : sd_groups (xs_store s) !! xg_id g = Some r ->
  sameApprovalState g (load_row (xg_id g) r) = true ->
  (b = true -> dg_status (xg_group g) = row_status r /\ dg_status_reason (xg_group g) = dg_status_reason (gr_group r)) ->
  fst (groupChanged g b s) = Some false /\ xs_store (snd (groupChanged g b s)) = xs_store s.
Proof.
  intros Hr Hsame Hb. unfold groupChanged. rewrite bind_run. destruct (get_group_calm (xg_id g) s) as [Hres Hst].
  destruct (get_group (xg_id g) s) as [res s1]. cbn [fst snd xret] in *. subst res. rewrite Hr. split; [|done].
  rewrite Hsame. cbn [negb]. rewrite orb_false_r. f_equal. destruct b; [|done]. destruct (Hb eq_refl) as [E1 E2].
  cbn [andb load_row xg_group load_group set_group dg_status dg_status_reason]. unfold row_status in E1.
  rewrite <- E1, <- E2, String.eqb_refl. by rewrite bool_decide_eq_true_2.
Qed.

Lemma cancel_keeps_row now gid s id r : sd_groups s !! id = Some r -> row_status r <> GroupQueued ->
  sd_groups (fst (CancelPendingForGroup now gid s)) !! id = Some r.
Proof.
  intros Hr Hq. unfold CancelPendingForGroup, cancelPendingActions, cancelPending, cancelActions. cbn [fst].
  cbn. rewrite map_lookup_imap. cbn. rewrite Hr. cbn. destruct (String.eqb_spec (row_status r) GroupQueued); [done|].
  by rewrite andb_false_r.
Qed.

Lemma cancel_clears now gid s i a : sd_actions (fst (CancelPendingForGroup now gid s)) !! i = Some a ->
  ac_group_id a = gid -> ac_status a <> ActionPending.
Proof.
  unfold CancelPendingForGroup, cancelPendingActions, cancelPending.
  destruct (cancelActions _ _ _ _ s) as [s' n] eqn:Hc. cbn [fst]. intros Ha Hg Hp.
  destruct (cancel_actions _ _ _ _ _ _ _ Hc i a Ha) as (b & Hb & [[-> Hno]|[-> _]]); [|done].
  rewrite Hp, Hg, Z.eqb_refl in Hno. by cbn in Hno.
Qed.

Lemma cancel_bound now gid s : (forall i a, sd_actions s !! i = Some a -> i < sd_next_action s) ->
  forall i a, sd_actions (fst (CancelPendingForGroup now gid s)) !! i = Some a ->
    i < sd_next_action (fst (CancelPendingForGroup now gid s)).
Proof.
  intros Hi i a. unfold CancelPendingForGroup, cancelPendingActions, cancelPending.
  destruct (cancelActions _ _ _ _ s) as [s' n] eqn:Hc. cbn [fst]. intros Ha.
  destruct (cancel_counters _ _ _ _ _ _ _ Hc) as (_ & -> & _).
  destruct (cancel_actions _ _ _ _ _ _ _ Hc i a Ha) as (b & Hb & _). by eapply Hi.
Qed.

(** ** From the checks to the status *)

Lemma load_group_status r now to reason id : load_row id (touch now (with_status to reason r)) =
  {| xg_id := id; xg_group := set_group to reason (dg_flags (gr_group r)) (map snd (gr_files r)) (dg_reclaimable_bytes (gr_group r)) (gr_group r);
     xg_files := gr_files r |}.
Proof. done. Qed.

Lemma commit_calm g created (s : xstate E) r : sd_groups (xs_store s) !! xg_id g = Some r -> load_row (xg_id g) r = g ->
  open_status g -> sameApprovalState g g = true ->
  fst (commit_approval g created s) = inr created /\
  sd_actions (xs_store (snd (commit_approval g created s))) = sd_actions (xs_store s) /\
  exists r', sd_groups (xs_store (snd (commit_approval g created s))) !! xg_id g = Some r' /\
    row_status r' = GroupQueued /\ gr_files r' = gr_files r.
Proof.
  intros Hr Hg Ho Hsame. unfold commit_approval. rewrite bind_run.
  destruct (groupChanged_calm g true s r Hr) as [Hc1 Hs1]; [by rewrite Hg|intros _; by rewrite <- Hg|].
  destruct (groupChanged g true s) as [c1 s1]. cbn [fst snd] in *. subst c1.
  rewrite bind_run, ask_run. cbn [fst snd]. set (now := w_now (xs_clock s1)). rewrite bind_run. unfold db_try.
  match goal with |- context [db ?f (tick s1)] => destruct (db_calm Hcalm f (tick s1)) as [Hres Hs2];
    destruct (db f (tick s1)) as [res s2] end. cbn [fst snd] in *. change (xs_store (tick s1)) with (xs_store s1) in *.
  rewrite Hs1 in *. 
  assert (Hst : dg_status (xg_group g) = row_status r) by (by rewrite <- Hg).
  assert (Hu : UpdateStatusIf now (xg_id g) [dg_status (xg_group g)] GroupQueued approval_text (xs_store s) =
    inr (set_groups (<[xg_id g := touch now (with_status GroupQueued approval_text r)]> (sd_groups (xs_store s))) (xs_store s), true)).
  { unfold UpdateStatusIf. assert (Hv : validGroupStatus (dg_status (xg_group g)) = true).
    { unfold open_status in Ho. apply mem_true in Ho. revert Ho. generalize (dg_status (xg_group g)).
      intros st Hst'. repeat (apply elem_of_cons in Hst' as [->|Hst']; [vm_compute; reflexivity|]). inversion Hst'. }
    change (validGroupStatus GroupQueued) with true. cbn [negb forallb]. rewrite Hv. cbn [negb andb]. rewrite Hr, Hst.
    assert (Hm : mem (row_status r) [row_status r] = true) by (apply mem_true; left). by rewrite Hm. }
  rewrite Hu in *. cbn [fst snd] in *. subst res. rewrite bind_run.
  set (r' := touch now (with_status GroupQueued approval_text r)) in *.
  assert (Hr' : sd_groups (xs_store s2) !! xg_id g = Some r') by (rewrite Hs2; cbn; by rewrite lookup_insert_eq).
  destruct (groupChanged_calm g false s2 r' Hr') as [Hc3 Hs3]; [|done|].
  { rewrite <- Hsame. rewrite <- Hg at 4. unfold r'. rewrite load_group_status. done. }
  destruct (groupChanged g false s2) as [c3 s3]. cbn [fst snd xret] in *. subst c3. cbn [fst snd xret]. rewrite Hs3, Hs2.
  split_and!; [done|done|]. exists r'. rewrite <- Hs2. by split_and!.
Qed.

(** The group ready for its batch: nothing of it is pending, its row as it was read. *)
Definition cleared_for (g : xgroup) (s : store) : Prop :=
  unchanged g s /\ (forall i a, sd_actions s !! i = Some a -> i < sd_next_action s) /\
  forall i a, sd_actions s !! i = Some a -> ac_group_id a = xg_id g -> ac_status a <> ActionPending.

Lemma no_pending_listed gid s : existsb (fun a => String.eqb (ac_status a) ActionPending) (ListByGroup gid s) = false ->
  forall i a, sd_actions s !! i = Some a -> ac_group_id a = gid -> ac_status a <> ActionPending.
Proof.
  intros He i a Ha Hg Hp. apply not_true_iff_false in He. apply He, existsb_elem. exists a.
  split; [|by apply String.eqb_eq]. apply elem_of_list_actions. split; [by apply Z.eqb_eq|by exists i].
Qed.

Definition queued_batch (g : xgroup) (s s' : store) (created : list Action) : Prop :=
  (exists r', sd_groups s' !! xg_id g = Some r' /\ row_status r' = GroupQueued /\ gr_files r' = xg_files g) /\
  (forall a, a ∈ created -> sd_actions s' !! ac_id a = Some a) /\
  (forall i a, sd_actions s' !! i = Some a -> ac_group_id a = xg_id g -> ac_status a = ActionPending -> a ∈ created).

(** The end of [queue_batch]. *)
Definition batch_and_commit (g : xgroup) (dry : bool) (stamp : time) : M (approve_error + list Action) :=
  let! created := create_batch g dry stamp (approval_targets g) in
  match created with inl e => xret (inl e) | inr created => commit_approval g created end.

Lemma batch_then_commit g dry stamp (s : xstate E) : (forall t, t ∈ approval_targets g -> fst t <> 0) -> open_status g ->
  sameApprovalState g g = true -> cleared_for g (xs_store s) ->
  exists created, fst (batch_and_commit g dry stamp s) = inr created /\
    queued_batch g (xs_store s) (xs_store (snd (batch_and_commit g dry stamp s))) created.
Proof.
  intros Hids Ho Hsame (Hu & Hi & Hnp). unfold batch_and_commit. rewrite bind_run.
  destruct (create_batch_calm g dry stamp (approval_targets g) s) as (l & Hl & Hb & Hkeep); [by intros t Ht; split; [|apply Hids]|done|done|done|].
  destruct (create_batch g dry stamp (approval_targets g) s) as [res s1]. cbn [fst snd] in *. subst res.
  destruct Hu as (r & Hr & Hg). destruct Hb as [Hgr Hrows Hnew _].
  destruct (commit_calm g l s1 r) as (Hc & Ha & r' & Hr' & Hq & Hf); [by rewrite Hgr|done|done|done|].
  exists l. split; [done|]. split_and!.
  - exists r'. split_and!; [done|done|]. by rewrite Hf, <- Hg.
  - intros a Hin. rewrite Ha. by apply Hrows.
  - intros i a. rewrite Ha. intros Hx Hgid Hp. destruct (Hnew i a Hx) as [Hold|?]; [|done]. by destruct (Hnp i a Hold).
Qed.

Lemma queue_batch_calm g st (s : xstate E) : (forall t, t ∈ approval_targets g -> fst t <> 0) -> open_status g ->
  sameApprovalState g g = true -> unchanged g (xs_store s) ->
  (forall i a, sd_actions (xs_store s) !! i = Some a -> i < sd_next_action (xs_store s)) ->
  (forall i a, sd_actions (xs_store s) !! i = Some a -> ac_group_id a = xg_id g -> ac_status a <> ActionRunning) ->
  exists created, fst (queue_batch g st s) = inr created /\ queued_batch g (xs_store s) (xs_store (snd (queue_batch g st s))) created.
Proof.
  intros Hids Ho Hsame Hu Hi Hnr. unfold queue_batch. rewrite bind_run. unfold db_read.
  match goal with |- context [db ?f s] => destruct (db_calm Hcalm f s) as [Hl Hs1]; destruct (db f s) as [existing s1] end.
  cbn [fst snd] in *. subst existing. rewrite bind_run, ask_run. cbn [fst snd]. set (l := ListByGroup (xg_id g) (xs_store s)).
  destruct (existsb (fun a => String.eqb (ac_status a) ActionRunning) l) eqn:Hrun.
  { exfalso. apply existsb_elem in Hrun as (a & Hin & Hr%String.eqb_eq). apply elem_of_list_actions in Hin as [Hg (i & Ha)].
    apply (Hnr i a Ha); [by apply Z.eqb_eq|done]. }
  cbv zeta. rewrite bind_run. destruct (existsb (fun a => String.eqb (ac_status a) ActionPending) l) eqn:Hp.
  - rewrite bind_run, ask_run. cbn [fst snd]. set (now := w_now (xs_clock (tick s1))).
    destruct (db_calm Hcalm (CancelPendingForGroup now (xg_id g)) (tick (tick s1))) as [Hres Hs2].
    destruct (db (CancelPendingForGroup now (xg_id g)) (tick (tick s1))) as [res s2]. cbn [fst snd] in *. subst res.
    change (xs_store (tick (tick s1))) with (xs_store s1) in Hs2. rewrite Hs1 in Hs2.
    edestruct (batch_then_commit g (st_dry_run st) (batch_stamp (w_now (xs_clock s1)) l) s2) as (created & Hc & Hq); [done|done|done| |].
    { rewrite Hs2. split_and!.
      - destruct Hu as (r & Hr & Hg). exists r. split; [|done]. apply cancel_keeps_row; [done|]. intros E'.
        unfold open_status in Ho. assert (Es : dg_status (xg_group g) = GroupQueued) by (by rewrite <- Hg). rewrite Es in Ho. by vm_compute in Ho.
      - by apply cancel_bound.
      - intros i a. apply cancel_clears. }
    exists created. split; [done|]. exact Hq.
  - cbn [xret fst snd].
    edestruct (batch_then_commit g (st_dry_run st) (batch_stamp (w_now (xs_clock s1)) l) (tick s1)) as (created & Hc & Hq); [done|done|done| |].
    { change (xs_store (tick s1)) with (xs_store s1). rewrite Hs1. split_and!; [done|done|]. by apply no_pending_listed. }
    exists created. split; [done|]. exact Hq.
Qed.

Lemma approvable_open g n manual st : checkApprovable g n manual st = None -> open_status g.
Proof.
  unfold checkApprovable, open_status. cbv zeta. generalize (dg_status (xg_group g)). intros status.
  destruct (String.eqb_spec status GroupPending) as [->|]; [done|].
  destruct (mem status [GroupReview; GroupDeferred; GroupFailed]) eqn:Hm.
  - intros _. apply mem_true in Hm. apply mem_true. by right.
  - by repeat (destruct (String.eqb status _); [done|]).
Qed.

Lemma approve_calm gid trigger sig st r (s : xstate E) : w_settings (xs_clock s) = Some st ->
  sd_groups (xs_store s) !! gid = Some r ->
  approval_checks (load_row gid r) (gm_stable_count (gr_meta r)) (String.eqb trigger TriggerManual) (trim_space sig) st
    (w_path_mappings (S (S (xs_clock s)))) = None ->
  checkApprovable (load_row gid r) (gm_stable_count (gr_meta r)) (String.eqb trigger TriggerManual) st = None ->
  (forall t, t ∈ gr_files r -> fst t <> 0) -> sameApprovalState (load_row gid r) (load_row gid r) = true ->
  (forall i a, sd_actions (xs_store s) !! i = Some a -> i < sd_next_action (xs_store s)) ->
  (forall i a, sd_actions (xs_store s) !! i = Some a -> ac_group_id a = gid -> ac_status a <> ActionRunning) ->
  exists created, fst (ApproveReviewed gid trigger sig s) = inr created /\
    queued_batch (load_row gid r) (xs_store s) (xs_store (snd (ApproveReviewed gid trigger sig s))) created.
Proof.
  intros Hst Hr Hc Hap Hids Hsame Hi Hnr. unfold ApproveReviewed. rewrite bind_run, ask_run. cbn [fst snd]. rewrite Hst.
  rewrite bind_run. unfold get_group, db_read, db. rewrite (cw_db _ Hcalm), (cw_env _ Hcalm).
  change (xs_store (tick s)) with (xs_store s). rewrite Hr. cbn [fst snd]. rewrite bind_run, ask_run. cbn [fst snd].
  cbn [xs_clock tick set_store]. rewrite Hc.
  match goal with |- context [queue_batch _ st ?s0] => change (xs_store s) with (xs_store s0) in * end.
  apply queue_batch_calm; try done.
  - intros t Ht. apply Hids. unfold approval_targets in Ht. by apply elem_of_lfilter in Ht as [Ht _].
  - by eapply approvable_open.
  - exists r. done.
Qed.
End approve.
