(* ===== verification/ApproveTheorems.v ===== *)
(** * Approvals and recovery: theorems

    What an approval queues and on which conditions; that a refused one queues
    nothing; what recovering after a restart leaves; and that everything the
    executor writes is a transaction of the store. *)

From S2P Require Import Prelude GoStd Models DiscPaths Paths Validate ExecGuards Store StoreFacts StoreTheorems Pathmap ExecModel FileId ExecWorld ExecApprove ExecVerify ExecAssess ExecRun ExecFacts ExecStore ApproveFacts Fixtures ExecVerifyFacts.
Local Open Scope string_scope.
Local Open Scope Z_scope.

(** ** What an approval returns *)

Section facts.
Context `{Unicode} {W : World} {E : Type}.

(** The removal [a] was queued for the file [t] of [g]. *)
Definition queued_for (g : xgroup) (dry : bool) (t : Z * GroupFile) (a : Action) : Prop :=
  ac_group_id a = xg_id g /\ ac_group_file_id a = fst t /\ ac_version_key a = file_key (snd t) /\
  ac_paths a = partPaths (gf_version (snd t)) /\ ac_size a = TotalSize (gf_version (snd t)) /\
  ac_status a = ActionPending /\ ac_dry_run a = dry.

Lemma queued_for_pending g dry t a : queued_for g dry t a -> ac_status a = ActionPending.
Proof. by intros (_ & _ & _ & _ & _ & ? & _). Qed.

Lemma create_action_queued g dry stamp t now st st' a : CreateAction now (new_action g dry stamp t) st = inr (st', a) ->
  queued_for g dry t a.
Proof.
  unfold CreateAction. destruct (negb (mem _ _)); [done|]. destruct (isQueuedStatus _ && _); [done|].
  intros Hc. injection Hc as _ <-. unfold queued_for. cbn. done.
Qed.

Lemma create_batch_queued g dry stamp ts : answers (E:=E) (create_batch g dry stamp ts)
  (fun r => match r with inr l => Forall2 (queued_for g dry) ts l | inl _ => True end).
Proof.
  induction ts as [|t ts IH]; cbn [create_batch]; [by apply answers_ret|].
  apply answers_next. intros now. eapply (answers_bind _ _ (fun r => match r with Some (inr a) => queued_for g dry t a | _ => True end)).
  - intros s. unfold db_try, db. destruct (w_db_fails _); [done|].
    destruct (CreateAction now (new_action g dry stamp t) (w_env (xs_clock s) (xs_store s))) as [e|[st' a]] eqn:Hc; [done|]. cbn.
    by eapply create_action_queued.
  - intros [[e|a]|] Ha.
    + apply answers_next. intros _. apply answers_next. intros ch. by apply answers_ret.
    + eapply answers_bind; [exact IH|]. intros [e|l] Hl; apply answers_ret; [done|]. by constructor.
    + apply answers_next. intros _. apply answers_next. intros ch. by apply answers_ret.
Qed.

Lemma commit_answers g created : answers (E:=E) (commit_approval g created)
  (fun r => match r with inr l => l = created | inl _ => True end).
Proof.
  unfold commit_approval. apply answers_next. intros [[]|]; try (apply answers_next; intros _; by apply answers_ret).
  apply answers_next. intros now. apply answers_next. intros [[e|[]]|]; try (apply answers_next; intros _; by apply answers_ret).
  apply answers_next. intros [[]|]; try (apply answers_next; intros _; by apply answers_ret). by apply answers_ret.
Qed.

Lemma queue_batch_answers g st : answers (E:=E) (queue_batch g st)
  (fun r => match r with inr l => Forall2 (queued_for g (st_dry_run st)) (approval_targets g) l | inl _ => True end).
Proof.
  unfold queue_batch. apply answers_next. intros [existing|]; [|by apply answers_ret].
  apply answers_next. intros now. destruct (existsb _ existing); [by apply answers_ret|]. cbv zeta.
  apply answers_next. intros [n|]; [|by apply answers_ret].
  eapply answers_bind; [apply create_batch_queued|]. intros [e|created] Hc; [by apply answers_ret|].
  eapply answers_weaken; [apply commit_answers|]. intros [e|l]; [done|]. by intros ->.
Qed.

(** The group an approval reads, and the settings. *)
Lemma approve_reads gid trigger sig (s : xstate E) created : fst (ApproveReviewed gid trigger sig s) = inr created ->
  exists st r, w_settings (xs_clock s) = Some st /\ sd_groups (w_env (S (xs_clock s)) (xs_store s)) !! gid = Some r /\
    approval_checks (load_row gid r) (gm_stable_count (gr_meta r)) (String.eqb trigger TriggerManual) (trim_space sig) st
      (w_path_mappings (S (S (xs_clock s)))) = None /\
    Forall2 (queued_for (load_row gid r) (st_dry_run st)) (approval_targets (load_row gid r)) created.
Proof.
  unfold ApproveReviewed. unfold xbind at 1, ask. destruct (w_settings (xs_clock s)) as [st|] eqn:Hst; [|done].
  unfold xbind at 1, get_group, db_read, db. cbn [xs_clock xs_store tick].
  destruct (w_db_fails (S (xs_clock s))); [done|]. cbn [fst snd].
  destruct (sd_groups (w_env (S (xs_clock s)) (xs_store s)) !! gid) as [r|] eqn:Hr; [|done].
  unfold xbind at 1. cbn [xs_clock tick set_store].
  destruct (approval_checks _ _ _ _ _ _) eqn:Hc; [done|]. intros Hq. exists st, r. split_and!; try done.
  match type of Hq with fst (queue_batch _ _ ?s0) = _ => pose proof (queue_batch_answers (load_row gid r) st s0) as Ha end.
  by rewrite Hq in Ha.
Qed.

Lemma approval_checks_pass g stable manual sig st mappings : approval_checks g stable manual sig st mappings = None ->
  (sig = "" \/ sig = dg_signature (xg_group g)) /\ checkApprovable g stable manual st = None /\
  ValidateDecisions (xg_group g) = None /\ discRemovalProblem g st manual = None /\
  (readOnlyGroup g = true -> exists ms, mappings = Some ms /\ readOnlyApprovalProblem g ms manual = None) /\
  approval_targets g <> [].
Proof.
  unfold approval_checks. destruct (negb (String.eqb sig "") && _) eqn:Hsig; [done|].
  destruct (checkApprovable _ _ _ _); [done|]. destruct (ValidateDecisions _); [done|]. destruct (discRemovalProblem _ _ _); [done|].
  intros Hc. split_and!; try done.
  - apply andb_false_iff in Hsig as [Hs%negb_false_iff%String.eqb_eq|Hs%negb_false_iff%String.eqb_eq]; auto.
  - intros Hro. rewrite Hro in Hc. destruct mappings as [ms|]; [|done]. exists ms. split; [done|].
    by destruct (readOnlyApprovalProblem g ms manual).
  - destruct (if readOnlyGroup g then _ else _) in Hc; [done|]. by destruct (approval_targets g).
Qed.
End facts.

(** ** What an approval stores *)

Section stored.
Context `{Unicode} {W : World} {E : Type}.

(** Nobody else changes or deletes the removals of [gid]. *)
Definition leaves_removals (gid : Z) : Prop := forall n st i a,
  sd_actions st !! i = Some a -> ac_group_id a = gid -> sd_actions (w_env n st) !! i = Some a.

Context (Henv : env_ok W) (gid : Z) (Hleaves : leaves_removals gid).
Definition keeps_rows (st st' : store) : Prop := forall i a,
  sd_actions st !! i = Some a -> ac_group_id a = gid -> sd_actions st' !! i = Some a.

Lemma db_keeps_rows {A} (f : store -> store * A) (s : xstate E) : (forall st, keeps_rows st (fst (f st))) ->
  keeps_rows (xs_store s) (xs_store (snd (db f s))).
Proof.
  intros Hf i a Ha Hg. unfold db. destruct (w_db_fails _); cbn [snd xs_store set_store tick]; [by apply Hleaves|].
  pose proof (Hf (w_env (xs_clock s) (xs_store s)) i a (Hleaves _ _ _ _ Ha Hg) Hg) as Hk.
  by destruct (f (w_env (xs_clock s) (xs_store s))).
Qed.

Lemma create_stores now x st st' a : sreachable st -> CreateAction now x st = inr (st', a) ->
  keeps_rows st st' /\ sd_actions st' !! ac_id a = Some a.
Proof.
  intros Hs%sreachable_ok. unfold CreateAction. destruct (negb (mem _ _)); [done|]. destruct (isQueuedStatus _ && _); [done|].
  intros Hc. injection Hc as <- <-. cbn. rewrite lookup_insert_eq. split; [|done]. intros i b Hb _. cbn.
  rewrite lookup_insert_ne; [done|]. pose proof (so_actions _ Hs _ _ Hb). lia.
Qed.

Lemma create_batch_stored g dry stamp ts (s : xstate E) l : xg_id g = gid -> sreachable (xs_store s) ->
  fst (create_batch g dry stamp ts s) = inr l ->
  keeps_rows (xs_store s) (xs_store (snd (create_batch g dry stamp ts s))) /\
  forall a, a ∈ l -> sd_actions (xs_store (snd (create_batch g dry stamp ts s))) !! ac_id a = Some a.
Proof.
  intros Hg. revert s l. induction ts as [|t ts IH]; intros s l Hs.
  { cbn. intros [= <-]. split; [intros i b Hb _; exact Hb|]. intros a Ha. inversion Ha. }
  cbn [create_batch]. rewrite bind_run, ask_run. cbn [fst snd]. rewrite bind_run. set (now := w_now (xs_clock s)).
  pose proof (create_evolves (E:=E) Henv now (new_action g dry stamp t) (tick s)) as Hev. unfold db_try, db in *.
  destruct (w_db_fails _); cbn [fst snd]; [by rewrite !bind_run|].
  pose proof (create_stores now (new_action g dry stamp t) (w_env (xs_clock (tick s)) (xs_store (tick s)))) as Hst.
  pose proof (create_action_queued g dry stamp t now (w_env (xs_clock (tick s)) (xs_store (tick s)))) as Hq.
  destruct (CreateAction now _ _) as [e|[st' a]]; cbn [fst snd] in *; [by rewrite !bind_run|].
  destruct (Hst _ _ ltac:(unfold sreachable in *; etransitivity; [exact Hs|apply Henv]) eq_refl) as [Hk Ha].
  destruct (Hq _ _ eq_refl) as [Hga _]. rewrite bind_run. set (s1 := tick (set_store _ _)).
  assert (Hs1 : sreachable (xs_store s1)) by (unfold sreachable in *; etransitivity; [exact Hs|exact Hev]).
  specialize (IH s1). destruct (create_batch g dry stamp ts s1) as [[e|l'] s2]; cbn [fst snd xret] in *; [done|].
  intros [= <-]. destruct (IH l' Hs1 eq_refl) as [Hk' Hl']. split.
  - intros i b Hb Hgb. apply Hk'; [|done]. apply Hk; [|done]. by apply Hleaves.
  - intros b [->|Hb]%elem_of_cons; [|by apply Hl']. apply Hk'; [exact Ha|congruence].
Qed.

Lemma status_keeps_rows now id from reason st st' b :
  UpdateStatusIf now id from GroupQueued reason st = inr (st', b) -> keeps_rows st st'.
Proof. unfold UpdateStatusIf. intros Hu i a Ha _. repeat case_match; simplify_eq; [exact Ha..]. Qed.

Lemma changed_keeps_rows g b (s : xstate E) : keeps_rows (xs_store s) (xs_store (snd (groupChanged g b s))).
Proof.
  unfold groupChanged, get_group, db_read. rewrite bind_run. cbn [xret snd]. apply db_keeps_rows. intros st i a Ha _. exact Ha.
Qed.

Lemma commit_stored g created (s : xstate E) l : fst (commit_approval g created s) = inr l ->
  keeps_rows (xs_store s) (xs_store (snd (commit_approval g created s))).
Proof.
  unfold commit_approval. rewrite bind_run. pose proof (changed_keeps_rows g true s) as H1.
  destruct (groupChanged g true s) as [[[]|] s1]; cbn [fst snd] in *; [by rewrite bind_run| |by rewrite bind_run].
  rewrite bind_run, ask_run. cbn [fst snd]. rewrite bind_run. set (now := w_now (xs_clock s1)). unfold db_try.
  set (f := fun st => _). pose proof (db_keeps_rows f (tick s1)) as H2. destruct (db f (tick s1)) as [res s2]. cbn [fst snd] in *.
  destruct res as [[e|[]]|]; try by rewrite bind_run. rewrite bind_run. pose proof (changed_keeps_rows g false s2) as H3.
  destruct (groupChanged g false s2) as [[[]|] s3]; cbn [fst snd xret] in *; try by rewrite bind_run.
  intros _ i a Ha Hga. apply H3; [|done]. apply H2; [|by apply H1|done]. intros st j x Hx Hgx. unfold f.
  destruct (UpdateStatusIf now _ _ _ _ st) as [e|[st' b]] eqn:Hu; [exact Hx|]. by eapply status_keeps_rows.
Qed.

Lemma queue_batch_stored g st (s : xstate E) l : xg_id g = gid -> sreachable (xs_store s) -> fst (queue_batch g st s) = inr l ->
  forall a, a ∈ l -> sd_actions (xs_store (snd (queue_batch g st s))) !! ac_id a = Some a.
Proof.
  intros Hg Hs. unfold queue_batch. rewrite bind_run. pose proof (list_evolves (E:=E) Henv (xg_id g) s) as He1.
  destruct (db_read _ s) as [[existing|] s1]; cbn [fst snd] in *; [|done]. rewrite bind_run, ask_run. cbn [fst snd].
  destruct (existsb _ existing); [done|]. cbv zeta. rewrite bind_run.
  assert (He2 : evolves s1 (snd ((if existsb (fun a => String.eqb (ac_status a) ActionPending) existing
    then let! now := ask w_now in db (CancelPendingForGroup now (xg_id g)) else xret (Some 0)) (tick s1)))).
  { destruct (existsb _ existing); [|apply rtc_refl]. rewrite bind_run. exact (cancel_evolves Henv _ _ (tick (tick s1))). }
  match goal with |- context [(if ?b then ?x else ?y) (tick s1)] => destruct ((if b then x else y) (tick s1)) as [[n|] s2] end;
    cbn [fst snd] in *; [|done]. rewrite bind_run.
  assert (Hs2 : sreachable (xs_store s2)).
  { unfold sreachable in *. etransitivity; [exact Hs|]. etransitivity; [exact He1|exact He2]. }
  pose proof (create_batch_stored g (st_dry_run st) (batch_stamp (w_now (xs_clock s1)) existing) (approval_targets g) s2) as Hb.
  pose proof (create_batch_queued (E:=E) g (st_dry_run st) (batch_stamp (w_now (xs_clock s1)) existing) (approval_targets g) s2) as Hq.
  destruct (create_batch _ _ _ _ s2) as [[e|created] s3]; cbn [fst snd] in *; [done|].
  destruct (Hb _ Hg Hs2 eq_refl) as [_ Hrows]. intros Hc a Ha.
  pose proof (commit_answers (E:=E) g created s3) as Hl. rewrite Hc in Hl. subst l.
  apply (commit_stored g created s3 created Hc); [by apply Hrows|].
  apply list_elem_of_lookup in Ha as (k & Hk). destruct (Forall2_lookup_r _ _ _ _ _ Hq Hk) as (t & _ & Hga & _). by rewrite Hga.
Qed.

Lemma approve_stored trigger sig (s : xstate E) created : sreachable (xs_store s) ->
  fst (ApproveReviewed gid trigger sig s) = inr created ->
  forall a, a ∈ created -> sd_actions (xs_store (snd (ApproveReviewed gid trigger sig s))) !! ac_id a = Some a.
Proof.
  intros Hs. unfold ApproveReviewed. rewrite bind_run, ask_run. cbn [fst snd]. destruct (w_settings _) as [st|]; [|done].
  rewrite bind_run. unfold get_group.
  set (f := fun s0 : store => _).
  pose proof (db_read_evolves (E:=E) Henv f (tick s)) as He.
  assert (Hf : forall g n, fst (db_read f (tick s)) = Some (Some (g, n)) -> xg_id g = gid).
  { intros g n. unfold db_read, db. destruct (w_db_fails _); [done|]. cbn [fst]. unfold f. destruct (_ !! gid); [|done]. by intros [= <- _]. }
  destruct (db_read f (tick s)) as [[[[g n]|]|] s1]; cbn [fst snd] in *; try done. rewrite bind_run, ask_run. cbn [fst snd].
  destruct (approval_checks _ _ _ _ _ _); [done|]. apply queue_batch_stored; [by eapply Hf|].
  unfold sreachable in *. etransitivity; [exact Hs|exact He].
Qed.
End stored.

Section theorems.
Context `{Unicode} `{Doublestar} `{RegexSyntax} {W : World} {D : Methods}.

(** C18: an approval that succeeds queued exactly the files of the group, as it was
    read, that are decided "remove", unprotected and not optimized versions, with
    their paths and sizes and as dry runs when the settings say so; there is at least
    one, and every check of an approval passed: the status (and, without a user, the
    mode, the stable scans and the flags), the last-line check of the decisions, the
    rules on full discs and on read-only servers, and a reviewed signature is the
    group's. Each removal it returns is stored under its own id when the call ends,
    unless another caller changed or deleted it meanwhile. *)
Theorem approval_queues_the_reviewed {E} gid trigger sig (s : xstate E) created :
  fst (ApproveReviewed gid trigger sig s) = inr created ->
  (exists st r, w_settings (xs_clock s) = Some st /\ sd_groups (w_env (S (xs_clock s)) (xs_store s)) !! gid = Some r /\
    let g := load_row gid r in
    let manual := String.eqb trigger TriggerManual in
    (trim_space sig = "" \/ trim_space sig = dg_signature (xg_group g)) /\ created <> [] /\
    checkApprovable g (gm_stable_count (gr_meta r)) manual st = None /\
    ValidateDecisions (xg_group g) = None /\ discRemovalProblem g st manual = None /\
    (readOnlyGroup g = true -> exists ms, w_path_mappings (S (S (xs_clock s))) = Some ms /\
      readOnlyApprovalProblem g ms manual = None) /\
    Forall2 (queued_for g (st_dry_run st)) (List.filter (fun idf => decided_remove (snd idf) && negb (gf_protected (snd idf)) &&
      negb (mv_optimized (gf_version (snd idf)))) (gr_files r)) created) /\
  (env_ok W -> sreachable (xs_store s) -> leaves_removals gid ->
    forall a, a ∈ created -> sd_actions (xs_store (snd (ApproveReviewed gid trigger sig s))) !! ac_id a = Some a).
Proof.
  intros Ha. split; [|intros Henv Hs Hl; by apply approve_stored].
  destruct (approve_reads gid trigger sig s created Ha) as (st & r & Hst & Hr & Hc & Hf). exists st, r.
  apply approval_checks_pass in Hc as (Hsig & Hap & Hval & Hdisc & Hro & Hne). cbv zeta. split_and!; try done.
  intros ->. inversion Hf. congruence.
Qed.

(** C21: Nothing is approved automatically outside the automatic mode, before the
    group was seen stable for the scans required (at least one), while it carries a
    flag that blocks it, when it is not plainly pending, or when it removes a full disc
    or involves a read-only server. *)
Theorem automatic_approval_guarded {E} gid trigger sig (s : xstate E) created :
  fst (ApproveReviewed gid trigger sig s) = inr created -> trigger <> TriggerManual ->
  exists st r, w_settings (xs_clock s) = Some st /\ sd_groups (w_env (S (xs_clock s)) (xs_store s)) !! gid = Some r /\
    st_mode st = ModeAuto /\ Z.max 1 (st_stable_scans_required st) <= gm_stable_count (gr_meta r) /\
    row_status r = GroupPending /\ (forall f, f ∈ dg_flags (gr_group r) -> BlocksAutoApproval f = false) /\
    readOnlyGroup (load_row gid r) = false /\
    (forall idf, idf ∈ gr_files r -> decided_remove (snd idf) = true -> IsDisc (gf_version (snd idf)) = false).
Proof.
  intros Ha Hm. destruct (approve_reads gid trigger sig s created Ha) as (st & r & Hst & Hr & Hc & _). exists st, r.
  apply String.eqb_neq in Hm. rewrite Hm in Hc. apply approval_checks_pass in Hc as (_ & Hap & _ & Hdisc & Hro & _).
  unfold checkApprovable in Hap. cbv zeta in Hap. change (dg_status (xg_group (load_row gid r))) with (row_status r) in Hap.
  destruct (String.eqb_spec (row_status r) GroupPending) as [Hp|]; cycle 1.
  { by repeat (destruct (mem _ _) || destruct (String.eqb _ _)). }
  destruct (String.eqb_spec (st_mode st) ModeAuto) as [Hmode|]; [|done]. cbn [negb] in Hap.
  destruct (Z.ltb_spec (gm_stable_count (gr_meta r)) (Z.max 1 (st_stable_scans_required st))); [done|].
  destruct (find BlocksAutoApproval _) eqn:Hfl; [done|]. split_and!; try done.
  - intros f Hf. eapply find_none; [exact Hfl|]. by apply list_elem_of_In.
  - apply not_true_is_false. intros Hr'. destruct (Hro Hr') as (ms & _ & Hp'). unfold readOnlyApprovalProblem in Hp'.
    by rewrite Hr' in Hp'.
  - intros idf Hin Hd. apply not_true_is_false. intros Hdi. unfold discRemovalProblem in Hdisc.
    destruct (List.filter _ _) as [|f l] eqn:Hfil in Hdisc; [|done].
    assert (Hx : snd idf ∈ List.filter (fun f => decided_remove f && IsDisc (gf_version f)) (map snd (xg_files (load_row gid r)))).
    { apply elem_of_lfilter. split; [by apply list_elem_of_fmap_2|]. by rewrite Hd, Hdi. }
    rewrite Hfil in Hx. inversion Hx.
Qed.

Lemma approve_reachable {E} gid trigger sig (s : xstate E) : env_ok W -> sreachable (xs_store s) ->
  sreachable (xs_store (snd (ApproveReviewed gid trigger sig s))).
Proof. intros Henv Hs. unfold sreachable in *. etransitivity; [exact Hs|]. by apply approve_evolves. Qed.

(** Whatever the executor does (approve, cancel, recover, run the queue), with
    other callers' transactions in between and any of its calls failing, the database
    only changes by transactions: it stays reachable, so that every invariant of the
    store holds afterwards. *)
Theorem executor_writes_are_transactions (cf : config) gid trigger sig (s : xstate event) : env_ok W ->
  sreachable (xs_store s) ->
  sreachable (xs_store (snd (ApproveReviewed gid trigger sig s))) /\ sreachable (xs_store (snd (CancelGroup gid s))) /\
  sreachable (xs_store (snd (recoverInterrupted s))) /\ sreachable (xs_store (snd (ProcessQueue cf s))).
Proof.
  intros Henv Hs. unfold sreachable in *.
  split_and!; (etransitivity; [exact Hs|]); [apply approve_evolves|apply cancel_group_evolves|apply recover_evolves|apply queue_evolves];
    exact Henv.
Qed.

(** C19: with nobody else writing and no call failing, an approval whose checks pass
    takes effect: its group is queued, its files untouched, there is one pending
    removal for each file to remove, every removal it returns is stored under its own
    id, and the removals the group has pending are exactly those: older pending
    removals were cancelled. (The group has no running removal, every version of it has
    files, and file ids are not 0.) *)
Theorem approval_takes_effect {E} gid trigger sig st r (s : xstate E) : calm_world W -> sreachable (xs_store s) ->
  w_settings (xs_clock s) = Some st -> sd_groups (xs_store s) !! gid = Some r ->
  approval_checks (load_row gid r) (gm_stable_count (gr_meta r)) (String.eqb trigger TriggerManual) (trim_space sig) st
    (w_path_mappings (S (S (xs_clock s)))) = None ->
  (forall idf, idf ∈ gr_files r -> fst idf <> 0) -> sameApprovalState (load_row gid r) (load_row gid r) = true ->
  (forall i a, sd_actions (xs_store s) !! i = Some a -> ac_group_id a = gid -> ac_status a <> ActionRunning) ->
  exists created s', ApproveReviewed gid trigger sig s = (inr created, s') /\
    (exists r', sd_groups (xs_store s') !! gid = Some r' /\ row_status r' = GroupQueued /\ gr_files r' = gr_files r) /\
    Forall2 (queued_for (load_row gid r) (st_dry_run st)) (approval_targets (load_row gid r)) created /\
    (forall a, a ∈ created -> sd_actions (xs_store s') !! ac_id a = Some a) /\
    (forall i a, sd_actions (xs_store s') !! i = Some a -> ac_group_id a = gid ->
       (ac_status a = ActionPending <-> a ∈ created)).
Proof.
  intros Hcalm Hs%sreachable_ok Hst Hr Hc Hids Hsame Hnr. pose proof Hc as (_ & Hap & _)%approval_checks_pass.
  destruct (approve_calm Hcalm gid trigger sig st r s Hst Hr Hc Hap Hids Hsame) as (created & Hok & Hq); [|done|].
  { intros i a Ha. apply (so_actions _ Hs _ _ Ha). }
  destruct (approve_reads gid trigger sig s created Hok) as (st' & r' & Hst' & Hr' & _ & Hf).
  rewrite (cw_env _ Hcalm), Hr in Hr'. injection Hr' as <-. assert (st' = st) as -> by congruence.
  destruct Hq as (Hg & Hrows & Hpend). exists created. destruct (ApproveReviewed gid trigger sig s) as [res s'].
  cbn [fst snd] in *. subst res. exists s'. split_and!; [done|done|done|done|]. intros i a Ha Hgid.
  split; [by eapply Hpend|]. intros (k & Hk)%list_elem_of_lookup.
  by destruct (Forall2_lookup_r _ _ _ _ _ Hf Hk) as (t & _ & Hq%queued_for_pending).
Qed.

End theorems.

(** ** Witnesses *)

Definition fx_unapproved : xstate event := fx_start sample_scanned.
Lemma sample_scanned_reachable : sreachable sample_scanned.
Proof. apply rtc_once. exact sample_scanned_step. Qed.
Lemma fx_calm : calm_world fx_world.
Proof. split; reflexivity. Qed.

(** The settings of a concrete automatic run: the group was seen stable twice. *)
Definition fx_auto_settings : Settings := {|
  st_dry_run := false; st_mode := ModeAuto; st_min_age_hours := 24; st_max_deletions_per_run := 10;
  st_deletion_methods := [MethodFilesystem]; st_recycle_bin_path := "/data/bin"; st_stable_scans_required := 1;
  st_max_bytes_per_run_gb := 100; st_allow_disc_removal := false; st_keep_playable_copy := true |}.
Definition fx_auto_world : World := {|
  w_env := fun _ s => s; w_db_fails := fun _ => false; w_now := fun _ => 63900000000000000000; w_cancelled := fun _ => false;
  w_settings := fun _ => Some fx_auto_settings; w_path_mappings := fun _ => Some [fx_mapping];
  w_client := fun _ => true; w_identity := fun _ _ => Got "m1"; w_sessions := fun _ _ => Got [];
  w_item := fun _ _ _ => Failed; w_gate := fun _ _ => NotFound; w_arr_client := fun _ => false;
  w_arr_file := fun _ _ _ => Failed; w_arr_bin := fun _ _ => None; w_own_bin := fun _ => None; w_fs := fun _ => fx_disk;
  w_discs := fun _ _ => Some []; w_sections := fun _ _ => None; w_listing := fun _ _ _ _ => NotFound; w_ids := fun _ => fx_ids |}.

(** What a successful approval returned. *)
Definition approved_of (x : (approve_error + list Action) * xstate event) : list Action := or_else [] (fst x).

Lemma approval_queues_the_reviewed_witness :
  let created := approved_of (ApproveReviewed 1 TriggerManual "" fx_unapproved) in
  map ac_version_key created = ["plex:1:12"; "plex:1:13"] /\
  exists st r, w_settings 0 = Some st /\ sd_groups sample_scanned !! 1 = Some r /\ ValidateDecisions (xg_group (load_row 1 r)) = None.
Proof.
  cbv zeta. split; [vm_compute; reflexivity|].
  destruct (approval_queues_the_reviewed 1 TriggerManual "" fx_unapproved (approved_of (ApproveReviewed 1 TriggerManual "" fx_unapproved)))
    as [(st & r & Hst & Hr & _ & _ & _ & Hv & _) _]; [vm_compute; reflexivity|].
  exists st, r. split_and!; [exact Hst|exact Hr|exact Hv].
Defined.

Lemma automatic_approval_guarded_witness :
  length (approved_of (ApproveReviewed (W:=fx_auto_world) 1 "scheduled" "" fx_unapproved)) = 2%nat /\
  exists st r, w_settings (World:=fx_auto_world) 0 = Some st /\ sd_groups sample_scanned !! 1 = Some r /\ st_mode st = ModeAuto /\
    row_status r = GroupPending.
Proof.
  split; [vm_compute; reflexivity|].
  destruct (automatic_approval_guarded (W:=fx_auto_world) 1 "scheduled" "" fx_unapproved
    (approved_of (ApproveReviewed (W:=fx_auto_world) 1 "scheduled" "" fx_unapproved)))
    as (st & r & Hst & Hr & Hm & _ & Hp & _); [vm_compute; reflexivity|discriminate|].
  exists st, r. split_and!; [exact Hst|exact Hr|exact Hm|exact Hp].
Defined.

Lemma executor_writes_are_transactions_witness : sreachable fx_approved /\
  sreachable (xs_store (snd (ProcessQueue (fx_config (fx_settings false 10 100)) fx_unapproved))).
Proof.
  destruct (executor_writes_are_transactions (fx_config (fx_settings false 10 100)) 1 TriggerManual "" fx_unapproved)
    as (Ha & _ & _ & Hq); [intros n s; apply rtc_refl|exact sample_scanned_reachable|]. split; [exact Ha|exact Hq].
Defined.

Lemma approval_takes_effect_witness : exists created s', ApproveReviewed 1 TriggerManual "" fx_unapproved = (inr created, s') /\
  forall a, a ∈ created -> sd_actions (xs_store s') !! ac_id a = Some a.
Proof.
  destruct (approval_takes_effect 1 TriggerManual "" (fx_settings false 10 100) (sample_row sample_scanned) fx_unapproved fx_calm
    sample_scanned_reachable) as (created & s' & He & _ & _ & Hrows & _).
  - reflexivity.
  - vm_compute. reflexivity.
  - vm_compute. reflexivity.
  - assert (Hall : forallb (fun idf : Z * GroupFile => negb (fst idf =? 0)) (gr_files (sample_row sample_scanned)) = true)
      by (vm_compute; reflexivity).
    intros idf Hin. apply (proj1 (forallb_elem _ _) Hall), negb_true_iff, Z.eqb_neq in Hin. exact Hin.
  - vm_compute. reflexivity.
  - intros i a Ha. exfalso. vm_compute in Ha. destruct i; discriminate Ha.
  - exists created, s'. split; [exact He|exact Hrows].
Defined.

(** The first removal was running when the process stopped. *)
Definition fx_interrupted : store :=
  fst (UpdateAction 50 (start_action 50 (default sample_action (sd_actions fx_approved !! 1))) fx_approved).
Lemma fx_interrupted_reachable : sreachable fx_interrupted.
Proof.
  eapply rtc_r; [|apply st_update]. apply (approve_reachable 1 TriggerManual "" fx_unapproved); [|exact sample_scanned_reachable].
  intros n s; apply rtc_refl.
Qed.
