(* ===== verification/Bytes.v ===== *)
(** * Binary files: bytes, the bounds-checked reader and the big-endian writer

    [reader] is internal/disc/reader.go, the reader every disc parser uses: the first
    access outside the buffer sets a sticky error and every later read returns zero.
    [writer] is the writer of the disc fixtures (internal/testutil/fakemedia/bdmv.go),
    whose length fields are reserved first and filled in afterwards. A byte is an
    [ascii], as in Go a string is a sequence of bytes. *)

From S2P Require Import Prelude GoStd.
Local Open Scope string_scope.
Local Open Scope Z_scope.

Definition bytes := list ascii.
Bind Scope list_scope with bytes.
Definition blen (b : bytes) : Z := Z.of_nat (length b).
(** [binary.BigEndian.UintN]: the number a group of bytes denotes. *)
Definition be_uint (b : bytes) : Z := foldl (fun acc c => acc * 256 + byte_of c) 0 b.
(** [binary.BigEndian.PutUintN]: the [n] low bytes of [z], the high one first. *)
Fixpoint put_uint (n : nat) (z : Z) : bytes :=
  match n with
  | O => []
  | S n => of_byte (Z.land (Z.shiftr z (8 * Z.of_nat n)) 0xff) :: put_uint n z
  end.
(** [b[from:to:to]]; [None] is Go's panic. *)
Definition slice (b : bytes) (from to : Z) : option bytes :=
  if (0 <=? from) && (from <=? to) && (to <=? blen b)
  then Some (take (Z.to_nat (to - from)) (drop (Z.to_nat from) b)) else None.
(** [b[i]]; [None] is Go's panic. *)
Definition byte_at (b : bytes) (i : nat) : option Z := byte_of <$> b !! i.

(** ** What a parser returns: a value, one of the package's errors, or a panic *)

Inductive parse_error := errTruncated | errBadMagic | errBadVersion | errInvalid.
Inductive outcome (A : Type) := Ok (x : A) | Err (e : parse_error) | Panic.
Arguments Ok {A} x.
Arguments Err {A} e.
Arguments Panic {A}.

Definition obind {A B} (f : A -> outcome B) (x : outcome A) : outcome B :=
  match x with Ok a => f a | Err e => Err e | Panic => Panic end.
Notation "'let?' x := m 'in' k" := (obind (fun x => k) m)
  (at level 200, x pattern, m at level 100, k at level 200) : dup_scope.
(** An index or a slice of the source: out of range it panics. *)
Definition indexed {A} (x : option A) : outcome A := match x with Some a => Ok a | None => Panic end.

#[global] Instance parse_error_eq_dec : EqDecision parse_error.
Proof. solve_decision. Defined.

(** ** The reader *)

Record reader := mk_reader {
  rd_b : bytes;
  rd_off : nat;
  rd_err : bool;          (* err: nil or errTruncated *)
}.

Definition newReader (b : bytes) : reader := mk_reader b 0 false.
Definition fail (r : reader) : reader := mk_reader (rd_b r) (rd_off r) true.
Definition avail (r : reader) : Z :=
  if rd_err r then 0 else blen (rd_b r) - Z.of_nat (rd_off r).
(** [take]: the next [n] bytes, or [None] (Go's [nil, false]). *)
Definition r_take (n : Z) (r : reader) : option bytes * reader :=
  if rd_err r then (None, r)
  else if (n <? 0) || (blen (rd_b r) - Z.of_nat (rd_off r) <? n) then (None, fail r)
  else (Some (take (Z.to_nat n) (drop (rd_off r) (rd_b r))),
        mk_reader (rd_b r) (rd_off r + Z.to_nat n) false).
Definition r_skip (n : Z) (r : reader) : reader := snd (r_take n r).
Definition r_uint (n : Z) (r : reader) : Z * reader :=
  match r_take n r with (Some s, r) => (be_uint s, r) | (None, r) => (0, r) end.
Definition r_u8 : reader -> Z * reader := r_uint 1.
Definition r_u16 : reader -> Z * reader := r_uint 2.
Definition r_u32 : reader -> Z * reader := r_uint 4.
Definition r_str (n : Z) (r : reader) : string * reader :=
  match r_take n r with (Some s, r) => (String.string_of_list_ascii s, r) | (None, r) => ("", r) end.
Definition r_seek (off : Z) (r : reader) : reader :=
  if rd_err r then r
  else if (off <? 0) || (blen (rd_b r) <? off) then fail r
  else mk_reader (rd_b r) (Z.to_nat off) false.
Definition r_sub (n : Z) (r : reader) : reader * reader :=
  match r_take n r with (Some s, r) => (newReader s, r) | (None, r) => (mk_reader [] 0 true, r) end.

(** ** The writer *)

Definition writer := bytes.
Bind Scope list_scope with writer.
Definition w_uint (n : nat) (v : Z) (w : writer) : writer := (w ++ put_uint n v)%list.
Definition w_u8 : Z -> writer -> writer := w_uint 1.
Definition w_u16 : Z -> writer -> writer := w_uint 2.
Definition w_u32 : Z -> writer -> writer := w_uint 4.
Definition w_raw (p : bytes) (w : writer) : writer := (w ++ p)%list.
Definition w_zeros (n : nat) (w : writer) : writer := (w ++ replicate n (of_byte 0))%list.
(** [ascii]: exactly [n] bytes of [s], padded with [pad]. *)
Definition w_ascii (s : string) (n : nat) (pad : ascii) (w : writer) : writer :=
  (w ++ take n (String.list_ascii_of_string s ++ replicate n pad))%list.
Definition padTo (n : nat) (w : writer) : writer :=
  if (length w <? n)%nat then w_zeros (n - length w) w else w.
(** [setU32], [setU16] and the assignment of a byte, inside the buffer. *)
Definition w_set (n at_ : nat) (v : Z) (w : writer) : writer :=
  (take at_ w ++ put_uint n v ++ drop (at_ + n) w)%list.
(** [len8], [len16], [len32]: a length field of [n] bytes, filled in with the number of
    bytes [body] writes after it. *)
Definition w_len (n : nat) (body : writer -> writer) (w : writer) : writer :=
  let at_ := length w in
  let w' := body (w_uint n 0 w) in
  w_set n at_ (Z.of_nat (length w') - Z.of_nat at_ - Z.of_nat n) w'.
(** Consecutive writes. *)
Definition w_seq (l : list (writer -> writer)) (w : writer) : writer := foldl (fun w f => f w) w l.

(** * Reading what was written: lemmas on the reader and the writer

    [at_pos pre xs] is a reader that has read [pre] and has [xs] left. Every read of
    the library is an equation on it, so that a parser is run by rewriting. A writer
    step is [Additive] when it only appends; what it appends is what it writes to the
    empty buffer. *)

(** ** Numbers *)

Lemma byte_range c : 0 <= byte_of c < 256.
Proof. unfold byte_of. pose proof (N_ascii_bounded c). lia. Qed.

Lemma byte_of_byte z : 0 <= z < 256 -> byte_of (of_byte z) = z.
Proof. intros H. unfold byte_of, of_byte. rewrite N_ascii_embedding; lia. Qed.

Lemma be_uint_acc b acc : foldl (fun a c => a * 256 + byte_of c) acc b = acc * 256 ^ blen b + be_uint b.
Proof.
  unfold be_uint, blen. revert acc. induction b as [|c b IH]; intros acc; [cbn; lia |].
  cbn [foldl length]. rewrite IH, (IH (0 * 256 + byte_of c)), Nat2Z.inj_succ, Z.pow_succ_r by lia. ring.
Qed.

Lemma be_uint_cons c b : be_uint (c :: b) = byte_of c * 256 ^ blen b + be_uint b.
Proof. unfold be_uint at 1. cbn [foldl]. rewrite be_uint_acc. ring. Qed.

Lemma be_uint_nonneg b : 0 <= be_uint b.
Proof.
  induction b as [|c b IH]; [done |]. rewrite be_uint_cons. pose proof (byte_range c).
  pose proof (Z.pow_nonneg 256 (blen b)). nia.
Qed.

Lemma be_uint_lt b : be_uint b < 256 ^ blen b.
Proof.
  induction b as [|c b IH]; [done |]. rewrite be_uint_cons. unfold blen in *. cbn [length].
  rewrite Nat2Z.inj_succ, Z.pow_succ_r by lia. pose proof (byte_range c). nia.
Qed.

Lemma length_put n z : length (put_uint n z) = n.
Proof. induction n; cbn; by rewrite ?IHn. Qed.

Lemma blen_put n z : blen (put_uint n z) = Z.of_nat n.
Proof. unfold blen. by rewrite length_put. Qed.

Lemma be_put n z : be_uint (put_uint n z) = z mod 256 ^ Z.of_nat n.
Proof.
  induction n as [|n IH]; [by rewrite Z.mod_1_r |]. cbn [put_uint]. rewrite be_uint_cons, IH, blen_put.
  change 0xff with (Z.ones 8). rewrite Z.land_ones, Z.shiftr_div_pow2 by lia.
  rewrite byte_of_byte by (apply Z.mod_pos_bound; lia).
  replace (2 ^ (8 * Z.of_nat n)) with (256 ^ Z.of_nat n) by (rewrite Z.pow_mul_r by lia; done).
  rewrite Nat2Z.inj_succ, Z.pow_succ_r by lia. rewrite (Z.mul_comm 256), Z.rem_mul_r by lia.
  change (2 ^ 8) with 256. lia.
Qed.

Lemma be_put_id n z : 0 <= z < 256 ^ Z.of_nat n -> be_uint (put_uint n z) = z.
Proof. intros H. by rewrite be_put, Z.mod_small. Qed.

(** ** Readers *)

Definition at_pos (pre xs : bytes) : reader := mk_reader (pre ++ xs)%list (length pre) false.

Lemma new_at b : newReader b = at_pos [] b.
Proof. done. Qed.

Lemma avail_at pre xs : avail (at_pos pre xs) = blen xs.
Proof. unfold avail, at_pos, blen. cbn. rewrite length_app. lia. Qed.

Lemma err_at pre xs : rd_err (at_pos pre xs) = false.
Proof. done. Qed.

Lemma take_at n pre xs ys : n = blen xs ->
  r_take n (at_pos pre (xs ++ ys)) = (Some xs, at_pos (pre ++ xs) ys).
Proof.
  intros ->. unfold r_take, at_pos, blen. cbn. rewrite !length_app.
  replace (_ || _) with false by (symmetry; apply orb_false_iff; rewrite !Z.ltb_ge; lia).
  rewrite drop_app_length, Nat2Z.id, take_app_length. by rewrite <- app_assoc, Nat.add_comm.
Qed.

Lemma take_short n pre xs : blen xs < n -> r_take n (at_pos pre xs) = (None, fail (at_pos pre xs)).
Proof.
  intros H. unfold r_take, at_pos, blen in *. cbn. rewrite length_app.
  by replace (_ || _) with true by (symmetry; apply orb_true_iff; rewrite !Z.ltb_lt; lia).
Qed.

Lemma skip_at n pre xs ys : n = blen xs -> r_skip n (at_pos pre (xs ++ ys)) = at_pos (pre ++ xs) ys.
Proof. intros H. unfold r_skip. by rewrite (take_at n pre xs ys). Qed.

Lemma uint_at n v pre ys : 0 <= v < 256 ^ Z.of_nat n ->
  r_uint (Z.of_nat n) (at_pos pre (put_uint n v ++ ys)) = (v, at_pos (pre ++ put_uint n v) ys).
Proof.
  intros H. unfold r_uint. rewrite (take_at _ _ (put_uint n v)) by (by rewrite blen_put). by rewrite be_put_id.
Qed.

Lemma u8_at v pre ys : 0 <= v < 256 -> r_u8 (at_pos pre (put_uint 1 v ++ ys)) = (v, at_pos (pre ++ put_uint 1 v) ys).
Proof. apply (uint_at 1). Qed.
Lemma u16_at v pre ys : 0 <= v < 65536 -> r_u16 (at_pos pre (put_uint 2 v ++ ys)) = (v, at_pos (pre ++ put_uint 2 v) ys).
Proof. apply (uint_at 2). Qed.
Lemma u32_at v pre ys : 0 <= v < 4294967296 ->
  r_u32 (at_pos pre (put_uint 4 v ++ ys)) = (v, at_pos (pre ++ put_uint 4 v) ys).
Proof. apply (uint_at 4). Qed.

Lemma str_at n s pre ys : n = blen (String.list_ascii_of_string s) ->
  r_str n (at_pos pre (String.list_ascii_of_string s ++ ys)) = (s, at_pos (pre ++ String.list_ascii_of_string s) ys).
Proof. intros H. unfold r_str. rewrite (take_at n) by done. by rewrite String.string_of_list_ascii_of_string. Qed.

Lemma sub_at n pre xs ys : n = blen xs ->
  r_sub n (at_pos pre (xs ++ ys)) = (at_pos [] xs, at_pos (pre ++ xs) ys).
Proof. intros H. unfold r_sub. by rewrite (take_at n pre xs ys). Qed.

Lemma seek_at n pre xs p q : (pre ++ xs = p ++ q)%list -> n = blen p -> r_seek n (at_pos pre xs) = at_pos p q.
Proof.
  intros E ->. unfold r_seek, at_pos, blen. cbn. rewrite E, length_app.
  replace (_ || _) with false by (symmetry; apply orb_false_iff; rewrite !Z.ltb_ge; lia).
  by rewrite Nat2Z.id.
Qed.

(** ** Writers *)

Class Additive (f : writer -> writer) := additive : forall w, f w = (w ++ f [])%list.
#[global] Hint Mode Additive ! : typeclass_instances.

#[global] Instance uint_additive n v : Additive (w_uint n v).
Proof. done. Qed.
#[global] Instance u8_additive v : Additive (w_u8 v).
Proof. done. Qed.
#[global] Instance u16_additive v : Additive (w_u16 v).
Proof. done. Qed.
#[global] Instance u32_additive v : Additive (w_u32 v).
Proof. done. Qed.
#[global] Instance raw_additive p : Additive (w_raw p).
Proof. done. Qed.
#[global] Instance zeros_additive n : Additive (w_zeros n).
Proof. done. Qed.
#[global] Instance ascii_additive s n pad : Additive (w_ascii s n pad).
Proof. done. Qed.

#[global] Typeclasses Opaque w_uint w_u8 w_u16 w_u32 w_raw w_zeros w_ascii padTo w_set w_len w_seq.

Lemma seq_cons f l w : w_seq (f :: l) w = w_seq l (f w).
Proof. done. Qed.
Lemma seq_additive l : Forall Additive l -> Additive (w_seq l).
Proof.
  induction 1 as [|f l Hf _ IH]; intros w; [by rewrite app_nil_r |].
  rewrite !seq_cons, IH, (IH (f [])), Hf. by rewrite app_assoc.
Qed.
#[global] Instance seq_nil_additive : Additive (w_seq []).
Proof. intros w. by rewrite app_nil_r. Qed.
#[global] Instance seq_cons_additive f l : Additive f -> Additive (w_seq l) -> Additive (w_seq (f :: l)).
Proof. intros Hf Hl w. rewrite !seq_cons, Hl, (Hl (f [])), Hf. by rewrite app_assoc. Qed.
Lemma seq_app l k w : w_seq (l ++ k)%list w = w_seq k (w_seq l w).
Proof. unfold w_seq. by rewrite foldl_app. Qed.
#[global] Instance seq_app_additive l k : Additive (w_seq l) -> Additive (w_seq k) -> Additive (w_seq (l ++ k)%list).
Proof. intros Hl Hk w. rewrite !seq_app, Hk, (Hk (w_seq l [])), Hl. by rewrite app_assoc. Qed.
#[global] Instance seq_map_additive {A} (f : A -> writer -> writer) l :
  (forall x, Additive (f x)) -> Additive (w_seq (map f l)).
Proof. intros H. apply seq_additive, Forall_forall. intros g (x & -> & _)%list_elem_of_fmap. apply H. Qed.

Lemma seq_out f l : Additive (w_seq l) -> w_seq (f :: l) [] = (f [] ++ w_seq l [])%list.
Proof. intros H. by rewrite seq_cons, H. Qed.
Lemma seq_app_out l k : Additive (w_seq k) -> w_seq (l ++ k)%list [] = (w_seq l [] ++ w_seq k [])%list.
Proof. intros H. by rewrite seq_app, H. Qed.

Lemma set_tail n v w xs : w_set n (length w) v (w ++ put_uint n 0 ++ xs)%list = (w ++ put_uint n v ++ xs)%list.
Proof.
  unfold w_set. rewrite take_app_length. do 2 f_equal.
  rewrite (app_assoc w). apply drop_app_length'. by rewrite length_app, length_put.
Qed.

#[global] Instance len_additive n body : Additive body -> Additive (w_len n body).
Proof.
  intros H. assert (E : forall w, w_len n body w = (w ++ put_uint n (blen (body [])) ++ body [])%list).
  - intros w. unfold w_len, w_uint. rewrite H, <- app_assoc, set_tail.
    unfold blen. repeat f_equal. rewrite !length_app, length_put. lia.
  - intros w. by rewrite !E.
Qed.
Lemma len_out n body : Additive body -> w_len n body [] = (put_uint n (blen (body [])) ++ body [])%list.
Proof.
  intros H. unfold w_len, w_uint. rewrite H. cbn [app length].
  change (put_uint n 0 ++ body [])%list with ([] ++ put_uint n 0 ++ body [])%list.
  rewrite (set_tail n _ []). cbn [app]. unfold blen. repeat f_equal. rewrite length_app, length_put. lia.
Qed.

(** ** Reading at a position, modulo regrouping *)

Lemma skip_eq n pre l xs ys : l = (xs ++ ys)%list -> n = blen xs -> r_skip n (at_pos pre l) = at_pos (pre ++ xs) ys.
Proof. intros ->. apply skip_at. Qed.
Lemma take_eq n pre l xs ys : l = (xs ++ ys)%list -> n = blen xs ->
  r_take n (at_pos pre l) = (Some xs, at_pos (pre ++ xs) ys).
Proof. intros ->. apply take_at. Qed.

Lemma length_ascii_list s : length (String.list_ascii_of_string s) = String.length s.
Proof. induction s; cbn; by rewrite ?IHs. Qed.
Lemma blen_str s : blen (String.list_ascii_of_string s) = Z.of_nat (String.length s).
Proof. unfold blen. by rewrite length_ascii_list. Qed.
Lemma blen_app (a b : bytes) : blen (a ++ b) = blen a + blen b.
Proof. unfold blen. rewrite length_app. lia. Qed.
Lemma blen_cons c (b : bytes) : blen (c :: b) = 1 + blen b.
Proof. unfold blen. cbn [length]. lia. Qed.
Lemma blen_replicate n (c : ascii) : blen (replicate n c) = Z.of_nat n.
Proof. unfold blen. by rewrite length_replicate. Qed.
Lemma blen_nonneg b : 0 <= blen b.
Proof. unfold blen. lia. Qed.

Lemma ascii_out s n pad : String.length s = n -> w_ascii s n pad [] = String.list_ascii_of_string s.
Proof.
  intros <-. unfold w_ascii. cbn [app]. rewrite <- length_ascii_list. apply take_app_length.
Qed.
Lemma uint_out n v : w_uint n v [] = put_uint n v.
Proof. done. Qed.
Lemma zeros_out n : w_zeros n [] = replicate n (of_byte 0).
Proof. done. Qed.

(** A property of finitely many numbers, checked one by one. *)
Lemma below_forall (P : Z -> bool) n z :
  forallb P (map Z.of_nat (seq 0 n)) = true -> 0 <= z < Z.of_nat n -> P z = true.
Proof.
  intros H Hz. apply (proj1 (forallb_elem _ _) H). apply list_elem_of_fmap. exists (Z.to_nat z).
  split; [lia |]. apply elem_of_seq. lia.
Qed.

Lemma set_at n v (a b c : bytes) : length b = n -> w_set n (length a) v (a ++ b ++ c) = (a ++ put_uint n v ++ c)%list.
Proof.
  intros <-. unfold w_set. rewrite take_app_length, (app_assoc a b c). do 2 f_equal.
  apply drop_app_length'. by rewrite length_app.
Qed.

Lemma set_eq n k v (l a b c : bytes) : l = (a ++ b ++ c)%list -> length a = k -> length b = n ->
  w_set n k v l = (a ++ put_uint n v ++ c)%list.
Proof. intros -> <-. apply set_at. Qed.

(** All the writes of a sequence at once. *)
Lemma seq_outs l : Forall Additive l -> w_seq l [] = concat (map (fun f => f []) l).
Proof.
  induction 1 as [|f l Hf Hl IH]; [done |]. rewrite seq_out by (by apply seq_additive). by rewrite IH.
Qed.
Ltac seq_outs := rewrite seq_outs by (repeat first [apply Forall_nil_2 | apply Forall_cons_2; [apply _ |]]);
  cbn [map concat]; rewrite ?app_nil_r, ?uint_out, ?zeros_out.

Lemma slice_at (p x q : bytes) : slice (p ++ x ++ q) (blen p) (blen p + blen x) = Some x.
Proof.
  unfold slice, blen. replace (_ && _) with true
    by (symmetry; rewrite !andb_true_iff, !Z.leb_le, !length_app; lia).
  replace (_ + _ - _) with (Z.of_nat (length x)) by lia. by rewrite !Nat2Z.id, drop_app_length, take_app_length.
Qed.
