(* ===== verification/Bdmv.v ===== *)
(** * Blu-ray metadata (internal/disc/bdmv.go)

    The parsers of index.bdmv, PLAYLIST/*.mpls and CLIPINF/*.clpi. An error is one of
    the package's sentinel errors; the text wrapped around it is left out. Indexing a
    slice out of range is the outcome [Panic]. A Go [int] holds every count and offset
    read here (at most 32 bits, times a small constant), so no sum wraps around. *)

From S2P Require Import Prelude GoStd Bytes.
Local Open Scope string_scope.
Local Open Scope Z_scope.

Definition maxPlayItems : Z := 2000.
Definition maxStoreStreams : Z := 64.
Definition maxClipStreams : Z := 64.

Definition parseBDHeader (magic : string) (r : reader) : outcome string * reader :=
  let '(m, r) := r_str 4 r in
  let '(v, r) := r_str 4 r in
  (if rd_err r then Err errTruncated
   else if negb (String.eqb m magic) then Err errBadMagic
   else if mem v ["0100"; "0200"; "0240"; "0300"] then Ok v
   else Err errBadVersion, r).

(** ** index.bdmv *)

Record indexHEVC := {
  ih_disc_type : Z;
  ih_exist_4k : bool;
  ih_hdr_plus : bool;
  ih_dolby_vision : bool;
  ih_hdr_flags : Z;
}.

Record indexFile := {
  ix_version : string;
  ix_initial_dynamic_range : Z;
  ix_video_format : Z;
  ix_frame_rate : Z;
  ix_titles : Z;
  ix_hevc : option indexHEVC;
}.

Definition uhd (x : option indexFile) : bool :=
  match x with Some x => String.eqb (ix_version x) "0300" | None => false end.

Definition parseIndexHEVC (data : bytes) : option indexHEVC :=
  let r := newReader data in
  let '(n, r) := r_u32 r in
  if n <? 8 then None else
  let '(b0, r) := r_u8 r in
  let '(_, r) := r_u8 r in
  let '(b2, r) := r_u8 r in
  if rd_err r then None else Some {|
    ih_disc_type := Z.shiftr b0 4;
    ih_exist_4k := negb (Z.land b0 0x01 =? 0);
    ih_hdr_plus := negb (Z.land b2 0x10 =? 0);
    ih_dolby_vision := negb (Z.land b2 0x04 =? 0);
    ih_hdr_flags := Z.land b2 0x03 |}.

(** The loop of [parseExtensions]: [n] entries are left. *)
Fixpoint extension_entries {A} (b : bytes) (start : Z) (fn : Z -> Z -> bytes -> A -> A) (n : nat)
    (r : reader) (acc : A) : outcome A :=
  match n with
  | O => Ok acc
  | S n =>
    let '(id1, r) := r_u16 r in
    let '(id2, r) := r_u16 r in
    let '(off, r) := r_u32 r in
    let '(length, r) := r_u32 r in
    if rd_err r then Ok acc else
    let from := start + off in
    if (from <? 0) || (length <? 0) || (blen b <? from + length) then Ok acc else
    let? data := indexed (slice b from (from + length)) in
    extension_entries b start fn n r (fn id1 id2 data acc)
  end.
Definition parseExtensions {A} (b : bytes) (start : Z) (fn : Z -> Z -> bytes -> A -> A) (acc : A) : outcome A :=
  let r := r_seek start (newReader b) in
  let '(len, r) := r_u32 r in
  if len <? 1 then Ok acc else
  let r := r_skip (4 + 3) r in
  let '(n, r) := r_u8 r in
  if rd_err r || (avail r <? n * 12) then Ok acc
  else extension_entries b start fn (Z.to_nat n) r acc.

Definition parseIndex (b : bytes) : outcome indexFile :=
  let '(ver, r) := parseBDHeader "INDX" (newReader b) in
  let? ver := ver in
  let '(indexesStart, r) := r_u32 r in
  let '(extStart, r) := r_u32 r in
  let r := r_seek 40 r in
  let '(_, r) := r_u32 r in
  let '(f0, r) := r_u8 r in
  let '(f1, r) := r_u8 r in
  if rd_err r then Err errTruncated else
  let r := r_seek indexesStart r in
  let '(len, r) := r_u32 r in
  let '(blk, r) := r_sub len r in
  let blk := r_skip 24 blk in
  let '(n, blk) := r_u16 blk in
  if rd_err blk || rd_err r then Err errTruncated else
  if avail blk <? n * 12 then Err errInvalid else
  let? hevc :=
    (if extStart =? 0 then Ok None
     else parseExtensions b extStart (fun id1 id2 data acc =>
       if (id1 =? 3) && (id2 =? 1) then parseIndexHEVC data else acc) None) in
  Ok {| ix_version := ver; ix_initial_dynamic_range := Z.land f0 0x0f; ix_video_format := Z.shiftr f1 4;
        ix_frame_rate := Z.land f1 0x0f; ix_titles := n; ix_hevc := hevc |}.

(** ** PLAYLIST/*.mpls *)

Definition codingMPEG1Video : Z := 0x01.
Definition codingMPEG2Video : Z := 0x02.
Definition codingMPEG1Audio : Z := 0x03.
Definition codingMPEG2Audio : Z := 0x04.
Definition codingH264 : Z := 0x1b.
Definition codingMVC : Z := 0x20.
Definition codingHEVC : Z := 0x24.
Definition codingVC1 : Z := 0xea.
Definition codingLPCM : Z := 0x80.
Definition codingAC3 : Z := 0x81.
Definition codingDTS : Z := 0x82.
Definition codingTrueHD : Z := 0x83.
Definition codingEAC3 : Z := 0x84.
Definition codingDTSHDHRA : Z := 0x85.
Definition codingDTSHDMA : Z := 0x86.
Definition codingEAC3Sec : Z := 0xa1.
Definition codingDTSExpress : Z := 0xa2.
Definition codingPG : Z := 0x90.
Definition codingIG : Z := 0x91.
Definition codingTextST : Z := 0x92.

(** The groups of coding types the switches of the parsers share. *)
Definition plain_video : list Z := [codingMPEG1Video; codingMPEG2Video; codingVC1; codingH264; codingMVC].
Definition audio_codings : list Z :=
  [codingMPEG1Audio; codingMPEG2Audio; codingLPCM; codingAC3; codingDTS; codingTrueHD; codingEAC3;
   codingDTSHDHRA; codingDTSHDMA; codingEAC3Sec; codingDTSExpress].
Definition coded_in (l : list Z) (c : Z) : bool := existsb (Z.eqb c) l.

Record mplsStream := {
  ms_coding : Z;
  ms_format : Z;
  ms_rate : Z;
  ms_dynamic_range : Z;
  ms_hdr_plus : bool;
  ms_lang : string;
}.

Record mplsSTN := {
  sn_video_n : Z; sn_audio_n : Z; sn_pg_n : Z; sn_ig_n : Z;
  sn_sec_audio_n : Z; sn_sec_video_n : Z; sn_pip_pg_n : Z; sn_dv_n : Z;
  sn_video : list mplsStream;
  sn_audio : list mplsStream;
  sn_pg : list mplsStream;
  sn_dv : list mplsStream;
}.

Record mplsItem := {
  mi_clip : string;
  mi_angles : Z;
  mi_in : Z;
  mi_out : Z;
  mi_stn : mplsSTN;
  mi_kept : bool;
}.

Definition ticks (it : mplsItem) : Z := if mi_out it <=? mi_in it then 0 else mi_out it - mi_in it.
Definition hasVideo (it : mplsItem) : bool :=
  mi_kept it && (0 <? Z.of_nat (length (sn_video (mi_stn it)))).

Record mplsFile := {
  mf_version : string;
  mf_items : list mplsItem;
  mf_sub_paths : Z;
  mf_marks : Z;
  mf_chapters : Z;
  mf_attr : option nat;           (* None: -1 *)
}.

Definition parseStream (r : reader) : mplsStream * reader :=
  let '(n, r) := r_u8 r in
  let r := r_skip n r in
  let '(n, r) := r_u8 r in
  let '(a, r) := r_sub n r in
  let '(coding, a) := r_u8 a in
  let stream format rate range plus lang := {| ms_coding := coding; ms_format := format; ms_rate := rate;
    ms_dynamic_range := range; ms_hdr_plus := plus; ms_lang := lang |} in
  (if coded_in plain_video coding then
     let '(v, _) := r_u8 a in stream (Z.shiftr v 4) (Z.land v 0x0f) 0 false ""
   else if coding =? codingHEVC then
     let '(v, a) := r_u8 a in
     let '(w, a) := r_u8 a in
     let '(x, _) := r_u8 a in
     stream (Z.shiftr v 4) (Z.land v 0x0f) (Z.shiftr w 4) (negb (Z.land x 0x40 =? 0)) ""
   else if coded_in audio_codings coding then
     let '(v, a) := r_u8 a in
     let '(l, _) := r_str 3 a in
     stream (Z.shiftr v 4) (Z.land v 0x0f) 0 false l
   else if (coding =? codingPG) || (coding =? codingIG) then
     let '(l, _) := r_str 3 a in stream 0 0 0 false l
   else if coding =? codingTextST then
     let '(l, _) := r_str 3 (r_skip 1 a) in stream 0 0 0 false l
   else stream 0 0 0 false "", r).

Definition skipRefs (r : reader) : reader :=
  let '(n, r) := r_u8 r in r_skip (1 + n + n mod 2) r.

(** [n] streams, each followed by [refs] reference lists. *)
Fixpoint streams (n refs : nat) (r : reader) : list mplsStream * reader :=
  match n with
  | O => ([], r)
  | S n =>
    let '(s, r) := parseStream r in
    let '(l, r) := streams n refs (Nat.iter refs skipRefs r) in
    (s :: l, r)
  end.
(** [add]: what a category keeps of its streams. *)
Definition stored (keep : bool) (l : list mplsStream) : list mplsStream :=
  if keep then take (Z.to_nat maxStoreStreams) l else [].

Definition parseSTN (keep : bool) (r : reader) : outcome mplsSTN * reader :=
  let '(len, r) := r_u16 r in
  let '(blk, r) := r_sub len r in
  let blk := r_skip 2 blk in
  let '(video, blk) := r_u8 blk in
  let '(audio, blk) := r_u8 blk in
  let '(pg, blk) := r_u8 blk in
  let '(ig, blk) := r_u8 blk in
  let '(sec_audio, blk) := r_u8 blk in
  let '(sec_video, blk) := r_u8 blk in
  let '(pip, blk) := r_u8 blk in
  let '(dv, blk) := r_u8 blk in
  let blk := r_skip 4 blk in
  if rd_err blk then (Err errTruncated, r) else
  let total := video + audio + pg + pip + ig + sec_audio + sec_video + dv in
  if avail blk <? total * 2 then (Err errInvalid, r) else
  let '(vs, blk) := streams (Z.to_nat video) 0 blk in
  let '(auds, blk) := streams (Z.to_nat audio) 0 blk in
  let '(pgs, blk) := streams (Z.to_nat (pg + pip)) 0 blk in
  let '(_, blk) := streams (Z.to_nat ig) 0 blk in
  let '(_, blk) := streams (Z.to_nat sec_audio) 1 blk in
  let '(_, blk) := streams (Z.to_nat sec_video) 2 blk in
  let '(dvs, blk) := streams (Z.to_nat dv) 0 blk in
  if rd_err blk then (Err errTruncated, r) else
  (Ok {| sn_video_n := video; sn_audio_n := audio; sn_pg_n := pg; sn_ig_n := ig;
         sn_sec_audio_n := sec_audio; sn_sec_video_n := sec_video; sn_pip_pg_n := pip; sn_dv_n := dv;
         sn_video := stored keep vs; sn_audio := stored keep auds;
         sn_pg := stored keep (take (Z.to_nat pg) pgs); sn_dv := stored keep dvs |}, r).

Definition parsePlayItem (keep : bool) (r : reader) : outcome mplsItem * reader :=
  let '(length, r) := r_u16 r in
  if rd_err r then (Err errTruncated, r) else
  if length <? 18 then (Err errInvalid, r) else
  let '(blk, r) := r_sub length r in
  let '(clip, blk) := r_str 5 blk in
  let blk := r_skip 4 blk in
  let '(flags, blk) := r_u16 blk in
  let multiAngle := negb (Z.land flags 0x0010 =? 0) in
  let blk := r_skip 1 blk in
  let '(in_, blk) := r_u32 blk in
  let '(out, blk) := r_u32 blk in
  let blk := r_skip (8 + 1 + 1 + 2) blk in
  let '(angles, blk) :=
    (if multiAngle then
       let '(a, blk) := r_u8 blk in
       let blk := r_skip 1 blk in
       if 1 <? a then (a, r_skip ((a - 1) * (5 + 4 + 1)) blk) else (1, blk)
     else (1, blk)) in
  let '(stn, blk) := parseSTN keep blk in
  (let? stn := stn in
   if rd_err blk then Err errTruncated else
   Ok {| mi_clip := clip; mi_angles := angles; mi_in := in_; mi_out := out; mi_stn := stn; mi_kept := keep |}, r).

(** Not the attribute item: only its counts stay. *)
Definition drop_streams (it : mplsItem) : mplsItem :=
  let s := mi_stn it in
  {| mi_clip := mi_clip it; mi_angles := mi_angles it; mi_in := mi_in it; mi_out := mi_out it; mi_kept := false;
     mi_stn := {|
       sn_video_n := sn_video_n s; sn_audio_n := sn_audio_n s; sn_pg_n := sn_pg_n s; sn_ig_n := sn_ig_n s;
       sn_sec_audio_n := sn_sec_audio_n s; sn_sec_video_n := sn_sec_video_n s; sn_pip_pg_n := sn_pip_pg_n s;
       sn_dv_n := sn_dv_n s; sn_video := []; sn_audio := []; sn_pg := []; sn_dv := [] |} |}.

(** [pl.attr >= 0 && pl.items[pl.attr].hasVideo()]. *)
Definition attr_has_video (items : list mplsItem) (attr : option nat) : outcome bool :=
  match attr with None => Ok false | Some a => let? it := indexed (items !! a) in Ok (hasVideo it) end.

(** The loop over the play items: [n] are left. *)
Fixpoint play_items (n : nat) (items : list mplsItem) (attr : option nat) (blk : reader) :
    outcome (list mplsItem * option nat) :=
  match n with
  | O => Ok (items, attr)
  | S n =>
    let? found := attr_has_video items attr in
    let keep := negb found in
    let '(it, blk) := parsePlayItem keep blk in
    let? it := it in
    if keep && (bool_decide (attr = None) || hasVideo it)
    then play_items n (items ++ [it])%list (Some (length items)) blk
    else play_items n (items ++ [if keep then drop_streams it else it])%list attr blk
  end.

(** The loop over the marks: how many of [n] are entry marks. *)
Fixpoint entry_marks (n : nat) (r : reader) : outcome Z :=
  match n with
  | O => Ok 0
  | S n =>
    let '(mk, r) := r_take 14 r in
    let? kind := indexed (byte_at (default [] mk) 1) in
    let? rest := entry_marks n r in
    Ok (rest + if kind =? 1 then 1 else 0)
  end.

Definition parseMPLS (b : bytes) : outcome mplsFile :=
  let '(ver, r) := parseBDHeader "MPLS" (newReader b) in
  let? ver := ver in
  let '(listPos, r) := r_u32 r in
  let '(markPos, r) := r_u32 r in
  if rd_err r then Err errTruncated else
  let r := r_seek listPos r in
  let '(len, r) := r_u32 r in
  let '(blk, r) := r_sub len r in
  let blk := r_skip 2 blk in
  let '(n, blk) := r_u16 blk in
  let '(subPaths, blk) := r_u16 blk in
  if rd_err blk || rd_err r then Err errTruncated else
  if (maxPlayItems <? n) || (avail blk <? n * 20) then Err errInvalid else
  let? list := play_items (Z.to_nat n) [] None blk in
  let pl marks chapters := {|
    mf_version := ver; mf_items := fst list; mf_sub_paths := subPaths; mf_marks := marks;
    mf_chapters := chapters; mf_attr := snd list |} in
  if markPos =? 0 then Ok (pl 0 0) else
  let r := r_seek markPos r in
  let '(_, r) := r_u32 r in
  let '(m, r) := r_u16 r in
  if rd_err r || (avail r <? m * 14) then Err errTruncated else
  let? chapters := entry_marks (Z.to_nat m) r in
  Ok (pl m chapters).

(** ** CLIPINF/*.clpi *)

Record clpiStream := {
  cp_pid : Z;
  cp_coding : Z;
  cp_format : Z;
  cp_rate : Z;
  cp_lang : string;
}.

Record clipFile := {
  cl_version : string;
  cl_stream_type : Z;
  cl_app_type : Z;
  cl_ts_recording_rate : Z;
  cl_source_packets : Z;
  cl_ticks : Z;
  cl_streams : list clpiStream;
}.

(** The STC sequences of an ATC sequence. *)
Fixpoint stc_sequences (n : nat) (r : reader) (acc : Z) : Z * reader :=
  match n with
  | O => (acc, r)
  | S n =>
    let r := r_skip (2 + 4) r in
    let '(start, r) := r_u32 r in
    let '(end_, r) := r_u32 r in
    stc_sequences n r (if start <? end_ then acc + (end_ - start) else acc)
  end.
Fixpoint atc_sequences (n : nat) (r : reader) (acc : Z) : outcome (Z * reader) :=
  match n with
  | O => Ok (acc, r)
  | S n =>
    if rd_err r then Ok (acc, r) else
    let r := r_skip 4 r in
    let '(stc, r) := r_u8 r in
    let r := r_skip 1 r in
    if avail r <? stc * 14 then Err errTruncated else
    let '(acc, r) := stc_sequences (Z.to_nat stc) r acc in
    atc_sequences n r acc
  end.

Definition clip_stream (r : reader) : clpiStream * reader :=
  let '(pid, r) := r_u16 r in
  let '(n, r) := r_u8 r in
  let '(a, r) := r_sub n r in
  let '(coding, a) := r_u8 a in
  let stream format rate lang := {|
    cp_pid := pid; cp_coding := coding; cp_format := format; cp_rate := rate; cp_lang := lang |} in
  (if coded_in (codingHEVC :: plain_video) coding then
     let '(v, _) := r_u8 a in stream (Z.shiftr v 4) (Z.land v 0x0f) ""
   else if coded_in audio_codings coding then
     let '(v, a) := r_u8 a in
     let '(l, _) := r_str 3 a in
     stream (Z.shiftr v 4) (Z.land v 0x0f) l
   else if (coding =? codingPG) || (coding =? codingIG) then
     let '(l, _) := r_str 3 a in stream 0 0 l
   else if coding =? codingTextST then
     let '(l, _) := r_str 3 (r_skip 1 a) in stream 0 0 l
   else stream 0 0 "", r).
Fixpoint clip_streams (n : nat) (r : reader) : list clpiStream * reader :=
  match n with
  | O => ([], r)
  | S n =>
    let '(s, r) := clip_stream r in
    let '(l, r) := clip_streams n r in
    (s :: l, r)
  end.
(** The programs; only the first one's streams are kept. *)
Fixpoint programs (n : nat) (first : bool) (r : reader) (kept : list clpiStream) :
    outcome (list clpiStream * reader) :=
  match n with
  | O => Ok (kept, r)
  | S n =>
    if rd_err r then Ok (kept, r) else
    let r := r_skip (4 + 2) r in
    let '(ns, r) := r_u8 r in
    let r := r_skip 1 r in
    if avail r <? ns * 3 then Err errTruncated else
    let '(l, r) := clip_streams (Z.to_nat ns) r in
    programs n false r (if first then take (Z.to_nat maxClipStreams) l else kept)
  end.

Definition parseCLPI (b : bytes) : outcome clipFile :=
  let '(ver, r) := parseBDHeader "HDMV" (newReader b) in
  let? ver := ver in
  let '(seqPos, r) := r_u32 r in
  let '(progPos, r) := r_u32 r in
  if rd_err r then Err errTruncated else
  let r := r_seek 40 r in
  let r := r_skip (4 + 2) r in
  let '(streamType, r) := r_u8 r in
  let '(appType, r) := r_u8 r in
  let r := r_skip 4 r in
  let '(rate, r) := r_u32 r in
  let '(packets, r) := r_u32 r in
  if rd_err r then Err errTruncated else
  let r := r_skip 5 (r_seek seqPos r) in
  let '(atc, r) := r_u8 r in
  let? (ticks, r) := atc_sequences (Z.to_nat atc) r 0 in
  if rd_err r then Err errTruncated else
  let r := r_skip 5 (r_seek progPos r) in
  let '(progs, r) := r_u8 r in
  let? (kept, r) := programs (Z.to_nat progs) true r [] in
  if rd_err r then Err errTruncated else
  Ok {| cl_version := ver; cl_stream_type := streamType; cl_app_type := appType; cl_ts_recording_rate := rate;
        cl_source_packets := packets; cl_ticks := ticks; cl_streams := kept |}.
