(* ===== verification/BdmvEncode.v ===== *)
(** * Blu-ray metadata encoders (internal/testutil/fakemedia/bdmv.go)

    The encoders the repository writes its disc fixtures with: "written independently
    of Dupearr's own reader on purpose, so the two cross-check each other". Widths are
    those of the fields: a value is cut to its field when it is written. *)

From S2P Require Import Prelude GoStd Bytes.
Local Open Scope string_scope.
Local Open Scope Z_scope.

Definition bdVersionUHD := "0300".
Definition bdCodingMPEG2 : Z := 0x02.
Definition bdCodingH264 : Z := 0x1b.
Definition bdCodingVC1 : Z := 0xea.
Definition bdCodingHEVC : Z := 0x24.
Definition bdCodingLPCM : Z := 0x80.
Definition bdCodingDTSHDMA : Z := 0x86.
Definition bdCodingPG : Z := 0x90.
Definition bdCodingIG : Z := 0x91.

Record bdStream := {
  bs_pid : Z;
  bs_coding : Z;
  bs_format : Z;
  bs_rate : Z;
  bs_dyn_range : Z;
  bs_color_space : Z;
  bs_hdr_plus : bool;
  bs_lang : string;
}.

Record bdStreams := {
  bt_video : list bdStream;
  bt_audio : list bdStream;
  bt_pg : list bdStream;
  bt_ig : list bdStream;
  bt_dv : list bdStream;
}.
Definition all_streams (s : bdStreams) : list bdStream :=
  (bt_video s ++ bt_audio s ++ bt_pg s ++ bt_ig s ++ bt_dv s)%list.

Definition isVideoCoding (c : Z) : bool :=
  (c =? bdCodingMPEG2) || (c =? 0x01) || (c =? bdCodingH264) || (c =? bdCodingVC1) || (c =? bdCodingHEVC).
Definition isAudioCoding (c : Z) : bool :=
  (c =? 0x03) || (c =? 0x04) || ((bdCodingLPCM <=? c) && (c <=? bdCodingDTSHDMA)) || (c =? 0xa1) || (c =? 0xa2).
(** [s.format<<4 | s.rate&0x0f], in a byte. *)
Definition nibbles (hi lo : Z) : Z := Z.land (Z.lor (Z.shiftl hi 4) (Z.land lo 0x0f)) 0xff.
Definition padded (n : nat) (body : writer -> writer) (w : writer) : writer := padTo (length w + n) (body w).
Definition zero : ascii := of_byte 0.

Definition mplsStreamAttributes (s : bdStream) : writer -> writer :=
  w_len 1 (padded 5 (w_seq (w_u8 (bs_coding s) ::
    if bs_coding s =? bdCodingHEVC then
      [w_u8 (nibbles (bs_format s) (bs_rate s)); w_u8 (nibbles (bs_dyn_range s) (bs_color_space s));
       w_u8 (if bs_hdr_plus s then 0x40 else 0)]
    else if isVideoCoding (bs_coding s) then [w_u8 (nibbles (bs_format s) (bs_rate s))]
    else if isAudioCoding (bs_coding s) then
      [w_u8 (nibbles (bs_format s) (bs_rate s)); w_ascii (bs_lang s) 3 " "]
    else if (bs_coding s =? bdCodingPG) || (bs_coding s =? bdCodingIG) then [w_ascii (bs_lang s) 3 " "]
    else []))).

Definition mplsStreamEntry (s : bdStream) : writer -> writer :=
  w_seq [w_u8 9; w_u8 1; w_u16 (bs_pid s); w_zeros 6; mplsStreamAttributes s].

Record bdPlayItem := {
  pi_clip : string;
  pi_in : Z;
  pi_out : Z;
  pi_streams : bdStreams;
}.
Record bdMark := { bm_item : Z; bm_time : Z }.

(** [uint8(len(l))]. *)
Definition count {A} (l : list A) : Z := Z.of_nat (length l).
Definition encode_stn (s : bdStreams) : writer -> writer :=
  w_len 2 (w_seq ([w_u16 0; w_u8 (count (bt_video s)); w_u8 (count (bt_audio s)); w_u8 (count (bt_pg s));
    w_u8 (count (bt_ig s)); w_u8 0; w_u8 0; w_u8 0; w_u8 (count (bt_dv s)); w_zeros 4] ++
    map mplsStreamEntry (all_streams s))%list).
Definition encode_item (it : bdPlayItem) : writer -> writer :=
  w_len 2 (w_seq [w_ascii (pi_clip it) 5 "0"; w_ascii "M2TS" 4 zero; w_u16 0x0001; w_u8 0; w_u32 (pi_in it);
    w_u32 (pi_out it); w_zeros 8; w_u8 0; w_u8 0; w_u16 0; encode_stn (pi_streams it)]).
Definition encode_mark (m : bdMark) : writer -> writer :=
  w_seq [w_u8 0; w_u8 1; w_u16 (bm_item m); w_u32 (bm_time m); w_u16 0xffff; w_u32 0].

(** [w.setU32(at, uint32(w.pos()))]: the address of what is written next. *)
Definition set_address (at_ : nat) (w : writer) : writer := w_set 4 at_ (Z.of_nat (length w)) w.

Definition encodeMPLS (version : string) (items : list bdPlayItem) (marks : list bdMark) : bytes :=
  w_seq [
    w_ascii "MPLS" 4 zero; w_ascii version 4 zero; w_u32 0; w_u32 0; w_u32 0; w_zeros 20;
    w_len 4 (w_seq [w_u8 0; w_u8 1; w_u16 0; w_zeros 8; w_u16 0]);
    set_address 8;
    w_len 4 (w_seq ([w_u16 0; w_u16 (count items); w_u16 0] ++ map encode_item items)%list);
    set_address 12;
    w_len 4 (w_seq (w_u16 (count marks) :: map encode_mark marks))] [].

Definition clpiStreamAttributes (s : bdStream) : writer -> writer :=
  w_len 1 (padded 5 (w_seq (w_u8 (bs_coding s) ::
    if isVideoCoding (bs_coding s) then
      ([w_u8 (nibbles (bs_format s) (bs_rate s)); w_u8 (Z.shiftl 3 4)] ++
       (if bs_coding s =? bdCodingHEVC then
          [w_u8 (nibbles (bs_dyn_range s) (bs_color_space s)); w_u8 (if bs_hdr_plus s then 0x80 else 0)]
        else []))%list
    else if isAudioCoding (bs_coding s) then
      [w_u8 (nibbles (bs_format s) (bs_rate s)); w_ascii (bs_lang s) 3 " "]
    else if (bs_coding s =? bdCodingPG) || (bs_coding s =? bdCodingIG) then [w_ascii (bs_lang s) 3 " "]
    else []))).

Record bdClipInfo := {
  bc_recording_rate : Z;
  bc_packets : Z;
  bc_start : Z;
  bc_end : Z;
  bc_streams : bdStreams;
}.

Definition encodeCLPI (version : string) (ci : bdClipInfo) : bytes :=
  w_seq [
    w_ascii "HDMV" 4 zero; w_ascii version 4 zero; w_u32 0; w_u32 0; w_u32 0; w_u32 0; w_u32 0; w_zeros 12;
    w_len 4 (w_seq [w_u16 0; w_u8 1; w_u8 1; w_u32 0; w_u32 (bc_recording_rate ci); w_u32 (bc_packets ci);
      w_zeros 128; w_u16 30; w_u8 0x80; w_ascii "HDMV" 4 zero; w_zeros 25]);
    set_address 8;
    w_len 4 (w_seq [w_u8 0; w_u8 1; w_u32 0; w_u8 1; w_u8 0; w_u16 0x1001; w_u32 0; w_u32 (bc_start ci);
      w_u32 (bc_end ci)]);
    set_address 12;
    w_len 4 (w_seq ([w_u8 0; w_u8 1; w_u32 0; w_u16 0x0100; w_u8 (count (all_streams (bc_streams ci))); w_u8 0] ++
      map (fun s => w_seq [w_u16 (bs_pid s); clpiStreamAttributes s]) (all_streams (bc_streams ci)))%list);
    set_address 16; w_u32 0; set_address 20; w_u32 0] [].

Record bdIndexInfo := {
  bx_version : string;
  bx_video_format : Z;
  bx_frame_rate : Z;
  bx_dynamic_range : Z;
  bx_titles : nat;
  bx_hdr_plus : bool;
  bx_dolby_vision : bool;
}.

Definition hdmv (object : Z) : writer -> writer := w_seq [w_u16 0; w_u16 object; w_zeros 4].
Definition hdmv_object : writer -> writer := w_u32 (Z.shiftl 1 30).
Definition uhd_extension (ix : bdIndexInfo) : writer -> writer :=
  w_len 4 (w_seq [w_u32 24; w_zeros 3; w_u8 1; w_u16 3; w_u16 1; w_u32 24; w_u32 12; w_u32 8; w_u8 1; w_u8 0;
    w_u8 (Z.lor (if bx_hdr_plus ix then 0x10 else 0) (if bx_dolby_vision ix then 0x04 else 0)); w_u8 0; w_u32 0]).

Definition encodeIndex (ix : bdIndexInfo) : bytes :=
  w_seq ([
    w_ascii "INDX" 4 zero; w_ascii (bx_version ix) 4 zero; w_u32 0; w_u32 0; w_zeros 24;
    w_len 4 (w_seq [w_u8 (Z.land (bx_dynamic_range ix) 0x0f); w_u8 (nibbles (bx_video_format ix) (bx_frame_rate ix));
      w_zeros 32]);
    set_address 8;
    w_len 4 (w_seq ([hdmv_object; hdmv 0; hdmv_object; hdmv 1; w_u16 (Z.of_nat (bx_titles ix))] ++
      flat_map (fun i => [hdmv_object; hdmv (2 + Z.of_nat i)]) (seq 0 (bx_titles ix)))%list)] ++
    (if String.eqb (bx_version ix) bdVersionUHD then [set_address 12; uhd_extension ix] else []))%list [].

Record bdMovieObject := { bo_playlist : Z }.

Definition encodeMovieObjects (version : string) (objs : list bdMovieObject) : bytes :=
  w_seq [
    w_ascii "MOBJ" 4 zero; w_ascii version 4 zero; w_u32 0; w_zeros 28;
    w_len 4 (w_seq ([w_u32 0; w_u16 (count objs)] ++
      map (fun o => w_seq [w_u16 0; w_u16 1; w_raw (map of_byte [0x22; 0x80; 0x00; 0x00]); w_u32 (bo_playlist o);
        w_u32 0]) objs)%list)] [].
