(* ===== verification/BdmvFacts.v ===== *)
(** * The Blu-ray parsers on what the encoders wrote

    Every parser is run on the bytes of the matching encoder by rewriting with the
    equations of [Bytes]. *)

From S2P Require Import Prelude GoStd Bytes Bdmv BdmvEncode.
Local Open Scope string_scope.
Local Open Scope Z_scope.

(** ** Streams *)

(** The coding types both sides know the attributes of. *)
Definition shared_codings : list Z :=
  [0x01; 0x02; 0x03; 0x04; 0x1b; 0xea; 0x24; 0x80; 0x81; 0x82; 0x83; 0x84; 0x85; 0x86; 0xa1; 0xa2; 0x90; 0x91].

Record stream_ok (s : bdStream) : Prop := {
  so_coding : bs_coding s ∈ shared_codings;
  so_format : 0 <= bs_format s < 16;
  so_rate : 0 <= bs_rate s < 16;
  so_range : 0 <= bs_dyn_range s < 16;
  so_color : 0 <= bs_color_space s < 16;
  so_lang : String.length (bs_lang s) = 3%nat;
}.

(** What a playlist says of a stream: subtitles have no format, and only the streams
    that are heard or read have a language. *)
Definition stream_of (s : bdStream) : mplsStream :=
  let c := bs_coding s in
  let hevc := c =? codingHEVC in
  let coded := coded_in (codingHEVC :: plain_video ++ audio_codings) c in {|
    ms_coding := c;
    ms_format := if coded then bs_format s else 0;
    ms_rate := if coded then bs_rate s else 0;
    ms_dynamic_range := if hevc then bs_dyn_range s else 0;
    ms_hdr_plus := hevc && bs_hdr_plus s;
    ms_lang := if coded_in (codingHEVC :: plain_video) c then "" else bs_lang s |}.

#[global] Instance padded_additive n body : Additive body -> Additive (padded n body).
Proof.
  intros H. assert (E : forall w, padded n body w = (w ++ body [] ++ replicate (n - length (body [])) zero)%list).
  - intros w. unfold padded, padTo. rewrite H, !length_app. destruct (Nat.ltb_spec (length w + length (body [])) (length w + n)).
    + unfold w_zeros. rewrite <- app_assoc. by replace (_ + n - _)%nat with (n - length (body []))%nat by lia.
    + replace (n - _)%nat with 0%nat by lia. cbn. by rewrite app_nil_r.
  - intros w. by rewrite !E.
Qed.
Lemma padded_out n body : Additive body ->
  padded n body [] = (body [] ++ replicate (n - length (body [])) zero)%list.
Proof.
  intros H. unfold padded, padTo. cbn [length]. rewrite Nat.add_0_l.
  destruct (Nat.ltb_spec (length (body [])) n); [done |].
  replace (n - _)%nat with 0%nat by lia. by rewrite app_nil_r.
Qed.

#[global] Instance attributes_additive s : Additive (mplsStreamAttributes s).
Proof. unfold mplsStreamAttributes. repeat case_match; apply _. Qed.
#[global] Instance entry_additive s : Additive (mplsStreamEntry s).
Proof. apply _. Qed.

Lemma nibbles_ok hi lo : 0 <= hi < 16 -> 0 <= lo < 16 ->
  0 <= nibbles hi lo < 256 /\ Z.shiftr (nibbles hi lo) 4 = hi /\ Z.land (nibbles hi lo) 0x0f = lo.
Proof.
  intros Hh Hl.
  pose (P hi lo := (0 <=? nibbles hi lo) && (nibbles hi lo <? 256) && (Z.shiftr (nibbles hi lo) 4 =? hi) &&
    (Z.land (nibbles hi lo) 0x0f =? lo)).
  assert (H : P hi lo = true).
  - apply (below_forall (P hi) 16); [| done]. revert Hh.
    apply (below_forall (fun hi => forallb (P hi) (map Z.of_nat (seq 0 16))) 16). by vm_compute.
  - unfold P in H. bsimp. lia.
Qed.

(** A string of three characters, as the encoders write it. *)
Lemma lang_cells s : String.length s = 3%nat ->
  exists a b c, s = String a (String b (String c "")).
Proof. destruct s as [|a [|b [|c [|d s]]]]; try discriminate. by exists a, b, c. Qed.

(** The five bytes of an attribute block, by class of coding type. *)
Definition attribute_cells (s : bdStream) : bytes :=
  put_uint 1 (bs_coding s) ++
  if bs_coding s =? codingHEVC then
    put_uint 1 (nibbles (bs_format s) (bs_rate s)) ++ put_uint 1 (nibbles (bs_dyn_range s) (bs_color_space s)) ++
    put_uint 1 (if bs_hdr_plus s then 0x40 else 0) ++ [zero]
  else if coded_in plain_video (bs_coding s) then
    put_uint 1 (nibbles (bs_format s) (bs_rate s)) ++ [zero; zero; zero]
  else if coded_in audio_codings (bs_coding s) then
    put_uint 1 (nibbles (bs_format s) (bs_rate s)) ++ String.list_ascii_of_string (bs_lang s)
  else String.list_ascii_of_string (bs_lang s) ++ [zero].

Ltac by_coding H := repeat (apply elem_of_cons in H as [->|H]); [.. | by inversion H].

Lemma attributes_out s : stream_ok s ->
  mplsStreamAttributes s [] = (put_uint 1 5 ++ attribute_cells s)%list /\ blen (attribute_cells s) = 5.
Proof.
  intros [Hc _ _ _ _ (a & b & c & Hl)%lang_cells]. destruct s as [pid co f r d cs p l]. cbn in Hc, Hl. subst l.
  by_coding Hc; done.
Qed.

Lemma entry_out s : stream_ok s -> mplsStreamEntry s [] =
  (put_uint 1 9 ++ (put_uint 1 1 ++ put_uint 2 (bs_pid s) ++ replicate 6 zero) ++ put_uint 1 5 ++ attribute_cells s)%list.
Proof.
  intros Hs. unfold mplsStreamEntry.
  do 5 rewrite seq_out by apply _. rewrite (proj1 (attributes_out s Hs)), <- !app_assoc, app_nil_r. done.
Qed.

Lemma coding_range s : stream_ok s -> 0 <= bs_coding s < 256.
Proof. intros [Hc _ _ _ _ _]. by_coding Hc; lia. Qed.

(** One step of a parser on what is left to read. *)
Ltac read_step :=
  first
  [ rewrite u8_at by (auto; lia) | rewrite u16_at by (auto; lia) | rewrite u32_at by (auto; lia)
  | rewrite str_at by (by rewrite blen_str; auto with zarith) ];
  cbv beta iota zeta.
Ltac skip_by xs := erewrite (skip_eq _ _ _ xs) by (rewrite <- ?app_assoc; reflexivity).

Lemma coded_cons h l c : coded_in (h :: l) c = (c =? h) || coded_in l c.
Proof. done. Qed.
Lemma coded_app l k c : coded_in (l ++ k)%list c = coded_in l c || coded_in k c.
Proof. apply existsb_app. Qed.
(** What is neither video nor audio are the subtitles of the encoders. *)
Lemma subtitle_coding s : stream_ok s -> bs_coding s <> codingHEVC -> coded_in plain_video (bs_coding s) = false ->
  coded_in audio_codings (bs_coding s) = false -> (bs_coding s =? codingPG) || (bs_coding s =? codingIG) = true.
Proof. intros [Hc _ _ _ _ _]. by_coding Hc; done. Qed.

Lemma entry_parses s pre ys : stream_ok s ->
  parseStream (at_pos pre (mplsStreamEntry s [] ++ ys)) = (stream_of s, at_pos (pre ++ mplsStreamEntry s []) ys).
Proof.
  intros Hs. pose proof (coding_range s Hs) as Hr. destruct (attributes_out s Hs) as [_ Hlen].
  rewrite entry_out by done. unfold parseStream. rewrite <- !app_assoc. read_step.
  skip_by (put_uint 1 1 ++ put_uint 2 (bs_pid s) ++ replicate 6 zero)%list. read_step.
  rewrite sub_at by done. cbv beta iota zeta. rewrite <- !app_assoc.
  unfold attribute_cells at 1.
  rewrite u8_at by done. cbv beta iota zeta. f_equal. unfold stream_of.
  destruct (nibbles_ok (bs_format s) (bs_rate s)) as (Hn & Hn1 & Hn2); [apply Hs.. |].
  destruct (nibbles_ok (bs_dyn_range s) (bs_color_space s)) as (Hm & Hm1 & Hm2); [apply Hs.. |].
  destruct (Z.eqb_spec (bs_coding s) codingHEVC) as [->|Hh].
  - change (coded_in plain_video codingHEVC) with false. cbv beta iota zeta.
    do 2 read_step. rewrite u8_at by (destruct (bs_hdr_plus s); lia). cbv beta iota zeta.
    rewrite Hn1, Hn2, Hm1. by destruct (bs_hdr_plus s).
  - pose proof (subtitle_coding s Hs Hh) as Hsub. apply Z.eqb_neq in Hh. rewrite !coded_cons, coded_app, Hh.
    pose proof (so_lang s Hs) as Hl.
    destruct (coded_in plain_video (bs_coding s)); cbn [orb andb].
    { read_step. by rewrite Hn1, Hn2. }
    destruct (coded_in audio_codings (bs_coding s)); cbn [orb].
    { read_step. rewrite <- (app_nil_r (String.list_ascii_of_string _)), str_at by (by rewrite blen_str, Hl).
      by rewrite Hn1, Hn2. }
    rewrite Hsub by done. by rewrite str_at by (by rewrite blen_str, Hl).
Qed.

(** Consecutive streams. *)
Definition entries (l : list bdStream) : bytes := w_seq (map mplsStreamEntry l) [].
Lemma entries_cons s l : entries (s :: l) = (mplsStreamEntry s [] ++ entries l)%list.
Proof. apply seq_out. apply _. Qed.
Lemma entries_app l k : entries (l ++ k) = (entries l ++ entries k)%list.
Proof. unfold entries. rewrite map_app. apply seq_app_out. apply _. Qed.

Lemma streams_parse l : Forall stream_ok l -> forall pre ys,
  streams (length l) 0 (at_pos pre (entries l ++ ys)) = (map stream_of l, at_pos (pre ++ entries l) ys).
Proof.
  induction 1 as [|s l Hs _ IH]; intros pre ys; [by rewrite app_nil_r |].
  cbn [length streams]. rewrite entries_cons, <- app_assoc, entry_parses by done. cbn [Nat.iter nat_rect].
  rewrite IH. by rewrite <- app_assoc.
Qed.

Lemma blen_entries l : Forall stream_ok l -> blen (entries l) = 16 * count l.
Proof.
  induction 1 as [|s l Hs _ IH]; [done |]. rewrite entries_cons, blen_app, IH, entry_out by done.
  rewrite !blen_app, !blen_put, blen_replicate, (proj2 (attributes_out s Hs)). unfold count. cbn [length]. lia.
Qed.

(** ** The stream table of a play item *)

Record streams_ok (s : bdStreams) : Prop := {
  so_all : Forall stream_ok (all_streams s);
  so_video_n : count (bt_video s) < 256;
  so_audio_n : count (bt_audio s) < 256;
  so_pg_n : count (bt_pg s) < 256;
  so_ig_n : count (bt_ig s) < 256;
  so_dv_n : count (bt_dv s) < 256;
}.

Definition stn_of (keep : bool) (s : bdStreams) : mplsSTN := {|
  sn_video_n := count (bt_video s); sn_audio_n := count (bt_audio s); sn_pg_n := count (bt_pg s);
  sn_ig_n := count (bt_ig s); sn_sec_audio_n := 0; sn_sec_video_n := 0; sn_pip_pg_n := 0;
  sn_dv_n := count (bt_dv s);
  sn_video := stored keep (map stream_of (bt_video s)); sn_audio := stored keep (map stream_of (bt_audio s));
  sn_pg := stored keep (map stream_of (bt_pg s)); sn_dv := stored keep (map stream_of (bt_dv s)) |}.

Lemma count_nonneg {A} (l : list A) : 0 <= count l.
Proof. unfold count. lia. Qed.
Lemma count_nat {A} (l : list A) : Z.to_nat (count l) = length l.
Proof. unfold count. lia. Qed.

#[global] Instance stn_additive s : Additive (encode_stn s).
Proof. apply _. Qed.

Lemma stn_out s : encode_stn s [] =
  (let body := put_uint 2 0 ++ put_uint 1 (count (bt_video s)) ++ put_uint 1 (count (bt_audio s)) ++
     put_uint 1 (count (bt_pg s)) ++ put_uint 1 (count (bt_ig s)) ++ put_uint 1 0 ++ put_uint 1 0 ++ put_uint 1 0 ++
     put_uint 1 (count (bt_dv s)) ++ replicate 4 zero ++ entries (all_streams s) in
   put_uint 2 (blen body) ++ body)%list.
Proof.
  unfold encode_stn. rewrite len_out by apply _. rewrite seq_app_out by apply _.
  do 10 rewrite seq_out by apply _. rewrite <- !app_assoc. done.
Qed.

Lemma stn_parses keep s pre ys : streams_ok s ->
  parseSTN keep (at_pos pre (encode_stn s [] ++ ys)) = (Ok (stn_of keep s), at_pos (pre ++ encode_stn s []) ys).
Proof.
  intros [Hall Hv Ha Hp Hi Hd].
  pose proof (count_nonneg (bt_video s)); pose proof (count_nonneg (bt_audio s)); pose proof (count_nonneg (bt_pg s)).
  pose proof (count_nonneg (bt_ig s)); pose proof (count_nonneg (bt_dv s)).
  rewrite stn_out. cbv zeta. unfold parseSTN. rewrite <- (app_assoc (put_uint 2 _)).
  assert (Hn : count (all_streams s) = count (bt_video s) + count (bt_audio s) + count (bt_pg s) + count (bt_ig s) + count (bt_dv s)).
  { unfold count, all_streams. rewrite !length_app. lia. }
  pose proof (blen_entries _ Hall) as He.
  rewrite u16_at by (rewrite !blen_app, !blen_put, blen_replicate; lia). cbv beta iota zeta.
  rewrite sub_at by done. cbv beta iota zeta. rewrite <- app_assoc.
  skip_by (put_uint 2 0). do 8 read_step. skip_by (replicate 4 zero).
  rewrite err_at, avail_at.
  replace (_ <? _) with false by (symmetry; apply Z.ltb_ge; lia).
  rewrite !Z.add_0_r, !count_nat. cbn [Z.to_nat].
  unfold all_streams in Hall |- *. rewrite !Forall_app in Hall. destruct Hall as (Fv & Fa & Fp & Fi & Fd).
  rewrite !entries_app.
  rewrite !streams_parse by done. change (Z.to_nat 0) with 0%nat. cbn [streams].
  rewrite <- (app_nil_r (entries (bt_dv s))) at 1. rewrite streams_parse by done.
  rewrite err_at. unfold stn_of. rewrite <- (length_map stream_of (bt_pg s)), firstn_all.
  done.
Qed.

(** ** Play items *)

Record item_ok (it : bdPlayItem) : Prop := {
  io_clip : String.length (pi_clip it) = 5%nat;
  io_in : 0 <= pi_in it < 2 ^ 32;
  io_out : 0 <= pi_out it < 2 ^ 32;
  io_streams : streams_ok (pi_streams it);
}.

Definition item_of (keep : bool) (it : bdPlayItem) : mplsItem := {|
  mi_clip := pi_clip it; mi_angles := 1; mi_in := pi_in it; mi_out := pi_out it;
  mi_stn := stn_of keep (pi_streams it); mi_kept := keep |}.

#[global] Instance item_additive it : Additive (encode_item it).
Proof. apply _. Qed.

Definition m2ts : string := "M2TS".
Lemma item_out it : item_ok it -> encode_item it [] =
  (let body := String.list_ascii_of_string (pi_clip it) ++ String.list_ascii_of_string m2ts ++ put_uint 2 1 ++
     put_uint 1 0 ++ put_uint 4 (pi_in it) ++ put_uint 4 (pi_out it) ++
     (replicate 8 zero ++ put_uint 1 0 ++ put_uint 1 0 ++ put_uint 2 0) ++ encode_stn (pi_streams it) [] in
   put_uint 2 (blen body) ++ body)%list.
Proof.
  intros [Hc _ _ _]. unfold encode_item. rewrite len_out by apply _. do 11 rewrite seq_out by apply _.
  rewrite (ascii_out (pi_clip it) 5) by done. rewrite <- !app_assoc, app_nil_r. done.
Qed.

Lemma blen_stn s : streams_ok s -> blen (encode_stn s []) = 16 + 16 * count (all_streams s).
Proof.
  intros Hs. rewrite stn_out. cbv zeta. rewrite !blen_app, !blen_put, blen_replicate, blen_entries by apply Hs. lia.
Qed.
Lemma streams_few s : streams_ok s -> 0 <= count (all_streams s) <= 1275.
Proof. intros [_ Hv Ha Hp Hi Hd]. unfold count, all_streams in *. rewrite !length_app. lia. Qed.

Lemma item_parses keep it pre ys : item_ok it ->
  parsePlayItem keep (at_pos pre (encode_item it [] ++ ys)) = (Ok (item_of keep it), at_pos (pre ++ encode_item it []) ys).
Proof.
  intros Hit. pose proof Hit as [Hc Hin Hout Hs]. rewrite item_out by done. cbv zeta. unfold parsePlayItem.
  pose proof (streams_few _ Hs) as Hf.
  match goal with |- context [blen ?b] => assert (Hl : blen b = 48 + 16 * count (all_streams (pi_streams it))) end.
  { rewrite !blen_app, !blen_put, !blen_replicate, !blen_str, blen_stn, Hc by done. change (String.length m2ts) with 4%nat. lia. }
  rewrite <- (app_assoc (put_uint 2 _)). rewrite u16_at by lia.
  cbv beta iota zeta. rewrite err_at.
  replace (_ <? 18) with false by (symmetry; apply Z.ltb_ge; lia).
  rewrite sub_at by done. cbv beta iota zeta.
  rewrite str_at by (by rewrite blen_str, Hc). cbv beta iota zeta.
  skip_by (String.list_ascii_of_string m2ts). rewrite u16_at by lia. cbv beta iota zeta.
  skip_by (put_uint 1 0). rewrite u32_at by done. cbv beta iota zeta. rewrite u32_at by done. cbv beta iota zeta.
  skip_by (replicate 8 zero ++ put_uint 1 0 ++ put_uint 1 0 ++ put_uint 2 0)%list.
  change (negb (Z.land 1 0x10 =? 0)) with false. cbv beta iota zeta.
  rewrite <- (app_nil_r (encode_stn (pi_streams it) [])) at 1. rewrite stn_parses by done. cbn [obind].
  rewrite err_at. by rewrite <- (app_assoc pre).
Qed.

Definition item_bytes (l : list bdPlayItem) : bytes := w_seq (map encode_item l) [].
Lemma item_bytes_cons it l : item_bytes (it :: l) = (encode_item it [] ++ item_bytes l)%list.
Proof. apply seq_out. apply _. Qed.

(** The attribute item: the first with a video stream, else the first. *)
Definition has_video (it : bdPlayItem) : bool := negb (bool_decide (bt_video (pi_streams it) = [])).
Fixpoint first_video (l : list bdPlayItem) : option nat :=
  match l with [] => None | it :: l => if has_video it then Some 0%nat else S <$> first_video l end.
Definition attr_index (l : list bdPlayItem) : option nat :=
  match l with [] => None | _ => Some (default 0%nat (first_video l)) end.
(** Streams are stored of the first item and of the attribute item. *)
Definition stored_items (l : list bdPlayItem) : list mplsItem :=
  imap (fun i it => item_of (bool_decide (i = 0%nat \/ attr_index l = Some i)) it) l.

Lemma video_of keep it : hasVideo (item_of keep it) = keep && has_video it.
Proof.
  unfold hasVideo, has_video. cbn. destruct keep; [| done]. cbn [stored andb].
  destruct (bt_video (pi_streams it)); by rewrite ?bool_decide_eq_true_2, ?bool_decide_eq_false_2 by done.
Qed.

Lemma drop_of it : drop_streams (item_of true it) = item_of false it.
Proof. done. Qed.

Lemma imap_rest {A B} (f : nat -> A -> B) g l : (forall i x, f i x = g x) -> imap f l = map g l.
Proof. revert f. induction l as [|x l IH]; intros f H; [done |]. cbn. rewrite H, IH; [done |]. intros i y. apply H. Qed.

(** After the attribute item nothing is stored. *)
Lemma items_after l : Forall item_ok l -> forall items a x pre ys, items !! a = Some x -> hasVideo x = true ->
  play_items (length l) items (Some a) (at_pos pre (item_bytes l ++ ys)) =
  Ok (items ++ map (item_of false) l, Some a)%list.
Proof.
  induction 1 as [|it l Hit _ IH]; intros items a x pre ys Hl Hx; cbn [length play_items map].
  { by rewrite app_nil_r. }
  unfold attr_has_video. rewrite Hl. cbn [indexed obind]. rewrite Hx. cbn [negb andb].
  rewrite item_bytes_cons, <- app_assoc, item_parses by done. cbn [obind].
  erewrite IH; [by rewrite <- app_assoc | by apply lookup_app_l_Some | done].
Qed.

(** While no video stream was found only the counts are kept. *)
Lemma items_before l : Forall item_ok l -> forall items x pre ys, items !! 0%nat = Some x -> hasVideo x = false ->
  play_items (length l) items (Some 0%nat) (at_pos pre (item_bytes l ++ ys)) =
  Ok (items ++ imap (fun i it => item_of (bool_decide (first_video l = Some i)) it) l,
      Some (from_option (Nat.add (length items)) 0%nat (first_video l)))%list.
Proof.
  induction 1 as [|it l Hit Hok IH]; intros items x pre ys Hl Hx; cbn [length play_items imap first_video].
  { by rewrite app_nil_r. }
  unfold attr_has_video. rewrite Hl. cbn [indexed obind]. rewrite Hx. cbn [negb andb].
  rewrite item_bytes_cons, <- app_assoc, item_parses by done. cbn [obind].
  rewrite video_of, bool_decide_eq_false_2 by done. cbn [andb orb].
  destruct (has_video it) eqn:Hv.
  - rewrite (items_after _ Hok _ _ (item_of true it)).
    + rewrite <- app_assoc. cbn [from_option app]. rewrite Nat.add_0_r, bool_decide_eq_true_2 by done.
      rewrite (imap_rest _ (item_of false)); [done |]. intros i y. cbn. by rewrite bool_decide_eq_false_2.
    + by rewrite lookup_app_r, Nat.sub_diag by lia.
    + by rewrite video_of, Hv.
  - rewrite drop_of, (IH _ x) by (done || by apply lookup_app_l_Some). rewrite <- app_assoc. cbn [app].
    f_equal. f_equal.
    + f_equal. rewrite bool_decide_eq_false_2 by (by destruct (first_video l)). f_equal. apply imap_ext.
      intros i x' _. cbn. f_equal. apply bool_decide_ext. destruct (first_video l); cbn; naive_solver.
    + destruct (first_video l); cbn; [| done]. rewrite length_app. cbn [length]. f_equal. lia.
Qed.

Lemma items_parse l pre ys : Forall item_ok l ->
  play_items (length l) [] None (at_pos pre (item_bytes l ++ ys)) = Ok (stored_items l, attr_index l).
Proof.
  destruct 1 as [|it l Hit Hok]; [done |]. cbn [length play_items attr_has_video obind negb].
  rewrite item_bytes_cons, <- app_assoc, item_parses by done. cbn [obind andb]. rewrite bool_decide_eq_true_2 by done.
  cbn [orb app length]. unfold stored_items, attr_index. cbn [first_video imap].
  destruct (has_video it) eqn:Hv; cbn [default from_option].
  - rewrite (items_after _ Hok _ _ (item_of true it)) by (done || by rewrite video_of, Hv). cbn [app].
    rewrite bool_decide_eq_true_2 by auto. rewrite (imap_rest _ (item_of false)); [done |]. intros i y.
    cbn. rewrite bool_decide_eq_false_2; [done |]. naive_solver.
  - rewrite (items_before _ Hok _ (item_of true it)) by (done || by rewrite video_of, Hv). cbn [app length].
    rewrite bool_decide_eq_true_2 by auto. f_equal. f_equal.
    + f_equal. apply imap_ext. intros i x' _. cbn. f_equal. apply bool_decide_ext.
      destruct (first_video l); cbn; naive_solver.
    + destruct (first_video l); done.
Qed.

(** ** The playlist *)

Definition mark_bytes (l : list bdMark) : bytes := w_seq (map encode_mark l) [].
#[global] Instance mark_additive m : Additive (encode_mark m).
Proof. apply _. Qed.
Lemma mark_bytes_cons m l : mark_bytes (m :: l) = (encode_mark m [] ++ mark_bytes l)%list.
Proof. apply seq_out. apply _. Qed.
Lemma blen_marks l : blen (mark_bytes l) = 14 * count l.
Proof.
  induction l as [|m l IH]; [done |]. rewrite mark_bytes_cons, blen_app, IH. unfold count. cbn [length].
  change (blen (encode_mark m [])) with 14. lia.
Qed.
Lemma marks_parse l pre ys : entry_marks (length l) (at_pos pre (mark_bytes l ++ ys)) = Ok (count l).
Proof.
  revert pre. induction l as [|m l IH]; intros pre; [done |]. cbn [length entry_marks].
  rewrite mark_bytes_cons, <- app_assoc, take_at by done. change (byte_at _ 1) with (Some 1). cbn [indexed obind].
  rewrite IH. cbn [obind]. unfold count. cbn [length]. f_equal. change (1 =? 1) with true. cbv iota. lia.
Qed.

Lemma marks_parse_all l pre : entry_marks (length l) (at_pos pre (mark_bytes l)) = Ok (count l).
Proof. rewrite <- (app_nil_r (mark_bytes l)). apply marks_parse. Qed.

Definition versions : list string := ["0100"; "0200"; "0240"; "0300"].
Lemma version_length v : v ∈ versions -> String.length v = 4%nat.
Proof. intros H. by_coding H; done. Qed.

Lemma header_parses magic v ys : String.length magic = 4%nat -> v ∈ versions ->
  parseBDHeader magic (newReader (String.list_ascii_of_string magic ++ String.list_ascii_of_string v ++ ys)) =
  (Ok v, at_pos (String.list_ascii_of_string magic ++ String.list_ascii_of_string v) ys).
Proof.
  intros Hm Hv. rewrite new_at. unfold parseBDHeader. rewrite str_at by (by rewrite blen_str, Hm).
  rewrite str_at by (by rewrite blen_str, (version_length v)). rewrite err_at, String.eqb_refl. cbn [negb].
  by rewrite (proj2 (mem_true v versions)).
Qed.

Definition list_block (items : list bdPlayItem) : bytes :=
  put_uint 2 0 ++ put_uint 2 (count items) ++ put_uint 2 0 ++ item_bytes items.
Definition marks_block (marks : list bdMark) : bytes := put_uint 2 (count marks) ++ mark_bytes marks.
(** What lies between the addresses of the header and the playlist. *)
Definition app_info : bytes := Eval vm_compute in (replicate 4 zero ++ replicate 20 zero ++
  w_len 4 (w_seq [w_u8 0; w_u8 1; w_u16 0; w_zeros 8; w_u16 0]) [])%list.

Lemma mpls_layout v items marks : v ∈ versions -> encodeMPLS v items marks =
  (String.list_ascii_of_string "MPLS" ++ String.list_ascii_of_string v ++ put_uint 4 58 ++
   put_uint 4 (62 + blen (list_block items)) ++ app_info ++
   (put_uint 4 (blen (list_block items)) ++ list_block items) ++
   (put_uint 4 (blen (marks_block marks)) ++ marks_block marks))%list.
Proof.
  intros Hv. unfold encodeMPLS.
  set (lists := w_len 4 (w_seq ([w_u16 0; w_u16 (count items); w_u16 0] ++ map encode_item items)%list)).
  set (mks := w_len 4 (w_seq (w_u16 (count marks) :: map encode_mark marks))).
  assert (Hl : lists [] = (put_uint 4 (blen (list_block items)) ++ list_block items)%list).
  { unfold lists. rewrite len_out by apply _. rewrite seq_app_out by apply _. by do 3 rewrite seq_out by apply _. }
  assert (Hm : mks [] = (put_uint 4 (blen (marks_block marks)) ++ marks_block marks)%list).
  { unfold mks. rewrite len_out by apply _. by rewrite seq_out by apply _. }
  assert (Al : Additive lists) by apply _. assert (Am : Additive mks) by apply _.
  rewrite <- Hl, <- Hm. clearbody lists mks.
  rewrite !seq_cons, (Al (set_address _ _)), (Am (set_address _ _)).
  destruct v as [|a [|b [|c [|d [|? ?]]]]]; try (apply version_length in Hv; discriminate).
  set (v := String a _).
  assert (E : set_address 8 (w_len 4 (w_seq [w_u8 0; w_u8 1; w_u16 0; w_zeros 8; w_u16 0])
    (w_zeros 20 (w_u32 0 (w_u32 0 (w_u32 0 (w_ascii v 4 zero (w_ascii "MPLS" 4 zero []))))))) =
    ((String.list_ascii_of_string "MPLS" ++ String.list_ascii_of_string v ++ put_uint 4 58) ++ put_uint 4 0 ++ app_info)%list)
    by (vm_compute; reflexivity).
  rewrite E, <- (app_assoc _ _ (lists [])). unfold set_address.
  rewrite <- (app_assoc (put_uint 4 0)).
  change 12%nat with (length (String.list_ascii_of_string "MPLS" ++ String.list_ascii_of_string v ++ put_uint 4 58)%list).
  rewrite set_at by done. rewrite <- !app_assoc. cbn [w_seq foldl]. repeat f_equal.
  rewrite !length_app, Hl, length_app, !length_put. unfold blen. rewrite !Nat2Z.inj_add. cbn - [Z.add]. lia.
Qed.

Lemma blen_item it : item_ok it -> 20 <= blen (encode_item it []) <= 20450.
Proof.
  intros Hit. pose proof Hit as [Hc _ _ Hs]. rewrite item_out by done. cbv zeta. pose proof (streams_few _ Hs).
  rewrite !blen_app, !blen_put, !blen_replicate, !blen_str, blen_stn, Hc by done. change (String.length m2ts) with 4%nat. lia.
Qed.
Lemma blen_items l : Forall item_ok l -> 20 * count l <= blen (item_bytes l) <= 20450 * count l.
Proof.
  induction 1 as [|it l Hit _ IH]; [done |]. rewrite item_bytes_cons, blen_app. pose proof (blen_item it Hit).
  unfold count in *. cbn [length]. lia.
Qed.
