(* ===== verification/ClipFacts.v ===== *)
(** * The clip and index parsers on what the encoders wrote *)

From S2P Require Import Prelude GoStd Bytes Bdmv BdmvEncode BdmvFacts.
Local Open Scope string_scope.
Local Open Scope Z_scope.

(** ** Clip information *)

Definition clip_stream_of (s : bdStream) : clpiStream :=
  let c := bs_coding s in
  let coded := coded_in (codingHEVC :: plain_video ++ audio_codings) c in {|
    cp_pid := bs_pid s; cp_coding := c;
    cp_format := if coded then bs_format s else 0;
    cp_rate := if coded then bs_rate s else 0;
    cp_lang := if coded_in (codingHEVC :: plain_video) c then "" else bs_lang s |}.

Definition clip_cells (s : bdStream) : bytes :=
  put_uint 1 (bs_coding s) ++
  if coded_in (codingHEVC :: plain_video) (bs_coding s) then
    put_uint 1 (nibbles (bs_format s) (bs_rate s)) ++ put_uint 1 0x30 ++
    (if bs_coding s =? codingHEVC then
       put_uint 1 (nibbles (bs_dyn_range s) (bs_color_space s)) ++ put_uint 1 (if bs_hdr_plus s then 0x80 else 0)
     else [zero; zero])
  else if coded_in audio_codings (bs_coding s) then
    put_uint 1 (nibbles (bs_format s) (bs_rate s)) ++ String.list_ascii_of_string (bs_lang s)
  else String.list_ascii_of_string (bs_lang s) ++ [zero].

Definition encode_clip_stream (s : bdStream) : writer -> writer := w_seq [w_u16 (bs_pid s); clpiStreamAttributes s].

#[global] Instance clip_attributes_additive s : Additive (clpiStreamAttributes s).
Proof. unfold clpiStreamAttributes. repeat case_match; apply _. Qed.
#[global] Instance clip_stream_additive s : Additive (encode_clip_stream s).
Proof. apply _. Qed.

Lemma clip_attributes_out s : stream_ok s ->
  clpiStreamAttributes s [] = (put_uint 1 5 ++ clip_cells s)%list /\ blen (clip_cells s) = 5.
Proof.
  intros [Hc _ _ _ _ (a & b & c & Hl)%lang_cells]. destruct s as [pid co f r d cs p l]. cbn in Hc, Hl. subst l.
  by_coding Hc; done.
Qed.

Lemma clip_stream_out s : stream_ok s ->
  encode_clip_stream s [] = (put_uint 2 (bs_pid s) ++ put_uint 1 5 ++ clip_cells s)%list.
Proof.
  intros Hs. unfold encode_clip_stream. do 2 rewrite seq_out by apply _.
  by rewrite (proj1 (clip_attributes_out s Hs)), app_nil_r.
Qed.

Lemma clip_stream_parses s pre ys : stream_ok s -> 0 <= bs_pid s < 65536 ->
  clip_stream (at_pos pre (encode_clip_stream s [] ++ ys)) = (clip_stream_of s, at_pos (pre ++ encode_clip_stream s []) ys).
Proof.
  intros Hs Hp. pose proof (coding_range s Hs) as Hr. destruct (clip_attributes_out s Hs) as [_ Hlen].
  rewrite clip_stream_out by done. unfold clip_stream. rewrite <- !app_assoc. do 2 read_step.
  rewrite sub_at by done. cbv beta iota zeta. rewrite <- !app_assoc.
  unfold clip_cells at 1. rewrite u8_at by done. cbv beta iota zeta. f_equal. unfold clip_stream_of.
  destruct (nibbles_ok (bs_format s) (bs_rate s)) as (Hn & Hn1 & Hn2); [apply Hs.. |].
  pose proof (so_lang s Hs) as Hl. rewrite !coded_cons, coded_app.
  destruct (Z.eqb_spec (bs_coding s) codingHEVC) as [Hh|Hh]; cbn [orb].
  { read_step. by rewrite Hn1, Hn2. }
  pose proof (subtitle_coding s Hs Hh) as Hsub.
  destruct (coded_in plain_video (bs_coding s)); cbn [orb].
  { read_step. by rewrite Hn1, Hn2. }
  destruct (coded_in audio_codings (bs_coding s)); cbn [orb].
  { read_step. rewrite <- (app_nil_r (String.list_ascii_of_string _)), str_at by (by rewrite blen_str, Hl).
    by rewrite Hn1, Hn2. }
  rewrite Hsub by done. by rewrite str_at by (by rewrite blen_str, Hl).
Qed.

Definition clip_bytes (l : list bdStream) : bytes := w_seq (map encode_clip_stream l) [].
Lemma clip_bytes_cons s l : clip_bytes (s :: l) = (encode_clip_stream s [] ++ clip_bytes l)%list.
Proof. apply seq_out. apply _. Qed.

Definition clip_ok (s : bdStream) : Prop := stream_ok s /\ 0 <= bs_pid s < 65536.

Lemma clip_streams_parse l : Forall clip_ok l -> forall pre ys,
  clip_streams (length l) (at_pos pre (clip_bytes l ++ ys)) = (map clip_stream_of l, at_pos (pre ++ clip_bytes l) ys).
Proof.
  induction 1 as [|s l [Hs Hp] _ IH]; intros pre ys; [by rewrite app_nil_r |]. cbn [length clip_streams map].
  rewrite clip_bytes_cons, <- app_assoc, clip_stream_parses by done. rewrite IH. by rewrite <- app_assoc.
Qed.
Lemma blen_clip_bytes l : Forall clip_ok l -> blen (clip_bytes l) = 8 * count l.
Proof.
  induction 1 as [|s l [Hs _] _ IH]; [done |]. rewrite clip_bytes_cons, blen_app, IH, clip_stream_out by done.
  rewrite !blen_app, !blen_put, (proj2 (clip_attributes_out s Hs)). unfold count. cbn [length]. lia.
Qed.

(** The blocks of the file. *)
Definition clip_info_block (ci : bdClipInfo) : bytes := w_len 4 (w_seq [w_u16 0; w_u8 1; w_u8 1; w_u32 0;
  w_u32 (bc_recording_rate ci); w_u32 (bc_packets ci); w_zeros 128; w_u16 30; w_u8 0x80; w_ascii "HDMV" 4 zero;
  w_zeros 25]) [].
Definition sequence_body (ci : bdClipInfo) : bytes :=
  put_uint 1 0 ++ put_uint 1 1 ++ put_uint 4 0 ++ put_uint 1 1 ++ put_uint 1 0 ++ (put_uint 2 0x1001 ++ put_uint 4 0) ++
  put_uint 4 (bc_start ci) ++ put_uint 4 (bc_end ci).
Definition program_body (ci : bdClipInfo) : bytes :=
  put_uint 1 0 ++ put_uint 1 1 ++ (put_uint 4 0 ++ put_uint 2 0x0100) ++
  put_uint 1 (count (all_streams (bc_streams ci))) ++ put_uint 1 0 ++ clip_bytes (all_streams (bc_streams ci)).

Lemma clip_info_out ci : exists n, clip_info_block ci =
  ((put_uint 4 n ++ put_uint 2 0) ++ put_uint 1 1 ++ put_uint 1 1 ++ put_uint 4 0 ++ put_uint 4 (bc_recording_rate ci) ++
   put_uint 4 (bc_packets ci) ++ (replicate 128 zero ++ put_uint 2 30 ++ put_uint 1 0x80 ++
   String.list_ascii_of_string "HDMV" ++ replicate 25 zero))%list.
Proof.
  unfold clip_info_block. rewrite len_out by apply _. eexists. rewrite <- (app_assoc (put_uint 4 _)). f_equal.
Qed.

(** Filling in the addresses of a header. *)
Section addresses.
Context (p rest : bytes) (a b c d x : Z) (Hp : length p = 8%nat).
Lemma set_8 : w_set 4 8 x (p ++ put_uint 4 a ++ rest) = (p ++ put_uint 4 x ++ rest)%list.
Proof. by apply (set_eq 4 8 x _ p (put_uint 4 a)). Qed.
Lemma set_12 : w_set 4 12 x (p ++ put_uint 4 a ++ put_uint 4 b ++ rest) =
  (p ++ put_uint 4 a ++ put_uint 4 x ++ rest)%list.
Proof.
  rewrite (set_eq 4 12 x _ (p ++ put_uint 4 a) (put_uint 4 b) rest); [by rewrite <- app_assoc | by rewrite <- app_assoc | | done].
  by rewrite length_app, Hp.
Qed.
Lemma set_16 : w_set 4 16 x (p ++ put_uint 4 a ++ put_uint 4 b ++ put_uint 4 c ++ rest) =
  (p ++ put_uint 4 a ++ put_uint 4 b ++ put_uint 4 x ++ rest)%list.
Proof.
  rewrite (set_eq 4 16 x _ (p ++ put_uint 4 a ++ put_uint 4 b) (put_uint 4 c) rest);
    [by rewrite <- !app_assoc | by rewrite <- !app_assoc | | done]. by rewrite !length_app, Hp.
Qed.
Lemma set_20 : w_set 4 20 x (p ++ put_uint 4 a ++ put_uint 4 b ++ put_uint 4 c ++ put_uint 4 d ++ rest) =
  (p ++ put_uint 4 a ++ put_uint 4 b ++ put_uint 4 c ++ put_uint 4 x ++ rest)%list.
Proof.
  rewrite (set_eq 4 20 x _ (p ++ put_uint 4 a ++ put_uint 4 b ++ put_uint 4 c) (put_uint 4 d) rest);
    [by rewrite <- !app_assoc | by rewrite <- !app_assoc | | done]. by rewrite !length_app, Hp.
Qed.
End addresses.

Lemma clpi_layout v ci : v ∈ versions -> let info := clip_info_block ci in exists cpi mk, encodeCLPI v ci =
  ((String.list_ascii_of_string "HDMV" ++ String.list_ascii_of_string v) ++ put_uint 4 (40 + blen info) ++
   put_uint 4 (44 + blen info + blen (sequence_body ci)) ++ (put_uint 4 cpi ++ put_uint 4 mk ++ put_uint 4 0 ++ replicate 12 zero) ++
   info ++ (put_uint 4 (blen (sequence_body ci)) ++ sequence_body ci) ++
   (put_uint 4 (blen (program_body ci)) ++ program_body ci) ++ put_uint 4 0 ++ put_uint 4 0)%list.
Proof.
  intros Hv info. unfold encodeCLPI. fold (encode_clip_stream).
  set (sq := w_len 4 (w_seq [w_u8 0; w_u8 1; w_u32 0; w_u8 1; w_u8 0; w_u16 4097; w_u32 0; w_u32 (bc_start ci); w_u32 (bc_end ci)])).
  set (pr := w_len 4 _) at 2.
  assert (Hs : sq [] = (put_uint 4 (blen (sequence_body ci)) ++ sequence_body ci)%list).
  { unfold sq. rewrite len_out by apply _. seq_outs. reflexivity. }
  assert (Hp : pr [] = (put_uint 4 (blen (program_body ci)) ++ program_body ci)%list).
  { unfold pr. rewrite len_out by apply _. rewrite seq_app_out by apply _. seq_outs. reflexivity. }
  set (inf := w_len 4 _) at 1. change (inf []) with info in *.
  assert (Ai : Additive inf) by apply _. assert (As : Additive sq) by apply _. assert (Ap : Additive pr) by apply _.
  assert (Hi : inf [] = info) by done. clearbody inf sq pr info.
  assert (Hq : blen (sq []) = 4 + blen (sequence_body ci)) by (rewrite Hs, blen_app, blen_put; lia).
  rewrite <- Hs, <- Hp, <- Hi. clear Hs Hp Hi.
  rewrite !seq_cons.
  set (p := (String.list_ascii_of_string "HDMV" ++ String.list_ascii_of_string v)%list).
  assert (Hlen : length p = 8%nat) by (unfold p; by rewrite length_app, !length_ascii_list, (version_length v)).
  assert (E : w_zeros 12 (w_u32 0 (w_u32 0 (w_u32 0 (w_u32 0 (w_u32 0 (w_ascii v 4 zero (w_ascii "HDMV" 4 zero []))))))) =
    (p ++ put_uint 4 0 ++ put_uint 4 0 ++ put_uint 4 0 ++ put_uint 4 0 ++ put_uint 4 0 ++ replicate 12 zero)%list).
  { unfold p. rewrite <- (ascii_out v 4 zero) by auto using version_length. unfold w_zeros, w_u32, w_uint, w_ascii.
    rewrite <- !app_assoc. done. }
  rewrite E, (Ai (_ ++ _)%list). unfold set_address. rewrite <- !app_assoc, set_8 by done.
  rewrite (As (_ ++ _)%list), <- !app_assoc, set_12 by done.
  rewrite (Ap (_ ++ _)%list), <- !app_assoc, set_16 by done.
  rewrite (u32_additive 0 (p ++ _)%list), <- !app_assoc, set_20 by done.
  rewrite (u32_additive 0 (p ++ _)%list), <- !app_assoc. do 2 eexists. cbn [w_seq foldl].
  rewrite !length_app, !length_put, length_replicate, Hlen. unfold blen in *.
  replace (40 + _) with (Z.of_nat (8 + (4 + (4 + (4 + (4 + (4 + (12 + length (inf []))))))))) by lia.
  replace (44 + _ + _) with (Z.of_nat (8 + (4 + (4 + (4 + (4 + (4 + (12 + (length (inf []) + length (sq [])))))))))) by lia.
  rewrite <- !app_assoc. reflexivity.
Qed.

(** One program, whose streams are the clip's. *)
Lemma one_program l pre ys : Forall clip_ok l -> count l < 256 ->
  programs (Z.to_nat 1) true (at_pos pre (put_uint 4 0 ++ put_uint 2 0x0100 ++ put_uint 1 (count l) ++ put_uint 1 0 ++
    clip_bytes l ++ ys)) [] =
  Ok (take 64 (map clip_stream_of l), at_pos (((((pre ++ put_uint 4 0 ++ put_uint 2 0x0100) ++ put_uint 1 (count l)) ++
    put_uint 1 0) ++ clip_bytes l)) ys).
Proof.
  intros Hok Hc. pose proof (count_nonneg l). change (Z.to_nat 1) with 1%nat. cbn [programs]. rewrite err_at.
  skip_by (put_uint 4 0 ++ put_uint 2 0x0100)%list. read_step. skip_by (put_uint 1 0). rewrite avail_at.
  replace (_ <? _) with false
    by (symmetry; apply Z.ltb_ge; rewrite blen_app, blen_clip_bytes by done; pose proof (blen_nonneg ys); lia).
  by rewrite count_nat, clip_streams_parse.
Qed.

(** ** The index *)

Definition title_objects (n : nat) : list (writer -> writer) :=
  flat_map (fun i => [hdmv_object; hdmv (2 + Z.of_nat i)]) (seq 0 n).
Definition title_bytes (n : nat) : bytes := w_seq (title_objects n) [].
#[global] Instance hdmv_additive o : Additive (hdmv o).
Proof. apply _. Qed.
#[global] Instance object_additive : Additive hdmv_object.
Proof. apply _. Qed.
#[global] Instance titles_additive k n :
  Additive (w_seq (flat_map (fun i => [hdmv_object; hdmv (2 + Z.of_nat i)]) (seq k n))).
Proof.
  apply seq_additive, Forall_forall. intros f (i & _ & Hf)%list_elem_of_In%in_flat_map.
  destruct Hf as [<-|[<-|[]]]; apply _.
Qed.
Lemma blen_titles n : blen (title_bytes n) = 12 * Z.of_nat n.
Proof.
  unfold title_bytes, title_objects. generalize 0%nat. induction n as [|n IH]; intros k; [done |].
  cbn [seq flat_map app]. do 2 rewrite seq_out by apply _. rewrite !blen_app, IH.
  change (blen (hdmv_object [])) with 4. change (blen (hdmv _ [])) with 8. lia.
Qed.

Definition index_body (ix : bdIndexInfo) : bytes :=
  (hdmv_object [] ++ hdmv 0 [] ++ hdmv_object [] ++ hdmv 1 []) ++ put_uint 2 (Z.of_nat (bx_titles ix)) ++
  title_bytes (bx_titles ix).
Definition app_body (ix : bdIndexInfo) : bytes :=
  put_uint 1 (Z.land (bx_dynamic_range ix) 0x0f) ++ put_uint 1 (nibbles (bx_video_format ix) (bx_frame_rate ix)) ++
  replicate 32 zero.
Definition hevc_flags (ix : bdIndexInfo) : Z :=
  Z.lor (if bx_hdr_plus ix then 0x10 else 0) (if bx_dolby_vision ix then 0x04 else 0).
Definition hevc_data (ix : bdIndexInfo) : bytes :=
  put_uint 4 8 ++ put_uint 1 1 ++ put_uint 1 0 ++ put_uint 1 (hevc_flags ix) ++ put_uint 1 0 ++ put_uint 4 0.
(** The extension block: 48 bytes, its data last. *)
Definition extension (ix : bdIndexInfo) : bytes :=
  (put_uint 4 32 ++ (put_uint 4 24 ++ replicate 3 zero) ++ put_uint 1 1 ++ put_uint 2 3 ++ put_uint 2 1 ++ put_uint 4 24 ++
   put_uint 4 12) ++ hevc_data ix.

Lemma extension_out ix : uhd_extension ix [] = extension ix.
Proof. unfold uhd_extension. rewrite len_out by apply _. done. Qed.

Lemma index_layout ix : bx_version ix ∈ versions -> encodeIndex ix =
  ((String.list_ascii_of_string "INDX" ++ String.list_ascii_of_string (bx_version ix)) ++ put_uint 4 78 ++
   put_uint 4 (if String.eqb (bx_version ix) "0300" then 82 + blen (index_body ix) else 0) ++ replicate 24 zero ++
   (put_uint 4 34 ++ app_body ix) ++ (put_uint 4 (blen (index_body ix)) ++ index_body ix) ++
   (if String.eqb (bx_version ix) "0300" then extension ix else []))%list.
Proof.
  intros Hv. unfold encodeIndex. fold (title_objects (bx_titles ix)).
  set (p := (String.list_ascii_of_string "INDX" ++ String.list_ascii_of_string (bx_version ix))%list).
  assert (Hlen : length p = 8%nat) by (unfold p; by rewrite length_app, !length_ascii_list, (version_length (bx_version ix))).
  set (apps := w_len 4 (w_seq [w_u8 _; w_u8 _; w_zeros 32])).
  set (idx := w_len 4 _) at 1.
  assert (Ha : apps [] = (put_uint 4 34 ++ app_body ix)%list) by (unfold apps; by rewrite len_out by apply _).
  assert (Hi : idx [] = (put_uint 4 (blen (index_body ix)) ++ index_body ix)%list).
  { unfold idx. rewrite len_out by apply _. rewrite seq_app_out by apply _. done. }
  assert (Aa : Additive apps) by apply _. assert (Ai : Additive idx) by apply _.
  clearbody apps idx. rewrite seq_app, !seq_cons.
  assert (E : w_zeros 24 (w_u32 0 (w_u32 0 (w_ascii (bx_version ix) 4 zero (w_ascii "INDX" 4 zero [])))) =
    (p ++ put_uint 4 0 ++ put_uint 4 0 ++ replicate 24 zero)%list).
  { unfold p. rewrite <- (ascii_out (bx_version ix) 4 zero) by auto using version_length. unfold w_zeros, w_u32, w_uint, w_ascii.
    rewrite <- !app_assoc. done. }
  rewrite E, (Aa (_ ++ _)%list). unfold set_address. rewrite <- !app_assoc, set_8 by done.
  rewrite (Ai (_ ++ _)%list), <- !app_assoc. cbn [w_seq foldl].
  replace (Z.of_nat (length _)) with 78
    by (rewrite Ha; unfold app_body; by rewrite !length_app, !length_put, !length_replicate, Hlen).
  rewrite Ha, Hi. unfold bdVersionUHD. destruct (String.eqb _ _).
  - assert (Ax : Additive (uhd_extension ix)) by apply _.
    rewrite !seq_cons, set_12, Ax, extension_out, <- !app_assoc by done. cbn [w_seq foldl]. do 4 f_equal.
    rewrite !length_app, !length_put, length_replicate, Hlen. unfold app_body. rewrite !length_app, !length_put, length_replicate.
    unfold blen. f_equal. lia.
  - cbn [w_seq foldl]. by rewrite <- !app_assoc, app_nil_r.
Qed.

Lemma extension_parses {A} ix p (fn : Z -> Z -> bytes -> A -> A) acc :
  parseExtensions (p ++ extension ix) (blen p) fn acc = Ok (fn 3 1 (hevc_data ix) acc).
Proof.
  unfold parseExtensions, extension. set (h := (put_uint 4 32 ++ _)%list). rewrite new_at.
  assert (Hh : blen h = 24) by done.
  rewrite (seek_at (blen p) _ _ p (h ++ hevc_data ix)) by done. unfold h at 1. rewrite <- !app_assoc. read_step.
  cbn [Z.ltb Z.compare]. skip_by (put_uint 4 24 ++ replicate 3 zero)%list. read_step. rewrite err_at, avail_at.
  replace (_ || _) with false by (unfold hevc_data; rewrite !blen_app, !blen_put; done).
  change (Z.to_nat 1) with 1%nat. cbn [extension_entries]. do 4 read_step. rewrite err_at.
  pose proof (slice_at (p ++ h) (hevc_data ix) []) as Hs. rewrite app_nil_r, <- app_assoc, !blen_app, Hh in Hs.
  change (blen (hevc_data ix)) with 12 in *. rewrite !blen_app, Hh. change (blen (hevc_data ix)) with 12.
  pose proof (blen_nonneg p).
  replace (_ || _) with false by (symmetry; rewrite !orb_false_iff, !Z.ltb_ge; lia).
  by rewrite Hs.
Qed.

Lemma hevc_parses ix : parseIndexHEVC (hevc_data ix) = Some {|
  ih_disc_type := 0; ih_exist_4k := true; ih_hdr_plus := bx_hdr_plus ix; ih_dolby_vision := bx_dolby_vision ix;
  ih_hdr_flags := 0 |}.
Proof. destruct ix as [? ? ? ? ? [] []]; reflexivity. Qed.
