(* ===== verification/Dvd.v ===== *)
(** * DVD-Video metadata *)

From S2P Require Import Prelude GoStd Bytes.
Local Open Scope string_scope.
Local Open Scope Z_scope.

(** * DVD metadata (internal/disc/dvd.go)

    The parsers of VIDEO_TS.IFO and VTS_nn_0.IFO. Offsets are those of the source; a
    Go [int] holds every value computed here (sector numbers have 32 bits), so nothing
    wraps around. *)

Definition dvdSector : Z := 2048.
Definition maxDVDTitles : Z := 99.
Definition maxDVDPGCs : Z := 999.

(** [t[i]], where an index out of range panics. *)
Definition at_byte (t : bytes) (i : nat) : outcome Z := indexed (byte_at t i).
Definition string_of (b : bytes) : string := String.string_of_list_ascii b.

Record dvdTitle := {
  dt_angles : Z;
  dt_chapters : Z;
  dt_vts : Z;
  dt_vts_title : Z;
}.
Record vmgFile := { vm_title_sets : Z; vm_titles : list dvdTitle }.

(** The loop over the title table; [t] is nil when the read failed. *)
Fixpoint title_table (n : nat) (r : reader) : outcome (list dvdTitle) :=
  match n with
  | O => Ok []
  | S n =>
    let '(t, r) := r_take 12 r in
    let t := default [] t in
    let? angles := at_byte t 1 in
    let? c2 := at_byte t 2 in
    let? c3 := at_byte t 3 in
    let? vts := at_byte t 6 in
    let? title := at_byte t 7 in
    let? rest := title_table n r in
    Ok ({| dt_angles := angles; dt_chapters := Z.lor (Z.shiftl c2 8) c3; dt_vts := vts; dt_vts_title := title |} :: rest)
  end.

Definition parseVMGI (b : bytes) : outcome vmgFile :=
  let '(id, r) := r_str 12 (newReader b) in
  if rd_err r || negb (String.eqb id "DVDVIDEO-VMG") then Err errBadMagic else
  let r := r_seek 0x3E r in
  let '(sets, r) := r_u16 r in
  let r := r_seek 0xC4 r in
  let '(ttSector, r) := r_u32 r in
  if rd_err r then Err errTruncated else
  if ttSector =? 0 then Ok {| vm_title_sets := sets; vm_titles := [] |} else
  let r := r_seek (ttSector * dvdSector) r in
  let '(n, r) := r_u16 r in
  let r := r_skip (2 + 4) r in
  if rd_err r then Err errTruncated else
  if (maxDVDTitles <? n) || (avail r <? n * 12) then Err errInvalid else
  let? titles := title_table (Z.to_nat n) r in
  Ok {| vm_title_sets := sets; vm_titles := titles |}.

Record dvdAudio := {
  da_format : Z;
  da_channels : Z;
  da_lang : string;
  da_code_ext : Z;
}.

Record vtsFile := {
  vt_mpeg2 : bool;
  vt_pal : bool;
  vt_wide : bool;
  vt_width : Z;
  vt_height : Z;
  vt_audio : list dvdAudio;
  vt_subs : list string;
  vt_pgcs : Z;
  vt_longest_ms : Z;
  vt_longest_programs : Z;
}.

Definition dvdSizes : list (list (Z * Z)) :=
  [[(720, 480); (704, 480); (352, 480); (352, 240)]; [(720, 576); (704, 576); (352, 576); (352, 288)]].

Definition bcd (b : Z) : option Z :=
  let hi := Z.shiftr b 4 in
  let lo := Z.land b 0x0f in
  if (9 <? hi) || (9 <? lo) then None else Some (hi * 10 + lo).

Definition dvdTime (t : bytes) : option Z :=
  match map byte_of t with
  | t0 :: t1 :: t2 :: t3 :: _ =>
    match bcd t0, bcd t1, bcd t2, bcd (Z.land t3 0x3f) with
    | Some h, Some m, Some s, Some f =>
      if (59 <? m) || (59 <? s) then None else
      let ms := (h * 3600 + m * 60 + s) * 1000 in
      let rate := Z.shiftr t3 6 in
      Some (ms + (if rate =? 1 then f * 1000 / 25 else if rate =? 3 then f * 1001 / 30 else 0))
    | _, _, _, _ => None
    end
  | _ => None
  end.

Fixpoint audio_streams (n : nat) (r : reader) : outcome (list dvdAudio * reader) :=
  match n with
  | O => Ok ([], r)
  | S n =>
    match r_take 8 r with
    | (None, _) => Err errTruncated
    | (Some a, r) =>
      let? a0 := at_byte a 0 in
      let? a1 := at_byte a 1 in
      let? a5 := at_byte a 5 in
      let? lang :=
        (if Z.land (Z.shiftr a0 2) 0x03 =? 1 then let? s := indexed (slice a 2 4) in Ok (string_of s) else Ok "") in
      let? (rest, r) := audio_streams n r in
      Ok ({| da_format := Z.shiftr a0 5; da_channels := Z.land a1 0x07 + 1; da_lang := lang; da_code_ext := a5 |} :: rest, r)
    end
  end.

Fixpoint subpictures (n : nat) (r : reader) : outcome (list string * reader) :=
  match n with
  | O => Ok ([], r)
  | S n =>
    match r_take 6 r with
    | (None, _) => Err errTruncated
    | (Some s, r) =>
      let? s0 := at_byte s 0 in
      let? lang := (if Z.land s0 0x03 =? 1 then let? l := indexed (slice s 2 4) in Ok (string_of l) else Ok "") in
      let? (rest, r) := subpictures n r in
      Ok (lang :: rest, r)
    end
  end.

(** The loop over the program chains: how many there are, the play time of the longest
    and its number of programs. *)
Fixpoint program_chains (b : bytes) (base : Z) (n : nat) (r : reader) (acc : Z * Z * Z) : outcome (Z * Z * Z) :=
  match n with
  | O => Ok acc
  | S n =>
    let '(srp, r) := r_take 8 r in
    let srp := default [] srp in
    let? o4 := at_byte srp 4 in
    let? o5 := at_byte srp 5 in
    let? o6 := at_byte srp 6 in
    let? o7 := at_byte srp 7 in
    let off := Z.lor (Z.lor (Z.lor (Z.shiftl o4 24) (Z.shiftl o5 16)) (Z.shiftl o6 8)) o7 in
    match r_take 8 (r_seek (base + off) (newReader b)) with
    | (None, _) => program_chains b base n r acc
    | (Some pgc, _) =>
      let '(pgcs, longest, programs) := acc in
      let? t := indexed (slice pgc 4 8) in
      let? p := at_byte pgc 2 in
      program_chains b base n r
        (match dvdTime t with
         | Some ms => if longest <? ms then (pgcs + 1, ms, p) else (pgcs + 1, longest, programs)
         | None => (pgcs + 1, longest, programs)
         end)
    end
  end.

Definition parseVTSI (b : bytes) : outcome vtsFile :=
  let '(id, r) := r_str 12 (newReader b) in
  if rd_err r || negb (String.eqb id "DVDVIDEO-VTS") then Err errBadMagic else
  let '(pgcSector, r) := r_u32 (r_seek 0xCC r) in
  let r := r_seek 0x200 r in
  let '(va0, r) := r_u8 r in
  let '(va1, r) := r_u8 r in
  let '(na, r) := r_u8 (r_seek 0x203 r) in
  let '(ns, r) := r_u8 (r_seek 0x255 r) in
  if rd_err r then Err errTruncated else
  let std := Z.land (Z.shiftr va0 4) 0x03 in
  let? size :=
    (if std <=? 1 then
       let? row := indexed (dvdSizes !! Z.to_nat std) in indexed (row !! Z.to_nat (Z.land (Z.shiftr va1 2) 0x03))
     else Ok (0, 0)) in
  let? (audio, r) := audio_streams (Z.to_nat (Z.min na 8)) (r_seek 0x204 r) in
  let? (subs, r) := subpictures (Z.to_nat (Z.min ns 32)) (r_seek 0x256 r) in
  let file acc := {|
    vt_mpeg2 := Z.shiftr va0 6 =? 1; vt_pal := std =? 1; vt_wide := Z.land (Z.shiftr va0 2) 0x03 =? 3;
    vt_width := fst size; vt_height := snd size; vt_audio := audio; vt_subs := subs;
    vt_pgcs := fst (fst acc); vt_longest_ms := snd (fst acc); vt_longest_programs := snd acc |} in
  if pgcSector =? 0 then Ok (file (0, 0, 0)) else
  let base := pgcSector * dvdSector in
  let '(n, r) := r_u16 (r_seek base r) in
  let r := r_skip (2 + 4) r in
  if rd_err r then Err errTruncated else
  if (maxDVDPGCs <? n) || (avail r <? n * 8) then Err errInvalid else
  let? acc := program_chains b base (Z.to_nat n) r (0, 0, 0) in
  Ok (file acc).

(** * DVD play times as the fixtures encode them (internal/testutil/fakemedia/dvd.go) *)

(** [bcd]: 0..99 as packed BCD; the conversion to [byte] cuts the value. *)
Definition encode_bcd (n : Z) : Z := Z.land (Z.lor (Z.shiftl ((n / 10) mod 10) 4) (n mod 10)) 0xff.
Definition dvdFPS (pal : bool) : Z := if pal then 25 else 30.
Definition frame_byte (rate f : Z) : Z := Z.lor (Z.land (Z.shiftl rate 6) 0xff) (encode_bcd f).
(** [dvdTime] of the fixtures. *)
Definition encode_time (frames : Z) (pal : bool) : bytes :=
  let fps := dvdFPS pal in
  let s := frames / fps in
  map of_byte [encode_bcd (s / 3600); encode_bcd (s / 60 mod 60); encode_bcd (s mod 60);
    frame_byte (if pal then 1 else 3) (frames mod fps)].
