(* ===== verification/ParserFacts.v ===== *)
(** * The parsers on any bytes, and DVD times: lemmas *)

From S2P Require Import Prelude GoStd Bytes Bdmv Dvd.
Local Open Scope string_scope.
Local Open Scope Z_scope.

(** * The Blu-ray parsers on any bytes

    Whatever the file holds, no parser panics, and what it keeps is bounded by the
    size of the file and by the limits of the format. *)

(** ** The reader *)

(** A reader stays inside its buffer. *)
Definition reader_ok (r : reader) : Prop := (rd_off r <= length (rd_b r))%nat.
(** [r'] is [r] after some reads: the same buffer, never more to read. *)
Definition reads (r r' : reader) : Prop :=
  (reader_ok r -> reader_ok r') /\ rd_b r' = rd_b r /\ (reader_ok r -> avail r' <= avail r).

#[global] Instance reads_preorder : PreOrder reads.
Proof.
  split; [by intros r |]. intros r1 r2 r3 (A & B & C) (D & E & F). split_and!; [auto | congruence |].
  intros H. specialize (C H). specialize (F (A H)). lia.
Qed.

Lemma fail_reads r : reads r (fail r).
Proof. split_and!; try done. intros H. unfold avail, fail, reader_ok, blen in *. cbn. destruct (rd_err r); lia. Qed.

Lemma take_cases n r s r' : r_take n r = (s, r') -> reads r r' /\ reader_ok r ->
  match s with Some s => length s = Z.to_nat n /\ 0 <= n | None => n < 0 \/ avail r < n \/ rd_err r = true end.
Proof.
  unfold r_take, avail, reader_ok, blen. intros H [_ Hok]. destruct (rd_err r) eqn:He; [injection H as <- <-; auto |].
  destruct (_ || _) eqn:Hc; injection H as <- <-.
  - apply orb_true_iff in Hc as [Hc|Hc]; apply Z.ltb_lt in Hc; auto.
  - apply orb_false_iff in Hc as [H1%Z.ltb_ge H2%Z.ltb_ge]. rewrite length_take, length_drop. split; lia.
Qed.

Lemma take_reads n r : reads r (snd (r_take n r)).
Proof.
  unfold r_take. destruct (rd_err r) eqn:He; [reflexivity |]. destruct (_ || _) eqn:Hc; [apply fail_reads |].
  apply orb_false_iff in Hc as [H1%Z.ltb_ge H2%Z.ltb_ge]. unfold reads, reader_ok, avail, blen in *. cbn. rewrite He.
  split_and!; [lia | done | lia].
Qed.

(** A read succeeds when the bytes are there. *)
Lemma take_some n r : reader_ok r -> 0 < n <= avail r -> exists s, r_take n r = (Some s, snd (r_take n r)) /\
  length s = Z.to_nat n /\ reader_ok (snd (r_take n r)) /\ avail (snd (r_take n r)) = avail r - n.
Proof.
  unfold r_take, avail, reader_ok, blen. intros Hok Hn. destruct (rd_err r) eqn:He; [lia |].
  replace (_ || _) with false by (symmetry; apply orb_false_iff; rewrite !Z.ltb_ge; lia).
  eexists. cbn. split_and!; [done | | lia | lia]. rewrite length_take, length_drop. lia.
Qed.

Lemma skip_reads n r : reads r (r_skip n r).
Proof. apply take_reads. Qed.
Lemma uint_reads n r : reads r (snd (r_uint n r)).
Proof. unfold r_uint. pose proof (take_reads n r). destruct (r_take n r) as [[]]; done. Qed.
Lemma uint_range n r : reader_ok r -> 0 <= n -> 0 <= fst (r_uint n r) < 256 ^ n.
Proof.
  intros Hok Hn. unfold r_uint. destruct (r_take n r) as [[s|] r'] eqn:Ht; cbn.
  - destruct (take_cases _ _ _ _ Ht) as [Hl _]; [split; [|done]; pose proof (take_reads n r); by rewrite Ht in * |].
    pose proof (be_uint_nonneg s). pose proof (be_uint_lt s). unfold blen in *. rewrite Hl, Z2Nat.id in * by lia. lia.
  - split; [done |]. by apply Z.pow_pos_nonneg.
Qed.
Lemma new_ok b : reader_ok (newReader b).
Proof. unfold reader_ok. cbn. lia. Qed.
Lemma avail_le r : avail r <= blen (rd_b r).
Proof. unfold avail. pose proof (blen_nonneg (rd_b r)). destruct (rd_err r); lia. Qed.
Lemma str_reads n r : reads r (snd (r_str n r)).
Proof. unfold r_str. pose proof (take_reads n r). destruct (r_take n r) as [[]]; done. Qed.
Lemma seek_ok off r : reader_ok r -> reader_ok (r_seek off r) /\ rd_b (r_seek off r) = rd_b r.
Proof.
  unfold r_seek. intros H. destruct (rd_err r); [done |]. destruct (_ || _) eqn:Hc; [done |].
  apply orb_false_iff in Hc as [H1%Z.ltb_ge H2%Z.ltb_ge]. unfold reader_ok, blen in *. cbn. split; [lia | done].
Qed.
Lemma sub_reads n r : reads r (snd (r_sub n r)).
Proof. unfold r_sub. pose proof (take_reads n r). destruct (r_take n r) as [[]]; done. Qed.
Lemma sub_ok n r : reader_ok r -> reader_ok (fst (r_sub n r)) /\ avail (fst (r_sub n r)) <= blen (rd_b r).
Proof.
  intros Hok. unfold r_sub. destruct (r_take n r) as [[s|] r'] eqn:Ht; cbn.
  - split; [apply new_ok |]. unfold r_take in Ht. destruct (rd_err r); [done |]. destruct (_ || _); [done |].
    injection Ht as <- <-. unfold avail, newReader, blen. cbn. rewrite length_take, length_drop. lia.
  - split; [unfold reader_ok; cbn; lia |]. cbn. apply blen_nonneg.
Qed.

(** The facts of one read, from the equation that names its results. *)
Section read.
Context (r : reader) (Hok : reader_ok r).
Lemma ok_uint n v r' : r_uint n r = (v, r') -> 0 <= n ->
  reader_ok r' /\ rd_b r' = rd_b r /\ avail r' <= avail r /\ 0 <= v < 256 ^ n.
Proof.
  intros E Hn. pose proof (uint_reads n r) as (A & B & C). pose proof (uint_range n r Hok Hn). rewrite E in *. cbn in *. auto.
Qed.
Lemma ok_str n v r' : r_str n r = (v, r') -> reader_ok r' /\ rd_b r' = rd_b r /\ avail r' <= avail r.
Proof. intros E. pose proof (str_reads n r) as (A & B & C). rewrite E in *. cbn in *. auto. Qed.
Lemma ok_sub n blk r' : r_sub n r = (blk, r') ->
  reader_ok r' /\ rd_b r' = rd_b r /\ avail r' <= avail r /\ reader_ok blk /\ avail blk <= blen (rd_b r).
Proof.
  intros E. pose proof (sub_reads n r) as (A & B & C). pose proof (sub_ok n r Hok) as [? ?]. rewrite E in *. cbn in *. auto.
Qed.
Lemma ok_skip n : reader_ok (r_skip n r) /\ rd_b (r_skip n r) = rd_b r /\ avail (r_skip n r) <= avail r.
Proof. pose proof (skip_reads n r) as (A & B & C). auto. Qed.
End read.

Lemma header_ok magic r v r' : reader_ok r -> parseBDHeader magic r = (v, r') ->
  reader_ok r' /\ rd_b r' = rd_b r /\ v <> Panic.
Proof.
  unfold parseBDHeader. intros H E. destruct (r_str 4 r) as [m r1] eqn:E1. apply ok_str in E1 as (H1 & B1 & _); [| done].
  destruct (r_str 4 r1) as [w r2] eqn:E2. apply ok_str in E2 as (H2 & B2 & _); [| done]. injection E as <- <-.
  split_and!; [done | congruence |]. by repeat case_match.
Qed.

(** ** Marks and extensions *)

Lemma entry_marks_ok n r : reader_ok r -> 14 * Z.of_nat n <= avail r ->
  exists c, entry_marks n r = Ok c /\ 0 <= c <= Z.of_nat n.
Proof.
  revert r. induction n as [|n IH]; intros r Hok Ha; [by exists 0 |]. cbn [entry_marks].
  destruct (take_some 14 r Hok ltac:(lia)) as (s & Et & Hl & Hok' & Hav). rewrite Et. cbn [default from_option].
  destruct (IH (snd (r_take 14 r)) Hok' ltac:(lia)) as (c & Ec & Hc).
  destruct s as [|x [|y s]]; [done.. |]. cbn [byte_at lookup list_lookup fmap option_fmap option_map indexed obind].
  unfold byte_at. cbn. rewrite Ec. cbn [obind]. eexists. split; [done |]. destruct (_ =? 1); lia.
Qed.

Lemma extension_entries_safe {A} b start (fn : Z -> Z -> bytes -> A -> A) n r acc :
  reader_ok r -> 0 <= start -> extension_entries b start fn n r acc <> Panic.
Proof.
  revert r acc. induction n as [|n IH]; intros r acc Hok Hs; [done |]. cbn [extension_entries].
  destruct (r_u16 r) as [i1 r1] eqn:E1. apply ok_uint in E1 as (H1 & _); [| done..].
  destruct (r_u16 r1) as [i2 r2] eqn:E2. apply ok_uint in E2 as (H2 & _); [| done..].
  destruct (r_u32 r2) as [off r3] eqn:E3. apply ok_uint in E3 as (H3 & _ & _ & Ho); [| done..].
  destruct (r_u32 r3) as [len r4] eqn:E4. apply ok_uint in E4 as (H4 & _ & _ & Hl); [| done..].
  destruct (rd_err r4); [done |]. destruct (_ || _) eqn:Hg; [done |].
  rewrite !orb_false_iff, !Z.ltb_ge in Hg. unfold slice.
  replace (_ && _) with true by (symmetry; rewrite !andb_true_iff, !Z.leb_le; lia). cbn [indexed obind]. by apply IH.
Qed.

Lemma extensions_safe {A} b start (fn : Z -> Z -> bytes -> A -> A) acc :
  0 <= start -> parseExtensions b start fn acc <> Panic.
Proof.
  intros Hs. unfold parseExtensions. destruct (seek_ok start (newReader b) (new_ok b)) as [H0 _].
  destruct (r_u32 _) as [len r1] eqn:E1. apply ok_uint in E1 as (H1 & _); [| done..]. destruct (len <? 1); [done |].
  destruct (ok_skip r1 H1 (4 + 3)) as (H2 & _). destruct (r_u8 _) as [n r3] eqn:E3.
  apply ok_uint in E3 as (H3 & _); [| done..]. destruct (_ || _); [done |]. by apply extension_entries_safe.
Qed.

(** ** Play items *)

Definition bounded_item (it : mplsItem) : Prop :=
  let s := mi_stn it in
  0 <= mi_in it < 2 ^ 32 /\ 0 <= mi_out it < 2 ^ 32 /\
  (length (sn_video s) <= 64 /\ length (sn_audio s) <= 64 /\ length (sn_pg s) <= 64 /\ length (sn_dv s) <= 64)%nat /\
  (hasVideo it = true <-> mi_kept it = true /\ 0 < sn_video_n s).

(** What the loop keeps: the attribute item is one of the items, and it is the first
    with a video stream, or the first when none has. *)
Record items_ok (items : list mplsItem) (attr : option nat) : Prop := {
  it_attr : match attr with
    | None => items = []
    | Some a => exists x, items !! a = Some x /\ mi_kept x = true /\
        (a = 0%nat \/ 0 < sn_video_n (mi_stn x)) /\
        (forall i y, items !! i = Some y -> 0 < sn_video_n (mi_stn y) -> 0 < sn_video_n (mi_stn x) /\ (a <= i)%nat) end;
  it_bounded : Forall bounded_item items;
}.

Lemma length_streams n refs r : length (fst (streams n refs r)) = n.
Proof.
  revert r. induction n as [|n IH]; intros r; [done |]. cbn [streams]. destruct (parseStream r) as [s r1].
  specialize (IH (Nat.iter refs skipRefs r1)). destruct (streams n refs _) as [l r2]. cbn in *. by rewrite IH.
Qed.
Lemma length_stored keep l : (length (stored keep l) <= 64)%nat.
Proof. unfold stored. destruct keep; [| cbn; lia]. rewrite length_take. change (Z.to_nat maxStoreStreams) with 64%nat. lia. Qed.

Definition stn_bounded (keep : bool) (s : mplsSTN) : Prop :=
  (length (sn_video s) <= 64 /\ length (sn_audio s) <= 64 /\ length (sn_pg s) <= 64 /\ length (sn_dv s) <= 64)%nat /\
  (0 < Z.of_nat (length (sn_video s)) <-> keep = true /\ 0 < sn_video_n s).

Ltac reads_step :=
  match goal with
  | |- context [let '(_, _) := r_u8 ?r in _] => let v := fresh "v" in let r' := fresh "r" in let E := fresh "E" in
    let Ho := fresh "Hok" in destruct (r_u8 r) as [v r'] eqn:E; apply ok_uint in E as (Ho & ? & ? & ?); [| done..]
  | |- context [let '(_, _) := r_u16 ?r in _] => let v := fresh "v" in let r' := fresh "r" in let E := fresh "E" in
    let Ho := fresh "Hok" in destruct (r_u16 r) as [v r'] eqn:E; apply ok_uint in E as (Ho & ? & ? & ?); [| done..]
  | |- context [let '(_, _) := r_u32 ?r in _] => let v := fresh "v" in let r' := fresh "r" in let E := fresh "E" in
    let Ho := fresh "Hok" in destruct (r_u32 r) as [v r'] eqn:E; apply ok_uint in E as (Ho & ? & ? & ?); [| done..]
  | |- context [let '(_, _) := r_str ?n ?r in _] => let v := fresh "v" in let r' := fresh "r" in let E := fresh "E" in
    let Ho := fresh "Hok" in destruct (r_str n r) as [v r'] eqn:E; apply ok_str in E as (Ho & ? & ?); [| done..]
  | |- context [let '(_, _) := r_sub ?n ?r in _] => let v := fresh "blk" in let r' := fresh "r" in let E := fresh "E" in
    let Ho := fresh "Hok" in let Hb := fresh "Hblk" in
    destruct (r_sub n r) as [v r'] eqn:E; apply ok_sub in E as (Ho & ? & ? & Hb & ?); [| done..]
  | |- context [r_skip ?n ?r] => is_var r; let r' := fresh "r" in let Ho := fresh "Hok" in
    let Hs := fresh in pose proof (ok_skip r ltac:(assumption) n) as (Ho & ? & ?); set (r' := r_skip n r) in *; clearbody r'
  end.

Lemma stn_ok keep r : reader_ok r -> let '(res, r') := parseSTN keep r in
  reader_ok r' /\ res <> Panic /\ forall s, res = Ok s -> stn_bounded keep s.
Proof.
  intros Hr. unfold parseSTN. reads_step. reads_step. reads_step. do 8 reads_step. reads_step.
  destruct (rd_err _); [done |]. destruct (_ <? _); [done |].
  match goal with |- context [streams (Z.to_nat v0) 0 ?b] =>
    pose proof (length_streams (Z.to_nat v0) 0 b) as Hl; destruct (streams (Z.to_nat v0) 0 b) as [vs b1] end. cbn in Hl.
  repeat (match goal with |- context [let '(_, _) := streams ?n ?k ?b in _] => destruct (streams n k b) as [? ?] end).
  destruct (rd_err _); [done |]. split_and!; [done.. |]. intros s [= <-]. unfold stn_bounded. cbn -[stored Z.of_nat].
  split; [split_and!; apply length_stored |]. unfold stored. destruct keep; [| cbn; split; [lia | by intros [? _]]].
  rewrite length_take, Hl. change (Z.to_nat maxStoreStreams) with 64%nat.
  split; [intros; split; [done | lia] | intros [_ ?]; lia].
Qed.

Lemma play_item_ok keep r : reader_ok r -> let '(res, r') := parsePlayItem keep r in
  reader_ok r' /\ res <> Panic /\ forall it, res = Ok it -> mi_kept it = keep /\ stn_bounded keep (mi_stn it) /\
    0 <= mi_in it < 2 ^ 32 /\ 0 <= mi_out it < 2 ^ 32.
Proof.
  intros Hr. unfold parsePlayItem. reads_step. destruct (rd_err _); [done |]. destruct (_ <? 18); [done |].
  repeat (progress cbv zeta || reads_step).
  match goal with |- context [if negb ?c then ?x else ?y] =>
    assert (Hx : reader_ok (snd (if negb c then x else y))); [| destruct (if negb c then x else y) as [an b1]; cbn in Hx] end.
  { destruct (negb _); [| done]. by destruct (1 <? _). }
  pose proof (stn_ok keep b1 Hx) as Hs. destruct (parseSTN keep b1) as [stn b2]. destruct Hs as (Hb2 & Hn & Hs).
  split; [done |]. destruct stn as [s|e|]; cbn [obind]; [| done..]. destruct (rd_err b2); [done |]. split; [done |].
  intros it [= <-]. cbn. split_and!; try done; [by apply Hs | lia..].
Qed.

Lemma has_video_kept keep it : mi_kept it = keep -> stn_bounded keep (mi_stn it) ->
  hasVideo it = true <-> mi_kept it = true /\ 0 < sn_video_n (mi_stn it).
Proof. intros Hk [_ Hs]. unfold hasVideo. rewrite Hk, andb_true_iff, Z.ltb_lt, Hs. naive_solver. Qed.

Lemma item_bounded keep it : mi_kept it = keep -> stn_bounded keep (mi_stn it) ->
  0 <= mi_in it < 2 ^ 32 -> 0 <= mi_out it < 2 ^ 32 -> bounded_item it /\ bounded_item (drop_streams it).
Proof.
  intros Hk Hs Hi Ho. pose proof (has_video_kept _ _ Hk Hs). destruct Hs as [Hl _]. split; split_and!; try done; cbn; lia || naive_solver.
Qed.

Lemma items_snoc items attr it keep : items_ok items attr -> attr_has_video items attr = Ok (negb keep) ->
  mi_kept it = keep -> stn_bounded keep (mi_stn it) -> 0 <= mi_in it < 2 ^ 32 -> 0 <= mi_out it < 2 ^ 32 ->
  if keep && (bool_decide (attr = None) || hasVideo it) then items_ok (items ++ [it])%list (Some (length items))
  else items_ok (items ++ [if keep then drop_streams it else it])%list attr.
Proof.
  intros [Ha Hb] Hf Hk Hs Hi Ho. destruct (item_bounded _ _ Hk Hs Hi Ho) as [Hit Hdr].
  pose proof (has_video_kept _ _ Hk Hs) as Hv.
  assert (Hnew : forall l y, bounded_item y -> Forall bounded_item l -> Forall bounded_item (l ++ [y])%list)
    by (intros; apply Forall_app; auto).
  destruct attr as [a|].
  - destruct Ha as (x & Hx & Hxk & Hx0 & Hxf). unfold attr_has_video in Hf. rewrite Hx in Hf. injection Hf as Hf.
    pose proof (proj1 (Forall_lookup _ _) Hb _ _ Hx) as (_ & _ & _ & Hxv). rewrite Hf, Hxk in Hxv.
    rewrite bool_decide_eq_false_2 by done. cbn [orb]. destruct keep; cbn [andb negb] in *.
    + destruct (hasVideo it) eqn:Hit'.
      * split; [| auto]. exists it. rewrite lookup_app_r, Nat.sub_diag by lia. split_and!; [done | done | naive_solver |].
        intros i y Hy Hyn. split; [naive_solver |]. destruct (decide (i < length items)%nat); [| lia].
        rewrite lookup_app_l in Hy by done. naive_solver.
      * split; [| auto]. exists x. rewrite lookup_app_l by (by eapply lookup_lt_Some). split_and!; [done.. |].
        intros i y Hy Hyn. apply lookup_app_Some in Hy as [Hy|[Hle Hy]]; [naive_solver |].
        apply list_lookup_singleton_Some in Hy as [_ <-]. cbn in Hyn. exfalso. naive_solver.
    + split; [| auto]. exists x. rewrite lookup_app_l by (by eapply lookup_lt_Some). split_and!; [done.. |].
      intros i y Hy Hyn. split; [naive_solver |]. apply lookup_app_Some in Hy as [Hy|[Hle Hy]]; [naive_solver |].
      apply lookup_lt_Some in Hx. lia.
  - subst items. injection Hf as Hf. destruct keep; [| done]. cbn. split; [| auto]. exists it. split_and!; [done | done | auto |].
    intros i y Hy Hyn. apply list_lookup_singleton_Some in Hy as [-> <-]. done.
Qed.

Lemma play_items_ok n items attr blk : items_ok items attr -> reader_ok blk ->
  play_items n items attr blk <> Panic /\ forall l a, play_items n items attr blk = Ok (l, a) ->
    items_ok l a /\ length l = (length items + n)%nat.
Proof.
  revert items attr blk. induction n as [|n IH]; intros items attr blk Hok Hb; cbn [play_items].
  { split; [done |]. intros l a [= <- <-]. split; [done | lia]. }
  assert (Hf : exists f, attr_has_video items attr = Ok f).
  { destruct attr as [a|]; [| by eexists]. destruct (it_attr _ _ Hok) as (x & Hx & _). unfold attr_has_video. rewrite Hx. by eexists. }
  destruct Hf as [f Hf]. rewrite Hf. cbn [obind]. pose proof (play_item_ok (negb f) blk Hb) as Hp.
  destruct (parsePlayItem (negb f) blk) as [res b1]. destruct Hp as (Hb1 & Hn & Hp). destruct res as [it|e|]; cbn [obind]; [| done..].
  destruct (Hp it eq_refl) as (Hk & Hs & Hi & Ho).
  pose proof (items_snoc items attr it (negb f) Hok) as Hsn. rewrite negb_involutive in Hsn. specialize (Hsn Hf Hk Hs Hi Ho).
  destruct (_ && _); destruct (IH _ _ b1 Hsn Hb1) as [H1 H2]; (split; [done |]); intros l a Hl; apply H2 in Hl as [Hl Hlen];
    (split; [done |]); rewrite length_app in Hlen; cbn in Hlen; lia.
Qed.

Definition zlen {A} (l : list A) : Z := Z.of_nat (length l).

Lemma parse_playlist_ok b : parseMPLS b <> Panic /\ forall f, parseMPLS b = Ok f ->
  items_ok (mf_items f) (mf_attr f) /\ zlen (mf_items f) <= 2000 /\ 20 * zlen (mf_items f) <= blen b /\
  0 <= mf_chapters f <= mf_marks f /\ 14 * mf_marks f <= blen b.
Proof.
  unfold parseMPLS. destruct (parseBDHeader _ _) as [ver r] eqn:Eh. apply header_ok in Eh as (Hr & Hb & Hp); [| apply new_ok].
  change (rd_b (newReader b)) with b in Hb. destruct ver as [ver|e|]; cbn [obind]; [| done..].
  do 2 reads_step. destruct (rd_err _); [done |]. destruct (seek_ok v r1 Hok0) as [Hs Hsb].
  set (r2 := r_seek v r1) in *. clearbody r2. reads_step. reads_step. reads_step. do 2 reads_step.
  destruct (_ || _); [done |]. destruct (_ || _) eqn:Hn; [done |]. unfold maxPlayItems in Hn.
  rewrite orb_false_iff, !Z.ltb_ge in Hn.
assert (Hav : avail r7 <= blen b) by (repeat match goal with H : rd_b _ = _ |- _ => rewrite H in * end; lia).
  destruct (play_items_ok (Z.to_nat v2) [] None r7) as [Hnp Hok6]; [by split | done |].
  destruct (play_items _ _ _ r7) as [[l a]|e|]; cbn [obind fst snd]; [| done..].
  destruct (Hok6 l a eq_refl) as [Hit Hlen]. cbn [length] in Hlen.
  assert (Hz : zlen l = v2) by (unfold zlen; lia).
  destruct (v0 =? 0).
  { split; [done |]. intros f [= <-]. cbn. rewrite Hz. pose proof (blen_nonneg b). split_and!; done || lia. }
  destruct (seek_ok v0 r4 Hok2) as [Hs2 Hs2b]. set (r8 := r_seek v0 r4) in *. clearbody r8. do 2 reads_step.
  destruct (_ || _) eqn:Hm; [done |]. apply orb_false_iff in Hm as [_ Hm%Z.ltb_ge].
  destruct (entry_marks_ok (Z.to_nat v5) r10 ltac:(done) ltac:(lia)) as (c & -> & Hc). cbn [obind].
  split; [done |]. intros f [= <-]. cbn. rewrite Hz.
  assert (avail r10 <= blen b) by (pose proof (avail_le r10); repeat match goal with H : rd_b _ = _ |- _ => rewrite H in * end; lia).
  split_and!; done || lia.
Qed.

Lemma atc_safe n r acc : atc_sequences n r acc <> Panic.
Proof.
  revert r acc. induction n as [|n IH]; intros r acc; [done |]. cbn [atc_sequences]. destruct (rd_err r); [done |].
  destruct (r_u8 _) as [stc r1]. destruct (_ <? _); [done |]. destruct (stc_sequences _ _ _) as [acc' r2]. apply IH.
Qed.
Lemma programs_safe n first r kept : programs n first r kept <> Panic.
Proof.
  revert first r kept. induction n as [|n IH]; intros first r kept; [done |]. cbn [programs]. destruct (rd_err r); [done |].
  destruct (r_u8 _) as [ns r1]. destruct (_ <? _); [done |]. destruct (clip_streams _ _) as [l r2]. apply IH.
Qed.

Lemma clip_safe b : parseCLPI b <> Panic.
Proof.
  unfold parseCLPI. destruct (parseBDHeader _ _) as [ver r] eqn:Eh. apply header_ok in Eh as (Hr & Hb & Hp); [| apply new_ok].
  destruct ver as [ver|e|]; cbn [obind]; [| done..]. repeat case_match; try done.
  all: match goal with
  | H : _ = _ |- obind _ (atc_sequences ?n ?r ?a) <> Panic => pose proof (atc_safe n r a); destruct (atc_sequences n r a) as [[t r']|e|]; cbn [obind]; [| done..]
  end.
  all: repeat case_match; try done.
  all: match goal with |- obind _ (programs ?n ?f ?r ?k) <> Panic => pose proof (programs_safe n f r k); destruct (programs n f r k) as [[t' r'']|e|]; cbn [obind]; [| done..] end.
  all: by repeat case_match.
Qed.

Lemma index_safe b : parseIndex b <> Panic.
Proof.
  unfold parseIndex. destruct (parseBDHeader _ _) as [ver r] eqn:Eh. apply header_ok in Eh as (Hr & Hb & Hp); [| apply new_ok].
  destruct ver as [ver|e|]; cbn [obind]; [| done..]. do 2 reads_step.
  destruct (r_u32 (r_seek 40 r1)) as [v1 r2]. destruct (r_u8 r2) as [f0 r3]. destruct (r_u8 r3) as [f1 r4].
  destruct (rd_err r4); [done |]. destruct (r_u32 (r_seek v r4)) as [v2 r5]. destruct (r_sub v2 r5) as [blk r6].
  destruct (r_u16 _) as [n blk1]. destruct (_ || _); [done |]. destruct (_ <? _); [done |]. destruct (v0 =? 0); [done |].
  match goal with |- context [parseExtensions b v0 ?fn ?acc] => pose proof (extensions_safe b v0 fn acc ltac:(lia)) as Hx;
    destruct (parseExtensions b v0 fn acc); cbn [obind]; done end.
Qed.

(** * The DVD parsers: any bytes, and the play times the fixtures write *)

Lemma at_byte_some t i : (i < length t)%nat -> exists v, at_byte t i = Ok v /\ 0 <= v < 256.
Proof.
  intros H. destruct (lookup_lt_is_Some_2 t i H) as [c Hc]. exists (byte_of c). split; [| apply byte_range].
  unfold at_byte. by rewrite (f_equal (fmap byte_of) Hc : byte_at t i = Some (byte_of c)).
Qed.
Lemma slice_some b from to : 0 <= from <= to -> to <= blen b -> exists s, slice b from to = Some s.
Proof.
  intros H1 H2. unfold slice. replace (_ && _) with true by (symmetry; rewrite !andb_true_iff, !Z.leb_le; lia). by eexists.
Qed.

(** An index or a slice known to be inside. *)
Ltac inside :=
  match goal with
  | |- context [at_byte ?t ?i] =>
      let v := fresh "v" in let E := fresh "E" in
      destruct (at_byte_some t i) as (v & E & ?); [lia |]; rewrite E; cbn [obind]
  | |- context [slice ?b ?i ?j] =>
      let v := fresh "s" in let E := fresh "E" in
      destruct (slice_some b i j) as (v & E); [lia | unfold blen; lia |]; rewrite E; cbn [indexed obind]
  end.

(** A language is read or left empty; either way there is one. *)
Ltac known_lang :=
  match goal with |- context [if ?c =? 1 then Ok ?x else Ok ?y] =>
    replace (if c =? 1 then Ok x else Ok y) with (Ok (if c =? 1 then x else y)) by (by destruct (c =? 1)) end;
  cbn [obind].

Lemma title_table_ok n r : reader_ok r -> 12 * Z.of_nat n <= avail r ->
  exists l, title_table n r = Ok l /\ length l = n.
Proof.
  revert r. induction n as [|n IH]; intros r Hok Ha; [by exists [] |]. cbn [title_table].
  destruct (take_some 12 r Hok ltac:(lia)) as (s & Et & Hl & Hok' & Hav). rewrite Et. cbn [default from_option id].
  destruct (IH (snd (r_take 12 r)) Hok' ltac:(lia)) as (l & El & Hn). do 5 inside. rewrite El. cbn [obind].
  eexists. split; [done |]. cbn. by rewrite Hn.
Qed.

Lemma take_length n r s r' : reader_ok r -> r_take n r = (Some s, r') ->
  length s = Z.to_nat n /\ reader_ok r' /\ rd_b r' = rd_b r.
Proof.
  intros Hok E. assert (R : reads r r') by (pose proof (take_reads n r) as R; by rewrite E in R).
  destruct (take_cases _ _ _ _ E (conj R Hok)) as [? _]. by destruct R as (A & B & _); auto.
Qed.

Lemma audio_streams_ok n r : reader_ok r -> audio_streams n r <> Panic /\
  forall l r', audio_streams n r = Ok (l, r') -> length l = n /\ reader_ok r' /\ rd_b r' = rd_b r.
Proof.
  revert r. induction n as [|n IH]; intros r Hok; cbn [audio_streams]; [split; [done |]; by intros l r' [= <- <-] |].
  destruct (r_take 8 r) as [[a|] r1] eqn:E; [| done]. destruct (take_length _ _ _ _ Hok E) as (Hl & Hok1 & Hb).
  change (Z.to_nat 8) with 8%nat in Hl. do 3 inside. inside.
  known_lang. destruct (IH r1 Hok1) as [Hn Hs].
  destruct (audio_streams n r1) as [[l r2]|e|]; cbn [obind]; [| done..]. split; [done |].
  intros l' r' [= <- <-]. destruct (Hs l r2 eq_refl) as (? & ? & ?). cbn. split_and!; [lia | done | congruence].
Qed.

Lemma subpictures_ok n r : reader_ok r -> subpictures n r <> Panic /\
  forall l r', subpictures n r = Ok (l, r') -> length l = n /\ reader_ok r' /\ rd_b r' = rd_b r.
Proof.
  revert r. induction n as [|n IH]; intros r Hok; cbn [subpictures]; [split; [done |]; by intros l r' [= <- <-] |].
  destruct (r_take 6 r) as [[a|] r1] eqn:E; [| done]. destruct (take_length _ _ _ _ Hok E) as (Hl & Hok1 & Hb).
  change (Z.to_nat 6) with 6%nat in Hl. inside. inside.
  known_lang. destruct (IH r1 Hok1) as [Hn Hs].
  destruct (subpictures n r1) as [[l r2]|e|]; cbn [obind]; [| done..]. split; [done |].
  intros l' r' [= <- <-]. destruct (Hs l r2 eq_refl) as (? & ? & ?). cbn. split_and!; [lia | done | congruence].
Qed.

Lemma program_chains_ok b base n r acc : reader_ok r -> 8 * Z.of_nat n <= avail r ->
  program_chains b base n r acc <> Panic.
Proof.
  revert r acc. induction n as [|n IH]; intros r acc Hok Ha; [done |]. cbn [program_chains].
  destruct (take_some 8 r Hok ltac:(lia)) as (s & Et & Hl & Hok' & Hav). rewrite Et. cbn [default from_option id].
  change (Z.to_nat 8) with 8%nat in Hl. do 4 inside.
  destruct (r_take 8 (r_seek _ _)) as [[pgc|] r1] eqn:Ep; [| apply IH; [done | lia]].
  destruct acc as [[pgcs longest] programs].
  destruct (take_length _ _ _ _ (proj1 (seek_ok _ _ (new_ok b))) Ep) as (Hl1 & _). change (Z.to_nat 8) with 8%nat in Hl1.
  inside. inside. apply IH; [done | lia].
Qed.

(** ** Whole files *)

Lemma vmg_ok b : parseVMGI b <> Panic /\ forall f, parseVMGI b = Ok f ->
  (length (vm_titles f) <= 99)%nat /\ 12 * Z.of_nat (length (vm_titles f)) <= blen b.
Proof.
  unfold parseVMGI. pose proof (new_ok b) as H0. reads_step. destruct (_ || _); [done |].
  destruct (seek_ok 0x3E r Hok) as [Hs Hsb]. set (r1 := r_seek _ r) in *. clearbody r1. cbv zeta. reads_step.
  destruct (seek_ok 0xC4 r0 Hok0) as [Hs1 Hsb1]. set (r2 := r_seek _ r0) in *. clearbody r2. cbv zeta. reads_step.
  destruct (rd_err _); [done |]. destruct (v1 =? 0); [split; [done |]; intros f [= <-]; cbn; pose proof (blen_nonneg b); split; lia |].
  destruct (seek_ok (v1 * dvdSector) r3 Hok1) as [Hs2 Hsb2]. set (r4 := r_seek _ r3) in *. clearbody r4. cbv zeta. do 2 reads_step.
  destruct (rd_err _); [done |]. destruct (_ || _) eqn:Hn; [done |]. unfold maxDVDTitles in Hn.
  rewrite orb_false_iff, !Z.ltb_ge in Hn.
  match type of Hn with _ /\ _ <= avail ?x => pose proof (avail_le x);
    destruct (title_table_ok (Z.to_nat v2) x) as (l & El & Hl); [done | lia |] end.
  rewrite El. cbn [obind]. split; [done |]. intros f [= <-]. cbn. rewrite Hl.
  change (rd_b (newReader b)) with b in *. split; [lia |].
  repeat match goal with H : rd_b _ = _ |- _ => rewrite H in * end. lia.
Qed.

Lemma dvd_size_known std code : 0 <= std <= 1 -> exists wh,
  (let? row := indexed (dvdSizes !! Z.to_nat std) in indexed (row !! Z.to_nat (Z.land code 3))) = Ok wh.
Proof.
  intros Hs. assert (Hc : 0 <= Z.land code 3 < 4) by (change 3 with (Z.ones 2); rewrite Z.land_ones by lia; by apply Z.mod_pos_bound).
  assert (Hd : std = 0 \/ std = 1) by lia. assert (He : Z.land code 3 = 0 \/ Z.land code 3 = 1 \/ Z.land code 3 = 2 \/ Z.land code 3 = 3) by lia.
  destruct Hd as [->| ->]; destruct He as [->|[->|[->| ->]]]; by eexists.
Qed.

Ltac seek_step :=
  match goal with |- context [r_seek ?k ?r] => is_var r; let r' := fresh "r" in let Ho := fresh "Hok" in
    pose proof (seek_ok k r ltac:(assumption)) as (Ho & ?); set (r' := r_seek k r) in *; clearbody r' end; cbv zeta.

Lemma vts_ok b : parseVTSI b <> Panic /\ forall f, parseVTSI b = Ok f ->
  (length (vt_audio f) <= 8)%nat /\ (length (vt_subs f) <= 32)%nat.
Proof.
  unfold parseVTSI. pose proof (new_ok b) as H0. reads_step. destruct (_ || _); [done |].
  seek_step. reads_step. seek_step. cbv zeta. do 2 reads_step. seek_step. reads_step. seek_step. reads_step.
  destruct (rd_err _); [done |]. match goal with |- context [Z.land (Z.shiftr ?x 4) 3 <=? 1] => set (std := Z.land (Z.shiftr x 4) 3) end.
  match goal with |- context [if std <=? 1 then ?x else ?y] => assert (Hx : exists wh, (if std <=? 1 then x else y) = Ok wh) end.
  { destruct (Z.leb_spec std 1); [| by eexists]. apply dvd_size_known. split; [| done].
    unfold std. apply Z.land_nonneg. lia. }
  destruct Hx as [wh ->]. cbn [obind]. seek_step.
  match goal with |- context [audio_streams ?n ?r] => destruct (audio_streams_ok n r) as [Hn1 Hs1]; [done |];
    destruct (audio_streams n r) as [[al ra]|e|]; cbn [obind]; [| done..] end.
  destruct (Hs1 _ _ eq_refl) as (Hla & Hra & _). seek_step.
  match goal with |- context [subpictures ?n ?r] => destruct (subpictures_ok n r) as [Hn2 Hs2]; [done |];
    destruct (subpictures n r) as [[sl rs]|e|]; cbn [obind]; [| done..] end.
  destruct (Hs2 _ _ eq_refl) as (Hls & Hrs & _).
  assert (Hlen : (length al <= 8 /\ length sl <= 32)%nat) by lia.
  destruct (_ =? 0); [split; [done |]; intros f [= <-]; by cbn |].
  seek_step. do 2 reads_step. destruct (rd_err _); [done |]. destruct (_ || _) eqn:Hn; [done |].
  rewrite orb_false_iff, !Z.ltb_ge in Hn.
  match goal with |- context [program_chains b ?k ?n ?r ?a] => pose proof (program_chains_ok b k n r a ltac:(done) ltac:(lia)) as Hp;
    destruct (program_chains b k n r a) as [acc|e|]; cbn [obind]; [| done..] end.
  split; [done |]. intros f [= <-]. by cbn.
Qed.

(** ** Play times *)

Lemma bcd_read n : 0 <= n < 100 -> 0 <= encode_bcd n < 256 /\ bcd (encode_bcd n) = Some n.
Proof.
  intros H. pose (P n := (0 <=? encode_bcd n) && (encode_bcd n <? 256) && bool_decide (bcd (encode_bcd n) = Some n)).
  assert (Hp : P n = true) by (apply (below_forall P 100); [by vm_compute | done]).
  unfold P in Hp. rewrite !andb_true_iff, bool_decide_eq_true, Z.leb_le, Z.ltb_lt in Hp. tauto.
Qed.

Lemma frame_byte_read rate f : rate = 1 \/ rate = 3 -> 0 <= f < 30 ->
  let b := frame_byte rate f in 0 <= b < 256 /\ bcd (Z.land b 0x3f) = Some f /\ Z.shiftr b 6 = rate.
Proof.
  intros Hr H. pose (P rate f := let b := frame_byte rate f in
    (0 <=? b) && (b <? 256) && bool_decide (bcd (Z.land b 0x3f) = Some f) && (Z.shiftr b 6 =? rate)).
  assert (Hp : P rate f = true) by (destruct Hr as [->| ->]; (apply (below_forall (P _) 30); [by vm_compute | done])).
  unfold P in Hp. cbv zeta in *. rewrite !andb_true_iff, bool_decide_eq_true, Z.leb_le, Z.ltb_lt, Z.eqb_eq in Hp. tauto.
Qed.

Lemma time_read frames pal : 0 <= frames < 360000 * dvdFPS pal ->
  dvdTime (encode_time frames pal) = Some (frames / dvdFPS pal * 1000 +
    (if pal then frames mod dvdFPS pal * 1000 / 25 else frames mod dvdFPS pal * 1001 / 30)).
Proof.
  intros H. unfold encode_time. set (fps := dvdFPS pal) in *. set (s := frames / fps).
  assert (Hfps : 25 <= fps <= 30) by (unfold fps, dvdFPS; destruct pal; lia).
  assert (Hs : 0 <= s < 360000) by (unfold s; split; [apply Z.div_pos; lia | apply Z.div_lt_upper_bound; lia]).
  assert (Hh : 0 <= s / 3600 < 100) by (split; [apply Z.div_pos; lia | apply Z.div_lt_upper_bound; lia]).
  assert (Hm : 0 <= s / 60 mod 60 < 60) by (apply Z.mod_pos_bound; lia).
  assert (Hx : 0 <= s mod 60 < 60) by (apply Z.mod_pos_bound; lia).
  assert (Hf : 0 <= frames mod fps < 30) by (pose proof (Z.mod_pos_bound frames fps); lia).
  destruct (bcd_read _ Hh) as [B1 R1]. destruct (bcd_read (s / 60 mod 60) ltac:(lia)) as [B2 R2].
  destruct (bcd_read (s mod 60) ltac:(lia)) as [B3 R3].
  destruct (frame_byte_read (if pal then 1 else 3) _ ltac:(destruct pal; auto) Hf) as (B4 & R4 & R5). cbv zeta in *.
  unfold dvdTime. cbn [map]. rewrite !byte_of_byte by lia. rewrite R1, R2, R3, R4, R5.
  replace (_ || _) with false by (symmetry; apply orb_false_iff; rewrite !Z.ltb_ge; lia).
  assert (E : s / 3600 * 3600 + s / 60 mod 60 * 60 + s mod 60 = s).
  { pose proof (Z.div_mod s 60 ltac:(lia)). pose proof (Z.div_mod (s / 60) 60 ltac:(lia)) as E.
    rewrite Z.div_div in E by lia. change (60 * 60) with 3600 in E. lia. }
  rewrite E. f_equal. destruct pal; cbn [Z.eqb]; done.
Qed.
