(* ===== verification/FileSys.v ===== *)
(** * Files and how the executor moves them (internal/executor/confined.go, rename_at.go)

    A disk maps the entries of open folders to files, folders, links and special
    files; files with several links share their data. Every system call may fail
    ([ft_fails]); a copy that fails has written part of the data. What the operating
    system resolves (opening a folder inside a root) is an oracle of the callers.
    [EINTR] is not a failure here: the source repeats the call. *)

From S2P Require Import Prelude GoStd Models DiscPaths Paths Pathmap ExecModel.
Local Open Scope string_scope.
Local Open Scope Z_scope.

(** ** The disk *)

Inductive node := File (ino : Z) | Dir (ino : Z) | Symlink | Special.
#[export] Instance node_eq_dec : EqDecision node.
Proof. solve_decision. Defined.
(** An entry of a pinned folder: the folder, its path for messages, and a name. *)
Record entry := { en_dir : Z; en_path : string; en_name : string }.
Definition key := (Z * string)%type.
Definition key_of (e : entry) : key := (en_dir e, en_name e).
(** [filepath.Join] of two elements. *)
Definition path_join (a b : string) : string :=
  if String.eqb a "" then (if String.eqb b "" then "" else path_clean b)
  else if String.eqb b "" then path_clean a else path_clean (a +:+ "/" +:+ b).
Definition entry_path (e : entry) : string := path_join (en_path e) (en_name e).

Record disk := {
  dk_nodes : gmap key node;
  dk_data : gmap Z string;
  dk_next : Z;                 (* the next inode *)
  dk_clock : nat;
}.
Definition with_nodes (m : gmap key node) (s : disk) : disk :=
  {| dk_nodes := m; dk_data := dk_data s; dk_next := dk_next s; dk_clock := dk_clock s |}.
Definition with_data (m : gmap Z string) (s : disk) : disk :=
  {| dk_nodes := dk_nodes s; dk_data := m; dk_next := dk_next s; dk_clock := dk_clock s |}.
Definition passed (s : disk) : disk :=
  {| dk_nodes := dk_nodes s; dk_data := dk_data s; dk_next := dk_next s; dk_clock := S (dk_clock s) |}.
Definition data_of (s : disk) (i : Z) : string := default "" (dk_data s !! i).
Definition size_of (s : disk) (i : Z) : Z := Z.of_nat (String.length (data_of s i)).

Inductive errno := ENOENT | EEXIST | EXDEV | EOTHER.
Inductive res (A : Type) := Ok (a : A) | Err (e : errno).
Arguments Ok {A} a.
Arguments Err {A} e.

(** What the calls of one operation meet. *)
Record faults := {
  ft_fails : nat -> bool;
  ft_written : nat -> nat;          (* bytes a failing copy wrote *)
  ft_noreplace : nat -> bool;       (* renameat2 knows RENAME_NOREPLACE *)
  ft_links : nat -> bool;           (* the filesystem has hard links *)
  ft_device : Z -> Z;               (* the filesystem of a folder *)
}.

(** ** The monad *)

Definition F (A : Type) : Type := disk -> A * disk.
Definition fret {A} (x : A) : F A := fun s => (x, s).
Definition fbind {A B} (m : F A) (k : A -> F B) : F B := fun s => let '(x, s') := m s in k x s'.
Notation "'letf' x := m 'in' k" := (fbind m (fun x => k)) (at level 200, x pattern, m at level 100, k at level 200) : dup_scope.

Section calls.
Context (ft : faults).

Definition sys {A} (f : disk -> res A * disk) : F (res A) := fun s =>
  if ft_fails ft (dk_clock s) then (Err EOTHER, passed s) else let '(x, s') := f s in (x, passed s').

Definition lstat (e : entry) : F (res node) := sys (fun s =>
  (match dk_nodes s !! key_of e with Some n => Ok n | None => Err ENOENT end, s)).
Definition unlinkat (e : entry) : F (res unit) := sys (fun s =>
  match dk_nodes s !! key_of e with
  | None => (Err ENOENT, s)
  | Some (Dir _) => (Err EOTHER, s)
  | Some _ => (Ok tt, with_nodes (delete (key_of e) (dk_nodes s)) s)
  end).
Definition same_device (a b : entry) : bool := ft_device ft (en_dir a) =? ft_device ft (en_dir b).
Definition move_node (src dst : entry) (n : node) (s : disk) : disk :=
  with_nodes (<[key_of dst := n]> (delete (key_of src) (dk_nodes s))) s.
(** [linkat], [renameat2] with RENAME_NOREPLACE, and [renameat]. *)
Definition linkat (src dst : entry) : F (res unit) := sys (fun s =>
  match dk_nodes s !! key_of src with
  | None => (Err ENOENT, s)
  | Some n =>
    if bool_decide (is_Some (dk_nodes s !! key_of dst)) then (Err EEXIST, s)
    else if negb (same_device src dst) then (Err EXDEV, s)
    else match n with
    | Dir _ => (Err EOTHER, s)
    | _ => if ft_links ft (dk_clock s) then (Ok tt, with_nodes (<[key_of dst := n]> (dk_nodes s)) s) else (Err EOTHER, s)
    end
  end).
Definition renameatNoReplace (src dst : entry) : F (option (res unit)) := fun s =>
  if negb (ft_noreplace ft (dk_clock s)) then (None, passed s) else
  let '(x, s') := sys (fun s =>
    match dk_nodes s !! key_of src with
    | None => (Err ENOENT, s)
    | Some n =>
      if bool_decide (is_Some (dk_nodes s !! key_of dst)) then (Err EEXIST, s)
      else if negb (same_device src dst) then (Err EXDEV, s)
      else (Ok tt, move_node src dst n s)
    end) s in (Some x, s').
Definition renameat (src dst : entry) : F (res unit) := sys (fun s =>
  match dk_nodes s !! key_of src, dk_nodes s !! key_of dst with
  | None, _ => (Err ENOENT, s)
  | Some n, old =>
    if negb (same_device src dst) then (Err EXDEV, s)
    else match n, old with
    | _, None => (Ok tt, move_node src dst n s)
    | Dir _, Some _ | _, Some (Dir _) => (Err EOTHER, s)
    | _, Some _ => (Ok tt, move_node src dst n s)
    end
  end).

(** [Open], giving the file opened; creating a new file exclusively; copying its data. *)
Definition open_file (e : entry) : F (res Z) := sys (fun s =>
  match dk_nodes s !! key_of e with
  | None => (Err ENOENT, s)
  | Some (File i) => (Ok i, s)
  | Some _ => (Err EOTHER, s)
  end).
Definition create_file (e : entry) : F (res Z) := sys (fun s =>
  if bool_decide (is_Some (dk_nodes s !! key_of e)) then (Err EEXIST, s)
  else (Ok (dk_next s), {| dk_nodes := <[key_of e := File (dk_next s)]> (dk_nodes s); dk_data := <[dk_next s := ""]> (dk_data s);
                           dk_next := dk_next s + 1; dk_clock := dk_clock s |})).
Definition copy_data (i j : Z) : F (res Z) := fun s =>
  let all := data_of s i in
  if ft_fails ft (dk_clock s) then (Err EOTHER, passed (with_data (<[j := stake (ft_written ft (dk_clock s)) all]> (dk_data s)) s))
  else (Ok (size_of s i), passed (with_data (<[j := all]> (dk_data s)) s)).
Definition stat_size (i : Z) : F (res Z) := sys (fun s => (Ok (size_of s i), s)).
Definition noop : F (res unit) := sys (fun s => (Ok tt, s)).

(** ** confined.go *)

(** A regular file, and still the one that was checked. *)
Definition regularEntry (e : entry) (want : option Z) : F (res Z) :=
  letf r := lstat e in
  fret (match r with
  | Ok (File i) => match want with Some w => if i =? w then Ok i else Err EOTHER | None => Ok i end
  | Ok _ => Err EOTHER
  | Err e => Err e
  end).
Definition removeEntry (e : entry) (want : option Z) : F (res unit) :=
  letf r := regularEntry e want in
  match r with Ok _ => unlinkat e | Err x => fret (Err x) end.

(** Names to try: the name, then "_2" to "_999" before the extension. *)
Definition candidate (name : string) (i : nat) : string :=
  match i with
  | O => name
  | _ => trim_suffix name (path_ext name) +:+ "_" +:+ format_int (Z.of_nat i + 1) +:+ path_ext name
  end.
Fixpoint unique_from (dir : Z) (path name : string) (i n : nat) : F (res string) :=
  match n with
  | O => fret (Err EOTHER)
  | S n =>
    letf r := lstat {| en_dir := dir; en_path := path; en_name := candidate name i |} in
    match r with
    | Err ENOENT => fret (Ok (candidate name i))
    | Err e => fret (Err e)
    | Ok _ => unique_from dir path name (S i) n
    end
  end.
Definition uniqueName (dir : Z) (path name : string) : F (res string) := unique_from dir path name 0 999.

(** [renameNoReplaceAt]: a hard link and the removal of the old name where the flag is
    not known, and a plain rename where there are no hard links either. *)
Definition link_and_remove (src dst : entry) : F (res unit) :=
  letf l := linkat src dst in
  match l with
  | Ok _ =>
    letf u := unlinkat src in
    match u with
    | Ok _ => fret (Ok tt)
    | Err e => letf _ := unlinkat dst in fret (Err e)
    end
  | Err EOTHER => renameat src dst
  | Err e => fret (Err e)
  end.
Definition renameNoReplaceAt (src dst : entry) : F (res unit) :=
  letf r := renameatNoReplace src dst in
  match r with Some r => fret r | None => link_and_remove src dst end.

(** The copy is given up: whatever was written is removed. *)
Definition discard (dst : entry) (e : errno) : F (res unit) := letf _ := unlinkat dst in fret (Err e).
(** The end of [copyAndRemove]: the copy is synced and closed, and the original removed
    while it still is the file [i] that was copied. *)
Definition finish_copy (src dst : entry) (i : Z) : F (res unit) :=
  letf y := noop in                                   (* fsync *)
  match y with
  | Err e => discard dst e
  | Ok _ =>
    letf z := noop in                                 (* close *)
    match z with
    | Err e => discard dst e
    | Ok _ =>
      letf again := regularEntry src (Some i) in
      match again with
      | Err e => discard dst e
      | Ok _ =>
        letf u := unlinkat src in
        match u with Err e => discard dst e | Ok _ => fret (Ok tt) end
      end
    end
  end.
Definition copyAndRemove (src dst : entry) (want : Z) : F (res unit) :=
  letf o := open_file src in
  match o with
  | Err e => fret (Err e)
  | Ok i =>
    letf sz := stat_size i in
    match sz with
    | Err e => fret (Err e)
    | Ok size =>
      if negb (i =? want) then fret (Err EOTHER) else
      letf c := create_file dst in
      match c with
      | Err e => fret (Err e)
      | Ok j =>
        letf n := copy_data i j in
        match n with
        | Err e => discard dst e
        | Ok n => if negb (n =? size) then discard dst EOTHER else finish_copy src dst i
        end
      end
    end
  end.

Definition moveEntry (src dst : entry) (want : option Z) : F (res unit) :=
  letf r := regularEntry src want in
  match r with
  | Err e => fret (Err e)
  | Ok i =>
    letf l := lstat dst in
    match l with
    | Ok _ => fret (Err EEXIST)
    | Err ENOENT =>
      letf m := renameNoReplaceAt src dst in
      match m with
      | Ok _ => fret (Ok tt)
      | Err EXDEV => copyAndRemove src dst i
      | Err e => fret (Err e)
      end
    | Err e => fret (Err e)
    end
  end.

End calls.
