(* ===== verification/Recycle.v ===== *)
(** * Removing files and bringing them back (internal/executor/methods.go, disc.go, restore.go)

    What the filesystem method does once a removal is planned, and a restore: every
    file or disc entry is re-identified and moved, and when a move fails those done
    before it are undone. Opening folders through a root ([os.Root], [openRootAt],
    [pinDir], [MkdirAll], [openBin]) is an [opener]. *)

From S2P Require Import Prelude GoStd Models DiscPaths Paths Pathmap ExecModel FileSys.
Local Open Scope string_scope.
Local Open Scope Z_scope.

(** [filepath.IsLocal] on Unix. *)
Definition is_local (p : string) : bool :=
  negb (String.eqb p "") && negb (has_prefix p "/") &&
  negb (String.eqb (path_clean p) ".." || has_prefix (path_clean p) "../").

(** ** Plans *)

Record fsFile := {
  ff_resolved : string;
  ff_root : string;
  ff_rel : string;
  ff_size : Z;
  ff_id : Z;                 (* the file as planned *)
}.
Record fsPlan := { fp_files : list fsFile; fp_bin : string }.
(** An owned entry of a disc: a folder or a file, with its identity as planned. *)
Record discEntry := { de_local : string; de_resolved : string; de_root : string; de_rel : string; de_dir : bool; de_id : Z }.
Record discPlan := { dp_entries : list discEntry; dp_bin : string; dp_fingerprint : string }.
(** A part of a restore, with its path inside the bin and inside its mapped root. *)
Record restoreMove := { rm_from : string; rm_to : string; rm_from_rel : string; rm_to_root : string; rm_to_rel : string }.

(** Folders: of a path inside a mapped root, of a path inside the bin (made when
    needed), and the bin itself (marked when new). *)
Record opener := {
  op_source : string -> string -> option Z;          (* root, path of the folder in it *)
  op_dest : string -> string -> F (option Z);        (* the same, made when needed *)
  op_bin : F bool;
}.

Inductive perform_result :=
| FsStale
| FsFailed (lost : list entry)       (* those left in the bin *)
| FsDone (moved : list entry).       (* where they are now *)

Section perform.
Context (ft : faults) (op : opener).

Definition at_dir (d : Z) (root rel : string) : entry :=
  {| en_dir := d; en_path := path_join root (path_dir rel); en_name := path_base rel |}.

(** [openPlannedPart]. *)
Definition openPlannedPart (f : fsFile) : F (option entry) := fun s =>
  match op_source op (ff_root f) (path_dir (ff_rel f)) with
  | None => (None, s)
  | Some d =>
    let e := at_dir d (ff_root f) (ff_rel f) in
    let '(r, s) := regularEntry ft e (Some (ff_id f)) s in
    match r with
    | Ok i => (if size_of s i =? ff_size f then Some e else None, s)
    | Err _ => (None, s)
    end
  end.
Fixpoint open_parts (l : list fsFile) : F (option (list entry)) :=
  match l with
  | [] => fret (Some [])
  | f :: l =>
    letf e := openPlannedPart f in
    match e with
    | None => fret None
    | Some e => letf rest := open_parts l in fret ((fun r => e :: r) <$> rest)
    end
  end.

(** The moves done, newest first, are undone in that order; what cannot be moved back
    is listed. *)
Fixpoint roll_back (mv : entry -> entry -> F (res unit)) (done : list (entry * entry)) : F (list entry) :=
  match done with
  | [] => fret []
  | (src, dst) :: done =>
    letf r := mv dst src in
    letf lost := roll_back mv done in
    fret (match r with Ok _ => lost | Err _ => dst :: lost end)
  end.
Definition failed_after (mv : entry -> entry -> F (res unit)) (done : list (entry * entry)) : F perform_result :=
  letf lost := roll_back mv done in fret (FsFailed lost).
Definition move_back (src dst : entry) : F (res unit) := moveEntry ft src dst None.

(** ** [performFS] *)

Definition in_bin_path (bin rel : string) : bool := is_local rel && isWithin (path_join bin rel) bin.
Fixpoint delete_parts (l : list (fsFile * entry)) : F perform_result :=
  match l with
  | [] => fret (FsDone [])
  | (f, e) :: l =>
    letf r := removeEntry ft e (Some (ff_id f)) in
    match r with Ok _ => delete_parts l | Err _ => fret (FsFailed []) end
  end.
Fixpoint recycle_parts (bin day : string) (l : list (fsFile * entry)) (done : list (entry * entry)) : F perform_result :=
  match l with
  | [] => fret (FsDone (map snd (rev done)))
  | (f, src) :: l =>
    let rel := path_join day (ff_rel f) in
    if negb (in_bin_path bin rel) then failed_after move_back done else
    letf d := op_dest op bin (path_dir rel) in
    match d with
    | None => failed_after move_back done
    | Some d =>
      letf name := uniqueName ft d (path_join bin (path_dir rel)) (path_base rel) in
      match name with
      | Err _ => failed_after move_back done
      | Ok name =>
        let dst := {| en_dir := d; en_path := path_join bin (path_dir rel); en_name := name |} in
        letf r := moveEntry ft src dst (Some (ff_id f)) in
        match r with
        | Err _ => failed_after move_back done
        | Ok _ => recycle_parts bin day l ((src, dst) :: done)
        end
      end
    end
  end.
Definition performFS (day : string) (plan : fsPlan) : F perform_result :=
  letf srcs := open_parts (fp_files plan) in
  match srcs with
  | None => fret FsStale
  | Some srcs =>
    let parts := zip (fp_files plan) srcs in
    if String.eqb (fp_bin plan) "" then delete_parts parts else
    letf b := op_bin op in
    if b : bool then recycle_parts (fp_bin plan) day parts [] else fret (FsFailed [])
  end.

(** ** [performDisc] *)

(** The outcome of [disc.Measure] right before the move. *)
Inductive measurement := MeasureCancelled | MeasureFailed | Measured (irregular : Z) (fingerprint : string).
Definition disc_unchanged (plan : discPlan) (m : measurement) : bool :=
  match m with
  | Measured irregular fp => negb (0 <? irregular) && negb (String.eqb (dp_fingerprint plan) "" || negb (String.eqb fp (dp_fingerprint plan)))
  | _ => false
  end.
(** Folders opened so far ([dstDirs]; the source's, [srcDirs], are what [op_source] says). *)
Definition opened := list (string * Z).
Definition open_once (cache : opened) (k root rel : string) : F (option (Z * opened)) :=
  match list_find (fun p => String.eqb (fst p) k) cache with
  | Some (_, (_, d)) => fret (Some (d, cache))
  | None =>
    letf d := op_dest op root rel in
    fret ((fun d => (d, (k, d) :: cache)) <$> d)
  end.
(** [pinPlannedDir] and [identifyPlannedEntry]. *)
Definition identifyPlannedEntry (e : discEntry) : F (option entry) :=
  match op_source op (de_root e) (path_dir (de_rel e)) with
  | None => fret None
  | Some d =>
    let en := at_dir d (de_root e) (de_rel e) in
    letf r := lstat ft en in
    fret (match r with
    | Ok (Dir i) => if de_dir e && (i =? de_id e) then Some en else None
    | Ok (File i) => if negb (de_dir e) && (i =? de_id e) then Some en else None
    | _ => None
    end)
  end.
Definition rename_back (src dst : entry) : F (res unit) := renameNoReplaceAt ft src dst.
Definition stale_after (done : list (entry * entry)) : F perform_result :=
  match done with [] => fret FsStale | _ => failed_after rename_back done end.
Fixpoint move_entries (bin day : string) (l : list discEntry) (dirs : opened) (done : list (entry * entry)) : F (perform_result + list (entry * entry)) :=
  match l with
  | [] => fret (inr done)
  | e :: l =>
    letf src := identifyPlannedEntry e in
    match src with
    | None => letf r := stale_after done in fret (inl r)
    | Some src =>
      let rel := path_join day (de_rel e) in
      if negb (in_bin_path bin rel) then letf r := failed_after rename_back done in fret (inl r) else
      letf d := open_once dirs (path_dir rel) bin (path_dir rel) in
      match d with
      | None => letf r := failed_after rename_back done in fret (inl r)
      | Some (d, dirs) =>
        let dst := at_dir d bin rel in
        letf old := lstat ft dst in
        match old with
        | Err ENOENT =>
          letf r := renameNoReplaceAt ft src dst in
          match r with
          | Err _ => letf r := failed_after rename_back done in fret (inl r)
          | Ok _ => move_entries bin day l dirs ((src, dst) :: done)
          end
        | _ => letf r := failed_after rename_back done in fret (inl r)
        end
      end
    end
  end.
(** [gone] is whether no entry is found at its recorded path afterwards. *)
Definition performDisc (day : string) (measured : measurement) (gone : bool) (plan : discPlan) : F perform_result :=
  if negb (disc_unchanged plan measured) then fret (match measured with MeasureCancelled => FsFailed [] | _ => FsStale end) else
  letf b := op_bin op in
  if negb b then fret (FsFailed []) else
  letf r := move_entries (dp_bin plan) day (dp_entries plan) [] [] in
  match r with
  | inl r => fret r
  | inr done => if gone : bool then fret (FsDone (map snd (rev done))) else failed_after rename_back done
  end.

(** ** Restoring *)

(** [restoreMoves]; [marked] is that the bin opens and carries its marker. *)
Fixpoint restore_parts (bin : string) (l : list restoreMove) (done : list (entry * entry)) : F bool :=
  match l with
  | [] => fret true
  | m :: l =>
    let undo := letf _ := roll_back move_back done in fret false in
    match op_source op bin (path_dir (rm_from_rel m)) with
    | None => undo
    | Some sd =>
      letf d := op_dest op (rm_to_root m) (path_dir (rm_to_rel m)) in
      match d with
      | None => undo
      | Some d =>
        let src := at_dir sd bin (rm_from_rel m) in
        let dst := at_dir d (rm_to_root m) (rm_to_rel m) in
        letf r := moveEntry ft src dst None in
        match r with Err _ => undo | Ok _ => restore_parts bin l ((src, dst) :: done) end
      end
    end
  end.
Definition restoreMoves (bin : string) (marked : bool) (l : list restoreMove) : F bool :=
  if marked then restore_parts bin l [] else fret false.

(** [restoreDiscMoves]. *)
Definition dst_dir_key (m : restoreMove) : string := rm_to_root m +:+ String "000" EmptyString +:+ path_dir (rm_to_rel m).
Fixpoint restore_entries (bin : string) (l : list restoreMove) (dirs : opened) (done : list (entry * entry)) : F bool :=
  match l with
  | [] => fret true
  | m :: l =>
    let undo := letf _ := roll_back rename_back done in fret false in
    match op_source op bin (path_dir (rm_from_rel m)) with
    | None => undo
    | Some sd =>
      letf d := open_once dirs (dst_dir_key m) (rm_to_root m) (path_dir (rm_to_rel m)) in
      match d with
      | None => undo
      | Some (d, dirs) =>
        let src := at_dir sd bin (rm_from_rel m) in
        let dst := at_dir d (rm_to_root m) (rm_to_rel m) in
        letf a := lstat ft src in
        match a with
        | Err _ | Ok Symlink => undo
        | Ok _ =>
          letf b := lstat ft dst in
          match b with
          | Err ENOENT =>
            letf r := renameNoReplaceAt ft src dst in
            match r with Err _ => undo | Ok _ => restore_entries bin l dirs ((src, dst) :: done) end
          | _ => undo
          end
        end
      end
    end
  end.
Definition restoreDiscMoves (bin : string) (marked : bool) (l : list restoreMove) : F bool :=
  if marked then restore_entries bin l [] [] else fret false.
End perform.
