(* ===== verification/RecycleFacts.v ===== *)
(** * Moving files: nothing is lost

    What every move leaves in place, whichever of its calls fail, and that undoing a
    batch of moves restores it. *)

From S2P Require Import Prelude GoStd Models DiscPaths Paths Pathmap ExecModel FileSys Recycle.
Local Open Scope string_scope.
Local Open Scope Z_scope.

(** ** What is on the disk *)

Inductive item := Content (data : string) | Node (n : node).
Definition item_of (s : disk) (n : node) : item := match n with File i => Content (data_of s i) | n => Node n end.
Definition view (s : disk) (k : key) : option item := item_of s <$> dk_nodes s !! k.
(** Files are older than the next inode. *)
Definition wf (s : disk) : Prop := forall k i, dk_nodes s !! k = Some (File i) -> i < dk_next s.
Definition same_disk (s s' : disk) : Prop := dk_nodes s' = dk_nodes s /\ dk_data s' = dk_data s /\ dk_next s' = dk_next s.
(** Only new entries within [P] may differ. *)
Definition keeps (P : key -> Prop) (s s' : disk) : Prop :=
  wf s' /\ forall k, ~ P k \/ view s k <> None -> view s' k = view s k.
(** Only the entry [k0] may differ. *)
Definition others (k0 : key) (s s' : disk) : Prop := wf s' /\ forall k, k <> k0 -> view s' k = view s k.
Definition moved (a b : key) (s s' : disk) : Prop :=
  wf s' /\ a <> b /\ (exists x, view s a = Some x) /\ view s' a = None /\ view s' b = view s a /\
  forall k, k <> a -> k <> b -> view s' k = view s k.

Lemma same_view s s' : same_disk s s' -> forall k, view s' k = view s k.
Proof. intros (H1 & H2 & _) k. unfold view, item_of, data_of. by rewrite H1, H2. Qed.
Lemma same_wf s s' : same_disk s s' -> wf s -> wf s'.
Proof. intros (H1 & _ & H3) Hw k i. rewrite H1, H3. apply Hw. Qed.
Lemma same_refl s : same_disk s s.
Proof. done. Qed.
Lemma same_trans s1 s2 s3 : same_disk s1 s2 -> same_disk s2 s3 -> same_disk s1 s3.
Proof. unfold same_disk. naive_solver congruence. Qed.
Lemma same_keeps P s s' : wf s -> same_disk s s' -> keeps P s s'.
Proof. intros Hw Hs. split; [by eapply same_wf |]. intros k _. by apply same_view. Qed.
Lemma same_others k s s' : wf s -> same_disk s s' -> others k s s'.
Proof. intros Hw Hs. split; [by eapply same_wf |]. intros k' _. by apply same_view. Qed.
Lemma keeps_trans P s1 s2 s3 : keeps P s1 s2 -> keeps P s2 s3 -> keeps P s1 s3.
Proof.
  intros [_ H1] [W H2]. split; [done |]. intros k Hk. rewrite H2, H1; [done | done |]. destruct Hk as [Hk|Hk]; [by left | right; by rewrite H1 by (by right)].
Qed.
Lemma keeps_mono (P Q : key -> Prop) s s' : (forall k, P k -> Q k) -> keeps P s s' -> keeps Q s s'.
Proof. intros H [W HP]. split; [done |]. intros k [Hk|Hk]; apply HP; [left | by right]. intros ?. by apply Hk, H. Qed.
Lemma others_keeps k s s' : view s k = None -> others k s s' -> keeps (fun k' => k' = k) s s'.
Proof. intros Hn [W H]. split; [done |]. intros k' [Hk|Hk]; apply H; [done | congruence]. Qed.
Lemma others_trans k s1 s2 s3 : others k s1 s2 -> others k s2 s3 -> others k s1 s3.
Proof. intros [_ H1] [W H2]. split; [done |]. intros k' Hk. by rewrite H2, H1. Qed.
Lemma view_node s k : view s k = None <-> dk_nodes s !! k = None.
Proof. unfold view. destruct (dk_nodes s !! k); cbn; split; congruence. Qed.

Lemma others_moved a b s1 s2 s3 : others b s1 s2 -> a <> b -> moved a b s2 s3 -> moved a b s1 s3.
Proof.
  intros [_ Ho] Hne (H1 & H2 & H3 & H4 & H5 & H6). unfold moved. rewrite <- (Ho a) by done. split_and!; try done.
  intros k Ha Hb. by rewrite H6, Ho.
Qed.

Section calls.
Context (ft : faults).

Lemma lstat_spec e s : let '(r, s') := lstat ft e s in
  same_disk s s' /\ match r with Ok n => dk_nodes s !! key_of e = Some n | Err ENOENT => dk_nodes s !! key_of e = None | Err _ => True end.
Proof.
  unfold lstat, sys. destruct (ft_fails ft (dk_clock s)); [by split |]. destruct (dk_nodes s !! key_of e) eqn:E; cbn; by rewrite ?E.
Qed.
Lemma view_delete s k : view (with_nodes (delete k (dk_nodes s)) s) k = None.
Proof. unfold view. cbn. by rewrite lookup_delete_eq. Qed.
Lemma view_delete_ne s k k' : k <> k' -> view (with_nodes (delete k (dk_nodes s)) s) k' = view s k'.
Proof. intros Hk. unfold view. cbn. by rewrite lookup_delete_ne. Qed.
Lemma wf_delete s k : wf s -> wf (with_nodes (delete k (dk_nodes s)) s).
Proof. intros Hw k' i. cbn. intros [_ H]%lookup_delete_Some. by eapply Hw. Qed.

Lemma unlink_spec e s : wf s -> let '(r, s') := unlinkat ft e s in
  wf s' /\ (forall k, k <> key_of e -> view s' k = view s k) /\
  match r with Ok _ => view s' (key_of e) = None /\ view s (key_of e) <> None | Err _ => same_disk s s' end.
Proof.
  intros Hw. unfold unlinkat, sys. destruct (ft_fails ft (dk_clock s)); [by split_and! |].
  destruct (dk_nodes s !! key_of e) as [n|] eqn:E; [| by split_and!].
  assert (Hn : view s (key_of e) <> None) by (rewrite view_node; congruence).
  destruct n; cbn; try (by split_and!); (split_and!; [by apply (wf_delete s (key_of e)) | | | done]).
  all: try (intros k Hk; by apply (view_delete_ne s)). all: apply (view_delete s).
Qed.
Lemma move_node_moved src dst n s : wf s -> dk_nodes s !! key_of src = Some n -> dk_nodes s !! key_of dst = None ->
  moved (key_of src) (key_of dst) s (move_node src dst n s).
Proof.
  intros Hw Hn Hd. assert (Hne : key_of src <> key_of dst) by congruence. unfold moved, view, move_node. cbn. split_and!.
  - intros k i. cbn. rewrite lookup_insert_Some, lookup_delete_Some. intros [[_ ->]|(_ & _ & H)]; [by eapply Hw | by eapply Hw].
  - done.
  - rewrite Hn. by eexists.
  - by rewrite lookup_insert_ne, lookup_delete_eq by done.
  - by rewrite lookup_insert_eq, Hn.
  - intros k H1 H2. by rewrite lookup_insert_ne, lookup_delete_ne by done.
Qed.
Lemma moved_passed a b s s' : moved a b s s' -> moved a b s (passed s').
Proof. done. Qed.

Lemma link_spec src dst s : wf s -> view s (key_of dst) = None -> let '(r, s') := link_and_remove ft src dst s in
  match r with Ok _ => moved (key_of src) (key_of dst) s s' | Err _ => others (key_of dst) s s' end.
Proof.
  intros Hw Hd. unfold link_and_remove, fbind.
  assert (Hl : let '(r, s') := linkat ft src dst s in match r with
    | Ok _ => exists n, dk_nodes s !! key_of src = Some n /\ key_of src <> key_of dst /\ same_disk (with_nodes (<[key_of dst := n]> (dk_nodes s)) s) s'
    | Err _ => same_disk s s' end).
  { unfold linkat, sys. destruct (ft_fails ft (dk_clock s)); [done |]. apply view_node in Hd. destruct (dk_nodes s !! key_of src) as [n|] eqn:En; [| done].
    rewrite bool_decide_eq_false_2 by (rewrite Hd; by intros [? [=]]). destruct (same_device ft src dst); cbn; [| done].
    destruct n as [i|i| |]; cbn; try done; (destruct (ft_links ft (dk_clock s)); cbn; [| done]); eexists; (split; [done |]); (split; [congruence | done]). }
  destruct (linkat ft src dst s) as [[[]|e] s1].
  - destruct Hl as (n & Hn & Hne & Hs1).
    assert (Hw1 : wf s1).
    { eapply same_wf; [exact Hs1 |]. intros k i. cbn. rewrite lookup_insert_Some. intros [[_ ->]|[_ H]]; by eapply Hw. }
    assert (Hv1 : forall k, view s1 k = if decide (k = key_of dst) then view s (key_of src) else view s k).
    { intros k. rewrite (same_view _ _ Hs1). unfold view. cbn. destruct (decide (k = key_of dst)) as [->|]; [by rewrite lookup_insert_eq, Hn | by rewrite lookup_insert_ne]. }
    pose proof (unlink_spec src s1 Hw1) as Hu. destruct (unlinkat ft src s1) as [[[]|e] s2].
    + destruct Hu as (Hw2 & Hk & Hn2 & _). unfold moved. split_and!; [done | done | | done | | ].
      * unfold view. rewrite Hn. by eexists.
      * rewrite Hk by done. rewrite Hv1. by rewrite decide_True.
      * intros k Ha Hb. rewrite Hk, Hv1 by done. by rewrite decide_False.
    + destruct Hu as (Hw2 & _ & Hs2). pose proof (unlink_spec dst s2 Hw2) as Hu. destruct (unlinkat ft dst s2) as [r s3].
      destruct Hu as (Hw3 & Hk & _). split; [done |]. intros k Hkd. rewrite Hk, (same_view _ _ Hs2), Hv1 by done. by rewrite decide_False.
  - destruct e; [by apply same_others | by apply same_others | by apply same_others |].
    assert (Hw1 : wf s1) by by eapply same_wf. assert (Hd1 : view s1 (key_of dst) = None) by by rewrite (same_view _ _ Hl).
    unfold renameat, sys. destruct (ft_fails ft (dk_clock s1)); [by apply same_others |].
    apply view_node in Hd1. rewrite Hd1. destruct (dk_nodes s1 !! key_of src) as [n|] eqn:En; [| by apply same_others].
    destruct (same_device ft src dst); cbn [negb]; [| by apply same_others].
    assert (Hm : moved (key_of src) (key_of dst) s (move_node src dst n s1)).
    { destruct (move_node_moved src dst n s1 Hw1 En Hd1) as (H1 & H2 & H3 & H4 & H5 & H6). unfold moved. rewrite <- !(same_view _ _ Hl).
      split_and!; try done. intros k Ha Hb. rewrite H6 by done. apply (same_view _ _ Hl). }
    by destruct n.
Qed.
(** A rename that does not replace: the entry is moved, or every other one is as it was. *)
Lemma rename_spec src dst s : wf s -> view s (key_of dst) = None -> let '(r, s') := renameNoReplaceAt ft src dst s in
  match r with Ok _ => moved (key_of src) (key_of dst) s s' | Err _ => others (key_of dst) s s' end.
Proof.
  intros Hw Hd. unfold renameNoReplaceAt, fbind, renameatNoReplace.
  destruct (ft_noreplace ft (dk_clock s)); cbn [negb].
  - apply view_node in Hd. unfold sys. destruct (ft_fails ft (dk_clock s)); cbn; [by apply same_others |].
    destruct (dk_nodes s !! key_of src) as [n|] eqn:En; cbn; [| by apply same_others].
    rewrite bool_decide_eq_false_2 by (rewrite Hd; by intros [? [=]]). destruct (same_device ft src dst); cbn; [| by apply same_others].
    apply moved_passed. by apply move_node_moved.
  - exact (link_spec src dst (passed s) Hw Hd).
Qed.

Lemma regular_spec e want s : let '(r, s') := regularEntry ft e want s in
  same_disk s s' /\ match r with Ok i => dk_nodes s !! key_of e = Some (File i) /\ (forall w, want = Some w -> i = w) | Err _ => True end.
Proof.
  unfold regularEntry, fbind. pose proof (lstat_spec e s) as Hl. destruct (lstat ft e s) as [r s']. destruct Hl as [Hs Hr].
  destruct r as [[i|i| |]|x]; cbn; try (by split). destruct want as [w|]; [| by split].
  destruct (Z.eqb_spec i w) as [->|]; split; try done. split; [done |]. by intros ? [= <-].
Qed.

(** ** Copies *)

(** The new file [j] at [dst] while it is filled: every other entry is as it was. *)
Definition copying (dst : entry) (j : Z) (s s1 : disk) : Prop :=
  wf s1 /\ dk_next s <= j < dk_next s1 /\ dk_nodes s1 = <[key_of dst := File j]> (dk_nodes s) /\
  forall i, i <> j -> dk_data s1 !! i = dk_data s !! i.
Lemma copying_others dst j s s1 : wf s -> copying dst j s s1 -> others (key_of dst) s s1.
Proof.
  intros Hw (W & Hj & Hn & Hd). split; [done |]. intros k Hk. unfold view. rewrite Hn, lookup_insert_ne by done.
  destruct (dk_nodes s !! k) as [[i|i| |]|] eqn:E; try done. cbn. unfold data_of. rewrite Hd; [done |]. apply Hw in E. lia.
Qed.
Lemma copying_same dst j s s1 s2 : copying dst j s s1 -> same_disk s1 s2 -> copying dst j s s2.
Proof.
  intros (W & Hj & Hn & Hd) Hs. assert (W2 := same_wf _ _ Hs W). destruct Hs as (H1 & H2 & H3). unfold copying.
  rewrite H1, H3. split_and!; [done | lia | lia | done |]. intros i Hi. rewrite H2. by apply Hd.
Qed.
Lemma discarded (P : disk -> Prop) dst j s s1 e : wf s -> copying dst j s s1 -> let '(r, s') := discard ft dst e s1 in
  match r with Ok _ => P s' | Err _ => others (key_of dst) s s' end.
Proof.
  intros Hw Hc. pose proof (copying_others _ _ _ _ Hw Hc) as [W1 Ho]. unfold discard, fbind.
  pose proof (unlink_spec dst s1 W1) as Hu. destruct (unlinkat ft dst s1) as [r s2]. destruct Hu as (W2 & Hk & _). cbn.
  split; [done |]. intros k Hkd. by rewrite Hk, Ho.
Qed.
Lemma sys_same {A} (f : disk -> res A) s : same_disk s (snd (sys ft (fun s => (f s, s)) s)).
Proof. unfold sys. by destruct (ft_fails ft (dk_clock s)). Qed.
(** The same while the copy is complete. *)
Definition copied (dst : entry) (i j : Z) (s s1 : disk) : Prop := copying dst j s s1 /\ data_of s1 j = data_of s i.
Lemma copied_same dst i j s s1 s2 : copied dst i j s s1 -> same_disk s1 s2 -> copied dst i j s s2.
Proof. intros [Hc Hj] Hs. split; [by eapply copying_same |]. destruct Hs as (_ & H2 & _). unfold data_of in *. by rewrite H2. Qed.

Lemma finish_spec src dst i j s s1 : wf s -> view s (key_of dst) = None -> dk_nodes s !! key_of src = Some (File i) -> copied dst i j s s1 ->
  let '(r, s') := finish_copy ft src dst i s1 in
  match r with Ok _ => moved (key_of src) (key_of dst) s s' | Err _ => others (key_of dst) s s' end.
Proof.
  intros Hw Hd Hi Hc. unfold finish_copy. unfold fbind at 1.
  pose proof (sys_same (fun _ => Ok tt) s1) as Hs. change (sys ft _ s1) with (noop ft s1) in Hs.
  destruct (noop ft s1) as [y s2]. apply (copied_same _ _ _ _ _ _ Hc) in Hs. clear Hc. cbn [snd] in Hs. destruct y; [| by eapply discarded, Hs].
  unfold fbind at 1. pose proof (sys_same (fun _ => Ok tt) s2) as Hc. change (sys ft _ s2) with (noop ft s2) in Hc.
  destruct (noop ft s2) as [z s3]. apply (copied_same _ _ _ _ _ _ Hs) in Hc. clear Hs. cbn [snd] in Hc. destruct z; [| by eapply discarded, Hc].
  unfold fbind at 1. pose proof (regular_spec src (Some i) s3) as Hr. destruct (regularEntry ft src (Some i) s3) as [r s4].
  destruct Hr as [Hs _]. apply (copied_same _ _ _ _ _ _ Hc) in Hs. clear Hc. destruct r; [| by eapply discarded, Hs].
  unfold fbind at 1. destruct Hs as [Hc Hj]. pose proof (copying_others _ _ _ _ Hw Hc) as [W4 Ho].
  pose proof (unlink_spec src s4 W4) as Hu. destruct (unlinkat ft src s4) as [[[]|e] s5].
  2: { destruct Hu as (_ & _ & Hu). by eapply discarded, copying_same, Hu. }
  destruct Hu as (W5 & Hk & Hn & _). assert (Hne : key_of src <> key_of dst) by (apply view_node in Hd; congruence). unfold moved. split_and!.
  - done.
  - done.
  - unfold view. rewrite Hi. by eexists.
  - done.
  - rewrite Hk by done. destruct Hc as (_ & _ & Hnd & _). unfold view. rewrite Hnd, lookup_insert_eq, Hi. cbn. by rewrite Hj.
  - intros k Ha Hb. by rewrite Hk, Ho.
Qed.

Lemma copy_spec src dst want s : wf s -> let '(r, s') := copyAndRemove ft src dst want s in
  match r with Ok _ => moved (key_of src) (key_of dst) s s' | Err _ => others (key_of dst) s s' end.
Proof.
  intros Hw. unfold copyAndRemove. unfold fbind at 1.
  assert (Ho : let '(r, s') := open_file ft src s in same_disk s s' /\ match r with Ok i => dk_nodes s !! key_of src = Some (File i) | Err _ => True end).
  { unfold open_file, sys. destruct (ft_fails ft (dk_clock s)); [by split |]. destruct (dk_nodes s !! key_of src) as [[]|]; by split. }
  destruct (open_file ft src s) as [[i|e] s1]; destruct Ho as [Hs1 Hi]; [| by apply same_others]. unfold fbind at 1.
  pose proof (sys_same (fun s => Ok (size_of s i)) s1) as Hs2. change (sys ft _ s1) with (stat_size ft i s1) in Hs2.
  destruct (stat_size ft i s1) as [[size|e] s2]; cbn [snd] in Hs2; [| apply same_others; [done | by eapply same_trans]].
  assert (Hs : same_disk s s2) by by eapply same_trans. destruct (negb (i =? want)); [by apply same_others |]. unfold fbind at 1.
  assert (Hc : let '(r, s') := create_file ft dst s2 in match r with Ok j => view s (key_of dst) = None /\ copying dst j s s' | Err _ => same_disk s s' end).
  { unfold create_file, sys. destruct (ft_fails ft (dk_clock s2)); [done |].
    destruct (bool_decide_reflect (is_Some (dk_nodes s2 !! key_of dst))) as [|Hd]; [done |]. apply eq_None_not_Some in Hd.
    destruct Hs as (H1 & H2 & H3). rewrite H1 in Hd. split; [by apply view_node |]. unfold copying. cbn. rewrite H1. split_and!; [| lia | lia | congruence |].
    - intros k i'. cbn. rewrite lookup_insert_Some, H3. intros [[_ [= <-]]|[_ H]]; [lia |]. apply Hw in H. lia.
    - intros i' Hi'. rewrite lookup_insert_ne by done. by rewrite H2. }
  destruct (create_file ft dst s2) as [[j|e] s3]; [| by apply same_others]. destruct Hc as [Hd Hc]. unfold fbind at 1.
  assert (Hij : i <> j). { destruct Hc as (_ & Hj & _). apply Hw in Hi. lia. }
  assert (Hcp : let '(r, s') := copy_data ft i j s3 in copying dst j s s' /\ match r with Ok _ => data_of s' j = data_of s i | Err _ => True end).
  { destruct Hc as (W & Hj & Hn & Hdt). unfold copy_data. destruct (ft_fails ft (dk_clock s3)); (split; [unfold copying; cbn; split_and! |]); try done; try lia.
    - intros i' Hi'. rewrite lookup_insert_ne by done. by apply Hdt.
    - intros i' Hi'. rewrite lookup_insert_ne by done. by apply Hdt.
    - unfold data_of. cbn. rewrite lookup_insert_eq. cbn. by rewrite Hdt. }
  clear Hc. destruct (copy_data ft i j s3) as [[n|e] s4]; destruct Hcp as [Hc Hj]; [| by eapply discarded].
  destruct (negb (n =? size)); [by eapply discarded |]. by eapply finish_spec.
Qed.

(** A move: the entry is moved as it was, or nothing is but for a partial copy where nothing was. *)
Lemma move_spec src dst want s : wf s -> let '(r, s') := moveEntry ft src dst want s in
  match r with
  | Ok _ => view s (key_of dst) = None /\ moved (key_of src) (key_of dst) s s' /\
            exists i, dk_nodes s !! key_of src = Some (File i) /\ (forall w, want = Some w -> i = w)
  | Err _ => keeps (fun k => k = key_of dst) s s'
  end.
Proof.
  intros Hw. unfold moveEntry. unfold fbind at 1. pose proof (regular_spec src want s) as Hr. destruct (regularEntry ft src want s) as [[i|e] s1].
  2: { apply same_keeps; [done | by destruct Hr]. }
  destruct Hr as [Hs1 [Hi Hwant]]. unfold fbind at 1. pose proof (lstat_spec dst s1) as Hl. destruct (lstat ft dst s1) as [l s2]. destruct Hl as [Hs2 Hl].
  assert (Hs : same_disk s s2) by by eapply same_trans. assert (W2 := same_wf _ _ Hs Hw).
  destruct l as [n|[]]; try (by apply same_keeps).
  assert (Hd : view s (key_of dst) = None) by (rewrite <- (same_view _ _ Hs1); by apply view_node).
  assert (Hd2 : view s2 (key_of dst) = None) by by rewrite (same_view _ _ Hs).
  assert (Hout : forall (r : res unit) s', match r with Ok _ => moved (key_of src) (key_of dst) s2 s' | Err _ => others (key_of dst) s2 s' end ->
    match r with
    | Ok _ => view s (key_of dst) = None /\ moved (key_of src) (key_of dst) s s' /\
        exists i, dk_nodes s !! key_of src = Some (File i) /\ (forall w, want = Some w -> i = w)
    | Err _ => keeps (fun k => k = key_of dst) s s' end).
  { intros [[]|e] s'.
    - intros (H1 & H2 & H3 & H4 & H5 & H6). split; [done |]. split; [| by exists i]. unfold moved. rewrite <- !(same_view _ _ Hs).
      split_and!; try done. intros k Ha Hb. rewrite H6 by done. by apply same_view.
    - intros H. eapply keeps_trans; [by apply same_keeps | by apply others_keeps]. }
  unfold fbind. pose proof (rename_spec src dst s2 W2 Hd2) as Hm. destruct (renameNoReplaceAt ft src dst s2) as [[[]|e] s3]; [by apply (Hout (Ok tt)) |].
  destruct e; try (by apply (Hout (Err EOTHER))).
  pose proof (copy_spec src dst i s3 (proj1 Hm)) as Hc. destruct (copyAndRemove ft src dst i s3) as [[[]|e] s4].
  - apply (Hout (Ok tt)). assert (Hne : key_of src <> key_of dst) by (intros E; apply view_node in Hd; rewrite <- E in Hd; congruence).
    eapply others_moved; [exact Hm | done | exact Hc].
  - apply (Hout (Err EOTHER)). by eapply others_trans.
Qed.
End calls.

(** ** Entries elsewhere *)

(** Everything but the entries within [P] is the same node: not only the same content. *)
Definition same_nodes (P : key -> Prop) (s s' : disk) : Prop := forall k, ~ P k -> dk_nodes s' !! k = dk_nodes s !! k.
#[export] Instance same_nodes_preorder P : PreOrder (same_nodes P).
Proof. split; [by intros s k _ |]. intros s1 s2 s3 H1 H2 k Hk. by rewrite H2, H1. Qed.
Lemma same_same_nodes P s s' : same_disk s s' -> same_nodes P s s'.
Proof. intros (H & _) k _. by rewrite H. Qed.
Lemma same_nodes_mono (P Q : key -> Prop) s s' : (forall k, P k -> Q k) -> same_nodes P s s' -> same_nodes Q s s'.
Proof. intros HPQ H k Hk. apply H. naive_solver. Qed.

Section frames.
Context (ft : faults) (P : key -> Prop).
Lemma sys_nodes {A} (f : disk -> res A * disk) s : (forall s, same_nodes P s (snd (f s))) -> same_nodes P s (snd (sys ft f s)).
Proof.
  intros Hf. unfold sys. destruct (ft_fails ft (dk_clock s)); [by intros k _ |]. specialize (Hf s). by destruct (f s).
Qed.
Lemma unlink_nodes e s : P (key_of e) -> same_nodes P s (snd (unlinkat ft e s)).
Proof.
  intros He. apply sys_nodes. intros s0 k Hk. destruct (dk_nodes s0 !! key_of e) as [[]|]; cbn; try done;
    (rewrite lookup_delete_ne; [done | congruence]).
Qed.
Lemma move_node_nodes src dst n s : P (key_of src) -> P (key_of dst) -> same_nodes P s (move_node src dst n s).
Proof. intros Ha Hb k Hk. cbn. by rewrite lookup_insert_ne, lookup_delete_ne by congruence. Qed.
Lemma link_nodes src dst s : P (key_of src) -> P (key_of dst) -> same_nodes P s (snd (link_and_remove ft src dst s)).
Proof.
  intros Ha Hb. unfold link_and_remove, fbind.
  assert (Hl : same_nodes P s (snd (linkat ft src dst s))).
  { apply sys_nodes. intros s0 k Hk. repeat (case_match; cbn; try done). all: by rewrite lookup_insert_ne by congruence. }
  destruct (linkat ft src dst s) as [[[]|[]] s1]; cbn [snd fret] in *; try done.
  - pose proof (unlink_nodes src s1 Ha) as Hu. destruct (unlinkat ft src s1) as [[[]|e] s2]; cbn [snd fret] in *; [by etransitivity |].
    pose proof (unlink_nodes dst s2 Hb) as Hv. destruct (unlinkat ft dst s2) as [r s3]. cbn [snd fret] in *.
    etransitivity; [exact Hl |]. by etransitivity.
  - etransitivity; [exact Hl |]. apply sys_nodes. intros s0.
    repeat (case_match; cbn; try done); by apply move_node_nodes.
Qed.
Lemma rename_nodes src dst s : P (key_of src) -> P (key_of dst) -> same_nodes P s (snd (renameNoReplaceAt ft src dst s)).
Proof.
  intros Ha Hb. unfold renameNoReplaceAt, fbind, renameatNoReplace. destruct (ft_noreplace ft (dk_clock s)); cbn [negb].
  - match goal with |- context [sys ft ?f s] => assert (Hs : same_nodes P s (snd (sys ft f s))) end.
    { apply sys_nodes. intros s0. repeat (case_match; cbn; try done). by apply move_node_nodes. }
    destruct (sys ft _ s). exact Hs.
  - pose proof (link_nodes src dst (passed s) Ha Hb) as Hl. exact Hl.
Qed.
End frames.

(** ** Batches of moves and their undoing *)

Section batch.
Context (ft : faults) (dest : Z -> Prop).     (* the folders files are moved into *)

Definition src_key (p : entry * entry) : key := key_of (fst p).
Definition dst_key (p : entry * entry) : key := key_of (snd p).
Definition to_dest (k : key) : Prop := dest (fst k).
(** What has to stay: everything outside the destination, and what was there. *)
Definition settled (s0 : disk) (k : key) : Prop := ~ to_dest k \/ view s0 k <> None.

Definition pair_moved (s : disk) (p : entry * entry) : Prop :=
  ~ to_dest (src_key p) /\ to_dest (dst_key p) /\ view s (src_key p) = None /\ view s (dst_key p) <> None.
Record batch (s : disk) (done : list (entry * entry)) : Prop := {
  bt_wf : wf s;
  bt_src : NoDup (map src_key done);
  bt_dst : NoDup (map dst_key done);
  bt_pairs : Forall (pair_moved s) done;
}.
Record progress (s0 : disk) (done : list (entry * entry)) (s : disk) : Prop := {
  pg_batch : batch s done;
  pg_moved : Forall (fun p => view s (dst_key p) = view s0 (src_key p) /\ view s0 (dst_key p) = None) done;
  pg_rest : forall k, settled s0 k -> k ∉ map src_key done -> view s k = view s0 k;
}.

Lemma progress_start s : wf s -> progress s [] s.
Proof. intros Hw. by split; [split | |]; try constructor. Qed.
Lemma progress_keeps s0 done s s' : progress s0 done s -> keeps to_dest s s' -> progress s0 done s'.
Proof.
  intros [[Hw H1 H2 H3] H4 H5] [Hw' Hk].
  assert (Hsrc : forall k, ~ to_dest k -> view s' k = view s k) by (intros k Hd; apply Hk; by left).
  assert (Hdst : forall k, view s k <> None -> view s' k = view s k) by (intros k Hd; apply Hk; by right). split; [split | |]; try done.
  - eapply Forall_impl; [exact H3 |]. intros p (Ha & Hb & Hc & Hd). unfold pair_moved. rewrite Hsrc, Hdst by done. done.
  - rewrite Forall_forall in H3, H4 |- *. intros p Hp. destruct (H3 p Hp) as (_ & _ & _ & Hd). rewrite Hdst by done. by apply H4.
  - intros k Hs Hn. rewrite <- (H5 k Hs Hn). destruct Hs as [Hs|Hs]; [by apply Hsrc |]. apply Hdst. by rewrite H5 by (done || by right).
Qed.
Lemma progress_move s0 done s s' src dst : progress s0 done s -> ~ dest (en_dir src) -> dest (en_dir dst) -> view s (key_of dst) = None ->
  moved (key_of src) (key_of dst) s s' -> progress s0 ((src, dst) :: done) s'.
Proof.
  intros [[Hw H1 H2 H3] H4 H5] Hns Hnd Hd (M1 & M2 & (x & M3) & M4 & M5 & M6). rewrite Forall_forall in H3, H4.
  assert (Hsn : key_of src ∉ map src_key done).
  { intros (p & E & Hp)%list_elem_of_fmap. destruct (H3 p Hp) as (_ & _ & Hv & _). unfold src_key in *. congruence. }
  assert (Hdn : key_of dst ∉ map dst_key done).
  { intros (p & E & Hp)%list_elem_of_fmap. destruct (H3 p Hp) as (_ & _ & _ & Hv). unfold dst_key in *. congruence. }
  assert (Hd0 : view s0 (key_of dst) = None).
  { destruct (view s0 (key_of dst)) eqn:E; [| done]. exfalso. cut (view s (key_of dst) = view s0 (key_of dst)); [congruence |]. apply H5; [right; congruence |].
    intros (p & E' & Hp)%list_elem_of_fmap. destruct (H3 p Hp) as (Hq & _). apply Hq. unfold src_key in *. rewrite <- E'. exact Hnd. }
  assert (Hv : forall p, p ∈ done -> view s' (src_key p) = view s (src_key p) /\ view s' (dst_key p) = view s (dst_key p)).
  { intros p Hp. destruct (H3 p Hp) as (Ha & Hb & Hc & He). split; apply M6.
    - intros E. apply Hsn. rewrite <- E. by apply list_elem_of_fmap_2.
    - intros E. apply Ha. rewrite E. exact Hnd.
    - intros E. apply Hns. by rewrite E in Hb.
    - intros E. apply Hdn. rewrite <- E. by apply list_elem_of_fmap_2. }
  split; [split | |].
  - done.
  - cbn. by constructor.
  - cbn. by constructor.
  - constructor; [unfold pair_moved, src_key, dst_key; cbn; split_and!; [done | done | done | by rewrite M5, M3] |].
    apply Forall_forall. intros p Hp. destruct (Hv p Hp) as [E1 E2]. unfold pair_moved. rewrite E1, E2. by apply H3.
  - constructor.
    + unfold src_key, dst_key. cbn. split; [| done]. rewrite M5. apply H5; [by left | done].
    + apply Forall_forall. intros p Hp. destruct (Hv p Hp) as [E1 E2]. rewrite E2. by apply H4.
  - intros k Hs Hk. cbn in Hk. apply not_elem_of_cons in Hk as [Hk1 Hk2]. rewrite M6; [by apply H5 | done |].
    intros ->. destruct Hs as [Hs|Hs]; [by apply Hs | done].
Qed.

(** A mover for undoing: what it does where nothing is. *)
Definition moves_back (mv : entry -> entry -> F (res unit)) : Prop := forall s a b, wf s -> view s (key_of b) = None ->
  let '(r, s') := mv a b s in
  match r with Ok _ => moved (key_of a) (key_of b) s s' | Err _ => others (key_of b) s s' end.
Lemma move_back_ok : moves_back (move_back ft).
Proof.
  intros s a b Hw Hb. unfold move_back. pose proof (move_spec ft a b None s Hw) as H. destruct (moveEntry ft a b None s) as [[[]|e] s'].
  - by destruct H as (_ & H & _).
  - destruct H as [H1 H2]. split; [done |]. intros k Hk. apply H2. by left.
Qed.
Lemma rename_back_ok : moves_back (rename_back ft).
Proof. intros s a b Hw Hb. by apply rename_spec. Qed.

Lemma batch_tail s s' p done : batch s (p :: done) -> wf s' ->
  (forall k, k <> src_key p -> k <> dst_key p -> view s' k = view s k) -> batch s' done.
Proof.
  intros [Hw H1 H2 H3] Hw' Hk. cbn in *. apply NoDup_cons in H1 as [N1 H1]. apply NoDup_cons in H2 as [N2 H2].
  apply Forall_cons in H3 as [(A1 & A2 & _) H3]. split; try done. rewrite Forall_forall in H3 |- *. intros q Hq. destruct (H3 q Hq) as (B1 & B2 & B3 & B4).
  unfold pair_moved. rewrite !Hk; [done | ..].
  - intros E. apply A1. by rewrite <- E.
  - intros E. apply N2. rewrite <- E. by apply list_elem_of_fmap_2.
  - intros E. apply N1. rewrite <- E. by apply list_elem_of_fmap_2.
  - intros E. apply B1. by rewrite E.
Qed.
Lemma roll_back_spec mv done s : moves_back mv -> batch s done -> let '(lost, s') := roll_back mv done s in
  wf s' /\ (forall k, k ∉ map src_key done -> k ∉ map dst_key done -> view s' k = view s k) /\
  Forall (fun p => view s' (src_key p) = view s (dst_key p) \/ (snd p ∈ lost /\ view s' (dst_key p) = view s (dst_key p))) done.
Proof.
  intros Hmv. revert s. induction done as [|[src dst] done IH]; intros s Hb; [by destruct Hb |]. cbn [roll_back]. unfold fbind.
  assert (Hp := bt_pairs _ _ Hb). apply Forall_cons in Hp as [(A1 & A2 & A3 & A4) _]. cbn in A1, A2, A3, A4.
  pose proof (Hmv s dst src (bt_wf _ _ Hb) A3) as Hm. destruct (mv dst src s) as [r s1].
  assert (Hk : wf s1 /\ forall k, k <> key_of src -> k <> key_of dst -> view s1 k = view s k).
  { destruct r; [destruct Hm as (M1 & _ & _ & _ & _ & M6); split; [done |]; intros k Ha Hc; by apply M6 |]. destruct Hm as [M1 M2]. split; [done |]. intros k Ha _. by apply M2. }
  destruct Hk as [W1 Hk]. specialize (IH s1 (batch_tail _ _ _ _ Hb W1 Hk)). destruct (roll_back mv done s1) as [lost s2]. destruct IH as (W2 & Hf & Hall).
  destruct Hb as [_ N1 N2 Hp]. cbn in N1, N2. apply NoDup_cons in N1 as [N1 _]. apply NoDup_cons in N2 as [N2 _].
  apply Forall_cons in Hp as [_ Hp]. rewrite Forall_forall in Hp.
  assert (Hdd : forall q, q ∈ done -> view s1 (dst_key q) = view s (dst_key q)).
  { intros q Hq. destruct (Hp q Hq) as (_ & B2 & _). apply Hk.
    - intros E. apply A1. change (to_dest (key_of src)). by rewrite <- E.
    - intros E. apply N2. change (key_of dst ∈ map dst_key done). rewrite <- E. by apply list_elem_of_fmap_2. }
  assert (Hs2 : view s2 (key_of src) = view s1 (key_of src)).
  { apply Hf; [done |]. intros (q & E & Hq)%list_elem_of_fmap. destruct (Hp q Hq) as (_ & B2 & _). apply A1. injection E as E _. unfold to_dest, src_key. cbn. by rewrite E. }
  assert (Hd2 : view s2 (key_of dst) = view s1 (key_of dst)).
  { apply Hf; [| done]. intros (q & E & Hq)%list_elem_of_fmap. destruct (Hp q Hq) as (B1 & _). apply B1. injection E as E _. unfold to_dest, src_key. cbn. by rewrite <- E. }
  split; [done |]. split.
  - intros k Ha Hc. cbn in Ha, Hc. apply not_elem_of_cons in Ha as [Ha1 Ha2]. apply not_elem_of_cons in Hc as [Hc1 Hc2]. rewrite Hf by done. by apply Hk.
  - apply Forall_forall. intros p [-> | Hq]%elem_of_cons.
    + unfold src_key, dst_key. cbn. destruct r.
      * left. rewrite Hs2. by destruct Hm as (_ & _ & _ & _ & M5 & _).
      * right. split; [left |]. rewrite Hd2. destruct Hm as [_ M2]. apply M2. intros E. apply A1. injection E as E _. unfold to_dest, src_key. cbn. by rewrite <- E.
    + rewrite Forall_forall in Hall. destruct (Hall p Hq) as [E|[E1 E2]]; rewrite <- (Hdd p Hq); [by left | right]. split; [| done]. destruct r; [done | by right].
Qed.
End batch.
