(* ===== verification/RecycleTheorems.v ===== *)
(** * Removing files and bringing them back: theorems

    Whatever calls fail on the way, a removal into the recycle bin and a restore lose
    nothing and disturb nothing else. *)

From S2P Require Import Prelude GoStd Models DiscPaths Paths Pathmap ExecModel FileSys Recycle RecycleFacts.
Local Open Scope string_scope.
Local Open Scope Z_scope.

(** What opening folders inside a root gives: the source folders are not among the
    destination's, and only the destination's may get new entries. (A bin whose folder is
    made inside a folder that itself holds a removed file is not covered.) *)
Record opener_ok (dest : Z -> Prop) (op : opener) : Prop := {
  oo_source : forall root dir d, op_source op root dir = Some d -> ~ dest d;
  oo_dest : forall root dir s, wf s -> let '(o, s') := op_dest op root dir s in
    keeps (to_dest dest) s s' /\ forall d, o = Some d -> dest d;
  oo_bin : forall s, wf s -> keeps (to_dest dest) s (snd (op_bin op s));
}.

(** Opening folders leaves the entries outside them alone: each is the same file or folder. *)
Record opener_frames (dest : Z -> Prop) (op : opener) : Prop := {
  of_dest : forall root dir s, same_nodes (to_dest dest) s (snd (op_dest op root dir s));
  of_bin : forall s, same_nodes (to_dest dest) s (snd (op_bin op s));
}.
(** [d] is a folder that opening [dir] inside [root] gives. *)
Definition opens (op : opener) (root dir : string) (d : Z) : Prop := exists s s', op_dest op root dir s = (Some d, s').

(** The outcome of moving the entries [srcs]: nothing else changes; each is where it
    was, or whole at a place the outcome names. *)
Definition safe_outcome (dest : Z -> Prop) (s s' : disk) (srcs : list key) (r : perform_result) : Prop :=
  wf s' /\ (forall k, settled dest s k -> k ∉ srcs -> view s' k = view s k) /\
  match r with
  | FsStale => forall k, k ∈ srcs -> view s' k = view s k
  | FsFailed lost => forall k, k ∈ srcs -> view s' k = view s k \/ exists e, e ∈ lost /\ view s' (key_of e) = view s k
  | FsDone ms => Forall2 (fun k m => view s k <> None /\ view s' k = None /\ view s' (key_of m) = view s k) srcs ms
  end.

Lemma elem_of_rev {A} (x : A) (l : list A) : x ∈ rev l <-> x ∈ l.
Proof. rewrite !list_elem_of_In. symmetry. apply in_rev. Qed.

Section outcomes.
Context (ft : faults) (op : opener) (dest : Z -> Prop).

Lemma undone s0 done s mv rest : moves_back mv -> progress dest s0 done s -> Forall (fun k => ~ to_dest dest k) rest ->
  let '(r, s') := failed_after mv done s in safe_outcome dest s0 s' (rev (map src_key done) ++ rest) r.
Proof.
  intros Hmv [Hb Hm Hr] Hrest. unfold failed_after, fbind. pose proof (roll_back_spec dest mv done s Hmv Hb) as Hs.
  destruct (roll_back mv done s) as [lost s']. destruct Hs as (Hw & Hf & Hall). cbn. rewrite Forall_forall in Hm, Hall. rewrite Forall_forall in Hrest.
  assert (Hp := bt_pairs _ _ _ Hb). rewrite Forall_forall in Hp.
  assert (Hkeep : forall k, settled dest s0 k -> k ∉ map src_key done -> view s' k = view s0 k).
  { intros k Hs Hk. rewrite Hf; [by apply Hr | done |]. intros (p & -> & Hpd)%list_elem_of_fmap. destruct (Hm p Hpd) as [_ Hd0].
    destruct (Hp p Hpd) as (_ & Hd & _). by destruct Hs. }
  assert (Hsrc : forall k, k ∈ map src_key done -> view s' k = view s0 k \/ exists e, e ∈ lost /\ view s' (key_of e) = view s0 k).
  { intros k (p & -> & Hpd)%list_elem_of_fmap. destruct (Hm p Hpd) as [<- _]. destruct (Hall p Hpd) as [H|[H1 H2]]; [by left | right; by exists (snd p)]. }
  split_and!; [done | |].
  - intros k Hs Hk. apply Hkeep; [done |]. intros Hin. apply Hk. apply elem_of_app. left. by apply elem_of_rev.
  - intros k [Hk|Hk]%elem_of_app; [rewrite elem_of_rev in Hk; by apply Hsrc |].
    destruct (decide (k ∈ map src_key done)) as [Hin|Hin]; [by apply Hsrc | left]. apply Hkeep; [left; by apply Hrest | done].
Qed.
Lemma all_done s0 done s : progress dest s0 done s -> safe_outcome dest s0 s (rev (map src_key done)) (FsDone (map snd (rev done))).
Proof.
  intros [Hb Hm Hr]. split_and!; [by destruct Hb | |].
  - intros k Hs Hk. apply Hr; [done |]. intros Hin. apply Hk. by apply elem_of_rev.
  - rewrite <- map_rev. apply Forall2_fmap, Forall_Forall2_diag, Forall_rev. apply Forall_forall. intros p Hp.
    assert (Hq := bt_pairs _ _ _ Hb). rewrite Forall_forall in Hm, Hq. destruct (Hm p Hp) as [E _]. destruct (Hq p Hp) as (_ & _ & H1 & H2).
    unfold dst_key in *. split_and!; [congruence | done | done].
Qed.

(** Nothing was moved. *)
Lemma nothing_moved s0 s r : progress dest s0 [] s -> (forall ms, r <> FsDone ms) -> safe_outcome dest s0 s [] r.
Proof.
  intros [[Hw _ _ _] _ Hr] Hd. split; [done |]. split; [intros k Hk _; by apply Hr, not_elem_of_nil |].
  destruct r as [|lost|ms]; [| | by destruct (Hd ms)]; by intros ? ?%elem_of_nil.
Qed.

(** ** Files *)

Lemma unique_same d path name i n s : same_disk s (snd (unique_from ft d path name i n s)).
Proof.
  revert i s. induction n as [|n IH]; intros i s; [done |]. cbn [unique_from]. unfold fbind.
  pose proof (lstat_spec ft {| en_dir := d; en_path := path; en_name := candidate name i |} s) as Hl.
  destruct (lstat ft _ s) as [r s1]. destruct Hl as [Hs _]. destruct r as [nd|[]]; try done. eapply same_trans; [exact Hs | apply IH].
Qed.

Hypothesis Hop : opener_ok dest op.

Lemma recycle_spec bin day s0 l done s : progress dest s0 done s -> Forall (fun fe => ~ dest (en_dir (snd fe))) l ->
  let '(r, s') := recycle_parts ft op bin day l done s in
  safe_outcome dest s0 s' (rev (map src_key done) ++ map (fun fe : fsFile * entry => key_of (snd fe)) l) r.
Proof.
  revert done s. induction l as [|[f src] l IH]; intros done s Hp Hl; cbn [recycle_parts].
  { cbn. rewrite app_nil_r. by apply all_done. }
  assert (Hrest : Forall (fun k => ~ to_dest dest k) (map (fun fe : fsFile * entry => key_of (snd fe)) ((f, src) :: l))) by by apply Forall_fmap.
  apply Forall_cons in Hl as [Hsrc Hl]. destruct (negb (in_bin_path bin (path_join day (ff_rel f)))).
  { apply undone; [apply move_back_ok | done | done]. }
  unfold fbind at 1. pose proof (oo_dest _ _ Hop bin (path_dir (path_join day (ff_rel f))) s (bt_wf _ _ _ (pg_batch _ _ _ _ Hp))) as Hd.
  destruct (op_dest op bin _ s) as [[d|] s1]; destruct Hd as [Hk Hd]; apply (progress_keeps _ _ _ _ _ Hp) in Hk; clear Hp.
  2: { apply undone; [apply move_back_ok | done | done]. }
  unfold fbind at 1. unfold uniqueName. match goal with |- context [unique_from ft d ?a ?b 0 999 s1] => pose proof (unique_same d a b 0 999 s1) as Hu;
    destruct (unique_from ft d a b 0 999 s1) as [[name|e] s2] end; cbn [snd] in Hu.
  all: assert (Hp : progress dest s0 done s2) by (eapply progress_keeps, same_keeps, Hu; [exact Hk | apply (bt_wf _ _ _ (pg_batch _ _ _ _ Hk))]); clear Hk Hu.
  2: { apply undone; [apply move_back_ok | done | done]. }
  set (dst := {| en_dir := d; en_path := _; en_name := name |}). unfold fbind at 1.
  pose proof (move_spec ft src dst (Some (ff_id f)) s2 (bt_wf _ _ _ (pg_batch _ _ _ _ Hp))) as Hm.
  destruct (moveEntry ft src dst (Some (ff_id f)) s2) as [[[]|e] s3].
  - destruct Hm as (Hd0 & Hm & _). specialize (IH ((src, dst) :: done) s3). cbn [map rev] in IH. rewrite <- app_assoc in IH. apply IH; [| done].
    eapply progress_move; try done. by apply Hd.
  - apply undone; [apply move_back_ok | | done]. eapply progress_keeps; [exact Hp |]. eapply keeps_mono; [| exact Hm].
    intros k ->. unfold to_dest. cbn. by apply Hd.
Qed.

(** A planned file as found: still the planned file, of the planned size. *)
Definition planned (s : disk) (f : fsFile) (k : key) : Prop :=
  exists d, op_source op (ff_root f) (path_dir (ff_rel f)) = Some d /\ k = (d, path_base (ff_rel f)) /\
    dk_nodes s !! k = Some (File (ff_id f)) /\ size_of s (ff_id f) = ff_size f.
Lemma open_spec l s : let '(r, s') := open_parts ft op l s in same_disk s s' /\
  match r with Some es => Forall2 (fun f e => planned s f (key_of e)) l es | None => True end.
Proof.
  revert s. induction l as [|f l IH]; intros s; [by split; [done | constructor] |]. cbn [open_parts]. unfold fbind at 1, openPlannedPart.
  destruct (op_source op (ff_root f) (path_dir (ff_rel f))) as [d|] eqn:Ed; [| by split]. set (e := at_dir d _ _).
  pose proof (regular_spec ft e (Some (ff_id f)) s) as Hr. destruct (regularEntry ft e (Some (ff_id f)) s) as [[i|x] s1]; destruct Hr as [Hs Hr]; [| by split].
  destruct Hr as [Hn Hi]. rewrite (Hi _ eq_refl) in *. destruct (Z.eqb_spec (size_of s1 (ff_id f)) (ff_size f)) as [Hz|]; [| by split].
  unfold fbind. specialize (IH s1). destruct (open_parts ft op l s1) as [[es|] s2]; destruct IH as [Hs2 IH]; cbn; (split; [by eapply same_trans |]); [| done].
  assert (Hsz : forall j, size_of s1 j = size_of s j) by (intros j; unfold size_of, data_of; by rewrite (proj1 (proj2 Hs))).
  constructor; [by exists d; split_and!; [done | done | done | by rewrite <- Hsz] |].
  eapply Forall2_impl; [exact IH |]. intros f' e' (d' & H1 & H2 & H3 & H4). exists d'. rewrite <- Hsz, <- (proj1 Hs). done.
Qed.
Lemma planned_source s f e : planned s f (key_of e) -> ~ dest (en_dir e).
Proof. intros (d & Hd & E & _). apply (f_equal fst) in E. cbn in E. rewrite E. by eapply oo_source. Qed.

Lemma zip_keys (P : fsFile -> key -> Prop) fs es : Forall2 (fun f e => P f (key_of e)) fs es ->
  map (fun fe : fsFile * entry => key_of (snd fe)) (zip fs es) = map key_of es.
Proof. induction 1 as [|f e l k H Hf IH]; cbn; [done | by rewrite IH]. Qed.
Lemma delete_spec l s : wf s -> let '(r, s') := delete_parts ft l s in
  exists gone, gone `prefix_of` map (fun fe : fsFile * entry => key_of (snd fe)) l /\ NoDup gone /\ (forall k, k ∈ gone -> view s k <> None) /\
    (forall k, view s' k = if decide (k ∈ gone) then None else view s k) /\
    match r with FsDone ms => ms = [] /\ gone = map (fun fe : fsFile * entry => key_of (snd fe)) l | FsFailed lost => lost = [] | FsStale => False end.
Proof.
  assert (Hnil : forall k : key, k ∈ ([] : list key) -> view s k <> None) by (by intros ? ?%elem_of_nil). revert s Hnil.
  induction l as [|[f e] l IH]; intros s Hnil Hw; [exists []; by split_and!; try constructor |]. cbn [delete_parts]. unfold fbind at 1, removeEntry, fbind at 1.
  pose proof (regular_spec ft e (Some (ff_id f)) s) as Hr. destruct (regularEntry ft e (Some (ff_id f)) s) as [[i|x] s1]; destruct Hr as [Hs Hr].
  2: { exists []. split_and!; [by eexists | constructor | done | intros k; by apply same_view | done]. }
  pose proof (unlink_spec ft e s1 (same_wf _ _ Hs Hw)) as Hu. destruct (unlinkat ft e s1) as [[[]|x] s2]; destruct Hu as (W2 & Hk & Hu).
  2: { exists []. split_and!; [by eexists | constructor | done | intros k; rewrite (same_view _ _ Hu); by apply same_view | done]. }
  specialize (IH s2 ltac:(by intros ? ?%elem_of_nil) W2). destruct (delete_parts ft l s2) as [r s3]. destruct IH as (gone & Hg & Hn & Hin & Hv & Hres). destruct Hu as [Hu1 Hu2].
  exists (key_of e :: gone). cbn [map]. split; [by apply prefix_cons |]. split; [constructor; [intros Hi; by apply (Hin _ Hi) | done] |]. split; [| split].
  - intros k [-> | Hi]%elem_of_cons; [by rewrite (same_view _ _ Hs) in Hu2 |]. specialize (Hin _ Hi). rewrite Hk, (same_view _ _ Hs) in Hin by congruence. done.
  - intros k. rewrite Hv. destruct (decide (k = key_of e)) as [->|Hne].
    + rewrite (decide_True (P := key_of e ∈ key_of e :: gone)) by (by left). by destruct (decide (key_of e ∈ gone)).
    + rewrite Hk, (same_view _ _ Hs) by done. destruct (decide (k ∈ gone)) as [Hi|Hi]; [by rewrite decide_True by (by right) |].
      rewrite decide_False; [done |]. by intros [? | ?]%elem_of_cons.
  - destruct r; [done | done | naive_solver congruence].
Qed.

(** ** Disc entries *)

Lemma identify_spec e s : let '(r, s') := identifyPlannedEntry ft op e s in same_disk s s' /\
  match r with
  | Some en => ~ dest (en_dir en) /\ dk_nodes s !! key_of en = Some (if de_dir e then Dir (de_id e) else File (de_id e)) /\
      exists d, op_source op (de_root e) (path_dir (de_rel e)) = Some d /\ key_of en = (d, path_base (de_rel e))
  | None => True
  end.
Proof.
  unfold identifyPlannedEntry. destruct (op_source op (de_root e) (path_dir (de_rel e))) as [d|] eqn:Ed; [| by split].
  set (en := at_dir d _ _). unfold fbind. pose proof (lstat_spec ft en s) as Hl. destruct (lstat ft en s) as [r s1]. destruct Hl as [Hs Hn]. cbn.
  split; [done |]. assert (Hd : ~ dest (en_dir en)) by by eapply oo_source. destruct r as [[i|i| |]|x]; try done.
  - destruct (de_dir e); cbn [negb andb]; [done |]. destruct (Z.eqb_spec i (de_id e)) as [->|]; [| done]. split_and!; [done | done | by exists d].
  - destruct (de_dir e); cbn [negb andb]; [| done]. destruct (Z.eqb_spec i (de_id e)) as [->|]; [| done]. split_and!; [done | done | by exists d].
Qed.
Lemma progress_new s0 done s k : progress dest s0 done s -> view s k <> None -> k ∉ map src_key done.
Proof.
  intros [[_ _ _ Hp] _ _] Hv (p & -> & Hin)%list_elem_of_fmap. rewrite Forall_forall in Hp. by destruct (Hp p Hin) as (_ & _ & H & _).
Qed.
Lemma undone_rename s0 done s : progress dest s0 done s -> let '(r, s') := failed_after (rename_back ft) done s in
  safe_outcome dest s0 s' (rev (map src_key done)) r.
Proof.
  intros Hp. pose proof (undone s0 done s (rename_back ft) [] (rename_back_ok ft) Hp) as H. destruct (failed_after _ done s) as [r s'].
  rewrite app_nil_r in H. by apply H.
Qed.
(** The entry [k] is where the plan says [e] is, and it is the planned folder or file. *)
Definition named (s : disk) (e : discEntry) (k : key) : Prop :=
  (exists d, op_source op (de_root e) (path_dir (de_rel e)) = Some d /\ k = (d, path_base (de_rel e))) /\
  dk_nodes s !! k = Some (if de_dir e then Dir (de_id e) else File (de_id e)).
(** [m] is the place of [e] in the bin: its path below the dated folder. *)
Definition in_day (bin day : string) (e : discEntry) (m : entry) : Prop :=
  let rel := path_join day (de_rel e) in
  isWithin (path_join bin rel) bin = true /\ opens op bin (path_dir rel) (en_dir m) /\
  en_path m = path_join bin (path_dir rel) /\ en_name m = path_base rel.
(** Entries outside the destination that were not moved are the same nodes as at the start. *)
Definition unmoved (s0 : disk) (done : list (entry * entry)) (s : disk) : Prop :=
  same_nodes (fun k => to_dest dest k \/ k ∈ map src_key done) s0 s.
Lemma unmoved_later s0 done s s' : unmoved s0 done s -> same_nodes (to_dest dest) s s' -> unmoved s0 done s'.
Proof. intros Hu Hs. unfold unmoved. etransitivity; [exact Hu |]. eapply same_nodes_mono; [| exact Hs]. auto. Qed.
(** What a batch of moves of disc entries comes to: every entry at hand is moved, or an
    outcome as above. *)
Definition disc_progress (bin day : string) (s0 s' : disk) (l : list discEntry) (x : perform_result + list (entry * entry)) : Prop :=
  match x with
  | inl r => exists l1 srcs, l1 `prefix_of` l /\ Forall2 (named s0) l1 srcs /\ safe_outcome dest s0 s' srcs r /\ (forall ms, r <> FsDone ms)
  | inr done => progress dest s0 done s' /\ Forall2 (named s0) l (rev (map src_key done)) /\ Forall2 (in_day bin day) l (map snd (rev done))
  end.
Lemma stopped_disc bin day s0 done s l1 l : progress dest s0 done s -> l1 `prefix_of` l -> Forall2 (named s0) l1 (rev (map src_key done)) ->
  let '(x, s') := (letf r := failed_after (rename_back ft) done in fret (inl r)) s in disc_progress bin day s0 s' l x.
Proof.
  intros Hp Hl Hn. pose proof (undone_rename s0 done s Hp) as H. unfold fbind at 1. unfold failed_after, fbind in *.
  destruct (roll_back (rename_back ft) done s) as [lost s']. cbn in *. exists l1, (rev (map src_key done)). by split_and!.
Qed.
Lemma stale_disc bin day s0 done s l1 l : progress dest s0 done s -> l1 `prefix_of` l -> Forall2 (named s0) l1 (rev (map src_key done)) ->
  let '(x, s') := (letf r := stale_after ft done in fret (inl r)) s in disc_progress bin day s0 s' l x.
Proof.
  intros Hp Hl Hn. destruct done as [|p done]; [| by eapply (stopped_disc bin day s0 (p :: done))].
  cbn in *. exists l1, []. split; [done |]. split; [done |]. split; [by apply nothing_moved | by intros ms].
Qed.
(** Folders opened once are the destination's, each the one its key stands for. *)
Definition kept_open (P : string -> Z -> Prop) (dirs : opened) : Prop := Forall (fun p : string * Z => dest (snd p) /\ P (fst p) (snd p)) dirs.
Lemma open_once_spec P dirs k root rel s : wf s -> kept_open P dirs -> (forall d, opens op root rel d -> P k d) ->
  let '(o, s') := open_once op dirs k root rel s in
  keeps (to_dest dest) s s' /\ match o with Some (d, dirs') => dest d /\ P k d /\ kept_open P dirs' | None => True end.
Proof.
  intros Hw Ha HP. unfold open_once. destruct (list_find _ dirs) as [[i [k' d]]|] eqn:E.
  - apply list_find_Some in E as (Hi & Hk & _). cbn in Hk. apply Is_true_true, String.eqb_eq in Hk. subst k'.
    split; [by apply same_keeps |]. destruct (Forall_lookup_1 _ _ _ _ Ha Hi) as [H1 H2]. done.
  - unfold fbind. pose proof (oo_dest _ _ Hop root rel s Hw) as Hd. destruct (op_dest op root rel s) as [[d|] s'] eqn:Ed; destruct Hd as [Hk Hd]; (split; [done |]); [| done].
    specialize (Hd d eq_refl). assert (HPd : P k d) by (apply HP; by exists s, s'). split; [done |]. split; [done |]. by constructor.
Qed.
Lemma open_once_nodes dirs k root rel s : opener_frames dest op -> same_nodes (to_dest dest) s (snd (open_once op dirs k root rel s)).
Proof.
  intros Hof. unfold open_once. destruct (list_find _ dirs) as [[i [k' d]]|]; [reflexivity |]. unfold fbind.
  pose proof (of_dest _ _ Hof root rel s) as Hs. by destruct (op_dest op root rel s).
Qed.
Lemma move_entries_spec bin day s0 l1 l dirs done s : opener_frames dest op -> progress dest s0 done s -> unmoved s0 done s -> kept_open (opens op bin) dirs ->
  Forall2 (named s0) l1 (rev (map src_key done)) -> Forall2 (in_day bin day) l1 (map snd (rev done)) ->
  let '(x, s') := move_entries ft op bin day l dirs done s in disc_progress bin day s0 s' (l1 ++ l)%list x.
Proof.
  intros Hof. revert l1 dirs done s. induction l as [|e l IH]; intros l1 dirs done s Hp Hu Ha Hn Hb; cbn [move_entries]; [by rewrite app_nil_r |].
  assert (Hpre : l1 `prefix_of` (l1 ++ e :: l)%list) by by eexists.
  unfold fbind at 1. pose proof (identify_spec e s) as Hi. destruct (identifyPlannedEntry ft op e s) as [src s1]. destruct Hi as [Hs Hi].
  assert (Hp1 := progress_keeps _ _ _ _ _ Hp (same_keeps _ _ _ (bt_wf _ _ _ (pg_batch _ _ _ _ Hp)) Hs)).
  assert (Hu1 := unmoved_later _ _ _ _ Hu (same_same_nodes _ _ _ Hs)).
  destruct src as [src|]; [| by eapply stale_disc]. destruct Hi as (Hsd & Hid & Hnm).
  destruct (in_bin_path bin (path_join day (de_rel e))) eqn:Ein; cbn [negb]; [| by eapply stopped_disc].
  unfold fbind at 1. pose proof (open_once_spec (opens op bin) dirs (path_dir (path_join day (de_rel e))) bin (path_dir (path_join day (de_rel e))) s1 (bt_wf _ _ _ (pg_batch _ _ _ _ Hp1)) Ha ltac:(done)) as Hd.
  pose proof (open_once_nodes dirs (path_dir (path_join day (de_rel e))) bin (path_dir (path_join day (de_rel e))) s1 Hof) as Hf.
  destruct (open_once op dirs _ bin _ s1) as [[[d dirs']|] s2]; destruct Hd as [Hk Hd]; apply (progress_keeps _ _ _ _ _ Hp1) in Hk; [| by eapply stopped_disc]. destruct Hd as (Hd & Hopen & Ha').
  cbn [snd] in Hf. apply (unmoved_later _ _ _ _ Hu1) in Hf.
  set (dst := at_dir d bin _). unfold fbind at 1. pose proof (lstat_spec ft dst s2) as Hl. destruct (lstat ft dst s2) as [o s3]. destruct Hl as [Hs3 Hl].
  assert (Hp3 := progress_keeps _ _ _ _ _ Hk (same_keeps _ _ _ (bt_wf _ _ _ (pg_batch _ _ _ _ Hk)) Hs3)).
  assert (Hu3 := unmoved_later _ _ _ _ Hf (same_same_nodes _ _ _ Hs3)).
  destruct o as [n|[]]; try (by eapply stopped_disc). unfold fbind at 1.
  assert (Hv : view s3 (key_of dst) = None) by (rewrite (same_view _ _ Hs3); by apply view_node).
  assert (W3 := bt_wf _ _ _ (pg_batch _ _ _ _ Hp3)). pose proof (rename_spec ft src dst s3 W3 Hv) as Hm.
  pose proof (rename_nodes ft (fun k => to_dest dest k \/ k ∈ key_of src :: map src_key done) src dst s3 ltac:(right; left) ltac:(by left)) as Hr.
  destruct (renameNoReplaceAt ft src dst s3) as [[[]|x] s4].
  - assert (Hsrc : key_of src ∉ map src_key done) by (apply (progress_new s0 done s); [done | by rewrite view_node, Hid]).
    rewrite cons_middle, app_assoc. apply IH; [by eapply progress_move | | done | |].
    + unfold unmoved. etransitivity; [eapply same_nodes_mono; [| exact Hu3] | exact Hr]. intros k [?|?]; [by left | right; by right].
    + cbn [map rev]. apply Forall2_app; [done |]. constructor; [| done]. unfold src_key. cbn. split; [exact Hnm |].
      rewrite <- (Hu (key_of src)); [exact Hid |]. by intros [?|?].
    + cbn [rev]. rewrite map_app. apply Forall2_app; [done |]. constructor; [| done]. unfold in_bin_path in Ein.
      apply andb_true_iff in Ein as [_ Ein]. by split_and!.
  - eapply stopped_disc; try done. eapply progress_keeps; [exact Hp3 |]. eapply keeps_mono; [| by apply others_keeps].
    intros k ->. exact Hd.
Qed.
(** ** Restoring *)

(** The part [m] is at [k] in the bin, and [e] is where it belongs: in the folder of its path
    inside its mapped root. *)
Definition binned (bin : string) (m : restoreMove) (k : key) : Prop :=
  exists d, op_source op bin (path_dir (rm_from_rel m)) = Some d /\ k = (d, path_base (rm_from_rel m)).
Definition lands (m : restoreMove) (e : entry) : Prop :=
  dest (en_dir e) /\ opens op (rm_to_root m) (path_dir (rm_to_rel m)) (en_dir e) /\ en_path e = path_join (rm_to_root m) (path_dir (rm_to_rel m)) /\ en_name e = path_base (rm_to_rel m).
(** The outcome of a restore: every part is where it belongs, or each is still in the
    bin or whole at a destination. *)
Definition restored (bin : string) (s0 s' : disk) (l : list restoreMove) (b : bool) : Prop :=
  exists l1 srcs r, l1 `prefix_of` l /\ Forall2 (binned bin) l1 srcs /\ safe_outcome dest s0 s' srcs r /\
    if b then l1 = l /\ exists ms, r = FsDone ms /\ Forall2 lands l ms else exists lost, r = FsFailed lost.
(** The moves [done] are those of the parts [l1]. *)
Definition restoring (bin : string) (l1 : list restoreMove) (done : list (entry * entry)) : Prop :=
  Forall2 (binned bin) l1 (rev (map src_key done)) /\ Forall2 lands l1 (map snd (rev done)).

Lemma restoring_step bin l1 done m sd d : restoring bin l1 done -> op_source op bin (path_dir (rm_from_rel m)) = Some sd -> dest d ->
  opens op (rm_to_root m) (path_dir (rm_to_rel m)) d ->
  restoring bin (l1 ++ [m])%list ((at_dir sd bin (rm_from_rel m), at_dir d (rm_to_root m) (rm_to_rel m)) :: done).
Proof.
  intros [H1 H2] Hs Hd Ho. split; cbn [map rev]; rewrite ?map_app; (apply Forall2_app; [done |]); (constructor; [| done]); [by exists sd | by split_and!].
Qed.
Lemma restore_end bin s0 l1 done s : progress dest s0 done s -> restoring bin l1 done -> restored bin s0 s (l1 ++ [])%list true.
Proof.
  intros Hp [H1 H2]. rewrite app_nil_r. exists l1, (rev (map src_key done)), (FsDone (map snd (rev done))).
  split_and!; [done | done | by apply all_done | done | by eexists].
Qed.
Lemma restore_stop bin mv s0 l1 l done s : moves_back mv -> progress dest s0 done s -> restoring bin l1 done ->
  let '(b, s') := (letf _ := roll_back mv done in fret false) s in restored bin s0 s' (l1 ++ l)%list b.
Proof.
  intros Hmv Hp [H1 _]. pose proof (undone s0 done s mv [] Hmv Hp) as H. rewrite app_nil_r in H. unfold failed_after, fbind in *.
  destruct (roll_back mv done s) as [lost s']. exists l1, (rev (map src_key done)), (FsFailed lost).
  split_and!; [by eexists | done | by apply H | by eexists].
Qed.
Lemma restore_parts_spec bin s0 l1 l done s : progress dest s0 done s -> restoring bin l1 done ->
  let '(b, s') := restore_parts ft op bin l done s in restored bin s0 s' (l1 ++ l)%list b.
Proof.
  revert l1 done s. induction l as [|m l IH]; intros l1 done s Hp Hn; cbn [restore_parts]; [by eapply restore_end |].
  assert (Hmv := move_back_ok ft).
  destruct (op_source op bin (path_dir (rm_from_rel m))) as [sd|] eqn:Es; [| by apply restore_stop]. assert (Hsd := oo_source _ _ Hop _ _ _ Es).
  unfold fbind at 1. pose proof (oo_dest _ _ Hop (rm_to_root m) (path_dir (rm_to_rel m)) s (bt_wf _ _ _ (pg_batch _ _ _ _ Hp))) as Hd.
  destruct (op_dest op _ _ s) as [[d|] s1] eqn:Ed; destruct Hd as [Hk Hd]; apply (progress_keeps _ _ _ _ _ Hp) in Hk; [| by apply restore_stop].
  assert (Ho : opens op (rm_to_root m) (path_dir (rm_to_rel m)) d) by (by exists s, s1).
  specialize (Hd d eq_refl). unfold fbind at 1. set (src := at_dir sd _ _). set (dst := at_dir d _ _).
  pose proof (move_spec ft src dst None s1 (bt_wf _ _ _ (pg_batch _ _ _ _ Hk))) as Hm. destruct (moveEntry ft src dst None s1) as [[[]|x] s2].
  - destruct Hm as (Hv & Hm & _). rewrite cons_middle, app_assoc. apply IH; [by eapply progress_move | by apply restoring_step].
  - apply restore_stop; [done | | done]. eapply progress_keeps; [exact Hk |]. eapply keeps_mono; [| exact Hm]. intros k ->. exact Hd.
Qed.
(** The root of a key ends at the first zero byte. *)
Definition clean_root (m : restoreMove) : Prop := index_byte (rm_to_root m) "000"%char = None.
Lemma cut_at_zero a b a' b' : index_byte a "000"%char = None -> index_byte a' "000"%char = None ->
  a +:+ String "000" EmptyString +:+ b = a' +:+ String "000" EmptyString +:+ b' -> a = a' /\ b = b'.
Proof.
  assert (Hc : forall c x, index_byte (String c x) "000"%char = None -> Ascii.eqb "000" c = false /\ index_byte x "000"%char = None).
  { intros c x. unfold index_byte. cbn [index_byte_where]. destruct (Ascii.eqb "000" c); [done |]. by destruct (index_byte_where _ x). }
  revert a'. induction a as [|c a IH]; intros [|c' a'] Ha Ha' E; cbn in E.
  - injection E as E. exact (conj eq_refl E).
  - injection E as <- E. by destruct (Hc _ _ Ha') as [? _].
  - injection E as -> E. by destruct (Hc _ _ Ha) as [? _].
  - injection E as <- E. destruct (Hc _ _ Ha), (Hc _ _ Ha'). by destruct (IH a') as [-> ->].
Qed.
(** The folder opened under a key is the one of every part with that key. *)
Definition key_opens (k : string) (d : Z) : Prop :=
  forall m, clean_root m -> dst_dir_key m = k -> opens op (rm_to_root m) (path_dir (rm_to_rel m)) d.
Lemma restore_entries_spec bin s0 l1 l dirs done s : Forall clean_root l -> progress dest s0 done s -> kept_open key_opens dirs -> restoring bin l1 done ->
  let '(b, s') := restore_entries ft op bin l dirs done s in restored bin s0 s' (l1 ++ l)%list b.
Proof.
  intros Hclean. revert l1 dirs done s. induction l as [|m l IH]; intros l1 dirs done s Hp Hdirs Hn; cbn [restore_entries]; [by eapply restore_end |].
  apply Forall_cons in Hclean as [Hcm Hclean]. specialize (IH Hclean). assert (Hmv := rename_back_ok ft).
  destruct (op_source op bin (path_dir (rm_from_rel m))) as [sd|] eqn:Es; [| by apply restore_stop]. assert (Hsd := oo_source _ _ Hop _ _ _ Es).
  unfold fbind at 1. pose proof (open_once_spec key_opens dirs (dst_dir_key m) (rm_to_root m) (path_dir (rm_to_rel m)) s (bt_wf _ _ _ (pg_batch _ _ _ _ Hp)) Hdirs) as Hd.
  specialize (Hd ltac:(intros d Ho m' Hm' E; destruct (cut_at_zero _ _ _ _ Hm' Hcm E) as [-> ->]; exact Ho)).
  destruct (open_once op dirs _ _ _ s) as [[[d dirs']|] s1]; destruct Hd as [Hk Hd]; apply (progress_keeps _ _ _ _ _ Hp) in Hk; [| by apply restore_stop].
  destruct Hd as (Hd & Ho%(fun f => f m Hcm eq_refl) & Hdirs'). set (src := at_dir sd _ _). set (dst := at_dir d _ _).
  unfold fbind at 1. pose proof (lstat_spec ft src s1) as Ha. destruct (lstat ft src s1) as [a s2]. destruct Ha as [Hs2 _].
  assert (Hp2 := progress_keeps _ _ _ _ _ Hk (same_keeps _ _ _ (bt_wf _ _ _ (pg_batch _ _ _ _ Hk)) Hs2)). clear Hk Hp.
  assert (Hgo : let '(b, s') := (letf b := lstat ft dst in match b with
      | Err ENOENT => letf r := renameNoReplaceAt ft src dst in match r with
          | Err _ => letf _ := roll_back (rename_back ft) done in fret false
          | Ok _ => restore_entries ft op bin l dirs' ((src, dst) :: done) end
      | _ => letf _ := roll_back (rename_back ft) done in fret false end) s2 in restored bin s0 s' (l1 ++ m :: l)%list b).
  2: { destruct a as [[| | |]|]; [exact Hgo | exact Hgo | by apply restore_stop | exact Hgo | by apply restore_stop]. }
  unfold fbind at 1. pose proof (lstat_spec ft dst s2) as Hb. destruct (lstat ft dst s2) as [o s3]. destruct Hb as [Hs3 Hb].
  assert (Hp3 := progress_keeps _ _ _ _ _ Hp2 (same_keeps _ _ _ (bt_wf _ _ _ (pg_batch _ _ _ _ Hp2)) Hs3)).
  destruct o as [n|[]]; try (by apply restore_stop). unfold fbind at 1.
  assert (Hv : view s3 (key_of dst) = None) by (rewrite (same_view _ _ Hs3); by apply view_node).
  pose proof (rename_spec ft src dst s3 (bt_wf _ _ _ (pg_batch _ _ _ _ Hp3)) Hv) as Hm. destruct (renameNoReplaceAt ft src dst s3) as [[[]|x] s4].
  - rewrite cons_middle, app_assoc. apply IH; [by eapply progress_move | done | by apply restoring_step].
  - apply restore_stop; [done | | done]. eapply progress_keeps; [exact Hp3 |]. eapply keeps_mono; [| by apply others_keeps]. intros k ->. exact Hd.
Qed.
End outcomes.

(** C33: Moving a version into the recycle bin loses nothing: whatever calls fail, only the planned files
    move, each being the file that was planned; afterwards every one is in the bin, whole, or (when the
    removal failed) back in its place, or whole in the bin at a place the failure names; and nothing
    else on the disk has changed. *)
Theorem recycling_loses_nothing ft op dest day plan s : opener_ok dest op -> wf s -> fp_bin plan <> "" ->
  let '(r, s') := performFS ft op day plan s in
  exists srcs, safe_outcome dest s s' srcs r /\ (r = FsStale /\ srcs = [] \/ Forall2 (planned op s) (fp_files plan) srcs).
Proof.
  intros Hop Hw Hb. unfold performFS. unfold fbind at 1. pose proof (open_spec ft op (fp_files plan) s) as Ho.
  destruct (open_parts ft op (fp_files plan) s) as [[es|] s1]; destruct Ho as [Hs Ho].
  2: { exists []. split; [| by left]. split_and!; [by eapply same_wf | intros; by apply same_view | by intros ? ?%elem_of_nil]. }
  rewrite (proj2 (String.eqb_neq _ _) Hb). unfold fbind.
  assert (Hsrc : Forall (fun fe => ~ dest (en_dir (snd fe))) (zip (fp_files plan) es)).
  { clear -Ho Hop. induction Ho as [|f e l k H Hf IH]; cbn; constructor; [| done]. by eapply planned_source. }
  assert (Hkeys := zip_keys _ _ _ Ho).
  assert (Hpl : Forall2 (planned op s) (fp_files plan) (map key_of es)) by by apply Forall2_fmap_r.
  assert (Hp1 : progress dest s [] s1) by (eapply progress_keeps, same_keeps, Hs; [by apply progress_start | done]).
  pose proof (oo_bin _ _ Hop s1 (bt_wf _ _ _ (pg_batch _ _ _ _ Hp1))) as Hbin. destruct (op_bin op s1) as [b s2]. cbn [snd] in Hbin.
  apply (progress_keeps _ _ _ _ _ Hp1) in Hbin. destruct b.
  - pose proof (recycle_spec ft op dest Hop (fp_bin plan) day s (zip (fp_files plan) es) [] s2 Hbin Hsrc) as Hr.
    destruct (recycle_parts ft op (fp_bin plan) day _ [] s2) as [r s3]. rewrite Hkeys in Hr. exists (map key_of es). split; [exact Hr | by right].
  - exists (map key_of es). split; [| by right]. destruct Hbin as [Hbt _ Hr]. split_and!; [by destruct Hbt | intros k Hk _; by apply Hr, not_elem_of_nil |].
    intros k (e & -> & He)%list_elem_of_fmap. left. apply Hr; [| apply not_elem_of_nil]. left.
    apply list_elem_of_lookup in He as [i Hi]. destruct (Forall2_lookup_r _ _ _ _ _ Ho Hi) as (f & _ & Hf). by eapply planned_source.
Qed.

(** C34: Moving a disc into the recycle bin is all or nothing: unless its measurement right before is the
    one that was planned nothing moves; only entries found to be the planned folder or file move, by
    their identity; afterwards every entry is in the bin, as it was, under its path below the dated
    folder, or (when something failed or an entry was not the planned one) every entry moved so far is
    back in its place, or still whole in the bin at a place the failure names; nothing else on the disk
    has changed. *)
Theorem disc_moved_whole ft op dest day measured gone plan s : opener_ok dest op -> opener_frames dest op -> wf s ->
  let '(r, s') := performDisc ft op day measured gone plan s in
  exists l srcs, l `prefix_of` dp_entries plan /\ Forall2 (named op s) l srcs /\ safe_outcome dest s s' srcs r /\
    (forall ms, r = FsDone ms -> l = dp_entries plan /\ disc_unchanged plan measured = true /\
       Forall2 (in_day op (dp_bin plan) day) (dp_entries plan) ms) /\
    (disc_unchanged plan measured = false -> (r = FsStale \/ r = FsFailed []) /\ s' = s).
Proof.
  intros Hop Hof Hw. unfold performDisc. destruct (disc_unchanged plan measured); cbn [negb].
  2: { exists [], []. split; [by eexists |]. split; [done |]. split; [apply nothing_moved; [by apply progress_start |] |]; destruct measured; try done; (split; [by intros ms |]); auto. }
  unfold fbind at 1. pose proof (oo_bin _ _ Hop s Hw) as Hb. pose proof (of_bin _ _ Hof s) as Hu. destruct (op_bin op s) as [b s1]. cbn [snd] in Hb, Hu.
  assert (Hp := progress_keeps _ _ _ _ _ (progress_start dest s Hw) Hb). destruct b; cbn [negb].
  2: { exists [], []. split; [by eexists |]. split; [done |]. split; [by apply nothing_moved |]. split; [by intros ms | done]. }
  assert (Hu1 : unmoved dest s [] s1) by (eapply same_nodes_mono; [| exact Hu]; auto).
  unfold fbind. pose proof (move_entries_spec ft op dest Hop (dp_bin plan) day s [] (dp_entries plan) [] [] s1 Hof Hp Hu1 ltac:(constructor) ltac:(constructor) ltac:(constructor)) as Hm.
  destruct (move_entries ft op _ day _ [] [] s1) as [[r|done] s2]; cbn in Hm.
  - destruct Hm as (l & srcs & H1 & H2 & H3 & H4). exists l, srcs. split_and!; try done. intros ms ->. by destruct (H4 ms).
  - destruct Hm as (Hd & Hn & Hin). destruct gone.
    + exists (dp_entries plan), (rev (map src_key done)). split_and!; try done; [by apply all_done | by intros ms [= <-]].
    + pose proof (undone_rename ft dest s done s2 Hd) as Hur. destruct (failed_after (rename_back ft) done s2) as [r s3] eqn:Ef.
      exists (dp_entries plan), (rev (map src_key done)). split_and!; try done. intros ms ->. unfold failed_after, fbind in Ef.
      by destruct (roll_back (rename_back ft) done s2).
Qed.

(** C35: A restore brings back everything or nothing is lost: when it succeeds every part is in its
    place, under its recorded name in the folder that opening its recorded path inside its mapped root
    gives, as it was in the bin; otherwise every part is still in the bin, or whole at its destination;
    nothing that was there before has changed, and a folder without the bin's marker is not touched.
    (No mapped root holds a zero byte, as no path does.) *)
Theorem restore_brings_back ft op dest bin marked moves s (disc : bool) : opener_ok dest op -> wf s -> Forall clean_root moves ->
  let '(b, s') := (if disc then restoreDiscMoves ft op bin marked moves s else restoreMoves ft op bin marked moves s) in
  restored op dest bin s s' moves b /\ (marked = false -> b = false /\ s' = s).
Proof.
  intros Hop Hw Hc. assert (Hp := progress_start dest s Hw). assert (Hr : restoring op dest bin [] []) by by split.
  unfold restoreDiscMoves, restoreMoves. destruct disc, marked.
  - pose proof (restore_entries_spec ft op dest Hop bin s [] moves [] [] s Hc Hp ltac:(constructor) Hr) as H. by destruct (restore_entries ft op bin moves [] [] s).
  - split; [| done]. exists [], [], (FsFailed []). split; [by eexists |]. split; [done |]. split; [by apply nothing_moved | by eexists].
  - pose proof (restore_parts_spec ft op dest Hop bin s [] moves [] s Hp Hr) as H. by destruct (restore_parts ft op bin moves [] s).
  - split; [| done]. exists [], [], (FsFailed []). split; [by eexists |]. split; [done |]. split; [by apply nothing_moved | by eexists].
Qed.

(** A permanent removal unlinks only the planned files, each being the file that was planned, in
    their order; it stops at the first that fails; nothing else on the disk has changed. *)
Theorem deletion_exact ft op day plan s : wf s -> fp_bin plan = "" ->
  let '(r, s') := performFS ft op day plan s in
  exists srcs gone, gone `prefix_of` srcs /\ (srcs = [] \/ Forall2 (planned op s) (fp_files plan) srcs) /\ NoDup gone /\
    (forall k, view s' k = if decide (k ∈ gone) then None else view s k) /\
    match r with FsStale => srcs = [] | FsFailed lost => lost = [] | FsDone ms => ms = [] /\ gone = srcs /\ Forall2 (planned op s) (fp_files plan) srcs end.
Proof.
  intros Hw Hb. unfold performFS. unfold fbind at 1. pose proof (open_spec ft op (fp_files plan) s) as Ho.
  destruct (open_parts ft op (fp_files plan) s) as [[es|] s1]; destruct Ho as [Hs Ho].
  2: { exists [], []. split; [done |]. split; [by left |]. split; [constructor |]. split; [intros k; by apply same_view | done]. }
  rewrite (proj2 (String.eqb_eq _ _) Hb). pose proof (delete_spec ft (zip (fp_files plan) es) s1 (same_wf _ _ Hs Hw)) as Hd.
  destruct (delete_parts ft (zip (fp_files plan) es) s1) as [r s2]. destruct Hd as (gone & Hg & Hn & _ & Hv & Hr).
  rewrite (zip_keys _ _ _ Ho) in Hg, Hr. exists (map key_of es), gone. split; [done |]. assert (Hpl : Forall2 (planned op s) (fp_files plan) (map key_of es)) by by apply Forall2_fmap_r.
  split; [by right |]. split; [done |]. split; [intros k; rewrite Hv; by rewrite (same_view _ _ Hs) |]. destruct r; naive_solver.
Qed.

(** ** Concrete removals *)

Module Fixture.
Definition no_fault : faults :=
  {| ft_fails := fun _ => false; ft_written := fun _ => 0%nat; ft_noreplace := fun _ => true; ft_links := fun _ => true; ft_device := fun d => d |}.
(** The [n]-th call fails. *)
Definition failing (n : nat) : faults :=
  {| ft_fails := Nat.eqb n; ft_written := fun _ => 2%nat; ft_noreplace := fun _ => true; ft_links := fun _ => true; ft_device := fun d => d |}.
(** No call fails and everything is on one filesystem, which knows no RENAME_NOREPLACE. *)
Definition one_device : faults :=
  {| ft_fails := fun _ => false; ft_written := fun _ => 0%nat; ft_noreplace := fun _ => false; ft_links := fun _ => false; ft_device := fun _ => 0 |}.
(** Folder 1 holds the film, folder 9 is in the bin; they are on different filesystems. *)
Definition disk0 : disk :=
  {| dk_nodes := {[ (1, "a.mkv") := File 10; (1, "b.mkv") := File 11; (1, "BDMV") := Dir 12; (9, "a.mkv") := File 20 ]};
     dk_data := {[ 10 := "first half"; 11 := "second"; 20 := "older" ]}; dk_next := 100; dk_clock := 0 |}.
Definition into_bin : opener :=
  {| op_source := fun _ rel => if String.eqb rel "Film" then Some 1 else None; op_dest := fun _ _ s => (Some 9, s); op_bin := fun s => (true, s) |}.
Definition out_of_bin : opener :=
  {| op_source := fun _ _ => Some 9; op_dest := fun _ _ s => (Some 1, s); op_bin := fun s => (true, s) |}.
Definition film (bin : string) : fsPlan :=
  {| fp_files := [ {| ff_resolved := "/media/Film/a.mkv"; ff_root := "/media"; ff_rel := "Film/a.mkv"; ff_size := 10; ff_id := 10 |};
                   {| ff_resolved := "/media/Film/b.mkv"; ff_root := "/media"; ff_rel := "Film/b.mkv"; ff_size := 6; ff_id := 11 |} ]; fp_bin := bin |}.
Definition bluray : discPlan :=
  {| dp_entries := [ {| de_local := "/media/Film/BDMV"; de_resolved := "/media/Film/BDMV"; de_root := "/media"; de_rel := "Film/BDMV"; de_dir := true; de_id := 12 |} ];
     dp_bin := "/bin"; dp_fingerprint := "f" |}.
Definition back : list restoreMove :=
  [ {| rm_from := "/bin/2026-07-01/Film/a.mkv"; rm_to := "/media/Film/c.mkv"; rm_from_rel := "2026-07-01/Film/a.mkv"; rm_to_root := "/media"; rm_to_rel := "Film/c.mkv" |} ].

Lemma wf0 : wf disk0.
Proof. intros k i. cbn. rewrite !lookup_insert_Some, lookup_singleton_Some. intros H. cbn. naive_solver lia. Qed.
Lemma same_dir_ok s P : wf s -> keeps P s s.
Proof. intros Hw. by apply same_keeps. Qed.
Lemma into_bin_ok : opener_ok (fun d => d = 9) into_bin.
Proof.
  split; cbn.
  - intros _ rel d. destruct (String.eqb rel "Film"); intros [= <-]; lia.
  - intros _ _ s Hw. split; [by apply same_dir_ok | by intros ? [= <-]].
  - intros s Hw. by apply same_dir_ok.
Qed.
Lemma out_of_bin_ok : opener_ok (fun d => d = 1) out_of_bin.
Proof.
  split; cbn.
  - intros _ _ d [= <-]. lia.
  - intros _ _ s Hw. split; [by apply same_dir_ok | by intros ? [= <-]].
  - intros s Hw. by apply same_dir_ok.
Qed.
Lemma into_bin_frames : opener_frames (fun d => d = 9) into_bin.
Proof. split; cbn; intros; reflexivity. Qed.
(** Where the entries named in an outcome are. *)
Definition names (r : perform_result) : list string := match r with FsDone ms => map entry_path ms | FsFailed l => map entry_path l | FsStale => [] end.
End Fixture.
Import Fixture.

(** The older file in the bin keeps its name; the new one takes another. *)
Theorem recycling_loses_nothing_witness :
  (let '(r, s') := performFS no_fault into_bin "2026-07-01" (film "/bin") disk0 in
   names r = ["/bin/2026-07-01/Film/a_2.mkv"; "/bin/2026-07-01/Film/b.mkv"] /\ view s' (1, "a.mkv") = None /\ view s' (9, "a_2.mkv") = Some (Content "first half")) /\
  (let '(r, s') := performFS (failing 24) into_bin "2026-07-01" (film "/bin") disk0 in
   exists srcs, safe_outcome (fun d => d = 9) disk0 s' srcs r /\ (r = FsStale /\ srcs = [] \/ Forall2 (planned into_bin disk0) (fp_files (film "/bin")) srcs)).
Proof. split; [vm_compute; by split_and! | exact (recycling_loses_nothing (failing 24) into_bin _ "2026-07-01" (film "/bin") disk0 into_bin_ok wf0 ltac:(done))]. Defined.
(** Folders cannot be linked: the disc is moved by a plain rename onto a free name. *)
Theorem disc_moved_whole_witness :
  (let '(r, s') := performDisc one_device into_bin "2026-07-01" (Measured 0 "f") true bluray disk0 in
   names r = ["/bin/2026-07-01/Film/BDMV"] /\ view s' (1, "BDMV") = None /\ view s' (9, "BDMV") = Some (Node (Dir 12))) /\
  (let '(r, s') := performDisc one_device into_bin "2026-07-01" (Measured 0 "f") true bluray disk0 in
   exists l srcs, l `prefix_of` dp_entries bluray /\ Forall2 (named into_bin disk0) l srcs /\ safe_outcome (fun d => d = 9) disk0 s' srcs r /\
    (forall ms, r = FsDone ms -> l = dp_entries bluray /\ disc_unchanged bluray (Measured 0 "f") = true /\
       Forall2 (in_day into_bin "/bin" "2026-07-01") (dp_entries bluray) ms) /\
    (disc_unchanged bluray (Measured 0 "f") = false -> (r = FsStale \/ r = FsFailed []) /\ s' = disk0)).
Proof. split; [vm_compute; by split_and! | exact (disc_moved_whole one_device into_bin _ "2026-07-01" (Measured 0 "f") true bluray disk0 into_bin_ok into_bin_frames wf0)]. Defined.

(** The last call, the removal from the bin, fails: the copy is removed again. *)
Theorem restore_brings_back_witness :
  (let '(b, s') := restoreMoves no_fault out_of_bin "/bin" true back disk0 in
   b = true /\ view s' (1, "c.mkv") = Some (Content "older") /\ view s' (9, "a.mkv") = None) /\
  (let '(b, s') := restoreMoves (failing 10) out_of_bin "/bin" true back disk0 in
   restored out_of_bin (fun d => d = 1) "/bin" disk0 s' back b /\ (true = false -> b = false /\ s' = disk0)).
Proof. split; [vm_compute; by split_and! | exact (restore_brings_back (failing 10) out_of_bin _ "/bin" true back disk0 false out_of_bin_ok wf0 ltac:(by repeat constructor))]. Defined.

(** The second removal fails: the first file is gone, the second is left. *)
Theorem deletion_exact_witness :
  (let '(r, s') := performFS (failing 5) into_bin "2026-07-01" (film "") disk0 in
   r = FsFailed [] /\ view s' (1, "a.mkv") = None /\ view s' (1, "b.mkv") = Some (Content "second")) /\
  (let '(r, s') := performFS (failing 5) into_bin "2026-07-01" (film "") disk0 in
   exists srcs gone, gone `prefix_of` srcs /\ (srcs = [] \/ Forall2 (planned into_bin disk0) (fp_files (film "")) srcs) /\ NoDup gone /\
    (forall k, view s' k = if decide (k ∈ gone) then None else view disk0 k) /\
    match r with FsStale => srcs = [] | FsFailed lost => lost = [] | FsDone ms => ms = [] /\ gone = srcs /\ Forall2 (planned into_bin disk0) (fp_files (film "")) srcs end).
Proof. split; [vm_compute; by split_and! | exact (deletion_exact (failing 5) into_bin "2026-07-01" (film "") disk0 wf0 eq_refl)]. Defined.
