(* ===== verification/ExecMethods.v ===== *)
(** * Choosing how to remove, and what may be restored (internal/executor: methods.go, fsops.go, disc.go, restore.go)

    The confinement rules of paths, the choice of a removal method with the plan it
    carries out, the checks before a restore and the emptying of the recycle bin. What
    the disk, the *arrs and the servers answer is a [plan_env]. Messages are left out:
    what refuses a method is named by [refusal]. *)

From S2P Require Import Prelude GoStd Models DiscPaths Paths Pathmap Store ExecModel ExecWorld ExecVerify ExecAssess FileSys Recycle.
Local Open Scope string_scope.
Local Open Scope Z_scope.

(** ** Paths ([path/filepath] on Unix) *)

Definition path_join_all (l : list string) : string :=
  match List.filter (fun s => negb (String.eqb s "")) l with
  | [] => ""
  | l => path_clean (join "/" l)
  end.
(** The elements of a clean path; "/" has an empty one. *)
Definition path_elements (p : string) : list string :=
  if String.eqb p "/" then [""] else split_byte "/"%char p.
Fixpoint drop_common (a b : list string) : list string * list string :=
  match a, b with
  | x :: a', y :: b' => if String.eqb x y then drop_common a' b' else (a, b)
  | _, _ => (a, b)
  end.
(** [filepath.Rel]. *)
Definition path_rel (base targ : string) : option string :=
  let b := path_clean base in
  let t := path_clean targ in
  if String.eqb t b then Some "." else
  let b := if String.eqb b "." then "" else b in
  if negb (Bool.eqb (has_prefix b "/") (has_prefix t "/")) then None else
  let '(bs, ts) := drop_common (if String.eqb b "" then [] else path_elements b) (path_elements t) in
  match bs with
  | [] => Some (join "/" ts)
  | x :: _ => if String.eqb x ".." then None else Some (join "/" (map (fun _ => "..") bs ++ ts)%list)
  end.
Definition is_abs (p : string) : bool := has_prefix p "/".
Definition contains_line_break (s : string) : bool :=
  bool_decide (is_Some (index_byte_where (fun c => Ascii.eqb c "010"%char || Ascii.eqb c "013"%char) s)).

(** ** What planning reads *)

Inductive file_mode := ModeRegular | ModeDir | ModeSymlink | ModeOther.
(** [fs.FileInfo]. *)
Record Stat := { sb_mode : file_mode; sb_size : Z; sb_dev : Z; sb_ino : Z }.
Definition same_file (a b : Stat) : bool := (sb_dev a =? sb_dev b) && (sb_ino a =? sb_ino b).
Definition is_dir (s : Stat) : bool := match sb_mode s with ModeDir => true | _ => false end.
Definition is_regular (s : Stat) : bool := match sb_mode s with ModeRegular => true | _ => false end.
Definition is_symlink (s : Stat) : bool := match sb_mode s with ModeSymlink => true | _ => false end.

Record plan_env := {
  pe_lstat : string -> answer Stat;
  pe_stat : string -> answer Stat;
  pe_eval : string -> answer string;                     (* [filepath.EvalSymlinks] *)
  pe_read_dir : string -> answer (list string);
  pe_in_root : string -> string -> option Stat;          (* [Lstat] of a path through an [os.Root] *)
  pe_tree : string -> option (list file_mode);           (* [filepath.WalkDir]; [None]: an error *)
  pe_data_dir : string;
  pe_client : Z -> bool;                                 (* a client for the media server *)
  pe_deletes_versions : Z -> bool;                       (* it is a [versionDeleter] *)
  pe_deletion_allowed : Z -> option bool;                (* [MediaDeletionAllowed] *)
  pe_arr_client : Z -> bool;
  pe_arr_bin : Z -> option string;                       (* the *arr's recycle bin; "" when it has none *)
}.

Section env.
Context `{Unicode} (pe : plan_env).

(** ** fsops.go *)

Definition isFSRoot (p : string) : bool := String.eqb (path_dir (path_clean p)) (path_clean p).
(** The longest existing prefix is resolved; [rest] does not exist yet. *)
Fixpoint resolve_from (fuel : nat) (cur : string) (rest : list string) : option string :=
  match fuel with
  | O => None
  | S fuel =>
    match pe_eval pe cur with
    | Got r => Some (path_join_all (r :: rest))
    | Failed => None
    | NotFound =>
      match pe_lstat pe cur with
      | Got _ => None                                    (* a link to a missing target *)
      | _ =>
        let parent := path_dir cur in
        if String.eqb parent cur then None else resolve_from fuel parent (path_base cur :: rest)
      end
    end
  end.
Definition resolveExisting (p : string) : option string :=
  let cur := path_clean p in
  if negb (is_abs cur) then None else resolve_from (S (String.length cur)) cur [].

Definition add_new (x : string) (l : list string) : list string := if mem x l then l else (l ++ [x])%list.
Definition resolved_root (m : PathMapping) : option string :=
  let lp := trim_space (pm_local_path m) in
  if String.eqb lp "" || negb (is_abs lp) then None else
  match pe_eval pe (path_clean lp) with
  | Got r => if isFSRoot r then None else Some r
  | _ => None
  end.
Definition resolvedRoots (mappings : list PathMapping) : list string :=
  stable_sort (fun a b => (String.length b <? String.length a)%nat)
    (foldl (fun out m => match resolved_root m with Some r => add_new r out | None => out end) [] mappings).
Definition rootOf (p : string) (roots : list string) : string := default "" (find (isWithin p) roots).

(** The columns of a library used here. *)
Record LibraryFolders := { lf_server_id : Z; lf_locations : list string }.
(** The local folder of a location, and its symlink-free form when it exists. *)
Definition local_forms (m : Mapper) (sid : Z) (loc : string) : list string :=
  match ToLocal m PathSourceServer sid loc with
  | Some local =>
    if negb (is_abs local) then [] else
    path_clean local :: match pe_eval pe (path_clean local) with Got r => [r] | _ => [] end
  | None => []
  end.
Definition libraryFolders (libs : list LibraryFolders) (m : Mapper) : list string :=
  foldl (fun out p => add_new p out) []
    (flat_map (fun l => flat_map (local_forms m (lf_server_id l)) (lf_locations l)) libs).
(** The entry of one server; a server without folders has none. *)
Definition serverLibraryFolders (libs : list LibraryFolders) (m : Mapper) (sid : Z) : list string :=
  foldl (fun out p => if isFSRoot p then out else add_new p out) []
    (flat_map (fun l => if lf_server_id l =? sid then flat_map (local_forms m sid) (lf_locations l) else []) libs).
Definition inLibraryFolder (p : string) (folders : list string) : bool := existsb (isWithin p) folders.

Definition videoExtensions : list string :=
  ["3g2"; "3gp"; "asf"; "avc"; "avi"; "avs"; "bivx"; "divx"; "dv"; "dvr-ms"; "evo"; "f4v"; "fli"; "flv";
   "m1v"; "m2p"; "m2t"; "m2ts"; "m2v"; "m4v"; "mk3d"; "mkv"; "mov"; "mp4"; "mpe"; "mpeg"; "mpg"; "mpv";
   "mts"; "mxf"; "nsv"; "nuv"; "ogm"; "ogv"; "pva"; "qt"; "rm"; "rmvb"; "svq3"; "tp"; "trp"; "ts";
   "ty"; "vdr"; "viv"; "vob"; "vp3"; "webm"; "wmv"; "wtv"; "xvid"].
Definition isVideoFile (p : string) : bool :=
  if String.eqb p "" || has_suffix p "/" then false else
  let base := path_base p in
  let ext := path_ext base in
  if (String.length ext <? 2)%nat || (String.length ext =? String.length base)%nat then false
  else mem (to_lower (sdrop 1 ext)) videoExtensions.

(** [validateRecycleBin]. *)
Inductive bin_problem :=
  | BinUnset | BinLineBreak | BinNotAbsolute | BinIsRoot | BinUnresolved | BinHoldsRoot (root : string)
  | BinHoldsMapping (folder : string) | BinHoldsLibrary (folder : string) | BinTouchesData (folder : string)
  | BinUnreadable | BinForeign (name : string).
Definition at_or_in (p folder : string) : bool := String.eqb p folder || isWithin p folder.
Definition mapped_folder (m : PathMapping) : option string :=
  let lp := trim_space (pm_local_path m) in
  if String.eqb lp "" || negb (is_abs lp) then None else Some (path_clean lp).
(** The data folder as configured, and resolved when that differs. *)
Definition data_forms : list string :=
  let d := trim_space (pe_data_dir pe) in
  if String.eqb d "" || negb (is_abs d) then [] else
  path_clean d :: match pe_eval pe d with Got r => if String.eqb r (path_clean d) then [] else [r] | _ => [] end.
Definition overlap (a b : string) : bool := String.eqb a b || isWithin a b || isWithin b a.
Definition validateRecycleBin (bin : string) (roots : list string) (mappings : list PathMapping) (libDirs : list string) :
    bin_problem + string :=
  let bin := trim_space bin in
  if String.eqb bin "" then inl BinUnset
  else if contains_line_break bin then inl BinLineBreak
  else if negb (is_abs bin) then inl BinNotAbsolute
  else if isFSRoot bin then inl BinIsRoot
  else match resolveExisting bin with
  | None => inl BinUnresolved
  | Some resolved =>
    if isFSRoot resolved then inl BinIsRoot else
    let clean := path_clean bin in
    let holds p := at_or_in p clean || at_or_in p resolved in
    match find (fun r => at_or_in r resolved) roots with
    | Some r => inl (BinHoldsRoot r)
    | None =>
      match find holds (omap mapped_folder mappings) with
      | Some lp => inl (BinHoldsMapping lp)
      | None =>
        match find holds libDirs with
        | Some d => inl (BinHoldsLibrary d)
        | None =>
          match find (fun d => overlap d clean || overlap d resolved) data_forms with
          | Some d => inl (BinTouchesData d)
          | None => inr resolved
          end
        end
      end
    end
  end.

Definition binMarkerName := ".dupearr-recycle-bin".
Definition binIgnoreFile (name : string) : bool := String.eqb name ".plexignore" || String.eqb name ".ignore".
(** [None]: an error. *)
Definition hasBinMarker (bin : string) : option bool :=
  match pe_lstat pe (path_join bin binMarkerName) with
  | NotFound => Some false
  | Failed => None
  | Got s => if is_regular s then Some true else None
  end.
Definition checkBinAdoptable (bin : string) : option bin_problem :=
  match hasBinMarker bin with
  | None => Some BinUnreadable
  | Some true => None
  | Some false =>
    match pe_read_dir pe bin with
    | NotFound => None
    | Failed => Some BinUnreadable
    | Got names => BinForeign <$> find (fun n => negb (binIgnoreFile n)) names
    end
  end.

Definition cut_slash (s : string) : string * string :=
  match index_byte s "/"%char with Some i => (stake i s, sdrop (S i) s) | None => (s, "") end.
Definition unraidShareKind (p : string) : string :=
  let p := path_clean p in
  if negb (has_prefix p "/mnt/") then "" else
  let first := fst (cut_slash (sdrop 5 p)) in
  if String.eqb first "" then ""
  else if String.eqb first "user" || String.eqb first "user0" then "user" else "disk".
Definition unraidShareMix (a b : string) : bool :=
  let ka := unraidShareKind a in
  let kb := unraidShareKind b in
  negb (String.eqb ka "") && negb (String.eqb kb "") && negb (String.eqb ka kb).

(** [regularFile]: a regular file, not a symbolic link. *)
Definition regularFile (p : string) : option Stat :=
  match pe_lstat pe p with Got s => if is_regular s then Some s else None | _ => None end.
Definition statInRoot (root rel : string) : option Stat :=
  match pe_in_root pe root rel with Some s => if is_regular s then Some s else None | None => None end.
Definition lstatInRoot (root rel : string) : option Stat :=
  match pe_in_root pe root rel with Some s => if is_dir s || is_regular s then Some s else None | None => None end.
End env.

(** ** methods.go and [discChoice] *)

Inductive refusal :=
  (* *arr *)
  | NotTracked | ArrGone | ArrDisabled | ArrKindDiffers | ArrFileUnknown | ArrSingleFile (parts : Z) | ArrDisc | NoArrClient | ArrUnreadable
  (* Plex *)
  | NoServerClient | DeletesNoVersions | PlexDisc | TooManyParts (parts : Z) | PlexShared | MediaIDUnknown | LastVersion
  | DeletionUnreadable | DeletionDisabled
  (* filesystem *)
  | DiscAsWhole | NoMapping | PathUnmapped (p : string) | LineBreak (p : string) | UnusableFile (p : string) | Unresolved (p : string)
  | OutsideRoots (p : string) | OutsideLibraries (p : string) | NotVideo (p : string) | InDisc (p : string)
  | SizeDiffers (p : string) | Unplaced (p : string) | ChangedMeanwhile (p : string) | NoPlannedFiles | BinUnusable (b : bin_problem)
  | InBin (p : string) | ShareMix (p : string)
  (* discs *)
  | DiscMember (p : string) | DiscRefused (r : reason) | DiscNotVerified | NotDiscEntry (p : string) | HoldsLibrary (p : string)
  | HoldsBin (p : string) | OtherFilesystem (p : string)
  (* any *)
  | OnlyIntoBin | UnknownMethod | NoMethodEnabled.

Inductive plan :=
  | ArrPlan (inst : Z) (info : ArrFileInfo) (bin : string)
  | PlexPlan (server : Z) (rating_key : string) (media_id : Z)
  | FilesPlan (p : fsPlan)
  | DiscPlan (p : discPlan) (freed : Z).
Record choice := { ch_method : string; ch_permanent : bool; ch_plan : plan }.

Definition maxPlexStackParts : Z := 8.

Section select.
Context `{Unicode} (pe : plan_env) (cf : config) (libs : list LibraryFolders).
Notation mapper := (cf_mapper cf).
Notation st := (cf_settings cf).

(** What a run computes once. *)
Definition run_roots : list string := resolvedRoots pe (cf_mappings cf).
Definition run_bin : bin_problem + string :=
  validateRecycleBin pe (st_recycle_bin_path st) run_roots (cf_mappings cf) (libraryFolders pe libs mapper).

Definition arrChoice (v : MediaVersion) : refusal * bool + choice :=
  let no r := inl (r, false) in
  match mv_arr v with
  | None => no NotTracked
  | Some info =>
    match cf_arrs cf !! af_instance_id info with
    | None => no ArrGone
    | Some inst =>
      if negb (ai_enabled inst) then no ArrDisabled
      else if negb (String.eqb (af_kind info) "") && negb (String.eqb (af_kind info) (ai_kind inst)) then no ArrKindDiffers
      else if af_file_id info <=? 0 then no ArrFileUnknown
      else if negb (Nat.eqb (length (mv_parts v)) 1) then no (ArrSingleFile (Z.of_nat (length (mv_parts v))))
      else if IsDisc v then no ArrDisc
      else match discMember mapper v with
      | Some p => inl (DiscMember p, true)
      | None =>
        if negb (pe_arr_client pe (af_instance_id info)) then no NoArrClient else
        match pe_arr_bin pe (af_instance_id info) with
        | None => inl (ArrUnreadable, true)
        | Some bin => inr {| ch_method := MethodArr; ch_permanent := String.eqb bin ""; ch_plan := ArrPlan (af_instance_id info) info bin |}
        end
      end
    end
  end.

Definition plexChoice (v : MediaVersion) (vr : verification) : refusal + choice :=
  let sid := mv_server_id v in
  let known := match cf_servers cf !! sid with Some s => ms_enabled s && pe_client pe sid | None => false end in
  if negb known then inl NoServerClient
  else if negb (pe_deletes_versions pe sid) then inl DeletesNoVersions
  else if IsDisc v then inl PlexDisc
  else match discMember mapper v with
  | Some p => inl (DiscMember p)
  | None =>
    if maxPlexStackParts <? Z.of_nat (length (mv_parts v)) then inl (TooManyParts (Z.of_nat (length (mv_parts v))))
    else if isShared v then inl PlexShared
    else if (mv_media_id v <=? 0) || blank (mv_rating_key v) then inl MediaIDUnknown
    else if negb (remainsInItem vr sid v) then inl LastVersion
    else match pe_deletion_allowed pe sid with
    | None => inl DeletionUnreadable
    | Some false => inl DeletionDisabled
    | Some true => inr {| ch_method := MethodPlex; ch_permanent := true; ch_plan := PlexPlan sid (trim_space (mv_rating_key v)) (mv_media_id v) |}
    end
  end.

(** One part of a filesystem plan; [size] is the verified one. *)
Definition fs_part (sid : Z) (path : string) (size : Z) : refusal + fsFile :=
  match ToLocal mapper PathSourceServer sid path with
  | None => inl (PathUnmapped path)
  | Some local =>
    if contains_line_break local then inl (LineBreak local) else
    match regularFile pe local with
    | None => inl (UnusableFile local)
    | Some fi =>
      match pe_eval pe local with
      | Failed | NotFound => inl (Unresolved local)
      | Got resolved =>
        if contains_line_break resolved then inl (LineBreak local) else
        let root := rootOf resolved run_roots in
        if String.eqb root "" then inl (OutsideRoots local)
        else if negb (inLibraryFolder resolved (serverLibraryFolders pe libs mapper sid)) then inl (OutsideLibraries local)
        else if negb (isVideoFile resolved) then inl (NotVideo local)
        else if IsDiscPath resolved then inl (InDisc resolved)
        else if negb (sb_size fi =? size) then inl (SizeDiffers local)
        else match path_rel root resolved with
        | None => inl (Unplaced resolved)
        | Some rel =>
          if negb (is_local rel) || negb (isWithin (path_join root rel) root) then inl (Unplaced resolved) else
          match statInRoot pe root rel with
          | None => inl (UnusableFile local)
          | Some id =>
            if negb (same_file id fi) then inl (ChangedMeanwhile local)
            else inr {| ff_resolved := resolved; ff_root := root; ff_rel := rel; ff_size := size; ff_id := sb_ino id |}
          end
        end
      end
    end
  end.
Fixpoint fs_parts (sid : Z) (l : list (string * Z)) : refusal + list fsFile :=
  match l with
  | [] => inr []
  | (p, size) :: l =>
    match fs_part sid p size with
    | inl r => inl r
    | inr f => match fs_parts sid l with inl r => inl r | inr fs => inr (f :: fs) end
    end
  end.
(** The sizes the verification found, where it has them. *)
Fixpoint verified_sizes (parts : list MediaPart) (found : list verifiedPart) : list (string * Z) :=
  match parts, found with
  | [], _ => []
  | p :: parts, vp :: found => (mp_path p, vp_size vp) :: verified_sizes parts found
  | p :: parts, [] => (mp_path p, mp_size p) :: verified_sizes parts []
  end.
Definition in_bin (bin : string) (f : fsFile) : option refusal :=
  if at_or_in (ff_resolved f) bin then Some (InBin (ff_resolved f))
  else if unraidShareMix (ff_resolved f) bin then Some (ShareMix (ff_resolved f)) else None.
Definition fsChoice (v : MediaVersion) (lv : option verifiedVersion) : refusal + choice :=
  if IsDisc v then inl DiscAsWhole else
  match discMember mapper v with
  | Some p => inl (DiscMember p)
  | None =>
    match run_roots with
    | [] => inl NoMapping
    | _ =>
      match fs_parts (mv_server_id v) (verified_sizes (mv_parts v) (match lv with Some l => vv_parts l | None => [] end)) with
      | inl r => inl r
      | inr [] => inl NoPlannedFiles
      | inr files =>
        if blank (st_recycle_bin_path st)
        then inr {| ch_method := MethodFilesystem; ch_permanent := true; ch_plan := FilesPlan {| fp_files := files; fp_bin := "" |} |}
        else match run_bin with
        | inl b => inl (BinUnusable b)
        | inr bin =>
          match head (omap (in_bin bin) files) with
          | Some r => inl r
          | None =>
            match checkBinAdoptable pe bin with
            | Some b => inl (BinUnusable b)
            | None => inr {| ch_method := MethodFilesystem; ch_permanent := false; ch_plan := FilesPlan {| fp_files := files; fp_bin := bin |} |}
            end
          end
        end
      end
    end
  end.

(** [nearestExisting]. *)
Fixpoint nearest_from (fuel : nat) (cur : string) : option Stat :=
  match fuel with
  | O => None
  | S fuel =>
    match pe_stat pe cur with
    | Got s => Some s
    | _ => if String.eqb (path_dir cur) cur then None else nearest_from fuel (path_dir cur)
    end
  end.
Definition nearestExisting (p : string) : option Stat := nearest_from (S (String.length (path_clean p))) (path_clean p).

Definition disc_entry (bin : string) (libDirs : list string) (e : string) : refusal + discEntry :=
  if contains_line_break e then inl (LineBreak e) else
  match pe_lstat pe e with
  | Failed | NotFound => inl (UnusableFile e)
  | Got fi =>
    if is_symlink fi || negb (is_dir fi || is_regular fi) then inl (NotDiscEntry e) else
    match pe_eval pe (path_dir e) with
    | Failed | NotFound => inl (Unresolved e)
    | Got parent =>
      let resolved := path_join parent (path_base e) in
      if contains_line_break resolved then inl (LineBreak e) else
      let root := rootOf resolved run_roots in
      if String.eqb root "" then inl (OutsideRoots e)
      else if negb (inLibraryFolder resolved libDirs) then inl (OutsideLibraries e)
      else if existsb (fun ld => at_or_in ld resolved) libDirs then inl (HoldsLibrary e)
      else if at_or_in bin resolved then inl (HoldsBin e)
      else if isWithin resolved bin then inl (InBin resolved)
      else if unraidShareMix resolved bin then inl (ShareMix resolved)
      else if (match nearestExisting bin with Some d => negb (sb_dev fi =? sb_dev d) | None => false end) then inl (OtherFilesystem resolved)
      else match path_rel root resolved with
      | None => inl (Unplaced resolved)
      | Some rel =>
        if negb (is_local rel) || negb (isWithin (path_join root rel) root) then inl (Unplaced resolved) else
        match lstatInRoot pe root rel with
        | None => inl (UnusableFile e)
        | Some id =>
          if negb (same_file id fi) || negb (Bool.eqb (is_dir id) (is_dir fi)) then inl (ChangedMeanwhile e)
          else inr {| de_local := e; de_resolved := resolved; de_root := root; de_rel := rel; de_dir := is_dir fi; de_id := sb_ino id |}
        end
      end
    end
  end.
Fixpoint disc_entries (bin : string) (libDirs : list string) (l : list string) : refusal + list discEntry :=
  match l with
  | [] => inr []
  | e :: l =>
    match disc_entry bin libDirs e with
    | inl r => inl r
    | inr d => match disc_entries bin libDirs l with inl r => inl r | inr ds => inr (d :: ds) end
    end
  end.
Definition discChoice (g : xgroup) (v : MediaVersion) (lv : option verifiedVersion) : refusal + choice :=
  match discRemovalProblem g st true with
  | Some p => inl (DiscRefused p)
  | None =>
    match lv ≫= vv_disc with
    | None => inl DiscNotVerified
    | Some d =>
      match run_roots with
      | [] => inl NoMapping
      | _ =>
        match run_bin with
        | inl b => inl (BinUnusable b)
        | inr bin =>
          match checkBinAdoptable pe bin with
          | Some b => inl (BinUnusable b)
          | None =>
            match disc_entries bin (serverLibraryFolders pe libs mapper (mv_server_id v)) (dc_owned_entries d) with
            | inl r => inl r
            | inr [] => inl NoPlannedFiles
            | inr es => inr {| ch_method := MethodFilesystem; ch_permanent := false;
                               ch_plan := DiscPlan {| dp_entries := es; dp_bin := bin; dp_fingerprint := dc_fingerprint d |} (dc_freed_bytes d) |}
            end
          end
        end
      end
    end
  end.

(** [readOnlyMethodRule]: whether the choice is refused, and whether nothing else is tried. *)
Definition readOnlyMethodRule (c : choice) : option bool :=
  if negb (ch_permanent c) then None else Some (String.eqb (ch_method c) MethodArr).

(** One method of the list, before the rule for read-only servers. *)
Definition try_method (g : xgroup) (v : MediaVersion) (lv : option verifiedVersion) (vr : verification) (m : string) : refusal * bool + choice :=
  let plain (r : refusal + choice) := match r with inl w => inl (w, false) | inr c => inr c end in
  if String.eqb m MethodArr && IsDisc v then inl (ArrDisc, false)
  else if String.eqb m MethodPlex && IsDisc v then inl (PlexDisc, false)
  else if String.eqb m MethodFilesystem && IsDisc v then plain (discChoice g v lv)
  else if String.eqb m MethodArr then arrChoice v
  else if String.eqb m MethodPlex then plain (plexChoice v vr)
  else if String.eqb m MethodFilesystem then plain (fsChoice v lv)
  else inl (UnknownMethod, false).
Definition allowed_here (g : xgroup) (v : MediaVersion) (c : refusal * bool + choice) : refusal * bool + choice :=
  if ReadOnly (ms_kind (cf_server cf (serverOf g v))) || readOnlyVersion v then
    match c with
    | inr c => match readOnlyMethodRule c with Some stop => inl (OnlyIntoBin, stop) | None => inr c end
    | inl r => inl r
    end
  else c.
Fixpoint select_from (g : xgroup) (v : MediaVersion) (lv : option verifiedVersion) (vr : verification)
    (seen : list string) (reasons : list (string * refusal)) (l : list string) : option choice * list (string * refusal) :=
  match l with
  | [] => (None, match seen with [] => [("", NoMethodEnabled)] | _ => reasons end)
  | raw :: l =>
    let m := to_lower (trim_space raw) in
    if String.eqb m "" || mem m seen then select_from g v lv vr seen reasons l else
    match allowed_here g v (try_method g v lv vr m) with
    | inr c => (Some c, reasons)
    | inl (why, stop) =>
      let reasons := (reasons ++ [(m, why)])%list in
      if stop : bool then (None, reasons) else select_from g v lv vr (m :: seen) reasons l
    end
  end.
Definition selectMethod (g : xgroup) (t : target) (vr : verification) : option choice * list (string * refusal) :=
  select_from g (tg_version t) (loser_of vr t) vr [] [] (st_deletion_methods st).
End select.

(** ** Carrying out a choice *)

(** How a DELETE of an *arr or of Plex ends. *)
Inductive delete_answer := Deleted | DeleteConflict | DeleteNotFound | DeleteError.

(** [stillOnDisk], and [waitGone] over the looks it takes. *)
Definition stillOnDisk (look : string -> answer Stat) (lv : option verifiedVersion) : list string :=
  match lv with
  | None => []
  | Some l => List.filter (fun p => negb (String.eqb p "") && match look p with NotFound => false | _ => true end) (map vp_local (vv_parts l))
  end.
Fixpoint waitGone (looks : list (string -> answer Stat)) (last : string -> answer Stat) (lv : option verifiedVersion) : list string :=
  match looks with
  | [] => stillOnDisk last lv
  | look :: looks => match stillOnDisk look lv with [] => [] | _ => waitGone looks last lv end
  end.

Section carry_out.
Context (message : choice -> list entry -> string).     (* the texts of results *)

Definition performArr (c : choice) (recheck : check) (answered : delete_answer) (left : list string) : performResult :=
  match recheck with
  | Wait _ _ => PFailed "" false
  | Skip => PStale false
  | Pass =>
    match answered with
    | DeleteConflict => PFailed "" true
    | DeleteNotFound => PStale false
    | DeleteError => PFailed "" false
    | Deleted => match left with [] => PDone (message c []) "" | _ => PFailed "" false end
    end
  end.
Definition performPlex (c : choice) (recheck : check) (answered : delete_answer) (left : list string) : performResult :=
  match recheck with
  | Wait _ _ => PFailed "" false
  | Skip => PStale true
  | Pass =>
    match answered with
    | DeleteNotFound => PStale false
    | DeleteConflict | DeleteError => PFailed "" false
    | Deleted => match left with [] => PDone (message c []) "" | _ => PFailed "" false end
    end
  end.
(** The outcome of a move: paths are recorded one per line. *)
Definition line_feed : string := String "010" "".
Definition moved_result (c : choice) (r : perform_result) : performResult :=
  match r with
  | FsStale => PStale false
  | FsFailed lost => PFailed (join line_feed (map entry_path lost)) false
  | FsDone ms => PDone (message c ms) (join line_feed (map entry_path ms))
  end.
Definition perform (ft : faults) (op : opener) (day : string) (c : choice) (recheck : check) (answered : delete_answer) (left : list string)
    (measured : measurement) (gone : bool) : F performResult :=
  match ch_plan c with
  | ArrPlan _ _ _ => fret (performArr c recheck answered left)
  | PlexPlan _ _ _ => fret (performPlex c recheck answered left)
  | FilesPlan p => letf r := performFS ft op day p in fret (moved_result c r)
  | DiscPlan p _ => letf r := performDisc ft op day measured gone p in fret (moved_result c r)
  end.
End carry_out.

(** ** restore.go *)

(** [Format(recycleDayLayout)] of the years 0 to 9999. *)
Definition day_digit (d : Z) : ascii := of_byte (48 + d mod 10).
Definition format_day (ymd : Z * Z * Z) : string :=
  let '(y, m, d) := ymd in
  String (day_digit (y / 1000)) (String (day_digit (y / 100)) (String (day_digit (y / 10)) (String (day_digit y) (String "-"
  (String (day_digit (m / 10)) (String (day_digit m) (String "-" (String (day_digit (d / 10)) (String (day_digit d) ""))))))))).
Definition reRecycleDay : re :=
  seq_of [RBegin; times 4 digit; one "-"; times 2 digit; one "-"; times 2 digit; REnd].
Definition isRecycledPart `{Unicode} (bin p : string) : bool :=
  match path_rel bin p with
  | None => false
  | Some rel =>
    is_local rel &&
    let '(day, rest) := cut_slash rel in
    negb (String.eqb rest "") && re_match reRecycleDay day && isVideoFile p
  end.

Section restore.
Context `{Unicode} (pe : plan_env) (cf : config) (libs : list LibraryFolders).
Notation mapper := (cf_mapper cf).

(** [isDiscAction]; [g] is the stored group, if it still exists. *)
Definition isDiscAction (a : Action) (g : option xgroup) : bool :=
  has_prefix (ac_version_key a) DiscKeyPrefix || existsb IsImagePath (ac_paths a) ||
  match g with
  | Some g => existsb (fun v => String.eqb (mv_key v) (ac_version_key a) && IsDisc v) (versions_of g)
  | None => false
  end ||
  (negb (Nat.eqb (length (ac_paths a)) 0) && negb (existsb isVideoFile (ac_paths a))).

Definition discRestoreTarget (orig : string) (dir : bool) (discRoots : list string) : bool :=
  let orig := path_clean orig in
  let base := path_base orig in
  existsb (fun r =>
    if String.eqb orig r && dir then bool_decide (is_Some (IsSetFolderName base)) || has_suffix (to_lower base) ".dvdmedia"
    else if String.eqb orig r then IsImagePath base
    else String.eqb (path_dir orig) r && IsDiscEntryName base && negb (IsImagePath base)) discRoots.
Definition holdsDiscEntry (dir : string) : bool :=
  match pe_read_dir pe dir with Got names => existsb IsDiscEntryName names | _ => false end.
Definition maxRestoredDiscEntries : Z := 200000.
Definition plainTree (dir : string) : bool :=
  match pe_tree pe dir with
  | None => false
  | Some modes => (Z.of_nat (length modes) <=? maxRestoredDiscEntries) &&
      forallb (fun m => match m with ModeDir | ModeRegular => true | _ => false end) modes
  end.

Inductive restore_problem :=
  | NotCompleted | OtherMethod | NotInBin | CountDiffers | RestoreBin (b : bin_problem) | NoMarker | ServerUnknown
  | PartMissing (p : string) | PartOutside (p : string) | PartNotRecycled (p : string) | PartUnmapped (p : string)
  | Occupied (p : string) | DestUnknown (p : string) | DestOutsideRoots (p : string) | DestNotVideo (p : string)
  | DestOutsideLibraries (p : string) | DestShareMix | DestUnplaced (p : string)
  | NotOfDisc (p : string) | TreeChanged (p : string) | NoStructure (p : string) | NothingToRestore | MoveFailed.

(** The mapped folder an entry came from, longest first. *)
Definition disc_origin (roots discRoots : list string) (dir : bool) (inner : string) : option (string * string) :=
  find (fun ro => isWithin (snd ro) (fst ro) && discRestoreTarget (snd ro) dir discRoots) (map (fun root => (root, path_join root inner)) roots).
Definition disc_move (bin : string) (roots discRoots libDirs : list string) (rp : string) : restore_problem + restoreMove :=
  let rp := path_clean (trim_space rp) in
  match pe_lstat pe rp with
  | Failed | NotFound => inl (PartMissing rp)
  | Got fi =>
    if is_symlink fi || negb (is_dir fi || is_regular fi) then inl (PartMissing rp) else
    match pe_eval pe (path_dir rp) with
    | Failed | NotFound => inl (PartMissing rp)
    | Got parent =>
      let resolved := path_join parent (path_base rp) in
      match path_rel bin resolved with
      | None => inl (PartOutside rp)
      | Some rel =>
        if negb (is_local rel) then inl (PartOutside rp) else
        let '(day, inner) := cut_slash rel in
        if String.eqb inner "" || negb (re_match reRecycleDay day) then inl (PartNotRecycled rp) else
        match disc_origin roots discRoots (is_dir fi) inner with
        | None => inl (NotOfDisc rp)
        | Some (root, orig) =>
          match pe_lstat pe orig with
          | Got _ => inl (Occupied orig)
          | Failed => inl (DestUnknown orig)
          | NotFound =>
            if is_dir fi && negb (plainTree resolved) then inl (TreeChanged rp)
            else if is_dir fi && mem (path_clean orig) discRoots && negb (holdsDiscEntry resolved) then inl (NoStructure rp)
            else if negb (inLibraryFolder orig libDirs) then inl (DestOutsideLibraries orig)
            else if unraidShareMix resolved orig then inl DestShareMix
            else inr {| rm_from := resolved; rm_to := orig; rm_from_rel := rel; rm_to_root := root; rm_to_rel := inner |}
          end
        end
      end
    end
  end.
Fixpoint all_moves {A} (f : A -> restore_problem + restoreMove) (l : list A) : restore_problem + list restoreMove :=
  match l with
  | [] => inr []
  | x :: l =>
    match f x with
    | inl p => inl p
    | inr m => match all_moves f l with inl p => inl p | inr ms => inr (m :: ms) end
    end
  end.
Definition discRestoreMoves (a : Action) (bin : string) (roots : list string) (serverID : Z) (libDirs : list string) :
    restore_problem + list restoreMove :=
  match omap (fun p => match ToLocal mapper PathSourceServer serverID p with
                       | Some l => if is_abs l then Some (path_clean l) else None
                       | None => None end) (ac_paths a) with
  | [] => inl (PartUnmapped "")
  | discRoots => all_moves (disc_move bin roots discRoots libDirs) (split_byte "010"%char (ac_recycle_path a))
  end.

(** One part of the restore of files. *)
Definition file_move (bin : string) (roots : list string) (serverID : Z) (libDirs : list string) (part : string * string) :
    restore_problem + restoreMove :=
  let rp := path_clean (trim_space (fst part)) in
  match regularFile pe rp with
  | None => inl (PartMissing rp)
  | Some _ =>
    match pe_eval pe rp with
    | Failed | NotFound => inl (PartOutside rp)
    | Got resolved =>
      if negb (isWithin resolved bin) then inl (PartOutside rp)
      else if negb (isRecycledPart bin resolved) then inl (PartNotRecycled rp)
      else match ToLocal mapper PathSourceServer serverID (snd part) with
      | None => inl (PartUnmapped (snd part))
      | Some orig =>
        match pe_lstat pe orig with
        | Got _ => inl (Occupied orig)
        | Failed => inl (DestUnknown orig)
        | NotFound =>
          match resolveExisting pe orig with
          | None => inl (DestUnknown orig)
          | Some dst =>
            let root := rootOf dst roots in
            if String.eqb root "" then inl (DestOutsideRoots orig)
            else if negb (isVideoFile dst) then inl (DestNotVideo orig)
            else if negb (inLibraryFolder dst libDirs) then inl (DestOutsideLibraries orig)
            else if unraidShareMix resolved dst then inl DestShareMix
            else match path_rel bin resolved, path_rel root dst with
            | Some fromRel, Some toRel =>
              if negb (is_local fromRel) || negb (is_local toRel) then inl (DestUnplaced dst)
              else inr {| rm_from := resolved; rm_to := dst; rm_from_rel := fromRel; rm_to_root := root; rm_to_rel := toRel |}
            | _, _ => inl (DestUnplaced dst)
            end
          end
        end
      end
    end
  end.

(** [serverFromKey]. *)
Definition serverFromKey (key : string) : Z :=
  match split_byte ":"%char key with
  | [_; id; _] => match parse_int id with Some n => if n <=? 0 then 0 else n | None => 0 end
  | _ => 0
  end.
(** The server the restored version belongs to: its group's, its own there, or its key's. *)
Definition restore_server (a : Action) (g : option xgroup) : Z :=
  let sid := match g with
    | Some g => foldl (fun sid v => if String.eqb (mv_key v) (ac_version_key a) then serverOf g v else sid) (dg_server_id (xg_group g)) (versions_of g)
    | None => 0
    end in
  if sid =? 0 then serverFromKey (ac_version_key a) else sid.

(** [Restore] up to the moves: the bin, whether a disc is restored, and its parts. *)
Definition plan_restore (a : Action) (g : option xgroup) : restore_problem + (string * bool * list restoreMove) :=
  if negb (String.eqb (ac_status a) ActionSucceeded) || ac_dry_run a then inl NotCompleted
  else if negb (String.eqb (ac_method a) MethodFilesystem) then inl OtherMethod
  else if blank (ac_recycle_path a) then inl NotInBin
  else
    let disc := isDiscAction a g in
    let recycled := split_byte "010"%char (ac_recycle_path a) in
    if negb disc && negb (Nat.eqb (length recycled) (length (ac_paths a))) then inl CountDiffers else
    let roots := resolvedRoots pe (cf_mappings cf) in
    match validateRecycleBin pe (st_recycle_bin_path (cf_settings cf)) roots (cf_mappings cf) (libraryFolders pe libs mapper) with
    | inl b => inl (RestoreBin b)
    | inr bin =>
      match hasBinMarker pe bin with
      | None | Some false => inl NoMarker
      | Some true =>
        let sid := restore_server a g in
        if sid =? 0 then inl ServerUnknown else
        let libDirs := serverLibraryFolders pe libs mapper sid in
        match (if disc then discRestoreMoves a bin roots sid libDirs
               else all_moves (file_move bin roots sid libDirs) (combine recycled (ac_paths a))) with
        | inl p => inl p
        | inr moves => inr (bin, disc, moves)
        end
      end
    end.

(** [afterRestore]: the group is ignored (unless it is gone, already ignored, or the write
    fails) and the restore recorded on the removal. *)
Definition restoredIgnoreReason : list status_item :=
  [SIText "Restored by you — ignored so it is not removed again (unignore to re-evaluate)"].
Definition ignore_from : list string :=
  [GroupPending; GroupReview; GroupDeferred; GroupProtected; GroupQueued; GroupResolved; GroupFailed].
Definition ignoreRestored (now : time) (fails : bool) (id : Z) (s : store) : store * bool :=
  if fails then (s, false) else
  match UpdateStatusIf now id ignore_from GroupIgnored restoredIgnoreReason s with
  | inl _ => (s, false)
  | inr r => r
  end.
Definition with_restored (message : string) (a : Action) : Action := {|
  ac_id := ac_id a; ac_group_id := ac_group_id a; ac_group_file_id := ac_group_file_id a;
  ac_version_key := ac_version_key a; ac_title := ac_title a; ac_paths := ac_paths a; ac_size := ac_size a;
  ac_method := ac_method a; ac_status := ac_status a; ac_dry_run := ac_dry_run a; ac_message := message;
  ac_recycle_path := ""; ac_permanent := ac_permanent a; ac_created_at := ac_created_at a;
  ac_started_at := ac_started_at a; ac_finished_at := ac_finished_at a |}.
Definition afterRestore (now : time) (message : string) (ignore_fails update_fails : bool) (a : Action) (g : option xgroup) (s : store) :
    store * bool :=
  let '(s, ignored) := match g with Some g => ignoreRestored now ignore_fails (xg_id g) s | None => (s, false) end in
  (if update_fails then s else fst (UpdateAction now (with_restored message a) s), ignored).

(** ** Emptying the bin *)

(** [time.ParseInLocation] of a date: year, month, day of a real day. *)
Definition is_leap (y : Z) : bool := (y mod 4 =? 0) && (negb (y mod 100 =? 0) || (y mod 400 =? 0)).
Definition days_in (y m : Z) : Z :=
  if m =? 2 then (if is_leap y then 29 else 28) else if mem m [4; 6; 9; 11] then 30 else 31.
Definition parse_day (s : string) : option (Z * Z * Z) :=
  if negb (re_match reRecycleDay s) then None else
  match parse_int (stake 4 s), parse_int (stake 2 (sdrop 5 s)), parse_int (sdrop 8 s) with
  | Some y, Some m, Some d => if in_range 1 12 m && in_range 1 (days_in y m) d then Some (y, m, d) else None
  | _, _, _ => None
  end.
(** Days since 0000-03-01, in the Gregorian calendar. *)
Definition day_number (ymd : Z * Z * Z) : Z :=
  let '(y, m, d) := ymd in
  let y := if m <=? 2 then y - 1 else y in
  let m := if m <=? 2 then m + 9 else m - 3 in
  365 * y + y / 4 - y / 100 + y / 400 + (153 * m + 2) / 5 + d - 1.

(** [CleanRecycleBin]: [today] is the local date, [opened] what the bin opened through its
    [os.Root] shows (its marker, its entries, [Lstat] of an entry), [removes] whether the
    removal of an entry succeeds. What is removed, in order. *)
Record opened_bin := { ob_marked : option bool; ob_names : option (list string); ob_lstat : string -> answer Stat }.
Definition expired (today : Z * Z * Z) (days : Z) (name : string) : bool :=
  match parse_day name with Some d => day_number d <? day_number today - days | None => false end.
Definition clean_entry (b : opened_bin) (today : Z * Z * Z) (days : Z) (name : string) : bool :=
  expired today days name && match ob_lstat b name with Got s => is_dir s | _ => false end.
Definition CleanRecycleBin (days : Z) (today : Z * Z * Z) (open : string -> answer opened_bin) (removes : string -> bool) :
    restore_problem + list string :=
  if blank (st_recycle_bin_path (cf_settings cf)) || (days <=? 0) then inr [] else
  match validateRecycleBin pe (st_recycle_bin_path (cf_settings cf)) (resolvedRoots pe (cf_mappings cf)) (cf_mappings cf)
          (libraryFolders pe libs mapper) with
  | inl b => inl (RestoreBin b)
  | inr bin =>
    match hasBinMarker pe bin with
    | None => inl NoMarker
    | Some false => inr []
    | Some true =>
      match open bin with
      | NotFound => inr []
      | Failed => inl (PartMissing bin)
      | Got b =>
        match ob_marked b, ob_names b with
        | Some true, Some names => inr (List.filter (fun n => clean_entry b today days n && removes n) names)
        | Some true, None => inl (PartMissing bin)
        | _, _ => inl NoMarker
        end
      end
    end
  end.
End restore.

(** ** What the run is told *)

(** The choice as [ExecAssess] knows it, and the methods with this selection. *)
Definition summary (c : choice) : methodChoice := {|
  mc_method := ch_method c; mc_permanent := ch_permanent c;
  mc_arr := match ch_plan c with ArrPlan inst info _ => Some (inst, info) | _ => None end;
  mc_freed := match ch_plan c with DiscPlan _ freed => Some freed | _ => None end |}.
Definition selecting `{Unicode} (env : nat -> plan_env) (libs : list LibraryFolders) (rest : Methods) : Methods := {|
  md_select := fun n cf g t vr => summary <$> fst (selectMethod (env n) cf libs g t vr);
  md_perform := @md_perform rest; md_notes := @md_notes rest |}.
