(* ===== verification/MainFeature.v ===== *)
(** * The main feature of a disc (internal/disc/mainfeature.go, lang.go, parts of inspect.go)

    Which playlist of a Blu-ray is the film, which others are cuts of their own, and
    how a playlist, a clip or a DVD title set becomes a [Feature]. A candidate of the
    source is a pointer; here the main one is an index into the kept playlists. A map
    used as a set of strings is a list. *)

From S2P Require Import Prelude GoStd Models Bytes Bdmv Dvd.
Local Open Scope string_scope.
Local Open Scope Z_scope.

(** ** Languages (lang.go) *)

Definition iso6392TtoB : list (string * string) :=
  [("bod", "tib"); ("ces", "cze"); ("cym", "wel"); ("deu", "ger"); ("ell", "gre"); ("eus", "baq"); ("fas", "per");
   ("fra", "fre"); ("hye", "arm"); ("isl", "ice"); ("kat", "geo"); ("mkd", "mac"); ("mri", "mao");
   ("msa", "may"); ("mya", "bur"); ("nld", "dut"); ("ron", "rum"); ("slk", "slo"); ("sqi", "alb");
   ("zho", "chi")].
Definition iso6391 : list (string * string) :=
  [("aa", "aar"); ("ab", "abk"); ("ae", "ave"); ("af", "afr"); ("ak", "aka"); ("am", "amh"); ("an", "arg");
   ("ar", "ara"); ("as", "asm"); ("av", "ava"); ("ay", "aym"); ("az", "aze"); ("ba", "bak"); ("be", "bel");
   ("bg", "bul"); ("bh", "bih"); ("bi", "bis"); ("bm", "bam"); ("bn", "ben"); ("bo", "tib"); ("br", "bre");
   ("bs", "bos"); ("ca", "cat"); ("ce", "che"); ("ch", "cha"); ("co", "cos"); ("cr", "cre"); ("cs", "cze");
   ("cu", "chu"); ("cv", "chv"); ("cy", "wel"); ("da", "dan"); ("de", "ger"); ("dv", "div"); ("dz", "dzo");
   ("ee", "ewe"); ("el", "gre"); ("en", "eng"); ("eo", "epo"); ("es", "spa"); ("et", "est"); ("eu", "baq");
   ("fa", "per"); ("ff", "ful"); ("fi", "fin"); ("fj", "fij"); ("fo", "fao"); ("fr", "fre"); ("fy", "fry");
   ("ga", "gle"); ("gd", "gla"); ("gl", "glg"); ("gn", "grn"); ("gu", "guj"); ("gv", "glv"); ("ha", "hau");
   ("he", "heb"); ("hi", "hin"); ("ho", "hmo"); ("hr", "hrv"); ("ht", "hat"); ("hu", "hun"); ("hy", "arm");
   ("hz", "her"); ("ia", "ina"); ("id", "ind"); ("ie", "ile"); ("ig", "ibo"); ("ii", "iii"); ("ik", "ipk");
   ("io", "ido"); ("is", "ice"); ("it", "ita"); ("iu", "iku"); ("ja", "jpn"); ("jv", "jav"); ("ka", "geo");
   ("kg", "kon"); ("ki", "kik"); ("kj", "kua"); ("kk", "kaz"); ("kl", "kal"); ("km", "khm"); ("kn", "kan");
   ("ko", "kor"); ("kr", "kau"); ("ks", "kas"); ("ku", "kur"); ("kv", "kom"); ("kw", "cor"); ("ky", "kir");
   ("la", "lat"); ("lb", "ltz"); ("lg", "lug"); ("li", "lim"); ("ln", "lin"); ("lo", "lao"); ("lt", "lit");
   ("lu", "lub"); ("lv", "lav"); ("mg", "mlg"); ("mh", "mah"); ("mi", "mao"); ("mk", "mac"); ("ml", "mal");
   ("mn", "mon"); ("mr", "mar"); ("ms", "may"); ("mt", "mlt"); ("my", "bur"); ("na", "nau"); ("nb", "nob");
   ("nd", "nde"); ("ne", "nep"); ("ng", "ndo"); ("nl", "dut"); ("nn", "nno"); ("no", "nor"); ("nr", "nbl");
   ("nv", "nav"); ("ny", "nya"); ("oc", "oci"); ("oj", "oji"); ("om", "orm"); ("or", "ori"); ("os", "oss");
   ("pa", "pan"); ("pi", "pli"); ("pl", "pol"); ("ps", "pus"); ("pt", "por"); ("qu", "que"); ("rm", "roh");
   ("rn", "run"); ("ro", "rum"); ("ru", "rus"); ("rw", "kin"); ("sa", "san"); ("sc", "srd"); ("sd", "snd");
   ("se", "sme"); ("sg", "sag"); ("si", "sin"); ("sk", "slo"); ("sl", "slv"); ("sm", "smo"); ("sn", "sna");
   ("so", "som"); ("sq", "alb"); ("sr", "srp"); ("ss", "ssw"); ("st", "sot"); ("su", "sun"); ("sv", "swe");
   ("sw", "swa"); ("ta", "tam"); ("te", "tel"); ("tg", "tgk"); ("th", "tha"); ("ti", "tir"); ("tk", "tuk");
   ("tl", "tgl"); ("tn", "tsn"); ("to", "ton"); ("tr", "tur"); ("ts", "tso"); ("tt", "tat"); ("tw", "twi");
   ("ty", "tah"); ("ug", "uig"); ("uk", "ukr"); ("ur", "urd"); ("uz", "uzb"); ("ve", "ven"); ("vi", "vie");
   ("vo", "vol"); ("wa", "wln"); ("wo", "wol"); ("xh", "xho"); ("yi", "yid"); ("yo", "yor"); ("za", "zha");
   ("zh", "chi"); ("zu", "zul"); ("iw", "heb"); ("in", "ind"); ("ji", "yid"); ("jw", "jav")].
Definition assoc (l : list (string * string)) (k : string) : option string :=
  snd <$> List.find (fun kv => String.eqb (fst kv) k) l.

Section main_feature.
Context `{Unicode}.

Definition langCode (raw : string) : string :=
  let s := to_lower (trim_right_where (fun c => Ascii.eqb c (of_byte 0) || Ascii.eqb c " ") raw) in
  if negb (forallb (fun c => in_range 97 122 (byte_of c)) (String.list_ascii_of_string s)) then "" else
  if (String.length s =? 2)%nat then default "" (assoc iso6391 s)
  else if (String.length s =? 3)%nat then
    if mem s ["und"; "zxx"] then "" else default s (assoc iso6392TtoB s)
  else "".

(** ** Candidates *)

Definition thirtyMinuteTicks : Z := 30 * 60 * 45000.

Record candidate := {
  ca_id : string;
  ca_rel : string;
  ca_pl : mplsFile;
  ca_ticks : Z;
}.
Definition newCandidate (id rel : string) (pl : mplsFile) : candidate :=
  {| ca_id := id; ca_rel := rel; ca_pl := pl; ca_ticks := foldl (fun n it => n + ticks it) 0 (mf_items pl) |}.

Definition attrSTN (c : candidate) : option mplsSTN :=
  match mf_attr (ca_pl c) with Some a => mi_stn <$> mf_items (ca_pl c) !! a | None => None end.

(** A clip segment: clip, IN, OUT. *)
Definition segment (it : mplsItem) : string * Z * Z := (mi_clip it, mi_in it, mi_out it).
Fixpoint repeats (limit : Z) (counts : gmap (string * Z * Z) Z) (items : list mplsItem) : bool :=
  match items with
  | [] => false
  | it :: items =>
    let n := default 0 (counts !! segment it) + 1 in
    if limit <? n then true else repeats limit (<[segment it := n]> counts) items
  end.
Definition hasRepeats (pl : mplsFile) (limit : Z) : bool := repeats limit ∅ (mf_items pl).

Definition samePlaylist (a b : mplsFile) : bool :=
  if negb (length (mf_items a) =? length (mf_items b))%nat then false
  else forallb (fun xy => bool_decide (segment (fst xy) = segment (snd xy))) (combine (mf_items a) (mf_items b)).

(** Format class and codec class of the video streams. *)
Definition videoClass (s : option mplsSTN) : Z * Z :=
  match s with
  | None => (-1, 0)
  | Some s => foldl (fun '(format, codec) v =>
      let codec := if (4 <? ms_coding v) && (codec <? 1) then 1 else codec in
      let codec := if ms_coding v =? codingHEVC then 2 else codec in
      (if (ms_format v =? 4) || (ms_format v =? 6) then (if format <? 1 then 1 else format)
       else if ms_format v =? 8 then 2 else format, codec)) (-1, 0) (sn_video s)
  end.

Definition hasHDAudio (s : option mplsSTN) : bool :=
  match s with
  | None => false
  | Some s => existsb (fun a => coded_in [codingLPCM; codingTrueHD; codingDTSHDMA; codingDTSHDHRA] (ms_coding a)) (sn_audio s)
  end.

Definition streamScore (pl : mplsFile) : Z :=
  let '(audio, pg) := foldl (fun '(audio, pg) it =>
    (Z.max audio (sn_audio_n (mi_stn it)), Z.max pg (sn_pg_n (mi_stn it)))) (0, 0) (mf_items pl) in
  audio * 2 + pg.

(** Which of two playlists is the better main title: positive when it is the second. *)
Definition guessMain (known : list string) (p1 p2 : candidate) : Z :=
  let d1 := ca_ticks p1 in
  let d2 := ca_ticks p2 in
  let shorter := if d1 <? d2 then 1 else if d2 <? d1 then -1 else streamScore (ca_pl p2) - streamScore (ca_pl p1) in
  if (thirtyMinuteTicks <? d1) && (thirtyMinuteTicks <? d2) then
    let c1 := mf_chapters (ca_pl p1) in
    let c2 := mf_chapters (ca_pl p2) in
    let diff := c2 - c1 in
    if ((c1 <? 2) || (c2 <? 2)) && ((diff <? -5) || (5 <? diff)) then diff else
    let '(f1, k1) := videoClass (attrSTN p1) in
    let '(f2, k2) := videoClass (attrSTN p2) in
    if negb (f1 =? f2) then f2 - f1 else
    if negb (k1 =? k2) then k2 - k1 else
    let a := Z.b2z (hasHDAudio (attrSTN p2)) - Z.b2z (hasHDAudio (attrSTN p1)) in
    if negb (a =? 0) then a else
    let k := Z.b2z (mem (ca_id p2) known) - Z.b2z (mem (ca_id p1) known) in
    if (0 <? Z.of_nat (length known)) && negb (k =? 0) then k else shorter
  else shorter.

Definition known_id (k : string) : string :=
  let k := trim_space k in
  let n := (String.length k - 5)%nat in
  if (5 <? String.length k)%nat && equal_fold (sdrop n k) ".mpls" then stake n k else k.

Record selection := {
  se_by_ticks : gmap Z (list candidate);
  se_kept : list candidate;
  se_best : option nat;           (* an index into the kept ones *)
}.
Definition select_step (known : list string) (s : selection) (c : candidate) : selection :=
  if hasRepeats (ca_pl c) 2 then s else
  let same := default [] (se_by_ticks s !! ca_ticks c) in
  if existsb (fun k => samePlaylist (ca_pl k) (ca_pl c)) same then s else
  let better := match se_best s with
    | None => true
    | Some b => match se_kept s !! b with Some best => guessMain known c best <? 0 | None => false end end in
  {| se_by_ticks := <[ca_ticks c := (same ++ [c])%list]> (se_by_ticks s); se_kept := (se_kept s ++ [c])%list;
     se_best := if better then Some (length (se_kept s)) else se_best s |}.
Definition selectMain (cands : list candidate) (knownIDs : list string) : option nat * list candidate :=
  let s := foldl (select_step (map known_id knownIDs)) {| se_by_ticks := ∅; se_kept := []; se_best := None |} cands in
  (se_best s, se_kept s).

Definition clipKey (pl : mplsFile) : string :=
  join "," (sort_strings (dedup (map (fun it => to_upper (mi_clip it)) (mf_items pl)))).

(** The loop over the kept playlists, longest first. *)
Fixpoint alternates (main limit : nat) (l : list (nat * candidate)) (seen : list string) (n : nat) : list candidate :=
  match l with
  | [] => []
  | (i, c) :: l =>
    if (i =? main)%nat || (ca_ticks c <=? thirtyMinuteTicks) then alternates main limit l seen n else
    let k := clipKey (ca_pl c) in
    if mem k seen then alternates main limit l seen n else
    c :: if (S n =? limit)%nat then [] else alternates main limit l (k :: seen) (S n)
  end.
Definition alternateCandidates (main : nat) (kept : list candidate) (limit : nat) : list candidate :=
  alternates main limit
    (stable_sort (fun x y => ca_ticks (snd y) <? ca_ticks (snd x)) (combine (seq 0 (length kept)) kept))
    (match kept !! main with Some m => [clipKey (ca_pl m)] | None => [] end) 0.

(** ** Features *)

Record Feature := {
  ft_playlist : string;
  ft_duration_ms : Z;
  ft_width : Z;
  ft_height : Z;
  ft_video_codec : string;
  ft_frame_rate : string;
  ft_bit_depth : Z;
  ft_dynamic_range : string;
  ft_dv_profile : Z;
  ft_audio : list AudioTrack;
  ft_subtitles : list SubtitleTrack;
  ft_chapters : Z;
  ft_clips : Z;
  ft_clip_ids : list string;
  ft_bytes : Z;
}.

Definition bdVideoSize (format : Z) : Z * Z :=
  if (format =? 1) || (format =? 3) then (720, 480)
  else if (format =? 2) || (format =? 7) then (720, 576)
  else if (format =? 4) || (format =? 6) then (1920, 1080)
  else if format =? 5 then (1280, 720)
  else if format =? 8 then (3840, 2160)
  else (0, 0).
Definition bdFrameRate (rate : Z) : string :=
  if rate =? 1 then "23.976" else if rate =? 2 then "24" else if rate =? 3 then "25" else if rate =? 4 then "29.97"
  else if rate =? 6 then "50" else if rate =? 7 then "59.94" else "".

Definition with_video (f : Feature) (codec : string) (depth width height : Z) (rate range : string) (profile : Z) :
    Feature := {|
  ft_playlist := ft_playlist f; ft_duration_ms := ft_duration_ms f; ft_width := width; ft_height := height;
  ft_video_codec := codec; ft_frame_rate := rate; ft_bit_depth := depth; ft_dynamic_range := range;
  ft_dv_profile := profile; ft_audio := ft_audio f; ft_subtitles := ft_subtitles f; ft_chapters := ft_chapters f;
  ft_clips := ft_clips f; ft_clip_ids := ft_clip_ids f; ft_bytes := ft_bytes f |}.
Definition with_tracks (f : Feature) (audio : list AudioTrack) (subtitles : list SubtitleTrack) : Feature := {|
  ft_playlist := ft_playlist f; ft_duration_ms := ft_duration_ms f; ft_width := ft_width f; ft_height := ft_height f;
  ft_video_codec := ft_video_codec f; ft_frame_rate := ft_frame_rate f; ft_bit_depth := ft_bit_depth f;
  ft_dynamic_range := ft_dynamic_range f; ft_dv_profile := ft_dv_profile f; ft_audio := audio;
  ft_subtitles := subtitles; ft_chapters := ft_chapters f; ft_clips := ft_clips f; ft_clip_ids := ft_clip_ids f;
  ft_bytes := ft_bytes f |}.

(** The codec and bit depth of a video coding type. *)
Definition video_codec (coding : Z) : option (string * Z) :=
  if coding =? codingHEVC then Some ("hevc", 10)
  else if (coding =? codingH264) || (coding =? codingMVC) then Some ("h264", 8)
  else if coding =? codingVC1 then Some ("vc1", 8)
  else if coding =? codingMPEG2Video then Some ("mpeg2", 8)
  else if coding =? codingMPEG1Video then Some ("other", 8)
  else None.
Definition setVideo (coding format rate : Z) (f : Feature) : Feature :=
  match video_codec coding with
  | Some (codec, depth) =>
    let '(w, h) := bdVideoSize format in
    with_video f codec depth w h (bdFrameRate rate) (ft_dynamic_range f) (ft_dv_profile f)
  | None => f
  end.
Definition set_range (range : string * Z) (f : Feature) : Feature :=
  with_video f (ft_video_codec f) (ft_bit_depth f) (ft_width f) (ft_height f) (ft_frame_rate f) (fst range) (snd range).

Definition hex_byte_text (z : Z) : string :=
  if z <? 16 then hex_digit z else (hex_digit (Z.shiftr z 4) +:+ hex_digit (Z.land z 0xf)).
Definition bdAudioTrack (coding format : Z) (lang : string) (first : bool) : AudioTrack :=
  let '(fmt, codec, profile) :=
    (if coding =? codingLPCM then ("pcm", "pcm_bluray", "")
     else if coding =? codingAC3 then ("ac3", "ac3", "")
     else if coding =? codingDTS then ("dts", "dca", "")
     else if coding =? codingTrueHD then ("truehd", "truehd", "")
     else if (coding =? codingEAC3) || (coding =? codingEAC3Sec) then ("eac3", "eac3", "")
     else if coding =? codingDTSHDHRA then ("dts_hd_hra", "dca", "hra")
     else if coding =? codingDTSHDMA then ("dts_hd_ma", "dca", "ma")
     else if coding =? codingDTSExpress then ("dts", "dca", "express")
     else if (coding =? codingMPEG1Audio) || (coding =? codingMPEG2Audio) then ("other", "mp2", "")
     else ("other", "0x" +:+ hex_byte_text coding, "")) in
  {| at_format := fmt; at_codec := codec; at_profile := profile;
     at_channels := if format =? 1 then 1 else if format =? 3 then 2 else 0;
     at_language := ""; at_language_code := langCode lang; at_title := ""; at_default := first; at_atmos := false |}.
Definition bdSubtitle (coding : Z) (lang : string) : SubtitleTrack := {|
  sub_codec := if coding =? codingTextST then "textst" else "pgs"; sub_language := "";
  sub_language_code := langCode lang; sub_forced := false; sub_external := false |}.

(** Tracks with the first one marked. *)
Definition audio_tracks (l : list (Z * Z * string)) : list AudioTrack :=
  imap (fun i '(coding, format, lang) => bdAudioTrack coding format lang (i =? 0)%nat) l.

Definition stnDynamicRange (s : mplsSTN) : string * Z :=
  if 0 <? sn_dv_n s then ("dv_hdr10", 7)
  else if existsb (fun v => (ms_coding v =? codingHEVC) && (ms_dynamic_range v =? 2)) (sn_video s ++ sn_dv s)%list
  then ("dv_hdr10", 0)
  else match sn_video s with
  | v :: _ =>
    if ms_coding v =? codingHEVC then
      if ms_hdr_plus v then ("hdr10plus", 0) else if ms_dynamic_range v =? 1 then ("hdr10", 0) else ("sdr", 0)
    else ("sdr", 0)
  | [] => ("sdr", 0)          (* the caller checks that there is one *)
  end.
Definition applySTN (s : mplsSTN) (f : Feature) : Feature :=
  let f := match sn_video s with
    | v :: _ => set_range (stnDynamicRange s) (setVideo (ms_coding v) (ms_format v) (ms_rate v) f)
    | [] => f end in
  with_tracks f (ft_audio f ++ audio_tracks (map (fun a => (ms_coding a, ms_format a, ms_lang a)) (sn_audio s)))%list
    (ft_subtitles f ++ map (fun p => bdSubtitle (ms_coding p) (ms_lang p)) (sn_pg s))%list.

(** The distinct clips of a playlist, in play order. *)
Definition distinct_clips (pl : mplsFile) : list string :=
  map fst (fold_right (fun x k => x :: List.filter (fun y => negb (String.eqb (snd x) (snd y))) k) []
    (map (fun it => (mi_clip it, to_upper (mi_clip it))) (mf_items pl))).
Definition buildFeature (c : candidate) (clipSizes : gmap string Z) : Feature * list string :=
  let ids := distinct_clips (ca_pl c) in
  let size id := clipSizes !! to_upper id in
  let f := {|
    ft_playlist := ca_rel c; ft_duration_ms := ca_ticks c / 45; ft_width := 0; ft_height := 0; ft_video_codec := "";
    ft_frame_rate := ""; ft_bit_depth := 0; ft_dynamic_range := ""; ft_dv_profile := 0; ft_audio := [];
    ft_subtitles := []; ft_chapters := mf_chapters (ca_pl c); ft_clips := Z.of_nat (length ids); ft_clip_ids := ids;
    ft_bytes := foldl (fun n id => wrap64 (n + default 0 (size id))) 0 ids |} in
  (match attrSTN c with Some s => applySTN s f | None => f end,
   List.filter (fun id => negb (bool_decide (is_Some (size id)))) ids).

Definition isPrimaryAudioCoding (c : Z) : bool :=
  coded_in [codingLPCM; codingAC3; codingDTS; codingTrueHD; codingEAC3; codingDTSHDHRA; codingDTSHDMA;
    codingMPEG1Audio; codingMPEG2Audio] c.
Definition indexDynamicRange (idx : option indexFile) : string :=
  match idx with
  | None => ""
  | Some x =>
    let flag f := match ix_hevc x with Some h => f h | None => false end in
    if flag ih_dolby_vision then "dv_hdr10" else if flag ih_hdr_plus then "hdr10plus"
    else if ix_initial_dynamic_range x =? 1 then "hdr10" else ""
  end.
Definition applyClipInfo (c : clipFile) (idx : option indexFile) (f : Feature) : Feature :=
  let video f st :=
    if String.eqb (ft_video_codec f) "" && coded_in (codingHEVC :: plain_video) (cp_coding st) then
      let f := setVideo (cp_coding st) (cp_format st) (cp_rate st) f in
      set_range (if cp_coding st =? codingHEVC then indexDynamicRange idx else "sdr", ft_dv_profile f) f
    else f in
  let f := foldl video f (cl_streams c) in
  let audio := List.filter (fun st => isPrimaryAudioCoding (cp_coding st)) (cl_streams c) in
  let subs := List.filter (fun st => (cp_coding st =? codingPG) || (cp_coding st =? codingTextST)) (cl_streams c) in
  with_tracks f
    (match ft_audio f with [] => audio_tracks (map (fun st => (cp_coding st, cp_format st, cp_lang st)) audio) | l => l end)
    (match ft_subtitles f with [] => map (fun st => bdSubtitle (cp_coding st) (cp_lang st)) subs | l => l end).

(** ** DVD title sets (inspect.go) *)

Definition dvdAudioTrack (a : dvdAudio) (first : bool) : AudioTrack :=
  let '(fmt, codec) :=
    (if da_format a =? 0 then ("ac3", "ac3")
     else if (da_format a =? 2) || (da_format a =? 3) then ("other", "mp2")
     else if da_format a =? 4 then ("pcm", "pcm_dvd")
     else if da_format a =? 6 then ("dts", "dca")
     else ("other", "")) in
  {| at_format := fmt; at_codec := codec; at_profile := ""; at_channels := da_channels a; at_language := "";
     at_language_code := langCode (da_lang a);
     at_title := if (da_code_ext a =? 3) || (da_code_ext a =? 4) then "Director's comments" else "";
     at_default := first; at_atmos := false |}.
Definition applyVTS (v : vtsFile) (f : Feature) : Feature :=
  let f := with_video f (if vt_mpeg2 v then "mpeg2" else "other") 8 (vt_width v) (vt_height v)
    (if vt_pal v then "25" else "29.97") "sdr" (ft_dv_profile f) in
  let f := with_tracks f (ft_audio f ++ imap (fun i a => dvdAudioTrack a (i =? 0)%nat) (vt_audio v))%list
    (ft_subtitles f ++ map (fun s => {| sub_codec := "vobsub"; sub_language := ""; sub_language_code := langCode s;
      sub_forced := false; sub_external := false |}) (vt_subs v))%list in
  {| ft_playlist := ft_playlist f; ft_duration_ms := vt_longest_ms v; ft_width := ft_width f; ft_height := ft_height f;
     ft_video_codec := ft_video_codec f; ft_frame_rate := ft_frame_rate f; ft_bit_depth := ft_bit_depth f;
     ft_dynamic_range := ft_dynamic_range f; ft_dv_profile := ft_dv_profile f; ft_audio := ft_audio f;
     ft_subtitles := ft_subtitles f; ft_chapters := ft_chapters f; ft_clips := ft_clips f;
     ft_clip_ids := ft_clip_ids f; ft_bytes := ft_bytes f |}.

End main_feature.
