(* ===== verification/MainFacts.v ===== *)
(** * Choosing the main feature: lemmas *)

From S2P Require Import Prelude GoStd Models Bytes Bdmv ParserFacts Dvd MainFeature.
Local Open Scope string_scope.
Local Open Scope Z_scope.

(** ** Repeats and duplicates *)

(** How often a segment is played. *)
Definition plays (s : string * Z * Z) (l : list mplsItem) : Z :=
  Z.of_nat (length (List.filter (fun it => bool_decide (segment it = s)) l)).

Lemma plays_cons s it l : plays s (it :: l) = (if bool_decide (segment it = s) then 1 else 0) + plays s l.
Proof. unfold plays. cbn [List.filter]. case_match; cbn [length]; lia. Qed.
Lemma plays_nonneg s l : 0 <= plays s l.
Proof. unfold plays. lia. Qed.

Lemma repeats_spec limit items counts :
  (forall s, default 0 (counts !! s) <= limit) ->
  repeats limit counts items = false <-> forall s, default 0 (counts !! s) + plays s items <= limit.
Proof.
  revert counts. induction items as [|it items IH]; intros counts Hc; cbn [repeats].
  - split; [| done]. intros _ s. specialize (Hc s). unfold plays. cbn. lia.
  - destruct (Z.ltb_spec limit (default 0 (counts !! segment it) + 1)) as [Hl|Hl].
    + split; [done |]. intros Hs. specialize (Hs (segment it)). rewrite plays_cons, bool_decide_eq_true_2 in Hs by done.
      pose proof (plays_nonneg (segment it) items). lia.
    + rewrite IH.
      * apply forall_proper. intros s. rewrite plays_cons. destruct (decide (segment it = s)) as [<-|Hne].
        -- rewrite lookup_insert_eq, bool_decide_eq_true_2 by done. cbn. lia.
        -- rewrite lookup_insert_ne, bool_decide_eq_false_2 by done. lia.
      * intros s. destruct (decide (segment it = s)) as [<-|Hne]; [rewrite lookup_insert_eq; cbn; lia | by rewrite lookup_insert_ne].
Qed.

Lemma hasRepeats_spec pl limit : 0 <= limit ->
  hasRepeats pl limit = false <-> forall s, plays s (mf_items pl) <= limit.
Proof.
  intros Hl. unfold hasRepeats. rewrite repeats_spec by (intros s; by rewrite lookup_empty).
  apply forall_proper. intros s. by rewrite lookup_empty.
Qed.

Lemma samePlaylist_spec a b : samePlaylist a b = true <-> map segment (mf_items a) = map segment (mf_items b).
Proof.
  unfold samePlaylist. destruct (Nat.eqb_spec (length (mf_items a)) (length (mf_items b))) as [Hl|Hl]; cbn [negb].
  - revert Hl. generalize (mf_items a), (mf_items b). induction l as [|x l IH]; intros [|y k] Hl; try done.
    cbn [combine forallb map]. rewrite andb_true_iff, bool_decide_eq_true, IH by (cbn in Hl; lia). cbn [fst snd].
    split; [by intros [-> ->] | by intros [= ? ? ? ?]; split; [unfold segment; congruence |]].
  - split; [done |]. intros E. apply (f_equal length) in E. rewrite !length_map in E. done.
Qed.

(** A playlist's length depends on its segments only. *)
Lemma ticks_segment x y : segment x = segment y -> ticks x = ticks y.
Proof. unfold segment, ticks. intros E. by injection E as _ -> ->. Qed.
Lemma newCandidate_ticks id rel pl : ca_ticks (newCandidate id rel pl) =
  foldr Z.add 0 (map (fun s => if snd s <=? snd (fst s) then 0 else snd s - snd (fst s)) (map segment (mf_items pl))).
Proof.
  cbn. rewrite map_map. change (fun x => if snd (segment x) <=? snd (fst (segment x)) then 0 else snd (segment x) - snd (fst (segment x)))
    with ticks. assert (Hg : forall l n, foldl (fun n it => n + ticks it) n l = n + foldr Z.add 0 (map ticks l)).
  - induction l as [|it l IH]; intros n; cbn; [lia |]. rewrite IH. lia.
  - by rewrite Hg.
Qed.

(** A candidate as the source builds it. *)
Definition measured (c : candidate) : Prop := ca_ticks c = ca_ticks (newCandidate "" "" (ca_pl c)).
Lemma same_ticks a b : measured a -> measured b -> samePlaylist (ca_pl a) (ca_pl b) = true -> ca_ticks a = ca_ticks b.
Proof. unfold measured. intros -> -> Hs%samePlaylist_spec. by rewrite !newCandidate_ticks, Hs. Qed.

(** ** The selection *)

(** The kept playlists, without the index by length. *)
Definition keep_step (kept : list candidate) (c : candidate) : list candidate :=
  if hasRepeats (ca_pl c) 2 || existsb (fun k => samePlaylist (ca_pl k) (ca_pl c)) kept then kept else (kept ++ [c])%list.

Section selection.
Context `{Unicode} (known : list string).

Record selected (s : selection) : Prop := {
  sl_index : forall t, default [] (se_by_ticks s !! t) = List.filter (fun c => ca_ticks c =? t) (se_kept s);
  sl_measured : Forall measured (se_kept s);
}.

Lemma same_index s c : selected s -> measured c ->
  existsb (fun k => samePlaylist (ca_pl k) (ca_pl c)) (default [] (se_by_ticks s !! ca_ticks c)) =
  existsb (fun k => samePlaylist (ca_pl k) (ca_pl c)) (se_kept s).
Proof.
  intros [Hi Hm] Hc. rewrite Hi. apply eq_iff_eq_true. rewrite !existsb_elem. split.
  - intros (k & [Hk _]%elem_of_lfilter & Hs). by exists k.
  - intros (k & Hk & Hs). exists k. split; [| done]. apply elem_of_lfilter. split; [done |]. apply Z.eqb_eq.
    apply same_ticks; [by eapply Forall_forall in Hm | done | done].
Qed.

Lemma select_kept s c : selected s -> measured c ->
  selected (select_step known s c) /\ se_kept (select_step known s c) = keep_step (se_kept s) c.
Proof.
  intros Hs Hc. unfold select_step, keep_step. rewrite same_index by done.
  destruct (hasRepeats _ _); cbn [orb]; [done |]. destruct (existsb _ _); [done |]. cbn. split; [| done].
  destruct Hs as [Hi Hm]. split; cbn; [| by apply Forall_app; auto].
  intros t. rewrite List.filter_app. cbn [List.filter]. destruct (Z.eqb_spec (ca_ticks c) t) as [->|Hne].
  - by rewrite lookup_insert_eq, <- Hi.
  - by rewrite lookup_insert_ne, app_nil_r, <- Hi.
Qed.

(** ** The main title *)

(** The longer one, then the one with more streams. *)
Definition shorter (p1 p2 : candidate) : Z :=
  if ca_ticks p1 <? ca_ticks p2 then 1 else if ca_ticks p2 <? ca_ticks p1 then -1
  else streamScore (ca_pl p2) - streamScore (ca_pl p1).
Definition long (c : candidate) : Prop := thirtyMinuteTicks < ca_ticks c.

Lemma guess_short p1 p2 : ~ (long p1 /\ long p2) -> guessMain known p1 p2 = shorter p1 p2.
Proof.
  intros Hl. unfold guessMain. replace (_ && _) with false; [done |]. symmetry. apply not_true_is_false.
  intros [H1%Z.ltb_lt H2%Z.ltb_lt]%andb_true_iff. by apply Hl.
Qed.

Lemma guess_opposite p1 p2 : guessMain known p1 p2 = - guessMain known p2 p1.
Proof.
  unfold guessMain. rewrite (andb_comm (thirtyMinuteTicks <? ca_ticks p2)).
  assert (Hs : shorter p1 p2 = - shorter p2 p1).
  { unfold shorter. destruct (Z.ltb_spec (ca_ticks p1) (ca_ticks p2)), (Z.ltb_spec (ca_ticks p2) (ca_ticks p1)); lia. }
  unfold shorter in Hs. destruct (_ && _); [| done].
  set (c1 := mf_chapters (ca_pl p1)). set (c2 := mf_chapters (ca_pl p2)).
  replace (((c2 <? 2) || (c1 <? 2)) && ((c1 - c2 <? -5) || (5 <? c1 - c2)))
    with (((c1 <? 2) || (c2 <? 2)) && ((c2 - c1 <? -5) || (5 <? c2 - c1))).
  2: { rewrite (orb_comm (c2 <? 2)). f_equal. rewrite orb_comm. f_equal; apply eq_iff_eq_true; rewrite !Z.ltb_lt; lia. }
  destruct (_ && _); [lia |]. destruct (videoClass (attrSTN p1)) as [f1 k1], (videoClass (attrSTN p2)) as [f2 k2].
  rewrite (Z.eqb_sym f2 f1). destruct (f1 =? f2); cbn [negb]; [| lia].
  rewrite (Z.eqb_sym k2 k1). destruct (k1 =? k2); cbn [negb]; [| lia].
  destruct (hasHDAudio (attrSTN p1)), (hasHDAudio (attrSTN p2)); cbn [Z.b2z]; try done;
    destruct (mem (ca_id p1) known), (mem (ca_id p2) known), (0 <? _); cbn; try done; exact Hs.
Qed.

(** What the loop knows of the playlists kept so far. *)
Record chosen (s : selection) : Prop := {
  ch_best : match se_best s with
    | None => se_kept s = []
    | Some b => exists best, se_kept s !! b = Some best /\
        (forall i c, se_kept s !! i = Some c -> (b < i)%nat -> 0 <= guessMain known c best) /\
        ((exists c, c ∈ se_kept s /\ long c) -> long best) /\
        ((forall c, c ∈ se_kept s -> ~ long c) -> forall i c, se_kept s !! i = Some c ->
          if (i <? b)%nat then 0 < shorter c best else 0 <= shorter c best) end;
}.

Lemma shorter_trans a b c : shorter a b < 0 -> 0 <= shorter c b -> 0 < shorter c a.
Proof.
  unfold shorter. destruct (Z.ltb_spec (ca_ticks a) (ca_ticks b)), (Z.ltb_spec (ca_ticks b) (ca_ticks a)),
    (Z.ltb_spec (ca_ticks c) (ca_ticks b)), (Z.ltb_spec (ca_ticks b) (ca_ticks c)),
    (Z.ltb_spec (ca_ticks c) (ca_ticks a)), (Z.ltb_spec (ca_ticks a) (ca_ticks c)); lia.
Qed.
Lemma shorter_refl c : shorter c c = 0.
Proof. unfold shorter. rewrite Z.ltb_irrefl. lia. Qed.

Lemma shorter_long a b : shorter a b < 0 -> long b -> long a.
Proof. unfold shorter, long. destruct (Z.ltb_spec (ca_ticks a) (ca_ticks b)), (Z.ltb_spec (ca_ticks b) (ca_ticks a)); lia. Qed.
Lemma guess_long c best : guessMain known c best < 0 -> long best -> long c.
Proof.
  intros Hg Hb. destruct (Z.lt_dec thirtyMinuteTicks (ca_ticks c)) as [Hc|Hc]; [done |].
  rewrite guess_short in Hg by (by intros [? _]). by eapply shorter_long.
Qed.
Lemma guess_keeps_long c best : 0 <= guessMain known c best -> long c -> long best.
Proof.
  intros Hg Hc. destruct (Z.lt_dec thirtyMinuteTicks (ca_ticks best)) as [Hb|Hb]; [done |].
  rewrite guess_short in Hg by (by intros [_ ?]). unfold shorter, long in *.
  destruct (Z.ltb_spec (ca_ticks c) (ca_ticks best)), (Z.ltb_spec (ca_ticks best) (ca_ticks c)); lia.
Qed.

Lemma select_chosen s c : chosen s -> chosen (select_step known s c).
Proof.
  intros [Hb]. unfold select_step. destruct (hasRepeats _ _); [done |]. destruct (existsb _ _); [done |]. split. cbn [se_best se_kept].
  destruct (se_best s) as [b|].
  2: { rewrite Hb. cbn. exists c. split_and!; [done | | |].
    - intros i x [-> <-]%list_lookup_singleton_Some Hi. lia.
    - by intros (x & Hx%list_elem_of_singleton & Hl); subst.
    - intros _ i x [-> <-]%list_lookup_singleton_Some. by rewrite shorter_refl. }
  destruct Hb as (best & Hl & Hlater & Hlong & Hshort). rewrite Hl.
  assert (Hbest : best ∈ se_kept s) by (by eapply list_elem_of_lookup_2).
  destruct (Z.ltb_spec (guessMain known c best) 0) as [Hc|Hc].
  - exists c. rewrite lookup_app_r, Nat.sub_diag by lia. split_and!; [done | | |].
    + intros i x Hx Hi. apply lookup_lt_Some in Hx. rewrite length_app in Hx. cbn in Hx. lia.
    + intros (x & [Hx|Hx%list_elem_of_singleton]%elem_of_app & Hlx); [| by subst]. eauto using guess_long.
    + intros Hn i x Hx. assert (Hs : shorter c best < 0).
      { rewrite <- guess_short; [done |]. intros [Hlc _]. apply (Hn c); [| done]. apply elem_of_app. right. by apply list_elem_of_singleton. }
      apply lookup_app_Some in Hx as [Hx|[Hi Hx]].
      * pose proof (lookup_lt_Some _ _ _ Hx). rewrite (proj2 (Nat.ltb_lt _ _)) by done. apply (shorter_trans c best); [done |].
        assert (Hn' : forall y, y ∈ se_kept s -> ~ long y) by (intros y Hy; apply Hn, elem_of_app; auto).
        specialize (Hshort Hn' i x Hx). destruct (i <? b)%nat; lia.
      * apply list_lookup_singleton_Some in Hx as [Hi' <-]. rewrite (proj2 (Nat.ltb_ge _ _)) by lia. by rewrite shorter_refl.
  - exists best. rewrite lookup_app_l by (by eapply lookup_lt_Some). split_and!; [done | | |].
    + intros i x [Hx|[Hi Hx]]%lookup_app_Some Hi'; [eauto |]. by apply list_lookup_singleton_Some in Hx as [_ <-].
    + intros (x & [Hx|Hx%list_elem_of_singleton]%elem_of_app & Hlx); [eauto |]. subst. by eapply guess_keeps_long.
    + intros Hn i x Hx. assert (Hn' : forall y, y ∈ se_kept s -> ~ long y) by (intros y Hy; apply Hn, elem_of_app; auto).
      apply lookup_app_Some in Hx as [Hx|[Hi Hx]]; [by apply Hshort |].
      apply list_lookup_singleton_Some in Hx as [_ <-]. apply lookup_lt_Some in Hl.
      rewrite (proj2 (Nat.ltb_ge _ _)) by lia. rewrite <- guess_short; [done |]. intros [_ Hlb]. by apply (Hn' best).
Qed.

Lemma select_all cands : Forall measured cands ->
  let s := foldl (select_step known) {| se_by_ticks := ∅; se_kept := []; se_best := None |} cands in
  se_kept s = foldl keep_step [] cands /\ chosen s.
Proof.
  intros Hm. set (s0 := {| se_by_ticks := ∅; se_kept := []; se_best := None |}).
  assert (H0 : selected s0) by (split; [intros t; unfold s0; cbn [se_by_ticks se_kept]; by rewrite lookup_empty | done]).
  assert (C0 : chosen s0) by (by split). change (@nil candidate) with (se_kept s0). clearbody s0. cbv zeta.
  revert s0 H0 C0. induction Hm as [|c cands Hc _ IH]; intros s0 H0 C0; [done |]. cbn [foldl].
  destruct (select_kept s0 c H0 Hc) as [Hs E]. rewrite <- E. apply IH; [done | by apply select_chosen].
Qed.
End selection.

(** ** The kept playlists *)

Lemma keep_step_spec cands kept : let l := foldl keep_step kept cands in
  (forall c, c ∈ l -> c ∈ kept \/ c ∈ cands /\ hasRepeats (ca_pl c) 2 = false) /\
  (forall c, c ∈ kept -> c ∈ l) /\
  (forall c, c ∈ cands -> hasRepeats (ca_pl c) 2 = false -> exists k, k ∈ l /\ samePlaylist (ca_pl k) (ca_pl c) = true).
Proof.
  revert kept. induction cands as [|c cands IH]; intros kept; cbn [foldl].
  { split_and!; [auto | done | by intros c ?%not_elem_of_nil]. }
  destruct (IH (keep_step kept c)) as (A & B & C). unfold keep_step in *.
  destruct (hasRepeats (ca_pl c) 2) eqn:Hr; cbn [orb] in *.
  { split_and!; [| done |]; [intros x Hx; destruct (A x Hx) as [|[]]; [auto | right; split; [by right | done]] |].
    intros x [->|Hx]%elem_of_cons Hf; [congruence | auto]. }
  destruct (existsb _ kept) eqn:Hs.
  - split_and!; [intros x Hx; destruct (A x Hx) as [|[]]; [auto | right; split; [by right | done]] | done |].
    intros x [->|Hx]%elem_of_cons Hf; [| auto]. apply existsb_elem in Hs as (k & Hk & Hs). eauto.
  - split_and!.
    + intros x Hx. destruct (A x Hx) as [[|Hx'%list_elem_of_singleton]%elem_of_app|[]]; [auto | | right; split; [by right | done]].
      subst. right. split; [by left | done].
    + intros x Hx. apply B, elem_of_app. auto.
    + intros x [->|Hx]%elem_of_cons Hf; [| auto]. exists c. split; [apply B, elem_of_app; right; by apply list_elem_of_singleton |].
      by apply samePlaylist_spec.
Qed.

Lemma keep_step_distinct cands kept : NoDup (map (fun c => map segment (mf_items (ca_pl c))) kept) ->
  NoDup (map (fun c => map segment (mf_items (ca_pl c))) (foldl keep_step kept cands)).
Proof.
  revert kept. induction cands as [|c cands IH]; intros kept Hn; [done |]. cbn [foldl]. apply IH. unfold keep_step.
  destruct (hasRepeats _ _); [done |]. cbn [orb]. destruct (existsb _ _) eqn:Hs; [done |].
  rewrite map_app. apply NoDup_app. split_and!; [done | | apply NoDup_singleton].
  intros x (k & -> & Hk)%list_elem_of_fmap Hx%list_elem_of_singleton.
  assert (Ht : existsb (fun k => samePlaylist (ca_pl k) (ca_pl c)) kept = true); [| congruence].
  apply existsb_elem. exists k. split; [done |]. by apply samePlaylist_spec.
Qed.

(** ** Other cuts *)

Section alternates.
Context `{Unicode} (main limit : nat).

Lemma alternates_spec l seen n : (n < limit)%nat ->
  (forall c, c ∈ alternates main limit l seen n -> exists i, (i, c) ∈ l /\ i <> main /\ long c /\ clipKey (ca_pl c) ∉ seen) /\
  NoDup (map (fun c => clipKey (ca_pl c)) (alternates main limit l seen n)) /\
  alternates main limit l seen n `sublist_of` map snd l /\
  (length (alternates main limit l seen n) + n <= limit)%nat.
Proof.
  revert seen n. induction l as [|[i c] l IH]; intros seen n Hn; cbn [alternates].
  { split_and!; [by intros c ?%not_elem_of_nil | constructor | constructor | cbn; lia]. }
  assert (Hskip : forall x, (exists j, (j, x) ∈ l /\ j <> main /\ long x /\ clipKey (ca_pl x) ∉ seen) ->
    exists j, (j, x) ∈ (i, c) :: l /\ j <> main /\ long x /\ clipKey (ca_pl x) ∉ seen).
  { intros x (j & Hj & ?). exists j. split; [by right | done]. }
  destruct (IH seen n Hn) as (A & B & C & D).
  destruct ((i =? main)%nat || (ca_ticks c <=? thirtyMinuteTicks)) eqn:Hm.
  { split_and!; [auto | done | by apply sublist_cons | done]. }
  destruct (mem (clipKey (ca_pl c)) seen) eqn:Hs.
  { split_and!; [auto | done | by apply sublist_cons | done]. }
  apply orb_false_iff in Hm as [Hi%Nat.eqb_neq Hl%Z.leb_gt]. apply mem_false in Hs.
  assert (Hc : exists j, (j, c) ∈ (i, c) :: l /\ j <> main /\ long c /\ clipKey (ca_pl c) ∉ seen)
    by (exists i; split_and!; [by left | done | done | done]).
  destruct (Nat.eqb_spec (S n) limit) as [He|He].
  { split_and!; [by intros x ->%list_elem_of_singleton | apply NoDup_singleton | | cbn; lia].
    cbn. apply sublist_skip, sublist_nil_l. }
  destruct (IH (clipKey (ca_pl c) :: seen) (S n) ltac:(lia)) as (A' & B' & C' & D'). split_and!.
  - intros x [->|Hx]%elem_of_cons; [done |]. destruct (A' x Hx) as (j & Hj & Hjm & Hlx & Hk). apply Hskip. exists j.
    split_and!; try done. by intros ?; apply Hk; right.
  - cbn [map]. apply NoDup_cons. split; [| done]. intros (x & Hx & Hin)%list_elem_of_fmap.
    destruct (A' x Hin) as (_ & _ & _ & _ & Hk). apply Hk. rewrite Hx. by left.
  - cbn. by apply sublist_skip.
  - cbn [length]. lia.
Qed.

(** No cut is left out but for the limit. *)
Lemma alternates_complete l seen n : (n < limit)%nat -> (length (alternates main limit l seen n) + n < limit)%nat ->
  forall i c, (i, c) ∈ l -> i <> main -> long c ->
  clipKey (ca_pl c) ∈ seen \/ exists a, a ∈ alternates main limit l seen n /\ clipKey (ca_pl a) = clipKey (ca_pl c).
Proof.
  revert seen n. induction l as [|[j x] l IH]; intros seen n Hn Hl i c Hin Hi Hc; [by apply not_elem_of_nil in Hin |].
  cbn [alternates] in *. destruct (_ || _) eqn:Hm.
  { apply orb_true_iff in Hm. rewrite Nat.eqb_eq, Z.leb_le in Hm. unfold long in Hc.
    apply elem_of_cons in Hin as [[= -> ->]|Hin]; [exfalso; destruct Hm; [done | lia] | eauto]. }
  destruct (mem (clipKey (ca_pl x)) seen) eqn:Hs.
  { apply mem_true in Hs. apply elem_of_cons in Hin as [[= -> ->]|Hin]; [by left | eauto]. }
  destruct (Nat.eqb_spec (S n) limit) as [He|He]; cbn [length] in Hl; [lia |].
  apply elem_of_cons in Hin as [[= -> ->]|Hin]; [right; exists x; split; [by left | done] |].
  destruct (IH (clipKey (ca_pl x) :: seen) (S n) ltac:(lia) ltac:(lia) i c Hin Hi Hc) as [[E|H1]%elem_of_cons|(a & Ha & E)].
  - right. exists x. split; [by left | done].
  - by left.
  - right. exists a. split; [by right | done].
Qed.
End alternates.

Lemma keep_step_order cands kept : foldl keep_step kept cands `sublist_of` (kept ++ cands)%list.
Proof.
  revert kept. induction cands as [|c cands IH]; intros kept; cbn [foldl]; [by rewrite app_nil_r |].
  etrans; [apply IH |]. unfold keep_step. destruct (_ || _); [| by rewrite <- app_assoc].
  apply sublist_app; [done |]. by apply sublist_cons.
Qed.

Lemma sorted_map {A B} (f : A -> B) (R : B -> B -> Prop) l : StronglySorted (fun x y => R (f x) (f y)) l ->
  StronglySorted R (map f l).
Proof. induction 1 as [|x l Hl IH Hx]; cbn; constructor; [done |]. by apply Forall_map. Qed.
Lemma combine_lookup {A} (l : list A) i c : (i, c) ∈ combine (seq 0 (length l)) l <-> l !! i = Some c.
Proof.
  assert (Hg : forall n, (i, c) ∈ combine (seq n (length l)) l <-> (n <= i)%nat /\ l !! (i - n)%nat = Some c).
  { induction l as [|x l IH]; intros n; cbn [combine seq length].
    - split; [by intros ?%not_elem_of_nil | by intros []].
    - rewrite elem_of_cons, IH. split.
      + intros [[= -> ->]|[Hn Hl]]; [by rewrite Nat.sub_diag |]. split; [lia |].
        by replace (i - n)%nat with (S (i - S n)) by lia.
      + intros [Hn Hl]. destruct (decide (i = n)) as [->|Hne].
        * rewrite Nat.sub_diag in Hl. injection Hl as ->. by left.
        * right. split; [lia |]. by replace (i - n)%nat with (S (i - S n)) in Hl by lia. }
  rewrite Hg, Nat.sub_0_r. split; [by intros [_ ?] | split; [lia | done]].
Qed.

(** ** Durations *)

Lemma candidate_bounded id rel pl : Forall bounded_item (mf_items pl) -> zlen (mf_items pl) <= 2000 ->
  0 <= ca_ticks (newCandidate id rel pl) < 2 ^ 43.
Proof.
  intros Hi Hn. unfold newCandidate. cbn [ca_ticks]. unfold zlen in Hn.
  assert (Hg : forall l n, Forall bounded_item l ->
    n <= foldl (fun n it => n + ticks it) n l <= n + 2 ^ 32 * Z.of_nat (length l)).
  { induction l as [|it l IH]; intros n Hl; cbn [foldl length]; [lia |]. inversion Hl as [|? ? (H1 & H2 & _) Hl']; subst.
    specialize (IH (n + ticks it) Hl'). assert (0 <= ticks it < 2 ^ 32) by (unfold ticks; case_match; lia). lia. }
  specialize (Hg _ 0 Hi). lia.
Qed.

(** ** Languages *)

Definition code_ok (v : string) : bool :=
  (String.length v =? 3)%nat && forallb (fun c => in_range 97 122 (byte_of c)) (String.list_ascii_of_string v).
Lemma assoc_result (l : list (string * string)) k : assoc l k = None \/ exists v, v ∈ map snd l /\ assoc l k = Some v.
Proof.
  unfold assoc. destruct (List.find _ l) as [[k' v]|] eqn:E; [| by left]. right. exists v. split; [| done].
  apply find_some in E as [Hin _]. apply list_elem_of_fmap. exists (k', v). split; [done |]. by apply list_elem_of_In.
Qed.
Lemma codes_ok (l : list (string * string)) : forallb (fun kv => code_ok (snd kv)) l = true -> forall v, v ∈ map snd l ->
  String.length v = 3%nat /\ forallb (fun c => in_range 97 122 (byte_of c)) (String.list_ascii_of_string v) = true.
Proof.
  intros Hl v (kv & -> & Hin)%list_elem_of_fmap. rewrite forallb_forall in Hl. apply list_elem_of_In in Hin.
  specialize (Hl _ Hin). by apply andb_true_iff in Hl as [?%Nat.eqb_eq ?].
Qed.
