(* ===== verification/DiscTheorems.v ===== *)
(** * Disc metadata: theorems

    What the parsers of internal/disc read back from the encoders of the fixtures
    (internal/testutil/fakemedia), what they can never do on any bytes, and which
    playlist of a disc becomes its main title. *)

From S2P Require Import Prelude GoStd Models Fixtures Bytes Bdmv BdmvEncode BdmvFacts ClipFacts ParserFacts.
From S2P Require Import Dvd ParserFacts MainFeature MainFacts.
Local Open Scope string_scope.
Local Open Scope Z_scope.

(** C38: A playlist written by the fixtures' encoder with well-formed items (streams
    whose codes fit their fields, at most 2000 items) is read back by the parser as
    exactly those items with their streams, chapter and mark counts; its streams are
    those of the first item with video, or of the first item. *)
Theorem playlist_roundtrip v items marks :
  v ∈ versions -> Forall item_ok items -> count items <= maxPlayItems -> count marks < 65536 ->
  parseMPLS (encodeMPLS v items marks) = Ok {|
    mf_version := v; mf_items := stored_items items; mf_sub_paths := 0; mf_marks := count marks;
    mf_chapters := count marks; mf_attr := attr_index items |}.
Proof.
  unfold maxPlayItems. intros Hv Hok Hn Hm. rewrite mpls_layout by done.
  pose proof (count_nonneg items); pose proof (count_nonneg marks). pose proof (blen_items _ Hok) as Hi.
  assert (Hl : blen (list_block items) = 6 + blen (item_bytes items)).
  { unfold list_block. rewrite !blen_app, !blen_put. lia. }
  assert (Hk : blen (marks_block marks) = 2 + 14 * count marks).
  { unfold marks_block. rewrite blen_app, blen_put, blen_marks. lia. }
  unfold parseMPLS, maxPlayItems. rewrite header_parses by done. cbn [obind].
  rewrite u32_at by lia. cbv beta iota zeta. rewrite u32_at by lia. cbv beta iota zeta. rewrite err_at.
  set (ms := (put_uint 4 (blen (marks_block marks)) ++ marks_block marks)%list).
  set (head := (String.list_ascii_of_string "MPLS" ++ String.list_ascii_of_string v ++ put_uint 4 58 ++
    put_uint 4 (62 + blen (list_block items)) ++ app_info)%list).
  assert (Hh : blen head = 58).
  { unfold head. rewrite !blen_app, !blen_put, !blen_str, (version_length v) by done. done. }
  rewrite (seek_at _ _ _ head ((put_uint 4 (blen (list_block items)) ++ list_block items) ++ ms))
    by (done || by unfold head; rewrite <- !app_assoc).
  rewrite <- (app_assoc (put_uint 4 _)), u32_at by lia. cbv beta iota zeta. rewrite sub_at by done. cbv beta iota zeta.
  unfold list_block at 1. skip_by (put_uint 2 0). rewrite u16_at by lia. cbv beta iota zeta.
  rewrite u16_at by lia. cbv beta iota zeta. rewrite !err_at, avail_at. cbn [orb].
  replace (_ || _) with false by (symmetry; apply orb_false_iff; rewrite !Z.ltb_ge; lia).
  rewrite count_nat, <- (app_nil_r (item_bytes items)) at 1. rewrite items_parse by done. cbn [obind fst snd].
  replace (_ =? 0) with false by (symmetry; apply Z.eqb_neq; lia).
  rewrite (seek_at _ _ _ ((head ++ put_uint 4 (blen (list_block items))) ++ list_block items) ms)
    by (done || by rewrite !blen_app, Hh, blen_put; lia).
  unfold ms. rewrite u32_at by lia. cbv beta iota zeta. unfold marks_block. rewrite u16_at by lia. cbv beta iota zeta.
  rewrite err_at, avail_at, blen_marks. cbn [orb]. replace (_ <? _) with false by (symmetry; apply Z.ltb_ge; lia).
  by rewrite count_nat, marks_parse_all.
Qed.

(** ** A disc to read: a UHD film with lossless sound and subtitles after a logo clip *)

Definition wx_stream (coding : Z) (lang : string) : bdStream := {|
  bs_pid := 0x1011; bs_coding := coding; bs_format := 8; bs_rate := 1; bs_dyn_range := 1; bs_color_space := 2;
  bs_hdr_plus := true; bs_lang := lang |}.
Definition wx_none : bdStreams := {| bt_video := []; bt_audio := []; bt_pg := []; bt_ig := []; bt_dv := [] |}.
Definition wx_film : bdStreams := {|
  bt_video := [wx_stream bdCodingHEVC "   "]; bt_audio := [wx_stream bdCodingDTSHDMA "eng"];
  bt_pg := [wx_stream bdCodingPG "ger"]; bt_ig := []; bt_dv := [] |}.
Definition wx_items : list bdPlayItem := [
  {| pi_clip := "00001"; pi_in := 0; pi_out := 45000; pi_streams := wx_none |};
  {| pi_clip := "00800"; pi_in := 90000; pi_out := 90000 + 45000 * 7200; pi_streams := wx_film |}].
Definition wx_marks : list bdMark := [{| bm_item := 1; bm_time := 90000 |}].

Lemma wx_items_ok : Forall item_ok wx_items.
Proof.
  repeat constructor; cbn; try lia; try done; unfold count; cbn; try lia; by (apply (bool_decide_unpack _); vm_compute).
Qed.

Lemma playlist_roundtrip_witness : exists f, parseMPLS (encodeMPLS "0300" wx_items wx_marks) = Ok f /\
  mf_attr f = Some 1%nat /\ mf_chapters f = 1.
Proof.
  eexists. split; [apply (playlist_roundtrip "0300" wx_items wx_marks) | split; reflexivity].
  - apply mem_true. reflexivity.
  - apply wx_items_ok.
  - discriminate.
  - reflexivity.
Defined.

(** A clip-information file written by the fixtures' encoder is read back with its
    rates, packet count, duration and the first 64 streams of its program. *)
Theorem clip_roundtrip v ci : v ∈ versions -> Forall clip_ok (all_streams (bc_streams ci)) ->
  count (all_streams (bc_streams ci)) < 256 ->
  0 <= bc_recording_rate ci < 2 ^ 32 -> 0 <= bc_packets ci < 2 ^ 32 ->
  0 <= bc_start ci < 2 ^ 32 -> 0 <= bc_end ci < 2 ^ 32 ->
  parseCLPI (encodeCLPI v ci) = Ok {|
    cl_version := v; cl_stream_type := 1; cl_app_type := 1; cl_ts_recording_rate := bc_recording_rate ci;
    cl_source_packets := bc_packets ci; cl_ticks := Z.max 0 (bc_end ci - bc_start ci);
    cl_streams := take 64 (map clip_stream_of (all_streams (bc_streams ci))) |}.
Proof.
  intros Hv Hok Hc Hr Hp Hst Hen. destruct (clpi_layout v ci Hv) as (cpi & mk & ->).
  pose proof (blen_clip_bytes _ Hok) as Hb. pose proof (count_nonneg (all_streams (bc_streams ci))).
  assert (Hsb : blen (sequence_body ci) = 22) by done.
  assert (Hpb : blen (program_body ci) = 10 + 8 * count (all_streams (bc_streams ci))).
  { unfold program_body. rewrite !blen_app, !blen_put, Hb. lia. }
  destruct (clip_info_out ci) as [n Hi]. set (info := clip_info_block ci) in *.
  assert (Hl : blen info = 180) by (by rewrite Hi, !blen_app, !blen_put, !blen_replicate, blen_str).
  rewrite Hl, Hsb, Hpb. unfold parseCLPI. rewrite <- (app_assoc (String.list_ascii_of_string "HDMV")).
  rewrite header_parses by done. cbn [obind]. do 2 read_step. rewrite err_at.
  set (head := (String.list_ascii_of_string "HDMV" ++ String.list_ascii_of_string v ++ put_uint 4 (40 + 180) ++
    put_uint 4 (44 + 180 + 22) ++ put_uint 4 cpi ++ put_uint 4 mk ++ put_uint 4 0 ++ replicate 12 zero)%list).
  assert (Hh : blen head = 40).
  { unfold head. by rewrite !blen_app, !blen_put, !blen_str, blen_replicate, (version_length v). }
  set (tail := ((put_uint 4 (10 + 8 * count (all_streams (bc_streams ci))) ++ program_body ci) ++
    put_uint 4 0 ++ put_uint 4 0)%list).
  rewrite (seek_at 40 _ _ head (info ++ (put_uint 4 22 ++ sequence_body ci) ++ tail))
    by (done || by unfold head, tail; rewrite <- !app_assoc).
  rewrite Hi, <- (app_assoc (_ ++ _) _ (_ ++ tail)), <- !(app_assoc _ _ ((put_uint 4 22 ++ _) ++ tail)).
  skip_by (put_uint 4 n ++ put_uint 2 0)%list. do 2 read_step. skip_by (put_uint 4 0). do 2 read_step. rewrite err_at.
  rewrite (seek_at (40 + 180) _ _ (head ++ info) ((put_uint 4 22 ++ sequence_body ci) ++ tail))
    by (by rewrite ?blen_app, ?Hh, ?Hl || by rewrite Hi, <- !app_assoc).
  unfold sequence_body at 1. skip_by (put_uint 4 22 ++ put_uint 1 0)%list. read_step.
  change (Z.to_nat 1) with 1%nat. cbn [atc_sequences]. rewrite err_at. skip_by (put_uint 4 0). read_step.
  skip_by (put_uint 1 0). rewrite avail_at. replace (_ <? 1 * 14) with false by (symmetry; apply Z.ltb_ge; rewrite !blen_app, !blen_put; pose proof (blen_nonneg tail); lia).
  change (Z.to_nat 1) with 1%nat. cbn [stc_sequences]. skip_by (put_uint 2 0x1001 ++ put_uint 4 0)%list. do 2 read_step.
  cbn [obind]. rewrite err_at.
  rewrite (seek_at (44 + 180 + 22) _ _ (head ++ info ++ put_uint 4 22 ++ sequence_body ci) tail)
    by (by rewrite ?blen_app, ?Hh, ?Hl, ?Hsb, ?blen_put || by unfold sequence_body; rewrite <- !app_assoc).
  unfold tail, program_body. rewrite <- !app_assoc.
  skip_by (put_uint 4 (10 + 8 * count (all_streams (bc_streams ci))) ++ put_uint 1 0)%list. read_step.
  rewrite (one_program _ _ _ Hok) by done. cbn [obind]. rewrite err_at. do 2 f_equal.
  destruct (Z.ltb_spec (bc_start ci) (bc_end ci)); lia.
Qed.

(** A disc index written by the fixtures' encoder is read back with its video
    properties and number of titles, and with the HDR flags of its UHD extension. *)
Theorem index_roundtrip ix : bx_version ix ∈ versions -> Z.of_nat (bx_titles ix) < 65536 ->
  0 <= bx_video_format ix < 16 -> 0 <= bx_frame_rate ix < 16 -> 0 <= bx_dynamic_range ix < 16 ->
  parseIndex (encodeIndex ix) = Ok {|
    ix_version := bx_version ix; ix_initial_dynamic_range := bx_dynamic_range ix;
    ix_video_format := bx_video_format ix; ix_frame_rate := bx_frame_rate ix; ix_titles := Z.of_nat (bx_titles ix);
    ix_hevc := if String.eqb (bx_version ix) "0300" then Some {|
      ih_disc_type := 0; ih_exist_4k := true; ih_hdr_plus := bx_hdr_plus ix; ih_dolby_vision := bx_dolby_vision ix;
      ih_hdr_flags := 0 |} else None |}.
Proof.
  intros Hv Hn Hf Hr Hd. rewrite index_layout by done. destruct (nibbles_ok _ _ Hf Hr) as (Hb & Hb1 & Hb2).
  assert (Hi : blen (index_body ix) = 26 + 12 * Z.of_nat (bx_titles ix)).
  { unfold index_body. rewrite !blen_app, blen_titles, blen_put. change (blen (hdmv_object [])) with 4.
    change (blen (hdmv _ [])) with 8. lia. }
  assert (Hdr : Z.land (bx_dynamic_range ix) 0x0f = bx_dynamic_range ix)
    by (change 0x0f with (Z.ones 4); rewrite Z.land_ones, Z.mod_small; lia).
  set (uhd := String.eqb (bx_version ix) "0300"). set (ext := if uhd then 82 + blen (index_body ix) else 0).
  set (tail := if uhd then extension ix else []).
  set (head := (String.list_ascii_of_string "INDX" ++ String.list_ascii_of_string (bx_version ix) ++ put_uint 4 78 ++
    put_uint 4 ext ++ replicate 24 zero)%list).
  assert (Hh : blen head = 40).
  { unfold head. by rewrite !blen_app, !blen_put, !blen_str, blen_replicate, (version_length _ Hv). }
  assert (He : 0 <= ext < 2 ^ 32) by (unfold ext; destruct uhd; lia).
  unfold parseIndex at 1. rewrite <- (app_assoc (String.list_ascii_of_string "INDX")), header_parses by done. cbn [obind].
  rewrite u32_at by done. cbv beta iota zeta. rewrite u32_at by done. cbv beta iota zeta.
  rewrite (seek_at 40 _ _ head (put_uint 4 34 ++ app_body ix ++ (put_uint 4 (blen (index_body ix)) ++ index_body ix) ++ tail))
    by (done || by unfold head; rewrite <- !app_assoc).
  read_step. unfold app_body at 1. rewrite Hdr, <- !app_assoc. do 2 read_step. rewrite err_at.
  rewrite (seek_at 78 _ _ (head ++ put_uint 4 34 ++ app_body ix) ((put_uint 4 (blen (index_body ix)) ++ index_body ix) ++ tail))
    by (by rewrite ?blen_app, ?Hh || by unfold app_body; rewrite Hdr, <- !app_assoc).
  rewrite <- (app_assoc (put_uint 4 _)), u32_at by lia. cbv beta iota zeta. rewrite sub_at by done. cbv beta iota zeta.
  unfold index_body at 1. skip_by (hdmv_object [] ++ hdmv 0 [] ++ hdmv_object [] ++ hdmv 1 [])%list.
  rewrite u16_at by lia. cbv beta iota zeta. rewrite !err_at, avail_at, blen_titles. cbn [orb].
  replace (_ <? _) with false by (symmetry; apply Z.ltb_ge; lia). rewrite Hdr, Hb1, Hb2.
  unfold ext at 1, uhd. destruct (String.eqb _ _) eqn:Hu; [| done]. replace (_ =? 0) with false by (symmetry; apply Z.eqb_neq; lia).
  set (p := (head ++ (put_uint 4 34 ++ app_body ix) ++ put_uint 4 (blen (index_body ix)) ++ index_body ix)%list).
  assert (Hp : blen p = ext).
  { unfold p, ext, uhd. rewrite ?Hu, !blen_app, Hh, !blen_put. change (blen (app_body ix)) with 34. lia. }
  match goal with |- context [parseExtensions ?b _ _ _] => replace b with (p ++ extension ix)%list end.
  - rewrite <- Hp, extension_parses. cbn [obind]. by rewrite hevc_parses.
  - unfold p, head. by rewrite <- !app_assoc.
Qed.

(** ** Any bytes *)

(** C39: On any bytes none of the five parsers panics, and a playlist that parses is
    small: at most 2000 items, never more items or marks than its bytes hold, at most
    64 kept streams of a kind, a duration far from overflowing int64, and an attribute
    item that exists and is the first with video. *)
Theorem parsers_never_panic b :
  parseMPLS b <> Panic /\ parseCLPI b <> Panic /\ parseIndex b <> Panic /\ parseVMGI b <> Panic /\
  parseVTSI b <> Panic /\
  match parseMPLS b with
  | Ok f => items_ok (mf_items f) (mf_attr f) /\ zlen (mf_items f) <= 2000 /\ 20 * zlen (mf_items f) <= blen b /\
      0 <= mf_chapters f <= mf_marks f /\ 14 * mf_marks f <= blen b /\
      0 <= ca_ticks (newCandidate "" "" f) < 2 ^ 43
  | _ => True end.
Proof.
  destruct (parse_playlist_ok b) as [Hp Hf]. split_and!; [done | apply clip_safe | apply index_safe | apply vmg_ok | apply vts_ok |].
  destruct (parseMPLS b) as [f|e|]; [| done..]. destruct (Hf f eq_refl) as (Hi & Hn & Hb & Hc & Hm).
  do 5 (split; [done |]). apply candidate_bounded; [by destruct Hi | done].
Qed.

(** A DVD playback time of less than a hundred hours, counted in frames and
    encoded in BCD, is read back in milliseconds: frames at 25 per second, or at
    30 per 1.001 seconds for NTSC. *)
Theorem dvd_time_roundtrip frames pal : 0 <= frames < 360000 * dvdFPS pal ->
  dvdTime (encode_time frames pal) = Some (frames / dvdFPS pal * 1000 +
    (if pal then frames mod dvdFPS pal * 1000 / 25 else frames mod dvdFPS pal * 1001 / 30)).
Proof. apply time_read. Qed.

(** ** The main title *)

(** The playlists of a disc, in their order. *)
Definition candidates (pls : list (string * string * mplsFile)) : list candidate :=
  map (fun '(id, rel, pl) => newCandidate id rel pl) pls.

(** C40: The kept playlists of a disc are, in order, playlists that play no segment more
    than twice, pairwise different in their segments, and every such playlist is one of
    them or plays the same as one. There is a main title exactly when one is kept: no
    later one was guessed better; it lasts over thirty minutes when any does; and when
    none does it is the first of the longest with the most streams. *)
Theorem main_title_chosen `{Unicode} pls known :
  let cands := candidates pls in
  let '(best, kept) := selectMain cands known in
  (kept `sublist_of` cands /\
   (forall c, c ∈ kept -> forall s, plays s (mf_items (ca_pl c)) <= 2) /\
   NoDup (map (fun c => map segment (mf_items (ca_pl c))) kept) /\
   (forall c, c ∈ cands -> (forall s, plays s (mf_items (ca_pl c)) <= 2) ->
      exists k, k ∈ kept /\ map segment (mf_items (ca_pl k)) = map segment (mf_items (ca_pl c)))) /\
  match best with
  | None => kept = []
  | Some b => exists main, kept !! b = Some main /\
      (forall i c, kept !! i = Some c -> (b < i)%nat -> 0 <= guessMain (map known_id known) c main) /\
      ((exists c, c ∈ kept /\ long c) -> long main) /\
      ((forall c, c ∈ kept -> ~ long c) -> forall i c, kept !! i = Some c ->
         if (i <? b)%nat then 0 < shorter c main else 0 <= shorter c main)
  end.
Proof.
  cbv zeta. unfold selectMain. set (cands := candidates pls).
  assert (Hm : Forall measured cands) by (apply Forall_map, Forall_true; by intros [[] ]).
  destruct (select_all (map known_id known) cands Hm) as [Hk [Hc]]. split; [| exact Hc]. rewrite Hk.
  destruct (keep_step_spec cands []) as (A & _ & B). split_and!.
  - apply (keep_step_order cands []).
  - intros c Hc'. destruct (A c Hc') as [?%not_elem_of_nil|[_ Hr]]; [done |]. by apply (hasRepeats_spec _ 2).
  - apply keep_step_distinct. constructor.
  - intros c Hc' Hr. destruct (B c Hc') as (k & Hk' & Hs); [by apply (hasRepeats_spec _ 2) |].
    exists k. split; [done |]. by apply samePlaylist_spec.
Qed.

(** The other cuts of a disc are kept playlists of over thirty minutes, longest
    first and at most [limit], whose sets of clips differ from the main title's and from
    each other's; below the limit every such set has its cut. *)
Theorem other_cuts_distinct `{Unicode} kept b main limit : kept !! b = Some main -> (0 < limit)%nat ->
  let cuts := alternateCandidates b kept limit in
  (forall c, c ∈ cuts -> c ∈ kept /\ long c) /\
  NoDup (map (fun c => clipKey (ca_pl c)) (main :: cuts)) /\
  StronglySorted (fun x y => ca_ticks y <= ca_ticks x) cuts /\
  (length cuts <= limit)%nat /\
  ((length cuts < limit)%nat -> forall i c, kept !! i = Some c -> long c ->
     exists k, k ∈ main :: cuts /\ clipKey (ca_pl k) = clipKey (ca_pl c)).
Proof.
  intros Hb Hl. unfold alternateCandidates. rewrite Hb.
  set (l := stable_sort _ _). assert (Hin : forall i c, (i, c) ∈ l <-> kept !! i = Some c).
  { intros i c. unfold l. by rewrite elem_of_stable_sort, combine_lookup. }
  assert (Hs : StronglySorted (fun x y : nat * candidate => ca_ticks (snd y) <= ca_ticks (snd x)) l).
  { unfold l. eapply StronglySorted_weaken; [| apply stable_sort_sorted]; cbn; intros; lia. }
  clearbody l. destruct (alternates_spec b limit l [clipKey (ca_pl main)] 0 Hl) as (A & B & C & D). split_and!.
  - intros c Hc. destruct (A c Hc) as (i & Hi%Hin & _ & Hlc & _). split; [by eapply list_elem_of_lookup_2 | done].
  - cbn [map]. apply NoDup_cons. split; [| done]. intros (c & E & Hc)%list_elem_of_fmap.
    destruct (A c Hc) as (_ & _ & _ & _ & Hk). apply Hk. rewrite E. by left.
  - eapply sublist_sorted; [done |]. by apply (sorted_map snd (fun x y => ca_ticks y <= ca_ticks x)).
  - lia.
  - intros Hn i c Hi Hc. destruct (decide (i = b)) as [->|Hne].
    + exists main. split; [by left | congruence].
    + destruct (alternates_complete b limit l [clipKey (ca_pl main)] 0 Hl ltac:(lia) i c) as [E|(a & Ha & E)]; [by apply Hin | done | done | |].
      * apply list_elem_of_singleton in E. exists main. split; [by left | done].
      * exists a. split; [by right | done].
Qed.

(** Whatever bytes a disc stores as a language, the code of its tracks is empty or
    three lower-case letters. *)
Theorem language_code_wellformed `{Unicode} raw : langCode raw = "" \/
  String.length (langCode raw) = 3%nat /\
  forallb (fun c => in_range 97 122 (byte_of c)) (String.list_ascii_of_string (langCode raw)) = true.
Proof.
  unfold langCode. set (s := to_lower _). destruct (forallb _ (String.list_ascii_of_string s)) eqn:Hs; [| by left]. cbn [negb].
  destruct (Nat.eqb_spec (String.length s) 2).
  { destruct (assoc_result iso6391 s) as [->|(v & Hv & ->)]; [by left |]. right. by apply (codes_ok iso6391). }
  destruct (Nat.eqb_spec (String.length s) 3); [| by left]. destruct (mem s _); [by left |].
  right. destruct (assoc_result iso6392TtoB s) as [->|(v & Hv & ->)]; [done |]. by apply (codes_ok iso6392TtoB).
Qed.

