(* ===== verification/GoNet.v ===== *)
(** * Go's standard library: addresses and URLs *)

From S2P Require Import Prelude GoStd.
Local Open Scope string_scope.
Local Open Scope Z_scope.

(** * Network addresses (packages net and net/netip of Go's standard library)

    What internal/auth and internal/netguard use of them: parsing addresses, prefixes
    and "host:port", membership of a prefix, and the special-purpose ranges. A
    [netip.Addr] is a 32-bit or a 128-bit number with a zone; a non-nil [net.IP] of
    [net.ParseIP] is its 16-byte form, a 128-bit number. *)

Inductive Addr := V4 (v : Z) | V6 (v : Z) (zone : string).
#[export] Instance Addr_eq_dec : EqDecision Addr.
Proof. solve_decision. Defined.

(** ** Addresses *)

(** A 16-byte address of the form ::ffff:a.b.c.d. *)
Definition mapped (v : Z) : bool := Z.shiftr v 32 =? 0xffff.
Definition Is4 (a : Addr) : bool := match a with V4 _ => true | V6 _ _ => false end.
Definition Is6 (a : Addr) : bool := negb (Is4 a).
Definition Is4In6 (a : Addr) : bool := match a with V4 _ => false | V6 v _ => mapped v end.
Definition Unmap (a : Addr) : Addr :=
  match a with V6 v z => if mapped v then V4 (Z.land v 0xffffffff) else a | V4 _ => a end.
Definition WithoutZone (a : Addr) : Addr := match a with V6 v _ => V6 v "" | V4 v => V4 v end.
Definition Zone (a : Addr) : string := match a with V6 _ z => z | V4 _ => "" end.
Definition BitLen (a : Addr) : Z := if Is4 a then 32 else 128.
Definition addr_bits (a : Addr) : Z := match a with V4 v => v | V6 v _ => v end.
Definition As16 (a : Addr) : Z := match a with V4 v => Z.lor (Z.shiftl 0xffff 32) v | V6 v _ => v end.

(** [netipFromIP] of the source on a non-nil address: the unmapped form. *)
Definition addr_of_ip (ip : Z) : Addr := Unmap (V6 ip "").

(** ** Prefixes *)

Record Prefix := { px_addr : Addr; px_bits : Z }.
#[export] Instance Prefix_eq_dec : EqDecision Prefix.
Proof. solve_decision. Defined.

(** The first [n] bits of a number of [width] bits. *)
Definition top_bits (width n v : Z) : Z := Z.shiftr v (width - n).
Definition Contains (p : Prefix) (a : Addr) : bool :=
  String.eqb (Zone a) "" && Bool.eqb (Is4 (px_addr p)) (Is4 a) &&
  (top_bits (BitLen a) (px_bits p) (addr_bits (px_addr p)) =? top_bits (BitLen a) (px_bits p) (addr_bits a)).
Definition clear_low (width n v : Z) : Z := Z.shiftl (top_bits width n v) (width - n).
(** [Prefix.Masked], on a prefix without a zone. *)
Definition Masked (p : Prefix) : Prefix := {|
  px_addr := match px_addr p with
    | V4 v => V4 (clear_low 32 (px_bits p) v)
    | V6 v _ => V6 (clear_low 128 (px_bits p) v) "" end;
  px_bits := px_bits p |}.
(** [Addr.Prefix(n)], for 0 <= n <= the length of the address. *)
Definition addr_prefix (a : Addr) (n : Z) : Prefix := Masked {| px_addr := WithoutZone a; px_bits := n |}.

(** ** Special-purpose ranges *)

Definition v4 (a b c d : Z) : Z := ((a * 256 + b) * 256 + c) * 256 + d.
Definition IsLoopback (a : Addr) : bool :=
  match Unmap a with V4 v => Z.shiftr v 24 =? 127 | V6 v _ => v =? 1 end.
Definition IsPrivate (a : Addr) : bool :=
  match Unmap a with
  | V4 v => (Z.shiftr v 24 =? 10) || (Z.shiftr v 20 =? Z.shiftr (v4 172 16 0 0) 20) || (Z.shiftr v 16 =? Z.shiftr (v4 192 168 0 0) 16)
  | V6 v _ => Z.shiftr v 121 =? Z.shiftr 0xfc 1
  end.
Definition IsLinkLocalUnicast (a : Addr) : bool :=
  match Unmap a with
  | V4 v => Z.shiftr v 16 =? Z.shiftr (v4 169 254 0 0) 16
  | V6 v _ => Z.shiftr v 118 =? Z.shiftr 0xfe80 6
  end.

(** ** Parsing *)

Definition is_dec (c : ascii) : bool := in_range 48 57 (byte_of c).
Definition hex_val (c : ascii) : option Z :=
  let b := byte_of c in
  if in_range 48 57 b then Some (b - 48) else if in_range 97 102 b then Some (b - 87)
  else if in_range 65 70 b then Some (b - 55) else None.

(** One decimal field: digits, no leading zero, at most 255. *)
Definition octet (s : string) : option Z :=
  match s with
  | "" => None
  | String c rest =>
    if (String.eqb (String c "") "0") && negb (String.eqb rest "") then None else
    match parse_digits 0 s with Some v => if v <=? 255 then Some v else None | None => None end
  end.
Definition parseIPv4 (s : string) : option Z :=
  match map octet (split_byte "."%char s) with
  | [Some a; Some b; Some c; Some d] => Some (v4 a b c d)
  | _ => None
  end.

(** The hexadecimal digits a text starts with: their value, their number, the rest. *)
Fixpoint hex_run (acc : Z) (n : nat) (s : string) : Z * nat * string :=
  match s with
  | String c s' => match hex_val c with Some d => hex_run (acc * 16 + d) (S n) s' | None => (acc, n, s) end
  | "" => (acc, n, s)
  end.
(** The loop of netip's [parseIPv6] over the groups of 16 bits; [gap] is how many there
    were before "::". The result is the groups and the gap. *)
Fixpoint groups_loop (fuel : nat) (groups : list Z) (gap : option nat) (s : string) : option (list Z * option nat) :=
  match fuel with
  | O => if String.eqb s "" then Some (groups, gap) else None      (* eight groups were read *)
  | S fuel =>
    let '(v, n, rest) := hex_run 0 0 s in
    if (n =? 0)%nat || (4 <? n)%nat then None else
    match rest with
    | "" => Some ((groups ++ [v])%list, gap)
    | String c rest' =>
      if Ascii.eqb c "." then
        if bool_decide (gap = None) && negb (length groups =? 6)%nat then None
        else if (6 <? length groups)%nat then None
        else match parseIPv4 s with
          | Some v => Some ((groups ++ [Z.shiftr v 16; Z.land v 0xffff])%list, gap)
          | None => None end
      else if negb (Ascii.eqb c ":") then None
      else match rest' with
        | "" => None
        | String c' rest'' =>
          if Ascii.eqb c' ":" then
            if bool_decide (gap = None) then
              let groups := (groups ++ [v])%list in
              if String.eqb rest'' "" then Some (groups, Some (length groups))
              else groups_loop fuel groups (Some (length groups)) rest''
            else None
          else groups_loop fuel (groups ++ [v])%list gap rest'
        end
    end
  end.
Definition join_groups (l : list Z) : Z := foldl (fun acc g => acc * 65536 + g) 0 l.
Definition expand (groups : list Z) (gap : option nat) : option Z :=
  match gap with
  | None => if (length groups =? 8)%nat then Some (join_groups groups) else None
  | Some g =>
    if (length groups <? 8)%nat
    then Some (join_groups (take g groups ++ replicate (8 - length groups) 0 ++ drop g groups)) else None
  end.
Definition parseIPv6 (s : string) : option Addr :=
  let '(s, zone, ok) :=
    match index_byte s "%" with
    | Some i => let z := sdrop (S i) s in (stake i s, z, negb (String.eqb z ""))
    | None => (s, "", true) end in
  if negb ok then None else
  if has_prefix s "::" then
    if (String.length s =? 2)%nat then Some (V6 0 zone)
    else match groups_loop 8 [] (Some 0%nat) (sdrop 2 s) with
      | Some (gs, gap) => (fun v => V6 v zone) <$> expand gs gap | None => None end
  else match groups_loop 8 [] None s with
    | Some (gs, gap) => (fun v => V6 v zone) <$> expand gs gap | None => None end.

(** [netip.ParseAddr]: the first of ".", ":" and "%" tells the family. *)
Definition ParseAddr (s : string) : option Addr :=
  match index_byte_where (fun c => Ascii.eqb c "." || Ascii.eqb c ":" || Ascii.eqb c "%") s with
  | None => None
  | Some i =>
    match String.get i s with
    | Some c => if Ascii.eqb c "." then V4 <$> parseIPv4 s else if Ascii.eqb c ":" then parseIPv6 s else None
    | None => None
    end
  end.
(** [net.ParseIP]; [None] is nil. *)
Definition ParseIP (s : string) : option Z :=
  match ParseAddr s with Some a => if String.eqb (Zone a) "" then Some (As16 a) else None | None => None end.

(** [netip.ParsePrefix]. *)
Definition ParsePrefix (s : string) : option Prefix :=
  match last_index_byte s "/" with
  | None => None
  | Some i =>
    match ParseAddr (stake i s) with
    | None => None
    | Some a =>
      if negb (String.eqb (Zone a) "") then None else
      let bits := sdrop (S i) s in
      let plain := match bits with String c (String _ _) => in_range 49 57 (byte_of c) | _ => true end in
      if negb plain then None else
      match parse_int bits with
      | Some n => if (n <? 0) || (BitLen a <? n) then None else Some {| px_addr := a; px_bits := n |}
      | None => None
      end
    end
  end.

(** [net.SplitHostPort]: the host and the port, or [None] for an error. *)
Definition SplitHostPort (s : string) : option (string * string) :=
  match last_index_byte s ":" with
  | None => None
  | Some i =>
    let port := sdrop (S i) s in
    match s with
    | String "[" _ =>
      match index_byte s "]" with
      | None => None
      | Some e =>
        if negb (S e =? i)%nat then None else
        if bool_decide (is_Some (index_byte (sdrop 1 s) "[")) || bool_decide (is_Some (index_byte (sdrop (S e) s) "]"))
        then None else Some (stake (e - 1) (sdrop 1 s), port)
      end
    | _ =>
      let host := stake i s in
      if bool_decide (is_Some (index_byte host ":")) || bool_decide (is_Some (index_byte s "[")) ||
         bool_decide (is_Some (index_byte s "]")) then None else Some (host, port)
    end
  end.

(** ** Printing *)

Definition v4_text (v : Z) : string :=
  join "." (map (fun k => format_int (Z.land (Z.shiftr v k) 255)) [24; 16; 8; 0]).
Definition groups_of (v : Z) : list Z := map (fun k => Z.land (Z.shiftr v k) 0xffff) [112; 96; 80; 64; 48; 32; 16; 0].
(** How many groups are zero from here on. *)
Fixpoint zero_run (l : list Z) : nat := match l with g :: l => if g =? 0 then S (zero_run l) else 0 | [] => 0 end.
(** The first longest run of two zero groups or more: its start and length. *)
Definition longest_zeros (l : list Z) : nat * nat :=
  foldl (fun '(s, n) i => let k := zero_run (drop i l) in if (2 <=? k)%nat && (n <? k)%nat then (i, k) else (s, n))
    (0%nat, 0%nat) (seq 0 (length l)).
Definition hex_text (g : Z) : string :=
  match trim_left_where (Ascii.eqb "0") (hex_digits 4 g) with "" => "0" | s => s end.
Definition v6_text (v : Z) : string :=
  if mapped v then "::ffff:" +:+ v4_text (Z.land v 0xffffffff) else
  let l := groups_of v in
  let '(s, n) := longest_zeros l in
  if (n =? 0)%nat then join ":" (map hex_text l)
  else join ":" (map hex_text (take s l)) +:+ "::" +:+ join ":" (map hex_text (drop (s + n) l)).
Definition addr_text (a : Addr) : string :=
  match a with
  | V4 v => v4_text v
  | V6 v z => v6_text v +:+ (if String.eqb z "" then "" else "%" +:+ z)
  end.
Definition prefix_text (p : Prefix) : string := addr_text (px_addr p) +:+ "/" +:+ format_int (px_bits p).

(** ** Test vectors *)

Example parse_v4 : ParseAddr "192.168.1.20" = Some (V4 0xc0a80114).
Proof. reflexivity. Qed.
Example parse_zero : map ParseAddr ["1.2.3"; "1.2.3.04"; "1.2.3.256"; "1.2..4"; "abc"; "fe80::1%"; ":1"; "1::2::3"] = replicate 8 None.
Proof. reflexivity. Qed.
Example parse_v6 : map ParseAddr ["::1"; "2001:db8::8:800:200c:417a"; "::ffff:10.0.0.1"; "fe80::1%eth0"; "1:2:3:4:5:6:7:8"] =
  [Some (V6 1 ""); Some (V6 0x20010db80000000000080800200c417a ""); Some (V6 0xffff0a000001 ""); Some (V6 0xfe800000000000000000000000000001 "eth0");
   Some (V6 0x00010002000300040005000600070008 "")].
Proof. reflexivity. Qed.
Example print_v6 : map (fun s => addr_text <$> ParseAddr s) ["0:0::1"; "2001:db8:0:0:1:0:0:1"; "1::"; "::ffff:1.2.3.4"; "10.0.0.1"] =
  map Some ["::1"; "2001:db8::1:0:0:1"; "1::"; "::ffff:1.2.3.4"; "10.0.0.1"].
Proof. reflexivity. Qed.
Example split_host_port : map SplitHostPort ["a:80"; "[::1]:80"; "::1"; "[::1]"; "a"; "[a]b:1"; ":1"] =
  [Some ("a", "80"); Some ("::1", "80"); None; None; None; None; Some ("", "1")].
Proof. reflexivity. Qed.

(** * URLs (package net/url of Go's standard library)

    What internal/auth uses of it: the scheme and the host of a parsed URL, its host
    name and port, and the unescaping of path segments. *)

Record URL := { url_scheme : string; url_host : string }.

(** ** Escapes *)

Inductive encoding := encodePathSegment | encodeHost | encodeZone.
Definition is_alnum (c : ascii) : bool :=
  let b := byte_of c in in_range 97 122 b || in_range 65 90 b || in_range 48 57 b.
Definition byte_in (c : ascii) (s : string) : bool := bool_decide (is_Some (index_byte s c)).
(** The bytes a host or a zone may hold unescaped. *)
Definition host_plain (c : ascii) : bool := is_alnum c || byte_in c "!$&'()*+,;=:[]<>-_.~" || Ascii.eqb c (of_byte 34).

(** [unescape]; [None] is an error. *)
Fixpoint unescape (mode : encoding) (s : string) : option string :=
  match s with
  | "" => Some ""
  | String c rest =>
    if Ascii.eqb c "%" then
      match rest with
      | String a (String b rest) =>
        match hex_val a, hex_val b with
        | Some x, Some y =>
          let v := x * 16 + y in
          let refused :=
            match mode with
            | encodePathSegment => false
            | encodeHost => (x <? 8) && negb (v =? 0x25)
            | encodeZone => negb (v =? 0x25) && negb (v =? 32) && negb (host_plain (of_byte v))
            end in
          if refused then None else String (of_byte v) <$> unescape mode rest
        | _, _ => None
        end
      | _ => None
      end
    else
      let refused :=
        match mode with encodePathSegment => false | _ => (byte_of c <? 128) && negb (host_plain c) end in
      if refused then None else String c <$> unescape mode rest
  end.
Definition PathUnescape : string -> option string := unescape encodePathSegment.

(** ** Parsing *)

Definition validOptionalPort (port : string) : bool :=
  match port with
  | "" => true
  | String c rest => Ascii.eqb c ":" && forallb is_dec (String.list_ascii_of_string rest)
  end.
(** A host in brackets is an IPv6 address, with its zone after "%25"; otherwise only a
    port follows a colon. *)
Definition parseHost (host : string) : option string :=
  match last_index_byte host "[" with
  | Some (S _) => None
  | Some O =>
    match last_index_byte host "]" with
    | None => None
    | Some i =>
      let colonPort := sdrop (S i) host in
      let name := stake (i - 1) (sdrop 1 host) in
      if negb (validOptionalPort colonPort) then None else
      let text :=
        match index_of name "%25" with
        | Some zone =>
          match unescape encodeHost (stake zone name), unescape encodeZone (sdrop zone name) with
          | Some a, Some b => Some (a +:+ b)
          | _, _ => None
          end
        | None => unescape encodeHost name
        end in
      match text with
      | None => None
      | Some text =>
        match ParseAddr text with
        | Some a => if Is4 a then None else Some ("[" +:+ text +:+ "]" +:+ colonPort)
        | None => None
        end
      end
    end
  | None =>
    match index_byte host ":" with
    | Some i => if validOptionalPort (sdrop i host) then unescape encodeHost host else None
    | None => unescape encodeHost host
    end
  end.
Definition validUserinfo (s : string) : bool :=
  forallb (fun c => is_alnum c || byte_in c "-._:~!$&'()*+,;=%@") (String.list_ascii_of_string s).
Definition parseAuthority (authority : string) : option string :=
  match last_index_byte authority "@" with
  | None => parseHost authority
  | Some i =>
    match parseHost (sdrop (S i) authority) with
    | None => None
    | Some host =>
      let user := stake i authority in
      if validUserinfo user && bool_decide (is_Some (PathUnescape user)) then Some host else None
    end
  end.

(** The scheme in lower case (ASCII) with the rest; [None] is an error. *)
Fixpoint get_scheme (read s full : string) : option (string * string) :=
  match s with
  | "" => Some ("", full)
  | String c rest =>
    let b := byte_of c in
    if in_range 97 122 b || in_range 65 90 b then get_scheme (read +:+ String c "") rest full
    else if in_range 48 57 b || byte_in c "+-." then
      if String.eqb read "" then Some ("", full) else get_scheme (read +:+ String c "") rest full
    else if Ascii.eqb c ":" then
      if String.eqb read "" then None
      else Some (smap (fun c => let b := byte_of c in if in_range 65 90 b then of_byte (b + 32) else c) read, rest)
    else Some ("", full)
  end.
Definition has_control (s : string) : bool :=
  existsb (fun c => (byte_of c <? 32) || (byte_of c =? 127)) (String.list_ascii_of_string s).

(** [url.Parse], of which only the scheme and the host are kept. *)
Definition url_parse (raw : string) : option URL :=
  let '(u, frag) := match index_byte raw "#" with Some i => (stake i raw, sdrop (S i) raw) | None => (raw, "") end in
  if has_control u || negb (bool_decide (is_Some (PathUnescape frag))) then None else
  if String.eqb u "*" then Some {| url_scheme := ""; url_host := "" |} else
  match get_scheme "" u u with
  | None => None
  | Some (scheme, rest) =>
    let rest := match index_byte rest "?" with Some i => stake i rest | None => rest end in
    let finish host path :=
      if bool_decide (is_Some (PathUnescape path)) then Some {| url_scheme := scheme; url_host := host |} else None in
    if negb (has_prefix rest "/") && negb (String.eqb scheme "") then Some {| url_scheme := scheme; url_host := "" |} else
    if negb (has_prefix rest "/") &&
       byte_in ":" (match index_byte rest "/" with Some i => stake i rest | None => rest end) then None else
    if has_prefix rest "//" && (negb (String.eqb scheme "") || negb (has_prefix rest "///")) then
      let auth := sdrop 2 rest in
      let '(auth, path) := match index_byte auth "/" with Some i => (stake i auth, sdrop i auth) | None => (auth, "") end in
      match parseAuthority auth with Some host => finish host path | None => None end
    else finish "" rest
  end.

(** [URL.Hostname] and [URL.Port]. *)
Definition host_and_port (u : URL) : string * string :=
  let '(host, port) :=
    match last_index_byte (url_host u) ":" with
    | Some i => if validOptionalPort (sdrop i (url_host u)) then (stake i (url_host u), sdrop (S i) (url_host u)) else (url_host u, "")
    | None => (url_host u, "")
    end in
  ((if has_prefix host "[" && has_suffix host "]" then stake (String.length host - 2) (sdrop 1 host) else host), port).

Example parse_origin : map (fun s => (fun u => (url_scheme u, host_and_port u)) <$> url_parse s)
    ["HTTPS://Tower.local:3873"; "http://[fe80::1%25eth0]:80/x?y#z"; "http://u:p@h"; "mailto:x"; "//h/p"; "http://a b"; "a:b"; "http://h:x"] =
  [Some ("https", ("Tower.local", "3873")); Some ("http", ("fe80::1%eth0", "80")); Some ("http", ("h", "")); Some ("mailto", ("", ""));
   Some ("", ("h", "")); None; Some ("a", ("", "")); None].
Proof. reflexivity. Qed.
Example unescape_path : map PathUnescape ["a%2Fb"; "..%2f"; "%zz"; "100%"] = [Some "a/b"; Some "../"; None; None].
Proof. reflexivity. Qed.
