(* ===== verification/Limiter.v ===== *)
(** * Throttling of logins and of log lines (internal/auth/limiter.go)

    Times and durations are nanoseconds. Every operation holds the limiter's mutex, so
    a concurrent history is a sequence of operations. Go iterates a map in any order:
    [evictLocked] takes the order as an argument. *)

From S2P Require Import Prelude GoStd GoNet.
Local Open Scope string_scope.
Local Open Scope Z_scope.

Definition second : Z := 1000000000.
Definition minute : Z := 60 * second.
Definition freeAttempts : Z := 5.
Definition baseDelay : Z := second.
Definition maxDelay : Z := 15 * minute.
Definition forgetAfter : Z := 60 * minute.
Definition maxLimiterKeys : Z := 10000.
Definition userFreeAttempts : Z := 10.
Definition userMaxDelay : Z := 5 * minute.
Definition ipv6LimiterPrefix : Z := 56.

Record limiterPolicy := { lp_free : Z; lp_base : Z; lp_max : Z }.
Definition addressPolicy : limiterPolicy := {| lp_free := freeAttempts; lp_base := baseDelay; lp_max := maxDelay |}.
Definition userPolicy : limiterPolicy := {| lp_free := userFreeAttempts; lp_base := baseDelay; lp_max := userMaxDelay |}.

Record attempts := { at_failures : Z; at_last : Z }.
Record limiter := { lm_policy : limiterPolicy; lm_entries : gmap string attempts }.
Definition newLimiterWith (p : limiterPolicy) : limiter := {| lm_policy := p; lm_entries := ∅ |}.
Definition with_entries (l : limiter) (m : gmap string attempts) : limiter :=
  {| lm_policy := lm_policy l; lm_entries := m |}.

Definition delay (p : limiterPolicy) (n : Z) : Z :=
  if n <? lp_free p then 0 else
  let shift := n - lp_free p in
  if 20 <=? shift then lp_max p else Z.min (wrap64 (Z.shiftl (lp_base p) shift)) (lp_max p).

Definition key_count (m : gmap string attempts) : Z := Z.of_nat (size m).

(** The loop of [evictLocked] over the keys in [order]; [oldest] is the stalest key so
    far with its time. *)
Fixpoint evict_loop (now : Z) (order : list string) (m : gmap string attempts) (oldestKey : string) (oldest : Z) :
    gmap string attempts * string :=
  match order with
  | [] => (m, oldestKey)
  | k :: order =>
    match m !! k with
    | None => evict_loop now order m oldestKey oldest
    | Some e =>
      if forgetAfter <? now - at_last e then evict_loop now order (delete k m) oldestKey oldest
      else if String.eqb oldestKey "" || (at_last e <? oldest) then evict_loop now order m k (at_last e)
      else evict_loop now order m oldestKey oldest
    end
  end.
Definition evictLocked (now : Z) (order : list string) (l : limiter) : limiter :=
  let '(m, oldestKey) := evict_loop now order (lm_entries l) "" 0 in
  with_entries l (if (maxLimiterKeys <=? key_count m) && negb (String.eqb oldestKey "") then delete oldestKey m else m).

(** The wait, zero when the attempt may be made; [order] is that of an eviction. *)
Definition begin_attempt (key : string) (now : Z) (order : list string) (l : limiter) : Z * limiter :=
  let m0 := lm_entries l in
  let '(e, m) :=
    match m0 !! key with
    | Some e => if forgetAfter <? now - at_last e then (None, delete key m0) else (Some e, m0)
    | None => (None, m0) end in
  let l := with_entries l m in
  let until := match e with Some e => at_last e + delay (lm_policy l) (at_failures e) | None => now end in
  if bool_decide (is_Some e) && (now <? until) then (until - now, l) else
  let l := if bool_decide (e = None) && (maxLimiterKeys <=? key_count m) then evictLocked now order l else l in
  let failures := match e with Some e => at_failures e | None => 0 end in
  (0, with_entries l (<[key := {| at_failures := failures + 1; at_last := now |}]> (lm_entries l))).

Definition abort (key : string) (l : limiter) : limiter :=
  match lm_entries l !! key with
  | Some e =>
    let n := at_failures e - 1 in
    with_entries l (if n <=? 0 then delete key (lm_entries l)
      else <[key := {| at_failures := n; at_last := at_last e |}]> (lm_entries l))
  | None => l
  end.
Definition reset (key : string) (l : limiter) : limiter := with_entries l (delete key (lm_entries l)).

(** ** Keys *)

Definition limiterKey (ip : option Z) : string :=
  match ip with
  | None => "unknown"
  | Some ip =>
    let a := addr_of_ip ip in
    if Is6 a then prefix_text (addr_prefix a ipv6LimiterPrefix) else addr_text a
  end.

Section keys.
Context `{Unicode}.
(** The first 16 bytes of the digest. *)
Definition userLimiterKey (username : string) : string :=
  "u:" +:+ stake 32 (sha256_hex (to_lower (trim_space username))).
End keys.

(** ** Log sampling *)

Definition logSampleWindow : Z := minute.
Definition logSampleBurst : Z := 10.
(** [counts = None]: the nil map of a sampler not used yet. *)
Record logSampler := { ls_window : Z; ls_counts : option (gmap string Z); ls_suppressed : gmap string Z }.
Definition allow (kind : string) (now : Z) (l : logSampler) : (bool * Z) * logSampler :=
  let '(window, counts) :=
    match ls_counts l with
    | Some c => if (logSampleWindow <=? now - ls_window l) || (now <? ls_window l) then (now, ∅) else (ls_window l, c)
    | None => (now, ∅) end in
  let n := default 0 (counts !! kind) in
  let s := default 0 (ls_suppressed l !! kind) in
  if logSampleBurst <=? n then
    ((false, 0), {| ls_window := window; ls_counts := Some counts; ls_suppressed := <[kind := s + 1]> (ls_suppressed l) |})
  else
    ((true, s), {| ls_window := window; ls_counts := Some (<[kind := n + 1]> counts);
                   ls_suppressed := delete kind (ls_suppressed l) |}).
