(* ===== verification/LimiterFacts.v ===== *)
(** * Login throttling: lemmas *)

From S2P Require Import Prelude GoStd GoNet Limiter.
Local Open Scope string_scope.
Local Open Scope Z_scope.

(** ** The backoff schedule *)

Record policy_ok (p : limiterPolicy) : Prop := {
  po_free : 0 <= lp_free p;
  po_base : 0 <= lp_base p < 2 ^ 40;
  po_max : 0 <= lp_max p;
}.
Lemma policies_ok : policy_ok addressPolicy /\ policy_ok userPolicy.
Proof. repeat split; done. Qed.

Lemma delay_shift p n : policy_ok p -> lp_free p <= n < lp_free p + 20 ->
  delay p n = Z.min (lp_base p * 2 ^ (n - lp_free p)) (lp_max p).
Proof.
  intros [H1 H2 H3] Hn. unfold delay. destruct (Z.ltb_spec n (lp_free p)); [lia |].
  destruct (Z.leb_spec 20 (n - lp_free p)); [lia |]. rewrite Z.shiftl_mul_pow2 by lia. rewrite wrap64_id; [done |].
  assert (2 ^ (n - lp_free p) <= 2 ^ 19) by (apply Z.pow_le_mono_r; lia).
  unfold min_int64, max_int64. nia.
Qed.
Lemma delay_range p n : policy_ok p -> 0 <= delay p n <= lp_max p.
Proof.
  intros Hp. destruct (Z.ltb_spec n (lp_free p)) as [Hn|Hn].
  - unfold delay. rewrite (proj2 (Z.ltb_lt _ _) Hn). destruct Hp; lia.
  - destruct (Z.le_gt_cases (lp_free p + 20) n).
    + unfold delay. destruct (Z.ltb_spec n (lp_free p)); [lia |]. destruct (Z.leb_spec 20 (n - lp_free p)); [| lia]. destruct Hp; lia.
    + rewrite delay_shift by (done || lia). destruct Hp. assert (0 <= 2 ^ (n - lp_free p)) by (apply Z.pow_nonneg; lia). nia.
Qed.
(** A further failure never shortens the wait. *)
Lemma delay_mono p n m : policy_ok p -> lp_max p <= lp_base p * 2 ^ 19 -> n <= m -> delay p n <= delay p m.
Proof.
  intros Hp Hmax Hnm. destruct (Z.ltb_spec n (lp_free p)) as [Hn|Hn].
  { unfold delay at 1. rewrite (proj2 (Z.ltb_lt _ _) Hn). by apply delay_range. }
  destruct (Z.le_gt_cases (lp_free p + 20) m) as [Hm|Hm].
  { replace (delay p m) with (lp_max p); [by apply delay_range |]. unfold delay.
    destruct (Z.ltb_spec m (lp_free p)); [lia |]. by destruct (Z.leb_spec 20 (m - lp_free p)); [| lia]. }
  rewrite !delay_shift by (done || lia). apply Z.min_le_compat_r, Z.mul_le_mono_nonneg_l; [destruct Hp; lia |].
  apply Z.pow_le_mono_r; lia.
Qed.

(** ** What one attempt does *)

Lemma size_delete_le (m : gmap string attempts) k : key_count (delete k m) <= key_count m.
Proof.
  unfold key_count. destruct (m !! k) eqn:E; [rewrite map_size_delete_Some by eauto | rewrite map_size_delete_None by done]; lia.
Qed.

Section begin.
Context (key : string) (now : Z) (order : list string) (l : limiter).

Definition expired (e : attempts) : bool := forgetAfter <? now - at_last e.
(** The failures counted for the key, none when it is unknown or forgotten. *)
Definition failures_of (m : gmap string attempts) : Z :=
  match m !! key with Some e => if expired e then 0 else at_failures e | None => 0 end.

Lemma begin_accepted : 0 <= lp_max (lm_policy l) -> let '(wait, l') := begin_attempt key now order l in
  0 <= wait /\
  (wait = 0 -> lm_entries l' !! key = Some {| at_failures := failures_of (lm_entries l) + 1; at_last := now |} /\
    forall e, lm_entries l !! key = Some e -> expired e = false -> at_last e + delay (lm_policy l) (at_failures e) <= now) /\
  (0 < wait -> l' = l /\ exists e, lm_entries l !! key = Some e /\ expired e = false /\
    now + wait = at_last e + delay (lm_policy l) (at_failures e)).
Proof.
  intros Hmax. unfold begin_attempt, failures_of, expired. destruct (lm_entries l !! key) as [e|] eqn:He.
  - destruct (Z.ltb_spec forgetAfter (now - at_last e)) as [Hx|Hx]; cbn [bool_decide].
    + rewrite bool_decide_eq_false_2 by (by intros [? [=]]). cbn [andb]. split_and!; [lia | | lia]. intros _.
      split; [cbn; by rewrite lookup_insert_eq |]. intros ? [= <-]. rewrite (proj2 (Z.ltb_lt _ _)) by lia. done.
    + rewrite bool_decide_eq_true_2 by eauto. cbn [andb]. set (until := at_last e + _).
      destruct (Z.ltb_spec now until) as [Hu|Hu].
      * split_and!; [lia | lia |]. intros _. split; [by destruct l | exists e; split_and!; [done | by apply Z.ltb_ge | unfold until; cbn; lia]].
      * rewrite bool_decide_eq_false_2 by done. cbn [andb]. split_and!; [lia | | lia]. intros _.
        split; [cbn; by rewrite lookup_insert_eq |]. intros ? [= <-] _. unfold until in Hu. cbn in Hu. lia.
  - rewrite bool_decide_eq_false_2 by (by intros [? [=]]). cbn [andb]. split_and!; [lia | | lia]. intros _.
    split; [cbn; by rewrite lookup_insert_eq |]. done.
Qed.

Lemma begin_policy : lm_policy (snd (begin_attempt key now order l)) = lm_policy l.
Proof.
  unfold begin_attempt. repeat (case_match || cbn); try done; simplify_eq; try done;
    unfold evictLocked; destruct (evict_loop _ _ _ _ _); done.
Qed.

(** Without an eviction the other keys are untouched. *)
Lemma begin_others k' : k' <> key -> key_count (lm_entries l) < maxLimiterKeys ->
  lm_entries (snd (begin_attempt key now order l)) !! k' = lm_entries l !! k'.
Proof.
  intros Hne Hn. unfold begin_attempt.
  assert (Hd : key_count (delete key (lm_entries l)) < maxLimiterKeys).
  { pose proof (size_delete_le (lm_entries l) key). lia. }
  destruct (lm_entries l !! key) as [e|] eqn:He; [destruct (forgetAfter <? _) |];
    cbn [lm_entries with_entries]; cbn [bool_decide];
    match goal with |- context [if ?a && ?b then _ else _] => destruct (a && b) end; cbn [snd lm_entries with_entries];
    rewrite ?lookup_delete_ne by done; try done;
    match goal with |- context [if ?a && ?b then _ else _] => replace (a && b) with false
      by (symmetry; apply andb_false_iff; right; apply Z.leb_gt; done) end;
    cbn [lm_entries with_entries]; rewrite lookup_insert_ne by done; by rewrite ?lookup_delete_ne by done.
Qed.
End begin.

(** ** The table stays bounded *)

Definition listed (m : gmap string attempts) (order : list string) : Prop := forall k, is_Some (m !! k) -> k ∈ order.

Lemma size_delete_lt (m : gmap string attempts) k : is_Some (m !! k) -> key_count (delete k m) < key_count m.
Proof.
  intros Hs. unfold key_count. rewrite map_size_delete_Some by done. destruct Hs as [e He].
  assert (size m <> 0%nat); [| lia]. intros Hz. apply map_size_empty_inv in Hz. subst m. by rewrite lookup_empty in He.
Qed.

(** What the loop keeps: it deletes expired keys only, and knows the stalest of the rest. *)
Lemma evict_loop_spec now order m oldestKey oldest m' k' :
  "" ∉ order -> evict_loop now order m oldestKey oldest = (m', k') ->
  (oldestKey = "" \/ exists e, m !! oldestKey = Some e /\ expired now e = false /\ at_last e = oldest) ->
  (forall k e, m' !! k = Some e -> m !! k = Some e) /\
  (forall k e, m !! k = Some e -> expired now e = false -> m' !! k = Some e) /\
  (forall k e, k ∈ order -> m' !! k = Some e -> expired now e = false) /\
  (k' = "" -> oldestKey = "" /\ forall k, k ∈ order -> m' !! k = None) /\
  (k' <> "" -> exists o, m' !! k' = Some o /\ expired now o = false /\
     (oldestKey <> "" -> at_last o <= oldest) /\
     (forall k e, k ∈ order -> m' !! k = Some e -> at_last o <= at_last e)).
Proof.
  revert m oldestKey oldest. induction order as [|k order IH]; intros m ok o Hne E Ho; cbn [evict_loop] in E.
  { injection E as <- <-. split_and!; [done | done | by intros ? ? ?%not_elem_of_nil | |].
    - intros ->. split; [done | by intros ? ?%not_elem_of_nil].
    - intros Hok. destruct Ho as [->|(e & He & Hx & <-)]; [done |]. exists e. split_and!; [done | done | lia | by intros ? ? ?%not_elem_of_nil]. }
  apply not_elem_of_cons in Hne as [Hk Hne]. destruct (m !! k) as [e|] eqn:He.
  2: { destruct (IH m ok o Hne E Ho) as (A & B & C & D & F). assert (Hn : m' !! k = None).
    { destruct (m' !! k) eqn:Hm; [| done]. apply A in Hm. congruence. }
    split_and!; [done | done | | |].
    - intros x ex [->|Hx]%elem_of_cons Hm; [congruence | by eapply C].
    - intros Hk'. destruct (D Hk') as [D1 D2]. split; [done |]. intros x [->|Hx]%elem_of_cons; auto.
    - intros Hk'. destruct (F Hk') as (z & F1 & F2 & F3 & F4). exists z. split_and!; [done.. |].
      intros x ex [->|Hx]%elem_of_cons Hm; [congruence | by eapply F4]. }
  change (forgetAfter <? now - at_last e) with (expired now e) in E. destruct (expired now e) eqn:Hx.
  { assert (Ho' : ok = "" \/ exists e0, delete k m !! ok = Some e0 /\ expired now e0 = false /\ at_last e0 = o).
    { destruct Ho as [|(z & Hz & Hzx & Hzo)]; [by left | right]. exists z. split; [| done]. rewrite lookup_delete_ne; [done | congruence]. }
    destruct (IH (delete k m) ok o Hne E Ho') as (A & B & C & D & F). assert (Hn : m' !! k = None).
    { destruct (m' !! k) eqn:Hm; [| done]. apply A in Hm. by rewrite lookup_delete_eq in Hm. }
    split_and!.
    - intros x ex Hm. apply A in Hm. by apply lookup_delete_Some in Hm as [_ ?].
    - intros x ex Hm Hxx. apply B; [| done]. rewrite lookup_delete_ne; [done | congruence].
    - intros x ex [->|Hin]%elem_of_cons Hm; [congruence | by eapply C].
    - intros Hk'. destruct (D Hk') as [D1 D2]. split; [done |]. intros x [->|Hin]%elem_of_cons; auto.
    - intros Hk'. destruct (F Hk') as (z & F1 & F2 & F3 & F4). exists z. split_and!; [done.. |].
      intros x ex [->|Hin]%elem_of_cons Hm; [congruence | by eapply F4]. }
  destruct (String.eqb ok "" || (at_last e <? o)) eqn:Hc.
  - destruct (IH m k (at_last e) Hne E) as (A & B & C & D & F); [right; eauto |].
    split_and!; [done | done | | |].
    + intros x ex [->|Hin]%elem_of_cons Hm; [apply A in Hm; congruence | by eapply C].
    + intros Hk'. destruct (D Hk') as [D1 D2]. done.
    + intros Hk'. destruct (F Hk') as (z & F1 & F2 & F3 & F4). exists z. specialize (F3 ltac:(done)). split_and!; [done | done | |].
      * intros Hok. apply orb_true_iff in Hc as [->%String.eqb_eq|Hc%Z.ltb_lt]; [done | lia].
      * intros x ex [->|Hin]%elem_of_cons Hm; [apply A in Hm; simplify_eq; done | by eapply F4].
  - apply orb_false_iff in Hc as [Hok%String.eqb_neq Hlt%Z.ltb_ge].
    destruct (IH m ok o Hne E Ho) as (A & B & C & D & F). split_and!; [done | done | | |].
    + intros x ex [->|Hin]%elem_of_cons Hm; [apply A in Hm; congruence | by eapply C].
    + intros Hk'. destruct (D Hk') as [D1 D2]. done.
    + intros Hk'. destruct (F Hk') as (z & F1 & F2 & F3 & F4). exists z. split_and!; [done.. |].
      intros x ex [->|Hin]%elem_of_cons Hm; [apply A in Hm; simplify_eq; specialize (F3 Hok); lia | by eapply F4].
Qed.

Lemma evict_frees now order l : "" ∉ order -> listed (lm_entries l) order ->
  0 < key_count (lm_entries l) <= maxLimiterKeys -> key_count (lm_entries (evictLocked now order l)) < maxLimiterKeys.
Proof.
  intros Hne Hl Hn. unfold evictLocked. destruct (evict_loop now order (lm_entries l) "" 0) as [m k] eqn:E.
  apply evict_loop_spec in E as (A & B & _ & D & F); [| done | by left]. cbn [lm_entries with_entries].
  assert (Hsub : m ⊆ lm_entries l) by (apply map_subseteq_spec; intros; by apply A).
  assert (Hle : key_count m <= key_count (lm_entries l)) by (unfold key_count; apply inj_le, map_subseteq_size; done).
  destruct (Z.leb_spec maxLimiterKeys (key_count m)); cbn [andb]; [| done].
  destruct (String.eqb_spec k "") as [->|Hk]; cbn [negb].
  - exfalso. destruct (D eq_refl) as [_ D2]. assert (m = ∅) as ->; [| done].
    apply map_empty. intros k. destruct (m !! k) eqn:Hm; [| done]. rewrite <- Hm. apply D2, Hl. apply A in Hm. eauto.
  - destruct (F Hk) as (o & Ho & _). pose proof (size_delete_lt m k ltac:(eauto)). lia.
Qed.

Lemma insert_count (m : gmap string attempts) k e : key_count m < maxLimiterKeys -> key_count (<[k:=e]> m) <= maxLimiterKeys.
Proof.
  unfold key_count. intros Hm. destruct (m !! k) eqn:E;
    [rewrite map_size_insert_Some by eauto | rewrite map_size_insert_None by done]; lia.
Qed.
Lemma update_count (m : gmap string attempts) k e : is_Some (m !! k) -> key_count (<[k:=e]> m) = key_count m.
Proof. intros Hs. unfold key_count. by rewrite map_size_insert_Some. Qed.

Lemma begin_count key now order l : "" ∉ order -> listed (lm_entries l) order ->
  key_count (lm_entries l) <= maxLimiterKeys ->
  key_count (lm_entries (snd (begin_attempt key now order l))) <= maxLimiterKeys.
Proof.
  intros Hne Hl Hn. unfold begin_attempt. destruct (lm_entries l !! key) as [e|] eqn:He.
  - pose proof (size_delete_lt (lm_entries l) key ltac:(eauto)).
    destruct (forgetAfter <? _); cbn [bool_decide lm_entries with_entries].
    + rewrite bool_decide_eq_false_2 by (by intros [? [=]]). cbn [andb bool_decide]. rewrite bool_decide_eq_true_2 by done. cbn [andb].
      destruct (Z.leb_spec maxLimiterKeys (key_count (delete key (lm_entries l)))); [lia |]. by apply insert_count.
    + rewrite bool_decide_eq_true_2 by eauto. cbn [andb]. destruct (_ <? _); [done |].
      rewrite bool_decide_eq_false_2 by done. cbn [andb snd lm_entries with_entries]. by rewrite update_count by eauto.
  - rewrite bool_decide_eq_false_2 by (by intros [? [=]]). cbn [andb]. rewrite bool_decide_eq_true_2 by done. cbn [andb].
    destruct (Z.leb_spec maxLimiterKeys (key_count (lm_entries l))); cbn [snd lm_entries with_entries].
    + apply insert_count. change (with_entries l (lm_entries l)) with (with_entries l (lm_entries l)).
      apply (evict_frees now order (with_entries l (lm_entries l))); cbn; [done | done |]. unfold maxLimiterKeys in *. lia.
    + by apply insert_count.
Qed.

(** ** Histories of a limiter *)

Inductive limiter_op :=
| Begin (key : string) (now : Z) (order : list string)
| Abort (key : string)
| Reset (key : string).
Definition limiter_step (l : limiter) (op : limiter_op) : limiter :=
  match op with
  | Begin k now order => snd (begin_attempt k now order l)
  | Abort k => abort k l
  | Reset k => reset k l
  end.
(** What the callers guarantee: keys are not empty, and an eviction visits every key. *)
Definition op_ok (l : limiter) (op : limiter_op) : Prop :=
  match op with
  | Begin k _ order => k <> "" /\ "" ∉ order /\ listed (lm_entries l) order
  | _ => True
  end.
Fixpoint history (l : limiter) (ops : list limiter_op) : Prop :=
  match ops with [] => True | op :: ops => op_ok l op /\ history (limiter_step l op) ops end.

Lemma step_count l op : op_ok l op -> key_count (lm_entries l) <= maxLimiterKeys ->
  key_count (lm_entries (limiter_step l op)) <= maxLimiterKeys.
Proof.
  intros Hop Hn. destruct op as [k now order|k|k]; cbn.
  - destruct Hop as (_ & H1 & H2). by apply begin_count.
  - unfold abort. destruct (lm_entries l !! k) eqn:E; [| done]. cbn. destruct (_ <=? 0).
    + pose proof (size_delete_le (lm_entries l) k). lia.
    + by rewrite update_count by eauto.
  - pose proof (size_delete_le (lm_entries l) k). lia.
Qed.
Lemma history_count l ops : history l ops -> key_count (lm_entries l) <= maxLimiterKeys ->
  key_count (lm_entries (foldl limiter_step l ops)) <= maxLimiterKeys.
Proof. revert l. induction ops as [|op ops IH]; intros l Hh Hn; [done |]. destruct Hh as [Ho Hh]. cbn. apply IH; [done |]. by apply step_count. Qed.

(** ** How often one key may try *)

(** The times of the accepted attempts of a key. *)
Fixpoint accepted (key : string) (l : limiter) (ops : list limiter_op) : list Z :=
  match ops with
  | [] => []
  | op :: ops =>
    let rest := accepted key (limiter_step l op) ops in
    match op with
    | Begin k now order => if String.eqb k key && (fst (begin_attempt k now order l) =? 0) then now :: rest else rest
    | _ => rest
    end
  end.
(** No attempt of the key succeeds or is taken back, and the table does not fill up. *)
Fixpoint guessing (key : string) (l : limiter) (ops : list limiter_op) : Prop :=
  match ops with
  | [] => True
  | op :: ops =>
    match op with Begin _ _ _ => True | Abort k | Reset k => k <> key end /\
    key_count (lm_entries l) < maxLimiterKeys /\ guessing key (limiter_step l op) ops
  end.
(** Each time is at least the delay of so many failures after the one before. *)
Fixpoint spaced (p : limiterPolicy) (n last : Z) (times : list Z) : Prop :=
  match times with [] => True | t :: times => last + delay p n <= t /\ spaced p (n + 1) t times end.

Section window.
Context (key : string) (p : limiterPolicy) (Hp : policy_ok p) (Hmax : lp_max p <= lp_base p * 2 ^ 19).

Lemma step_policy l op : lm_policy (limiter_step l op) = lm_policy l.
Proof.
  destruct op; cbn; [apply begin_policy | | done]. unfold abort. by destruct (_ !! _).
Qed.
Lemma step_other l op : key_count (lm_entries l) < maxLimiterKeys ->
  match op with Begin k _ _ | Abort k | Reset k => k <> key end -> lm_entries (limiter_step l op) !! key = lm_entries l !! key.
Proof.
  intros Hn Hk. destruct op as [k now order|k|k]; cbn.
  - by apply begin_others.
  - unfold abort. destruct (lm_entries l !! k); [| done]. cbn. destruct (_ <=? 0); [by rewrite lookup_delete_ne | by rewrite lookup_insert_ne].
  - by rewrite lookup_delete_ne.
Qed.

Lemma accepted_spaced l ops n e : guessing key l ops -> lm_policy l = p -> lm_entries l !! key = Some e ->
  n <= at_failures e -> Forall (fun t => t <= at_last e + forgetAfter) (accepted key l ops) ->
  Sorted Z.le (at_last e :: accepted key l ops) -> spaced p n (at_last e) (accepted key l ops).
Proof.
  revert l n e. induction ops as [|op ops IH]; intros l n e Hg Hpol He Hn Hw Hs; [done |].
  destruct Hg as (Hop & Hc & Hg). cbn [accepted] in *. set (l' := limiter_step l op) in *.
  assert (Hother : match op with Begin k _ _ | Abort k | Reset k => k <> key end ->
    Forall (fun t => t <= at_last e + forgetAfter) (accepted key l' ops) -> Sorted Z.le (at_last e :: accepted key l' ops) ->
    spaced p n (at_last e) (accepted key l' ops)).
  { intros Hk Hw' Hs'. apply (IH l'); try done; [by unfold l'; rewrite step_policy | by unfold l'; rewrite step_other]. }
  destruct op as [k now order|k|k]; [| by apply Hother..].
  destruct (String.eqb_spec k key) as [->|Hk]; [| by apply Hother]. cbn [andb] in *.
  assert (Hlp : 0 <= lp_max (lm_policy l)) by (rewrite Hpol; by destruct Hp).
  pose proof (begin_accepted key now order l Hlp) as Hb. unfold l' in *. cbn [limiter_step] in *.
  destruct (begin_attempt key now order l) as [wait l1] eqn:Eb. cbn [fst snd] in *. destruct Hb as (Hw0 & Hacc & Hrej).
  destruct (Z.eqb_spec wait 0) as [->|Hne].
  - destruct (Hacc eq_refl) as [Hnew Hd]. inversion Hw as [|? ? Hle Hw']; subst. inversion Hs as [|? ? Hs1 Hs2]; subst.
    inversion Hs2 as [|? ? Hle2]; subst.
    assert (Hx : expired now e = false) by (apply Z.ltb_ge; lia). unfold failures_of in Hnew. rewrite He, Hx in Hnew.
    specialize (Hd e He Hx). cbn [spaced]. split; [pose proof (delay_mono (lm_policy l) n (at_failures e) Hp Hmax Hn); lia |].
    apply (IH l1 (n + 1) {| at_failures := at_failures e + 1; at_last := now |}); cbn; try done; [| lia |].
    + pose proof (begin_policy key now order l) as Hpl. by rewrite Eb in Hpl.
    + eapply Forall_impl; [exact Hw' |]. cbn. lia.
  - destruct Hrej as [-> _]; [lia |]. by apply (IH l n e).
Qed.

Fixpoint total_delay (n : Z) (k : nat) : Z :=
  match k with O => 0 | S k => delay p n + total_delay (n + 1) k end.
Lemma total_delay_mono n j k : (j <= k)%nat -> total_delay n j <= total_delay n k.
Proof.
  revert n k. induction j as [|j IH]; intros n [|k] Hjk; cbn; try lia.
  - pose proof (delay_range p n Hp). assert (H0 : forall m i, 0 <= total_delay m i); [| pose proof (H0 (n + 1) k); lia].
    intros m i. revert m. induction i as [|i IHi]; intros m; cbn; [lia |]. pose proof (delay_range p m Hp). specialize (IHi (m + 1)). lia.
  - specialize (IH (n + 1) k ltac:(lia)). lia.
Qed.
Lemma spaced_total n a times T : spaced p n a times -> a <= T -> Forall (fun t => t <= T) times ->
  a + total_delay n (length times) <= T.
Proof.
  revert n a. induction times as [|t times IH]; intros n a Hs Ha Ht; cbn [total_delay length]; [lia |].
  destruct Hs as [Hd Hs]. inversion Ht; subst. specialize (IH _ t Hs ltac:(done) ltac:(done)). lia.
Qed.

(** At most [k] attempts within the time in which a key is remembered. *)
Lemma window_bound l ops k t0 : guessing key l ops -> lm_policy l = p -> Sorted Z.le (accepted key l ops) ->
  Forall (fun t => t0 <= t <= t0 + forgetAfter) (accepted key l ops) -> forgetAfter < total_delay 1 k ->
  (forall e, lm_entries l !! key = Some e -> 0 <= at_failures e) -> (length (accepted key l ops) <= k)%nat.
Proof.
  revert l. induction ops as [|op ops IH]; intros l Hg Hpol Hs Hw Hk He; [cbn; lia |].
  destruct Hg as (Hop & Hc & Hg). cbn [accepted] in *. set (l' := limiter_step l op) in *.
  assert (Hother : match op with Begin k _ _ | Abort k | Reset k => k <> key end -> Sorted Z.le (accepted key l' ops) ->
    Forall (fun t => t0 <= t <= t0 + forgetAfter) (accepted key l' ops) -> (length (accepted key l' ops) <= k)%nat).
  { intros Hne Hs' Hw'. apply (IH l'); try done; [by unfold l'; rewrite step_policy |].
    intros e. unfold l'. rewrite step_other by done. apply He. }
  destruct op as [k' now order|k'|k']; [| by apply Hother..].
  destruct (String.eqb_spec k' key) as [->|Hne]; [| by apply Hother]. cbn [andb] in *.
  assert (Hlp : 0 <= lp_max (lm_policy l)) by (rewrite Hpol; by destruct Hp).
  pose proof (begin_accepted key now order l Hlp) as Hb. pose proof (begin_policy key now order l) as Hpl. unfold l' in *. cbn [limiter_step] in *.
  destruct (begin_attempt key now order l) as [wait l1]. cbn [fst snd] in *. destruct Hb as (Hw0 & Hacc & Hrej).
  destruct (Z.eqb_spec wait 0) as [->|Hn0]; [| destruct Hrej as [-> _]; [lia | by apply (IH l)]].
  destruct (Hacc eq_refl) as [Hnew _]. inversion Hw as [|? ? Hle Hw']; subst. inversion Hs as [|? ? Hs1 Hs2]; subst.
  assert (Hf : 0 <= failures_of key now (lm_entries l)).
  { unfold failures_of. destruct (lm_entries l !! key) as [e|] eqn:E; [| lia]. destruct (expired now e); [lia | eauto]. }
  assert (Hsp : spaced p 1 now (accepted key l1 ops)).
  { apply (accepted_spaced l1 ops 1 {| at_failures := failures_of key now (lm_entries l) + 1; at_last := now |}); cbn; try (done || congruence || lia).
    eapply Forall_impl; [exact Hw' |]. cbn. lia. }
  apply (spaced_total _ _ _ (t0 + forgetAfter)) in Hsp; [| lia | eapply Forall_impl; [exact Hw' |]; cbn; lia].
  cbn [length]. destruct (decide (S (length (accepted key l1 ops)) <= k)%nat); [done |].
  assert (total_delay 1 k <= total_delay 1 (length (accepted key l1 ops))) by (apply total_delay_mono; lia). lia.
Qed.
End window.
