(* ===== verification/Network.v ===== *)
(** * Reverse-proxy trust, client addresses and host names (internal/auth/network.go)

    A request is what net/http delivers of it. A [net.IP] is [None] for nil, else its
    16-byte form. *)

From S2P Require Import Prelude GoStd GoNet.
Local Open Scope string_scope.
Local Open Scope Z_scope.

Record request := {
  rq_method : string;
  rq_remote : string;                       (* RemoteAddr *)
  rq_host : string;                         (* Host *)
  rq_header : gmap string (list string);    (* Header, by canonical name *)
  rq_path : string;                         (* URL.Path *)
  rq_escaped : string;                      (* URL.EscapedPath() *)
  rq_query : gmap string (list string);     (* URL.Query() *)
  rq_tls : bool;
  rq_cookies : list (string * string);
}.
Definition header_values (r : request) (name : string) : list string := default [] (rq_header r !! name).
Definition header_get (r : request) (name : string) : string := default "" (head (header_values r name)).

Record NetworkTrust := {
  nt_proxies : list Prefix;
  nt_hosts : list string;
}.
Definition Configured (t : NetworkTrust) : bool :=
  negb (bool_decide (nt_proxies t = [])) || negb (bool_decide (nt_hosts t = [])).

(** ** Host names *)

(** Without the port, the brackets and the zone. *)
Definition hostName (h : string) : string :=
  let h := match SplitHostPort h with Some (hh, _) => hh | None => h end in
  let h := trim_suffix (trim_prefix h "[") "]" in
  match index_byte h "%" with Some i => stake i h | None => h end.
Definition parseHostIP (s : string) : option Z :=
  let s := trim_space s in
  if String.eqb s "" then None else ParseIP (hostName s).
Definition truncateHost (h : string) : string := if (100 <? String.length h)%nat then stake 100 h +:+ "…" else h.
Definition privateHostSuffixes : list string :=
  [".localhost"; ".local"; ".lan"; ".home"; ".home.arpa"; ".internal"; ".intranet"; ".localdomain"; ".corp"; ".private"].

(** ** The settings *)

Definition minPublicProxyBits4 : Z := 16.
Definition minPublicProxyBits6 : Z := 48.
Definition v4_prefix (a b c d n : Z) : Prefix := {| px_addr := V4 (v4 a b c d); px_bits := n |}.
Definition v6_prefix (v n : Z) : Prefix := {| px_addr := V6 v ""; px_bits := n |}.
Definition nonPublicRanges : list Prefix :=
  [v4_prefix 10 0 0 0 8; v4_prefix 172 16 0 0 12; v4_prefix 192 168 0 0 16; v4_prefix 100 64 0 0 10; v4_prefix 127 0 0 0 8;
   v4_prefix 169 254 0 0 16; v6_prefix (Z.shiftl 0xfc00 112) 7; v6_prefix (Z.shiftl 0xfe80 112) 10; v6_prefix 1 128].
Definition acceptableProxyRange (p : Prefix) : bool :=
  existsb (fun np => Bool.eqb (Is4 (px_addr np)) (Is4 (px_addr p)) && (px_bits np <=? px_bits p) && Contains np (px_addr p))
    nonPublicRanges ||
  (if Is4 (px_addr p) then minPublicProxyBits4 <=? px_bits p else minPublicProxyBits6 <=? px_bits p).

Definition SplitList (s : string) : list string :=
  fields_func (fun r => (r =? 44) || (r =? 59) || (r =? 32) || (r =? 9) || (r =? 10) || (r =? 13)) s.

Section network.
Context `{Unicode}.

Definition quoteEntry (s : string) : string := quote (if (64 <? String.length s)%nat then stake 64 s +:+ "…" else s).

(** An accepted entry, or why it is refused. *)
Definition parseProxyEntry (s0 : string) : Prefix + string :=
  let entry := quoteEntry s0 in
  let s := trim_suffix (trim_prefix (trim_space s0) "[") "]" in
  let notAddress := entry +:+ " is not an IP address or a CIDR range" in
  if contains s "%" then
    if contains s ":" then inr (entry +:+ ": IPv6 zones are not supported") else inr notAddress
  else if contains s "/" then
    match ParsePrefix s with
    | None => inr notAddress
    | Some p =>
      if Is4In6 (px_addr p) && (px_bits p <? 96) then inr (entry +:+ " is not a valid IPv4-mapped range") else
      let p := if Is4In6 (px_addr p) then {| px_addr := Unmap (px_addr p); px_bits := px_bits p - 96 |} else p in
      let p := Masked p in
      if negb (acceptableProxyRange p)
      then inr (entry +:+ " is too wide: outside private address space a range must be at least /" +:+
        format_int minPublicProxyBits4 +:+ " (IPv4) or /" +:+ format_int minPublicProxyBits6 +:+ " (IPv6)")
      else inl p
    end
  else match ParseAddr s with
    | None => inr notAddress
    | Some a => let a := Unmap a in inl {| px_addr := a; px_bits := BitLen a |}
    end.

Definition host_rune (r : Z) : bool :=
  in_range 97 122 r || in_range 48 57 r || (r =? 45) || (r =? 46) || (r =? 95).
Definition parseAllowedHost (s0 : string) : string + string :=
  let entry := quoteEntry s0 in
  let notHost := entry +:+ " is not a host name (letters, digits, '-', '_' and '.'; " +:+ dquote +:+ "*.example.com" +:+ dquote +:+
    " for sub-domains)" in
  let s := to_lower (trim_space s0) in
  let wildcard := has_prefix s "*." in
  let s := if wildcard then sdrop 2 s else s in
  let s := trim_suffix (hostName s) "." in
  if String.eqb s "" || (253 <? String.length s)%nat then inr notHost else
  let accept := inl (if wildcard then "*." +:+ s else s) in
  match ParseIP s with
  | None =>
    if negb (forallb (fun rb => host_rune (fst rb)) (runes s)) then inr notHost
    else if has_prefix s "." || contains s ".." then inr notHost else accept
  | Some _ => if wildcard then inr (entry +:+ ": a wildcard needs a host name, not an IP address") else accept
  end.

(** Entries in order without repetition; an invalid one is skipped and named. *)
Definition add_entry {A} `{EqDecision A} (parse : string -> A + string) (what : string) (acc : list A * list string) (f : string) :
    list A * list string :=
  match parse f with
  | inl x => ((if mem x (fst acc) then fst acc else fst acc ++ [x])%list, snd acc)
  | inr _ => (fst acc, (snd acc ++ [what +:+ quoteEntry f])%list)
  end.
Definition ParseNetworkTrust (proxies hosts : string) : NetworkTrust * option string :=
  let '(ps, bad) := foldl (add_entry parseProxyEntry "trusted proxy ") ([], []) (SplitList proxies) in
  let '(hs, bad) := foldl (add_entry parseAllowedHost "allowed host ") ([], bad) (SplitList hosts) in
  ({| nt_proxies := ps; nt_hosts := hs |},
   match bad with [] => None | _ => Some ("invalid entries ignored: " +:+ join ", " bad) end).

Definition maxTrustEntries : Z := 100.
Definition maxTrustProblems : nat := 10.
Definition problem_of {A} (p : A + string) : option string := match p with inl _ => None | inr m => Some m end.
(** One list: the first problems, after the one about the number of entries. *)
Definition check_list (prop list : string) (problemOf : string -> option string) : Datatypes.list (string * string) :=
  let entries := SplitList list in
  ((if maxTrustEntries <? Z.of_nat (length entries)
    then [(prop, "Must list at most " +:+ format_int maxTrustEntries +:+ " entries")] else []) ++
   map (pair prop) (take maxTrustProblems (omap problemOf entries)))%list.
Definition ValidateNetworkTrust (proxies hosts : string) : list (string * string) :=
  (check_list "trustedProxies" proxies (fun e => problem_of (parseProxyEntry e)) ++
   check_list "allowedHosts" hosts (fun e => problem_of (parseAllowedHost e)))%list.

(** The cached parse of the effective lists. *)
Record trustCache := { tc_proxies : string; tc_hosts : string; tc_parsed : NetworkTrust }.
Definition effective_trust (proxies hosts : string) (cache : option trustCache) : NetworkTrust * option trustCache :=
  let fresh := fst (ParseNetworkTrust proxies hosts) in
  match cache with
  | Some c =>
    if String.eqb (tc_proxies c) proxies && String.eqb (tc_hosts c) hosts then (tc_parsed c, cache)
    else (fresh, Some {| tc_proxies := proxies; tc_hosts := hosts; tc_parsed := fresh |})
  | None => (fresh, Some {| tc_proxies := proxies; tc_hosts := hosts; tc_parsed := fresh |})
  end.

Definition trustsProxy (t : NetworkTrust) (ip : option Z) : bool :=
  match ip with Some ip => existsb (fun p => Contains p (addr_of_ip ip)) (nt_proxies t) | None => false end.
Definition host_allowed (h a : string) : bool :=
  if has_prefix a "*" then
    let suffix := sdrop 1 a in has_suffix h suffix && (String.length suffix <? String.length h)%nat
  else String.eqb h a.
Definition allowsHost (t : NetworkTrust) (host : string) : bool :=
  let h := trim_suffix (to_lower (hostName (trim_space host))) "." in
  if String.eqb h "" then false else existsb (host_allowed h) (nt_hosts t).

(** ** Client addresses *)

Definition IsLocalAddress (ip : option Z) : bool :=
  match ip with
  | Some ip => let a := addr_of_ip ip in IsLoopback a || IsPrivate a || IsLinkLocalUnicast a
  | None => false
  end.
Definition peerIP (r : request) : option Z := parseHostIP (rq_remote r).

Definition non_empty (s : string) : bool := negb (String.eqb s "").
Definition comma_list (line : string) : list string := List.filter non_empty (map trim_space (split_byte ","%char line)).
Definition forwardedChain (r : request) : list string := flat_map comma_list (header_values r "X-Forwarded-For").

Fixpoint split_quoted (sep : ascii) (quoted : bool) (cur s : string) : list string :=
  match s with
  | "" => [cur]
  | String c rest =>
    if Ascii.eqb c backslash && quoted then
      match rest with
      | "" => [cur +:+ String c ""]
      | String d rest => split_quoted sep quoted (cur +:+ String c (String d "")) rest
      end
    else if Ascii.eqb c (of_byte 34) then split_quoted sep (negb quoted) (cur +:+ String c "") rest
    else if Ascii.eqb c sep && negb quoted then cur :: split_quoted sep false "" rest
    else split_quoted sep quoted (cur +:+ String c "") rest
  end.
Definition splitQuoted (s : string) (sep : ascii) : list string := split_quoted sep false "" s.

Definition trim_quotes (s : string) : string :=
  let q := Ascii.eqb (of_byte 34) in trim_right_where q (trim_left_where q s).
(** The for= value of an element, "" without one. *)
Definition forwarded_node (elem : string) : string :=
  foldl (fun node pair =>
    let p := trim_space pair in
    match index_byte p "=" with
    | Some i => if equal_fold (trim_space (stake i p)) "for" then trim_quotes (trim_space (sdrop (S i) p)) else node
    | None => node
    end) "" (splitQuoted elem ";").
Definition forwardedFor (r : request) : list string * bool :=
  let lines := header_values r "Forwarded" in
  (flat_map (fun line => map forwarded_node (List.filter (fun e => non_empty (trim_space e)) (splitQuoted line ","))) lines,
   negb (bool_decide (lines = []))).
Definition forwardingClaims (r : request) : list string * bool :=
  let '(nodes, ok) := forwardedFor r in
  let real := header_values r "X-Real-IP" in
  ((forwardedChain r ++ (if ok then nodes else []) ++ map trim_space real)%list,
   negb (bool_decide (header_values r "X-Forwarded-For" = [])) || ok || negb (bool_decide (real = []))).

(** The walk over the recorded chain from the right; [rev] is what is left of it. *)
Fixpoint client_walk (t : NetworkTrust) (peer : option Z) (rev : list string) : option Z :=
  match rev with
  | [] => peer
  | c :: rest =>
    match parseHostIP c with
    | None => peer
    | Some ip =>
      if negb (trustsProxy t (Some ip)) then Some ip
      else match rest with [] => Some ip | _ => client_walk t peer rest end
    end
  end.
Definition recorded_chain (r : request) : list string :=
  let chain := forwardedChain r in
  let chain := match chain with [] => fst (forwardedFor r) | _ => chain end in
  match chain with
  | [] => let v := trim_space (header_get r "X-Real-IP") in if non_empty v then [v] else []
  | _ => chain
  end.
Definition clientIPBy (r : request) (t : NetworkTrust) : option Z :=
  let peer := peerIP r in
  if bool_decide (peer = None) || negb (trustsProxy t peer) then peer else client_walk t peer (rev (recorded_chain r)).

Definition isLocalRequestBy (r : request) (t : NetworkTrust) : bool :=
  let peer := peerIP r in
  if negb (IsLocalAddress peer) then false else
  let claims := fst (forwardingClaims r) in
  if trustsProxy t peer && bool_decide (claims = []) then false
  else forallb (fun c => IsLocalAddress (parseHostIP c)) claims.

(** ** Which hosts name this server *)

Definition IsPrivateHost (host : string) : bool :=
  let h := trim_space host in
  if String.eqb h "" then true else
  let h := hostName h in
  if bool_decide (is_Some (ParseIP h)) then true else
  let h := trim_suffix (to_lower h) "." in
  if String.eqb h "" || existsb (fun c => bool_decide (is_Some (index_byte h c))) ["/"; backslash; "@"; " "; of_byte 9]%char then false else
  if String.eqb h "localhost" || negb (contains h ".") then true
  else existsb (has_suffix h) privateHostSuffixes.
Definition isLocalHost (host : string) : bool :=
  if negb (IsPrivateHost host) then false
  else match ParseIP (hostName (trim_space host)) with Some ip => IsLocalAddress (Some ip) | None => true end.

(** The first host that fails, if any. *)
Definition firstHostFailing (r : request) (ok : string -> bool) : option string :=
  if negb (ok (rq_host r)) then Some (rq_host r)
  else List.find (fun h => negb (ok h)) (flat_map comma_list (header_values r "X-Forwarded-Host")).
Definition requestHostsAll (r : request) (ok : string -> bool) : bool := bool_decide (firstHostFailing r ok = None).
Definition LocalAccessAllowed (r : request) (t : NetworkTrust) : bool :=
  isLocalRequestBy r t && requestHostsAll r (fun h => isLocalHost h || allowsHost t h).
Definition privateHostsBy (r : request) (t : NetworkTrust) : bool :=
  requestHostsAll r (fun h => IsPrivateHost h || allowsHost t h).

End network.
