(* ===== verification/Session.v ===== *)
(** * Sessions (internal/auth/session.go)

    Tokens, their verification, sliding renewal, logout and the revocation of every
    session. Times are nanoseconds since the Unix epoch. A [*signingState] is compared
    by identity in the source: [sg_ref] is that identity. A cookie is what matters of
    it here, its value. *)

From S2P Require Import Prelude GoStd GoNet Limiter Network.
Local Open Scope string_scope.
Local Open Scope Z_scope.

(** ** Encodings of the standard library *)

Definition string_of_bytes (l : list Z) : string := String.string_of_list_ascii (map of_byte l).

(** [base64.RawURLEncoding]. *)
Definition b64_alphabet : string := "ABCDEFGHIJKLMNOPQRSTUVWXYZabcdefghijklmnopqrstuvwxyz0123456789-_".
Definition b64_char (v : Z) : string := stake 1 (sdrop (Z.to_nat v) b64_alphabet).
Fixpoint b64_encode (l : list Z) : string :=
  match l with
  | a :: b :: c :: l =>
    b64_char (Z.shiftr a 2) +:+ b64_char (Z.lor (Z.shiftl (Z.land a 3) 4) (Z.shiftr b 4)) +:+
    b64_char (Z.lor (Z.shiftl (Z.land b 15) 2) (Z.shiftr c 6)) +:+ b64_char (Z.land c 63) +:+ b64_encode l
  | [a; b] =>
    b64_char (Z.shiftr a 2) +:+ b64_char (Z.lor (Z.shiftl (Z.land a 3) 4) (Z.shiftr b 4)) +:+
    b64_char (Z.shiftl (Z.land b 15) 2)
  | [a] => b64_char (Z.shiftr a 2) +:+ b64_char (Z.shiftl (Z.land a 3) 4)
  | [] => ""
  end.
Definition b64_value (c : ascii) : option Z := Z.of_nat <$> index_byte b64_alphabet c.
Fixpoint b64_bytes (l : list Z) : option (list Z) :=
  match l with
  | a :: b :: c :: d :: l =>
    (fun r => Z.lor (Z.shiftl a 2) (Z.shiftr b 4) :: Z.lor (Z.land (Z.shiftl b 4) 255) (Z.shiftr c 2) ::
      Z.lor (Z.land (Z.shiftl c 6) 255) d :: r) <$> b64_bytes l
  | [a; b; c] => Some [Z.lor (Z.shiftl a 2) (Z.shiftr b 4); Z.lor (Z.land (Z.shiftl b 4) 255) (Z.shiftr c 2)]
  | [a; b] => Some [Z.lor (Z.shiftl a 2) (Z.shiftr b 4)]
  | [_] => None
  | [] => Some []
  end.
(** Line breaks are skipped, as Go does. *)
Definition b64_decode (s : string) : option (list Z) :=
  let cs := List.filter (fun c => negb (Ascii.eqb c (of_byte 10) || Ascii.eqb c (of_byte 13))) (String.list_ascii_of_string s) in
  match mapM b64_value cs with Some vs => b64_bytes vs | None => None end.

(** [hex.DecodeString]. *)
Fixpoint hex_decode (s : string) : option (list Z) :=
  match s with
  | "" => Some []
  | String a (String b s) =>
    match hex_val a, hex_val b, hex_decode s with
    | Some x, Some y, Some r => Some (x * 16 + y :: r)
    | _, _, _ => None
    end
  | _ => None
  end.

(** ** Tokens *)

Definition SessionLifetime : Z := 7 * 24 * 60 * minute.
Definition RememberLifetime : Z := 14 * 24 * 60 * minute.
Definition deviceLifetime : Z := 180 * 24 * 60 * minute.
Definition maxRevokedSessions : Z := 256.
Definition maxCookieLength : nat := 512.
Definition sessionIDBytes : nat := 16.
Definition tokenVersion := "v3".
Definition lifetime (remember : bool) : Z := if remember then RememberLifetime else SessionLifetime.
Definition unix (ns : Z) : Z := ns / second.

Record signingState := { sg_ref : nat; sg_key : list Z; sg_generation : Z }.
#[export] Instance signingState_eq_dec : EqDecision signingState.
Proof. solve_decision. Defined.

Definition sign (st : signingState) (payload passwordHash : string) : list Z :=
  hmac_sha256 (sg_key st)
    (bytes_of (tokenVersion +:+ "|" +:+ format_int (sg_generation st) +:+ "|" +:+ payload +:+ "|" +:+ passwordHash)).
Definition tokenPayload (userID expUnix : Z) (remember : bool) (id : string) : string :=
  format_int userID +:+ "|" +:+ format_int expUnix +:+ "|" +:+ (if remember then "1" else "0") +:+ "|" +:+ id.
Definition signToken (st : signingState) (userID expUnix : Z) (remember : bool) (id passwordHash : string) : string :=
  let payload := tokenPayload userID expUnix remember id in
  b64_encode (bytes_of (payload +:+ "|" +:+ hex_bytes (sign st payload passwordHash))).

Record token := {
  tk_payload : string;
  tk_user : Z;
  tk_exp : Z;              (* Unix seconds *)
  tk_remember : bool;
  tk_id : string;
  tk_sig : list Z;
}.
Definition parseToken (value : string) : option token :=
  if String.eqb value "" || (maxCookieLength <? String.length value)%nat then None else
  match b64_decode value with
  | None => None
  | Some raw =>
    match split_byte "|"%char (string_of_bytes raw) with
    | [p0; p1; p2; p3; p4] =>
      match parse_int p0, parse_int p1, hex_decode p3, hex_decode p4 with
      | Some uid, Some expUnix, Some id, Some sig =>
        if (uid <=? 0) || negb (String.eqb p2 "0" || String.eqb p2 "1") ||
           negb (length id =? sessionIDBytes)%nat || negb (length sig =? 32)%nat then None else
        let remember := String.eqb p2 "1" in
        let id := hex_bytes id in
        Some {| tk_payload := tokenPayload uid expUnix remember id; tk_user := uid; tk_exp := expUnix;
                tk_remember := remember; tk_id := id; tk_sig := sig |}
      | _, _, _, _ => None
      end
    | _ => None
    end
  end.

(** ** The session service *)

Record sessions := {
  ss_signing : signingState;
  ss_revoked : gmap string Z;       (* session id to Unix seconds *)
}.
Definition isRevokedOrRotated (id : string) (st : signingState) (s : sessions) : bool :=
  bool_decide (is_Some (ss_revoked s !! id)) || negb (sg_ref (ss_signing s) =? sg_ref st)%nat.

Record session := {
  sn_user : Z;
  sn_expires : Z;          (* nanoseconds *)
  sn_remember : bool;
  sn_id : string;
  sn_signing : signingState;
  sn_hash : string;
}.

(** [verifySession] up to the look-up of the user. *)
Definition verify_begin (cookie : option string) (now : Z) (s : sessions) : option (token * signingState) :=
  match cookie with
  | None => None
  | Some value =>
    match parseToken value with
    | None => None
    | Some t =>
      let exp := tk_exp t * second in
      if (exp <=? now) || (lifetime (tk_remember t) + minute <? exp - now) then None else
      let st := ss_signing s in
      if isRevokedOrRotated (tk_id t) st s then None else Some (t, st)
    end
  end.
(** The rest of it, with the user's password hash; the state may have changed. *)
Definition verify_end (t : token) (st : signingState) (hash : option string) (s : sessions) : option session :=
  match hash with
  | None => None
  | Some hash =>
    if negb (bool_decide (tk_sig t = sign st (tk_payload t) hash)) || isRevokedOrRotated (tk_id t) st s then None
    else Some {| sn_user := tk_user t; sn_expires := tk_exp t * second; sn_remember := tk_remember t; sn_id := tk_id t;
                 sn_signing := st; sn_hash := hash |}
  end.
(** Both at once, when nothing happens in between. *)
Definition verifySession (cookie : option string) (now : Z) (hash_of : Z -> option string) (s : sessions) : option session :=
  match verify_begin cookie now s with
  | Some (t, st) => verify_end t st (hash_of (tk_user t)) s
  | None => None
  end.

(** The value of a session cookie; [id] is the session's, or the new random one. *)
Definition issueSessionCookie (st : signingState) (userID : Z) (passwordHash : string) (remember : bool) (now : Z) (id : string) :
    string :=
  signToken st userID (unix (now + lifetime remember)) remember id passwordHash.
Definition renewIfStale (now : Z) (x : session) : option string :=
  if lifetime (sn_remember x) / 2 <=? sn_expires x - now then None
  else Some (issueSessionCookie (sn_signing x) (sn_user x) (sn_hash x) (sn_remember x) now (sn_id x)).

(** The critical section of [RevokeSessions], after the new key was saved. *)
Definition revoke_all (ref : nat) (key : list Z) (s : sessions) : sessions := {|
  ss_signing := {| sg_ref := ref; sg_key := key; sg_generation := sg_generation (ss_signing s) + 1 |};
  ss_revoked := ∅ |}.
(** [revokeSession]: [None] when the list is full, where every session is revoked. *)
Definition revoke_one (now : Z) (x : session) (s : sessions) : option sessions :=
  let kept := filter (fun ie : string * Z => unix now <= ie.2) (ss_revoked s) in
  if maxRevokedSessions <=? Z.of_nat (size kept) then None
  else Some {| ss_signing := ss_signing s;
               ss_revoked := <[sn_id x := unix (now + (lifetime (sn_remember x) + minute))]> kept |}.

(** ** Device cookies *)

Section device.
Context `{Unicode}.
Definition deviceMAC (username : string) (expUnix : Z) (s : sessions) : list Z :=
  let st := ss_signing s in
  hmac_sha256 (sg_key st) (bytes_of ("device|v1|" +:+ format_int (sg_generation st) +:+ "|" +:+ format_int expUnix +:+ "|" +:+
    to_lower (trim_space username))).
Definition setDeviceCookie (username : string) (now : Z) (s : sessions) : string :=
  let exp := unix (now + deviceLifetime) in
  b64_encode (bytes_of (format_int exp +:+ "|" +:+ hex_bytes (deviceMAC username exp s))).
Definition deviceKey (cookie : option string) (username : string) (now : Z) (s : sessions) : string :=
  match cookie with
  | None => ""
  | Some value =>
    if (maxCookieLength <? String.length value)%nat then "" else
    match string_of_bytes <$> b64_decode value with
    | None => ""
    | Some raw =>
      match index_byte raw "|" with
      | None => ""
      | Some i =>
        match parse_int (stake i raw), hex_decode (sdrop (S i) raw) with
        | Some exp, Some sig =>
          if negb (length sig =? 32)%nat || (exp <=? unix now) then "" else
          if bool_decide (sig = deviceMAC username exp s) then "d:" +:+ hex_bytes (take 12 sig) else ""
        | _, _ => ""
        end
      end
    end
  end.
End device.
