(* ===== verification/Middleware.v ===== *)
(** * Who may make a request (internal/auth/middleware.go, webhook.go, parts of auth.go)

    The policy of a path, the credentials of a request and the verdict of the
    middleware. Logging and the once-only warnings are left out. *)

From S2P Require Import Prelude GoStd GoNet Limiter Network Session.
Local Open Scope string_scope.
Local Open Scope Z_scope.

Definition AuthNone := "None".
Definition AuthForms := "Forms".
Definition AuthExternal := "External".
Definition AuthRequiredEnabled := "Enabled".
Definition AuthRequiredDisabledForLocal := "DisabledForLocalAddresses".

(** The settings of config.xml that authentication reads. *)
Record auth_config := {
  ac_api_key : string;
  ac_method : string;
  ac_required : string;
  ac_url_base : string;
  ac_proxies : string;
  ac_hosts : string;
  ac_env : list string;           (* the settings the environment overrides, by JSON name *)
}.
Record user := { us_id : Z; us_name : string; us_hash : string }.

(** The fields of [Service] and the rows of the users table. *)
Record service := {
  sv_config : auth_config;
  sv_users : list user;
  sv_user_id : option string;       (* the setting auth.userId *)
  sv_locked : bool;
  sv_sessions : sessions;
  sv_webhook_token : string;
  sv_limiter : limiter;
  sv_user_limiter : limiter;
  sv_setup_code : string;
}.

Definition ViaAPIKey := "apiKey".
Definition ViaCookie := "cookie".
Definition ViaLocal := "localAddress".
Definition ViaExternal := "external".
Definition ViaNoAuth := "none".
Definition ViaWebhookToken := "webhookToken".
Record Info := { in_authenticated : bool; in_via : string; in_user : Z; in_remember : bool }.
Definition via (v : string) : Info := {| in_authenticated := true; in_via := v; in_user := 0; in_remember := false |}.

(** ** Routes *)

Inductive routeClass := routePublic | routeSetup | routeWebhook | routeProtected.
#[export] Instance routeClass_eq_dec : EqDecision routeClass.
Proof. solve_decision. Defined.
Definition rank_of (c : routeClass) : nat :=
  match c with routePublic => 0 | routeSetup => 1 | routeWebhook => 2 | routeProtected => 3 end.

Definition classify (p : string) : routeClass :=
  let p := if String.eqb p "" then "/" else p in
  let p := if has_prefix p "/" then p else "/" +:+ p in
  let p := path_clean p in
  if mem p ["/ping"; "/login"; "/logout"; "/api/v1/auth/status"] then routePublic
  else if String.eqb p "/api/v1/auth/setup" then routeSetup
  else if mem p ["/initialize.json"; "/api"] then routeProtected
  else if has_prefix p "/api/v1/webhook/" then routeWebhook
  else if has_prefix p "/api/" || has_prefix p "/backup/" then routeProtected
  else routePublic.

(** A segment as the router sees it. *)
Definition routed_segment (seg : string) : string :=
  match PathUnescape seg with
  | None => seg
  | Some u =>
    if contains u "/" || (negb (String.eqb u seg) && (String.eqb u "." || String.eqb u "..")) then seg else u
  end.
Definition routedPath (escaped : string) : string :=
  if negb (contains escaped "%") then escaped
  else join "/" (map routed_segment (split_byte "/"%char escaped)).
Definition routeClassOf (r : request) : routeClass :=
  let c := classify (rq_path r) in
  let rc := classify (routedPath (rq_escaped r)) in
  if (rank_of c <? rank_of rc)%nat then rc else c.

(** ** Credentials *)

Inductive keyState := keyAbsent | keyValid | keyInvalid.
Definition apiKey (s : service) (r : request) : keyState :=
  if bool_decide (is_Some (rq_query r !! "apikey")) then keyInvalid else
  let provided := header_get r "X-Api-Key" in
  if String.eqb provided "" then keyAbsent else
  let want := ac_api_key (sv_config s) in
  if String.eqb want "" || negb (String.eqb provided want) then keyInvalid else keyValid.

Inductive webhookCredential := webhookNone | webhookByToken | webhookByMasterKey.
Definition checkWebhook (s : service) (r : request) : webhookCredential :=
  let provided := header_get r "X-Api-Key" in
  let provided := if String.eqb provided "" then default "" (head (default [] (rq_query r !! "apikey"))) else provided in
  if String.eqb provided "" then webhookNone else
  let tok := sv_webhook_token s in
  let master := ac_api_key (sv_config s) in
  if negb (String.eqb tok "") && String.eqb provided tok then webhookByToken
  else if negb (String.eqb master "") && String.eqb provided master then webhookByMasterKey
  else webhookNone.

Definition CookieName := "DupearrAuth".
Definition DeviceCookieName := "DupearrDevice".
Definition cookie_value (r : request) (name : string) : option string :=
  snd <$> List.find (fun nv => String.eqb (fst nv) name) (rq_cookies r).

Section middleware.
Context `{Unicode}.

Definition trust (s : service) : NetworkTrust := fst (ParseNetworkTrust (ac_proxies (sv_config s)) (ac_hosts (sv_config s))).
Definition auth_method (s : service) : string :=
  let m := ac_method (sv_config s) in
  if equal_fold m AuthNone then AuthNone else if equal_fold m AuthExternal then AuthExternal else AuthForms.
Definition cookiePath (s : service) : string :=
  if String.eqb (ac_url_base (sv_config s)) "" then "/" else ac_url_base (sv_config s).
Definition before_comma (v : string) : string := match index_byte v "," with Some i => stake i v | None => v end.
Definition secureRequest (s : service) (r : request) : bool :=
  if rq_tls r then true else
  let peer := peerIP r in
  if negb (IsLocalAddress peer) && negb (trustsProxy (trust s) peer) then false
  else equal_fold (trim_space (before_comma (header_get r "X-Forwarded-Proto"))) "https".
Definition cookieName (s : service) (base : string) (secure : bool) : string :=
  if negb secure then base else if String.eqb (cookiePath s) "/" then "__Host-" +:+ base else "__Secure-" +:+ base.
Definition session_cookie (s : service) (r : request) : option string :=
  cookie_value r (cookieName s CookieName (secureRequest s r)).
Definition hash_of (s : service) (id : Z) : option string :=
  us_hash <$> List.find (fun u => us_id u =? id) (sv_users s).

Definition externalPublicHost := "public host name (set the trusted proxies / allowed hosts)".
Definition externalNotRelayed := "not relayed by a trusted proxy".
Definition externalHostRefused := "host name not allowed".
(** [None] when the request is trusted, else why not. *)
Definition externalTrustedBy (r : request) (t : NetworkTrust) : option string :=
  if negb (Configured t) then (if privateHostsBy r t then None else Some externalPublicHost)
  else if negb (bool_decide (nt_proxies t = [])) && negb (trustsProxy t (peerIP r)) then Some externalNotRelayed
  else if negb (bool_decide (nt_hosts t = [])) && negb (requestHostsAll r (allowsHost t)) then Some externalHostRefused
  else None.

Definition authenticate (s : service) (now : Z) (r : request) : option Info :=
  if sv_locked s then None else
  match apiKey s r with
  | keyValid => Some (via ViaAPIKey)
  | keyInvalid => None
  | keyAbsent =>
    let method := auth_method s in
    if String.eqb method AuthNone then (if privateHostsBy r (trust s) then Some (via ViaNoAuth) else None)
    else if String.eqb method AuthExternal && bool_decide (externalTrustedBy r (trust s) = None) then Some (via ViaExternal)
    else match verifySession (session_cookie s r) now (hash_of s) (sv_sessions s) with
      | Some x => Some {| in_authenticated := true; in_via := ViaCookie; in_user := sn_user x; in_remember := sn_remember x |}
      | None =>
        if String.eqb method AuthForms && String.eqb (ac_required (sv_config s)) AuthRequiredDisabledForLocal &&
           LocalAccessAllowed r (trust s) then Some (via ViaLocal) else None
      end
  end.

(** ** Cross-site requests *)

Definition stateChanging (method : string) : bool := negb (mem method ["GET"; "HEAD"; "OPTIONS"; "TRACE"]).
Definition requestHosts (s : service) (r : request) : list string :=
  let peer := peerIP r in
  rq_host r ::
  (if IsLocalAddress peer || trustsProxy (trust s) peer then
     let fh := header_get r "X-Forwarded-Host" in
     if String.eqb fh "" then [] else
     let fh := trim_space (before_comma fh) in if String.eqb fh "" then [] else [fh]
   else []).
Definition sameHostPort (origin : URL) (host : string) : bool :=
  if String.eqb host "" then false else
  let '(oh, op) := host_and_port origin in
  let '(hh, hp) := match SplitHostPort host with Some hp => hp | None => (host, "") end in
  let hh := trim_suffix (trim_prefix hh "[") "]" in
  let def := if String.eqb (url_scheme origin) "https" then "443" else "80" in
  let op := if String.eqb op "" then def else op in
  let hp := if String.eqb hp "" then def else hp in
  equal_fold oh hh && String.eqb op hp.
Definition sameOrigin (s : service) (r : request) (required : bool) : bool :=
  let src := trim_space (header_get r "Origin") in
  let src := if String.eqb src "" then trim_space (header_get r "Referer") else src in
  if String.eqb src "" then negb required else
  if String.eqb src "null" then false else
  match url_parse src with
  | None => false
  | Some u =>
    if String.eqb (url_host u) "" || negb (mem (url_scheme u) ["http"; "https"]) then false
    else existsb (sameHostPort u) (requestHosts s r)
  end.

(** ** The middleware *)

Inductive verdict := Refuse (status : Z) | Serve (info : option Info).

Definition middleware (s : service) (now : Z) (r : request) : verdict :=
  let class := routeClassOf r in
  if negb (bool_decide (class = routePublic)) && sv_locked s then Refuse 503 else
  match class with
  | routePublic => Serve None
  | routeSetup => if stateChanging (rq_method r) && negb (sameOrigin s r false) then Refuse 403 else Serve None
  | routeWebhook =>
    match checkWebhook s r with
    | webhookByToken => Serve (Some (via ViaWebhookToken))
    | webhookByMasterKey => Serve (Some (via ViaAPIKey))
    | webhookNone => Refuse 401
    end
  | routeProtected =>
    match authenticate s now r with
    | None => Refuse 401
    | Some info =>
      if stateChanging (rq_method r) && negb (String.eqb (in_via info) ViaAPIKey) && negb (sameOrigin s r true)
      then Refuse 403 else Serve (Some info)
    end
  end.

(** ** Changing the trust settings *)

(** Whether saving this method and these lists would lock the caller out. *)
Definition trust_change_locks_out (s : service) (info : Info) (r : request) (method proxies hosts : string) : bool :=
  if negb (mem (in_via info) [ViaExternal; ViaNoAuth; ViaLocal]) then false else
  let candidate := fst (ParseNetworkTrust proxies hosts) in
  if String.eqb method AuthExternal then negb (bool_decide (externalTrustedBy r candidate = None))
  else if String.eqb method AuthNone then negb (privateHostsBy r candidate)
  else false.

End middleware.
