(* ===== verification/Login.v ===== *)
(** * Signing in, first-run setup and accounts (internal/auth/auth.go)

    Each operation is a function on the [service]. What comes from outside is an
    argument: the clock, whether a hashing slot is free, whether a read fails, random
    identifiers, the order in which Go walks the limiter's map. Password hashing
    (golang.org/x/crypto/bcrypt) is a class. *)

From S2P Require Import Prelude GoStd GoNet Limiter Network Session Middleware.
Local Open Scope string_scope.
Local Open Scope Z_scope.

Class Bcrypt := {
  bcrypt_compare : string -> string -> bool;            (* hash, password *)
  bcrypt_generate : string -> string -> option string;  (* password, salt *)
}.

Definition MaxPasswordBytes : nat := 72.
Definition MinPasswordLength : nat := 8.
Definition MaxUsernameLength : nat := 256.
Definition MaskedPassword := "********".
Definition is_control (r : Z) : bool := (r <? 32) || in_range 127 159 r.
Definition rune_count (s : string) : nat := length (runes s).
Definition has_control_rune (s : string) : bool := existsb (fun rb => is_control (fst rb)) (runes s).

Definition usernameProblem (username : string) : string :=
  let u := trim_space username in
  if String.eqb u "" then "Username is required"
  else if (MaxUsernameLength <? rune_count u)%nat then "Username must be at most 256 characters"
  else if has_control_rune u then "Username must not contain control characters"
  else "".
Definition passwordProblem (password : string) : string :=
  if String.eqb password "" then "Password is required"
  else if String.eqb password MaskedPassword then "Enter a new password"
  else if (rune_count password <? MinPasswordLength)%nat then "Password must be at least 8 characters"
  else if (MaxPasswordBytes <? String.length password)%nat then "Password must be at most 72 bytes"
  else if has_control_rune password then "Password must not contain control characters"
  else "".
Definition problems (l : list (string * string)) : list (string * string) := List.filter (fun pm => non_empty (snd pm)) l.
Definition ValidateCredentials (username password : string) : list (string * string) :=
  problems [("username", usernameProblem username); ("password", passwordProblem password)].
Definition wellFormedCredentials (username password : string) : bool :=
  negb (String.eqb username "") && negb (String.eqb password "") && (String.length password <=? MaxPasswordBytes)%nat &&
  (rune_count username <=? MaxUsernameLength)%nat && negb (has_control_rune username).

(** ** Rows of the users table *)

Definition ascii_lower (s : string) : string :=
  smap (fun c => let b := byte_of c in if in_range 65 90 b then of_byte (b + 32) else c) s.
(** COLLATE NOCASE. *)
Definition GetByUsername (s : service) (name : string) : option user :=
  List.find (fun u => String.eqb (ascii_lower (us_name u)) (ascii_lower name)) (sv_users s).
Definition GetByID (s : service) (id : Z) : option user := List.find (fun u => us_id u =? id) (sv_users s).
(** The single account: by the recorded id, else the first of the ids 1 to 1024. *)
Definition User (s : service) : option user :=
  match sv_users s with
  | [] => None
  | _ =>
    let recorded := match sv_user_id s with
      | Some v => match parse_int (trim_space v) with Some id => if 0 <? id then GetByID s id else None | None => None end
      | None => None end in
    match recorded with
    | Some u => Some u
    | None => head (omap (GetByID s) (map (fun i => Z.of_nat i) (seq 1 1024)))
    end
  end.

Definition with_limiters (l ul : limiter) (s : service) : service := {|
  sv_config := sv_config s; sv_users := sv_users s; sv_user_id := sv_user_id s; sv_locked := sv_locked s;
  sv_sessions := sv_sessions s; sv_webhook_token := sv_webhook_token s; sv_limiter := l; sv_user_limiter := ul;
  sv_setup_code := sv_setup_code s |}.
Definition with_sessions (x : sessions) (s : service) : service := {|
  sv_config := sv_config s; sv_users := sv_users s; sv_user_id := sv_user_id s; sv_locked := sv_locked s; sv_sessions := x;
  sv_webhook_token := sv_webhook_token s; sv_limiter := sv_limiter s; sv_user_limiter := sv_user_limiter s;
  sv_setup_code := sv_setup_code s |}.
Definition with_account (users : list user) (id : Z) (code : string) (s : service) : service := {|
  sv_config := sv_config s; sv_users := users; sv_user_id := Some (format_int id); sv_locked := sv_locked s;
  sv_sessions := sv_sessions s; sv_webhook_token := sv_webhook_token s; sv_limiter := sv_limiter s;
  sv_user_limiter := sv_user_limiter s; sv_setup_code := code |}.
Definition with_setup_code (code : string) (s : service) : service := {|
  sv_config := sv_config s; sv_users := sv_users s; sv_user_id := sv_user_id s; sv_locked := sv_locked s;
  sv_sessions := sv_sessions s; sv_webhook_token := sv_webhook_token s; sv_limiter := sv_limiter s;
  sv_user_limiter := sv_user_limiter s; sv_setup_code := code |}.
Definition with_requirement (method required : string) (s : service) : service :=
  let c := sv_config s in {|
  sv_config := {| ac_api_key := ac_api_key c; ac_method := method; ac_required := required; ac_url_base := ac_url_base c;
                  ac_proxies := ac_proxies c; ac_hosts := ac_hosts c; ac_env := ac_env c |};
  sv_users := sv_users s; sv_user_id := sv_user_id s; sv_locked := sv_locked s; sv_sessions := sv_sessions s;
  sv_webhook_token := sv_webhook_token s; sv_limiter := sv_limiter s; sv_user_limiter := sv_user_limiter s;
  sv_setup_code := sv_setup_code s |}.

(** [Upsert]: the one row is replaced, or a first one inserted with the id [fresh]. *)
Definition upsert_user (name hash : string) (fresh : Z) (l : list user) : option (user * list user) :=
  let name := trim_space name in
  if String.eqb name "" || String.eqb hash "" then None else
  match l with
  | [] => let u := {| us_id := fresh; us_name := name; us_hash := hash |} in Some (u, [u])
  | first :: rest => let u := {| us_id := us_id first; us_name := name; us_hash := hash |} in Some (u, u :: rest)
  end.

Section login.
Context `{Unicode} `{Bcrypt}.

Definition CheckPassword (hash pw : string) : bool :=
  if String.eqb hash "" || String.eqb pw "" then false else bcrypt_compare hash pw.
Definition HashPassword (pw salt : string) : option string :=
  if String.eqb pw "" || String.eqb pw MaskedPassword || (MaxPasswordBytes <? String.length pw)%nat then None
  else bcrypt_generate pw salt.

(** ** Throttled attempts *)

Record attempt := { at_addr_key : string; at_user_key : string }.
Definition attempt_keys (s : service) (r : request) (username : string) (now : Z) : attempt :=
  let dev := deviceKey (cookie_value r (cookieName s DeviceCookieName (secureRequest s r))) username now (sv_sessions s) in
  if negb (String.eqb dev "") then {| at_addr_key := dev; at_user_key := "" |}
  else {| at_addr_key := limiterKey (clientIPBy r (trust s));
          at_user_key := if String.eqb username "" then "" else userLimiterKey username |}.
(** A wait, or the attempt that was counted. *)
Definition startAttempt (s : service) (r : request) (username : string) (now : Z) (orders : list string * list string) :
    (Z + attempt) * service :=
  let a := attempt_keys s r username now in
  let '(wait, l) := begin_attempt (at_addr_key a) now (fst orders) (sv_limiter s) in
  if 0 <? wait then (inl wait, with_limiters l (sv_user_limiter s) s) else
  if String.eqb (at_user_key a) "" then (inr a, with_limiters l (sv_user_limiter s) s) else
  let '(wait, ul) := begin_attempt (at_user_key a) now (snd orders) (sv_user_limiter s) in
  if 0 <? wait then (inl wait, with_limiters (abort (at_addr_key a) l) ul s)
  else (inr a, with_limiters l ul s).
Definition abort_attempt (a : attempt) (s : service) : service :=
  with_limiters (abort (at_addr_key a) (sv_limiter s))
    (if String.eqb (at_user_key a) "" then sv_user_limiter s else abort (at_user_key a) (sv_user_limiter s)) s.
Definition succeed (a : attempt) (s : service) : service :=
  with_limiters (reset (at_addr_key a) (sv_limiter s))
    (if String.eqb (at_user_key a) "" then sv_user_limiter s else reset (at_user_key a) (sv_user_limiter s)) s.

(** ** Signing in *)

Record login_env := {
  le_now : Z;
  le_orders : list string * list string;
  le_read_fails : bool;      (* the look-up of the user *)
  le_slot : bool;            (* a hashing slot frees up in time *)
  le_dummy : bool;           (* there is a hash to compare unknown users with *)
  le_session_id : string;    (* random *)
}.
Inductive login_result :=
| SignedIn (session_cookie device_cookie : string)
| ErrInvalidCredentials
| ErrThrottled (wait : Z)
| ErrBusy
| ErrStore
| ErrLockedDown.

(** [Login] once the attempt was counted. *)
Definition check_credentials (e : login_env) (username password : string) (remember wellFormed : bool) (a : attempt) (s : service) :
    login_result * service :=
  if wellFormed && le_read_fails e then (ErrStore, abort_attempt a s) else
  let found := if wellFormed then GetByUsername s username else None in
  let busy := match found with Some _ => negb (le_slot e) | None => wellFormed && le_dummy e && negb (le_slot e) end in
  if busy then (ErrBusy, abort_attempt a s) else
  match found with
  | Some u =>
    if CheckPassword (us_hash u) password then
      (SignedIn (issueSessionCookie (ss_signing (sv_sessions s)) (us_id u) (us_hash u) remember (le_now e) (le_session_id e))
         (setDeviceCookie (us_name u) (le_now e) (sv_sessions s)), succeed a s)
    else (ErrInvalidCredentials, s)
  | None => (ErrInvalidCredentials, s)
  end.
Definition Login (e : login_env) (r : request) (username password : string) (remember : bool) (s : service) :
    login_result * service :=
  if sv_locked s then (ErrLockedDown, s) else
  let username := trim_space username in
  let wellFormed := wellFormedCredentials username password in
  match startAttempt s r (if wellFormed then username else "") (le_now e) (le_orders e) with
  | (inl wait, s) => (ErrThrottled wait, s)
  | (inr a, s) => check_credentials e username password remember wellFormed a s
  end.

(** [VerifyPassword]: [None] stands for a correct password. *)
Definition VerifyPassword (e : login_env) (r : request) (password : string) (s : service) : option login_result * service :=
  match User s with
  | None => (Some ErrStore, s)
  | Some u =>
    match startAttempt s r (us_name u) (le_now e) (le_orders e) with
    | (inl wait, s) => (Some (ErrThrottled wait), s)
    | (inr a, s) =>
      if negb (String.eqb password "") && (String.length password <=? MaxPasswordBytes)%nat then
        if negb (le_slot e) then (Some ErrBusy, abort_attempt a s)
        else if CheckPassword (us_hash u) password then (None, succeed a s) else (Some ErrInvalidCredentials, s)
      else (Some ErrInvalidCredentials, s)
    end
  end.

(** [RevokeSessions] with the new key; without one (it could not be saved) nothing happens. *)
Definition RevokeSessions (ref : nat) (key : option (list Z)) (s : service) : service :=
  match key with Some key => with_sessions (revoke_all ref key (sv_sessions s)) s | None => s end.

(** [Logout]; [ref] and [key] are for the case that every session is revoked. *)
Definition Logout (now : Z) (r : request) (ref : nat) (key : option (list Z)) (s : service) : service :=
  match verifySession (session_cookie s r) now (hash_of s) (sv_sessions s) with
  | None => s
  | Some x =>
    match revoke_one now x (sv_sessions s) with
    | Some ss => with_sessions ss s
    | None => RevokeSessions ref key s
    end
  end.

(** ** Accounts *)

(** The errors by property, or the account saved. *)
Definition UpdateUser (username password salt : string) (fresh : Z) (ref : nat) (key : option (list Z)) (s : service) :
    (list (string * string) + option user) * service :=
  let username := trim_space username in
  let keep := String.eqb password "" || String.eqb password MaskedPassword in
  let current := if keep then User s else None in
  let errs := problems [("username", usernameProblem username);
    ("password", if keep then (match current with Some _ => "" | None => "Password is required" end) else passwordProblem password)] in
  match errs with
  | _ :: _ => (inl errs, s)
  | [] =>
    let old := match current with Some u => us_hash u | None => "" end in
    let changed := String.eqb old "" in
    match (if changed then HashPassword password salt else Some old) with
    | None => (inr None, s)
    | Some hash =>
      match upsert_user username hash fresh (sv_users s) with
      | None => (inr None, s)
      | Some (u, users) =>
        let s := with_account users (us_id u) "" s in
        (inr (Some u), if changed then RevokeSessions ref key s else s)
      end
    end
  end.

(** ** First-run setup *)

Definition SetupRequired (s : service) : bool := String.eqb (auth_method s) AuthForms && bool_decide (sv_users s = []).
Definition normalizeSetupCode (code : string) : string :=
  sconcat (map snd (List.filter (fun rb => negb ((fst rb =? 45) || (fst rb =? 32) || (fst rb =? 9))) (runes (to_upper code)))).
(** [fresh] is the code issued when there is none. *)
Definition CheckSetupCode (code fresh : string) (s : service) : bool * service :=
  if String.eqb (sv_setup_code s) "" then
    if SetupRequired s then (false, with_setup_code fresh s) else (false, s)
  else (String.eqb (normalizeSetupCode code) (normalizeSetupCode (sv_setup_code s)), s).

Inductive setup_result := SetupDone | ErrSetupLocked | ErrSetupNotRequired | ErrSetupInvalid (errs : list (string * string)) | ErrSetupFailed.
(** The requirement in effect when the environment sets it. *)
Definition forced_requirement (s : service) : string :=
  if mem "authenticationRequired" (ac_env (sv_config s)) then ac_required (sv_config s) else "".
Definition chosen_requirement (s : service) (required : string) : option string :=
  let req := trim_space required in
  let forced := forced_requirement s in
  if String.eqb req "" && negb (String.eqb forced "") then Some forced
  else if String.eqb req "" || equal_fold req AuthRequiredEnabled then Some AuthRequiredEnabled
  else if equal_fold req AuthRequiredDisabledForLocal then Some AuthRequiredDisabledForLocal
  else None.
(** [Update] of the configuration: the settings of the environment stay. *)
Definition save_requirement (req : string) (s : service) : service :=
  let env := ac_env (sv_config s) in
  with_requirement (if mem "authenticationMethod" env then ac_method (sv_config s) else AuthForms)
    (if mem "authenticationRequired" env then ac_required (sv_config s) else req) s.
(** [saved] is whether the configuration could be written. *)
Definition Setup (method required username password salt : string) (fresh : Z) (saved : bool) (s : service) : setup_result * service :=
  if sv_locked s then (ErrSetupLocked, s) else
  if negb (SetupRequired s) then (ErrSetupNotRequired, s) else
  let m := trim_space method in
  let m := if String.eqb m "" then AuthForms else m in
  let chosen := chosen_requirement s required in
  let errs := ((if equal_fold m AuthForms then [] else [("authenticationMethod", "Only Forms authentication can be set up")]) ++
    (match chosen with Some _ => [] | None => [("authenticationRequired", "Must be one of: Enabled, DisabledForLocalAddresses")] end))%list in
  let forced := forced_requirement s in
  let errs := (errs ++
    (if negb (String.eqb forced "") && bool_decide (errs = []) && negb (bool_decide (chosen = Some forced))
     then [("authenticationRequired", "Authentication Required is set to " +:+ forced +:+
       " by the DUPEARR__AUTH__REQUIRED environment variable; change or remove that variable to choose " +:+ default "" chosen)] else []) ++
    ValidateCredentials username password)%list in
  match errs, chosen with
  | [], Some req =>
    match HashPassword password salt with
    | None => (ErrSetupFailed, s)
    | Some hash =>
      match upsert_user username hash fresh (sv_users s) with
      | None => (ErrSetupFailed, s)
      | Some (u, users) =>
        let s := with_account users (us_id u) (sv_setup_code s) s in
        if negb saved then (ErrSetupFailed, s) else (SetupDone, with_setup_code "" (save_requirement req s))
      end
    end
  | errs, _ => (ErrSetupInvalid errs, s)
  end.

(** What POST /api/v1/auth/setup asks before (internal/api/bootstrap.go): the status of
    its refusal, or the setup. *)
Definition handleAuthSetup (r : request) (code fresh_code method required username password confirmation salt : string)
    (fresh : Z) (saved : bool) (s : service) : (Z + setup_result) * service :=
  if negb (SetupRequired s) then (inl 409, s) else
  if negb (LocalAccessAllowed r (trust s)) then (inl 403, s) else
  let '(ok, s) := CheckSetupCode code fresh_code s in
  if negb ok then (inl 403, s) else
  if negb (String.eqb password confirmation) then (inl 400, s) else
  let '(res, s) := Setup method required username password salt fresh saved s in (inr res, s).
End login.
