(* ===== verification/AuthFacts.v ===== *)
(** * Authentication: lemmas and examples *)

From S2P Require Import Prelude GoStd GoNet Limiter Network Session Middleware Login Fixtures.
Local Open Scope string_scope.
Local Open Scope Z_scope.

(** * Session tokens: lemmas *)

(** ** Hexadecimal *)

Definition byte (z : Z) : Prop := 0 <= z < 256.
Definition hex_char_ok (c : ascii) : bool := in_range 48 57 (byte_of c) || in_range 97 102 (byte_of c).
Lemma hex_byte_spec b : byte b -> exists x y, hex_byte b = String x (String y "") /\
  hex_val x = Some (b / 16) /\ hex_val y = Some (b mod 16) /\ hex_char_ok x = true /\ hex_char_ok y = true.
Proof.
  intros Hb. assert (Hall : forallb (fun n => match hex_byte (Z.of_nat n) with
    | String x (String y "") => bool_decide (hex_val x = Some (Z.of_nat n / 16)) && bool_decide (hex_val y = Some (Z.of_nat n mod 16)) &&
        hex_char_ok x && hex_char_ok y
    | _ => false end) (seq 0 256) = true) by by vm_compute.
  rewrite forallb_forall in Hall. specialize (Hall (Z.to_nat b)). rewrite Z2Nat.id in Hall by (destruct Hb; lia).
  assert (Hin : In (Z.to_nat b) (seq 0 256)) by (apply in_seq; destruct Hb; lia). specialize (Hall Hin).
  destruct (hex_byte b) as [|x [|y [|? ?]]]; try discriminate Hall. exists x, y.
  rewrite !andb_true_iff, !bool_decide_eq_true in Hall. naive_solver.
Qed.
Lemma hex_bytes_cons b l : hex_bytes (b :: l) = hex_byte b +:+ hex_bytes l.
Proof. done. Qed.
Lemma hex_round l : Forall byte l -> hex_decode (hex_bytes l) = Some l /\ all_chars hex_char_ok (hex_bytes l) = true /\
  String.length (hex_bytes l) = (2 * length l)%nat.
Proof.
  induction 1 as [|b l Hb Hl (IH1 & IH2 & IH3)]; [done |]. rewrite hex_bytes_cons.
  destruct (hex_byte_spec b Hb) as (x & y & -> & Hx & Hy & Ox & Oy). rewrite !str_app_cons.
  change ("" +:+ hex_bytes l) with (hex_bytes l). cbn [hex_decode all_chars String.length length]. rewrite Hx, Hy, IH1, IH2, IH3, Ox, Oy.
  split_and!; [| done | lia]. do 2 f_equal. pose proof (Z.div_mod b 16). lia.
Qed.

Lemma be_bytes_ok n z : Forall byte (be_bytes n z) /\ length (be_bytes n z) = n.
Proof.
  unfold be_bytes. split; [| by rewrite length_map, length_rev, length_seq]. apply Forall_map, Forall_true. intros i. unfold byte.
  change 255 with (Z.ones 8). rewrite Z.land_ones by lia. apply Z.mod_pos_bound. lia.
Qed.
Lemma sum_ok l : Forall byte (sha256_sum l) /\ length (sha256_sum l) = 32%nat.
Proof.
  unfold sha256_sum. assert (Hw : length (sha256_words l) = 8%nat).
  { unfold sha256_words. by destruct (foldl _ _ _) as [[[[? ?] ?] ?] [[[? ?] ?] ?]]. }
  assert (Hg : forall ws, Forall byte (flat_map (be_bytes 4) ws) /\ length (flat_map (be_bytes 4) ws) = (4 * length ws)%nat).
  { induction ws as [|w ws [IH1 IH2]]; [done |]. cbn [flat_map]. destruct (be_bytes_ok 4 w) as [H1 H2].
    split; [by apply Forall_app | rewrite length_app, H2, IH2; cbn; lia]. }
  destruct (Hg (sha256_words l)) as [H1 H2]. by rewrite Hw in H2.
Qed.
Lemma sign_ok st payload hash : Forall byte (sign st payload hash) /\ length (sign st payload hash) = 32%nat.
Proof. apply sum_ok. Qed.

(** ** Base64 *)

Definition newline (c : ascii) : bool := Ascii.eqb c (of_byte 10) || Ascii.eqb c (of_byte 13).
Lemma b64_char_spec v : 0 <= v < 64 -> exists c, b64_char v = String c "" /\ b64_value c = Some v /\ newline c = false.
Proof.
  intros Hv. assert (Hall : forallb (fun n => match b64_char (Z.of_nat n) with
    | String c "" => bool_decide (b64_value c = Some (Z.of_nat n)) && negb (newline c) | _ => false end) (seq 0 64) = true) by by vm_compute.
  rewrite forallb_forall in Hall. specialize (Hall (Z.to_nat v)). rewrite Z2Nat.id in Hall by lia.
  assert (Hin : In (Z.to_nat v) (seq 0 64)) by (apply in_seq; lia). specialize (Hall Hin).
  destruct (b64_char v) as [|c [|? ?]]; try discriminate Hall. exists c.
  apply andb_true_iff in Hall as [H1%bool_decide_eq_true H2%negb_true_iff]. done.
Qed.

(** The characters of a text as numbers, line breaks left out. *)
Definition b64_values (s : string) : option (list Z) :=
  mapM b64_value (List.filter (fun c => negb (newline c)) (String.list_ascii_of_string s)).
Lemma b64_values_char v s : 0 <= v < 64 -> b64_values (b64_char v +:+ s) = cons v <$> b64_values s.
Proof.
  intros Hv. destruct (b64_char_spec v Hv) as (c & -> & Hc & Hn). rewrite str_app_cons. change ("" +:+ s) with s.
  unfold b64_values. cbn [String.list_ascii_of_string List.filter]. rewrite Hn. cbn [negb mapM]. rewrite Hc. cbn. by destruct (mapM _ _).
Qed.

(** Two neighbouring bytes cut into pieces and joined again, for every pair of bytes. *)
Definition byte_pairs (f : Z -> Z -> bool) : bool :=
  forallb (fun a => forallb (fun b => f (Z.of_nat a) (Z.of_nat b)) (seq 0 256)) (seq 0 256).
Lemma byte_pairs_all f a b : byte_pairs f = true -> byte a -> byte b -> f a b = true.
Proof.
  unfold byte_pairs, byte. rewrite forallb_forall. intros Hf Ha Hb. specialize (Hf (Z.to_nat a) ltac:(apply in_seq; lia)).
  rewrite forallb_forall in Hf. specialize (Hf (Z.to_nat b) ltac:(apply in_seq; lia)). by rewrite !Z2Nat.id in Hf by lia.
Qed.
Definition cut1 (a b : Z) : Z := Z.lor (Z.shiftl (Z.land a 3) 4) (Z.shiftr b 4).
Definition cut2 (b c : Z) : Z := Z.lor (Z.shiftl (Z.land b 15) 2) (Z.shiftr c 6).
Definition small (v : Z) : bool := (0 <=? v) && (v <? 64).
Definition cut_ok (a b : Z) : bool :=
  small (Z.shiftr a 2) && small (cut1 a b) && small (cut2 a b) && small (Z.land a 63) &&
  (Z.lor (Z.shiftl (Z.shiftr a 2) 2) (Z.shiftr (cut1 a b) 4) =? a) &&
  (Z.lor (Z.land (Z.shiftl (cut1 a b) 4) 255) (Z.land b 15) =? b) && (Z.shiftr (cut2 a b) 2 =? Z.land a 15) &&
  (Z.lor (Z.land (Z.shiftl (cut2 a b) 6) 255) (Z.land b 63) =? b).
Lemma cuts_ok a b : byte a -> byte b -> cut_ok a b = true.
Proof. apply byte_pairs_all. by vm_compute. Qed.
Lemma small_range v : small v = true -> 0 <= v < 64.
Proof. unfold small. rewrite andb_true_iff, Z.leb_le, Z.ltb_lt. done. Qed.
Lemma b64_values_last v : 0 <= v < 64 -> b64_values (b64_char v) = Some [v].
Proof.
  intros Hv. destruct (b64_char_spec v Hv) as (c & -> & Hc & Hn). unfold b64_values.
  cbn [String.list_ascii_of_string List.filter]. rewrite Hn. cbn [negb mapM]. by rewrite Hc.
Qed.
Lemma cut_facts a b : byte a -> byte b -> 0 <= Z.shiftr a 2 < 64 /\ 0 <= cut1 a b < 64 /\ 0 <= cut2 a b < 64 /\ 0 <= Z.land a 63 < 64 /\
  Z.lor (Z.shiftl (Z.shiftr a 2) 2) (Z.shiftr (cut1 a b) 4) = a /\
  Z.lor (Z.land (Z.shiftl (cut1 a b) 4) 255) (Z.land b 15) = b /\ Z.shiftr (cut2 a b) 2 = Z.land a 15 /\
  Z.lor (Z.land (Z.shiftl (cut2 a b) 6) 255) (Z.land b 63) = b.
Proof.
  intros Ha Hb. pose proof (cuts_ok a b Ha Hb) as Hc. unfold cut_ok in Hc. rewrite !andb_true_iff, !Z.eqb_eq in Hc.
  destruct Hc as [[[[[[[S1 S2] S3] S4] E1] E2] E3] E4]. split_and!; try done; try by apply small_range.
  all: by apply small_range.
Qed.
Lemma b64_round l : Forall byte l -> b64_decode (b64_encode l) = Some l.
Proof.
  intros Hl. assert (Hv : exists vs, b64_values (b64_encode l) = Some vs /\ b64_bytes vs = Some l).
  { assert (Hn : exists n, (length l <= n)%nat) by eauto. destruct Hn as [n Hn]. revert l Hl Hn.
    induction n as [|n IH]; intros l Hl Hn; [destruct l; [by exists [] | cbn in Hn; lia] |].
    assert (H0 : byte 0) by (unfold byte; lia).
    destruct l as [|a [|b [|c l]]]; [by exists [] | | |]; cbn [b64_encode].
    - apply Forall_cons in Hl as [Ha _]. destruct (cut_facts a 0 Ha H0) as (S1 & S2 & _ & _ & E1 & _).
      assert (E : Z.shiftl (Z.land a 3) 4 = cut1 a 0) by (unfold cut1; by rewrite Z.lor_0_r).
      rewrite E, b64_values_char, b64_values_last by done. eexists. split; [done |]. cbn [b64_bytes]. by rewrite E1.
    - rewrite !Forall_cons in Hl. destruct Hl as (Ha & Hb & _). fold (cut1 a b).
      destruct (cut_facts a b Ha Hb) as (S1 & S2 & _ & _ & E1 & E2 & _). destruct (cut_facts b 0 Hb H0) as (_ & _ & S3 & _ & _ & _ & E3 & _).
      assert (E : Z.shiftl (Z.land b 15) 2 = cut2 b 0) by (unfold cut2; by rewrite Z.lor_0_r).
      rewrite E, !b64_values_char, b64_values_last by done. eexists. split; [done |]. cbn [b64_bytes]. by rewrite E1, E3, E2.
    - rewrite !Forall_cons in Hl. destruct Hl as (Ha & Hb & Hc & Hl). fold (cut1 a b) (cut2 b c).
      destruct (cut_facts a b Ha Hb) as (S1 & S2 & _ & _ & E1 & E2 & _). destruct (cut_facts b c Hb Hc) as (_ & _ & S3 & _ & _ & _ & E3 & E4).
      destruct (cut_facts c 0 Hc H0) as (_ & _ & _ & S4 & _). cbn in Hn. destruct (IH l Hl ltac:(lia)) as (vs & E & Ed).
      rewrite !b64_values_char, E by done. eexists. split; [done |]. cbn [fmap option_fmap option_map b64_bytes].
      by rewrite Ed, E1, E3, E2, E4. }
  destruct Hv as (vs & H1 & H2). unfold b64_decode. unfold b64_values, newline in H1. by rewrite H1.
Qed.

(** ** Texts of tokens *)

Lemma byte_text s : string_of_bytes (bytes_of s) = s.
Proof.
  unfold string_of_bytes, bytes_of. induction s as [|c s IH]; [done |]. cbn [String.list_ascii_of_string map String.string_of_list_ascii].
  rewrite IH. f_equal. destruct c as [[] [] [] [] [] [] [] []]; reflexivity.
Qed.
Lemma bytes_of_ok s : Forall byte (bytes_of s).
Proof. unfold bytes_of. apply Forall_map, Forall_true. intros c. unfold byte. destruct c as [[] [] [] [] [] [] [] []]; vm_compute; by split. Qed.
Lemma b64_char_length v : (String.length (b64_char v) <= 1)%nat.
Proof. unfold b64_char. destruct (sdrop _ _); cbn; lia. Qed.
Lemma b64_length l : (String.length (b64_encode l) <= 2 * length l)%nat.
Proof.
  assert (Hn : exists n, (length l <= n)%nat) by eauto. destruct Hn as [n Hn]. revert l Hn.
  induction n as [|n IH]; intros l Hn; [destruct l; cbn in *; lia |].
  destruct l as [|a [|b [|c l]]]; cbn [b64_encode length] in *; rewrite ?str_length_app; [cbn; lia | | |].
  all: repeat match goal with |- context [b64_char ?v] => pose proof (b64_char_length v); generalize dependent (b64_char v); intros end.
  3: specialize (IH l ltac:(lia)).
  all: lia.
Qed.
Lemma token_round st uid exp remember id hash : 0 < uid <= max_int64 -> 0 < exp <= max_int64 -> Forall byte id -> length id = 16%nat ->
  parseToken (signToken st uid exp remember (hex_bytes id) hash) =
  Some {| tk_payload := tokenPayload uid exp remember (hex_bytes id); tk_user := uid; tk_exp := exp; tk_remember := remember;
          tk_id := hex_bytes id; tk_sig := sign st (tokenPayload uid exp remember (hex_bytes id)) hash |}.
Proof.
  intros [Hu Hu'] [He He'] Hid Hn. destruct (format_nat_parses uid Hu Hu') as (Pu & Du & Lu). destruct (format_nat_parses exp He He') as (Pe & De & Le).
  destruct (hex_round id Hid) as (Pi & Di & Li). destruct (sign_ok st (tokenPayload uid exp remember (hex_bytes id)) hash) as [Sb Sl].
  destruct (hex_round _ Sb) as (Ps & Ds & Ls). unfold signToken. cbv zeta. remember (tokenPayload uid exp remember (hex_bytes id)) as payload eqn:Epay.
  remember (sign st payload hash) as sg eqn:Esg.
  assert (Hraw : payload +:+ "|" +:+ hex_bytes sg =
    join "|" [format_int uid; format_int exp; (if remember then "1" else "0"); hex_bytes id; hex_bytes sg]).
  { rewrite Epay. unfold tokenPayload. cbn [join]. by rewrite !str_app_assoc. }
  assert (Hlen : (String.length (payload +:+ "|" +:+ hex_bytes sg) <= 150)%nat).
  { rewrite Hraw. cbn [join]. rewrite !str_length_app, Li, Ls, Hn, Sl. destruct remember; cbn; lia. }
  unfold parseToken. rewrite b64_round by apply bytes_of_ok. rewrite byte_text, Hraw, split_join; [| done |].
  - rewrite Pu, Pe, Pi, Ps, Hn, Sl, (proj2 (Z.leb_gt uid 0)) by done. rewrite <- Hraw.
    assert (Hne : String.eqb (b64_encode (bytes_of (payload +:+ "|" +:+ hex_bytes sg))) "" = false).
    { apply String.eqb_neq. intros E. pose proof (b64_round _ (bytes_of_ok (payload +:+ "|" +:+ hex_bytes sg))) as Hr.
      rewrite E in Hr. change (b64_decode "") with (Some ([] : list Z)) in Hr. apply (inj Some) in Hr. pose proof (byte_text (payload +:+ "|" +:+ hex_bytes sg)) as Ht.
      rewrite <- Hr, Hraw in Ht. cbn [join] in Ht. apply (f_equal String.length) in Ht. rewrite !str_length_app in Ht. cbn in Ht. lia. }
    rewrite Hne. pose proof (b64_length (bytes_of (payload +:+ "|" +:+ hex_bytes sg))) as Hb.
    assert (Hbl : forall s, length (bytes_of s) = String.length s).
    { intros s. unfold bytes_of. rewrite length_map. induction s; cbn; lia. }
    rewrite Hbl in Hb. rewrite (proj2 (Nat.ltb_ge _ _)) by (unfold maxCookieLength; lia).
    rewrite Epay. clear. by destruct remember.
  - assert (Hfree : forall f s, all_chars f s = true -> f "|"%char = false -> index_byte s "|" = None) by (intros; by eapply all_chars_free).
    intros x. rewrite !elem_of_cons. intros [-> | [-> | [-> | [-> | [-> | []%elem_of_nil]]]]].
    + by eapply Hfree.
    + by eapply Hfree.
    + by destruct remember.
    + by eapply Hfree.
    + by eapply Hfree.
Qed.

(** * Network trust and the middleware: lemmas *)

(** ** Prefixes *)

Lemma top_bits_coarser width n m v w : 0 <= n <= m -> m <= width ->
  top_bits width m v = top_bits width m w -> top_bits width n v = top_bits width n w.
Proof.
  unfold top_bits. intros Hn Hm E. replace (width - n) with ((width - m) + (m - n)) by lia.
  rewrite <- !Z.shiftr_shiftr by lia. by rewrite E.
Qed.
Lemma top_bits_masked width n v : 0 <= n <= width -> top_bits width n (clear_low width n v) = top_bits width n v.
Proof.
  intros Hn. unfold clear_low, top_bits. rewrite Z.shiftr_shiftl_l by lia. by rewrite Z.sub_diag, Z.shiftl_0_r.
Qed.

(** A prefix of addresses: its addresses agree on the first bits. *)
Lemma contains_spec p a : Contains p a = true <-> Zone a = "" /\ Is4 (px_addr p) = Is4 a /\
  top_bits (BitLen a) (px_bits p) (addr_bits (px_addr p)) = top_bits (BitLen a) (px_bits p) (addr_bits a).
Proof. unfold Contains. rewrite !andb_true_iff, String.eqb_eq, Bool.eqb_true_iff, Z.eqb_eq. naive_solver. Qed.
Lemma contains_coarser np p a : 0 <= px_bits np <= px_bits p -> px_bits p <= BitLen (px_addr p) ->
  Contains np (px_addr p) = true -> Contains p a = true -> Contains np a = true.
Proof.
  intros Hb Hw (_ & H1 & H2)%contains_spec (Hz & H3 & H4)%contains_spec. apply contains_spec.
  assert (Hl : BitLen (px_addr p) = BitLen a) by (unfold BitLen; by rewrite H3). rewrite Hl in *.
  split_and!; [done | congruence |]. rewrite H2. by apply (top_bits_coarser _ _ (px_bits p)).
Qed.

Definition in_prefix (p : Prefix) (a : Addr) : Prop := Contains p a = true.
Definition non_public (a : Addr) : Prop := exists np, np ∈ nonPublicRanges /\ in_prefix np a.
(** A range of at most 2^16 IPv4 or 2^80 IPv6 addresses. *)
Definition narrow (p : Prefix) : Prop := BitLen (px_addr p) - px_bits p <= (if Is4 (px_addr p) then 16 else 80).

Lemma acceptable_range p : 0 <= px_bits p <= BitLen (px_addr p) -> acceptableProxyRange p = true ->
  (forall a, in_prefix p a -> non_public a) \/ narrow p.
Proof.
  intros Hb Ha. unfold acceptableProxyRange in Ha. apply orb_true_iff in Ha as [Ha|Ha].
  - left. intros a Hp. apply existsb_elem in Ha as (np & Hnp & ((_ & Hle)%andb_true_iff & Hc)%andb_true_iff).
    apply Z.leb_le in Hle. exists np. split; [done |]. eapply contains_coarser; [| | done..]; [| lia].
    split; [| done]. clear -Hnp. repeat (apply elem_of_cons in Hnp as [->|Hnp]; [done |]). by apply not_elem_of_nil in Hnp.
  - right. unfold narrow, BitLen. destruct (Is4 _); apply Z.leb_le in Ha; unfold minPublicProxyBits4, minPublicProxyBits6 in Ha; lia.
Qed.

Lemma parse_prefix_bits s p : ParsePrefix s = Some p -> 0 <= px_bits p <= BitLen (px_addr p) /\ Zone (px_addr p) = "".
Proof.
  unfold ParsePrefix. destruct (last_index_byte s "/") as [i|]; [| done]. destruct (ParseAddr _) as [a|]; [| done].
  destruct (String.eqb_spec (Zone a) "") as [Hz|]; [| done]. cbn [negb]. destruct (negb _); [done |].
  destruct (parse_int _) as [n|]; [| done]. destruct ((n <? 0) || (BitLen a <? n)) eqn:Hn; [done |]. intros [= <-]. cbn.
  apply orb_false_iff in Hn as [?%Z.ltb_ge ?%Z.ltb_ge]. split; [lia | done].
Qed.

Section network.
Context `{Unicode}.

Lemma proxy_entry_range s p : parseProxyEntry s = inl p ->
  0 <= px_bits p <= BitLen (px_addr p) /\ ((forall a, in_prefix p a -> non_public a) \/ narrow p).
Proof.
  unfold parseProxyEntry. set (t := trim_suffix _ _). destruct (contains t "%"); [by destruct (contains t ":") |].
  destruct (contains t "/").
  - destruct (ParsePrefix t) as [q|] eqn:Eq; [| done]. apply parse_prefix_bits in Eq as [Hq Hz].
    destruct (Is4In6 (px_addr q) && (px_bits q <? 96)) eqn:Hm; [done |].
    set (q' := if Is4In6 (px_addr q) then _ else q). assert (Hq' : 0 <= px_bits q' <= BitLen (px_addr q')).
    { unfold q'. destruct (Is4In6 (px_addr q)) eqn:H6; [| done]. cbn [andb] in Hm. apply Z.ltb_ge in Hm. cbn.
      unfold Is4In6 in H6. destruct (px_addr q) as [|v z]; [done |]. cbn. rewrite H6. cbn in *. lia. }
    assert (Hb : px_bits (Masked q') = px_bits q' /\ BitLen (px_addr (Masked q')) = BitLen (px_addr q'))
      by (unfold Masked, BitLen; cbn; by destruct (px_addr q')).
    destruct (acceptableProxyRange (Masked q')) eqn:Ha; [| done]. cbn [negb]. intros [= <-].
    destruct Hb as [Hb1 Hb2]. split; [by rewrite Hb1, Hb2 |]. apply acceptable_range; [by rewrite Hb1, Hb2 | done].
  - destruct (ParseAddr t) as [a|]; [| done]. intros [= <-]. cbn. unfold BitLen. split; [destruct (Is4 _); lia |].
    right. unfold narrow, BitLen. cbn. destruct (Is4 _); lia.
Qed.

(** Every entry that is kept is one that parses, and the others are named. *)
Lemma add_entries {A} `{EqDecision A} (parse : string -> A + string) what l acc bad :
  let r := foldl (add_entry parse what) (acc, bad) l in
  (forall x, x ∈ fst r <-> x ∈ acc \/ exists f, f ∈ l /\ parse f = inl x) /\
  (NoDup acc -> NoDup (fst r)) /\
  snd r = (bad ++ map (fun f => what +:+ quoteEntry f) (List.filter (fun f => bool_decide (is_Some (problem_of (parse f)))) l))%list.
Proof.
  revert acc bad. induction l as [|f l IH]; intros acc bad; cbv zeta; cbn [foldl].
  { split_and!; [| done | by rewrite app_nil_r]. intros x. split; [auto | intros [|(f & Hf & _)]; [done | by apply not_elem_of_nil in Hf]]. }
  unfold add_entry at 2 4 6. cbn [fst snd]. destruct (parse f) as [x|m] eqn:Ef.
  - destruct (IH (if mem x acc then acc else (acc ++ [x])%list) bad) as (A1 & A2 & A3). split_and!.
    + intros y. rewrite A1. destruct (mem x acc) eqn:Hm.
      * apply mem_true in Hm. split; [intros [|(g & ? & ?)]; [auto | right; exists g; split; [by right | done]] |].
        intros [|(g & [->|Hg]%elem_of_cons & E)]; [auto | left; congruence | right; eauto].
      * rewrite elem_of_app, list_elem_of_singleton. split.
        -- intros [[Hx| ->]|(g & ? & ?)]; [auto | right; exists f; split; [by left | done] | right; exists g; split; [by right | done]].
        -- intros [|(g & [->|Hg]%elem_of_cons & E)]; [auto | left; right; congruence | right; eauto].
    + intros Hn. apply A2. destruct (mem x acc) eqn:Hm; [done |]. apply mem_false in Hm. apply NoDup_app.
      split_and!; [done | by intros y Hy ->%list_elem_of_singleton | apply NoDup_singleton].
    + rewrite A3. cbn [List.filter]. by rewrite Ef.
  - destruct (IH acc (bad ++ [what +:+ quoteEntry f])%list) as (A1 & A2 & A3). split_and!; [| done |].
    + intros y. rewrite A1. split; [intros [|(g & ? & ?)]; [auto | right; exists g; split; [by right | done]] |].
      intros [|(g & [->|Hg]%elem_of_cons & E)]; [auto | congruence | right; eauto].
    + rewrite A3. cbn [List.filter]. rewrite Ef. cbn. by rewrite <- app_assoc.
Qed.

Lemma trusted_entries proxies hosts p : p ∈ nt_proxies (fst (ParseNetworkTrust proxies hosts)) <->
  exists f, f ∈ SplitList proxies /\ parseProxyEntry f = inl p.
Proof.
  unfold ParseNetworkTrust. destruct (add_entries parseProxyEntry "trusted proxy " (SplitList proxies) [] []) as (A & _ & _).
  destruct (foldl _ ([], []) (SplitList proxies)) as [ps bad]. destruct (foldl _ ([], bad) (SplitList hosts)) as [hs bad'].
  cbn in *. rewrite A. split; [intros [?%not_elem_of_nil|]; done | auto].
Qed.

(** ** The client behind the proxies *)

(** Reading the chain from the right: trusted proxies, then the client. *)
Lemma client_walk_spec t peer l ip : client_walk t peer l = Some ip ->
  Some ip = peer \/
  exists before c after, l = (before ++ c :: after)%list /\ parseHostIP c = Some ip /\
    Forall (fun h => exists hop, parseHostIP h = Some hop /\ trustsProxy t (Some hop) = true) before /\
    (trustsProxy t (Some ip) = false \/ after = []).
Proof.
  induction l as [|c l IH]; cbn [client_walk]; [by left |].
  destruct (parseHostIP c) as [hop|] eqn:Ec; [| by left]. destruct (trustsProxy t (Some hop)) eqn:Ht; cbn [negb].
  - destruct l as [|d l].
    + intros [= ->]. right. exists [], c, []. split_and!; [done | done | done | by right].
    + intros Hw. destruct (IH Hw) as [|(b & x & a & -> & Hx & Hb & Ha)]; [by left | right].
      exists (c :: b), x, a. split_and!; [done | done | | done]. constructor; [eauto | done].
  - intros [= ->]. right. exists [], c, l. split_and!; [done | done | done | by left].
Qed.

(** ** Hosts *)

Lemma hosts_all r ok : requestHostsAll r ok = true <->
  ok (rq_host r) = true /\ forall h, h ∈ flat_map comma_list (header_values r "X-Forwarded-Host") -> ok h = true.
Proof.
  unfold requestHostsAll, firstHostFailing. rewrite bool_decide_eq_true. destruct (ok (rq_host r)); cbn [negb]; [| naive_solver].
  split.
  - intros Hf. split; [done |]. intros h Hh%list_elem_of_In. pose proof (find_none _ _ Hf _ Hh) as Hn. by apply negb_false_iff in Hn.
  - intros [_ Hall]. destruct (find _ _) as [h|] eqn:E; [| done]. apply find_some in E as [Hin Hn].
    apply list_elem_of_In in Hin. rewrite (Hall h Hin) in Hn. done.
Qed.
End network.

(** ** Paths *)

Lemma index_byte_app s c d : index_byte (s +:+ String d "") c = None <-> index_byte s c = None /\ d <> c.
Proof.
  unfold index_byte. induction s as [|x s IH]; [change ("" +:+ String d "") with (String d "") | rewrite str_app_cons];
    cbn [index_byte_where].
  - destruct (Ascii.eqb_spec c d) as [->|Hcd]; cbn; (split; [intros Hn; split; congruence | intros [_ Hn]; congruence]).
  - destruct (Ascii.eqb c x); cbn; [split; [done | by intros [? _]] |].
    destruct (index_byte_where _ (s +:+ _)), (index_byte_where _ s); cbn in *; intuition congruence.
Qed.
Lemma split_byte_free c s cur : index_byte cur c = None -> forall x, x ∈ split_byte_from c cur s -> index_byte x c = None.
Proof.
  revert cur. induction s as [|d s IH]; intros cur Hc x; cbn.
  - by intros ->%list_elem_of_singleton.
  - destruct (Ascii.eqb_spec d c) as [->|Hd].
    + intros [->|Hx]%elem_of_cons; [done | by eapply IH; [| exact Hx]].
    + intros Hx. eapply IH; [| exact Hx]. by apply index_byte_app.
Qed.
Lemma join_cons_sep sep x l : l <> [] -> join sep (x :: l) = x +:+ sep +:+ join sep l.
Proof. by destruct l. Qed.
Lemma prefix_single c s : String.prefix (String c "") s = match s with String d _ => Ascii.eqb c d | "" => false end.
Proof. destruct s as [|d s]; [done |]. cbn. destruct (ascii_dec c d) as [->|Hne]; [by rewrite Ascii.eqb_refl; destruct s | by apply Ascii.eqb_neq in Hne as ->]. Qed.
Lemma contains_byte s c : contains s (String c "") = negb (bool_decide (index_byte s c = None)).
Proof.
  unfold contains, index_byte. induction s as [|d s IH]; [done |]. cbn [index_of index_byte_where].
  rewrite prefix_single. destruct (Ascii.eqb c d); [by rewrite bool_decide_eq_true_2 by eauto |].
  destruct (index_of s _), (index_byte_where _ s); cbn in *; rewrite ?bool_decide_eq_true_2, ?bool_decide_eq_false_2 in * by (done || eauto || by intros [? [=]]); done.
Qed.
Lemma no_byte s c : contains s (String c "") = false <-> index_byte s c = None.
Proof. rewrite contains_byte, negb_false_iff. by rewrite bool_decide_eq_true. Qed.

Lemma unescape_plain s : index_byte s "%" = None -> PathUnescape s = Some s.
Proof.
  unfold PathUnescape, index_byte. induction s as [|d s IH]; [done |]. cbn [index_byte_where unescape].
  destruct (Ascii.eqb_spec "%" d) as [->|Hd]; [done |]. rewrite (proj2 (Ascii.eqb_neq d "%")) by congruence.
  intros Hs. rewrite IH; [done |]. by destruct (index_byte_where _ s).
Qed.
Lemma split_in c d s cur : index_byte s d = None -> index_byte cur d = None -> forall x, x ∈ split_byte_from c cur s -> index_byte x d = None.
Proof.
  revert cur. induction s as [|e s IH]; intros cur Hs Hc x; cbn; [by intros ->%list_elem_of_singleton |].
  assert (Hs' : index_byte s d = None /\ e <> d).
  { unfold index_byte in *. cbn in Hs. destruct (Ascii.eqb_spec d e); [done |]. by destruct (index_byte_where _ s). }
  destruct Hs' as [Hs' Hed]. destruct (Ascii.eqb e c).
  - intros [->|Hx]%elem_of_cons; [done | by eapply (IH ""); [.. | exact Hx]].
  - intros Hx. eapply IH; [done | | exact Hx]. by apply index_byte_app.
Qed.

(** The path the middleware classifies is the one the router sees, segment by segment. *)
Lemma routed_join e : routedPath e = join "/" (map routed_segment (split_byte "/"%char e)).
Proof.
  unfold routedPath. destruct (contains e "%") eqn:Hc; cbn [negb]; [done |]. apply no_byte in Hc.
  assert (Hm : map routed_segment (split_byte "/"%char e) = split_byte "/"%char e).
  { rewrite <- (map_id (split_byte _ e)) at 2. apply map_ext_in. intros x Hx%list_elem_of_In. unfold routed_segment.
    rewrite unescape_plain by (by eapply split_in; [.. | exact Hx]). rewrite String.eqb_refl. cbn [negb andb].
    by rewrite orb_false_r; destruct (contains x "/"). }
  rewrite Hm. unfold split_byte. by rewrite join_split_from.
Qed.
Lemma routed_segment_free x : index_byte x "/" = None -> index_byte (routed_segment x) "/" = None.
Proof.
  intros Hx. unfold routed_segment. destruct (PathUnescape x) as [u|]; [| done]. destruct (contains u "/") eqn:Hc; cbn [orb]; [done |].
  apply no_byte in Hc. by destruct (_ && _).
Qed.

Lemma prefix_app a b : String.prefix a (a +:+ b) = true.
Proof. induction a as [|c a IH]; [by destruct b |]. rewrite str_app_cons. cbn [String.prefix]. destruct (ascii_dec c c); [exact IH | congruence]. Qed.
(** A path of proper segments is clean. *)
Definition proper (x : string) : Prop := x <> "." /\ x <> "..".
Lemma clean_proper l out : Forall proper l ->
  foldl (clean_step true) out l = (rev (List.filter non_empty l) ++ out)%list.
Proof.
  revert out. induction l as [|x l IH]; intros out Hl; [done |]. inversion Hl as [|? ? [H1 H2] Hl']; subst. cbn [foldl List.filter].
  unfold clean_step at 2, non_empty at 1. destruct (String.eqb_spec x "") as [->|Hx]; cbn [orb negb]; [by apply IH |].
  rewrite (proj2 (String.eqb_neq x ".")), (proj2 (String.eqb_neq x "..")) by done. rewrite IH by done. cbn [rev]. by rewrite <- app_assoc.
Qed.
Lemma path_clean_proper l : Forall proper l -> (forall x, x ∈ l -> index_byte x "/" = None) -> l <> [] ->
  path_clean ("/" +:+ join "/" l) = "/" +:+ join "/" (List.filter non_empty l).
Proof.
  intros Hp Hf Hl. unfold path_clean. change (String.eqb ("/" +:+ join "/" l) "") with false. cbv iota.
  assert (Hpre : has_prefix ("/" +:+ join "/" l) "/" = true) by exact (prefix_app "/" _).
  rewrite Hpre. assert (Hs : split_byte "/" ("/" +:+ join "/" l) = "" :: l).
  { change ("/" +:+ join "/" l) with (join "/" [] +:+ String "/" (join "/" l)). unfold split_byte.
    rewrite split_byte_from_app. cbn [split_byte_from app]. f_equal. by apply split_join. }
  rewrite Hs. cbn [foldl]. change (clean_step true [] "") with (@nil string). rewrite clean_proper by done.
  by rewrite app_nil_r, rev_involutive.
Qed.

Lemma api_path_guarded q first rest : first ∈ ["api"; "backup"] -> rest <> [] ->
  let p := "/" +:+ join "/" (first :: rest) in path_clean ("/" +:+ q) = p ->
  classify ("/" +:+ q) <> routePublic \/ p = "/api/v1/auth/status".
Proof.
  intros Hf Hr p Hp. unfold classify. change (String.eqb ("/" +:+ q) "") with false. cbv iota.
  assert (Hpre : has_prefix ("/" +:+ q) "/" = true) by exact (prefix_app "/" _).
  rewrite Hpre, Hp. destruct (mem p _) eqn:Hm.
  - apply mem_true in Hm. right. unfold p in *. rewrite join_cons_sep in * by done. apply elem_of_cons in Hf as [->|Hf].
    + apply elem_of_cons in Hm as [Hm|Hm]; [discriminate Hm |]. apply elem_of_cons in Hm as [Hm|Hm]; [discriminate Hm |].
      apply elem_of_cons in Hm as [Hm|Hm]; [discriminate Hm |]. by apply list_elem_of_singleton in Hm.
    + apply list_elem_of_singleton in Hf as ->. repeat (apply elem_of_cons in Hm as [Hm|Hm]; [discriminate Hm |]).
      by apply not_elem_of_nil in Hm.
  - left. assert (Hg : has_prefix p "/api/" || has_prefix p "/backup/" = true).
    { apply orb_true_iff. unfold p, has_prefix. rewrite join_cons_sep by done.
      apply elem_of_cons in Hf as [->|Hf%list_elem_of_singleton]; [left | subst first; right].
      - exact (prefix_app "/api/" (join "/" rest)).
      - exact (prefix_app "/backup/" (join "/" rest)). }
    rewrite Hg. repeat case_match; discriminate.
Qed.

(** * Authentication: a service and requests for the examples *)

(** A hash that shows its password. *)
#[export] Instance fx_bcrypt : Bcrypt := {|
  bcrypt_compare := fun hash pw => String.eqb hash ("hash:" +:+ pw);
  bcrypt_generate := fun pw _ => Some ("hash:" +:+ pw) |}.

Definition fx_signing : signingState := {| sg_ref := 0; sg_key := [1; 2; 3]; sg_generation := 7 |}.
Definition fx_auth (method required : string) (users : list user) (code : string) : service := {|
  sv_config := {| ac_api_key := "0123456789abcdef"; ac_method := method; ac_required := required; ac_url_base := "";
                  ac_proxies := "10.0.0.0/8"; ac_hosts := "media.example.com"; ac_env := [] |};
  sv_users := users; sv_user_id := None; sv_locked := false;
  sv_sessions := {| ss_signing := fx_signing; ss_revoked := ∅ |};
  sv_webhook_token := "hook"; sv_limiter := newLimiterWith addressPolicy; sv_user_limiter := newLimiterWith userPolicy;
  sv_setup_code := code |}.
Definition fx_user : user := {| us_id := 1; us_name := "admin"; us_hash := "hash:correct horse" |}.
Definition fx_service : service := fx_auth "Forms" "Enabled" [fx_user] "".

Definition fx_get (method remote host path key : string) : request := {|
  rq_method := method; rq_remote := remote; rq_host := host;
  rq_header := if String.eqb key "" then ∅ else {[ "X-Api-Key" := [key] ]};
  rq_path := path; rq_escaped := path; rq_query := ∅; rq_tls := false; rq_cookies := [] |}.

Definition fx_login (seconds : Z) (name password : string) : login_env * request * string * string :=
  ({| le_now := (1700000000 + seconds) * second; le_orders := ([], []); le_read_fails := false; le_slot := true; le_dummy := true;
      le_session_id := "" |}, fx_get "POST" "203.0.113.9:4000" "media.example.com" "/login" "", name, password).

(** Four wrong passwords from one address, then the right one, then one too early. *)
Fixpoint results (s : service) (l : list (login_env * request * string * string)) : list login_result :=
  match l with
  | [] => []
  | (e, r, name, pw) :: l => let '(x, s) := Login e r name pw false s in x :: results s l
  end.
Example wrong_passwords_throttled :
  map (fun r => match r with SignedIn _ _ => "in" | ErrInvalidCredentials => "wrong" | ErrThrottled w => format_int w | _ => "other" end)
    (results fx_service (map (fun n => fx_login 0 "Admin" ("guess " +:+ format_int n)) [1; 2; 3; 4; 5; 6] ++
       [fx_login 1 "admin" "correct horse"; fx_login 1 "admin" "guess"])%list) =
  ["wrong"; "wrong"; "wrong"; "wrong"; "wrong"; "1000000000"; "in"; "wrong"].
Proof. vm_compute. reflexivity. Qed.
