(* ===== verification/SessionTheorems.v ===== *)
(** * Sessions: round trip, revocation, races

    The requests of a server as a transition system: a request is verified in three
    steps (the cookie and the state of the sessions, the user's row, the state again),
    with logouts, revocations and password changes in between. *)

From S2P Require Import Prelude GoStd GoNet Limiter Network Session AuthFacts.
Local Open Scope string_scope.
Local Open Scope Z_scope.

(** ** Issue and verification *)

Lemma unix_bounds n : unix n * second <= n < unix n * second + second.
Proof. unfold unix. pose proof (Z.div_mod n second ltac:(done)). pose proof (Z.mod_pos_bound n second ltac:(done)). lia. Qed.
Lemma unix_mono a b : a <= b -> unix a <= unix b.
Proof. intros. unfold unix. apply Z.div_le_mono; done. Qed.

(** C25: A session cookie verifies: one issued for a user is accepted until it expires, as the session of
    that user with the same id and the same lifetime, as long as the user's password hash is what
    it was, the sessions have not been revoked and this one was not logged out. *)
Theorem issued_sessions_verify st uid hash remember now id now' hashes s :
  0 < uid <= max_int64 -> 0 < unix (now + lifetime remember) <= max_int64 -> Forall byte id -> length id = 16%nat ->
  now <= now' -> now' < unix (now + lifetime remember) * second ->
  ss_signing s = st -> ss_revoked s !! hex_bytes id = None -> hashes uid = Some hash ->
  verifySession (Some (issueSessionCookie st uid hash remember now (hex_bytes id))) now' hashes s =
  Some {| sn_user := uid; sn_expires := unix (now + lifetime remember) * second; sn_remember := remember;
          sn_id := hex_bytes id; sn_signing := st; sn_hash := hash |}.
Proof.
  intros Hu He Hid Hn Hnow Hexp <- Hr Hh. unfold verifySession, verify_begin, issueSessionCookie.
  rewrite token_round by done. cbn [tk_exp tk_remember tk_id tk_user tk_payload tk_sig].
  pose proof (unix_bounds (now + lifetime remember)) as Hub.
  assert (Hrev : isRevokedOrRotated (hex_bytes id) (ss_signing s) s = false).
  { unfold isRevokedOrRotated. rewrite Hr, Nat.eqb_refl. done. }
  rewrite (proj2 (Z.leb_gt _ _)) by done. rewrite (proj2 (Z.ltb_ge _ _)) by (unfold minute; lia). cbn [orb]. rewrite Hrev. cbv beta iota zeta. cbn [tk_user]. rewrite Hh.
  unfold verify_end. cbn [tk_exp tk_remember tk_id tk_user tk_payload tk_sig]. rewrite bool_decide_true by done. by rewrite Hrev.
Qed.
Definition st0 : signingState := {| sg_ref := 0; sg_key := [1; 2; 3]; sg_generation := 7 |}.
Definition id0 : list Z := [0; 1; 2; 3; 4; 5; 6; 7; 8; 9; 10; 11; 12; 13; 14; 255].
Definition ss0 : sessions := {| ss_signing := st0; ss_revoked := ∅ |}.
Definition t0 : Z := 1700000000 * second.
Lemma issued_sessions_verify_witness :
  verifySession (Some (issueSessionCookie st0 1 "hash" true t0 (hex_bytes id0))) (t0 + minute) (fun _ => Some "hash") ss0 <> None.
Proof.
  rewrite (issued_sessions_verify st0 1 "hash" true t0 id0 (t0 + minute) (fun _ => Some "hash") ss0);
    [discriminate | vm_compute; split; [reflexivity | discriminate] | vm_compute; split; [reflexivity | discriminate] |
     repeat constructor; unfold byte; lia | reflexivity | vm_compute; discriminate | vm_compute; reflexivity | reflexivity | reflexivity |
     reflexivity].
Defined.

(** ** Requests, logouts and revocations *)

Record pending := { pd_token : token; pd_signing : signingState; pd_hash : option (option string) }.
Record server := {
  sv_now : Z;
  sv_sessions : sessions;
  sv_next : nat;                     (* identity of the next signing state *)
  sv_hashes : gmap Z string;         (* the users' password hashes *)
  sv_pending : gmap nat pending;     (* requests being verified *)
}.
Definition with_sessions (s : server) (x : sessions) : server :=
  {| sv_now := sv_now s; sv_sessions := x; sv_next := sv_next s; sv_hashes := sv_hashes s; sv_pending := sv_pending s |}.
Definition with_pending (s : server) (p : gmap nat pending) : server :=
  {| sv_now := sv_now s; sv_sessions := sv_sessions s; sv_next := sv_next s; sv_hashes := sv_hashes s; sv_pending := p |}.

Inductive session_event : Type :=
| Tick (now : Z)
| SetHash (uid : Z) (hash : option string)
| Arrive (r : nat) (cookie : string)
| Look (r : nat)
| Accept (r : nat) (x : session)
| Refuse (r : nat)
| RevokeAll (key : list Z)
| LogOut (x : session).

Inductive server_step : server -> session_event -> server -> Prop :=
| step_tick s now : sv_now s <= now ->
  server_step s (Tick now) {| sv_now := now; sv_sessions := sv_sessions s; sv_next := sv_next s; sv_hashes := sv_hashes s; sv_pending := sv_pending s |}
| step_hash s uid hash :
  server_step s (SetHash uid hash)
    {| sv_now := sv_now s; sv_sessions := sv_sessions s; sv_next := sv_next s; sv_hashes := partial_alter (fun _ => hash) uid (sv_hashes s);
       sv_pending := sv_pending s |}
| step_arrive s r cookie t st : sv_pending s !! r = None -> verify_begin (Some cookie) (sv_now s) (sv_sessions s) = Some (t, st) ->
  server_step s (Arrive r cookie) (with_pending s (<[r := {| pd_token := t; pd_signing := st; pd_hash := None |}]> (sv_pending s)))
| step_look s r p : sv_pending s !! r = Some p -> pd_hash p = None ->
  server_step s (Look r) (with_pending s
    (<[r := {| pd_token := pd_token p; pd_signing := pd_signing p; pd_hash := Some (sv_hashes s !! tk_user (pd_token p)) |}]> (sv_pending s)))
| step_accept s r p hash x : sv_pending s !! r = Some p -> pd_hash p = Some hash ->
  verify_end (pd_token p) (pd_signing p) hash (sv_sessions s) = Some x ->
  server_step s (Accept r x) (with_pending s (delete r (sv_pending s)))
| step_refuse s r p hash : sv_pending s !! r = Some p -> pd_hash p = Some hash ->
  verify_end (pd_token p) (pd_signing p) hash (sv_sessions s) = None ->
  server_step s (Refuse r) (with_pending s (delete r (sv_pending s)))
| step_revoke_all s key :
  server_step s (RevokeAll key)
    {| sv_now := sv_now s; sv_sessions := revoke_all (sv_next s) key (sv_sessions s); sv_next := S (sv_next s); sv_hashes := sv_hashes s;
       sv_pending := sv_pending s |}
| step_log_out s x ss : revoke_one (sv_now s) x (sv_sessions s) = Some ss ->
  server_step s (LogOut x) (with_sessions s ss).

Inductive server_run : server -> list session_event -> server -> Prop :=
| run_nil s : server_run s [] s
| run_cons s e s' evs s'' : server_step s e s' -> server_run s' evs s'' -> server_run s (e :: evs) s''.

(** The steps as a function, to run an example. *)
#[export] Instance session_eq_dec : EqDecision session.
Proof. solve_decision. Defined.
Definition exec_event (s : server) (e : session_event) : option server :=
  match e with
  | Tick now => if bool_decide (sv_now s <= now) then
      Some {| sv_now := now; sv_sessions := sv_sessions s; sv_next := sv_next s; sv_hashes := sv_hashes s; sv_pending := sv_pending s |} else None
  | SetHash uid hash =>
    Some {| sv_now := sv_now s; sv_sessions := sv_sessions s; sv_next := sv_next s; sv_hashes := partial_alter (fun _ => hash) uid (sv_hashes s);
            sv_pending := sv_pending s |}
  | Arrive r cookie =>
    match sv_pending s !! r, verify_begin (Some cookie) (sv_now s) (sv_sessions s) with
    | None, Some (t, st) => Some (with_pending s (<[r := {| pd_token := t; pd_signing := st; pd_hash := None |}]> (sv_pending s)))
    | _, _ => None
    end
  | Look r =>
    match sv_pending s !! r with
    | Some {| pd_token := t; pd_signing := st; pd_hash := None |} =>
      Some (with_pending s (<[r := {| pd_token := t; pd_signing := st; pd_hash := Some (sv_hashes s !! tk_user t) |}]> (sv_pending s)))
    | _ => None
    end
  | Accept r _ | Refuse r =>
    match sv_pending s !! r with
    | Some {| pd_token := t; pd_signing := st; pd_hash := Some hash |} =>
      if bool_decide (verify_end t st hash (sv_sessions s) = match e with Accept _ x => Some x | _ => None end)
      then Some (with_pending s (delete r (sv_pending s))) else None
    | _ => None
    end
  | RevokeAll key =>
    Some {| sv_now := sv_now s; sv_sessions := revoke_all (sv_next s) key (sv_sessions s); sv_next := S (sv_next s); sv_hashes := sv_hashes s;
            sv_pending := sv_pending s |}
  | LogOut x => with_sessions s <$> revoke_one (sv_now s) x (sv_sessions s)
  end.
Lemma exec_step s e s' : exec_event s e = Some s' -> server_step s e s'.
Proof.
  destruct e as [now|uid hash|r cookie|r|r x|r|key|x]; cbn.
  - case_bool_decide; [| done]. intros [= <-]. by constructor.
  - intros [= <-]. constructor.
  - destruct (sv_pending s !! r) eqn:Hp; [done |]. destruct (parseToken cookie) as [t|] eqn:Ht; [| done].
    destruct (_ || _) eqn:He; [done |]. destruct (isRevokedOrRotated _ _ _) eqn:Hr; [done |]. intros [= <-]. constructor; [done |].
    cbn. by rewrite Ht, He, Hr.
  - destruct (sv_pending s !! r) as [[t st [hash|]]|] eqn:Hp; try done. intros [= <-]. exact (step_look s r _ Hp eq_refl).
  - destruct (sv_pending s !! r) as [[t st [hash|]]|] eqn:Hp; try done. case_bool_decide as Hv; [| done]. intros [= <-].
    exact (step_accept s r _ _ x Hp eq_refl Hv).
  - destruct (sv_pending s !! r) as [[t st [hash|]]|] eqn:Hp; try done. case_bool_decide as Hv; [| done]. intros [= <-].
    exact (step_refuse s r _ _ Hp eq_refl Hv).
  - intros [= <-]. constructor.
  - destruct (revoke_one _ _ _) eqn:Hr; [| done]. intros [= <-]. by constructor.
Qed.
Fixpoint exec_events (s : server) (evs : list session_event) : option server :=
  match evs with [] => Some s | e :: evs => match exec_event s e with Some s' => exec_events s' evs | None => None end end.
Lemma exec_run evs s s' : exec_events s evs = Some s' -> server_run s evs s'.
Proof.
  revert s. induction evs as [|e evs IH]; intros s; cbn [exec_events]; [intros [= ->]; constructor |].
  destruct (exec_event s e) eqn:He; [| done]. intros H. econstructor; [by apply exec_step | by apply IH].
Qed.

(** Signing states are told apart by their identity. *)
Definition refs_ok (s : server) : Prop :=
  (sg_ref (ss_signing (sv_sessions s)) < sv_next s)%nat /\
  forall r p, sv_pending s !! r = Some p -> (sg_ref (pd_signing p) < sv_next s)%nat /\
    (sg_ref (pd_signing p) = sg_ref (ss_signing (sv_sessions s)) -> pd_signing p = ss_signing (sv_sessions s)).
Lemma refs_preserved s e s' : server_step s e s' -> refs_ok s -> refs_ok s'.
Proof.
  intros Hs [H1 H2]. unfold refs_ok. destruct Hs as [s now H|s uid hash|s r cookie t st Hn Hb|s r p Hp Hh|s r p hash x Hp Hh Hv|s r p hash Hp Hh Hv|
    s key|s x ss Hx]; cbn.
  - done.
  - done.
  - assert (Hst : st = ss_signing (sv_sessions s)).
    { unfold verify_begin in Hb. destruct (parseToken cookie); [| done]. destruct (_ || _); [done |].
      destruct (isRevokedOrRotated _ _ _); [done |]. by injection Hb. }
    split; [done |]. intros r' p'. rewrite lookup_insert_Some. intros [[-> <-]|[Hne Hl]]; [| by eapply H2]. cbn. by subst st.
  - split; [done |]. intros r' p'. rewrite lookup_insert_Some. intros [[-> <-]|[Hne Hl]]; [| by eapply H2]. cbn. by eapply H2.
  - split; [done |]. intros r' p' [_ Hl]%lookup_delete_Some. by eapply H2.
  - split; [done |]. intros r' p' [_ Hl]%lookup_delete_Some. by eapply H2.
  - split; [lia |]. intros r p Hp. destruct (H2 r p Hp). split; lia.
  - unfold revoke_one in Hx. cbv zeta in Hx. destruct (_ <=? _); [done |]. injection Hx as <-. cbn. done.
Qed.

Lemma verify_end_accepts t st hash s x : verify_end t st hash s = Some x ->
  hash = Some (sn_hash x) /\ tk_sig t = sign st (tk_payload t) (sn_hash x) /\ ss_revoked s !! tk_id t = None /\
  sg_ref (ss_signing s) = sg_ref st /\ sn_id x = tk_id t /\ sn_user x = tk_user t /\ sn_signing x = st /\
  sn_expires x = tk_exp t * second /\ sn_remember x = tk_remember t.
Proof.
  unfold verify_end. destruct hash as [hash|]; [| done]. destruct (bool_decide_reflect (tk_sig t = sign st (tk_payload t) hash)) as [Hs|]; [| done].
  cbn [negb orb]. unfold isRevokedOrRotated. destruct (ss_revoked s !! tk_id t) eqn:Er; [done |].
  destruct (Nat.eqb_spec (sg_ref (ss_signing s)) (sg_ref st)); [| done]. intros [= <-]. done.
Qed.

Lemma run_refs s evs s' : server_run s evs s' -> refs_ok s -> refs_ok s'.
Proof. induction 1; [done |]. intros. apply IHserver_run. by eapply refs_preserved. Qed.

(** ** Where a pending request comes from *)

Lemma run_snoc s evs s' e s'' : server_run s evs s' -> server_step s' e s'' -> server_run s (evs ++ [e])%list s''.
Proof. induction 1; cbn; intros; econstructor; eauto; constructor. Qed.

(** The user's row was read for request [r], at [sl], after its arrival. *)
Definition looked_up (s0 : server) (before : list session_event) (r : nat) (evs : list session_event) (uid : Z)
    (hash : option string) : Prop :=
  exists e1 sl e2, evs = (e1 ++ Look r :: e2)%list /\ server_run s0 (before ++ e1)%list sl /\ hash = sv_hashes sl !! uid.
(** The request [r] came with [cookie] when the server was at [sa]; [evs2] happened since. *)
Definition came_with (s0 : server) (evs : list session_event) (r : nat) (cookie : string) (sa : server)
    (evs1 evs2 : list session_event) : Prop :=
  evs = (evs1 ++ Arrive r cookie :: evs2)%list /\ server_run s0 evs1 sa /\ forall c, Arrive r c ∉ evs2.
Definition origin (s0 : server) (evs : list session_event) (r : nat) (p : pending) : Prop :=
  exists cookie sa evs1 evs2, came_with s0 evs r cookie sa evs1 evs2 /\
    verify_begin (Some cookie) (sv_now sa) (sv_sessions sa) = Some (pd_token p, pd_signing p) /\
    match pd_hash p with
    | None => True
    | Some h => looked_up s0 (evs1 ++ [Arrive r cookie])%list r evs2 (tk_user (pd_token p)) h
    end.

Lemma origin_later s0 evs r p e : (forall c, e <> Arrive r c) -> origin s0 evs r p -> origin s0 (evs ++ [e])%list r p.
Proof.
  intros He (cookie & sa & evs1 & evs2 & (-> & Hrun & Hno) & Hb & Hh). exists cookie, sa, evs1, (evs2 ++ [e])%list.
  split_and!; [split_and! | done |].
  - by rewrite <- app_assoc.
  - done.
  - intros c [?|E%list_elem_of_singleton]%elem_of_app; [by eapply Hno | by apply (He c)].
  - destruct (pd_hash p); [| done]. destruct Hh as (e1 & sl & e2 & -> & Hl & Hv). exists e1, sl, (e2 ++ [e])%list.
    by rewrite <- app_assoc.
Qed.

Definition origins (s0 : server) (evs : list session_event) (s : server) : Prop :=
  server_run s0 evs s /\ forall r p, sv_pending s !! r = Some p -> origin s0 evs r p.
Lemma origins_step s0 evs s e s' : server_step s e s' -> origins s0 evs s -> origins s0 (evs ++ [e])%list s'.
Proof.
  intros Hs [Hrun Ho]. split; [by eapply run_snoc |]. intros r p Hp.
  destruct Hs as [s now H|s uid hash|s r' cookie t st Hn Hb|s r' p' Hp' Hh'|s r' p' hash x Hp' Hh' Hv|s r' p' hash Hp' Hh' Hv|s key|s x ss Hx];
    cbn in Hp; try (apply origin_later; [done | by apply Ho]).
  - apply lookup_insert_Some in Hp as [[-> <-]|[Hne Hp]].
    + exists cookie, s, evs, []. cbn. split_and!; [split_and!; [done | done | intros c Hc; inversion Hc] | done | done].
    + apply origin_later; [| by apply Ho]. intros c [= ->]. done.
  - apply lookup_insert_Some in Hp as [[-> <-]|[Hne Hp]]; [| apply origin_later; [done | by apply Ho]].
    destruct (Ho _ _ Hp') as (cookie & sa & evs1 & evs2 & (-> & Hr & Hno) & Hb & _).
    exists cookie, sa, evs1, (evs2 ++ [Look r])%list. cbn. split_and!; [split_and! | done |].
    + by rewrite <- app_assoc.
    + done.
    + intros c [?|E%list_elem_of_singleton]%elem_of_app; [by eapply Hno | done].
    + exists evs2, s, []. split_and!; [done | by rewrite <- app_assoc | done].
  - apply lookup_delete_Some in Hp as [_ Hp]. apply origin_later; [done | by apply Ho].
  - apply lookup_delete_Some in Hp as [_ Hp]. apply origin_later; [done | by apply Ho].
Qed.
Lemma origins_run s0 evs0 s evs s' : server_run s evs s' -> origins s0 evs0 s -> origins s0 (evs0 ++ evs)%list s'.
Proof.
  intros Hr. revert evs0. induction Hr as [s|s e s' evs s'' Hs Hr IH]; intros evs0 Ho; [by rewrite app_nil_r |].
  change (e :: evs) with ([e] ++ evs)%list. rewrite app_assoc. by apply IH, (origins_step _ _ s).
Qed.

Lemma verify_begin_reads cookie now s t st : verify_begin (Some cookie) now s = Some (t, st) ->
  parseToken cookie = Some t /\ now < tk_exp t * second <= now + (lifetime (tk_remember t) + minute).
Proof.
  unfold verify_begin. destruct (parseToken cookie) as [t'|]; [| done]. cbv zeta. destruct (_ || _) eqn:He; [done |].
  destruct (isRevokedOrRotated _ _ _); [done |]. intros [= <- _]. split; [done |].
  apply orb_false_iff in He as [H1%Z.leb_gt H2%Z.ltb_ge]. lia.
Qed.

(** C24: An accepted request belongs to the session its cookie names, and that session is good when
    it is accepted. The cookie the request came with parses to a token that had not expired when it
    came; and whatever logouts, revocations and password changes happened while it was being
    verified, the token's signature is the one of its payload under the signing state of the moment
    of acceptance (not one revoked meanwhile), over the password hash that the look-up of its user
    found, and its id is not a logged-out one then. The session is the token's: user, id, expiry,
    and whether it is remembered. *)
Theorem accepted_sessions_current s evs s1 r x s2 :
  refs_ok s -> sv_pending s = ∅ -> server_run s evs s1 -> server_step s1 (Accept r x) s2 ->
  exists cookie sa evs1 evs2 t, came_with s evs r cookie sa evs1 evs2 /\ parseToken cookie = Some t /\
    sv_now sa < tk_exp t * second <= sv_now sa + (lifetime (tk_remember t) + minute) /\
    looked_up s (evs1 ++ [Arrive r cookie])%list r evs2 (tk_user t) (Some (sn_hash x)) /\
    tk_sig t = sign (ss_signing (sv_sessions s1)) (tk_payload t) (sn_hash x) /\ sn_signing x = ss_signing (sv_sessions s1) /\
    ss_revoked (sv_sessions s1) !! tk_id t = None /\
    sn_id x = tk_id t /\ sn_user x = tk_user t /\ sn_expires x = tk_exp t * second /\ sn_remember x = tk_remember t.
Proof.
  intros Hok Hnone Hrun Hacc. destruct (run_refs _ _ _ Hrun Hok) as [_ Href].
  destruct (origins_run s [] s evs s1 Hrun) as [_ Ho]; [split; [constructor | by rewrite Hnone] |].
  inversion Hacc as [| | | |? ? p hash ? Hp Hh Hv| | |]; subst.
  destruct (verify_end_accepts _ _ _ _ _ Hv) as (-> & Hs & Hr & Hg & Hi & Hu & Hx & He & Hm). destruct (Href r p Hp) as [_ Heq].
  specialize (Heq (eq_sym Hg)). destruct (Ho r p Hp) as (cookie & sa & evs1 & evs2 & Hc & Hb & Hl). rewrite Hh in Hl.
  apply verify_begin_reads in Hb as [Hpt Hb]. exists cookie, sa, evs1, evs2, (pd_token p). rewrite <- Heq. destruct Hb. by split_and!.
Qed.

(** An example: a server with one user, a cookie, and the same cookie under the next key. *)
Definition sv0 : server :=
  {| sv_now := t0; sv_sessions := ss0; sv_next := 1; sv_hashes := {[ 1 := "hash" ]}; sv_pending := ∅ |}.
Definition st1 : signingState := {| sg_ref := 1; sg_key := [9]; sg_generation := 8 |}.
Definition cookie_of (st : signingState) : string := issueSessionCookie st 1 "hash" true t0 (hex_bytes id0).
Definition session_of (st : signingState) : session :=
  {| sn_user := 1; sn_expires := unix (t0 + RememberLifetime) * second; sn_remember := true; sn_id := hex_bytes id0;
     sn_signing := st; sn_hash := "hash" |}.
Definition after (s : server) (evs : list session_event) : server := match exec_events s evs with Some s' => s' | None => s end.
Lemma sv0_ok : refs_ok sv0.
Proof. split; [cbn; lia | intros r p Hp; discriminate Hp]. Qed.
Definition arrived : list session_event := [Arrive 5 (cookie_of st0); Tick (t0 + minute); Look 5].
Definition renewed : list session_event := [RevokeAll [9]; Arrive 5 (cookie_of st1); Tick (t0 + minute); Look 5].
Lemma accepted_sessions_current_witness :
  exists cookie t, Arrive 5 cookie ∈ arrived /\ parseToken cookie = Some t /\ tk_sig t = sign st0 (tk_payload t) "hash".
Proof.
  destruct (accepted_sessions_current sv0 arrived (after sv0 arrived) 5 (session_of st0) (after sv0 (arrived ++ [Accept 5 (session_of st0)])%list))
    as (cookie & sa & evs1 & evs2 & t & (Hc & _) & Hp & _ & _ & Ht & _).
  - exact sv0_ok.
  - reflexivity.
  - apply exec_run. vm_compute. reflexivity.
  - apply exec_step. vm_compute. reflexivity.
  - exists cookie, t. split_and!; [rewrite Hc; apply elem_of_app; right; left | exact Hp | exact Ht].
Defined.

(** The logged-out session is on the list, or every session was revoked. *)
Definition logged_out (ref : nat) (id : string) (until : Z) (s : server) : Prop :=
  (ref < sg_ref (ss_signing (sv_sessions s)))%nat \/
  unix (sv_now s) > until \/ exists e, ss_revoked (sv_sessions s) !! id = Some e /\ until <= e.
Lemma log_out_expiry x now s ss id : revoke_one now x s = Some ss ->
  ss_revoked ss !! id = (if decide (sn_id x = id) then Some (unix (now + (lifetime (sn_remember x) + minute)))
    else match ss_revoked s !! id with Some e => if decide (unix now <= e) then Some e else None | None => None end) /\ ss_signing ss = ss_signing s.
Proof.
  unfold revoke_one. cbv zeta. destruct (_ <=? _); [done |]. intros [= <-]. cbn. split; [| done]. destruct (decide (sn_id x = id)) as [->|Hne].
  - by rewrite lookup_insert_eq.
  - rewrite lookup_insert_ne by done. rewrite map_lookup_filter. destruct (ss_revoked s !! id); [| done]. cbn. by case_guard; destruct (decide (unix now <= z)).
Qed.
Lemma logged_out_preserved ref id until s e s' :
  refs_ok s -> server_step s e s' -> (ref <= sg_ref (ss_signing (sv_sessions s)))%nat ->
  (forall x, e = LogOut x -> sn_id x = id -> until <= unix (sv_now s + (lifetime (sn_remember x) + minute))) ->
  logged_out ref id until s -> logged_out ref id until s' /\ (ref <= sg_ref (ss_signing (sv_sessions s')))%nat.
Proof.
  intros [Hok _] Hs Href Hsame H. unfold logged_out. destruct Hs as [s now Hn|s uid hash|s r cookie t st Hn Hb|s r p Hp Hh|s r p hash x Hp Hh Hv|
    s r p hash Hp Hh Hv|s key|s x ss Hx]; cbn; try done.
  - split; [| done]. destruct H as [H|[H|H]]; [by left | | by right; right]. right. left. pose proof (unix_mono _ _ Hn). lia.
  - split; [left; lia | lia].
  - destruct (log_out_expiry _ _ _ _ id Hx) as [Hl ->]. split; [| done]. destruct H as [H|[H|(e & He & Hle)]]; [by left | by right; left |]. right.
    rewrite Hl. destruct (decide (sn_id x = id)) as [Hid|Hid]; [right; eexists; split; [done |]; by apply (Hsame x) |]. rewrite He.
    destruct (decide (unix (sv_now s) <= e)); [right; eauto | left; lia].
Qed.

(** A session keeps its flag: the cookies of an id all carry the one it was issued with. *)
Definition one_flag (id : string) (rem : bool) (evs : list session_event) : Prop :=
  forall x, LogOut x ∈ evs -> sn_id x = id -> sn_remember x = rem.
Lemma logged_out_run ref id until rem s evs s' :
  server_run s evs s' -> refs_ok s -> (ref <= sg_ref (ss_signing (sv_sessions s)))%nat -> one_flag id rem evs ->
  until <= unix (sv_now s + (lifetime rem + minute)) -> logged_out ref id until s ->
  logged_out ref id until s' /\ (ref <= sg_ref (ss_signing (sv_sessions s')))%nat.
Proof.
  induction 1 as [s|s e s' evs s'' Hs Hr IH]; [done |]. intros Hok Href Hf Hu H.
  destruct (logged_out_preserved ref id until s e s' Hok Hs Href) as [H' Href']; [| done |].
  - intros x -> Hx. by rewrite (Hf x) by (done || left).
  - apply IH; try done; [by eapply refs_preserved | intros x Hx; apply Hf; by right |].
    assert (sv_now s <= sv_now s') by (destruct Hs; cbn; lia). etrans; [exact Hu | apply unix_mono; lia].
Qed.

(** A logout holds: once a session was logged out, no request with its cookie is accepted, not even
    one whose verification had already begun, for as long as a cookie issued up to a minute after the
    logout can live, except under a signing state that replaced, for every session, the one of the logout. *)
Theorem logged_out_refused s evs s1 x s2 evs' s3 r y s4 :
  refs_ok s -> server_run s evs s1 -> server_step s1 (LogOut x) s2 -> server_run s2 evs' s3 -> server_step s3 (Accept r y) s4 ->
  sn_id y = sn_id x -> one_flag (sn_id x) (sn_remember x) evs' ->
  unix (sv_now s3) <= unix (sv_now s1 + (lifetime (sn_remember x) + minute)) ->
  (sg_ref (ss_signing (sv_sessions s1)) < sg_ref (sn_signing y))%nat /\ sn_signing y = ss_signing (sv_sessions s3).
Proof.
  intros Hok Hrun Hout Hrun' Hacc Hid Hflag Hnow. pose proof (run_refs _ _ _ Hrun Hok) as Hok1.
  pose proof (refs_preserved _ _ _ Hout Hok1) as Hok2.
  assert (Hx := Hout). inversion Hx as [| | | | | | |? ? ss Hrev]; subst. destruct (log_out_expiry _ _ _ _ (sn_id x) Hrev) as [Hl Hsig].
  rewrite decide_True in Hl by done.
  destruct (logged_out_run (sg_ref (ss_signing (sv_sessions s1))) (sn_id x) (unix (sv_now s1 + (lifetime (sn_remember x) + minute)))
    (sn_remember x) _ _ _ Hrun' Hok2) as [Hout' Hge]; [cbn; by rewrite Hsig | done | cbn; lia | right; right; cbn; eexists; by split |].
  pose proof (run_refs _ _ _ Hrun' Hok2) as [_ Href]. inversion Hacc as [| | | |? ? p hash ? Hp Hh Hv| | |]; subst.
  destruct (verify_end_accepts _ _ _ _ _ Hv) as (_ & _ & Hr & Hg & Hi & _ & Hy & _). destruct (Href r p Hp) as [_ Heq].
  specialize (Heq (eq_sym Hg)). rewrite Hy, Heq. split; [| done].
  destruct Hout' as [H|[H|(e & He & _)]]; [done | lia |]. rewrite <- Hid, Hi, Hr in He. done.
Qed.
Lemma logged_out_refused_witness :
  (0 < sg_ref st1)%nat /\ sn_signing (session_of st1) = st1.
Proof.
  apply (logged_out_refused sv0 [] sv0 (session_of st0) (after sv0 [LogOut (session_of st0)]) renewed
    (after sv0 (LogOut (session_of st0) :: renewed)) 5 (session_of st1)
    (after sv0 (LogOut (session_of st0) :: renewed ++ [Accept 5 (session_of st1)])%list)).
  - exact sv0_ok.
  - constructor.
  - apply exec_step. vm_compute. reflexivity.
  - apply exec_run. vm_compute. reflexivity.
  - apply exec_step. vm_compute. reflexivity.
  - reflexivity.
  - intros x Hx. unfold renewed in Hx. rewrite !elem_of_cons in Hx. destruct Hx as [Hx|[Hx|[Hx|[Hx|Hx]]]]; try discriminate Hx.
    apply elem_of_nil in Hx. destruct Hx.
  - vm_compute. discriminate.
Defined.
