(* ===== verification/AuthTheorems.v ===== *)
(** * Authentication: theorems

    Who is believed to be the client, which requests are served, how often a password
    may be tried, and what revoking sessions means. *)

From S2P Require Import Prelude GoStd GoNet Limiter LimiterFacts Network Session Middleware Login AuthFacts Fixtures.
Local Open Scope string_scope.
Local Open Scope Z_scope.

(** ** Addresses *)

(** Whatever is typed into the settings, a trusted proxy range consists of
    non-public addresses, or has at most 2^16 IPv4 or 2^80 IPv6 addresses. *)
Theorem trusted_proxies_narrow `{Unicode} proxies hosts :
  Forall (fun p => 0 <= px_bits p <= BitLen (px_addr p) /\ ((forall a, in_prefix p a -> non_public a) \/ narrow p))
    (nt_proxies (fst (ParseNetworkTrust proxies hosts))).
Proof. apply Forall_forall. intros p (f & _ & Hf)%trusted_entries. by eapply proxy_entry_range. Qed.

(** Forwarding headers move the client's address only when the connection comes
    from a trusted proxy, and then to an address recorded in the chain such that every
    entry to its right is a trusted proxy, and it is none or the left-most. *)
Theorem client_address_recorded r t :
  match clientIPBy r t with
  | None => peerIP r = None
  | Some ip => Some ip = peerIP r \/
      trustsProxy t (peerIP r) = true /\
      exists left c right, recorded_chain r = (left ++ c :: right)%list /\ parseHostIP c = Some ip /\
        Forall (fun h => exists hop, parseHostIP h = Some hop /\ trustsProxy t (Some hop) = true) right /\
        (trustsProxy t (Some ip) = false \/ left = [])
  end.
Proof.
  unfold clientIPBy. destruct (peerIP r) as [peer|] eqn:Ep; [| done]. rewrite bool_decide_eq_false_2 by done. cbn [orb].
  destruct (trustsProxy t (Some peer)) eqn:Ht; cbn [negb]; [| by left].
  destruct (client_walk t (Some peer) (rev (recorded_chain r))) as [ip|] eqn:Ew.
  - apply client_walk_spec in Ew as [?|(b & c & a & El & Hc & Hb & Ha)]; [by left | right]. split; [done |].
    exists (rev a), c, (rev b). split_and!; [| done | by apply Forall_rev |].
    + rewrite <- (rev_involutive (recorded_chain r)), El, rev_app_distr. cbn [rev]. by rewrite <- app_assoc.
    + destruct Ha as [Ha| ->]; [by left | by right].
  - exfalso. revert Ew. induction (rev (recorded_chain r)) as [|c l IH]; cbn [client_walk]; [done |].
    destruct (parseHostIP c) as [hop|]; [| done]. destruct (trustsProxy t (Some hop)); cbn [negb]; [| done].
    destruct l; [discriminate | apply IH].
Qed.

(** ** Requests *)

(** What makes a request authenticated. *)
Inductive credential `{Unicode} (s : service) (now : Z) (r : request) : Info -> Prop :=
| by_key : rq_query r !! "apikey" = None -> header_get r "X-Api-Key" = ac_api_key (sv_config s) ->
    ac_api_key (sv_config s) <> "" -> credential s now r (via ViaAPIKey)
| by_none : auth_method s = AuthNone -> header_get r "X-Api-Key" = "" -> privateHostsBy r (trust s) = true ->
    credential s now r (via ViaNoAuth)
| by_external : auth_method s = AuthExternal -> header_get r "X-Api-Key" = "" -> externalTrustedBy r (trust s) = None ->
    credential s now r (via ViaExternal)
| by_session x : auth_method s <> AuthNone -> header_get r "X-Api-Key" = "" ->
    verifySession (session_cookie s r) now (hash_of s) (sv_sessions s) = Some x ->
    credential s now r {| in_authenticated := true; in_via := ViaCookie; in_user := sn_user x; in_remember := sn_remember x |}
| by_local : auth_method s = AuthForms -> header_get r "X-Api-Key" = "" ->
    ac_required (sv_config s) = AuthRequiredDisabledForLocal -> isLocalRequestBy r (trust s) = true ->
    requestHostsAll r (fun h => isLocalHost h || allowsHost (trust s) h) = true -> credential s now r (via ViaLocal).

Lemma authenticate_credential `{Unicode} s now r info :
  authenticate s now r = Some info -> sv_locked s = false /\ credential s now r info.
Proof.
  unfold authenticate. destruct (sv_locked s); [done |]. unfold apiKey.
  destruct (bool_decide (is_Some (rq_query r !! "apikey"))) eqn:Hq; [done |]. apply bool_decide_eq_false, eq_None_not_Some in Hq.
  destruct (String.eqb_spec (header_get r "X-Api-Key") "") as [Hk|Hk].
  2: { destruct (String.eqb_spec (ac_api_key (sv_config s)) ""); [done |]. cbn [orb].
       destruct (String.eqb_spec (header_get r "X-Api-Key") (ac_api_key (sv_config s))); [| done].
       intros [= <-]. split; [done |]. by apply by_key. }
  intros Ha. split; [done |]. revert Ha.
  destruct (String.eqb_spec (auth_method s) AuthNone) as [Hm|Hm].
  { destruct (privateHostsBy r (trust s)) eqn:Hp; [| done]. intros [= <-]. by apply by_none. }
  destruct (String.eqb_spec (auth_method s) AuthExternal) as [He|He]; cbn [andb].
  - destruct (externalTrustedBy r (trust s)) eqn:Ht; cbn [bool_decide].
    + rewrite bool_decide_eq_false_2 by done. rewrite He. change (String.eqb AuthExternal AuthForms) with false. cbn [andb].
      destruct (verifySession _ _ _ _) as [x|] eqn:Ev; [| done]. intros [= <-]. by apply by_session.
    + rewrite bool_decide_eq_true_2 by done. intros [= <-]. by apply by_external.
  - destruct (verifySession _ _ _ _) as [x|] eqn:Ev; [intros [= <-]; by apply by_session |].
    destruct (String.eqb_spec (auth_method s) AuthForms) as [Hf|]; [| done]. cbn [andb].
    destruct (String.eqb_spec (ac_required (sv_config s)) AuthRequiredDisabledForLocal); [| done]. cbn [andb]. unfold LocalAccessAllowed.
    destruct (isLocalRequestBy r (trust s)) eqn:Hl; [| done]. cbn [andb].
    destruct (requestHostsAll r _) eqn:Hh; [| done]. intros [= <-]. by apply by_local.
Qed.

(** The origin a browser names for a request is one of the hosts it was sent to. *)
Definition same_site `{Unicode} (s : service) (r : request) : Prop :=
  exists src origin h, src <> "" /\ (src = trim_space (header_get r "Origin") \/
      trim_space (header_get r "Origin") = "" /\ src = trim_space (header_get r "Referer")) /\
    url_parse src = Some origin /\ h ∈ requestHosts s r /\ sameHostPort origin h = true.
Lemma same_origin_site `{Unicode} s r : sameOrigin s r true = true -> same_site s r.
Proof.
  unfold sameOrigin. cbn [negb]. set (o := trim_space (header_get r "Origin")). set (f := trim_space (header_get r "Referer")).
  set (src := if String.eqb o "" then f else o). destruct (String.eqb_spec src ""); [done |]. destruct (String.eqb src "null"); [done |].
  destruct (url_parse src) as [u|] eqn:Eu; [| done]. destruct (_ || _); [done |]. intros (h & Hh & Hs)%existsb_elem.
  exists src, u, h. split_and!; try done. unfold src. fold o f. destruct (String.eqb_spec o ""); [by right | by left].
Qed.

(** C22: A request to a protected path is served only while authentication is not locked
    down and for a credential: the API key in its header, a method or requirement that
    trusts it by its hosts (and address), or a verified session; and one that may
    change state only with the API key or from this server's own pages. *)
Theorem protected_requests_authenticated `{Unicode} s now r info :
  routeClassOf r = routeProtected -> middleware s now r = Serve info ->
  sv_locked s = false /\ exists i, info = Some i /\ credential s now r i /\
    (stateChanging (rq_method r) = true -> in_via i = ViaAPIKey \/ same_site s r).
Proof.
  intros Hc. unfold middleware. rewrite Hc. rewrite bool_decide_eq_false_2 by done. cbn [negb andb].
  destruct (sv_locked s) eqn:Hl; [done |]. destruct (authenticate s now r) as [i|] eqn:Ea; [| done].
  apply authenticate_credential in Ea as [_ Hcr]. destruct (stateChanging (rq_method r)) eqn:Hst; cbn [andb].
  - destruct (String.eqb_spec (in_via i) ViaAPIKey) as [Hv|Hv]; cbn [negb andb].
    + intros [= <-]. split; [done |]. exists i. by auto.
    + destruct (sameOrigin s r true) eqn:Ho; [| done]. intros [= <-]. split; [done |]. exists i.
      split_and!; [done | done |]. right. by apply same_origin_site.
  - intros [= <-]. split; [done |]. exists i. by split_and!.
Qed.
Lemma protected_requests_authenticated_witness : sv_locked fx_service = false /\ exists i,
  Some (via ViaAPIKey) = Some i /\ credential fx_service 0 (fx_get "DELETE" "203.0.113.9:4000" "media.example.com" "/api/v1/groups" "0123456789abcdef") i /\
  (stateChanging "DELETE" = true -> in_via i = ViaAPIKey \/
    same_site fx_service (fx_get "DELETE" "203.0.113.9:4000" "media.example.com" "/api/v1/groups" "0123456789abcdef")).
Proof.
  apply (protected_requests_authenticated fx_service 0
    (fx_get "DELETE" "203.0.113.9:4000" "media.example.com" "/api/v1/groups" "0123456789abcdef") (Some (via ViaAPIKey))); vm_compute; reflexivity.
Defined.

(** C23: A page that makes a name it owns resolve to this server gets nothing: a request
    that names the server by a public host name that is not allowed is only served a
    protected path for the API key, a session, or as relayed by a trusted proxy. *)
Theorem rebinding_refused `{Unicode} s now r i h :
  routeClassOf r = routeProtected -> middleware s now r = Serve (Some i) ->
  (h = rq_host r \/ h ∈ flat_map comma_list (header_values r "X-Forwarded-Host")) ->
  IsPrivateHost h = false -> allowsHost (trust s) h = false ->
  in_via i = ViaAPIKey \/ in_via i = ViaCookie \/ (in_via i = ViaExternal /\ trustsProxy (trust s) (peerIP r) = true).
Proof.
  intros Hc Hm Hh Hp Ha.
  assert (Hcr : credential s now r i).
  { revert Hm. unfold middleware. rewrite Hc. destruct (_ && sv_locked s); [done |].
    destruct (authenticate s now r) as [j|] eqn:Ea; [| done]. apply authenticate_credential in Ea as [_ Hcr].
    destruct (_ && _); [done |]. by intros [= <-]. }
  assert (Hno : forall ok, ok h = false -> requestHostsAll r ok = false).
  { intros ok Hok. apply not_true_is_false. intros [H1 H2]%hosts_all. destruct Hh as [->|Hh]; [congruence |].
    rewrite H2 in Hok by done. done. }
  destruct Hcr as [| |Hme Hk Hext| |]; [by left | exfalso | | right; by left | exfalso].
  - match goal with H : privateHostsBy _ _ = true |- _ => unfold privateHostsBy in H; rewrite Hno in H; [done | by rewrite Hp, Ha] end.
  - unfold externalTrustedBy in Hext. destruct (Configured (trust s)) eqn:Hcf; cbn [negb] in Hext.
    + destruct (bool_decide (nt_proxies (trust s) = [])) eqn:Hpx; cbn [negb andb] in Hext.
      * unfold Configured in Hcf. rewrite Hpx in Hcf. cbn in Hcf. rewrite Hcf in Hext. cbn [andb] in Hext.
        rewrite Hno in Hext by done. done.
      * destruct (trustsProxy (trust s) (peerIP r)) eqn:Ht; [| done]. right. right. by split.
    + unfold privateHostsBy in Hext. rewrite Hno in Hext; [done | by rewrite Hp, Ha].
  - match goal with H : requestHostsAll _ _ = true |- _ => rewrite Hno in H; [done |] end.
    unfold isLocalHost. by rewrite Hp, Ha.
Qed.
Lemma rebinding_refused_witness :
  let i := via ViaAPIKey in in_via i = ViaAPIKey \/ in_via i = ViaCookie \/
    (in_via i = ViaExternal /\ trustsProxy (trust fx_service) (ParseIP "127.0.0.1") = true).
Proof.
  apply (rebinding_refused fx_service 0 (fx_get "GET" "127.0.0.1:4000" "evil.example.org" "/api/v1/groups" "0123456789abcdef") (via ViaAPIKey)
    "evil.example.org"); [vm_compute; reflexivity | vm_compute; reflexivity | left; reflexivity | vm_compute; reflexivity | vm_compute; reflexivity].
Defined.

(** Escaping cannot move a request to a public path: when the segments the router
    matches start with "api" or "backup", the request is not public, unless it is the
    public status route itself. *)
Theorem escaped_paths_guarded r segs first :
  split_byte "/" (rq_escaped r) = "" :: segs -> Forall proper segs ->
  List.filter non_empty (map routed_segment segs) <> [first] ->
  head (List.filter non_empty (map routed_segment segs)) = Some first -> first ∈ ["api"; "backup"] ->
  routeClassOf r <> routePublic \/
  "/" +:+ join "/" (List.filter non_empty (map routed_segment segs)) = "/api/v1/auth/status".
Proof.
  intros Hs Hp Hn Hh Hf.
  assert (Hpr : forall x, proper x -> proper (routed_segment x)).
  { intros x [H1 H2]. unfold routed_segment. destruct (PathUnescape x) as [u|]; [| done].
    destruct (contains u "/"); cbn [orb]; [done |]. destruct (String.eqb_spec u x) as [->|]; cbn [negb andb]; [done |].
    destruct (String.eqb_spec u "."), (String.eqb_spec u ".."); by cbn. }
  assert (Hfree : forall x, x ∈ map routed_segment segs -> index_byte x "/" = None).
  { intros x (y & -> & Hy)%list_elem_of_fmap. apply routed_segment_free. eapply (split_byte_free "/" (rq_escaped r) ""); [done |].
    unfold split_byte in Hs. rewrite Hs. by right. }
  assert (Hpr' : Forall proper (map routed_segment segs)) by (apply Forall_map; eapply Forall_impl; eauto).
  assert (Hsn : map routed_segment segs <> []) by (intros E; by rewrite E in Hh).
  assert (Hj : routedPath (rq_escaped r) = "/" +:+ join "/" (map routed_segment segs)).
  { rewrite routed_join, Hs. cbn [map]. change (routed_segment "") with "". by rewrite join_cons_sep. }
  destruct (List.filter non_empty (map routed_segment segs)) as [|f rest] eqn:Efil; [done |]. injection Hh as ->.
  assert (Hr : rest <> []) by congruence.
  assert (Hclean : path_clean (routedPath (rq_escaped r)) = "/" +:+ join "/" (first :: rest)).
  { by rewrite Hj, path_clean_proper, Efil. }
  destruct (api_path_guarded (join "/" (map routed_segment segs)) first rest Hf Hr) as [Hg|Hg]; [by rewrite <- Hj | left | by right].
  rewrite <- Hj in Hg. unfold routeClassOf. destruct (Nat.ltb_spec (rank_of (classify (rq_path r))) (rank_of (classify (routedPath (rq_escaped r))))) as [|Hle].
  - done.
  - intros E. rewrite E in Hle. by destruct (classify (routedPath (rq_escaped r))); cbn in Hle; try lia.
Qed.
Lemma escaped_paths_guarded_witness :
  let r := {| rq_method := "GET"; rq_remote := ""; rq_host := ""; rq_header := ∅; rq_path := "/ap%69/v1/groups"; rq_escaped := "/ap%69/v1//groups";
              rq_query := ∅; rq_tls := false; rq_cookies := [] |} in
  routeClassOf r <> routePublic \/ "/api/v1/groups" = "/api/v1/auth/status".
Proof.
  apply (escaped_paths_guarded {| rq_method := "GET"; rq_remote := ""; rq_host := ""; rq_header := ∅; rq_path := "/ap%69/v1/groups";
    rq_escaped := "/ap%69/v1//groups"; rq_query := ∅; rq_tls := false; rq_cookies := [] |} ["ap%69"; "v1"; ""; "groups"] "api").
  - vm_compute. reflexivity.
  - repeat constructor; intros H; vm_compute in H; discriminate H.
  - vm_compute. discriminate.
  - vm_compute. reflexivity.
  - left.
Defined.
