(* ===== verification/LoginTheorems.v ===== *)
(** * Signing in and the first account: theorems *)

From S2P Require Import Prelude GoStd GoNet Limiter LimiterFacts Network Session Middleware Login AuthFacts Fixtures.
Local Open Scope string_scope.
Local Open Scope Z_scope.

(** ** Guessing a password *)

Record login_call := { lc_env : login_env; lc_request : request; lc_name : string; lc_password : string; lc_remember : bool }.

Lemma begin_wait key now order l : 0 <= fst (begin_attempt key now order l).
Proof.
  unfold begin_attempt. destruct (match lm_entries l !! key with Some e => _ | None => _ end) as [e m]. cbv zeta.
  destruct (bool_decide (is_Some e)); cbn [andb fst]; [| done]. match goal with |- context [now <? ?u] => destruct (Z.ltb_spec now u) end; cbn [fst]; lia.
Qed.
Lemma begin_grows key now order l : key_count (lm_entries l) < maxLimiterKeys ->
  key_count (lm_entries (snd (begin_attempt key now order l))) <= key_count (lm_entries l) + 1.
Proof.
  intros Hn. unfold begin_attempt.
  assert (Hm : key_count (snd (match lm_entries l !! key with
      | Some e => if forgetAfter <? now - at_last e then (None, delete key (lm_entries l)) else (Some e, lm_entries l)
      | None => (None, lm_entries l) end)) <= key_count (lm_entries l)).
  { destruct (lm_entries l !! key); [| done]. destruct (_ <? _); [apply size_delete_le | done]. }
  destruct (match lm_entries l !! key with Some e => _ | None => _ end) as [e m]. cbv zeta. cbn [snd] in Hm.
  destruct (bool_decide (is_Some e) && _); cbn [snd]; [cbn; lia |].
  rewrite (proj2 (Z.leb_gt maxLimiterKeys (key_count m))), andb_false_r by lia. cbn.
  unfold key_count in *. destruct (m !! key) eqn:Em.
  - rewrite map_size_insert_Some by eauto. lia.
  - rewrite map_size_insert_None by done. lia.
Qed.
Lemma op_grows l op : key_count (lm_entries l) < maxLimiterKeys ->
  key_count (lm_entries (limiter_step l op)) <= key_count (lm_entries l) + match op with Begin _ _ _ => 1 | _ => 0 end.
Proof.
  intros Hn. destruct op as [k now order|k|k]; cbn; [by apply begin_grows | |].
  - unfold abort. destruct (lm_entries l !! k) eqn:E; [| lia]. cbn. destruct (_ <=? 0).
    + pose proof (size_delete_le (lm_entries l) k). lia.
    + rewrite update_count by eauto. lia.
  - pose proof (size_delete_le (lm_entries l) k). lia.
Qed.

Section guessing.
Context `{Unicode} `{Bcrypt}.

Definition call (c : login_call) (s : service) : login_result * service :=
  Login (lc_env c) (lc_request c) (lc_name c) (lc_password c) (lc_remember c) s.
(** The key a call is counted under by user name, empty for none. *)
Definition call_key (c : login_call) (s : service) : string :=
  let username := trim_space (lc_name c) in
  at_user_key (attempt_keys s (lc_request c) (if wellFormedCredentials username (lc_password c) then username else "") (le_now (lc_env c))).
Definition refused (r : login_result) : bool :=
  match r with ErrInvalidCredentials | ErrThrottled _ | ErrLockedDown => true | _ => false end.
Definition guessed (r : login_result) : bool := match r with ErrInvalidCredentials => true | _ => false end.

(** The passwords compared, or that could not match, under a key; and that no call under it
    did anything else than fail. *)
Fixpoint guesses (key : string) (s : service) (calls : list login_call) : nat :=
  match calls with
  | [] => 0
  | c :: calls =>
    let '(r, s') := call c s in
    ((if guessed r && String.eqb (call_key c s) key then 1 else 0) + guesses key s' calls)%nat
  end.
Fixpoint all_refused (key : string) (s : service) (calls : list login_call) : Prop :=
  match calls with
  | [] => True
  | c :: calls =>
    let '(r, s') := call c s in (call_key c s = key -> refused r = true) /\ all_refused key s' calls
  end.

Definition call_ops (c : login_call) (s : service) (ops : list limiter_op) : Prop :=
  let k := call_key c s in
  let begin := Begin k (le_now (lc_env c)) (snd (le_orders (lc_env c))) in
  ops = [] /\ (guessed (fst (call c s)) = true -> k = "") \/
  k <> "" /\ (ops = [begin] /\ (guessed (fst (call c s)) = true ->
      fst (begin_attempt k (le_now (lc_env c)) (snd (le_orders (lc_env c))) (sv_user_limiter s)) = 0) \/
    (ops = [begin; Abort k] \/ ops = [begin; Reset k]) /\ refused (fst (call c s)) = false).
Lemma check_outcome e name pw rem wf a s : let '(r, s') := check_credentials e name pw rem wf a s in
  refused r = true /\ s' = s \/ refused r = false /\ (s' = abort_attempt a s \/ s' = succeed a s).
Proof.
  unfold check_credentials. destruct (wf && le_read_fails e); [right; by auto |].
  destruct (match _ with Some _ => _ | None => _ end) eqn:Hb; [right; by auto |].
  destruct (if wf then GetByUsername s name else None) as [u|]; [| by left].
  destruct (CheckPassword (us_hash u) pw); [right; by auto | by left].
Qed.
Lemma call_user_limiter c s : exists ops, sv_user_limiter (snd (call c s)) = foldl limiter_step (sv_user_limiter s) ops /\ call_ops c s ops.
Proof.
  unfold call_ops. unfold call, call_key, Login. set (name := trim_space (lc_name c)). set (wf := wellFormedCredentials name (lc_password c)).
  set (e := lc_env c). destruct (sv_locked s); [exists []; split; [done | by left] |]. unfold startAttempt.
  set (a := attempt_keys s (lc_request c) (if wf then name else "") (le_now e)).
  destruct (begin_attempt (at_addr_key a) (le_now e) (fst (le_orders e)) (sv_limiter s)) as [wait l].
  destruct (0 <? wait); [exists []; split; [done | by left] |].
  destruct (String.eqb_spec (at_user_key a) "") as [Hk|Hk].
  - pose proof (check_outcome e name (lc_password c) (lc_remember c) wf a (with_limiters l (sv_user_limiter s) s)) as Ho.
    destruct (check_credentials _ _ _ _ _ _ _) as [r s']. exists []. split; [| left; by split].
    destruct Ho as [[_ ->]|[_ [->| ->]]]; cbn; by rewrite ?Hk.
  - destruct (begin_attempt (at_user_key a) (le_now e) (snd (le_orders e)) (sv_user_limiter s)) as [wait' ul] eqn:Eb.
    destruct (Z.ltb_spec 0 wait') as [Hw|Hw].
    { exists [Begin (at_user_key a) (le_now e) (snd (le_orders e))]. cbn. rewrite Eb. split; [done |]. right. split; [done |]. by left. }
    pose proof (check_outcome e name (lc_password c) (lc_remember c) wf a (with_limiters l ul s)) as Ho.
    destruct (check_credentials _ _ _ _ _ _ _) as [r s']. cbn [fst snd].
    assert (Hul : ul = limiter_step (sv_user_limiter s) (Begin (at_user_key a) (le_now e) (snd (le_orders e)))) by (cbn; by rewrite Eb).
    destruct Ho as [[Hr ->]|[Hr [->| ->]]].
    + exists [Begin (at_user_key a) (le_now e) (snd (le_orders e))]. split; [done |]. right. split; [done |]. left. split; [done |]. intros _.
      pose proof (begin_wait (at_user_key a) (le_now e) (snd (le_orders e)) (sv_user_limiter s)) as Hp. rewrite Eb in *. cbn in *. lia.
    + eexists [_; Abort (at_user_key a)]. split; [| right; split; [done | right; split; [by left | done]]].
      cbn [abort_attempt with_limiters sv_user_limiter foldl limiter_step]. rewrite (proj2 (String.eqb_neq _ _) Hk), Eb. done.
    + eexists [_; Reset (at_user_key a)]. split; [| right; split; [done | right; split; [by right | done]]].
      cbn [succeed with_limiters sv_user_limiter foldl limiter_step]. rewrite (proj2 (String.eqb_neq _ _) Hk), Eb. done.
Qed.

Lemma accepted_app key l a b : accepted key l (a ++ b) = (accepted key l a ++ accepted key (foldl limiter_step l a) b)%list.
Proof.
  revert l. induction a as [|op a IH]; intros l; [done |]. cbn [app accepted foldl]. rewrite IH. destruct op; [| done..]. by destruct (_ && _).
Qed.
Lemma guessing_app key l a b : guessing key l a -> guessing key (foldl limiter_step l a) b -> guessing key l (a ++ b).
Proof. revert l. induction a as [|op a IH]; intros l; [done |]. intros (H1 & H2 & H3) Hb. cbn. split_and!; [done | done | by apply IH]. Qed.

(** The operations of a call: none, or one attempt that fails, or (not under the key) one that is settled. *)
Lemma call_ops_guessing key c s ops : call_ops c s ops -> (call_key c s = key -> refused (fst (call c s)) = true) ->
  key_count (lm_entries (sv_user_limiter s)) + 1 < maxLimiterKeys -> key <> "" ->
  guessing key (sv_user_limiter s) ops /\
  key_count (lm_entries (foldl limiter_step (sv_user_limiter s) ops)) <= key_count (lm_entries (sv_user_limiter s)) + 1 /\
  ((if guessed (fst (call c s)) && String.eqb (call_key c s) key then 1 else 0) <= length (accepted key (sv_user_limiter s) ops))%nat /\
  sublist (accepted key (sv_user_limiter s) ops) [le_now (lc_env c)].
Proof.
  intros Hops Href Hn Hkey. unfold call_ops in Hops. set (l := sv_user_limiter s) in *. set (k := call_key c s) in *.
  set (now := le_now (lc_env c)) in *. set (order := snd (le_orders (lc_env c))) in *.
  assert (Hg := op_grows l (Begin k now order) ltac:(lia)). cbn iota beta in Hg.
  assert (Hsub : forall tail, Forall (fun op => match op with Begin _ _ _ => False | _ => True end) tail ->
    accepted key l (Begin k now order :: tail) =
    if String.eqb k key && (fst (begin_attempt k now order l) =? 0) then [now] else []).
  { intros tail Ht. cbn [accepted]. assert (forall l', accepted key l' tail = []) as ->.
    { clear -Ht. induction Ht as [|op tail Hop Ht IH]; intros l'; [done |]. cbn. destruct op; [done | by rewrite IH..]. }
    done. }
  assert (Hone : forall b : bool, sublist (if b then [now] else []) [now]) by (intros []; [done | apply sublist_nil_l]).
  destruct Hops as [[-> Hgu]|(Hk & [[-> Hgu]|[Hops Hr]])].
  - split_and!; [done | cbn; lia | | apply sublist_nil_l]. destruct (guessed _); [| cbn; lia]. rewrite (Hgu eq_refl).
    destruct (String.eqb_spec "" key); [by subst | cbn; lia].
  - rewrite Hsub by constructor. split_and!; [cbn; split_and!; [done | lia | done] | exact Hg | | apply Hone].
    destruct (guessed _); [| destruct (_ && _); cbn; lia]. rewrite (Hgu eq_refl). cbn [andb]. destruct (String.eqb k key); cbn; lia.
  - assert (Hne : k <> key) by (intros E; rewrite (Href E) in Hr; done).
    assert (Hng : guessed (fst (call c s)) = false) by (by destruct (fst (call c s))). rewrite Hng.
    destruct Hops as [-> | ->]; (rewrite Hsub by (repeat constructor)); (split_and!; [| | cbn; lia | apply Hone]).
    + cbn. split_and!; [done | lia | done | cbn in Hg; lia | done].
    + pose proof (op_grows (limiter_step l (Begin k now order)) (Abort k) ltac:(lia)) as Ho. cbn iota beta in Ho. cbn [foldl]. lia.
    + cbn. split_and!; [done | lia | done | cbn in Hg; lia | done].
    + pose proof (op_grows (limiter_step l (Begin k now order)) (Reset k) ltac:(lia)) as Ho. cbn iota beta in Ho. cbn [foldl]. lia.
Qed.
Definition call_time (c : login_call) : Z := le_now (lc_env c).
Lemma calls_history key calls s : all_refused key s calls -> key <> "" ->
  key_count (lm_entries (sv_user_limiter s)) + Z.of_nat (length calls) < maxLimiterKeys ->
  exists ops, guessing key (sv_user_limiter s) ops /\ (guesses key s calls <= length (accepted key (sv_user_limiter s) ops))%nat /\
    sublist (accepted key (sv_user_limiter s) ops) (map call_time calls).
Proof.
  revert s. induction calls as [|c calls IH]; intros s Hr Hkey Hn; [exists []; split_and!; [done | done | apply sublist_nil_l] |].
  destruct (call_user_limiter c s) as (ops & Hl & Hops). cbn [all_refused guesses] in *. destruct (call c s) as [r s'] eqn:Ec. destruct Hr as [Hr Hrest].
  cbn [length] in Hn. destruct (call_ops_guessing key c s ops Hops) as (Hg & Hc & Hcount & Hsub); [by rewrite Ec | lia | done |].
  rewrite Ec in Hcount.  cbn [fst snd] in Hcount, Hl. rewrite <- Hl in Hc.
  destruct (IH s' Hrest Hkey ltac:(lia)) as (ops' & Hg' & Hcount' & Hsub'). rewrite Hl in *. exists (ops ++ ops')%list.
  rewrite accepted_app, length_app. split_and!; [by apply guessing_app | lia |]. cbn [map].
  change (call_time c :: map call_time calls) with ([call_time c] ++ map call_time calls)%list. by apply sublist_app.
Qed.
End guessing.

(** C26: A password cannot be guessed by trying: whatever addresses the attempts come from, at most 29
    wrong passwords that are counted under one user name's key are looked at within an hour, provided
    that no attempt under that key signs in or is taken back in that time (a success clears the key, an
    aborted attempt is not counted), that the calls are in the order of their times, and that the keys in
    the limiter's table plus the calls stay below its 10000. Attempts that carry a device cookie of the
    name are not among them: they are counted under the cookie's own key, in the limiter of addresses, so
    that more wrong passwords of one name are possible from devices that signed in before. *)
Theorem hourly_guesses `{Unicode} `{Bcrypt} s calls name from :
  lm_policy (sv_user_limiter s) = userPolicy ->
  (forall k e, lm_entries (sv_user_limiter s) !! k = Some e -> 0 <= at_failures e) ->
  key_count (lm_entries (sv_user_limiter s)) + Z.of_nat (length calls) < maxLimiterKeys ->
  Sorted Z.le (map call_time calls) -> Forall (fun t => from <= t <= from + forgetAfter) (map call_time calls) ->
  all_refused (userLimiterKey name) s calls -> (guesses (userLimiterKey name) s calls <= 29)%nat.
Proof.
  intros Hp He Hn Hs Hw Hr. destruct (calls_history (userLimiterKey name) calls s Hr) as (ops & Hg & Hc & Hsub); [done | done |].
  etrans; [exact Hc |]. destruct policies_ok as [_ Hok].
  apply (window_bound (userLimiterKey name) userPolicy Hok ltac:(done) (sv_user_limiter s) ops 29 from); try done.
  - apply StronglySorted_Sorted. eapply sublist_sorted; [exact Hsub |]. by apply Sorted_StronglySorted; [intros ???; lia |].
  - eapply Forall_forall; intros t Ht; eapply Forall_forall in Hw; [exact Hw |]; by eapply elem_of_sublist.
  - intros e. apply He.
Qed.
Definition fx_call (seconds : Z) (name password : string) : login_call :=
  let '(e, r, name, password) := fx_login seconds name password in
  {| lc_env := e; lc_request := r; lc_name := name; lc_password := password; lc_remember := false |}.
Definition fx_calls : list login_call := [fx_call 0 "admin" "first guess"; fx_call 0 "Admin" "second guess"; fx_call 30 " admin" "third guess"].
Lemma hourly_guesses_witness :
  guesses (userLimiterKey "admin") fx_service fx_calls = 3%nat /\ (guesses (userLimiterKey "admin") fx_service fx_calls <= 29)%nat.
Proof.
  split; [vm_compute; reflexivity |].
  apply (hourly_guesses fx_service fx_calls "admin" (1700000000 * second)).
  - reflexivity.
  - intros k e Hk. discriminate Hk.
  - vm_compute. reflexivity.
  - repeat constructor; vm_compute; discriminate.
  - repeat constructor; vm_compute; discriminate.
  - vm_compute. repeat split.
Defined.

(** ** The first account *)

Section setup.
Context `{Unicode} `{Bcrypt}.
Lemma setup_outcome method required username password salt fresh saved s :
  let '(res, s') := Setup method required username password salt fresh saved s in
  (res = SetupDone \/ res = ErrSetupFailed) /\ SetupRequired s = true /\ sv_locked s = false /\ ValidateCredentials username password = [] /\
    (s' = s \/ exists u, sv_users s' = [u] /\ us_id u = fresh /\ us_name u = trim_space username /\ bcrypt_generate password salt = Some (us_hash u)) /\
    (res = SetupDone -> sv_users s' <> [] /\ sv_setup_code s' = "") \/
  s' = s /\ res <> SetupDone.
Proof.
  unfold Setup. destruct (sv_locked s) eqn:Hl; [by right |]. destruct (SetupRequired s) eqn:Hr; [| by right]. cbn [negb]. cbv zeta.
  match goal with |- context [match ?e with [] => _ | _ :: _ => _ end] => destruct e as [|x l] eqn:He end.
  2: { destruct (chosen_requirement s required); by right. }
  apply app_eq_nil in He as [_ He]. apply app_eq_nil in He as [_ Hv].
  destruct (chosen_requirement s required) as [req|]; [| by right]. destruct (HashPassword password salt) as [hash|] eqn:Hh; [| by right].
  assert (Hu : sv_users s = []). { unfold SetupRequired in Hr. apply andb_true_iff in Hr as [_ Hr]. by apply bool_decide_eq_true in Hr. }
  rewrite Hu. unfold upsert_user. destruct (String.eqb_spec (trim_space username) ""); [by right |]. cbn [orb].
  destruct (String.eqb_spec hash ""); [by right |].
  assert (Hgen : bcrypt_generate password salt = Some hash) by (unfold HashPassword in Hh; by destruct (_ || _)).
  destruct saved; cbn [negb]; left; (split_and!; [by auto | done | done | done | | ]).
  - right. eexists. split_and!; [cbn; reflexivity | done | done | done].
  - intros _. cbn. by split.
  - right. eexists. split_and!; [cbn; reflexivity | done | done | done].
  - discriminate.
Qed.
End setup.

(** C27: The first account goes to who started the server: setup over the network changes the users only
    while there are none, authentication is by forms and not locked down, for a local request that names
    the setup code shown in the log and credentials that are well formed; and it is closed once done. *)
Theorem first_account_guarded `{Unicode} `{Bcrypt} r code fresh_code method required username password confirmation salt fresh saved s res s' :
  handleAuthSetup r code fresh_code method required username password confirmation salt fresh saved s = (res, s') ->
  sv_users s' <> sv_users s \/ res = inr SetupDone ->
  sv_locked s = false /\ auth_method s = AuthForms /\ sv_users s = [] /\ LocalAccessAllowed r (trust s) = true /\
  sv_setup_code s <> "" /\ normalizeSetupCode code = normalizeSetupCode (sv_setup_code s) /\ password = confirmation /\
  ValidateCredentials username password = [] /\
  (exists u, sv_users s' = [u] /\ us_name u = trim_space username /\ bcrypt_generate password salt = Some (us_hash u)) /\
  SetupRequired s' = false.
Proof.
  unfold handleAuthSetup. destruct (SetupRequired s) eqn:Hr; cbn [negb]; [| intros [= <- <-] [?|?]; done].
  destruct (LocalAccessAllowed r (trust s)) eqn:Hl; cbn [negb]; [| intros [= <- <-] [?|?]; done].
  unfold CheckSetupCode. destruct (String.eqb_spec (sv_setup_code s) "") as [Hc|Hc].
  { rewrite Hr. cbn [negb]. intros [= <- <-] [?|?]; done. }
  destruct (String.eqb_spec (normalizeSetupCode code) (normalizeSetupCode (sv_setup_code s))) as [Hn|]; cbn [negb]; [| intros [= <- <-] [?|?]; done].
  destruct (String.eqb_spec password confirmation) as [Hp|]; cbn [negb]; [| intros [= <- <-] [?|?]; done].
  pose proof (setup_outcome method required username password salt fresh saved s) as Ho.
  destruct (Setup _ _ _ _ _ _ _ _) as [res0 s0]. intros [= <- <-] Hch.
  assert (Hru := Hr). unfold SetupRequired in Hru. apply andb_true_iff in Hru as [Hm%String.eqb_eq Hu%bool_decide_eq_true].
  destruct Ho as [(_ & _ & Hlock & Hv & Hs & Hd)|[-> Hne]]; [| destruct Hch as [?|[=]]; done].
  assert (Hx : exists u, sv_users s0 = [u] /\ us_name u = trim_space username /\ bcrypt_generate password salt = Some (us_hash u)).
  { destruct Hs as [->|(u & ? & ? & ? & ?)]; [| by exists u]. destruct Hch as [?|[= ->]]; [done |]. destruct (Hd eq_refl). done. }
  split_and!; try done. destruct Hx as (u & Hx & _). unfold SetupRequired. rewrite Hx. rewrite bool_decide_eq_false_2 by done. by rewrite andb_false_r.
Qed.
Definition fx_setup : service := fx_auth "Forms" "Enabled" [] "ABCD-EFGH".
Definition fx_first : (Z + setup_result) * service :=
  handleAuthSetup (fx_get "POST" "192.168.1.5:4000" "192.168.1.2:8787" "/api/v1/auth/setup" "") "abcd efgh" "" "Forms" "" "admin"
    "correct horse" "correct horse" "salt" 1 true fx_setup.
Lemma first_account_guarded_witness : SetupRequired (snd fx_first) = false.
Proof.
  apply (first_account_guarded (fx_get "POST" "192.168.1.5:4000" "192.168.1.2:8787" "/api/v1/auth/setup" "") "abcd efgh" "" "Forms" "" "admin"
    "correct horse" "correct horse" "salt" 1 true fx_setup (inr SetupDone) (snd fx_first)).
  - vm_compute. reflexivity.
  - right. reflexivity.
Defined.
