(* ===== verification/MethodTheorems.v ===== *)
(** * What may be removed and restored: theorems

    Every plan stays inside the mapped folders and the libraries of its own server, the
    recycle bin is apart from everything it could swallow, the methods are tried in the
    configured order under their rules, a restore is as confined as a removal, and only
    expired folders of the bin are emptied. *)

From S2P Require Import Prelude GoStd Models DiscPaths Paths Pathmap PathmapTheorems Store StoreFacts StoreTheorems ExecModel ExecWorld ExecVerify ExecAssess ExecRun ExecFacts ExecInv ExecVerifyFacts ExecTheorems FileSys Recycle RecycleFacts RecycleTheorems ExecMethods Fixtures.
Local Open Scope string_scope.
Local Open Scope Z_scope.

(** ** Absolute paths *)

(** The absolute path with the given elements. *)
Definition abs (l : list string) : string := "/" +:+ join "/" l.

Lemma clean_abs p : is_abs p = true -> exists l, Forall comp_ok l /\ path_clean p = abs l.
Proof. intros [t ->]%has_prefix_slash. exists (rcomps t). split; [apply rcomps_ok | exact (clean_rooted t)]. Qed.
Lemma abs_inj a b : Forall comp_ok a -> Forall comp_ok b -> abs a = abs b -> a = b.
Proof. intros Ha Hb E. apply join_inj; [done | done |]. by injection E. Qed.
Lemma split_abs a : a <> [] -> Forall comp_ok a -> split_byte_from slash "" (abs a) = "" :: a.
Proof. intros Hne Ha. unfold abs. change ("/" +:+ join "/" a) with (String slash (join "/" a)). cbn -[join]. by rewrite split_comps. Qed.
Lemma elements_abs a : Forall comp_ok a -> path_elements (abs a) = "" :: a.
Proof.
  intros Ha. unfold path_elements. destruct a as [|x a]; [done |]. rewrite (proj2 (String.eqb_neq (abs (x :: a)) "/")); [by apply split_abs |].
  intros E. apply (abs_inj (x :: a) []) in E; done.
Qed.

Lemma prefix_of_app a b : has_prefix (a +:+ b) a = true.
Proof. unfold has_prefix. induction a as [|c a IH]; [by destruct b |]. rewrite str_app_cons. cbn -[ascii_dec]. by destruct (ascii_dec c c). Qed.
Lemma prefix_inv s p : has_prefix s p = true -> exists t, s = p +:+ t.
Proof.
  unfold has_prefix. revert s. induction p as [|c p IH]; intros s; [by exists s |]. destruct s as [|d s]; [done |]. cbn -[ascii_dec].
  destruct (ascii_dec c d) as [<-|]; [| done]. intros [t ->]%IH. by exists t.
Qed.

Lemma within_abs a b : Forall comp_ok a -> Forall comp_ok b ->
  withinSlash (abs a) (abs b) = true <-> exists r, r <> [] /\ a = (b ++ r)%list.
Proof.
  intros Ha Hb. unfold withinSlash. change (String.eqb (abs b) "") with false. cbn [orb].
  destruct (String.eqb_spec (abs a) (abs b)) as [E|Hne].
  { apply abs_inj in E as ->; [| done | done]. split; [done |]. intros (r & Hr & E). destruct Hr. apply (app_inv_head b). by rewrite app_nil_r. }
  destruct b as [|y b].
  - change (has_suffix (abs []) "/") with true. cbv beta iota. split; [intros _; exists a; split; [by intros -> | done] | intros _; apply prefix_of_app].
  - assert (Hns : has_suffix (abs (y :: b)) "/" = false) by by apply no_suffix_slash. rewrite Hns. split.
    + intros [t Ht]%prefix_inv. assert (Hane : a <> []) by (intros ->; apply (f_equal String.length) in Ht; unfold abs in Ht; rewrite !str_length_app in Ht; cbn [String.length join] in Ht; lia).
      pose proof (split_abs a Hane Ha) as Hs. rewrite Ht, str_app_assoc in Hs. change ("/" +:+ t) with (String slash t) in Hs.
      rewrite split_byte_from_app in Hs. fold (abs (y :: b)) in Hs. rewrite split_abs in Hs by done. injection Hs as Hs.
      exists (split_byte_from slash "" t). split; [apply split_not_nil | by rewrite <- Hs].
    + intros (r & Hr & ->). unfold abs. rewrite join_app by done. rewrite <- !str_app_assoc. apply prefix_of_app.
Qed.

Lemma drop_common_prefix a b : drop_common a (a ++ b) = ([], b).
Proof. induction a as [|x a IH]; [by destruct b |]. cbn [app drop_common]. by rewrite String.eqb_refl, IH. Qed.

Lemma clean_steps_rel l out : Forall comp_ok l -> foldl (clean_step false) out l = (rev l ++ out)%list.
Proof.
  revert out. induction l as [|x l IH]; intros out Hl; simpl; [done |]. inversion Hl as [|? ? [H1 H2 H3 _] Hl']; subst.
  rewrite IH by done. unfold clean_step. rewrite (proj2 (String.eqb_neq x "") H1), (proj2 (String.eqb_neq x ".") H2),
    (proj2 (String.eqb_neq x "..") H3). cbn. by rewrite <- app_assoc.
Qed.
Lemma clean_rel l : l <> [] -> Forall comp_ok l -> path_clean (join "/" l) = join "/" l.
Proof.
  intros Hne Hl. destruct (join_head l Hne Hl) as (c & t & Hj & Hc). unfold path_clean. rewrite (proj2 (String.eqb_neq _ _) (join_not_empty l Hne Hl)).
  assert (Hp : has_prefix (join "/" l) "/" = false).
  { rewrite Hj. unfold has_prefix. cbn -[ascii_dec]. by destruct (ascii_dec slash c). }
  rewrite Hp. unfold split_byte. rewrite split_comps, clean_steps_rel, app_nil_r, rev_involutive by done.
  by rewrite (proj2 (String.eqb_neq _ _) (join_not_empty l Hne Hl)).
Qed.
Lemma local_rel l : l <> [] -> Forall comp_ok l -> is_local (join "/" l) = true.
Proof.
  intros Hne Hl. destruct (join_head l Hne Hl) as (c & t & Hj & Hc). unfold is_local. rewrite clean_rel by done.
  rewrite (proj2 (String.eqb_neq _ _) (join_not_empty l Hne Hl)).
  assert (Hp : has_prefix (join "/" l) "/" = false).
  { rewrite Hj. unfold has_prefix. cbn -[ascii_dec]. by destruct (ascii_dec slash c). }
  rewrite Hp. cbn [negb andb]. destruct l as [|x l]; [done |]. inversion Hl as [|? ? [_ _ H3 H4] Hl']; subst.
  destruct (String.eqb_spec (join "/" (x :: l)) "..") as [E|_].
  - apply (f_equal (split_byte_from slash "")) in E. rewrite split_comps in E by done. by injection E.
  - cbn [orb]. apply negb_true_iff, not_true_is_false. intros [u E]%prefix_inv. apply (f_equal (split_byte_from slash "")) in E.
    rewrite split_comps in E by done. change ("../" +:+ u) with (".." +:+ String slash u) in E. rewrite split_byte_from_app in E. by injection E.
Qed.

Lemma abs_is_abs l : is_abs (abs l) = true.
Proof. unfold abs. apply prefix_of_app. Qed.
(** Elements joined below an absolute folder. *)
Lemma join_below root c r : is_abs root = true -> Forall comp_ok c -> path_clean root = abs c -> r <> [] -> Forall comp_ok r ->
  path_join root (join "/" r) = abs (c ++ r).
Proof.
  intros Hr Hc Ec Hne Hrok. destruct (has_prefix_slash _ Hr) as [t ->]. unfold path_join. rewrite (proj2 (String.eqb_neq _ _) (join_not_empty r Hne Hrok)).
  change (String.eqb (String slash t) "") with false. cbv beta iota.
  change (String slash t +:+ "/" +:+ join "/" r) with ("/" +:+ (t +:+ String slash (join "/" r))). rewrite clean_rooted.
  change (String slash t) with ("/" +:+ t) in Ec. rewrite clean_rooted in Ec. unfold abs. do 2 f_equal. injection Ec as Ec.
  apply join_inj in Ec as <-; [| apply rcomps_ok | done]. unfold rcomps, split_byte. rewrite split_byte_from_app, foldl_app, split_comps by done.
  by rewrite clean_steps_ok, rev_app_distr, rev_involutive by done.
Qed.
Lemma rel_below root c r p : Forall comp_ok c -> Forall comp_ok r -> r <> [] -> path_clean root = abs c -> path_clean p = abs (c ++ r) ->
  path_rel root p = Some (join "/" r).
Proof.
  intros Hc Hrok Hne Ec Ea. unfold path_rel. rewrite Ea, Ec. destruct (String.eqb_spec (abs (c ++ r)) (abs c)) as [E|_].
  { apply abs_inj in E; [| by apply Forall_app | done]. destruct Hne. apply (app_inv_head c). by rewrite app_nil_r. }
  change (String.eqb (abs c) ".") with false. cbv beta iota zeta.
  change (String.eqb (abs c) "") with false. cbv beta iota.
  assert (Hpa : forall l, has_prefix (abs l) "/" = true) by apply abs_is_abs. rewrite !Hpa. cbn [Bool.eqb negb].
  assert (Hcr : Forall comp_ok (c ++ r)) by by apply Forall_app. rewrite !elements_abs by done. change ("" :: c ++ r)%list with (("" :: c) ++ r)%list. by rewrite drop_common_prefix.
Qed.
(** A path inside a folder: its relative path is local and leads back to it. *)
Lemma rel_within root p : isWithin p root = true -> exists c r, r <> [] /\ Forall comp_ok c /\ Forall comp_ok r /\
  path_clean root = abs c /\ path_clean p = abs (c ++ r) /\ path_rel root p = Some (join "/" r) /\
  is_local (join "/" r) = true /\ path_join root (join "/" r) = path_clean p.
Proof.
  unfold isWithin. intros [[Hp Hr]%andb_true_iff Hw]%andb_true_iff.
  destruct (clean_abs p Hp) as (a & Ha & Ea). destruct (clean_abs root Hr) as (c & Hc & Ec). rewrite Ea, Ec in Hw.
  apply within_abs in Hw as (r & Hne & ->); [| done | done]. apply Forall_app in Ha as [_ Hrok]. exists c, r. split_and!; try done.
  - by apply rel_below with c.
  - by apply local_rel.
  - rewrite Ea. by apply join_below.
Qed.

(** ** What a choice establishes *)

Ltac guards H := repeat (match type of H with context [match ?x with _ => _ end] => let E := fresh "E" in destruct x eqn:E; try discriminate H end).

Ltac bools := repeat match goal with
  | H : negb _ = false |- _ => apply negb_false_iff in H
  | H : negb _ = true |- _ => apply negb_true_iff in H
  | H : _ || _ = false |- _ => apply orb_false_iff in H as [? ?]
  | H : _ && _ = true |- _ => apply andb_true_iff in H as [? ?]
  | H : _ && _ = false |- _ => apply andb_false_iff in H
  | H : (_ <=? _) = false |- _ => apply Z.leb_gt in H
  | H : (_ <? _) = false |- _ => apply Z.ltb_ge in H
  | H : (_ =? _) = true |- _ => apply Z.eqb_eq in H
  | H : (_ =? _)%nat = true |- _ => apply Nat.eqb_eq in H
  | H : String.eqb _ _ = true |- _ => apply String.eqb_eq in H
  | H : Bool.eqb _ _ = true |- _ => apply eqb_prop in H
  end.

Lemma root_of_spec p roots : rootOf p roots <> "" -> rootOf p roots ∈ roots /\ isWithin p (rootOf p roots) = true.
Proof.
  unfold rootOf. destruct (find (isWithin p) roots) as [r|] eqn:E; [| done]. intros _. apply find_some in E as [Hin Hw].
  by rewrite list_elem_of_In.
Qed.
Lemma in_library p folders : inLibraryFolder p folders = true -> exists d, d ∈ folders /\ isWithin p d = true.
Proof. intros (d & Hd & Hw)%existsb_exists. exists d. by rewrite list_elem_of_In. Qed.

Section choices.
Context `{Unicode} (pe : plan_env) (cf : config) (libs : list LibraryFolders).

(** The path [resolved] (its relative path [rel] below [root]) is inside a mapped folder
    and inside a library folder of the server. *)
Record placed (sid : Z) (root rel resolved : string) : Prop := {
  pl_root : root ∈ run_roots pe cf;
  pl_within : isWithin resolved root = true;
  pl_library : exists d, d ∈ serverLibraryFolders pe libs (cf_mapper cf) sid /\ isWithin resolved d = true;
  pl_rel : path_rel root resolved = Some rel;
  pl_local : is_local rel = true;
  pl_join : path_join root rel = path_clean resolved;
  pl_line : contains_line_break resolved = false;
}.
(** The file of a part: the video its mapped path leads to, of the verified size. *)
Definition file_ok (sid : Z) (part : string * Z) (f : fsFile) : Prop :=
  exists local fi id, ToLocal (cf_mapper cf) PathSourceServer sid (fst part) = Some local /\
    pe_lstat pe local = Got fi /\ is_regular fi = true /\ pe_eval pe local = Got (ff_resolved f) /\
    placed sid (ff_root f) (ff_rel f) (ff_resolved f) /\ isVideoFile (ff_resolved f) = true /\ IsDiscPath (ff_resolved f) = false /\
    sb_size fi = snd part /\ ff_size f = snd part /\
    statInRoot pe (ff_root f) (ff_rel f) = Some id /\ same_file id fi = true /\ ff_id f = sb_ino id.
(** The bin a plan uses is the validated one, free to use and apart from what is moved. *)
Definition bin_usable (bin : string) : Prop := run_bin pe cf libs = inr bin /\ checkBinAdoptable pe bin = None.
Definition apart (bin resolved : string) : Prop := at_or_in resolved bin = false /\ unraidShareMix resolved bin = false.
Definition entry_ok (sid : Z) (bin e : string) (d : discEntry) : Prop :=
  de_local d = e /\ placed sid (de_root d) (de_rel d) (de_resolved d) /\
  (forall ld, ld ∈ serverLibraryFolders pe libs (cf_mapper cf) sid -> at_or_in ld (de_resolved d) = false) /\
  at_or_in bin (de_resolved d) = false /\ apart bin (de_resolved d) /\
  exists fi id parent, pe_lstat pe e = Got fi /\ is_symlink fi = false /\ is_dir fi = de_dir d /\
    pe_eval pe (path_dir e) = Got parent /\ de_resolved d = path_join parent (path_base e) /\
    lstatInRoot pe (de_root d) (de_rel d) = Some id /\ same_file id fi = true /\ is_dir id = de_dir d /\ de_id d = sb_ino id /\
    (forall b, nearestExisting pe bin = Some b -> sb_dev fi = sb_dev b).

(** What the plan of a choice was checked for, by method. *)
Definition choice_ok (g : xgroup) (v : MediaVersion) (lv : option verifiedVersion) (vr : verification) (c : choice) : Prop :=
  match ch_plan c with
  | ArrPlan inst info bin => ch_method c = MethodArr /\ ch_permanent c = String.eqb bin "" /\ IsDisc v = false /\
      discMember (cf_mapper cf) v = None /\ length (mv_parts v) = 1%nat /\ mv_arr v = Some info /\ inst = af_instance_id info /\
      0 < af_file_id info /\ pe_arr_client pe inst = true /\ pe_arr_bin pe inst = Some bin /\
      exists i, cf_arrs cf !! inst = Some i /\ ai_enabled i = true /\ (af_kind info = "" \/ af_kind info = ai_kind i)
  | PlexPlan sid rk mid => ch_method c = MethodPlex /\ ch_permanent c = true /\ IsDisc v = false /\
      discMember (cf_mapper cf) v = None /\ isShared v = false /\ (length (mv_parts v) <= 8)%nat /\
      sid = mv_server_id v /\ (exists srv, cf_servers cf !! sid = Some srv /\ ms_enabled srv = true) /\ pe_client pe sid = true /\ rk = trim_space (mv_rating_key v) /\ mid = mv_media_id v /\ 0 < mid /\ rk <> "" /\
      pe_deletes_versions pe sid = true /\ pe_deletion_allowed pe sid = Some true /\ remainsInItem vr sid v = true
  | FilesPlan p => ch_method c = MethodFilesystem /\ IsDisc v = false /\ discMember (cf_mapper cf) v = None /\ fp_files p <> [] /\
      Forall2 (file_ok (mv_server_id v)) (verified_sizes (mv_parts v) (match lv with Some l => vv_parts l | None => [] end)) (fp_files p) /\
      if blank (st_recycle_bin_path (cf_settings cf)) then ch_permanent c = true /\ fp_bin p = ""
      else ch_permanent c = false /\ bin_usable (fp_bin p) /\ Forall (fun f => apart (fp_bin p) (ff_resolved f)) (fp_files p)
  | DiscPlan p _ => ch_method c = MethodFilesystem /\ ch_permanent c = false /\ discRemovalProblem g (cf_settings cf) true = None /\
      bin_usable (dp_bin p) /\ dp_entries p <> [] /\
      exists d, lv ≫= vv_disc = Some d /\ dp_fingerprint p = dc_fingerprint d /\
        Forall2 (entry_ok (mv_server_id v) (dp_bin p)) (dc_owned_entries d) (dp_entries p)
  end.

Lemma arr_choice_spec v c g lv vr : arrChoice pe cf v = inr c -> choice_ok g v lv vr c.
Proof.
  unfold arrChoice. intros Hc. guards Hc. injection Hc as <-. cbn. bools. split_and!; try done. eexists. split_and!; [done | done |].
  match goal with H : _ \/ _ |- _ => destruct H as [?|?] end; bools; [left | right]; done.
Qed.
Lemma plex_choice_spec v c g lv vr : plexChoice pe cf v vr = inr c -> choice_ok g v lv vr c.
Proof.
  unfold plexChoice. cbv zeta. intros Hc. destruct (cf_servers cf !! mv_server_id v) as [srv|] eqn:Esrv; [| by cbn in Hc].
  guards Hc. injection Hc as <-. cbn. bools. unfold maxPlexStackParts in *. split_and!; try done; [lia | by exists srv |].
  unfold blank in *. intros E'. match goal with H : String.eqb _ "" = false |- _ => by rewrite E' in H end.
Qed.
Lemma fs_part_spec sid part f : fs_part pe cf libs sid (fst part) (snd part) = inr f -> file_ok sid part f.
Proof.
  unfold fs_part. intros Hc. guards Hc. injection Hc as <-. bools.
  destruct (root_of_spec a (run_roots pe cf)) as [Hin Hw]; [by apply String.eqb_neq |].
  destruct (rel_within _ _ Hw) as (c' & r & _ & _ & _ & _ & _ & Hr & Hl & Hj). assert (s1 = join "/" r) as -> by congruence.
  match goal with H : regularFile pe s = Some s0 |- _ => unfold regularFile in H; guards H; injection H as -> end.
  exists s, s0, s2. split_and!; try done. split; try done. by apply in_library.
Qed.
Lemma fs_parts_spec sid l fs : fs_parts pe cf libs sid l = inr fs -> Forall2 (file_ok sid) l fs.
Proof.
  revert fs. induction l as [|[p size] l IH]; intros fs; cbn [fs_parts]; [by intros [= <-]; constructor |].
  destruct (fs_part pe cf libs sid p size) as [|f] eqn:Ef; [done |]. destruct (fs_parts pe cf libs sid l) as [|fs'] eqn:Es; [done |].
  intros [= <-]. constructor; [by apply fs_part_spec | by apply IH].
Qed.
Lemma in_bin_spec bin files : head (omap (in_bin bin) files) = None -> Forall (fun f => apart bin (ff_resolved f)) files.
Proof.
  induction files as [|f files IH]; [by constructor |]. cbn [omap list_omap]. unfold in_bin at 1.
  destruct (at_or_in (ff_resolved f) bin) eqn:E1; [done |]. destruct (unraidShareMix (ff_resolved f) bin) eqn:E2; [done |].
  intros Hh. constructor; [by split | by apply IH].
Qed.
Lemma fs_choice_spec v c g lv vr : fsChoice pe cf libs v lv = inr c -> choice_ok g v lv vr c.
Proof.
  unfold fsChoice. intros Hc. destruct (IsDisc v) eqn:E0; [done |]. destruct (discMember (cf_mapper cf) v) eqn:E1; [done |].
  destruct (run_roots pe cf) eqn:E2; [done |]. destruct (fs_parts _ _ _ _ _) as [|fs] eqn:E3; [done |]. apply fs_parts_spec in E3.
  destruct fs as [|f fs]; [done |]. destruct (blank (st_recycle_bin_path (cf_settings cf))) eqn:E4.
  - injection Hc as <-. cbn [choice_ok ch_plan]. by rewrite E4.
  - destruct (run_bin pe cf libs) as [|bin] eqn:E5; [done |]. destruct (head _) eqn:E6; [done |]. apply in_bin_spec in E6.
    destruct (checkBinAdoptable pe bin) eqn:E7; [done |]. injection Hc as <-. cbn [choice_ok ch_plan]. rewrite E4. by split_and!.
Qed.

Lemma disc_entry_spec sid bin e d : disc_entry pe cf bin (serverLibraryFolders pe libs (cf_mapper cf) sid) e = inr d -> entry_ok sid bin e d.
Proof.
  unfold disc_entry. intros Hc. destruct (contains_line_break e) eqn:E0; [done |]. destruct (pe_lstat pe e) as [| |fi] eqn:E1; try done.
  destruct (is_symlink fi || _) eqn:E2; [done |]. destruct (pe_eval pe (path_dir e)) as [| |parent] eqn:E3; try done. cbv zeta in Hc.
  set (resolved := path_join parent (path_base e)) in *. destruct (contains_line_break resolved) eqn:E4; [done |].
  destruct (String.eqb_spec (rootOf resolved (run_roots pe cf)) "") as [|E5]; [done |]. destruct (root_of_spec _ _ E5) as [Hin Hw].
  destruct (inLibraryFolder _ _) eqn:E6; [| done]. destruct (existsb _ _) eqn:E7; [done |]. destruct (at_or_in bin resolved) eqn:E8; [done |].
  destruct (isWithin resolved bin) eqn:E9; [done |]. destruct (unraidShareMix resolved bin) eqn:E10; [done |].
  destruct (match nearestExisting pe bin with Some _ => _ | None => _ end) eqn:E11; [done |].
  assert (Hdev : forall b, nearestExisting pe bin = Some b -> sb_dev fi = sb_dev b) by (intros b Hb; rewrite Hb in E11; by bools). clear E11.
  destruct (path_rel _ resolved) as [rel|] eqn:E12; [| done]. destruct (negb (is_local rel) || _); [done |].
  destruct (lstatInRoot pe _ rel) as [id|] eqn:E13; [| done]. destruct (negb (same_file id fi) || _) eqn:E14; [done |]. injection Hc as <-. cbn [negb] in *. bools.
  destruct (rel_within _ _ Hw) as (c' & r & _ & _ & _ & _ & _ & Hr & Hl & Hj). assert (rel = join "/" r) as -> by congruence.
  unfold entry_ok. cbn. split; [done |]. split; [by split; try done; apply in_library |]. split.
  { intros ld Hld. apply not_true_is_false. intros Ht. assert (existsb (fun ld => at_or_in ld resolved) (serverLibraryFolders pe libs (cf_mapper cf) sid) = true); [| congruence].
    apply existsb_exists. exists ld. by rewrite <- list_elem_of_In. }
  split; [done |]. split.
  { split; [| done]. unfold at_or_in in *. rewrite E9. apply orb_false_iff in E8 as [E8 _]. by rewrite String.eqb_sym, E8. }
  exists fi, id, parent. by split_and!.
Qed.
Lemma disc_entries_spec sid bin l ds : disc_entries pe cf bin (serverLibraryFolders pe libs (cf_mapper cf) sid) l = inr ds -> Forall2 (entry_ok sid bin) l ds.
Proof.
  revert ds. induction l as [|e l IH]; intros ds; cbn [disc_entries]; [by intros [= <-]; constructor |].
  destruct (disc_entry pe cf bin _ e) as [|d] eqn:Ed; [done |]. destruct (disc_entries pe cf bin _ l) as [|ds'] eqn:Es; [done |].
  intros [= <-]. constructor; [by apply disc_entry_spec | by apply IH].
Qed.
Lemma disc_choice_spec v c g lv vr : discChoice pe cf libs g v lv = inr c -> choice_ok g v lv vr c.
Proof.
  unfold discChoice. intros Hc. destruct (discRemovalProblem g (cf_settings cf) true) eqn:E0; [done |]. destruct (lv ≫= vv_disc) as [d|] eqn:E1; [| done].
  destruct (run_roots pe cf) eqn:E2; [done |]. destruct (run_bin pe cf libs) as [|bin] eqn:E3; [done |]. destruct (checkBinAdoptable pe bin) eqn:E4; [done |].
  destruct (disc_entries _ _ _ _ _) as [|ds] eqn:E5; [done |]. apply disc_entries_spec in E5. destruct ds as [|x ds]; [done |]. injection Hc as <-.
  cbn [choice_ok ch_plan ch_method ch_permanent dp_bin dp_entries dp_fingerprint]. split_and!; try done. by exists d.
Qed.

(** ** The selection *)

Lemma try_method_spec g v lv vr m c : try_method pe cf libs g v lv vr m = inr c -> choice_ok g v lv vr c /\
  (IsDisc v = true -> exists p freed, ch_plan c = DiscPlan p freed).
Proof.
  unfold try_method. destruct (String.eqb_spec m MethodArr) as [->|Ha]; [| destruct (String.eqb_spec m MethodPlex) as [->|Hp]; [| destruct (String.eqb_spec m MethodFilesystem) as [->|Hf]]].
  - cbn [andb]. destruct (IsDisc v) eqn:Ed; [done |]. intros Hc. cbn in Hc. split; [by eapply arr_choice_spec | done].
  - cbn [andb]. destruct (IsDisc v) eqn:Ed; [done |]. cbn. destruct (plexChoice pe cf v vr) as [|c'] eqn:Hc; [done |]. intros [= <-].
    split; [by eapply plex_choice_spec | done].
  - cbn [andb]. destruct (IsDisc v) eqn:Ed; cbn.
    + destruct (discChoice pe cf libs g v lv) as [|c'] eqn:Hc; [done |]. intros [= <-]. split; [by eapply disc_choice_spec |]. intros _.
      unfold discChoice in Hc. guards Hc. injection Hc as <-. by eexists _, _.
    + destruct (fsChoice pe cf libs v lv) as [|c'] eqn:Hc; [done |]. intros [= <-]. split; [by eapply fs_choice_spec | done].
  - done.
Qed.
Definition read_only (g : xgroup) (v : MediaVersion) : bool := ReadOnly (ms_kind (cf_server cf (serverOf g v))) || readOnlyVersion v.
Lemma allowed_spec g v r c : allowed_here cf g v r = inr c -> r = inr c /\ (read_only g v = true -> ch_permanent c = false).
Proof.
  unfold allowed_here. fold (read_only g v). destruct (read_only g v); [| by split]. destruct r as [|c']; [done |].
  unfold readOnlyMethodRule. destruct (ch_permanent c') eqn:Ep; [done |]. by intros [= <-].
Qed.
(** A method listed before the chosen one was refused, without stopping the search. *)
Definition passed_over (g : xgroup) (v : MediaVersion) (lv : option verifiedVersion) (vr : verification) (raw : string) : Prop :=
  let m := to_lower (trim_space raw) in
  m = "" \/ exists why, allowed_here cf g v (try_method pe cf libs g v lv vr m) = inl (why, false).
Lemma select_spec g v lv vr l seen reasons c : (forall m, m ∈ seen -> exists why, allowed_here cf g v (try_method pe cf libs g v lv vr m) = inl (why, false)) ->
  fst (select_from pe cf libs g v lv vr seen reasons l) = Some c ->
  exists pre raw post, l = (pre ++ raw :: post)%list /\ Forall (passed_over g v lv vr) pre /\
    allowed_here cf g v (try_method pe cf libs g v lv vr (to_lower (trim_space raw))) = inr c.
Proof.
  revert seen reasons. induction l as [|raw l IH]; intros seen reasons Hs; cbn [select_from]; [done |].
  set (m := to_lower (trim_space raw)). destruct (String.eqb m "" || mem m seen) eqn:E.
  - intros Hc. destruct (IH seen reasons Hs Hc) as (pre & raw' & post & -> & Hpre & Hok). exists (raw :: pre), raw', post.
    split_and!; try done. constructor; [| done]. apply orb_true_iff in E as [E%String.eqb_eq|E]; [by left | right]. apply Hs. by apply mem_true.
  - destruct (allowed_here _ _ _ _) as [[why stop]|c'] eqn:Ea; [| intros [= <-]; by exists [], raw, l].
    destruct stop; [done |]. intros Hc. destruct (IH (m :: seen) (reasons ++ [(m, why)])%list) as (pre & raw' & post & -> & Hpre & Hok).
    + intros x [->|Hx]%elem_of_cons; [by exists why | by apply Hs].
    + exact Hc.
    + exists (raw :: pre), raw', post. split_and!; try done. constructor; [right; by exists why | done].
Qed.
End choices.

(** ** Choosing *)

Lemma selected_ok `{Unicode} pe cf libs g t vr c : fst (selectMethod pe cf libs g t vr) = Some c ->
  choice_ok pe cf libs g (tg_version t) (loser_of vr t) vr c.
Proof.
  intros Hc. apply select_spec in Hc as (pre & raw & post & Hl & Hpre & Hok); [| by intros m ?%elem_of_nil].
  destruct (allowed_spec _ _ _ _ _ Hok) as [Ht _]. by destruct (try_method_spec _ _ _ _ _ _ _ _ _ Ht).
Qed.

(** C29: A method is chosen as configured: it is the first listed that is not refused, no method before it
    having stopped the search; its plan passed every check of its method; a full disc is only
    ever moved whole, and a copy on a read-only server never removed permanently. *)
Theorem method_selected `{Unicode} pe cf libs g t vr c : fst (selectMethod pe cf libs g t vr) = Some c ->
  let v := tg_version t in
  let lv := loser_of vr t in
  choice_ok pe cf libs g v lv vr c /\ (read_only cf g v = true -> ch_permanent c = false) /\
  (IsDisc v = true -> exists p freed, ch_plan c = DiscPlan p freed) /\
  exists pre raw post, st_deletion_methods (cf_settings cf) = (pre ++ raw :: post)%list /\ Forall (passed_over pe cf libs g v lv vr) pre /\
    allowed_here cf g v (try_method pe cf libs g v lv vr (to_lower (trim_space raw))) = inr c.
Proof.
  intros Hc. cbv zeta. apply select_spec in Hc as (pre & raw & post & Hl & Hpre & Hok); [| by intros m ?%elem_of_nil].
  destruct (allowed_spec _ _ _ _ _ Hok) as [Ht Hro]. destruct (try_method_spec _ _ _ _ _ _ _ _ _ Ht) as [Hch Hd].
  split_and!; try done. by exists pre, raw, post.
Qed.

(** A file tracked by an enabled *arr that cannot be read, or tracked inside a disc, is not removed behind
    its back: only a method listed before the *arr can be chosen. *)
Theorem unreadable_arr_stops `{Unicode} pe cf libs g t vr c why : IsDisc (tg_version t) = false ->
  arrChoice pe cf (tg_version t) = inl (why, true) -> fst (selectMethod pe cf libs g t vr) = Some c ->
  ch_method c <> MethodArr /\
  exists pre raw post, st_deletion_methods (cf_settings cf) = (pre ++ raw :: post)%list /\
    (forall m, m ∈ pre ++ [raw] -> to_lower (trim_space m) <> MethodArr)%list /\
    try_method pe cf libs g (tg_version t) (loser_of vr t) vr (to_lower (trim_space raw)) = inr c.
Proof.
  intros Hd Ha Hc. apply select_spec in Hc as (pre & raw & post & Hl & Hpre & Hok); [| by intros m ?%elem_of_nil].
  destruct (allowed_spec _ _ _ _ _ Hok) as [Ht _].
  assert (Hta : forall lv, try_method pe cf libs g (tg_version t) lv vr MethodArr = inl (why, true)) by (intros lv; unfold try_method; cbn; by rewrite Hd).
  assert (Hraw : to_lower (trim_space raw) <> MethodArr) by (intros E; rewrite E, Hta in Ht; done).
  split.
  - destruct (try_method_spec _ _ _ _ _ _ _ _ _ Ht) as [Hch _]. unfold choice_ok in Hch. intros Em.
    destruct (ch_plan c); destruct Hch as [Hm Hch]; try (by rewrite Em in Hm). destruct Hch as (_ & _ & Hmem & Hlen & Harr & -> & Hid & _ & Hbin & i & Hi & Hen & Hk).
    unfold arrChoice in Ha. rewrite Harr, Hi, Hen, Hlen, Hd, Hmem, Hbin in Ha. cbn in Ha. destruct (negb _ && _); [done |].
    destruct (af_file_id info <=? 0); [done |]. by destruct (negb (pe_arr_client pe _)).
  - exists pre, raw, post. split_and!; try done. intros m [Hm|Hm]%elem_of_app; [| by apply list_elem_of_singleton in Hm as ->].
    rewrite Forall_forall in Hpre. destruct (Hpre m Hm) as [E|[w Hw]]; [by rewrite E |]. intros E. rewrite E, Hta in Hw. unfold allowed_here in Hw. by destruct (_ || _).
Qed.

(** C28: Whatever a run removes was planned under these rules: with this selection of methods, every
    removal that is carried out has a checked plan (inside the mapped folders and its own
    server's libraries, the verified files), full discs only as a whole, and copies of
    read-only servers never permanently. *)
Theorem removals_confined `{Unicode} `{Doublestar} `{RegexSyntax} `{World} env libs (rest : Methods) cf (s : xstate event) (p : performed) :
  fresh s -> removed_by (D := selecting env libs rest) cf s p ->
  let v := tg_version (pf_target p) in
  exists n c, summary c = pf_choice p /\ choice_ok (env n) cf libs (pf_group p) v (loser_of (pf_verification p) (pf_target p)) (pf_verification p) c /\
    (read_only cf (pf_group p) v = true -> mc_permanent (pf_choice p) = false) /\
    (IsDisc v = true -> exists q freed, ch_plan c = DiscPlan q freed).
Proof.
  intros Hf Hp. pose proof (removed_justified (D := selecting env libs rest) cf s p Hf Hp) as Hj. cbv zeta.
  destruct (ju_chosen (D := selecting env libs rest) _ _ _ Hj) as [n Hn]. cbn [fst snd md_select selecting] in Hn.
  destruct (fst (selectMethod (env n) cf libs (pf_group p) (pf_target p) (pf_verification p))) as [c|] eqn:Hc; [| done]. injection Hn as Hn.
  exists n, c. split; [exact Hn |]. apply select_spec in Hc as (pre & raw & post & _ & _ & Hok); [| by intros m ?%elem_of_nil].
  destruct (allowed_spec _ _ _ _ _ Hok) as [Ht Hro]. destruct (try_method_spec _ _ _ _ _ _ _ _ _ Ht) as [Hch Hd]. split_and!; try done. by rewrite <- Hn.
Qed.

(** ** The recycle bin *)

Lemma find_none {A} (f : A -> bool) l x : find f l = None -> x ∈ l -> f x = false.
Proof. intros Hf Hx. eapply find_none; [exact Hf |]. by apply list_elem_of_In. Qed.

(** The data folder: as it is configured, or what that resolves to. *)
Definition data_folder `{Unicode} (pe : plan_env) (d : string) : Prop :=
  let dir := trim_space (pe_data_dir pe) in is_abs dir = true /\ (d = path_clean dir \/ pe_eval pe dir = Got d).
Lemma data_folder_listed `{Unicode} pe d : data_folder pe d -> d ∈ data_forms pe.
Proof.
  rewrite list_elem_of_In. unfold data_folder, data_forms. intros [Ha Hd]. rewrite Ha. destruct (String.eqb_spec (trim_space (pe_data_dir pe)) "") as [E|]; [by rewrite E in Ha |].
  cbn [orb negb]. destruct Hd as [->|Hd]; [by left |]. rewrite Hd. destruct (String.eqb_spec d (path_clean (trim_space (pe_data_dir pe)))) as [->|]; [by left | by right; left].
Qed.
Lemma bin_resolved `{Unicode} pe bin roots mappings libDirs b : validateRecycleBin pe bin roots mappings libDirs = inr b ->
  resolveExisting pe (trim_space bin) = Some b.
Proof. unfold validateRecycleBin. repeat case_match; intros Hv; simplify_eq; done. Qed.

(** C30: The recycle bin is apart from what it could swallow: the bin that is used is what the configured
    path resolves to, no filesystem root, and neither it nor the configured path is or holds a
    mapped folder, a library folder or the data folder, nor lies in the data folder. *)
Theorem bin_separate `{Unicode} pe bin roots mappings libDirs b : validateRecycleBin pe bin roots mappings libDirs = inr b ->
  resolveExisting pe (trim_space bin) = Some b /\ isFSRoot b = false /\
  (forall r, r ∈ roots -> at_or_in r b = false) /\
  (forall p, p ∈ omap mapped_folder mappings \/ p ∈ libDirs \/ data_folder pe p ->
     at_or_in p b = false /\ at_or_in p (path_clean (trim_space bin)) = false) /\
  (forall d, data_folder pe d -> isWithin b d = false /\ isWithin (path_clean (trim_space bin)) d = false).
Proof.
  intros Hv. split; [exact (bin_resolved _ _ _ _ _ _ Hv) |].
  unfold validateRecycleBin in Hv. destruct (String.eqb (trim_space bin) ""); [done |]. destruct (contains_line_break _); [done |].
  destruct (negb (is_abs _)); [done |]. destruct (isFSRoot (trim_space bin)); [done |]. destruct (resolveExisting pe (trim_space bin)) as [r|]; [| done].
  destruct (isFSRoot r) eqn:Efs; [done |]. cbv zeta in Hv. destruct (find _ roots) eqn:E1; [done |]. destruct (find _ (omap mapped_folder mappings)) eqn:E2; [done |].
  destruct (find _ libDirs) eqn:E3; [done |]. destruct (find _ (data_forms pe)) eqn:E4; [done |]. injection Hv as ->.
  assert (Hdata : forall d, data_folder pe d -> (at_or_in d b = false /\ isWithin b d = false) /\
    at_or_in d (path_clean (trim_space bin)) = false /\ isWithin (path_clean (trim_space bin)) d = false).
  { intros d Hd%data_folder_listed. pose proof (find_none _ _ _ E4 Hd) as Hn. unfold overlap, at_or_in in *. bools. repeat match goal with H : _ = false |- _ => rewrite H end. done. }
  split_and!; try done.
  - intros x Hx. exact (find_none _ _ _ E1 Hx).
  - intros p [Hp|[Hp|Hp]].
    + pose proof (find_none _ _ _ E2 Hp) as Hn. cbn in Hn. by bools.
    + pose proof (find_none _ _ _ E3 Hp) as Hn. cbn in Hn. by bools.
    + naive_solver.
  - naive_solver.
Qed.

(** The names [uniqueName] tries keep the extension. *)
Lemma last_index_app f a b : last_index_byte_where f (a +:+ b) =
  match last_index_byte_where f b with Some i => Some (String.length a + i)%nat | None => last_index_byte_where f a end.
Proof.
  induction a as [|c a IH].
  { change ("" +:+ b) with b. by destruct (last_index_byte_where f b). }
  rewrite str_app_cons. cbn [last_index_byte_where String.length].
  rewrite IH. by destruct (last_index_byte_where f b).
Qed.
Lemma ext_app a e : has_prefix e "." = true -> path_ext e = e -> path_ext (a +:+ e) = e.
Proof.
  unfold path_ext. intros Hp He. rewrite last_index_app. destruct (last_index_byte_where _ e) as [i|] eqn:Ei; [| by rewrite <- He in Hp].
  assert (Hs : sdrop (String.length a + i) (a +:+ e) = sdrop i e) by (clear; induction a as [|c a IH]; [done |]; rewrite str_app_cons; cbn [String.length]; exact IH).
  rewrite Hs. exact He.
Qed.
Lemma last_index_split f s i : last_index_byte_where f s = Some i -> s = stake i s +:+ sdrop i s /\ last_index_byte_where f (sdrop i s) = Some 0%nat.
Proof.
  revert i. induction s as [|c s IH]; intros i; [done |]. cbn [last_index_byte_where]. destruct (last_index_byte_where f s) as [j|] eqn:Ej.
  - intros [= <-]. destruct (IH j eq_refl) as [H1 H2]. cbn [stake sdrop]. by rewrite str_app_cons, <- H1.
  - destruct (f c) eqn:Ef; [| done]. intros [= <-]. cbn [stake sdrop]. split; [done |]. cbn. by rewrite Ej, Ef.
Qed.
Lemma path_ext_shape name : path_ext name <> "" -> has_prefix (path_ext name) "." = true /\ path_ext (path_ext name) = path_ext name.
Proof.
  unfold path_ext. destruct (last_index_byte_where _ name) as [i|] eqn:Ei; [| done]. destruct (has_prefix (sdrop i name) ".") eqn:Hp; [| done].
  intros _. apply last_index_split in Ei as [_ Ei]. rewrite Ei. cbn [sdrop]. by rewrite Hp.
Qed.
Lemma candidate_ext name i : path_ext name <> "" -> path_ext (candidate name i) = path_ext name.
Proof.
  intros He. destruct i as [|i]; [done |]. destruct (path_ext_shape name He) as [Hp Hs]. unfold candidate.
  rewrite <- !str_app_assoc. by apply ext_app.
Qed.

(** ** Dated folders *)

Lemma day_digit_byte d : byte_of (day_digit d) = 48 + d mod 10.
Proof.
  unfold byte_of, day_digit, of_byte. pose proof (Z.mod_pos_bound d 10 ltac:(lia)). rewrite N_ascii_embedding by lia. lia.
Qed.
Lemma day_digit_digit d : in_range 48 57 (byte_of (day_digit d)) = true.
Proof. rewrite day_digit_byte. pose proof (Z.mod_pos_bound d 10 ltac:(lia)). unfold in_range. lia. Qed.
Lemma rune_digit d s : runes (String (day_digit d) s) = (byte_of (day_digit d), String (day_digit d) "") :: runes s.
Proof. apply rune_ascii. pose proof (day_digit_digit d) as Hd. unfold in_range in Hd. lia. Qed.
Lemma day_matches ymd : re_match reRecycleDay (format_day ymd) = true.
Proof.
  destruct ymd as [[y m] d]. unfold format_day, re_match. rewrite !rune_digit, rune_ascii, !rune_digit, rune_ascii, !rune_digit by done.
  unfold find_from, reRecycleDay. cbn [runes runes_fuel String.length seq_of times digit one rmatch m_rest m_prev]. rewrite !day_digit_digit.
  cbn. done.
Qed.
Lemma parse_digit acc d s : parse_digits acc (String (day_digit d) s) = parse_digits (acc * 10 + d mod 10) s.
Proof. cbn [parse_digits]. rewrite day_digit_digit, day_digit_byte. f_equal. lia. Qed.
Lemma parse_int_digit d s n : parse_digits 0 (String (day_digit d) s) = Some n -> 0 <= n <= max_int64 -> parse_int (String (day_digit d) s) = Some n.
Proof.
  intros Hp Hn. unfold parse_int. pose proof (day_digit_digit d) as Hd. set (c := day_digit d) in *.
  assert (E : forall neg, parse_digits 0 (String c s) = Some n -> (if String.eqb (String c s) "" then None else
    match parse_digits 0 (String c s) with Some n => if (min_int64 <=? (if neg : bool then - n else n)) && ((if neg then - n else n) <=? max_int64) then Some (if neg then - n else n) else None | None => None end) = Some (if neg then - n else n)).
  { intros neg ->. cbn [String.eqb]. assert ((min_int64 <=? (if neg then - n else n)) && ((if neg then - n else n) <=? max_int64) = true) as ->; [| done].
    unfold min_int64, max_int64 in *. destruct neg; lia. }
  specialize (E false Hp). destruct c as [[] [] [] [] [] [] [] []]; try exact E; by vm_compute in Hd.
Qed.
Lemma day_roundtrip y m d : 0 <= y <= 9999 -> 1 <= m <= 12 -> 1 <= d <= days_in y m -> parse_day (format_day (y, m, d)) = Some (y, m, d).
Proof.
  intros Hy Hm Hd. assert (d <= 31) by (unfold days_in in Hd; repeat case_match; lia).
  unfold parse_day. rewrite day_matches. cbn [negb]. unfold format_day. cbn [stake sdrop].
  assert (E4 : parse_int (String (day_digit (y / 1000)) (String (day_digit (y / 100)) (String (day_digit (y / 10)) (String (day_digit y) "")))) = Some y).
  { apply parse_int_digit; [| unfold max_int64; lia]. rewrite !parse_digit. cbn [parse_digits]. f_equal. Z.to_euclidean_division_equations. lia. }
  assert (E2 : forall x, 1 <= x <= 31 -> parse_int (String (day_digit (x / 10)) (String (day_digit x) "")) = Some x).
  { intros x Hx. apply parse_int_digit; [| unfold max_int64; lia]. rewrite !parse_digit. cbn [parse_digits]. f_equal. Z.to_euclidean_division_equations. lia. }
  rewrite E4, !E2 by lia. unfold in_range. rewrite (proj2 (Z.leb_le 1 m)), (proj2 (Z.leb_le m 12)), (proj2 (Z.leb_le 1 d)), (proj2 (Z.leb_le d (days_in y m))) by lia. done.
Qed.
Lemma day_comp ymd : comp_ok (format_day ymd).
Proof.
  destruct ymd as [[y m] d]. split; try done. unfold free, format_day, index_byte. cbn [index_byte_where].
  assert (Hd : forall x, Ascii.eqb slash (day_digit x) = false).
  { intros x. apply Ascii.eqb_neq. intros E. pose proof (day_digit_digit x) as Hx. by rewrite <- E in Hx. }
  rewrite !Hd. done.
Qed.

(** ** Names inside the bin *)

Lemma last_slash_comp x : free slash x -> last_index_byte_where (Ascii.eqb slash) x = None.
Proof.
  unfold free, index_byte. induction x as [|c x IH]; [done |]. cbn [index_byte_where last_index_byte_where]. destruct (Ascii.eqb slash c); [done |].
  destruct (index_byte_where _ x); [done |]. intros _. by rewrite IH.
Qed.
Lemma last_slash_app a x : free slash x -> last_index_byte (a +:+ String slash x) slash = Some (String.length a).
Proof.
  intros Hx. unfold last_index_byte. rewrite last_index_app. change (String slash x) with ("/" +:+ x). rewrite last_index_app, last_slash_comp by done.
  cbn. f_equal. lia.
Qed.
Lemma stake_front a b : stake (String.length a) (a +:+ b) = a.
Proof. induction a as [|c a IH]; [by destruct b |]. rewrite str_app_cons. cbn [String.length stake]. by rewrite IH. Qed.
Lemma sdrop_past a c b : sdrop (S (String.length a)) (a +:+ String c b) = b.
Proof. induction a as [|d a IH]; [done |]. rewrite str_app_cons. cbn [String.length]. cbn [sdrop]. exact IH. Qed.
Lemma stake_past a c b : stake (S (String.length a)) (a +:+ String c b) = a +:+ String c "".
Proof. induction a as [|d a IH]; [by destruct b |]. rewrite !str_app_cons. cbn [String.length]. cbn [stake]. by rewrite <- IH. Qed.

Lemma dir_abs p : is_abs p = true -> is_abs (path_dir p) = true.
Proof.
  intros [t ->]%has_prefix_slash. unfold path_dir. destruct (last_index_byte (String slash t) slash) as [i|] eqn:E.
  - cbn [stake]. change (String slash (stake i t)) with ("/" +:+ stake i t). rewrite clean_rooted. apply prefix_of_app.
  - unfold last_index_byte in E. cbn [last_index_byte_where] in E. by destruct (last_index_byte_where _ t).
Qed.
Lemma clean_clean p : is_abs p = true -> is_abs (path_clean p) = true /\ path_clean (path_clean p) = path_clean p.
Proof. intros Hp. destruct (clean_abs p Hp) as (c & Hc & ->). split; [apply abs_is_abs | exact (clean_normal c Hc)]. Qed.
(** [filepath.EvalSymlinks]: its result is cleaned, and absolute for an absolute path. *)
Definition eval_resolves (pe : plan_env) : Prop :=
  forall q r, pe_eval pe q = Got r -> path_clean r = r /\ (is_abs q = true -> is_abs r = true).
Lemma resolve_abs pe fuel cur rest b : eval_resolves pe -> is_abs cur = true -> resolve_from pe fuel cur rest = Some b -> is_abs b = true /\ path_clean b = b.
Proof.
  intros He. revert cur rest. induction fuel as [|fuel IH]; intros cur rest Hc; [done |]. cbn [resolve_from]. destruct (pe_eval pe cur) as [| |r] eqn:Er; [done | |].
  - destruct (pe_lstat pe cur); try done; (destruct (String.eqb (path_dir cur) cur); [done |]); exact (IH _ _ (dir_abs _ Hc)).
  - intros [= <-]. destruct (He _ _ Er) as [_ Ha]. apply Ha, has_prefix_slash in Hc as [t ->]. unfold path_join_all. cbn [List.filter String.eqb negb].
    apply clean_clean. destruct (List.filter _ rest); [exact (prefix_of_app "/" t) |]. rewrite join_cons by done. rewrite str_app_cons. exact (prefix_of_app "/" _).
Qed.
Lemma existing_abs pe p b : eval_resolves pe -> resolveExisting pe p = Some b -> is_abs b = true /\ path_clean b = b.
Proof.
  intros He. unfold resolveExisting. destruct (is_abs (path_clean p)) eqn:Ea; [| done]. by apply resolve_abs.
Qed.
Lemma trim_right_name a x : x <> "" -> free slash x -> trim_right_slash (a +:+ x) = a +:+ x.
Proof.
  intros Hne Hx. assert (Hb : trim_right_slash x = x).
  { unfold free, index_byte in Hx. unfold trim_right_slash. clear Hne. induction x as [|c x IH]; [done |]. cbn [index_byte_where trim_right_where] in *.
    destruct (Ascii.eqb slash c) eqn:Hc; [done |]. destruct (index_byte_where _ x); [done |]. rewrite IH by done.
    destruct x; [| done]. unfold is_slash. by rewrite Ascii.eqb_sym, Hc. }
  induction a as [|c a IH]; [exact Hb |]. rewrite str_app_cons. unfold trim_right_slash in *. cbn [trim_right_where]. rewrite IH.
  destruct (a +:+ x) eqn:E; [| done]. by destruct a.
Qed.
Lemma base_below a x : x <> "" -> free slash x -> path_base (a +:+ String slash x) = x.
Proof.
  intros Hne Hx. unfold path_base. assert (E : a +:+ String slash x = (a +:+ "/") +:+ x) by by rewrite str_app_assoc.
  rewrite (proj2 (String.eqb_neq (a +:+ String slash x) "")) by by destruct a. rewrite E, trim_right_name, <- E, last_slash_app, sdrop_past by done.
  by rewrite (proj2 (String.eqb_neq x "")).
Qed.
Lemma dir_below l x : l <> [] -> Forall comp_ok l -> comp_ok x -> path_dir (join "/" (l ++ [x])) = join "/" l.
Proof.
  intros Hne Hl [Hx1 _ _ Hx]. rewrite join_app by done. change ("/" +:+ join "/" [x]) with (String slash x). unfold path_dir.
  rewrite last_slash_app, stake_past by done. destruct (join_head l Hne Hl) as (c & t & Hj & Hc). unfold path_clean.
  rewrite (proj2 (String.eqb_neq (join "/" l +:+ "/") "")) by (rewrite Hj; done). assert (Hp : has_prefix (join "/" l +:+ "/") "/" = false).
  { rewrite Hj, str_app_cons. unfold has_prefix. cbn -[ascii_dec]. destruct (ascii_dec slash c); [congruence | done]. }
  rewrite Hp. unfold split_byte. rewrite split_byte_from_app, split_comps by done. rewrite foldl_app, (clean_steps_rel l), app_nil_r by done. cbn [split_byte_from foldl].
  change (clean_step false (rev l) "") with (rev l). rewrite rev_involutive. by rewrite (proj2 (String.eqb_neq _ _) (join_not_empty l Hne Hl)).
Qed.
Lemma trim_suffix_free b s p x : free b s -> free b (trim_suffix s p +:+ x) <-> free b x.
Proof.
  intros Hs. rewrite free_app. unfold trim_suffix. destruct (has_suffix s p); [| tauto]. assert (Ht : free b (stake (String.length s - String.length p) s)); [| tauto].
  rewrite <- (stake_sdrop (String.length s - String.length p) s) in Hs. by apply free_app in Hs as [Hs _].
Qed.
Lemma ext_free b s : free b s -> free b (path_ext s).
Proof.
  intros Hs. unfold path_ext. destruct (last_index_byte_where _ s) as [i|]; [| done]. destruct (has_prefix _ _); [| done].
  rewrite <- (stake_sdrop i s) in Hs. by apply free_app in Hs as [_ Hs].
Qed.
Lemma candidate_free b x i : Z.of_nat i < max_int64 -> digit_byte b = false -> free b "_" -> free b x -> free b (candidate x i).
Proof.
  intros Hi Hb Hu Hx. destruct i as [|i]; [done |]. unfold candidate. apply trim_suffix_free; [done |].
  destruct (format_nat_parses (Z.of_nat (S i) + 1)) as (_ & Hd & _); [lia | lia |].
  apply free_app. split; [done |]. apply free_app. split; [| by apply ext_free]. by eapply all_chars_free.
Qed.
Lemma candidate_comp x i : Z.of_nat i < max_int64 -> comp_ok x -> comp_ok (candidate x i).
Proof.
  intros Hi [H1 H2 H3 Hx]. pose proof (candidate_free slash x i Hi eq_refl eq_refl Hx) as Hf. destruct i as [|i]; [done |]. unfold candidate in *.
  assert (Hu : forall a b, a +:+ "_" +:+ b <> "" /\ a +:+ "_" +:+ b <> "." /\ a +:+ "_" +:+ b <> "..").
  { intros a b. destruct a as [|c1 [|c2 a]]; rewrite ?str_app_cons; split_and!; try done. intros [= _ E]. by destruct a. }
  split; [apply Hu .. | done].
Qed.
Lemma snoc_not_nil {A} (l : list A) x : (l ++ [x])%list <> [].
Proof. by destruct l. Qed.
Lemma comps_snoc l y : Forall comp_ok l -> comp_ok y -> Forall comp_ok (l ++ [y]).
Proof. intros Hl Hy. apply Forall_app_2; [done |]. by apply Forall_singleton. Qed.
Lemma cut_first d t : free slash d -> cut_slash (d +:+ String slash t) = (d, t).
Proof.
  intros Hd. unfold cut_slash, index_byte. assert (E : index_byte_where (Ascii.eqb slash) (d +:+ String slash t) = Some (String.length d)).
  { unfold free, index_byte in Hd. induction d as [|c d IH]; [done |]. rewrite str_app_cons. cbn [index_byte_where String.length] in *.
    destruct (Ascii.eqb slash c); [done |]. destruct (index_byte_where _ d); [done |]. by rewrite IH. }
  by rewrite E, stake_front, sdrop_past.
Qed.
Lemma abs_snoc l y : l <> [] -> abs (l ++ [y]) = abs l +:+ String slash y.
Proof. intros Hl. unfold abs. rewrite join_app by done. by rewrite !str_app_assoc. Qed.
Lemma base_abs l y : comp_ok y -> path_base (abs (l ++ [y])) = y.
Proof.
  intros [H1 _ _ H4]. destruct l as [|x l]; [exact (base_below "" y H1 H4) |]. rewrite abs_snoc by done. exact (base_below _ y H1 H4).
Qed.
Lemma abs_ends l y : Forall comp_ok l -> comp_ok y -> has_suffix (abs (l ++ [y])) "/" = false.
Proof. intros Hl Hy. apply no_suffix_slash; [by destruct l | by apply comps_snoc]. Qed.
Lemma candidate_longer x i : candidate x i = x \/ (String.length (path_ext x) < String.length (candidate x i))%nat.
Proof. destruct i as [|i]; [by left | right]. unfold candidate. rewrite !str_length_app. cbn. lia. Qed.
(** A part keeps being a video under its name in the bin. *)
Lemma video_candidate `{Unicode} l l' x i : Forall comp_ok l -> Forall comp_ok l' -> comp_ok x -> Z.of_nat i < max_int64 ->
  isVideoFile (abs (l ++ [x])) = true -> isVideoFile (abs (l' ++ [candidate x i])) = true.
Proof.
  intros Hl Hl' Hx Hi. assert (Hy := candidate_comp x i Hi Hx). unfold isVideoFile. rewrite !abs_ends, !base_abs by done.
  change (String.eqb (abs (l ++ [x])) "") with false. change (String.eqb (abs (l' ++ [candidate x i])) "") with false. cbn [orb].
  destruct (path_ext x) as [|c e] eqn:Ee; [done |]. rewrite <- Ee. assert (Hne : path_ext x <> "") by by rewrite Ee. rewrite candidate_ext by done. clear Ee c e.
  destruct (_ <? 2)%nat eqn:E2; [done |]. cbn [orb]. destruct (Nat.eqb_spec (String.length (path_ext x)) (String.length x)) as [|Hn]; [done |].
  destruct (Nat.eqb_spec (String.length (path_ext x)) (String.length (candidate x i))) as [E|]; [| done].
  destruct (candidate_longer x i) as [Ec|Hc]; [rewrite Ec in E; lia | lia].
Qed.
(** Where a move into the bin puts a part. *)
Lemma recorded_path bin ymd c pre x i : is_abs bin = true -> Forall comp_ok c -> path_clean bin = abs c -> Forall comp_ok pre -> comp_ok x -> Z.of_nat i < max_int64 ->
  let rel := path_join (format_day ymd) (join "/" (pre ++ [x])) in
  path_join (path_join bin (path_dir rel)) (candidate (path_base rel) i) = abs (c ++ format_day ymd :: pre ++ [candidate x i]).
Proof.
  intros Hb Hc Ec Hp Hx Hi. pose proof (day_comp ymd) as Hd. set (day := format_day ymd) in *.
  assert (Hpx : Forall comp_ok (pre ++ [x])) by by apply comps_snoc. assert (Hdp : Forall comp_ok (day :: pre)) by by constructor.
  assert (Erel : path_join day (join "/" (pre ++ [x])) = join "/" ((day :: pre) ++ [x])).
  { unfold path_join. rewrite (proj2 (String.eqb_neq day "")) by apply Hd. rewrite (proj2 (String.eqb_neq _ _) (join_not_empty _ (snoc_not_nil pre x) Hpx)).
    change (day +:+ "/" +:+ join "/" (pre ++ [x])) with (join "/" [day] +:+ "/" +:+ join "/" (pre ++ [x])).
    rewrite <- join_app; [| done | apply snoc_not_nil]. apply clean_rel; [done | by constructor]. }
  cbv zeta. rewrite Erel, dir_below by done. rewrite (join_app (day :: pre) [x]) by done.
  change ("/" +:+ join "/" [x]) with (String slash x). rewrite base_below by apply Hx. assert (Hy := candidate_comp x i Hi Hx). rewrite (join_below bin c (day :: pre)) by done.
  assert (Hcd : Forall comp_ok (c ++ day :: pre)) by by apply Forall_app.
  change (candidate x i) with (join "/" [candidate x i]) at 1. rewrite (join_below (abs (c ++ day :: pre)) (c ++ day :: pre) [candidate x i]);
    [by rewrite <- app_assoc | apply abs_is_abs | done | exact (clean_normal _ Hcd) | done | by apply Forall_singleton].
Qed.
(** It is what a restore looks for. *)
Lemma recorded_part `{Unicode} bin ymd c l pre x i : Forall comp_ok c -> path_clean bin = abs c ->
  Forall comp_ok l -> Forall comp_ok pre -> comp_ok x -> Z.of_nat i < max_int64 ->
  isVideoFile (abs (l ++ pre ++ [x])) = true -> isRecycledPart bin (abs (c ++ format_day ymd :: pre ++ [candidate x i])) = true.
Proof.
  intros Hc Ec Hl Hp Hx Hi Hv. pose proof (day_comp ymd) as Hd. set (day := format_day ymd) in *. assert (Hy := candidate_comp x i Hi Hx).
  assert (Hr : Forall comp_ok (day :: pre ++ [candidate x i])) by (constructor; [done | by apply comps_snoc]).
  unfold isRecycledPart. rewrite (rel_below bin c (day :: pre ++ [candidate x i])); [| done | done | done | done |].
  2:{ apply clean_normal, Forall_app. by split. }
  rewrite local_rel by done. cbn [andb]. rewrite join_cons by apply snoc_not_nil. rewrite cut_first by apply Hd.
  rewrite (proj2 (String.eqb_neq _ _) (join_not_empty (pre ++ [candidate x i]) (snoc_not_nil _ _) (comps_snoc _ _ Hp Hy))).
  rewrite (day_matches ymd : re_match reRecycleDay day = true). cbn [negb andb]. rewrite app_assoc in Hv.
  change (c ++ day :: pre ++ [candidate x i])%list with (c ++ (day :: pre) ++ [candidate x i])%list. rewrite app_assoc.
  apply (video_candidate (l ++ pre)); try done; apply Forall_app; split; try done. by constructor.
Qed.

(** ** Removed, recorded, restored *)

Section recorded.
Context (ft : faults) (op : opener) (bin day : string).

(** The entry a part of the plan is recorded as. *)
Definition recorded (f : fsFile) (e : entry) : Prop := exists i, Z.of_nat i < max_int64 /\
  let rel := path_join day (ff_rel f) in
  en_path e = path_join bin (path_dir rel) /\ en_name e = candidate (path_base rel) i.

Lemma unique_shape d path name i n s nm : fst (unique_from ft d path name i n s) = Ok nm -> exists j, nm = candidate name j /\ (j < i + n)%nat.
Proof.
  revert i s. induction n as [|n IH]; intros i s; [done |]. cbn [unique_from]. unfold fbind. destruct (lstat ft _ s) as [r s1].
  destruct r as [nd|[]]; try done.
  - intros (j & -> & Hj)%IH. exists j. split; [done | lia].
  - intros [= <-]. exists i. split; [done | lia].
Qed.
Lemma failed_not_done mv done s ms : fst (failed_after mv done s) = FsDone ms -> False.
Proof. unfold failed_after, fbind. by destruct (roll_back mv done s). Qed.
Lemma recycle_recorded l done s ms : fst (recycle_parts ft op bin day l done s) = FsDone ms ->
  exists ms', ms = (map snd (rev done) ++ ms')%list /\ Forall2 (fun fe e => recorded (fst fe) e) l ms'.
Proof.
  revert done s. induction l as [|[f src] l IH]; intros done s; cbn [recycle_parts].
  { intros [= <-]. exists []. by rewrite app_nil_r. }
  destruct (negb _); [by intros ?%failed_not_done |]. unfold fbind at 1. destruct (op_dest op bin _ s) as [[d|] s1]; [| by intros ?%failed_not_done].
  unfold fbind at 1. destruct (uniqueName ft d _ _ s1) as [[name|e] s2] eqn:Eu; [| by intros ?%failed_not_done].
  unfold fbind at 1. destruct (moveEntry ft src _ _ s2) as [[[]|e] s3]; [| by intros ?%failed_not_done].
  intros (ms' & -> & Hf)%IH. clear IH. eexists (_ :: ms'). split; [cbn [rev]; by rewrite map_app, <- app_assoc |]. constructor; [| done].
  apply (f_equal fst) in Eu. apply unique_shape in Eu as (j & -> & Hj). exists j. split; [unfold max_int64; lia | done].
Qed.
Lemma open_same_length l s es : fst (open_parts ft op l s) = Some es -> length es = length l.
Proof.
  revert s es. induction l as [|f l IH]; intros s es; cbn [open_parts]; [by intros [= <-] |]. unfold fbind at 1.
  destruct (openPlannedPart ft op f s) as [[e|] s1]; [| done]. unfold fbind. specialize (IH s1). destruct (open_parts ft op l s1) as [[r|] s2]; [| done].
  cbn in *. intros [= <-]. cbn. f_equal. by apply IH.
Qed.
Lemma perform_recorded plan s ms : fp_bin plan = bin -> bin <> "" -> fst (performFS ft op day plan s) = FsDone ms -> Forall2 recorded (fp_files plan) ms.
Proof.
  intros Eb Hb. unfold performFS. rewrite Eb. unfold fbind at 1. destruct (open_parts ft op (fp_files plan) s) as [[srcs|] s1] eqn:Eo; [| done].
  rewrite (proj2 (String.eqb_neq _ _) Hb). unfold fbind. destruct (op_bin op s1) as [[] s2]; [| done].
  intros (ms' & -> & Hf)%recycle_recorded. cbn. assert (E : (zip (fp_files plan) srcs).*1 = fp_files plan) by (apply fst_zip; apply (f_equal fst), open_same_length in Eo; by rewrite Eo).
  rewrite <- E. by apply Forall2_fmap_l.
Qed.
End recorded.
Lemma line_free s : contains_line_break s = false -> free "010"%char s.
Proof.
  unfold contains_line_break, free, index_byte. intros Hn. apply bool_decide_eq_false in Hn. induction s as [|c s IH]; [done |]. cbn [index_byte_where] in *.
  rewrite Ascii.eqb_sym. destruct (Ascii.eqb c "010"%char); [by destruct Hn |]. cbn [orb] in Hn. destruct (Ascii.eqb c "013"%char); [by destruct Hn |].
  rewrite IH; [done |]. intros [i Hi]. destruct Hn. by rewrite Hi.
Qed.
Lemma free_abs b l : Forall comp_ok l -> free b (abs l) -> Forall (free b) l.
Proof.
  intros Hl Hf. destruct l as [|x l]; [done |]. apply free_app in Hf as [_ Hf]. apply Forall_forall. intros y Hy.
  apply (split_free slash b (join "/" (x :: l)) "" Hf); [done |]. by rewrite split_comps.
Qed.
Lemma abs_free b l : b <> slash -> Forall (free b) l -> free b (abs l).
Proof. intros Hb Hl. apply free_app. split; [by apply free_cons | by apply free_join]. Qed.
Lemma day_free ymd : free "010"%char (format_day ymd).
Proof.
  destruct ymd as [[y m] d]. unfold format_day. assert (Hd : forall x s, free "010"%char s -> free "010"%char (String (day_digit x) s)).
  { intros x s Hs. apply free_cons. split; [| done]. intros E. pose proof (day_digit_digit x) as Hx. by rewrite <- E in Hx. }
  repeat (apply Hd || (apply free_cons; split; [done |])). done.
Qed.

(** One part: where it came from, what is recorded. *)
Lemma part_recorded `{Unicode} bin ymd root f e : is_abs bin = true -> free "010"%char bin -> isWithin (ff_resolved f) root = true -> path_rel root (ff_resolved f) = Some (ff_rel f) ->
  path_clean (ff_resolved f) = ff_resolved f -> isVideoFile (ff_resolved f) = true -> contains_line_break (ff_resolved f) = false ->
  recorded bin (format_day ymd) f e -> isRecycledPart bin (entry_path e) = true /\ free "010"%char (entry_path e).
Proof.
  intros Hb Hbf Hw Hrel Hcl Hv Hlf (i & Hi & Ep & En). destruct (rel_within _ _ Hw) as (c0 & r & Hne & Hc0 & Hr & _ & Ea & Er & _).
  rewrite Hrel in Er. injection Er as Er. rewrite Hcl in Ea. destruct (exists_last Hne) as (pre & x & ->). apply Forall_app in Hr as [Hpre Hx]. rewrite Forall_singleton in Hx.
  destruct (clean_abs bin Hb) as (c & Hc & Ec). unfold entry_path. rewrite Ep, En, Er. rewrite (recorded_path bin ymd c pre x i Hb Hc Ec Hpre Hx Hi).
  split; [rewrite Ea in Hv; exact (recorded_part bin ymd c c0 pre x i Hc Ec Hc0 Hpre Hx Hi Hv) |]. apply line_free in Hlf. rewrite Ea in Hlf.
  apply free_abs in Hlf; [| by apply Forall_app; split; [| apply comps_snoc]]. apply Forall_app in Hlf as [_ [Hfp Hfx]%Forall_app]. rewrite Forall_singleton in Hfx.
  assert (Hcf : Forall (free "010"%char) c).
  { apply has_prefix_slash in Hb as [t ->]. change (String slash t) with ("/" +:+ t) in *. apply free_app in Hbf as [_ Hbf].
    rewrite clean_rooted in Ec. injection Ec as Ec. apply join_inj in Ec as <-; [| apply rcomps_ok | done]. by apply rcomps_free. }
  apply abs_free; [done |]. apply Forall_app. split; [done |]. constructor; [apply day_free |]. apply Forall_app. split; [done |]. apply Forall_singleton.
  by apply candidate_free.
Qed.

(** C32: What is moved into the bin can be found again: the paths a removal records split back into
    one per file, and a restore recognises each as a dated video inside the bin (provided
    symbolic links resolve to clean absolute paths and the bin's own path has no line break). *)
Theorem recycled_parts_restorable `{Unicode} message pe cf libs g v lv vr c p ft op ymd recheck answered left measured gone s m recycled :
  eval_resolves pe -> choice_ok pe cf libs g v lv vr c -> ch_plan c = FilesPlan p -> ch_permanent c = false -> contains_line_break (fp_bin p) = false ->
  fst (perform message ft op (format_day ymd) c recheck answered left measured gone s) = PDone m recycled ->
  length (split_byte "010"%char recycled) = length (fp_files p) /\
  Forall (fun r => isRecycledPart (fp_bin p) r = true) (split_byte "010"%char recycled).
Proof.
  intros He Hc Ep Hperm Hlb. unfold choice_ok in Hc. rewrite Ep in Hc. destruct Hc as (_ & _ & _ & Hne & Hfiles & Hbin).
  destruct (blank _); [by destruct Hbin; congruence |]. destruct Hbin as (_ & [Hrun _] & _).
  assert (Hb : is_abs (fp_bin p) = true).
  { apply bin_resolved in Hrun. by apply existing_abs in Hrun as [? _]. }
  unfold perform. rewrite Ep. unfold fbind. pose proof (perform_recorded ft op (fp_bin p) (format_day ymd) p s) as Hp.
  destruct (performFS ft op (format_day ymd) p s) as [[| |ms] s']; try done. cbn [fst fret moved_result] in *. intros [= _ <-].
  specialize (Hp ms eq_refl ltac:(by intros E; rewrite E in Hb) eq_refl).
  assert (Hall : Forall (fun e => isRecycledPart (fp_bin p) (entry_path e) = true /\ free "010"%char (entry_path e)) ms).
  { clear - Hp Hfiles He Hb Hlb. revert Hfiles. generalize (verified_sizes (mv_parts v) (match lv with Some l => vv_parts l | None => [] end)).
    induction Hp as [|f e fs es Hr Hp IH]; intros l Hfiles; [by constructor |]. inversion Hfiles as [|part ? l' ? Hf Hfs]; subst.
    constructor; [| by eapply IH]. destruct Hf as (local & fi & id & _ & _ & _ & Hev & [_ Hw _ Hrel _ _ Hl] & Hv & _).
    apply (part_recorded (fp_bin p) ymd (ff_root f) f); try done; [by apply line_free | by eapply He]. }
  pose proof (Forall2_length _ _ _ Hp) as Hlen. destruct ms as [|e0 ms]; [by destruct (fp_files p) |].
  unfold line_feed. rewrite split_join; [| done |].
  - split; [by rewrite length_map |]. apply Forall_map. eapply Forall_impl; [exact Hall |]. by intros e [? _].
  - intros x Hx. apply list_elem_of_fmap in Hx as (e & -> & He'). rewrite Forall_forall in Hall. by apply Hall.
Qed.

(** ** Restoring *)

Section restores.
Context `{Unicode} (pe : plan_env) (cf : config).

(** A move of a restore: out of a dated folder of the bin, to a free place inside a mapped
    root and a library folder of the server. *)
Record move_ok (bin : string) (roots libDirs : list string) (m : restoreMove) : Prop := {
  mo_from : path_rel bin (rm_from m) = Some (rm_from_rel m);
  mo_local : is_local (rm_from_rel m) = true;
  mo_day : exists day rest, cut_slash (rm_from_rel m) = (day, rest) /\ rest <> "" /\ re_match reRecycleDay day = true;
  mo_root : rm_to_root m ∈ roots;
  mo_within : isWithin (rm_to m) (rm_to_root m) = true;
  mo_library : exists d, d ∈ libDirs /\ isWithin (rm_to m) d = true;
  mo_share : unraidShareMix (rm_from m) (rm_to m) = false;
}.
(** A file goes back to where its recorded path was, as the video it is, its recorded path free. *)
Definition file_back (bin : string) (sid : Z) (part : string * string) (m : restoreMove) : Prop :=
  pe_eval pe (path_clean (trim_space (fst part))) = Got (rm_from m) /\ isWithin (rm_from m) bin = true /\ isVideoFile (rm_from m) = true /\
  isVideoFile (rm_to m) = true /\ path_rel (rm_to_root m) (rm_to m) = Some (rm_to_rel m) /\ is_local (rm_to_rel m) = true /\
  exists orig, ToLocal (cf_mapper cf) PathSourceServer sid (snd part) = Some orig /\ pe_lstat pe orig = NotFound /\ resolveExisting pe orig = Some (rm_to m).
(** A folder (or image) of the disc: where a path the removal recorded leads now. *)
Definition disc_root (sid : Z) (paths : list string) (r : string) : Prop :=
  exists p local, p ∈ paths /\ ToLocal (cf_mapper cf) PathSourceServer sid p = Some local /\ is_abs local = true /\ r = path_clean local.
(** Where a removal finds an entry of the disc at [r]: [r] itself, a set folder or a bundle, or an
    image; or a disc entry directly inside [r]. *)
Definition disc_place (orig : string) (dir : bool) (r : string) : Prop :=
  let base := path_base orig in
  (orig = r /\ dir = true /\ (is_Some (IsSetFolderName base) \/ has_suffix (to_lower base) ".dvdmedia" = true)) \/
  (orig = r /\ dir = false /\ IsImagePath base = true) \/
  (path_dir orig = r /\ IsDiscEntryName base = true /\ IsImagePath base = false).
(** An entry of a disc, a plain folder or a file, goes back below the mapped root it came from, to the
    place of the disc's folders it had; a whole folder of the disc still holds a disc. *)
Definition entry_back (of_disc : string -> Prop) (rp : string) (m : restoreMove) : Prop :=
  exists fi, pe_lstat pe (path_clean (trim_space rp)) = Got fi /\ is_symlink fi = false /\ is_dir fi || is_regular fi = true /\
  (exists parent, pe_eval pe (path_dir (path_clean (trim_space rp))) = Got parent /\ rm_from m = path_join parent (path_base (path_clean (trim_space rp)))) /\
  pe_lstat pe (rm_to m) = NotFound /\ rm_to m = path_join (rm_to_root m) (rm_to_rel m) /\ snd (cut_slash (rm_from_rel m)) = rm_to_rel m /\
  (exists r, of_disc r /\ disc_place (path_clean (rm_to m)) (is_dir fi) r) /\
  (is_dir fi = true -> plainTree pe (rm_from m) = true /\ (of_disc (path_clean (rm_to m)) -> holdsDiscEntry pe (rm_from m) = true)).

Lemma restore_target orig dir roots : discRestoreTarget orig dir roots = true -> exists r, r ∈ roots /\ disc_place (path_clean orig) dir r.
Proof.
  unfold discRestoreTarget. intros (r & Hr & Hx)%existsb_elem. exists r. split; [done |]. unfold disc_place.
  destruct (String.eqb_spec (path_clean orig) r) as [E|E]; cbn [andb] in Hx.
  - destruct dir; [left | right; left]; split_and!; try done.
    apply orb_true_iff in Hx as [Hx%bool_decide_eq_true|Hx]; auto.
  - right; right. bools. done.
Qed.

Lemma recycled_inv bin p : isRecycledPart bin p = true -> exists rel day rest, path_rel bin p = Some rel /\ is_local rel = true /\
  cut_slash rel = (day, rest) /\ rest <> "" /\ re_match reRecycleDay day = true /\ isVideoFile p = true.
Proof.
  unfold isRecycledPart. destruct (path_rel bin p) as [rel|]; [| done]. destruct (cut_slash rel) as [day rest] eqn:Ec. intros Hr. bools.
  exists rel, day, rest. split_and!; try done. by apply String.eqb_neq.
Qed.
Lemma file_move_spec bin roots sid libDirs part m : file_move pe cf bin roots sid libDirs part = inr m ->
  move_ok bin roots libDirs m /\ file_back bin sid part m.
Proof.
  unfold file_move. intros Hm. guards Hm. injection Hm as <-. bools.
  match goal with Hr : isRecycledPart _ _ = true |- _ => destruct (recycled_inv _ _ Hr) as (rel & day & rest & Hrel & Hl & Hc & Hn & Hd & Hv) end.
  match goal with Hr : String.eqb (rootOf ?p ?rs) "" = false |- _ => destruct (root_of_spec p rs (proj1 (String.eqb_neq _ _) Hr)) as [Hin Hw] end.
  assert (s2 = rel) as -> by congruence.
  split; [split | split_and!]; cbn; try done; [by exists day, rest | by apply in_library | by eexists; split_and!].
Qed.
Lemma disc_move_spec bin roots discRoots libDirs rp m : disc_move pe bin roots discRoots libDirs rp = inr m ->
  move_ok bin roots libDirs m /\ entry_back (fun r => r ∈ discRoots) rp m.
Proof.
  unfold disc_move. set (q := path_clean (trim_space rp)). destruct (pe_lstat pe q) as [| |fi] eqn:Elq; try done. destruct (is_symlink fi || _) eqn:Ek; [done |].
  destruct (pe_eval pe (path_dir q)) as [| |parent] eqn:Ev; try done. cbv zeta. set (from := path_join parent (path_base q)).
  destruct (path_rel bin from) as [rel|] eqn:Er; [| done]. destruct (is_local rel) eqn:El; [| done]. cbn [negb]. destruct (cut_slash rel) as [day inner] eqn:Ec.
  destruct (String.eqb inner "" || negb (re_match reRecycleDay day)) eqn:Ed; [done |]. destruct (disc_origin _ _ _ _) as [[root orig]|] eqn:Eo; [| done].
  destruct (pe_lstat pe orig) eqn:Elo; try done. destruct (is_dir fi && negb (plainTree pe from)) eqn:Et; [done |]. destruct (is_dir fi && mem _ _ && _) eqn:Eh; [done |].
  destruct (inLibraryFolder orig libDirs) eqn:Ei; [| done]. destruct (unraidShareMix from orig) eqn:Es; [done |]. intros [= <-]. bools.
  apply find_some in Eo as [Hin Hw]. apply in_map_iff in Hin as (root' & E & Hin). injection E as <- <-. cbn [fst snd] in Hw. bools.
  split; [split; cbn; try done | exists fi; split_and!; cbn; try done].
  - exists day, inner. split_and!; [done | by apply String.eqb_neq | done].
  - by apply list_elem_of_In.
  - by apply in_library.
  - by exists parent.
  - by rewrite Ec.
  - by apply restore_target.
  - intros Hd. rewrite Hd in *. split; [destruct Et; by bools |]. intros Hm%mem_true. rewrite Hm in Eh. destruct Eh as [Eh|Eh%negb_false_iff]; [cbn in Eh; discriminate Eh | exact Eh].
Qed.
Lemma disc_roots_spec sid paths r :
  r ∈ omap (fun p => match ToLocal (cf_mapper cf) PathSourceServer sid p with
                     | Some l => if is_abs l then Some (path_clean l) else None
                     | None => None end) paths <-> disc_root sid paths r.
Proof.
  rewrite list_elem_of_omap. unfold disc_root. split.
  - intros (p & Hp & Hx). destruct (ToLocal _ _ _ p) as [l|] eqn:El; [| done]. destruct (is_abs l) eqn:Ea; [| done]. injection Hx as <-. by exists p, l.
  - intros (p & l & Hp & El & Ea & ->). exists p. by rewrite El, Ea.
Qed.
Lemma entry_back_iff (P Q : string -> Prop) rp m : (forall r, P r <-> Q r) -> entry_back P rp m -> entry_back Q rp m.
Proof.
  intros HPQ (fi & H1 & H2 & H3 & H4 & H5 & H6 & H7 & (r & Hr & Hp) & H8). exists fi. split_and!; try done.
  - exists r. by rewrite <- HPQ.
  - intros Hd. destruct (H8 Hd) as [? Hq]. split; [done |]. by rewrite <- HPQ.
Qed.
Lemma all_moves_spec {A} (P : restoreMove -> Prop) (Q : A -> restoreMove -> Prop) (f : A -> restore_problem + restoreMove) l ms :
  (forall x m, f x = inr m -> P m /\ Q x m) -> all_moves f l = inr ms -> Forall P ms /\ Forall2 Q l ms.
Proof.
  intros Hf. revert ms. induction l as [|x l IH]; intros ms; cbn [all_moves]; [by intros [= <-]; split; constructor |].
  destruct (f x) as [|m] eqn:E; [done |]. destruct (all_moves f l) as [|ms']; [done |]. intros [= <-].
  destruct (Hf _ _ E), (IH ms' eq_refl). by split; constructor.
Qed.
End restores.

(** C31: A restore is as confined as a removal: only a completed removal into the bin is restored,
    from the validated bin that carries its marker; every recorded part is moved, from a dated
    folder inside the bin to a free place inside a mapped root and a library folder of the
    server the version belonged to, a file to where its own recorded path
    leads; of a disc, an entry goes to its place in the disc the removal recorded: one of the
    folders (or the image) its recorded paths lead to, or a disc entry directly inside one. *)
Theorem restores_confined `{Unicode} pe cf libs a g bin disc moves : plan_restore pe cf libs a g = inr (bin, disc, moves) ->
  let roots := resolvedRoots pe (cf_mappings cf) in
  let sid := restore_server a g in
  let libDirs := serverLibraryFolders pe libs (cf_mapper cf) sid in
  ac_status a = ActionSucceeded /\ ac_dry_run a = false /\ ac_method a = MethodFilesystem /\ sid <> 0 /\
  validateRecycleBin pe (st_recycle_bin_path (cf_settings cf)) roots (cf_mappings cf) (libraryFolders pe libs (cf_mapper cf)) = inr bin /\
  hasBinMarker pe bin = Some true /\ disc = isDiscAction a g /\ Forall (move_ok bin roots libDirs) moves /\
  (disc = false -> length moves = length (ac_paths a) /\
     Forall2 (file_back pe cf bin sid) (combine (split_byte "010"%char (ac_recycle_path a)) (ac_paths a)) moves) /\
  (disc = true -> Forall2 (entry_back pe (disc_root cf sid (ac_paths a))) (split_byte "010"%char (ac_recycle_path a)) moves).
Proof.
  unfold plan_restore. destruct (_ || ac_dry_run a) eqn:E1; [done |]. destruct (negb (String.eqb (ac_method a) _)) eqn:E2; [done |].
  destruct (blank (ac_recycle_path a)); [done |]. cbv zeta. destruct (negb (isDiscAction a g) && _) eqn:E3; [done |].
  destruct (validateRecycleBin _ _ _ _ _) as [|b] eqn:E4; [done |]. destruct (hasBinMarker pe b) as [[]|] eqn:E5; try done.
  destruct (Z.eqb_spec (restore_server a g) 0) as [|E6]; [done |]. intros Hm.
  destruct (if isDiscAction a g then _ else _) as [|ms] eqn:E7; [done |]. injection Hm as <- <- <-.
  apply orb_false_iff in E1 as [E1 E1']. bools. split; [done |]. split; [done |]. split; [done |]. split; [done |]. split; [done |]. split; [done |]. split; [done |].
  destruct (isDiscAction a g).
  - unfold discRestoreMoves in E7. destruct (omap _ (ac_paths a)) as [|x xs] eqn:Ex; [done |].
    apply (all_moves_spec _ _ _ _ _ (disc_move_spec pe b _ _ _)) in E7 as [Hm Hb]. split_and!; [done | done | intros _].
    eapply Forall2_impl; [exact Hb |]. intros rp m. apply entry_back_iff. intros r. rewrite <- Ex. apply disc_roots_spec.
  - apply (all_moves_spec _ _ _ _ _ (file_move_spec pe cf b _ _ _)) in E7 as [Hm Hb]. pose proof (Forall2_length _ _ _ Hb) as Hlen.
    destruct E3 as [E3|E3]; [done |]. bools. rewrite length_combine, E3, Nat.min_id in Hlen.
    by split_and!.
Qed.

Lemma cancelled_row_kept now from msg cond s id r : sd_groups s !! id = Some r -> row_status r <> GroupQueued ->
  sd_groups (fst (cancelActions now from msg cond s)) !! id = Some r.
Proof.
  intros Hr Hn. unfold cancelActions. cbn. rewrite map_lookup_imap. cbn. rewrite Hr. cbn.
  by rewrite (proj2 (String.eqb_neq _ _) Hn), andb_false_r.
Qed.
Lemma ignored_row `{Unicode} now fails id s s1 : ignoreRestored now fails id s = (s1, true) ->
  sstep s s1 /\ exists r, sd_groups s1 !! id = Some r /\ row_status r = GroupIgnored.
Proof.
  unfold ignoreRestored. destruct fails; [done |]. destruct (UpdateStatusIf _ _ _ _ _ _) as [e|[s' b]] eqn:E; [done |]. intros [= -> ->].
  split; [exact (st_status_if _ _ _ _ _ _ _ _ E) |]. unfold UpdateStatusIf in E. cbn [ignore_from] in E. destruct (negb (validGroupStatus GroupIgnored)); [done |].
  destruct (negb (forallb _ _)); [done |]. destruct (sd_groups s !! id) as [r|]; [| done]. destruct (mem (row_status r) _); [| by injection E]. injection E as <-.
  exists (touch now (with_status GroupIgnored restoredIgnoreReason r)). split; [| done]. unfold afterStatusChange.
  change (statusBlocksRemovals GroupIgnored) with true. cbv beta iota. unfold cancelPendingActions, cancelPending.
  apply cancelled_row_kept; [| done]. cbn. by rewrite lookup_insert_eq.
Qed.
Lemma ignore_step `{Unicode} now fails id s : rtc sstep s (fst (ignoreRestored now fails id s)).
Proof.
  unfold ignoreRestored. destruct fails; [done |]. destruct (UpdateStatusIf _ _ _ _ _ _) as [e|[s' b]] eqn:E; [done |]. exact (rtc_once _ _ (st_status_if _ _ _ _ _ _ _ _ E)).
Qed.

(** What was restored is not removed again: recording a restore keeps the database in its
    reachable states, and when the group could be ignored it is ignored afterwards, with no
    removal of it pending. *)
Theorem restored_not_removed_again `{Unicode} now message ignore_fails update_fails a g s : sreachable s -> ac_status a = ActionSucceeded ->
  let '(s', ignored) := afterRestore now message ignore_fails update_fails a g s in
  sreachable s' /\ (ignored = true -> exists g0 r, g = Some g0 /\ sd_groups s' !! xg_id g0 = Some r /\ row_status r = GroupIgnored /\
    forall i b, sd_actions s' !! i = Some b -> ac_group_id b = xg_id g0 -> ac_status b <> ActionPending).
Proof.
  intros Hs Ha. unfold afterRestore. set (s1ig := match g with Some g0 => ignoreRestored now ignore_fails (xg_id g0) s | None => (s, false) end).
  assert (H1 : rtc sstep s (fst s1ig)) by (subst s1ig; destruct g; [apply ignore_step | done]).
  assert (H2 : snd s1ig = true -> exists g0 r, g = Some g0 /\ sd_groups (fst s1ig) !! xg_id g0 = Some r /\ row_status r = GroupIgnored).
  { subst s1ig. destruct g as [g0|]; [| done]. destruct (ignoreRestored _ _ _ _) as [s1 []] eqn:E; [| done]. intros _. apply ignored_row in E as [_ (r & Hr & Hst)].
    by exists g0, r. }
  destruct s1ig as [s1 ig]. cbn [fst snd] in *. set (s2 := if update_fails then s1 else _).
  assert (Hg : sd_groups s2 = sd_groups s1).
  { subst s2. destruct update_fails; [done |]. unfold UpdateAction. cbn [with_restored ac_status ac_id]. rewrite Ha. change (mem ActionSucceeded knownActionStatuses) with true. cbn [negb].
    destruct (sd_actions s1 !! ac_id a) as [old|]; [| done]. destruct (negb (checkActionTransition _ _)); done. }
  assert (Hr2 : sreachable s2).
  { unfold sreachable in *. etrans; [exact Hs |]. etrans; [exact H1 |]. subst s2. destruct update_fails; [done |]. by apply rtc_once, st_update. }
  split; [done |]. intros (g0 & r & -> & Hr & Hst)%H2. exists g0, r. rewrite Hg. split_and!; [done | done | done |].
  intros i b Hb Hid Hp. pose proof (so_pending _ (sreachable_ok _ Hr2) _ _ Hb Hp) as Ht. unfold target_current in Ht. rewrite Hid, Hg, Hr in Ht.
  unfold row_targets in Ht. by rewrite Hst in Ht.
Qed.

(** ** Retention *)

(** The calendar: the day after a day has the next number. *)
Definition next_day (ymd : Z * Z * Z) : Z * Z * Z :=
  let '(y, m, d) := ymd in
  if d <? days_in y m then (y, m, d + 1) else if m <? 12 then (y, m + 1, 1) else (y + 1, 1, 1).
Lemma div_step y k : 0 < k -> y / k = (y - 1) / k + (if y mod k =? 0 then 1 else 0).
Proof.
  intros Hk. pose proof (Z.div_mod y k ltac:(lia)) as E. pose proof (Z.mod_pos_bound y k Hk) as Hr. destruct (Z.eqb_spec (y mod k) 0).
  - assert (y / k - 1 = (y - 1) / k) by (apply Z.div_unique with (k - 1); [lia | nia]). lia.
  - assert (y / k = (y - 1) / k) by (apply Z.div_unique with (y mod k - 1); [lia | nia]). lia.
Qed.
Lemma leap_days y : y / 4 - y / 100 + y / 400 = (y - 1) / 4 - (y - 1) / 100 + (y - 1) / 400 + (if is_leap y then 1 else 0).
Proof.
  rewrite (div_step y 4), (div_step y 100), (div_step y 400) by lia. unfold is_leap.
  destruct (Z.eqb_spec (y mod 4) 0), (Z.eqb_spec (y mod 100) 0), (Z.eqb_spec (y mod 400) 0); cbn [andb orb negb]; try lia; Z.to_euclidean_division_equations; lia.
Qed.
Lemma day_number_next y m d : 1 <= m <= 12 -> 1 <= d <= days_in y m -> day_number (next_day (y, m, d)) = day_number (y, m, d) + 1.
Proof.
  intros Hm Hd. assert (Hcase : m = 1 \/ m = 2 \/ m = 3 \/ m = 4 \/ m = 5 \/ m = 6 \/ m = 7 \/ m = 8 \/ m = 9 \/ m = 10 \/ m = 11 \/ m = 12) by lia.
  unfold next_day. destruct (Z.ltb_spec d (days_in y m)).
  { unfold day_number. cbv zeta. destruct (m <=? 2); lia. }
  assert (Ed : d = days_in y m) by lia. subst d. clear Hd H. pose proof (leap_days y) as Hl.
  assert (Hb : exists b, is_leap y = b) by by eexists. destruct Hb as [b Eb]. rewrite Eb in Hl. unfold days_in, day_number. rewrite Eb. cbv zeta.
  destruct Hcase as [-> | [-> | [-> | [-> | [-> | [-> | [-> | [-> | [-> | [-> | [-> | ->]]]]]]]]]]]; clear Eb; destruct b;
    repeat match goal with |- context [if ?c then _ else _] => let v := eval vm_compute in c in change c with v; cbv iota beta zeta end;
    repeat match goal with |- context [?a / 5] => let v := eval vm_compute in (a / 5) in change (a / 5) with v end; rewrite ?Z.add_simpl_r; lia.
Qed.

(** Emptying the bin removes exactly what expired: when retention is set and the
    validated bin carries its marker (also once opened), the real folders named by a valid date
    more than the retention before today whose removal succeeds, and nothing else. *)
Theorem only_expired_emptied `{Unicode} pe cf libs days today open removes removed name :
  CleanRecycleBin pe cf libs days today open removes = inr removed ->
  name ∈ removed <-> 0 < days /\ exists bin b names d s,
    validateRecycleBin pe (st_recycle_bin_path (cf_settings cf)) (resolvedRoots pe (cf_mappings cf)) (cf_mappings cf) (libraryFolders pe libs (cf_mapper cf)) = inr bin /\
    hasBinMarker pe bin = Some true /\ open bin = Got b /\ ob_marked b = Some true /\ ob_names b = Some names /\ name ∈ names /\
    parse_day name = Some d /\ day_number d < day_number today - days /\ ob_lstat b name = Got s /\ is_dir s = true /\ removes name = true.
Proof.
  intros Hc. split; [intros Hn | intros (Hd & bin & b & names & d & s & H1 & H2 & H3 & H4 & H5 & H6 & H7 & H8 & H9 & H10 & H11)]; unfold CleanRecycleBin in Hc.
  - revert Hc Hn. destruct (_ || (days <=? 0)) eqn:E1; [by intros [= <-] ?%elem_of_nil |]. destruct (validateRecycleBin _ _ _ _ _) as [|bin] eqn:E2; [done |].
    destruct (hasBinMarker pe bin) as [[]|] eqn:E3; try done; [| by intros [= <-] ?%elem_of_nil]. destruct (open bin) as [| |b] eqn:E4; try done; [by intros [= <-] ?%elem_of_nil |].
    destruct (ob_marked b) as [[]|] eqn:E5; try done. destruct (ob_names b) as [names|] eqn:E6; [| done]. intros [= <-] Hn. bools. split; [done |].
    apply list_elem_of_In, filter_In in Hn as [Hin Hc]. unfold clean_entry, expired in Hc. bools. destruct (parse_day name) as [d|] eqn:E7; [| done].
    destruct (ob_lstat b name) as [| |s] eqn:E8; try done. exists bin, b, names, d, s. split_and!; try done; [by apply list_elem_of_In | lia].
  - rewrite H1, H2, H3, H4, H5 in Hc. assert (Hb : blank (st_recycle_bin_path (cf_settings cf)) = false).
    { unfold validateRecycleBin in H1. unfold blank. by destruct (String.eqb (trim_space _) ""). }
    rewrite Hb, (proj2 (Z.leb_gt days 0)) in Hc by done. cbn [orb] in Hc. injection Hc as <-. apply list_elem_of_In, filter_In. split; [by apply list_elem_of_In |].
    unfold clean_entry, expired. rewrite H7, H9, H10, H11, (proj2 (Z.ltb_lt _ _) H8). done.
Qed.

(** * Concrete inputs *)

Import RecycleTheorems.Fixture.

(** A server's folder mapped to "/data/m", the bin next to it. *)
Definition fx_dir : Stat := {| sb_mode := ModeDir; sb_size := 0; sb_dev := 1; sb_ino := 1 |}.
Definition fx_regular (size ino : Z) : Stat := {| sb_mode := ModeRegular; sb_size := size; sb_dev := 1; sb_ino := ino |}.
Definition fx_node (p : string) : answer Stat :=
  if mem p ["/data/m"; "/data/m/Film"; "/data/bin"; "/data/bin/2026-07-01"] then Got fx_dir
  else if String.eqb p "/data/bin/.dupearr-recycle-bin" then Got (fx_regular 0 2)
  else if mem p ["/data/m/Film/a.mkv"; "/data/bin/2026-07-01/Film/b.mkv"] then Got (fx_regular 10 10)
  else match fx_stat p with Some fi => Got (fx_regular (fi_size fi) (fi_ino fi)) | None => NotFound end.
Definition fx_env : plan_env := {|
  pe_lstat := fx_node; pe_stat := fx_node;
  pe_eval := fun p => if is_abs p then match fx_node p with Got _ => Got (path_clean p) | _ => NotFound end else Failed;
  pe_read_dir := fun _ => Got []; pe_in_root := fun root rel => match fx_node (path_join root rel) with Got s => Some s | _ => None end;
  pe_tree := fun _ => None; pe_data_dir := "/config"; pe_client := fun _ => true; pe_deletes_versions := fun _ => false;
  pe_deletion_allowed := fun _ => None; pe_arr_client := fun _ => true; pe_arr_bin := fun _ => None |}.
Definition fx_libs : list LibraryFolders := [{| lf_server_id := 1; lf_locations := ["/m"] |}].
Definition fx_selecting : Methods := selecting (fun _ => fx_env) fx_libs fx_methods.
Lemma fx_eval : eval_resolves fx_env.
Proof.
  intros q r. cbn. destruct (is_abs q) eqn:Ha; [| done]. destruct (fx_node q); try done. intros [= <-].
  destruct (clean_clean q Ha). by split.
Qed.
Definition fx_small : MediaVersion := fx_version "plex:1:14" 14 "720p" "/m/Film/a.mkv" 10.
Definition fx_tracked : MediaVersion := fx_full "plex:1:14" 14 "720p" [fx_part "/m/Film/a.mkv" 10]
  (Some {| af_instance_id := 1; af_instance_name := "arr"; af_kind := ""; af_file_id := 5; af_item_id := 1; af_episode_ids := []; af_custom_format_score := None;
           af_edition := ""; af_tags := []; af_quality_cutoff_not_met := false; af_date_added := 0 |}) None [] [].
Definition fx_restored : Action := {|
  ac_id := 1; ac_group_id := 1; ac_group_file_id := 1; ac_version_key := "plex:1:14"; ac_title := "Film"; ac_paths := ["/m/Film/b.mkv"]; ac_size := 10;
  ac_method := MethodFilesystem; ac_status := ActionSucceeded; ac_dry_run := false; ac_message := "";
  ac_recycle_path := "/data/bin/2026-07-01/Film/b.mkv"; ac_permanent := false; ac_created_at := 0; ac_started_at := None; ac_finished_at := None |}.
Definition fx_target (v : MediaVersion) : target := {| tg_action := fx_restored; tg_id := 1; tg_file := fx_file v |}.
Definition fx_nothing : verification :=
  {| vr_keepers := []; vr_losers := []; vr_items := []; vr_removing := []; vr_problem := None; vr_wait := false |}.
Definition fx_chosen (v : MediaVersion) : option choice := fst (selectMethod fx_env fx_cfg fx_libs fx_loaded (fx_target v) fx_nothing).

Lemma method_selected_witness : exists c, fx_chosen fx_small = Some c /\ ch_method c = MethodFilesystem /\
  choice_ok fx_env fx_cfg fx_libs fx_loaded fx_small (loser_of fx_nothing (fx_target fx_small)) fx_nothing c.
Proof.
  eexists. split; [by vm_compute |]. split; [done |].
  exact (proj1 (method_selected fx_env fx_cfg fx_libs fx_loaded (fx_target fx_small) fx_nothing _ ltac:(by vm_compute))).
Defined.
(** The *arr that tracks the file cannot be asked about its recycle bin. *)
Definition fx_arr_cfg : config := {|
  cf_settings := cf_settings fx_cfg; cf_servers := cf_servers fx_cfg;
  cf_arrs := {[1 := {| ai_kind := "radarr"; ai_enabled := true; ai_server_ids := []; ai_links_confirmed := true |}]}; cf_mappings := [fx_mapping]; cf_libraries := ∅;
  cf_exclusions := []; cf_profiles := ∅; cf_default_profile := fx_profile |}.
Lemma unreadable_arr_stops_witness : arrChoice fx_env fx_arr_cfg fx_tracked = inl (ArrUnreadable, true) /\
  exists c, fst (selectMethod fx_env fx_arr_cfg fx_libs fx_loaded (fx_target fx_tracked) fx_nothing) = Some c /\ ch_method c <> MethodArr.
Proof.
  split; [by vm_compute |]. eexists. split; [by vm_compute |].
  exact (proj1 (unreadable_arr_stops fx_env fx_arr_cfg fx_libs fx_loaded (fx_target fx_tracked) fx_nothing _ ArrUnreadable ltac:(by vm_compute) ltac:(by vm_compute) ltac:(by vm_compute))).
Defined.

Lemma removals_confined_witness : exists p, removed_by (D := fx_selecting) fx_cfg fx_begin p /\
  exists c, summary c = pf_choice p /\ choice_ok fx_env fx_cfg fx_libs (pf_group p) (tg_version (pf_target p)) (loser_of (pf_verification p) (pf_target p)) (pf_verification p) c.
Proof.
  assert (Hp : exists p, removed_by (D := fx_selecting) fx_cfg fx_begin p) by (unfold removed_by; vm_compute; eexists; left).
  destruct Hp as [p Hp]. exists p. split; [exact Hp |].
  destruct (removals_confined (fun _ => fx_env) fx_libs fx_methods fx_cfg fx_begin p eq_refl Hp) as (_ & c & H1 & H2 & _). by exists c.
Defined.

Lemma bin_separate_witness : validateRecycleBin fx_env "/data/bin" ["/data/m"] [fx_mapping] ["/data/m"] = inr "/data/bin" /\ at_or_in "/data/m" "/data/bin" = false.
Proof.
  assert (Hv : validateRecycleBin fx_env "/data/bin" ["/data/m"] [fx_mapping] ["/data/m"] = inr "/data/bin") by by vm_compute. split; [exact Hv |].
  destruct (bin_separate fx_env "/data/bin" ["/data/m"] [fx_mapping] ["/data/m"] "/data/bin" Hv) as (_ & _ & Hr & _). apply Hr. left.
Defined.

(** The older file in the bin keeps its name; the new one is found under another. *)
Definition fx_small_choice : choice := default {| ch_method := ""; ch_permanent := true; ch_plan := ArrPlan 0 {| af_instance_id := 1; af_instance_name := ""; af_kind := "";
  af_file_id := 0; af_item_id := 0; af_episode_ids := []; af_custom_format_score := None; af_edition := ""; af_tags := []; af_quality_cutoff_not_met := false; af_date_added := 0 |} "" |} (fx_chosen fx_small).
Definition fx_small_plan : fsPlan := match ch_plan fx_small_choice with FilesPlan p => p | _ => film "" end.
Definition fx_moved : performResult :=
  fst (perform (fun _ _ => "") no_fault into_bin (format_day (2026, 7, 1)) fx_small_choice Pass Deleted [] MeasureFailed true disk0).
Lemma recycled_parts_restorable_witness : fx_moved = PDone "" "/data/bin/2026-07-01/Film/a_2.mkv" /\
  Forall (fun r => isRecycledPart "/data/bin" r = true) (split_byte "010"%char "/data/bin/2026-07-01/Film/a_2.mkv").
Proof.
  assert (Hm : fx_moved = PDone "" "/data/bin/2026-07-01/Film/a_2.mkv") by by vm_compute. split; [exact Hm |].
  assert (Hc : fst (selectMethod fx_env fx_cfg fx_libs fx_loaded (fx_target fx_small) fx_nothing) = Some fx_small_choice) by by vm_compute.
  assert (Hp : ch_plan fx_small_choice = FilesPlan fx_small_plan) by by vm_compute.
  assert (Hr : ch_permanent fx_small_choice = false) by by vm_compute.
  assert (Hb : fp_bin fx_small_plan = "/data/bin") by by vm_compute.
  pose proof (selected_ok fx_env fx_cfg fx_libs fx_loaded (fx_target fx_small) fx_nothing fx_small_choice Hc) as Hok.
  assert (Hl : contains_line_break (fp_bin fx_small_plan) = false) by by rewrite Hb.
  pose proof (recycled_parts_restorable (fun _ _ => "") fx_env fx_cfg fx_libs fx_loaded _ _ fx_nothing fx_small_choice
    fx_small_plan no_fault into_bin (2026, 7, 1) Pass Deleted [] MeasureFailed true disk0 "" _ fx_eval Hok Hp Hr Hl Hm) as [_ Hf].
  rewrite Hb in Hf. exact Hf.
Defined.

Lemma restores_confined_witness : exists m, plan_restore fx_env fx_cfg fx_libs fx_restored None = inr ("/data/bin", false, [m]) /\ rm_to m = "/data/m/Film/b.mkv" /\ isWithin (rm_to m) (rm_to_root m) = true.
Proof.
  destruct (plan_restore fx_env fx_cfg fx_libs fx_restored None) as [e|[[bin disc] moves]] eqn:E; [vm_compute in E; discriminate E |].
  destruct (restores_confined fx_env fx_cfg fx_libs fx_restored None bin disc moves E) as (_ & _ & _ & _ & _ & _ & _ & Hm & _).
  vm_compute in E. injection E as <- <- <-. eexists. split; [reflexivity |]. split; [reflexivity |]. inversion Hm as [|m l Hok]. exact (mo_within _ _ _ _ Hok).
Defined.

Lemma restored_not_removed_again_witness :
  let '(s', ignored) := afterRestore 0 "" false false fx_restored (Some fx_loaded) sample_approved in
  ignored = true /\ exists r, sd_groups s' !! 1 = Some r /\ row_status r = GroupIgnored.
Proof.
  pose proof (restored_not_removed_again 0 "" false false fx_restored (Some fx_loaded) sample_approved sample_approved_reachable eq_refl) as Hr.
  assert (Hig : snd (afterRestore 0 "" false false fx_restored (Some fx_loaded) sample_approved) = true) by by vm_compute.
  destruct (afterRestore 0 "" false false fx_restored (Some fx_loaded) sample_approved) as [s' ig]. cbn [snd] in Hig. split; [exact Hig |].
  destruct (proj2 Hr Hig) as (g0 & r & Hg & Hl & Hst & _). injection Hg as <-. exists r. split; [exact Hl | exact Hst].
Defined.

Definition fx_bin : opened_bin := {|
  ob_marked := Some true; ob_names := Some ["2026-06-01"; "2026-07-01"; "2026-02-30"; "notes"]; ob_lstat := fun _ => Got fx_dir |}.
Lemma only_expired_emptied_witness : CleanRecycleBin fx_env fx_cfg fx_libs 30 (2026, 7, 2) (fun _ => Got fx_bin) (fun _ => true) = inr ["2026-06-01"] /\
  exists d, parse_day "2026-06-01" = Some d /\ day_number d < day_number (2026, 7, 2) - 30.
Proof.
  assert (Hc : CleanRecycleBin fx_env fx_cfg fx_libs 30 (2026, 7, 2) (fun _ => Got fx_bin) (fun _ => true) = inr ["2026-06-01"]) by by vm_compute. split; [exact Hc |].
  destruct (proj1 (only_expired_emptied fx_env fx_cfg fx_libs 30 (2026, 7, 2) _ _ _ "2026-06-01" Hc) (list_elem_of_here _ _)) as (_ & bin & b & names & d & s & _ & _ & _ & _ & _ & _ & H1 & H2 & _).
  by exists d.
Defined.
